(* ===== verification/_CoqProject ===== *)
-Q . S2P
Prelude.v
KList.v
KListSpec.v
KListProps.v
Tasks.v
TasksView.v
TasksInv.v
TasksTick.v
TasksSwitch.v
TasksBlock.v
TasksResume.v
TasksDelay.v
TasksOps.v
TasksSuspend.v
TasksPrio.v
TasksEvents.v
TasksTime.v
TasksCreate.v
TasksMachine.v
TasksTrace.v
TasksCheck.v
TasksWaiters.v
TasksProps.v
TasksFrame.v
TasksBlind.v
TasksDetach.v
Prog.v
Queue.v
QueueData.v
QueueOps.v
QueueMachine.v
QueueCalls.v
SchedLock.v
KernelLock.v
Heap4.v
Heap4Spec.v
Heap4Rep.v
Heap4Ops.v
Heap4Calls.v
Heap4Client.v
HeapProps.v
QueueMgmt.v
QueueExample.v
QueueProps.v
TaskNotify.v
NotifyOps.v
NotifyMachine.v
NotifyProps.v
TaskLife.v
TaskDelete.v
EventGroups.v
EventGroupOps.v
EventProps.v
PosixShim.v
PosixOps.v
PosixCalls.v
PosixProps.v
StreamBuffer.v
StreamRing.v
StreamMachine.v
StreamSafe.v
StreamProps.v
Timers.v
TimerOps.v
TimerProps.v
Port.v
PortSwitch.v
PortKernel.v
PortMachine.v
PortTasks.v
PortStart.v
PortProps.v
TaskInfo.v
TaskInfoOps.v
TaskInfoProps.v
TaskStart.v
StartBoard.v
StartProps.v
SysArch.v
