(* ===== verification/Prelude.v ===== *)
(** * STM32 Simulated Linux: a verification library

    The repository runs "Linux-like" applications on a simulated Cortex-M3: the
    FreeRTOS kernel under src/FreeRTOS/Source, and above it the demo's own layer
    under src/FreeRTOS/Demo/CORTEX_MPS2_QEMU_IAR_GCC, which offers POSIX threads,
    mutexes, semaphores and sleeps (posix_shim.c) and the system layer of lwIP.
    This library models the C code of the kernel and of the POSIX layer in the
    configuration of the demo (FreeRTOSConfig.h: one core, preemption with time
    slicing, 32-bit ticks, port-optimised task selection, heap_4, static and
    dynamic allocation, mutexes, queue sets, trace facility) and proves what makes
    it correct.

    ** How code becomes definitions

    A C function is a function of the state and its arguments with a result in
    [res]: [ROk], or one of four failures kept apart - a failed [configASSERT]
    ([RAssert]), a fatal hook ([RHalt]), a bad pointer or a copy out of bounds
    ([RFault]), and a loop whose fuel ran out ([RFuel]).  [M S A] is the monad of
    such functions, [wp m Q s] says that [m] ends from [s] with none of the four
    in a state with [Q]; every theorem is about [wp], about an equation or about
    the steps of a machine, so none holds merely because the code does not return.
    Names are those of the C code; a helper that is a part of a C function is
    given by its lines in the manifest.  Unsigned 32-bit integers are [Z] with
    [wrap32] where C wraps, the signed 8-bit counts of queue locks are [wrap_int8].
    Macros that only trace and coverage markers are left out.

    What runs with interrupts masked, with the scheduler suspended or in an
    interrupt is one such function.  A function that blocks, or that other tasks
    can interleave with, is a program of [Prog]: a tree of atomic steps, with
    [Loop] for [for( ; ; )].  [mstep] interleaves the programs of any number of
    tasks with interrupts and context switches; [safe] is a rely-guarantee logic
    for programs and [machine_safe] its soundness; [exec] runs a program alone.

    ** The files

    - [Prelude]: results, the monad and its rules, machine integers, lists, tactics.
      [Prog]: programs of atomic steps, the machine, the logic.
    - list.c, list.h: [KList] has the pointer-level store (items and end markers
      linked by [pxNext]/[pxPrevious]), [KListSpec] the refinement of rings,
      [KListProps] the theorems.
    - tasks.c: [Tasks] has the state (TCBs, ready lists, delayed lists and
      all other file-scope variables, over the lists of [KList]) and the functions
      of scheduling.  [TasksView] is the abstract view (which item is in which
      ring), [TasksInv] the invariant [kinv]; [TasksTick], [TasksSwitch],
      [TasksBlock], [TasksResume], [TasksDelay], [TasksOps], [TasksSuspend],
      [TasksPrio], [TasksEvents], [TasksTime] and [TasksCreate] prove the rules of
      the operations; [TasksMachine] and [TasksTrace] are the kernel as a machine,
      [TasksWaiters], [TasksFrame], [TasksBlind] and [TasksDetach] what clients
      need (who waits, what an operation leaves alone, that no operation reads the
      pending bit of PendSV, that a ready task waits for nothing); [TasksCheck]
      decides the invariant for a concrete state and computes some,
      [TasksProps] has the theorems.  [TaskNotify]: task notifications;
      [NotifyOps] (the rules of one notification), [NotifyMachine] (tasks and
      interrupts that notify each other, interleaved), [NotifyProps].
      [TaskLife], [TaskDelete]: tasks on the heap and their deletion, with the idle
      task's part.  [TaskInfo]: what the kernel tells about its tasks, over the
      board of [Port]; [TaskInfoOps], [TaskInfoProps].
    - heap_4.c: [Heap4] is the allocator at byte level, block headers being bytes
      of the array, against the interface [SchedulerLock] of [SchedLock], which
      [KernelLock] implements with tasks.c.  [Heap4Spec] has rows of blocks with
      first fit and release, [Heap4Rep], [Heap4Ops] and [Heap4Calls] show that the
      code implements them, [Heap4Client] what a client sees (a map of independent
      buffers), [HeapProps] the theorems.
    - queue.c: [Queue] (the data path), [QueueMgmt] (creation, reset, queue sets,
      registry); [QueueData] relates the circular buffer to a list of messages,
      [QueueOps] has the rules of the critical sections, [QueueMachine] the
      interleaved system and its invariant, [QueueCalls] the calls that nothing
      interrupts, [QueueProps] the theorems, [QueueExample] concrete systems and
      concrete runs that contradict comments of the code.
    - event_groups.c: [EventGroups], [EventGroupOps], [EventProps].
    - stream_buffer.c: [StreamBuffer], a step per access to the fields the two
      sides share; [StreamRing], the ring of bytes; [StreamMachine], a writer and a
      reader interleaved; [StreamSafe], the proof in the logic of [Prog];
      [StreamProps].
    - timers.c: [Timers], the daemon and the commands it gets through its queue, with
      the application's functions as parameters; [TimerOps], [TimerProps].
    - posix_shim.c: [PosixShim], over queues, heap and tasks; [PosixOps],
      [PosixCalls], [PosixProps].
    - port.c, portmacro.h: [Port] has the processor (registers, the two stack
      pointers, BASEPRI, memory by words, exception entry and return), the
      handlers as lists of instructions and every function of the port, over the
      kernel of [Tasks]; [PortSwitch] (frames and contexts in memory, rules of the
      handlers), [PortKernel] (what the port sees of the kernel), [PortMachine] (the
      invariant of the board, PendSV and interrupts), [PortTasks] (stacks of new
      tasks), [PortStart] (start-up and its checks), [PortProps].
    - start-up (tasks.c, timers.c and main.c over the port): [TaskStart] has the
      creation of a task with its stack and name, the kernel's own tasks and
      [vTaskStartScheduler]; [StartBoard] (the timers' queue, tasks
      created one after the other, up to the first task), [StartProps].
    - sys_arch.c: [SysArch], over queues, tasks and the port.

    ** State and operations

    The state of each part is a record of the variables of its file: [kernel]
    (tasks.c and the pending bit of PendSV), [qsys] (the kernel, the [Queue_t] by
    address, the registry), [esys] and [ssys] (the kernel with event groups or
    stream buffers), [heap] (the bytes of [ucHeap] with the variables of heap_4.c;
    a client state and a heap make a [guarded] state), [psys] and [tmsys] (queues and heap with the
    threads or the timers), [core] (the
    processor with the kernel), [TaskInfo.tsys] (the same with names), [bsys] (that
    with the timers' state).  [zoom] runs the operation of a part on the whole, so that, say,
    [xQueueGenericSend] calls the definitions of tasks.c themselves.  The tick is
    [xPortSysTickHandler], a context switch [xPortPendSVHandler], enabled when it
    is pending; a task runs when it is [pxCurrentTCB] and no switch is pending.
    Addresses are numbers, 0 is [NULL].

    ** What is proved

    - Scheduler (C1-C15): from reset no sequence of enabled calls and interrupts
      fails, and no better task waits without a switch pending; the tick, the
      switch, time slicing, delays and periods over the wrap of the tick counter,
      time-outs, suspension, priorities and their inheritance, event lists - each
      by what it does to lists, ready tasks and times, on all its branches.
    - Notifications (C16, C17): no interleaving of waiting and notifying loses a
      wake-up; the exact effect of one notification.
    - Lists (C18, C19): sorted and stable insertion, exact removal.
    - Heap (C20-C23): the allocator refines independent buffers; first fit,
      coalescing, reclamation of everything; also the double-free assertion.
    - Port (C24): from start-up, whatever tasks and interrupts do, the handlers
      perform the kernel's switches, and a task goes on with the registers and the
      stack it was interrupted with; interrupts are masked exactly inside critical
      sections.  This is what lets the other parts take a critical section as one
      step and a task as a program of its own.
    - Start-up (C25): from reset, [main] creates tasks and starts the scheduler; the
      processor ends up in the first task, on the board that C24 runs.
    - Reports (C26, C27): every task once, with its state and the unused part of its
      stack; a task by the part of its name that is kept.
    - Queues (C28-C33): safety of every interleaving with interrupts, the exact
      effect of each call, blocking, the wake-ups of locked queues, round trip.  The
      good states of these theorems ([qgood]) have queues and semaphores, but no
      mutex and no member of a queue set; mutexes, recursive mutexes and queue sets
      are modelled, with computed runs in [QueueExample], and the inheritance that
      mutexes use has its theorems in the scheduler.
    - Event groups (C34, C35): who is woken with which bits, who waits on, and when
      a wait answers.
    - POSIX layer (C36-C38): the walks along the list of threads end and change only
      links; exit and join, each run without interruption.  [PosixProps] also has
      how long sleeps last, and two that do not last what they should.
    - Stream buffers (C39): lossless transfer between an interleaved writer and
      reader of a plain stream buffer, when neither waits ([xTicksToWait] is 0 in
      both, so no task is ever noted as waiting and none is notified).
    - Timers (C40): how often an expired timer is called and when it is due again,
      over the wrap of the tick counter.

    Hypotheses are invariants ([kinv], [kgood], [qgood], heap and list
    representation), preconditions of the API, and, for the allocator, where the
    linker puts the array ([HeapLayoutOk]); each theorem with hypotheses has a
    witness on a state that the model computes from reset.

    ** Bounds and fuel

    A loop over a kernel list runs with one turn more than the list's length,
    which the representation invariant makes enough; the loops of heap_4.c have
    [list_fuel], one turn more than there can be blocks in the array; a walk along
    the threads of posix_shim.c has one turn more than there are records.  The
    theorems show that the fuel suffices, as [RFuel] is a failure for [wp].
    [Loop] has no fuel in the machine; [exec n] allows [n] turns, and a theorem
    about [exec] says for which [n] the call returns.

    ** Not modelled

    - Time on the processor: the machine of [PortProps] takes an instruction-level
      handler as one step (PendSV has the lowest priority and SVC the highest; what
      a nested interrupt may do to a handler is [clobber] and the kernel's step).
      Above the port, a critical section is an atomic step; in [vTaskSuspend]
      several in a row are one.
    - The interrupt controller: [portASSERT_IF_INTERRUPT_PRIORITY_INVALID] of the
      functions for interrupts compares the priorities set in hardware and is left out.
    - Run-time statistics, the MPU wrappers, SMP branches, tickless idle, the
      callbacks of stream buffers and co-routines are not compiled in.
    - ethernetif.c, main.c (but for its hooks and the memory it gives to the kernel's
      tasks) and the demo's task bodies: device access and printing.
    - Dynamically created tasks in the start-up theorem: heap_4.c works on bytes, the
      board's memory is words, so [StartProps] has [main] create its tasks in memory
      of its own ([xTaskCreateStatic]); [TaskLife] has [xTaskCreate] over the heap.
    - lwIP, FreeRTOS-Plus, wolfSSL, mbedTLS and the other vendored libraries, and
      the kernel's own tests.

    ** Plan

    Next: waiting and message framing of stream buffers in the interleaved machine,
    which now covers calls that do not wait; mutexes and queue sets in the
    machine of queues; the daemon of timers.c as a whole, with its queue; deletion
    of other tasks and of queues in the interleaved machine. *)
From stdpp Require Export functions base gmap list fin_maps strings numbers option relations.
From Stdlib Require Export ZArith Lia.
#[global] Open Scope Z_scope.
#[global] Set Default Goal Selector "!".

(** ** Results of an execution

    [RAssert]: a [configASSERT] failed ([vAssertCalled] of main.c spins in a
    critical section); [RHalt]: a fatal hook of main.c disabled interrupts and
    spins; [RFault]: the C program would dereference [NULL] or an object that
    does not exist; [RFuel]: the fuel given to a loop of the model ran out. *)
Inductive res (A : Type) : Type :=
| ROk (a : A)
| RAssert
| RHalt
| RFault
| RFuel.
Arguments ROk {_} _.
Arguments RAssert {_}.
Arguments RHalt {_}.
Arguments RFault {_}.
Arguments RFuel {_}.

(** ** The state-and-error monad the operations are written in *)
Definition M (S A : Type) : Type := S → res (A * S).

Definition retM {S A} (a : A) : M S A := λ s, ROk (a, s).
Definition bindM {S A B} (m : M S A) (k : A → M S B) : M S B := λ s,
  match m s with
  | ROk (a, s') => k a s'
  | RAssert => RAssert
  | RHalt => RHalt
  | RFault => RFault
  | RFuel => RFuel
  end.
Definition getM {S} : M S S := λ s, ROk (s, s).
Definition gets {S A} (f : S → A) : M S A := λ s, ROk (f s, s).
Definition modify {S} (f : S → S) : M S unit := λ s, ROk (tt, f s).
Definition haltM {S A} : M S A := λ _, RHalt.
Definition faultM {S A} : M S A := λ _, RFault.
Definition fuelM {S A} : M S A := λ _, RFuel.

(** [configASSERT( x )] *)
Definition configASSERT {S} (x : bool) : M S unit := λ s,
  if x then ROk (tt, s) else RAssert.

(** An access through a pointer that may be bad. *)
Definition derefM {S A} (o : option A) : M S A :=
  match o with Some a => retM a | None => faultM end.

(** An operation on a part of the state. *)
Definition zoom {S T A} (get : S → T) (put : T → S → S) (m : M T A) : M S A := λ s,
  match m (get s) with
  | ROk (a, t) => ROk (a, put t s)
  | RAssert => RAssert
  | RHalt => RHalt
  | RFault => RFault
  | RFuel => RFuel
  end.

Declare Scope rtos_scope.
Delimit Scope rtos_scope with rtos.
Notation "'let*' p ':=' m 'in' k" := (bindM m (fun p => k))
  (at level 10, p pattern, m at level 100, k at level 200) : rtos_scope.
Notation "m ;> k" := (bindM m (fun _ => k))
  (at level 100, right associativity) : rtos_scope.
Notation "'when' b 'then' m" := (if b then m else retM tt)
  (at level 99, b at level 200, m at level 200) : rtos_scope.
#[global] Open Scope rtos_scope.

(** A loop with local variables [b]: [body] answers [inl b'] to go round again
    with [b'] and [inr a] to leave with [a]. *)
Fixpoint iterM {S A B} (fuel : nat) (body : B → M S (B + A)) (b : B) : M S A :=
  match fuel with
  | O => fuelM
  | Datatypes.S n =>
      let* r := body b in
      match r with
      | inl b' => iterM n body b'
      | inr a => retM a
      end
  end.

(** ** Total-correctness predicate

    [wp m Q s]: run from [s], [m] terminates without a failed assertion and
    without a fault, and its result satisfies [Q]. *)
Definition wp {S A} (m : M S A) (Q : A → S → Prop) (s : S) : Prop :=
  match m s with
  | ROk (a, s') => Q a s'
  | _ => False
  end.

(** The state a run ends in, or the given one if it does not return. *)
Definition final {S A} (m : M S A) (s : S) : S :=
  match m s with ROk (_, s') => s' | _ => s end.

Section wp.
Context {S : Type}.

Lemma wp_ret {A} (a : A) (Q : A → S → Prop) s : Q a s → wp (retM a) Q s.
Proof. done. Qed.

Lemma wp_bind {A B} (m : M S A) (k : A → M S B) Q s :
  wp m (λ a s', wp (k a) Q s') s → wp (bindM m k) Q s.
Proof. unfold wp, bindM. by destruct (m s) as [[a s']| | | |]. Qed.

Lemma wp_bind_inv {A B} (m : M S A) (k : A → M S B) Q s :
  wp (bindM m k) Q s → wp m (λ a s', wp (k a) Q s') s.
Proof. unfold wp, bindM. by destruct (m s) as [[a s']| | | |]. Qed.

(** Associativity of sequences. *)
Lemma wp_bind_assoc {A B C} (m : M S A) (f : A → M S B) (g : B → M S C) Q s :
  wp (bindM (bindM m f) g) Q s → wp (bindM m (λ a, bindM (f a) g)) Q s.
Proof. unfold wp, bindM. by destruct (m s) as [[a s']| | | |]. Qed.

Lemma wp_bind_assoc2 {A B C D} (m : M S A) (f : A → M S B) (g : B → M S C) (h : M S D) Q s :
  wp (bindM m (λ a, bindM (f a) g)) (λ _ s', wp h Q s') s →
  wp (bindM m (λ a, bindM (f a) (λ b, bindM (g b) (λ _, h)))) Q s.
Proof.
  unfold wp, bindM. destruct (m s) as [[a s1]| | | |]; [|done..].
  destruct (f a s1) as [[b s2]| | | |]; [|done..]. by destruct (g b s2) as [[c s3]| | | |].
Qed.

Lemma wp_mono {A} (m : M S A) (Q Q' : A → S → Prop) s :
  wp m Q s → (∀ a s', Q a s' → Q' a s') → wp m Q' s.
Proof. unfold wp. destruct (m s) as [[a s']| | | |]; auto. Qed.

Lemma wp_conj {A} (m : M S A) (Q Q' : A → S → Prop) s :
  wp m Q s → wp m Q' s → wp m (λ a s', Q a s' ∧ Q' a s') s.
Proof. unfold wp. destruct (m s) as [[a s']| | | |]; auto. Qed.

Lemma wp_getM (Q : S → S → Prop) s : Q s s → wp getM Q s.
Proof. done. Qed.

Lemma wp_gets {A} (f : S → A) (Q : A → S → Prop) s : Q (f s) s → wp (gets f) Q s.
Proof. done. Qed.

Lemma wp_modify (f : S → S) (Q : unit → S → Prop) s : Q tt (f s) → wp (modify f) Q s.
Proof. done. Qed.

Lemma wp_assert (b : bool) (Q : unit → S → Prop) s :
  b = true → Q tt s → wp (configASSERT b) Q s.
Proof. intros ->. done. Qed.

Lemma wp_deref {A} (o : option A) a (Q : A → S → Prop) s :
  o = Some a → Q a s → wp (derefM o) Q s.
Proof. intros ->. done. Qed.

Lemma wp_zoom {T A} (get : S → T) (put : T → S → S) (m : M T A) Q s :
  wp m (λ a t, Q a (put t s)) (get s) → wp (zoom get put m) Q s.
Proof. unfold wp, zoom. by destruct (m (get s)) as [[a t]| | | |]. Qed.

(** Any result of a successful run satisfies what [wp] promises. *)
Lemma wp_run {A} (m : M S A) (Q : A → S → Prop) s a s' :
  wp m Q s → m s = ROk (a, s') → Q a s'.
Proof. unfold wp. intros H Heq. by rewrite Heq in H. Qed.

Lemma wp_ok {A} (m : M S A) (Q : A → S → Prop) s :
  wp m Q s → ∃ a s', m s = ROk (a, s') ∧ Q a s'.
Proof. unfold wp. destruct (m s) as [[a s']| | | |]; naive_solver. Qed.

Lemma wp_intro {A} (m : M S A) (Q : A → S → Prop) s a s' :
  m s = ROk (a, s') → Q a s' → wp m Q s.
Proof. unfold wp. intros Heq ?. by rewrite Heq. Qed.

Lemma wp_final {A} (m : M S A) (P : S → Prop) s : wp m (λ _, P) s → P (final m s).
Proof. unfold wp, final. by destruct (m s) as [[a s']| | | |]. Qed.

(** Loops: [I n b s] is an invariant whose variant [n] decreases. *)
Lemma wp_iter {A B} (I : nat → B → S → Prop) (body : B → M S (B + A)) (Q : A → S → Prop) fuel n b s :
  (∀ n b s, I n b s →
    wp (body b) (λ r s', match r with
                     | inr a => Q a s'
                     | inl b' => ∃ n', (n' < n)%nat ∧ I n' b' s'
                     end) s) →
  I n b s → (n < fuel)%nat → wp (iterM fuel body b) Q s.
Proof.
  intros Hbody. revert n b s.
  induction fuel as [|fuel IH]; intros n b s HI Hn; [lia|].
  simpl. apply wp_bind. eapply wp_mono; [by apply (Hbody n)|].
  intros [b'|a] s'; simpl; [|done]. intros (n' & ? & ?). apply (IH n'); [done|lia].
Qed.
End wp.

(** ** What an operation keeps

    [keeps P m]: however [m] returns, a state that satisfied [P] still does.
    Unlike [wp] it promises no return, so it is proved by following the code. *)
Definition keeps {S A} (P : S → Prop) (m : M S A) : Prop := ∀ s a s', P s → m s = ROk (a, s') → P s'.

Create HintDb keeps discriminated.

Section keeps.
Context {S : Type} (P : S → Prop).

Lemma keeps_ret {A} (a : A) : keeps P (retM a).
Proof. by intros s x s' Hs [= _ <-]. Qed.
Lemma keeps_bind {A B} (m : M S A) (f : A → M S B) :
  keeps P m → (∀ a, keeps P (f a)) → keeps P (bindM m f).
Proof.
  intros Hm Hf s b s' Hs. unfold bindM. destruct (m s) as [[a s1]| | | |] eqn:Heq; [|done..].
  apply Hf. by eapply Hm.
Qed.
Lemma keeps_getM : keeps P getM.
Proof. by intros s x s' Hs [= _ <-]. Qed.
Lemma keeps_gets {A} (f : S → A) : keeps P (gets f).
Proof. by intros s x s' Hs [= _ <-]. Qed.
Lemma keeps_modify (f : S → S) : (∀ s, P s → P (f s)) → keeps P (modify f).
Proof. intros Hf s x s' Hs [= _ <-]. by apply Hf. Qed.
Lemma keeps_assert b : keeps P (configASSERT b).
Proof. intros s x s' Hs. unfold configASSERT. destruct b; [by intros [= _ <-]|done]. Qed.
Lemma keeps_deref {A} (o : option A) : keeps P (derefM o).
Proof. destruct o; [apply keeps_ret|done]. Qed.
Lemma keeps_fault {A} : keeps P (faultM (A := A)).
Proof. done. Qed.
Lemma keeps_halt {A} : keeps P (haltM (A := A)).
Proof. done. Qed.
Lemma keeps_fuel {A} : keeps P (fuelM (A := A)).
Proof. done. Qed.
Lemma keeps_zoom {T A} (get : S → T) (put : T → S → S) (R : S → T → Prop) (m : M T A) :
  (∀ s, P s → R s (get s)) → (∀ s t, P s → R s t → P (put t s)) → (∀ s, keeps (R s) m) →
  keeps P (zoom get put m).
Proof.
  intros Hget Hput Hm s a s' Hs. unfold zoom. destruct (m (get s)) as [[b t]| | | |] eqn:Heq; [|done..].
  intros [= -> <-]. apply Hput; [done|]. eapply (Hm s); [by apply Hget|done].
Qed.
Lemma keeps_iter {A B} (body : B → M S (B + A)) fuel b :
  (∀ b, keeps P (body b)) → keeps P (iterM fuel body b).
Proof.
  intros Hb. revert b. induction fuel as [|n IH]; intros b; [done|]. simpl.
  apply keeps_bind; [apply Hb|]. intros [b'|a]; [apply IH|apply keeps_ret].
Qed.

(** A kept property can be added to what [wp] promises. *)
Lemma wp_keeps {A} (m : M S A) (Q : A → S → Prop) s :
  keeps P m → P s → wp m Q s → wp m (λ a s', Q a s' ∧ P s') s.
Proof. intros Hk Hs. unfold wp. destruct (m s) as [[a s']| | | |] eqn:Heq; naive_solver. Qed.
End keeps.
#[export] Hint Resolve keeps_ret keeps_getM keeps_gets keeps_assert keeps_deref keeps_fault
  keeps_halt keeps_fuel : keeps.

(** Follows the code of an operation; the hints know the operations it calls. *)
Ltac keeps_step :=
  lazymatch goal with
  | |- keeps _ (bindM _ _) => apply keeps_bind; [|intros]
  | |- keeps _ (modify _) => first [solve [eauto with keeps] | apply keeps_modify]
  | |- keeps _ (iterM _ _ _) => apply keeps_iter; intros
  | |- keeps _ (match ?x with _ => _ end) => destruct x
  | |- keeps _ (let _ := ?x in _) => cbv zeta
  | |- keeps _ _ => solve [eauto with keeps]
  end.
Ltac solve_keeps := intros; repeat keeps_step.

(** ** What an operation does not look at

    [blind f m]: changing the state by [f] before [m] or after it makes no
    difference, and [m] returns the same. *)
Definition after_res {S A} (f : S → S) (r : res (A * S)) : res (A * S) :=
  match r with ROk (a, s) => ROk (a, f s) | RAssert => RAssert | RHalt => RHalt | RFault => RFault | RFuel => RFuel end.
Definition blind {S A} (f : S → S) (m : M S A) : Prop := ∀ s, m (f s) = after_res f (m s).

Create HintDb blind discriminated.

Section blind.
Context {S : Type} (f : S → S).

Lemma blind_ret {A} (a : A) : blind f (retM a).
Proof. done. Qed.
Lemma blind_bind {A B} (m : M S A) (k : A → M S B) : blind f m → (∀ a, blind f (k a)) → blind f (bindM m k).
Proof. intros Hm Hk s. unfold bindM. rewrite Hm. destruct (m s) as [[a s']| | | |]; simpl; [apply Hk|done..]. Qed.
Lemma blind_getM {A} (k : S → M S A) :
  (∀ s, k (f s) = k s) → (∀ s, blind f (k s)) → blind f (bindM getM k).
Proof. intros Heq Hk s. unfold bindM, getM. rewrite Heq. apply Hk. Qed.
Lemma blind_gets {A} (g : S → A) : (∀ s, g (f s) = g s) → blind f (gets g).
Proof. intros Hg s. unfold gets. simpl. by rewrite Hg. Qed.
Lemma blind_modify (g : S → S) : (∀ s, g (f s) = f (g s)) → blind f (modify g).
Proof. intros Hg s. unfold modify. simpl. by rewrite Hg. Qed.
Lemma blind_assert b : blind f (configASSERT b).
Proof. intros s. unfold configASSERT. by destruct b. Qed.
Lemma blind_deref {A} (o : option A) : blind f (derefM o).
Proof. by destruct o. Qed.
Lemma blind_fault {A} : blind f (faultM (A := A)).
Proof. done. Qed.
Lemma blind_fuel {A} : blind f (fuelM (A := A)).
Proof. done. Qed.
Lemma blind_zoom {T A} (get : S → T) (put : T → S → S) (m : M T A) :
  (∀ s, get (f s) = get s) → (∀ s t, put t (f s) = f (put t s)) → blind f (zoom get put m).
Proof.
  intros Hg Hp s. unfold zoom. rewrite Hg. destruct (m (get s)) as [[a t]| | | |]; simpl; [by rewrite Hp|done..].
Qed.
Lemma blind_iter {A B} (body : B → M S (B + A)) fuel b :
  (∀ b, blind f (body b)) → blind f (iterM fuel body b).
Proof.
  intros Hb. revert b. induction fuel as [|n IH]; intros b; [done|]. simpl.
  apply blind_bind; [apply Hb|]. by intros [b'|a].
Qed.

(** What [m] achieves from the changed state it achieves from the given one. *)
Lemma wp_blind {A} (m : M S A) (Q : A → S → Prop) s :
  blind f m → wp m Q (f s) → wp m (λ a s', Q a (f s')) s.
Proof. intros Hm. unfold wp. rewrite Hm. by destruct (m s) as [[a s']| | | |]. Qed.
End blind.
#[export] Hint Resolve blind_ret blind_assert blind_deref blind_fault blind_fuel : blind.

Ltac blind_step :=
  lazymatch goal with
  | |- blind _ (bindM getM _) => apply blind_getM; [reflexivity|intros]
  | |- blind _ (bindM _ _) => apply blind_bind; [|intros]
  | |- blind _ (gets _) => apply blind_gets; reflexivity
  | |- blind _ (modify _) => apply blind_modify; reflexivity
  | |- blind _ (zoom _ _ _) => apply blind_zoom; reflexivity
  | |- blind _ (iterM _ _ _) => apply blind_iter; intros
  | |- blind _ (match ?x with _ => _ end) => destruct x
  | |- blind _ _ => solve [eauto with blind]
  end.
Ltac solve_blind := intros; repeat blind_step.

(** ** Record update: [r <| f := v |>] *)
Class Eta (R : Type) := eta : R → R.
Class Setter {R T : Type} (p : R → T) := set_field : (T → T) → R → R.
#[global] Hint Mode Setter - - ! : typeclass_instances.
Arguments set_field {_ _} p {_} _ _ : simpl never.

Ltac solve_setter :=
  lazymatch goal with
  | |- @Setter ?R ?T ?p =>
      let i := constr:(_ : Eta R) in
      let h := eval hnf in (@eta R i) in
      lazymatch (eval pattern p in h) with
      | ?s p => exact (fun (f : T → T) (r : R) => s (fun r' => f (p r')) r)
      end
  end.
#[global] Hint Extern 1 (Setter _) => solve_setter : typeclass_instances.

Notation "r <| f := v |>" := (set_field f (fun _ => v) r)
  (at level 1, left associativity, v at level 200) : rtos_scope.
Notation "r <| f ::= g |>" := (set_field f g r)
  (at level 1, left associativity, g at level 200) : rtos_scope.

(** ** Machine integers (32-bit ARM: [size_t], [UBaseType_t], [TickType_t], [uint32_t]) *)
Definition MAX32 : Z := 4294967296.
Definition wrap32 (z : Z) : Z := z mod MAX32.
Definition u32 (z : Z) : Prop := 0 ≤ z < MAX32.
Definition portMAX_DELAY : Z := 4294967295.

Lemma wrap32_small z : u32 z → wrap32 z = z.
Proof. unfold u32, wrap32. apply Z.mod_small. Qed.
Lemma wrap32_u32 z : u32 (wrap32 z).
Proof. unfold u32, wrap32, MAX32. apply Z.mod_pos_bound. lia. Qed.
Lemma wrap32_add z k : wrap32 (z + k * MAX32) = wrap32 z.
Proof. unfold wrap32, MAX32. rewrite Z.mod_add; lia. Qed.
Lemma wrap32_ge z : MAX32 ≤ z < 2 * MAX32 → wrap32 z = z - MAX32.
Proof.
  intros. rewrite <- (wrap32_add z (-1)). rewrite wrap32_small; unfold u32, MAX32 in *; lia.
Qed.
Lemma wrap32_neg z : - MAX32 ≤ z < 0 → wrap32 z = z + MAX32.
Proof.
  intros. rewrite <- (wrap32_add z 1). rewrite wrap32_small; unfold u32, MAX32 in *; lia.
Qed.

(** Closes a goal about concrete data by evaluating it. *)
Ltac by_eval :=
  solve [vm_compute;
    repeat lazymatch goal with
  | |- _ ∧ _ => split
  | |- ex _ => eexists
  | |- _ → False => discriminate
  | |- _ = _ => reflexivity
  | |- True => exact I
  end].

(** ** Lists *)
Lemma filter_all {A} (P : A → Prop) `{∀ x, Decision (P x)} (xs : list A) :
  (∀ x, x ∈ xs → P x) → filter P xs = xs.
Proof.
  induction xs as [|x xs IH]; intros HP; [done|].
  rewrite filter_cons_True by (apply HP; by left). rewrite IH; [done|].
  intros y ?. apply HP. by right.
Qed.
Lemma filter_iff_in {A} (P Q : A → Prop) `{∀ x, Decision (P x)} `{∀ x, Decision (Q x)} (xs : list A) :
  (∀ x, x ∈ xs → P x ↔ Q x) → filter P xs = filter Q xs.
Proof.
  induction xs as [|x xs IH]; intros Hx; [done|]. rewrite !filter_cons.
  pose proof (Hx x ltac:(by left)) as Hxx. rewrite IH by (intros y Hy; apply Hx; by right).
  destruct (decide (P x)), (decide (Q x)); (done || naive_solver).
Qed.
Lemma filter_none {A} (P : A → Prop) `{∀ x, Decision (P x)} (xs : list A) :
  (∀ x, x ∈ xs → ¬ P x) → filter P xs = [].
Proof.
  induction xs as [|x xs IH]; intros HP; [done|].
  rewrite filter_cons_False by (apply HP; by left). apply IH.
  intros y ?. apply HP. by right.
Qed.
