(* ===== verification/KList.v ===== *)
(** * The kernel list (src/FreeRTOS/Source/list.c, include/list.h)

    A store of list items and lists linked by pointers, with one definition per
    function of list.c and per macro of list.h the kernel uses.  A pointer to a
    [ListItem_t] is a symbolic address: an item, or the [xListEnd] marker of a
    list; [None] is [NULL].  [rep] relates a store to the abstract contents of
    its lists (a [ring] each); every operation is proved to implement its
    abstract counterpart on rings. *)
From S2P Require Import Prelude.

Section klist.
Context {I L : Type} `{Countable I} `{Countable L}.

Inductive ptr : Type :=
| PItem (i : I)
| PEnd (l : L).

#[global] Instance ptr_eq_dec : EqDecision ptr.
Proof. solve_decision. Defined.

Record ListItem_t := mkListItem {
  xItemValue : Z;
  pxNext : option ptr;
  pxPrevious : option ptr;
  pvOwner : option Z;
  pxContainer : option L
}.

Record MiniListItem_t := mkMiniListItem {
  end_xItemValue : Z;
  end_pxNext : option ptr;
  end_pxPrevious : option ptr
}.

Record List_t := mkList {
  uxNumberOfItems : Z;
  pxIndex : option ptr;
  xListEnd : MiniListItem_t
}.

Record list_store := mkStore {
  ls_items : gmap I ListItem_t;
  ls_lists : gmap L List_t
}.

#[global] Instance eta_ListItem : Eta ListItem_t := λ r,
  mkListItem (xItemValue r) (pxNext r) (pxPrevious r) (pvOwner r) (pxContainer r).
#[global] Instance eta_MiniListItem : Eta MiniListItem_t := λ r,
  mkMiniListItem (end_xItemValue r) (end_pxNext r) (end_pxPrevious r).
#[global] Instance eta_List : Eta List_t := λ r,
  mkList (uxNumberOfItems r) (pxIndex r) (xListEnd r).
#[global] Instance eta_store : Eta list_store := λ r,
  mkStore (ls_items r) (ls_lists r).

(** ** Reading and writing through pointers *)

Definition nextOf (s : list_store) (p : ptr) : option ptr :=
  match p with
  | PItem i => ls_items s !! i ≫= pxNext
  | PEnd l => ls_lists s !! l ≫= λ x, end_pxNext (xListEnd x)
  end.
Definition prevOf (s : list_store) (p : ptr) : option ptr :=
  match p with
  | PItem i => ls_items s !! i ≫= pxPrevious
  | PEnd l => ls_lists s !! l ≫= λ x, end_pxPrevious (xListEnd x)
  end.
Definition valueOf (s : list_store) (p : ptr) : option Z :=
  match p with
  | PItem i => xItemValue <$> ls_items s !! i
  | PEnd l => (λ x, end_xItemValue (xListEnd x)) <$> ls_lists s !! l
  end.
Definition ownerOf (s : list_store) (i : I) : option Z :=
  ls_items s !! i ≫= pvOwner.
Definition contOf (s : list_store) (i : I) : option L :=
  ls_items s !! i ≫= pxContainer.
Definition countOf (s : list_store) (l : L) : option Z :=
  uxNumberOfItems <$> ls_lists s !! l.
Definition indexOf (s : list_store) (l : L) : option ptr :=
  ls_lists s !! l ≫= pxIndex.
Definition present (s : list_store) (p : ptr) : bool :=
  match p with
  | PItem i => bool_decide (is_Some (ls_items s !! i))
  | PEnd l => bool_decide (is_Some (ls_lists s !! l))
  end.

Definition upd_item (i : I) (f : ListItem_t → ListItem_t) (s : list_store) : list_store :=
  s <| ls_items ::= alter f i |>.
Definition upd_list (l : L) (f : List_t → List_t) (s : list_store) : list_store :=
  s <| ls_lists ::= alter f l |>.
Definition upd_next (p : ptr) (v : option ptr) (s : list_store) : list_store :=
  match p with
  | PItem i => upd_item i (λ x, x <| pxNext := v |>) s
  | PEnd l => upd_list l (λ x, x <| xListEnd ::= λ e, e <| end_pxNext := v |> |>) s
  end.
Definition upd_prev (p : ptr) (v : option ptr) (s : list_store) : list_store :=
  match p with
  | PItem i => upd_item i (λ x, x <| pxPrevious := v |>) s
  | PEnd l => upd_list l (λ x, x <| xListEnd ::= λ e, e <| end_pxPrevious := v |> |>) s
  end.

(** [p->pxNext], [p->pxPrevious], [p->xItemValue] as expressions and as targets
    of an assignment. *)
Definition onPtr {A} (o : option ptr) (f : ptr → M list_store A) : M list_store A :=
  let* p := derefM o in
  let* ok := gets (λ s, present s p) in
  if ok then f p else faultM.
Definition get_next (o : option ptr) : M list_store (option ptr) :=
  onPtr o (λ p, gets (λ s, nextOf s p)).
Definition get_prev (o : option ptr) : M list_store (option ptr) :=
  onPtr o (λ p, gets (λ s, prevOf s p)).
Definition get_value (o : option ptr) : M list_store Z :=
  onPtr o (λ p, gets (λ s, default 0 (valueOf s p))).
Definition set_next (o : option ptr) (v : option ptr) : M list_store unit :=
  onPtr o (λ p, modify (upd_next p v)).
Definition set_prev (o : option ptr) (v : option ptr) : M list_store unit :=
  onPtr o (λ p, modify (upd_prev p v)).
Definition get_item (i : I) : M list_store ListItem_t :=
  let* s := getM in derefM (ls_items s !! i).
Definition get_list (l : L) : M list_store List_t :=
  let* s := getM in derefM (ls_lists s !! l).
Definition set_item (i : I) (f : ListItem_t → ListItem_t) : M list_store unit :=
  get_item i ;> modify (upd_item i f).
Definition set_list (l : L) (f : List_t → List_t) : M list_store unit :=
  get_list l ;> modify (upd_list l f).

(** ** list.c *)

Definition vListInitialise (pxList : L) : M list_store unit :=
  modify (λ s, s <| ls_lists ::= <[pxList :=
    mkList 0 (Some (PEnd pxList))
      (mkMiniListItem portMAX_DELAY (Some (PEnd pxList)) (Some (PEnd pxList)))]> |>).

Definition vListInitialiseItem (pxItem : I) : M list_store unit :=
  set_item pxItem (λ x, x <| pxContainer := None |>).

Definition vListInsertEnd (pxList : L) (pxNewListItem : I) : M list_store unit :=
  let new := Some (PItem pxNewListItem) in
  let* l := get_list pxList in
  let index := pxIndex l in
  set_next new index ;>
  let* prev := get_prev index in
  set_prev new prev ;>
  let* prev := get_prev index in
  set_next prev new ;>
  set_prev index new ;>
  set_item pxNewListItem (λ x, x <| pxContainer := Some pxList |>) ;>
  set_list pxList (λ x, x <| uxNumberOfItems ::= λ n, wrap32 (n + 1) |>).

(** The search loop of [vListInsert]: the node after which to insert.  One turn
    per node; the fuel is the number of items plus one. *)
Fixpoint vListInsert_search (fuel : nat) (xValueOfInsertion : Z) (pxIterator : option ptr)
    : M list_store (option ptr) :=
  match fuel with
  | O => fuelM
  | S fuel =>
      let* next := get_next pxIterator in
      let* v := get_value next in
      if v <=? xValueOfInsertion then vListInsert_search fuel xValueOfInsertion next
      else retM pxIterator
  end.

Definition vListInsert (pxList : L) (pxNewListItem : I) : M list_store unit :=
  let new := Some (PItem pxNewListItem) in
  let* it := get_item pxNewListItem in
  let xValueOfInsertion := xItemValue it in
  let* l := get_list pxList in
  let* pxIterator :=
    (if xValueOfInsertion =? portMAX_DELAY
     then get_prev (Some (PEnd pxList))
     else vListInsert_search (S (Z.to_nat (uxNumberOfItems l))) xValueOfInsertion (Some (PEnd pxList))) in
  let* next := get_next pxIterator in
  set_next new next ;>
  let* next := get_next new in
  set_prev next new ;>
  set_prev new pxIterator ;>
  set_next pxIterator new ;>
  set_item pxNewListItem (λ x, x <| pxContainer := Some pxList |>) ;>
  set_list pxList (λ x, x <| uxNumberOfItems ::= λ n, wrap32 (n + 1) |>).

Definition uxListRemove (pxItemToRemove : I) : M list_store Z :=
  let self := Some (PItem pxItemToRemove) in
  let* it := get_item pxItemToRemove in
  let* pxList := derefM (pxContainer it) in
  let* next := get_next self in
  let* prev := get_prev self in
  set_prev next prev ;>
  let* prev := get_prev self in
  let* next := get_next self in
  set_next prev next ;>
  let* l := get_list pxList in
  (if bool_decide (pxIndex l = self) then
     let* prev := get_prev self in
     set_list pxList (λ x, x <| pxIndex := prev |>)
   else retM tt) ;>
  set_item pxItemToRemove (λ x, x <| pxContainer := None |>) ;>
  set_list pxList (λ x, x <| uxNumberOfItems ::= λ n, wrap32 (n - 1) |>) ;>
  let* l := get_list pxList in
  retM (uxNumberOfItems l).

(** ** list.h *)

Definition listINSERT_END (pxList : L) (pxNewListItem : I) : M list_store unit :=
  let new := Some (PItem pxNewListItem) in
  let* l := get_list pxList in
  let index := pxIndex l in
  set_next new index ;>
  let* prev := get_prev index in
  set_prev new prev ;>
  let* prev := get_prev index in
  set_next prev new ;>
  set_prev index new ;>
  set_item pxNewListItem (λ x, x <| pxContainer := Some pxList |>) ;>
  set_list pxList (λ x, x <| uxNumberOfItems ::= λ n, wrap32 (n + 1) |>).

Definition listREMOVE_ITEM (pxItemToRemove : I) : M list_store unit :=
  let self := Some (PItem pxItemToRemove) in
  let* it := get_item pxItemToRemove in
  let* pxList := derefM (pxContainer it) in
  let* next := get_next self in
  let* prev := get_prev self in
  set_prev next prev ;>
  let* prev := get_prev self in
  let* next := get_next self in
  set_next prev next ;>
  let* l := get_list pxList in
  (if bool_decide (pxIndex l = self) then
     let* prev := get_prev self in
     set_list pxList (λ x, x <| pxIndex := prev |>)
   else retM tt) ;>
  set_item pxItemToRemove (λ x, x <| pxContainer := None |>) ;>
  set_list pxList (λ x, x <| uxNumberOfItems ::= λ n, wrap32 (n - 1) |>).

(** [ptr->pvOwner]: the end marker is a [MiniListItem_t] and has no owner. *)
Definition get_owner (o : option ptr) : M list_store Z :=
  onPtr o (λ p, match p with
                | PItem i => let* s := getM in derefM (ownerOf s i)
                | PEnd _ => faultM
                end).

Definition listGET_OWNER_OF_NEXT_ENTRY (pxList : L) : M list_store Z :=
  let* l := get_list pxList in
  let* next := get_next (pxIndex l) in
  set_list pxList (λ x, x <| pxIndex := next |>) ;>
  (if bool_decide (next = Some (PEnd pxList)) then
     let* first := get_next (Some (PEnd pxList)) in
     set_list pxList (λ x, x <| pxIndex := first |>)
   else retM tt) ;>
  let* l := get_list pxList in
  get_owner (pxIndex l).

Definition listGET_OWNER_OF_HEAD_ENTRY (pxList : L) : M list_store Z :=
  let* first := get_next (Some (PEnd pxList)) in
  get_owner first.

Definition listGET_ITEM_VALUE_OF_HEAD_ENTRY (pxList : L) : M list_store Z :=
  let* first := get_next (Some (PEnd pxList)) in
  get_value first.

Definition listCURRENT_LIST_LENGTH (pxList : L) : M list_store Z :=
  let* l := get_list pxList in retM (uxNumberOfItems l).

Definition listLIST_IS_EMPTY (pxList : L) : M list_store bool :=
  let* l := get_list pxList in retM (uxNumberOfItems l =? 0).

Definition listSET_LIST_ITEM_VALUE (pxListItem : I) (xValue : Z) : M list_store unit :=
  set_item pxListItem (λ x, x <| xItemValue := xValue |>).

Definition listSET_LIST_ITEM_OWNER (pxListItem : I) (pxOwner : Z) : M list_store unit :=
  set_item pxListItem (λ x, x <| pvOwner := Some pxOwner |>).

Definition listGET_LIST_ITEM_VALUE (pxListItem : I) : M list_store Z :=
  let* it := get_item pxListItem in retM (xItemValue it).

Definition listGET_LIST_ITEM_OWNER (pxListItem : I) : M list_store Z :=
  let* it := get_item pxListItem in derefM (pvOwner it).

Definition listLIST_ITEM_CONTAINER (pxListItem : I) : M list_store (option L) :=
  let* it := get_item pxListItem in retM (pxContainer it).

Definition listIS_CONTAINED_WITHIN (pxList : L) (pxListItem : I) : M list_store bool :=
  let* it := get_item pxListItem in retM (bool_decide (pxContainer it = Some pxList)).

(** ** Abstract contents of a list *)

Record ring := mkRing {
  r_items : list I;          (* the items from [xListEnd.pxNext] on *)
  r_index : option I         (* [pxIndex]; [None] when it is the end marker *)
}.
#[global] Instance eta_ring : Eta ring := λ r, mkRing (r_items r) (r_index r).

Fixpoint before (i : I) (l : list I) : list I :=
  match l with
  | [] => []
  | x :: l => if decide (x = i) then [] else x :: before i l
  end.
Fixpoint after (i : I) (l : list I) : list I :=
  match l with
  | [] => []
  | x :: l => if decide (x = i) then l else after i l
  end.

(** Insertion after every item whose value is not greater. *)
Fixpoint ins_sorted (val : I → Z) (v : Z) (i : I) (l : list I) : list I :=
  match l with
  | [] => [i]
  | x :: l => if val x <=? v then x :: ins_sorted val v i l else i :: x :: l
  end.

Definition empty_ring : ring := mkRing [] None.
Definition ring_insert_end (i : I) (r : ring) : ring :=
  match r_index r with
  | None => r <| r_items := r_items r ++ [i] |>
  | Some j => r <| r_items := before j (r_items r) ++ i :: j :: after j (r_items r) |>
  end.
Definition ring_insert (val : I → Z) (i : I) (r : ring) : ring :=
  r <| r_items := ins_sorted val (val i) i (r_items r) |>.
Definition ring_remove (i : I) (r : ring) : ring :=
  mkRing (before i (r_items r) ++ after i (r_items r))
         (if decide (r_index r = Some i) then last (before i (r_items r)) else r_index r).
(** The item [listGET_OWNER_OF_NEXT_ENTRY] moves the index to. *)
Definition ring_next (r : ring) : option I :=
  match r_index r with
  | None => head (r_items r)
  | Some j => match after j (r_items r) with
              | [] => head (r_items r)
              | x :: _ => Some x
              end
  end.

(** ** Representation *)

Definition link (s : list_store) (p q : ptr) : Prop :=
  nextOf s p = Some q ∧ prevOf s q = Some p.
Fixpoint path (s : list_store) (ns : list ptr) : Prop :=
  match ns with
  | p :: ((q :: _) as t) => link s p q ∧ path s t
  | _ => True
  end.
#[global] Instance link_dec s p q : Decision (link s p q).
Proof. unfold link. apply _. Defined.
#[global] Instance path_dec s ns : Decision (path s ns).
Proof.
  induction ns as [|p [|q t] IH]; [left; exact Logic.I|left; exact Logic.I|].
  change (Decision (link s p q ∧ path s (q :: t))). apply _.
Defined.

Definition idx_ptr (l : L) (o : option I) : ptr :=
  match o with None => PEnd l | Some i => PItem i end.

Record rep_list (s : list_store) (l : L) (r : ring) : Prop := {
  rl_path : path s (PEnd l :: (PItem <$> r_items r) ++ [PEnd l]);
  rl_count : countOf s l = Some (Z.of_nat (length (r_items r)));
  rl_index : indexOf s l = Some (idx_ptr l (r_index r));
  rl_index_in : match r_index r with None => True | Some i => i ∈ r_items r end;
  rl_nodup : NoDup (r_items r);
  rl_end : valueOf s (PEnd l) = Some portMAX_DELAY;
  rl_cont : Forall (λ i, contOf s i = Some l) (r_items r)
}.

(** [rep s m]: the lists of [m] are well-formed rings of the store, and an item
    is in the list its [pxContainer] names and in no other. *)
Record rep (s : list_store) (m : gmap L ring) : Prop := {
  rep_size : Z.of_nat (size (ls_items s)) < MAX32;
  rep_lists : map_Forall (rep_list s) m;
  rep_items : map_Forall (λ i it,
    match pxContainer it with
    | None => True
    | Some l => match m !! l with Some r => i ∈ r_items r | None => False end
    end) (ls_items s);
  rep_values : map_Forall (λ _ it, u32 (xItemValue it)) (ls_items s);
  rep_dom : map_Forall (λ l _, is_Some (m !! l)) (ls_lists s)
}.

End klist.
