(* ===== verification/KListSpec.v ===== *)
(** * The kernel list refines rings

    For every operation of [KList], a rule for [wp] in terms of the abstract
    contents: which ring the list becomes, and that every other list, every
    item value and every owner is as before. *)
From S2P Require Import Prelude KList.

Section spec.
Context {I L : Type} `{Countable I} `{Countable L}.
#[local] Abbreviation ptr := (KList.ptr (I:=I) (L:=L)).
#[local] Abbreviation list_store := (KList.list_store (I:=I) (L:=L)).
#[local] Abbreviation ring := (KList.ring (I:=I)).
Implicit Types (s : list_store) (m : gmap L ring).
Implicit Types (p q u v : ptr) (i j : I) (l : L) (r : ring).

(** ** Lists of items *)

Lemma before_after i (xs : list I) : i ∈ xs → xs = before i xs ++ i :: after i xs.
Proof.
  induction xs as [|x xs IH]; simpl; [by intros ?%not_elem_of_nil|].
  intros Hin. case_decide as Heq; [by subst|]. simpl. f_equal. apply IH. set_solver.
Qed.
Lemma before_mid i (l1 l2 : list I) : i ∉ l1 → before i (l1 ++ i :: l2) = l1.
Proof.
  induction l1 as [|x l1 IH]; simpl; intros Hni.
  - by rewrite decide_True.
  - rewrite decide_False by set_solver. f_equal. apply IH. set_solver.
Qed.
Lemma after_mid i (l1 l2 : list I) : i ∉ l1 → after i (l1 ++ i :: l2) = l2.
Proof.
  induction l1 as [|x l1 IH]; simpl; intros Hni.
  - by rewrite decide_True.
  - rewrite decide_False by set_solver. apply IH. set_solver.
Qed.
Lemma before_not_in i (xs : list I) : i ∉ before i xs.
Proof.
  induction xs as [|x xs IH]; simpl; [set_solver|]. case_decide; set_solver.
Qed.
Lemma before_perm i (xs : list I) : i ∈ xs → xs ≡ₚ i :: before i xs ++ after i xs.
Proof. intros Hin. rewrite (before_after i xs Hin) at 1. by rewrite Permutation_middle. Qed.
Lemma remove_NoDup i (xs : list I) :
  i ∈ xs → NoDup xs → NoDup (before i xs ++ after i xs) ∧ i ∉ before i xs ++ after i xs.
Proof. intros Hin. rewrite (before_perm i xs Hin) at 1. rewrite NoDup_cons. naive_solver. Qed.
Lemma elem_of_remove i j (xs : list I) :
  i ∈ xs → NoDup xs → j ∈ before i xs ++ after i xs ↔ j ∈ xs ∧ j ≠ i.
Proof.
  intros Hin Hnd. destruct (remove_NoDup i xs Hin Hnd) as [_ Hni].
  rewrite (before_perm i xs Hin) at 3. set_solver.
Qed.
Lemma remove_length i (xs : list I) :
  i ∈ xs → length xs = S (length (before i xs ++ after i xs)).
Proof. intros Hin. by rewrite (before_perm i xs Hin) at 1. Qed.
Lemma ins_sorted_perm val z i (xs : list I) : ins_sorted val z i xs ≡ₚ i :: xs.
Proof.
  induction xs as [|x xs IH]; simpl; [done|].
  destruct (val x <=? z); [|done]. rewrite IH. apply Permutation_swap.
Qed.
Lemma insert_end_perm i r :
  match r_index r with None => True | Some j => j ∈ r_items r end →
  r_items (ring_insert_end i r) ≡ₚ i :: r_items r.
Proof.
  unfold ring_insert_end. destruct (r_index r) as [j|]; simpl; intros Hj.
  - rewrite (before_after j _ Hj) at 3. by rewrite Permutation_middle.
  - by rewrite Permutation_app_comm.
Qed.

(** ** Reads after writes *)

(** The other fields, by the setters the operations use. *)
Definition upd_cont (i : I) (c : option L) s : list_store := upd_item i (λ x, x <| pxContainer := c |>) s.
Definition upd_value (i : I) (z : Z) s : list_store := upd_item i (λ x, x <| xItemValue := z |>) s.
Definition upd_count (l : L) (f : Z → Z) s : list_store := upd_list l (λ x, x <| uxNumberOfItems ::= f |>) s.
Definition upd_index (l : L) (o : option ptr) s : list_store := upd_list l (λ x, x <| pxIndex := o |>) s.

Lemma present_item s i : present s (PItem i) = true ↔ is_Some (ls_items s !! i).
Proof. simpl. by rewrite bool_decide_eq_true. Qed.

Ltac write_solve Hp :=
  unfold upd_next, upd_prev, upd_cont, upd_count, upd_index, upd_item, upd_list,
    nextOf, prevOf, contOf, countOf, indexOf, present in *;
  repeat match goal with p : ptr |- _ => destruct p end; simpl in *;
  try (rewrite bool_decide_eq_true in Hp; destruct Hp as [? Hp]);
  rewrite ?lookup_alter; repeat case_decide; simplify_eq; try done; by rewrite Hp.

Lemma nextOf_upd_next s p q o :
  present s p = true →
  nextOf (upd_next p o s) q = if decide (p = q) then o else nextOf s q.
Proof. intros Hp. write_solve Hp. Qed.
Lemma prevOf_upd_prev s p q o :
  present s p = true →
  prevOf (upd_prev p o s) q = if decide (p = q) then o else prevOf s q.
Proof. intros Hp. write_solve Hp. Qed.

Ltac frame_solve :=
  repeat match goal with p : ptr |- _ => destruct p end;
  unfold upd_next, upd_prev, upd_item, upd_list,
    nextOf, prevOf, valueOf, ownerOf, contOf, countOf, indexOf, present;
  simpl; rewrite ?lookup_alter; repeat case_decide; subst;
  try (match goal with |- context [?m !! ?k] => destruct (m !! k) end); try done.

Lemma nextOf_upd_prev s p q o : nextOf (upd_prev p o s) q = nextOf s q.
Proof. frame_solve. Qed.
Lemma prevOf_upd_next s p q o : prevOf (upd_next p o s) q = prevOf s q.
Proof. frame_solve. Qed.
Lemma valueOf_upd_next s p q o : valueOf (upd_next p o s) q = valueOf s q.
Proof. frame_solve. Qed.
Lemma valueOf_upd_prev s p q o : valueOf (upd_prev p o s) q = valueOf s q.
Proof. frame_solve. Qed.
Lemma present_upd_next s p q o : present (upd_next p o s) q = present s q.
Proof. frame_solve. Qed.
Lemma present_upd_prev s p q o : present (upd_prev p o s) q = present s q.
Proof. frame_solve. Qed.
Lemma ownerOf_upd_next s p i o : ownerOf (upd_next p o s) i = ownerOf s i.
Proof. frame_solve. Qed.
Lemma ownerOf_upd_prev s p i o : ownerOf (upd_prev p o s) i = ownerOf s i.
Proof. frame_solve. Qed.
Lemma contOf_upd_next s p i o : contOf (upd_next p o s) i = contOf s i.
Proof. frame_solve. Qed.
Lemma contOf_upd_prev s p i o : contOf (upd_prev p o s) i = contOf s i.
Proof. frame_solve. Qed.
Lemma countOf_upd_next s p l o : countOf (upd_next p o s) l = countOf s l.
Proof. frame_solve. Qed.
Lemma countOf_upd_prev s p l o : countOf (upd_prev p o s) l = countOf s l.
Proof. frame_solve. Qed.
Lemma indexOf_upd_next s p l o : indexOf (upd_next p o s) l = indexOf s l.
Proof. frame_solve. Qed.
Lemma indexOf_upd_prev s p l o : indexOf (upd_prev p o s) l = indexOf s l.
Proof. frame_solve. Qed.

Ltac frame_solve' :=
  unfold upd_cont, upd_value, upd_count, upd_index; frame_solve.

Lemma nextOf_upd_cont s i c q : nextOf (upd_cont i c s) q = nextOf s q.
Proof. frame_solve'. Qed.
Lemma nextOf_upd_value s i c q : nextOf (upd_value i c s) q = nextOf s q.
Proof. frame_solve'. Qed.
Lemma nextOf_upd_count s l f q : nextOf (upd_count l f s) q = nextOf s q.
Proof. frame_solve'. Qed.
Lemma nextOf_upd_index s l f q : nextOf (upd_index l f s) q = nextOf s q.
Proof. frame_solve'. Qed.
Lemma prevOf_upd_cont s i c q : prevOf (upd_cont i c s) q = prevOf s q.
Proof. frame_solve'. Qed.
Lemma prevOf_upd_value s i c q : prevOf (upd_value i c s) q = prevOf s q.
Proof. frame_solve'. Qed.
Lemma prevOf_upd_count s l f q : prevOf (upd_count l f s) q = prevOf s q.
Proof. frame_solve'. Qed.
Lemma prevOf_upd_index s l f q : prevOf (upd_index l f s) q = prevOf s q.
Proof. frame_solve'. Qed.
Lemma valueOf_upd_cont s i c q : valueOf (upd_cont i c s) q = valueOf s q.
Proof. frame_solve'. Qed.
Lemma valueOf_upd_count s l f q : valueOf (upd_count l f s) q = valueOf s q.
Proof. frame_solve'. Qed.
Lemma valueOf_upd_index s l f q : valueOf (upd_index l f s) q = valueOf s q.
Proof. frame_solve'. Qed.
Lemma present_upd_cont s i c q : present (upd_cont i c s) q = present s q.
Proof. frame_solve'. Qed.
Lemma present_upd_value s i c q : present (upd_value i c s) q = present s q.
Proof. frame_solve'. Qed.
Lemma present_upd_count s l f q : present (upd_count l f s) q = present s q.
Proof. frame_solve'. Qed.
Lemma present_upd_index s l f q : present (upd_index l f s) q = present s q.
Proof. frame_solve'. Qed.
Lemma ownerOf_upd_cont s i c j : ownerOf (upd_cont i c s) j = ownerOf s j.
Proof. frame_solve'. Qed.
Lemma ownerOf_upd_value s i c j : ownerOf (upd_value i c s) j = ownerOf s j.
Proof. frame_solve'. Qed.
Lemma ownerOf_upd_count s l f j : ownerOf (upd_count l f s) j = ownerOf s j.
Proof. frame_solve'. Qed.
Lemma ownerOf_upd_index s l f j : ownerOf (upd_index l f s) j = ownerOf s j.
Proof. frame_solve'. Qed.
Lemma contOf_upd_value s i c j : contOf (upd_value i c s) j = contOf s j.
Proof. frame_solve'. Qed.
Lemma contOf_upd_count s l f j : contOf (upd_count l f s) j = contOf s j.
Proof. frame_solve'. Qed.
Lemma contOf_upd_index s l f j : contOf (upd_index l f s) j = contOf s j.
Proof. frame_solve'. Qed.
Lemma countOf_upd_cont s i c l : countOf (upd_cont i c s) l = countOf s l.
Proof. frame_solve'. Qed.
Lemma countOf_upd_value s i c l : countOf (upd_value i c s) l = countOf s l.
Proof. frame_solve'. Qed.
Lemma countOf_upd_index s l f l' : countOf (upd_index l f s) l' = countOf s l'.
Proof. frame_solve'. Qed.
Lemma indexOf_upd_cont s i c l : indexOf (upd_cont i c s) l = indexOf s l.
Proof. frame_solve'. Qed.
Lemma indexOf_upd_value s i c l : indexOf (upd_value i c s) l = indexOf s l.
Proof. frame_solve'. Qed.
Lemma indexOf_upd_count s l f l' : indexOf (upd_count l f s) l' = indexOf s l'.
Proof. frame_solve'. Qed.
Lemma contOf_upd_cont s i c j :
  present s (PItem i) = true →
  contOf (upd_cont i c s) j = if decide (i = j) then c else contOf s j.
Proof. intros Hp. write_solve Hp. Qed.
Lemma countOf_upd_count s l f l' :
  countOf (upd_count l f s) l' = if decide (l = l') then f <$> countOf s l' else countOf s l'.
Proof.
  unfold countOf, upd_count, upd_list. simpl. rewrite lookup_alter.
  case_decide; [|done]. subst. by destruct (ls_lists s !! l').
Qed.
Lemma indexOf_upd_index s l o l' :
  present s (PEnd l) = true →
  indexOf (upd_index l o s) l' = if decide (l = l') then o else indexOf s l'.
Proof. intros Hp. write_solve Hp. Qed.

(** ** Paths *)

Lemma nextOf_present s p q : nextOf s p = Some q → present s p = true.
Proof.
  destruct p as [i|l]; simpl; rewrite bool_decide_eq_true.
  - destruct (ls_items s !! i); simpl; [eauto|done].
  - destruct (ls_lists s !! l); simpl; [eauto|done].
Qed.
Lemma prevOf_present s p q : prevOf s p = Some q → present s p = true.
Proof.
  destruct p as [i|l]; simpl; rewrite bool_decide_eq_true.
  - destruct (ls_items s !! i); simpl; [eauto|done].
  - destruct (ls_lists s !! l); simpl; [eauto|done].
Qed.

Lemma path_app s (l1 l2 : list ptr) u v :
  path s (l1 ++ u :: v :: l2) ↔ path s (l1 ++ [u]) ∧ link s u v ∧ path s (v :: l2).
Proof.
  induction l1 as [|a l1 IH]; [by simpl; tauto|].
  destruct l1 as [|b l1]; simpl in *; tauto.
Qed.

Lemma path_frame s s' (pre : list ptr) u :
  (∀ p, p ∈ pre → nextOf s' p = nextOf s p) →
  (∀ p, p ∈ tail (pre ++ [u]) → prevOf s' p = prevOf s p) →
  path s (pre ++ [u]) → path s' (pre ++ [u]).
Proof.
  induction pre as [|a pre IH]; [done|]. intros Hn Hp.
  assert (∃ b t, pre ++ [u] = b :: t) as (b & t & Hbt).
  { destruct pre; simpl; eauto. }
  rewrite <-app_comm_cons in *. simpl in Hp. rewrite Hbt in *.
  intros [[??] Hpath]. simpl. repeat split.
  - rewrite Hn; [done|set_solver].
  - rewrite Hp; [done|set_solver].
  - apply IH; [set_solver| |done]. simpl. intros q Hq. apply Hp. set_solver.
Qed.

(** The node before position [length l1] and the node after it. *)
Definition prev_node (E : ptr) (l1 : list ptr) : ptr := default E (last l1).
Definition next_node (E : ptr) (l2 : list ptr) : ptr := default E (head l2).

Lemma prev_node_split E (l1 : list ptr) : ∃ pre, E :: l1 = pre ++ [prev_node E l1].
Proof.
  unfold prev_node. destruct l1 as [|a l1 _] using rev_ind; [by exists []|].
  exists (E :: l1). by rewrite last_snoc.
Qed.
Lemma next_node_split E (l2 : list ptr) : ∃ suf, l2 ++ [E] = next_node E l2 :: suf.
Proof. destruct l2; simpl; eauto. Qed.
Lemma prev_node_in E (l1 : list ptr) : prev_node E l1 ∈ E :: l1.
Proof. destruct (prev_node_split E l1) as [pre ->]. set_solver. Qed.
Lemma next_node_in E (l2 : list ptr) : next_node E l2 ∈ l2 ++ [E].
Proof. destruct (next_node_split E l2) as [pre ->]. set_solver. Qed.

Lemma ring_path_split s E (l1 l2 : list ptr) :
  path s (E :: (l1 ++ l2) ++ [E]) ↔
  path s (E :: l1) ∧ link s (prev_node E l1) (next_node E l2) ∧ path s (l2 ++ [E]).
Proof.
  destruct (prev_node_split E l1) as [pre Hpre].
  destruct (next_node_split E l2) as [suf Hsuf].
  rewrite <-(app_assoc l1 l2), app_comm_cons, Hpre, Hsuf, <-app_assoc. apply path_app.
Qed.

(** Both halves of a ring survive a change of the links between them. *)
Lemma ring_halves_frame s s' E (l1 l2 : list ptr) (X : ptr → Prop) :
  NoDup (E :: l1 ++ l2) →
  (∀ p, X p → p ∉ E :: l1 ++ l2) →
  (∀ p, p ≠ prev_node E l1 → ¬ X p → nextOf s' p = nextOf s p) →
  (∀ p, p ≠ next_node E l2 → ¬ X p → prevOf s' p = prevOf s p) →
  path s (E :: l1) → path s (l2 ++ [E]) → path s' (E :: l1) ∧ path s' (l2 ++ [E]).
Proof.
  intros Hnd HX Hn Hp H1 H2.
  pose proof (prev_node_in E l1) as Hu. pose proof (next_node_in E l2) as Hv.
  destruct (prev_node_split E l1) as [pre Hpre].
  destruct (next_node_split E l2) as [suf Hsuf].
  assert (NoDup (E :: l1) ∧ NoDup (l2 ++ [E]) ∧
    (∀ p, p ∈ E :: l1 → p ∉ l2) ∧ (∀ p, p ∈ l1 → p ∉ l2 ++ [E])) as (Hnd1 & Hnd2 & Hd1 & Hd2).
  { rewrite app_comm_cons in Hnd. apply NoDup_app in Hnd as (Hnd1 & Hdis & Hnd2).
    pose proof Hnd1 as [HE _]%NoDup_cons. split_and!; [done| |done|].
    - apply NoDup_app. split_and!; [done| |apply NoDup_singleton].
      intros p Hp2 ->%list_elem_of_singleton. by apply (Hdis E); [left|].
    - intros p Hp1 [Hp2| ->%list_elem_of_singleton]%elem_of_app; [|done].
      by apply (Hdis p); [right|]. }
  assert (∀ p, p ∈ E :: l1 → ¬ X p) as HX1.
  { intros p Hin Hp'. apply (HX p Hp'). rewrite app_comm_cons, elem_of_app. by left. }
  assert (∀ p, p ∈ l2 ++ [E] → ¬ X p) as HX2.
  { intros p Hin Hp'. apply (HX p Hp'). rewrite app_comm_cons, elem_of_app.
    apply elem_of_app in Hin as [?| ->%list_elem_of_singleton]; [by right|left; by left]. }
  split.
  - assert (∀ p, p ∈ pre → p ∈ E :: l1) as Hin1.
    { intros p ?. rewrite Hpre, elem_of_app. by left. }
    rewrite Hpre in H1, Hnd1 |- *. apply NoDup_app in Hnd1 as (_ & Hni & _).
    apply (path_frame s); [| |done].
    + intros p Hin. apply Hn; [|by apply HX1, Hin1]. intros ->. by apply (Hni _ Hin); left.
    + rewrite <-Hpre. simpl. intros p Hin. apply Hp; [|by apply HX1; right].
      intros ->. by apply (Hd2 _ Hin).
  - apply (path_frame s); [| |done].
    + intros p Hin. apply Hn; [|apply HX2, elem_of_app; by left].
      intros ->. by apply (Hd1 _ Hu).
    + rewrite Hsuf in Hnd2, HX2 |- *. simpl. apply NoDup_cons in Hnd2 as [Hni _].
      intros p Hin. apply Hp; [by intros ->|by apply HX2; right].
Qed.

Lemma path_insert s s' E (l1 l2 : list ptr) x :
  NoDup (E :: l1 ++ l2) → x ∉ E :: l1 ++ l2 →
  path s (E :: (l1 ++ l2) ++ [E]) →
  (∀ p, p ≠ prev_node E l1 → p ≠ x → nextOf s' p = nextOf s p) →
  (∀ p, p ≠ next_node E l2 → p ≠ x → prevOf s' p = prevOf s p) →
  link s' (prev_node E l1) x → link s' x (next_node E l2) →
  path s' (E :: (l1 ++ x :: l2) ++ [E]).
Proof.
  intros Hnd Hx (H1 & _ & H2)%ring_path_split Hn Hp Hl1 Hl2.
  destruct (ring_halves_frame s s' E l1 l2 (eq x)) as [H1' H2']; try done.
  { by intros p <-. }
  { intros p ? Hne. apply Hn; [done|by intros ->]. }
  { intros p ? Hne. apply Hp; [done|by intros ->]. }
  apply ring_path_split. split_and!; [done|done|].
  destruct (next_node_split E l2) as [suf Hsuf]. rewrite <-app_comm_cons, Hsuf in *.
  by split.
Qed.

Lemma path_remove s s' E (l1 l2 : list ptr) x :
  NoDup (E :: l1 ++ x :: l2) →
  path s (E :: (l1 ++ x :: l2) ++ [E]) →
  (∀ p, p ≠ prev_node E l1 → nextOf s' p = nextOf s p) →
  (∀ p, p ≠ next_node E l2 → prevOf s' p = prevOf s p) →
  link s' (prev_node E l1) (next_node E l2) →
  path s' (E :: (l1 ++ l2) ++ [E]).
Proof.
  intros Hnd (H1 & _ & H2)%ring_path_split Hn Hp Hl.
  assert (NoDup (E :: l1 ++ l2)) as Hnd'.
  { rewrite app_comm_cons in *. apply NoDup_app in Hnd as (? & Hd & [_ ?]%NoDup_cons).
    apply NoDup_app. split_and!; [done| |done]. intros p Hp1 Hp2. apply (Hd p Hp1). by right. }
  assert (path s (l2 ++ [E])) as H2'.
  { rewrite <-app_comm_cons in H2. by destruct (next_node_split E l2) as [suf Hsuf];
      rewrite Hsuf in *; destruct H2. }
  destruct (ring_halves_frame s s' E l1 l2 (λ _, False)) as [H1'' H2'']; try done; [auto..|].
  by apply ring_path_split.
Qed.

Lemma path_mid s E (l1 l2 : list ptr) x :
  path s (E :: (l1 ++ x :: l2) ++ [E]) →
  link s (prev_node E l1) x ∧ link s x (next_node E l2).
Proof.
  intros (_ & Hl & H2)%ring_path_split. split; [done|].
  rewrite <-app_comm_cons in H2. destruct (next_node_split E l2) as [suf Hsuf].
  rewrite Hsuf in H2. by destruct H2.
Qed.

#[local] Hint Rewrite nextOf_upd_prev prevOf_upd_next valueOf_upd_next valueOf_upd_prev
  present_upd_next present_upd_prev ownerOf_upd_next ownerOf_upd_prev contOf_upd_next
  contOf_upd_prev countOf_upd_next countOf_upd_prev indexOf_upd_next indexOf_upd_prev
  nextOf_upd_cont nextOf_upd_count nextOf_upd_index prevOf_upd_cont prevOf_upd_count
  prevOf_upd_index valueOf_upd_cont valueOf_upd_count valueOf_upd_index present_upd_cont
  present_upd_count present_upd_index ownerOf_upd_cont ownerOf_upd_count ownerOf_upd_index
  contOf_upd_count contOf_upd_index countOf_upd_cont countOf_upd_index indexOf_upd_cont
  indexOf_upd_count countOf_upd_count : klist.

(** ** Rules for the accesses *)

Lemma wp_get_next p Q s : present s p = true → Q (nextOf s p) s → wp (get_next (Some p)) Q s.
Proof. intros Hp HQ. unfold get_next, onPtr, wp, bindM, gets. simpl. by rewrite Hp. Qed.
Lemma wp_get_prev p Q s : present s p = true → Q (prevOf s p) s → wp (get_prev (Some p)) Q s.
Proof. intros Hp HQ. unfold get_prev, onPtr, wp, bindM, gets. simpl. by rewrite Hp. Qed.
Lemma wp_get_value p z Q s : valueOf s p = Some z → Q z s → wp (get_value (Some p)) Q s.
Proof.
  intros Hv HQ. unfold get_value, onPtr, wp, bindM, gets. simpl.
  replace (present s p) with true; [by rewrite Hv|].
  destruct p; simpl in *; symmetry; rewrite bool_decide_eq_true; by apply fmap_Some in Hv as (?&->&_).
Qed.
Lemma wp_set_next p o Q s :
  present s p = true → Q tt (upd_next p o s) → wp (set_next (Some p) o) Q s.
Proof. intros Hp HQ. unfold set_next, onPtr, wp, bindM, gets, modify. simpl. by rewrite Hp. Qed.
Lemma wp_set_prev p o Q s :
  present s p = true → Q tt (upd_prev p o s) → wp (set_prev (Some p) o) Q s.
Proof. intros Hp HQ. unfold set_prev, onPtr, wp, bindM, gets, modify. simpl. by rewrite Hp. Qed.
Lemma wp_get_item i Q s :
  present s (PItem i) = true →
  (∀ it, ls_items s !! i = Some it → Q it s) → wp (get_item i) Q s.
Proof. intros [it Hit]%present_item HQ. unfold get_item, wp, bindM, getM. rewrite Hit. simpl. auto. Qed.
Lemma wp_get_list l Q s :
  present s (PEnd l) = true →
  (∀ x, ls_lists s !! l = Some x → Q x s) → wp (get_list l) Q s.
Proof.
  simpl. rewrite bool_decide_eq_true. intros [x Hx] HQ.
  unfold get_list, wp, bindM, getM. rewrite Hx. simpl. auto.
Qed.
Lemma wp_set_item i f Q s :
  present s (PItem i) = true → Q tt (upd_item i f s) → wp (set_item i f) Q s.
Proof. intros Hp HQ. unfold set_item. apply wp_bind, wp_get_item; [done|]. auto. Qed.
Lemma wp_set_list l f Q s :
  present s (PEnd l) = true → Q tt (upd_list l f s) → wp (set_list l f) Q s.
Proof. intros Hp HQ. unfold set_list. apply wp_bind, wp_get_list; [done|]. auto. Qed.

(** ** Facts of a represented store *)

(** The data the list operations leave alone. *)
Record same_data s s' : Prop := {
  sd_value : ∀ p, valueOf s' p = valueOf s p;
  sd_owner : ∀ i, ownerOf s' i = ownerOf s i
}.
#[global] Instance same_data_po : PreOrder same_data.
Proof.
  split; [by split|]. intros s1 s2 s3 [??] [??].
  split; intros; etrans; eauto.
Qed.

Lemma contOf_Some s i l :
  contOf s i = Some l ↔ ∃ it, ls_items s !! i = Some it ∧ pxContainer it = Some l.
Proof. unfold contOf. destruct (ls_items s !! i); simpl; naive_solver. Qed.
Lemma contOf_present s i l : contOf s i = Some l → present s (PItem i) = true.
Proof. intros (it & Hit & _)%contOf_Some. apply present_item. eauto. Qed.

Lemma rep_cont s m i l :
  rep s m → contOf s i = Some l ↔ ∃ r, m !! l = Some r ∧ i ∈ r_items r.
Proof.
  intros Hrep. split.
  - intros (it & Hit & Hc)%contOf_Some. pose proof (rep_items s m Hrep i it Hit) as Hi.
    simpl in Hi. rewrite Hc in Hi. destruct (m !! l) as [r|]; [|done]. by exists r.
  - intros (r & Hr & Hi). pose proof (rl_cont _ _ _ (rep_lists s m Hrep l r Hr)) as Hf.
    rewrite Forall_forall in Hf. by apply Hf.
Qed.

Lemma rep_value s m i z : rep s m → valueOf s (PItem i) = Some z → u32 z.
Proof.
  simpl. intros Hrep (it & Hit & ->)%fmap_Some. apply (rep_values s m Hrep i it Hit).
Qed.

Lemma NoDup_length_le s (xs : list I) :
  NoDup xs → (∀ i, i ∈ xs → present s (PItem i) = true) → (length xs ≤ size (ls_items s))%nat.
Proof.
  intros Hnd Hp. rewrite <-size_dom, <-(size_list_to_set (C:=gset I)) by done.
  apply subseteq_size. intros i. rewrite elem_of_list_to_set, elem_of_dom.
  intros Hi%Hp. by apply present_item.
Qed.

Lemma rep_length s m l r :
  rep s m → m !! l = Some r → Z.of_nat (length (r_items r)) < MAX32.
Proof.
  intros Hrep Hr. destruct (rep_lists s m Hrep l r Hr). destruct Hrep as [Hsz _ _ _].
  enough (length (r_items r) ≤ size (ls_items s))%nat by lia.
  apply NoDup_length_le; [done|]. intros i Hi. rewrite Forall_forall in rl_cont.
  by eapply contOf_present, rl_cont.
Qed.

Lemma rep_length_new s m l r i :
  rep s m → m !! l = Some r → contOf s i = None → present s (PItem i) = true →
  Z.of_nat (length (r_items r)) + 1 < MAX32.
Proof.
  intros Hrep Hr Hc Hi. destruct (rep_lists s m Hrep l r Hr). destruct Hrep as [Hsz _ _ _].
  rewrite Forall_forall in rl_cont.
  enough (length (i :: r_items r) ≤ size (ls_items s))%nat by (simpl in *; lia).
  apply NoDup_length_le.
  - apply NoDup_cons. split; [|done]. intros ?%rl_cont. congruence.
  - intros j [->|Hj]%elem_of_cons; [done|]. by eapply contOf_present, rl_cont.
Qed.

(** ** Changing one ring *)

(** Nodes of other lists. *)
Definition elsewhere s l p : Prop :=
  match p with
  | PEnd l' => l' ≠ l
  | PItem i => ∃ l', contOf s i = Some l' ∧ l' ≠ l
  end.

Lemma path_frame_all s s' (ns : list ptr) :
  (∀ p, p ∈ ns → nextOf s' p = nextOf s p ∧ prevOf s' p = prevOf s p) →
  path s ns → path s' ns.
Proof.
  induction ns as [|a [|b t] IH]; [done..|]. intros Hf [[Hn Hp] Ht].
  destruct (Hf a) as [Ha _]; [by left|]. destruct (Hf b) as [_ Hb]; [by right; left|].
  repeat split; [congruence..|]. apply IH; [|done]. intros p Hin. apply Hf. by right.
Qed.

Lemma size_items_eq s s' :
  (∀ p, valueOf s' p = valueOf s p) → size (ls_items s') = size (ls_items s).
Proof.
  intros Hv. rewrite <-!size_dom. f_equal. apply set_eq. intros i. rewrite !elem_of_dom.
  specialize (Hv (PItem i)). simpl in Hv.
  destruct (ls_items s !! i), (ls_items s' !! i); simpl in Hv; try done.
Qed.

Lemma countOf_is_Some s l : is_Some (countOf s l) ↔ is_Some (ls_lists s !! l).
Proof. unfold countOf. destruct (ls_lists s !! l); simpl; split; intros [? ?]; eauto; done. Qed.

Lemma rep_update s s' m l r r' :
  rep s m → m !! l = Some r → same_data s s' → rep_list s' l r' →
  (∀ p, elsewhere s l p → nextOf s' p = nextOf s p ∧ prevOf s' p = prevOf s p) →
  (∀ l', l' ≠ l → countOf s' l' = countOf s l' ∧ indexOf s' l' = indexOf s l') →
  (∀ j l', l' ≠ l → contOf s' j = Some l' ↔ contOf s j = Some l') →
  (∀ j, contOf s' j = Some l → j ∈ r_items r') →
  rep s' (<[l := r']> m).
Proof.
  intros Hrep Hm Hsd Hl Hlinks Hci Hc1 Hc2. split.
  - rewrite (size_items_eq s) by apply Hsd. apply Hrep.
  - intros l2 r2 [[<- <-]|[Hne Hr2]]%lookup_insert_Some; [done|].
    destruct (rep_lists s m Hrep l2 r2 Hr2) as [Hp Hc Hx Hxi Hnd He Hct].
    destruct (Hci l2) as [Hcc Hxx]; [done|].
    rewrite Forall_forall in Hct.
    split; [|congruence|congruence|done|done|by rewrite (sd_value s s')| ].
    + eapply path_frame_all; [|done]. intros p Hin. apply Hlinks.
      rewrite elem_of_cons, elem_of_app, list_elem_of_singleton in Hin.
      destruct Hin as [->|[Hin| ->]]; [done| |done].
      apply list_elem_of_fmap in Hin as (j & -> & Hj). exists l2. split; [by apply Hct|done].
    + apply Forall_forall. intros j Hj. apply Hc1; [done|]. by apply Hct.
  - intros i it Hit. destruct (pxContainer it) as [l2|] eqn:Hcont; [|done].
    assert (contOf s' i = Some l2) as Hc by (apply contOf_Some; eauto).
    destruct (decide (l2 = l)) as [->|Hne].
    + rewrite lookup_insert_eq. by apply Hc2.
    + rewrite lookup_insert_ne by done. apply Hc1 in Hc; [|done].
      apply (rep_cont s m) in Hc as (r2 & -> & ?); done.
  - intros i it Hit. eapply (rep_value s m i); [done|].
    rewrite <-(sd_value s s' Hsd). simpl. by rewrite Hit.
  - intros l2 x Hx. destruct (decide (l2 = l)) as [->|Hne]; [by rewrite lookup_insert_eq|].
    rewrite lookup_insert_ne by done. destruct (Hci l2 Hne) as [Hcc _].
    assert (is_Some (ls_lists s !! l2)) as [y Hy] by (rewrite <- countOf_is_Some, <- Hcc; apply countOf_is_Some; eauto).
    by apply (rep_dom s m Hrep l2 y).
Qed.

(** *** Insertion between two nodes *)

Record inserted s s' (l : L) (i : I) (u v : ptr) : Prop := {
  in_data : same_data s s';
  in_next p : nextOf s' p =
    if decide (u = p) then Some (PItem i) else if decide (PItem i = p) then Some v else nextOf s p;
  in_prev p : prevOf s' p =
    if decide (v = p) then Some (PItem i) else if decide (PItem i = p) then Some u else prevOf s p;
  in_cont j : contOf s' j = if decide (i = j) then Some l else contOf s j;
  in_count l' : countOf s' l' =
    if decide (l = l') then (λ n, wrap32 (n + 1)) <$> countOf s l' else countOf s l';
  in_index l' : indexOf s' l' = indexOf s l'
}.

Definition prev_of l (l1 : list I) : ptr := prev_node (PEnd l) (PItem <$> l1).
Definition next_of l (l2 : list I) : ptr := next_node (PEnd l) (PItem <$> l2).

Lemma PItem_nodup l (xs : list I) : NoDup xs → NoDup (PEnd l :: (PItem <$> xs) : list ptr).
Proof.
  intros Hnd. apply NoDup_cons. split.
  - intros (j & ? & _)%list_elem_of_fmap. done.
  - apply NoDup_fmap_2; [|done]. intros ??. congruence.
Qed.

Lemma prev_of_cases l (l1 : list I) : prev_of l l1 = PEnd l ∨ ∃ j, prev_of l l1 = PItem j ∧ j ∈ l1.
Proof.
  pose proof (prev_node_in (PEnd l) (PItem <$> l1)) as [Hin|Hin]%elem_of_cons; [by left|].
  apply list_elem_of_fmap in Hin as (j & ? & ?). right. eauto.
Qed.
Lemma next_of_cases l (l2 : list I) : next_of l l2 = PEnd l ∨ ∃ j, next_of l l2 = PItem j ∧ j ∈ l2.
Proof.
  pose proof (next_node_in (PEnd l) (PItem <$> l2)) as [Hin|Hin]%elem_of_app.
  - apply list_elem_of_fmap in Hin as (j & ? & ?). right. eauto.
  - apply list_elem_of_singleton in Hin. by left.
Qed.

Section one_ring.
Context s m l r (Hrep : rep s m) (Hm : m !! l = Some r).
Let Hrl : rep_list s l r := rep_lists s m Hrep l r Hm.

Lemma ring_link (l1 l2 : list I) :
  r_items r = l1 ++ l2 → link s (prev_of l l1) (next_of l l2).
Proof.
  intros Heq. pose proof (rl_path _ _ _ Hrl) as Hp. rewrite Heq, fmap_app in Hp.
  by apply ring_path_split in Hp as (_ & ? & _).
Qed.
Lemma ring_cont i : i ∈ r_items r → contOf s i = Some l.
Proof. intros Hi. pose proof (rl_cont _ _ _ Hrl) as Hf. rewrite Forall_forall in Hf. auto. Qed.
Lemma ring_not_in i : contOf s i = None → i ∉ r_items r.
Proof. intros Hc ?%ring_cont. congruence. Qed.
Lemma end_present : present s (PEnd l) = true.
Proof.
  pose proof (rl_end _ _ _ Hrl) as He. simpl in *. rewrite bool_decide_eq_true.
  by apply fmap_Some in He as (? & -> & _).
Qed.
Lemma prev_of_present (l1 l2 : list I) : r_items r = l1 ++ l2 → present s (prev_of l l1) = true.
Proof. intros [Hn _]%ring_link. by eapply nextOf_present. Qed.
Lemma next_of_present (l1 l2 : list I) : r_items r = l1 ++ l2 → present s (next_of l l2) = true.
Proof. intros [_ Hp]%ring_link. by eapply prevOf_present. Qed.
Lemma prev_of_ne (l1 l2 : list I) i : r_items r = l1 ++ l2 → contOf s i = None → prev_of l l1 ≠ PItem i.
Proof.
  intros Heq Hc%ring_not_in. destruct (prev_of_cases l l1) as [->|(j & -> & Hj)]; [done|].
  intros [= ->]. apply Hc. rewrite Heq, elem_of_app. by left.
Qed.
Lemma next_of_ne (l1 l2 : list I) i : r_items r = l1 ++ l2 → contOf s i = None → next_of l l2 ≠ PItem i.
Proof.
  intros Heq Hc%ring_not_in. destruct (next_of_cases l l2) as [->|(j & -> & Hj)]; [done|].
  intros [= ->]. apply Hc. rewrite Heq, elem_of_app. by right.
Qed.
(** Nodes of this ring are not elsewhere. *)
Lemma prev_of_here (l1 l2 : list I) p : r_items r = l1 ++ l2 → elsewhere s l p → prev_of l l1 ≠ p.
Proof.
  intros Heq He <-. destruct (prev_of_cases l l1) as [Hp|(j & Hp & Hj)]; rewrite Hp in He.
  - by apply He.
  - destruct He as (l' & Hl' & Hne). rewrite ring_cont in Hl' by (rewrite Heq, elem_of_app; by left).
    congruence.
Qed.
Lemma next_of_here (l1 l2 : list I) p : r_items r = l1 ++ l2 → elsewhere s l p → next_of l l2 ≠ p.
Proof.
  intros Heq He <-. destruct (next_of_cases l l2) as [Hp|(j & Hp & Hj)]; rewrite Hp in He.
  - by apply He.
  - destruct He as (l' & Hl' & Hne). rewrite ring_cont in Hl' by (rewrite Heq, elem_of_app; by right).
    congruence.
Qed.

Lemma rep_inserted s' (l1 l2 : list I) i :
  r_items r = l1 ++ l2 → contOf s i = None → present s (PItem i) = true →
  inserted s s' l i (prev_of l l1) (next_of l l2) →
  rep s' (<[l := r <| r_items := l1 ++ i :: l2 |>]> m).
Proof.
  intros Heq Hc Hpi [Hd Hn Hp Hct Hcn Hix].
  pose proof (ring_not_in i Hc) as Hni. pose proof Hrl as [Hpath Hcount Hidx Hidxin Hnd Hend Hcont].
  rewrite Forall_forall in Hcont.
  eapply rep_update; try done.
  - assert (NoDup (l1 ++ i :: l2)) as Hnd'.
    { rewrite <-Permutation_middle, <-Heq. by apply NoDup_cons. }
    split; simpl.
    + rewrite fmap_app. simpl. eapply (path_insert s).
      * rewrite <-fmap_app, <-Heq. by apply PItem_nodup.
      * rewrite <-fmap_app, <-Heq, elem_of_cons, list_elem_of_fmap. intros [?|(j & [= <-] & ?)]; done.
      * by rewrite <-fmap_app, <-Heq.
      * intros p Hp1 Hp2. rewrite Hn. rewrite !decide_False by (by apply not_eq_sym). done.
      * intros p Hp1 Hp2. rewrite Hp. rewrite !decide_False by (by apply not_eq_sym). done.
      * split; [rewrite Hn; by rewrite decide_True|].
        rewrite Hp, decide_False by (by eapply next_of_ne). by rewrite decide_True.
      * split; [|rewrite Hp; by rewrite decide_True].
        rewrite Hn, decide_False by (by eapply prev_of_ne). by rewrite decide_True.
    + rewrite Hcn, decide_True, Hcount by done. simpl. f_equal.
      rewrite wrap32_small.
      * rewrite Heq, !length_app. simpl. lia.
      * pose proof (rep_length_new s m l r i Hrep Hm Hc Hpi). unfold u32. lia.
    + by rewrite Hix.
    + destruct (r_index r); [|done]. rewrite Heq in Hidxin. set_solver.
    + done.
    + change (valueOf s' (PEnd l) = Some portMAX_DELAY). by rewrite (sd_value _ _ Hd).
    + apply Forall_forall. intros j Hj. rewrite Hct. case_decide; [done|].
      apply Hcont. rewrite Heq. set_solver.
  - intros p He. rewrite Hn, Hp.
    assert (PItem i ≠ p). { intros <-. destruct He as (? & ? & ?). congruence. }
    rewrite !decide_False; [done| done | by eapply next_of_here |done|by eapply prev_of_here].
  - intros l' Hne. rewrite Hcn, Hix, decide_False by congruence. done.
  - intros j l' Hne. rewrite Hct. case_decide; [|done]. subst. rewrite Hc. split; congruence.
  - intros j. rewrite Hct. simpl. case_decide as Hij; [set_solver|].
    intros Hj. apply (rep_cont s m) in Hj as (r2 & Hr2 & Hj); [|done].
    simplify_eq. rewrite Heq in Hj. set_solver.
Qed.
End one_ring.

(** ** Rules for the operations *)

Lemma wp_set_cont i c Q s :
  present s (PItem i) = true → Q tt (upd_cont i c s) →
  wp (set_item i (λ x, x <| pxContainer := c |>)) Q s.
Proof. apply wp_set_item. Qed.
Lemma wp_set_count l f Q s :
  present s (PEnd l) = true → Q tt (upd_count l f s) →
  wp (set_list l (λ x, x <| uxNumberOfItems ::= f |>)) Q s.
Proof. apply wp_set_list. Qed.
Lemma wp_set_index l o Q s :
  present s (PEnd l) = true → Q tt (upd_index l o s) →
  wp (set_list l (λ x, x <| pxIndex := o |>)) Q s.
Proof. apply wp_set_list. Qed.

(** Item values and owners, which no list operation but the two setters changes. *)
Record same_items s s' : Prop := {
  si_value : ∀ i, valueOf s' (PItem i) = valueOf s (PItem i);
  si_owner : ∀ i, ownerOf s' i = ownerOf s i
}.
#[global] Instance same_items_po : PreOrder same_items.
Proof.
  split; [by split|]. intros s1 s2 s3 [??] [??].
  split; intros; etrans; eauto.
Qed.
Lemma same_data_items s s' : same_data s s' → same_items s s'.
Proof. intros [??]. by split. Qed.

Lemma indexOf_list s l x o : ls_lists s !! l = Some x → indexOf s l = Some o → pxIndex x = Some o.
Proof. unfold indexOf. by intros ->. Qed.

(** From here on the writes are used through the lemmas above only. *)
#[local] Opaque upd_next upd_prev upd_cont upd_value upd_count upd_index.
#[local] Opaque nextOf prevOf valueOf ownerOf contOf countOf indexOf present.

(** Side conditions [present _ _ = true] of symbolic states. *)
Ltac kpresent := autorewrite with klist; first [assumption | by eauto].
Ltac kstep :=
  apply wp_bind;
  first
    [ apply wp_set_cont; [kpresent|] | apply wp_set_count; [kpresent|]
    | apply wp_set_index; [kpresent|]
    | apply wp_get_next; [kpresent|] | apply wp_get_prev; [kpresent|]
    | apply wp_set_next; [kpresent|] | apply wp_set_prev; [kpresent|] ].

Lemma insert_end_split r :
  match r_index r with None => True | Some j => j ∈ r_items r end →
  ∃ l1 l2 : list I, r_items r = l1 ++ l2 ∧
    (∀ l, next_of l l2 = idx_ptr l (r_index r)) ∧
    ∀ i, ring_insert_end i r = r <| r_items := l1 ++ i :: l2 |>.
Proof.
  unfold ring_insert_end. destruct (r_index r) as [j|] eqn:Hj; intros Hin.
  - exists (before j (r_items r)), (j :: after j (r_items r)).
    split_and!; [by apply before_after|done|done].
  - exists (r_items r), []. by rewrite app_nil_r.
Qed.

Lemma wp_vListInsertEnd s m l r i :
  rep s m → m !! l = Some r → contOf s i = None → present s (PItem i) = true →
  wp (vListInsertEnd l i) (λ _ s',
    rep s' (<[l := ring_insert_end i r]> m) ∧ same_items s s') s.
Proof.
  intros Hrep Hm Hc Hpi. pose proof (rep_lists s m Hrep l r Hm) as Hrl.
  pose proof (end_present s m l r Hrep Hm) as HpE.
  destruct (insert_end_split r (rl_index_in _ _ _ Hrl)) as (l1 & l2 & Heq & Hv & ->).
  pose proof (prev_of_present s m l r Hrep Hm l1 l2 Heq) as Hpu.
  pose proof (next_of_present s m l r Hrep Hm l1 l2 Heq) as Hpv.
  pose proof (prev_of_ne s m l r Hrep Hm l1 l2 i Heq Hc) as Hui.
  pose proof (next_of_ne s m l r Hrep Hm l1 l2 i Heq Hc) as Hvi.
  destruct (ring_link s m l r Hrep Hm l1 l2 Heq) as [Huv Hvu].
  unfold vListInsertEnd. apply wp_bind, wp_get_list; [done|]. intros x Hx.
  rewrite (indexOf_list s l x _ Hx (rl_index _ _ _ Hrl)), <-Hv.
  do 2 kstep. autorewrite with klist. rewrite Hvu. do 2 kstep.
  rewrite prevOf_upd_prev by kpresent. rewrite decide_False by done.
  autorewrite with klist. rewrite Hvu. do 3 kstep. apply wp_set_count; [kpresent|].
  match goal with |- rep ?t _ ∧ _ => set (s' := t) end.
  assert (inserted s s' l i (prev_of l l1) (next_of l l2)) as Hins.
  { subst s'. split; intros; [split; intros| | | | |];
      repeat (autorewrite with klist;
        first [rewrite nextOf_upd_next by kpresent | rewrite prevOf_upd_prev by kpresent
              | rewrite contOf_upd_cont by kpresent | idtac]); try done;
      repeat case_decide; subst; congruence. }
  split; [by eapply rep_inserted|]. apply same_data_items, Hins.
Qed.

(** *** [vListInsert] *)

Definition val_of s i : Z := default 0 (valueOf s (PItem i)).

Lemma present_value s i : present s (PItem i) = true → valueOf s (PItem i) = Some (val_of s i).
Proof.
  unfold val_of. intros [it Hit]%present_item.
  with_strategy transparent [valueOf] (unfold valueOf). by rewrite Hit.
Qed.

Lemma ins_sorted_max val z i (xs : list I) :
  (∀ j, j ∈ xs → val j ≤ z) → ins_sorted val z i xs = xs ++ [i].
Proof.
  induction xs as [|x xs IH]; simpl; intros Hle; [done|].
  replace (val x <=? z) with true.
  - f_equal. apply IH. intros j Hj. apply Hle. by right.
  - symmetry. apply Z.leb_le, Hle. by left.
Qed.

(** The value of the node after a prefix: an item's, or the end marker's. *)
Lemma next_of_cons l x (l2 : list I) : next_of l (x :: l2) = PItem x.
Proof. done. Qed.
Lemma prev_of_snoc l x (l1 : list I) : prev_of l (l1 ++ [x]) = PItem x.
Proof. unfold prev_of, prev_node. by rewrite fmap_app, last_app. Qed.

Lemma wp_vListInsert_search s m l r i z fuel :
  rep s m → m !! l = Some r → z < portMAX_DELAY →
  ∀ l1 l2 : list I, r_items r = l1 ++ l2 → (length l2 < fuel)%nat →
  wp (vListInsert_search fuel z (Some (prev_of l l1))) (λ o s', s' = s ∧
    ∃ l1' l2' : list I, l2 = l1' ++ l2' ∧ o = Some (prev_of l (l1 ++ l1')) ∧
      ins_sorted (val_of s) z i l2 = l1' ++ i :: l2') s.
Proof.
  intros Hrep Hm Hz. pose proof (rep_lists s m Hrep l r Hm) as Hrl.
  induction fuel as [|fuel IH]; intros l1 l2 Heq Hfuel; [lia|]. simpl.
  pose proof (prev_of_present s m l r Hrep Hm l1 l2 Heq) as Hpu.
  destruct (ring_link s m l r Hrep Hm l1 l2 Heq) as [Hn _].
  apply wp_bind, wp_get_next; [done|]. rewrite Hn. apply wp_bind.
  destruct l2 as [|x l2].
  - eapply wp_get_value; [apply (rl_end _ _ _ Hrl)|].
    cbv beta. destruct (Z.leb_spec portMAX_DELAY z); [lia|]. apply wp_ret. split; [done|].
    exists [], []. split_and!; [done|by rewrite app_nil_r|done].
  - rewrite next_of_cons. eapply wp_get_value.
    { apply present_value. eapply contOf_present, (ring_cont s m l r Hrep Hm).
      rewrite Heq. set_solver. }
    cbn [ins_sorted]. destruct (val_of s x <=? z) eqn:Hle.
    + specialize (IH (l1 ++ [x]) l2). rewrite prev_of_snoc, <-app_assoc in IH.
      eapply wp_mono; [apply IH; [done|simpl in *; lia]|]. simpl.
      intros o s' (-> & l1' & l2' & -> & -> & ->). split; [done|].
      exists (x :: l1'), l2'. by rewrite <-app_assoc.
    + apply wp_ret. split; [done|]. exists [], (x :: l2).
      split_and!; [done|by rewrite app_nil_r|done].
Qed.

(** The whole search: the insertion point, for any value. *)
Lemma wp_vListInsert_point s m l r i z n :
  rep s m → m !! l = Some r → u32 z → n = Z.of_nat (length (r_items r)) →
  wp (if z =? portMAX_DELAY then get_prev (Some (PEnd l))
      else vListInsert_search (S (Z.to_nat n)) z (Some (PEnd l))) (λ o s', s' = s ∧
    ∃ l1 l2 : list I, r_items r = l1 ++ l2 ∧ o = Some (prev_of l l1) ∧
      ins_sorted (val_of s) z i (r_items r) = l1 ++ i :: l2) s.
Proof.
  intros Hrep Hm Hz ->. destruct (Z.eqb_spec z portMAX_DELAY) as [->|Hne].
  - apply wp_get_prev; [by eapply end_present|]. split; [done|].
    exists (r_items r), []. rewrite app_nil_r.
    assert (r_items r = r_items r ++ []) as Heq by (by rewrite app_nil_r).
    destruct (ring_link s m l r Hrep Hm _ _ Heq) as [_ Hp]. split_and!; [done|done|].
    apply ins_sorted_max. intros j Hj.
    pose proof (contOf_present s j l (ring_cont s m l r Hrep Hm j Hj)) as Hpj.
    pose proof (rep_value s m j _ Hrep (present_value s j Hpj)).
    unfold u32, MAX32, portMAX_DELAY in *. lia.
  - eapply wp_mono.
    + apply (wp_vListInsert_search s m l r i z _ Hrep Hm) with (l1 := []) (l2 := r_items r).
      * unfold u32, MAX32, portMAX_DELAY in *. lia.
      * done.
      * lia.
    + simpl. intros o s' (-> & l1 & l2 & ? & -> & ?). eauto 10.
Qed.

Lemma countOf_list s l x n : ls_lists s !! l = Some x → countOf s l = Some n → uxNumberOfItems x = n.
Proof.
  with_strategy transparent [countOf] (unfold countOf). intros ->. simpl. congruence.
Qed.

Lemma wp_vListInsert s m l r i :
  rep s m → m !! l = Some r → contOf s i = None → present s (PItem i) = true →
  wp (vListInsert l i) (λ _ s',
    rep s' (<[l := ring_insert (val_of s) i r]> m) ∧ same_items s s') s.
Proof.
  intros Hrep Hm Hc Hpi. pose proof (rep_lists s m Hrep l r Hm) as Hrl.
  pose proof (end_present s m l r Hrep Hm) as HpE.
  unfold vListInsert. apply wp_bind, wp_get_item; [done|]. intros it Hit.
  assert (xItemValue it = val_of s i) as ->.
  { unfold val_of. with_strategy transparent [valueOf] (unfold valueOf). by rewrite Hit. }
  apply wp_bind, wp_get_list; [done|]. intros x Hx.
  apply wp_bind. eapply wp_mono.
  { apply (wp_vListInsert_point s m l r i); [done|done| |].
    - by apply (rep_value s m i _ Hrep), present_value.
    - by apply (countOf_list s l x); [|apply Hrl]. }
  simpl. intros o s0 (-> & l1 & l2 & Heq & -> & Hins).
  unfold ring_insert. rewrite Hins.
  pose proof (prev_of_present s m l r Hrep Hm l1 l2 Heq) as Hpu.
  pose proof (next_of_present s m l r Hrep Hm l1 l2 Heq) as Hpv.
  pose proof (prev_of_ne s m l r Hrep Hm l1 l2 i Heq Hc) as Hui.
  pose proof (next_of_ne s m l r Hrep Hm l1 l2 i Heq Hc) as Hvi.
  destruct (ring_link s m l r Hrep Hm l1 l2 Heq) as [Huv Hvu].
  kstep. rewrite Huv. do 2 kstep.
  rewrite nextOf_upd_next, decide_True by done. do 4 kstep. apply wp_set_count; [kpresent|].
  match goal with |- rep ?t _ ∧ _ => set (s' := t) end.
  assert (inserted s s' l i (prev_of l l1) (next_of l l2)) as Hi.
  { subst s'. split; intros; [split; intros| | | | |];
      repeat (autorewrite with klist;
        first [rewrite nextOf_upd_next by kpresent | rewrite prevOf_upd_prev by kpresent
              | rewrite contOf_upd_cont by kpresent | idtac]); try done;
      repeat case_decide; subst; congruence. }
  split; [by eapply rep_inserted|]. apply same_data_items, Hi.
Qed.

(** *** Removal *)

Record removed s s' (l : L) (i : I) (u v : ptr) (o : option ptr) : Prop := {
  rm_data : same_data s s';
  rm_next p : nextOf s' p = if decide (u = p) then Some v else nextOf s p;
  rm_prev p : prevOf s' p = if decide (v = p) then Some u else prevOf s p;
  rm_cont j : contOf s' j = if decide (i = j) then None else contOf s j;
  rm_count l' : countOf s' l' =
    if decide (l = l') then (λ n, wrap32 (n - 1)) <$> countOf s l' else countOf s l';
  rm_index l' : indexOf s' l' = if decide (l = l') then o else indexOf s l'
}.

Lemma idx_ptr_last l (l1 : list I) : idx_ptr l (last l1) = prev_of l l1.
Proof.
  unfold prev_of, prev_node. rewrite fmap_last. by destruct (last l1).
Qed.

Lemma rep_removed s s' m l r i :
  rep s m → m !! l = Some r → i ∈ r_items r →
  removed s s' l i (prev_of l (before i (r_items r))) (next_of l (after i (r_items r)))
    (Some (idx_ptr l (r_index (ring_remove i r)))) →
  rep s' (<[l := ring_remove i r]> m).
Proof.
  intros Hrep Hm Hin [Hd Hn Hp Hct Hcn Hix].
  pose proof (rep_lists s m Hrep l r Hm) as Hrl.
  pose proof Hrl as [Hpath Hcount Hidx Hidxin Hnd Hend Hcont].
  rewrite Forall_forall in Hcont.
  pose proof (before_after i _ Hin) as Heq.
  destruct (remove_NoDup i _ Hin Hnd) as [Hnd' Hni].
  eapply rep_update; try done.
  - split; simpl.
    + rewrite fmap_app. eapply (path_remove s _ _ _ _ (PItem i)).
      * pose proof (PItem_nodup l _ Hnd) as Hnd2. by rewrite Heq, fmap_app in Hnd2.
      * pose proof Hpath as Hpath'. by rewrite Heq, fmap_app in Hpath'.
      * intros p Hne. rewrite Hn, decide_False; [done|]. by apply not_eq_sym.
      * intros p Hne. rewrite Hp, decide_False; [done|]. by apply not_eq_sym.
      * split; [rewrite Hn; by rewrite decide_True|rewrite Hp; by rewrite decide_True].
    + rewrite Hcn, decide_True, Hcount by done. simpl. f_equal.
      pose proof (remove_length i _ Hin). pose proof (rep_length s m l r Hrep Hm).
      rewrite wrap32_small; unfold u32; lia.
    + by rewrite Hix, decide_True.
    + case_decide as Hri.
      * destruct (last (before i (r_items r))) eqn:Hlast; [|done].
        apply last_Some_elem_of in Hlast. set_solver.
      * destruct (r_index r) as [j|]; [|done]. apply elem_of_remove; [done|done|].
        split; [done|]. congruence.
    + done.
    + change (valueOf s' (PEnd l) = Some portMAX_DELAY). by rewrite (sd_value _ _ Hd).
    + apply Forall_forall. intros j [Hj Hne]%(elem_of_remove i); [|done|done].
      rewrite Hct, decide_False by congruence. by apply Hcont.
  - intros p He. rewrite Hn, Hp, !decide_False; [done| |].
    + by eapply (next_of_here s m l r Hrep Hm (before i (r_items r) ++ [i])), He;
        rewrite <-app_assoc.
    + by eapply (prev_of_here s m l r Hrep Hm), He.
  - intros l' Hne. rewrite Hcn, Hix, !decide_False by congruence. done.
  - intros j l' Hne. rewrite Hct. case_decide; [|done]. subst.
    rewrite (Hcont j Hin). split; congruence.
  - intros j. rewrite Hct. simpl. case_decide as Hij; [done|].
    intros Hj. apply (rep_cont s m) in Hj as (r2 & Hr2 & Hj); [|done].
    simplify_eq. apply elem_of_remove; [done|done|]. split; [done|congruence].
Qed.

(** The statements [uxListRemove] and [listREMOVE_ITEM] share. *)
Lemma wp_remove_body s m l r i (Q : unit → list_store → Prop) :
  rep s m → m !! l = Some r → i ∈ r_items r →
  (∀ s', rep s' (<[l := ring_remove i r]> m) → same_items s s' → Q tt s') →
  wp (listREMOVE_ITEM i) Q s.
Proof.
  intros Hrep Hm Hin HQ. pose proof (rep_lists s m Hrep l r Hm) as Hrl.
  pose proof (end_present s m l r Hrep Hm) as HpE.
  pose proof (before_after i _ Hin) as Heq.
  pose proof (ring_cont s m l r Hrep Hm i Hin) as Hc.
  pose proof (contOf_present s i l Hc) as Hpi.
  destruct (path_mid s (PEnd l) (PItem <$> before i (r_items r)) (PItem <$> after i (r_items r))
    (PItem i)) as [[Hui Hiu] [Hiv Hvi]].
  { pose proof (rl_path _ _ _ Hrl) as Hp. rewrite Heq, fmap_app in Hp. apply Hp. }
  change (prev_node (PEnd l) (PItem <$> before i (r_items r)))
    with (prev_of l (before i (r_items r))) in *.
  change (next_node (PEnd l) (PItem <$> after i (r_items r)))
    with (next_of l (after i (r_items r))) in *.
  set (u := prev_of l (before i (r_items r))) in *.
  set (v := next_of l (after i (r_items r))) in *.
  assert (present s u = true) as Hpu by (by eapply nextOf_present).
  assert (present s v = true) as Hpv by (by eapply prevOf_present).
  assert (v ≠ PItem i) as Hvne.
  { subst v. destruct (next_of_cases l (after i (r_items r))) as [->|(j & -> & Hj)]; [done|].
    intros [= ->]. destruct (remove_NoDup i _ Hin (rl_nodup _ _ _ Hrl)). set_solver. }
  unfold listREMOVE_ITEM. apply wp_bind, wp_get_item; [done|]. intros it Hit.
  apply wp_bind. eapply (wp_deref _ l).
  { with_strategy transparent [contOf] (unfold contOf in Hc). by rewrite Hit in Hc. }
  do 2 kstep. rewrite Hiu, Hiv. do 2 kstep.
  rewrite prevOf_upd_prev, decide_False, Hiu by done. kstep.
  rewrite nextOf_upd_prev, Hiv. kstep.
  apply wp_bind, wp_get_list; [kpresent|]. intros x Hx.
  assert (pxIndex x = Some (idx_ptr l (r_index r))) as ->.
  { eapply indexOf_list; [done|]. autorewrite with klist. apply Hrl. }
  set (s1 := upd_next u (Some v) (upd_prev v (Some u) s)).
  assert (∃ s2, wp
    (if bool_decide (Some (idx_ptr l (r_index r)) = Some (PItem i))
     then let* prev := get_prev (Some (PItem i)) in set_list l (λ x, x <| pxIndex := prev |>)
     else retM ()) (λ _ s', s' = s2) s1 ∧
    removed s (upd_count l (λ n, wrap32 (n - 1)) (upd_cont i None s2)) l i u v
      (Some (idx_ptr l (r_index (ring_remove i r)))) ∧
    present s2 (PItem i) = true ∧ present s2 (PEnd l) = true) as (s2 & Hwp & Hrem & Hp1 & Hp2).
  { simpl. case_bool_decide as Hidx.
    - assert (r_index r = Some i) as Hri by (destruct (r_index r); simpl in *; congruence).
      rewrite decide_True by done. rewrite idx_ptr_last. fold u.
      exists (upd_index l (Some u) s1). subst s1. split_and!; [|split|kpresent|kpresent].
      + kstep. autorewrite with klist. rewrite prevOf_upd_prev, decide_False, Hiu by done.
        apply wp_set_index; [kpresent|done].
      + split; intros; by autorewrite with klist.
      + intros p. autorewrite with klist. rewrite nextOf_upd_next by kpresent.
        by autorewrite with klist.
      + intros p. autorewrite with klist. by rewrite prevOf_upd_prev by kpresent.
      + intros j. autorewrite with klist. rewrite contOf_upd_cont by kpresent.
        by autorewrite with klist.
      + intros l'. by autorewrite with klist.
      + intros l'. autorewrite with klist. rewrite indexOf_upd_index by kpresent.
        by autorewrite with klist.
    - rewrite decide_False.
      2:{ intros Hri. rewrite Hri in Hidx. by apply Hidx. }
      exists s1. subst s1. split_and!; [done|split|kpresent|kpresent].
      + split; intros; by autorewrite with klist.
      + intros p. autorewrite with klist. rewrite nextOf_upd_next by kpresent.
        by autorewrite with klist.
      + intros p. autorewrite with klist. by rewrite prevOf_upd_prev by kpresent.
      + intros j. autorewrite with klist. rewrite contOf_upd_cont by kpresent.
        by autorewrite with klist.
      + intros l'. by autorewrite with klist.
      + intros l'. autorewrite with klist. case_decide; [|done]. subst. apply Hrl. }
  apply wp_bind. eapply wp_mono; [apply Hwp|]. intros [] ? ->. simpl.
  kstep. apply wp_set_count; [kpresent|].
  apply HQ; [by eapply rep_removed|]. apply same_data_items, Hrem.
Qed.

Lemma wp_listREMOVE_ITEM s m l r i :
  rep s m → m !! l = Some r → i ∈ r_items r →
  wp (listREMOVE_ITEM i) (λ _ s',
    rep s' (<[l := ring_remove i r]> m) ∧ same_items s s') s.
Proof. intros. eapply wp_remove_body; eauto. Qed.

(** [uxListRemove] is [listREMOVE_ITEM] followed by reading the length. *)
Lemma uxListRemove_eq i s :
  uxListRemove i s =
    (let* it := get_item i in
     let* l := derefM (pxContainer it) in
     listREMOVE_ITEM i ;>
     let* x := get_list l in retM (uxNumberOfItems x)) s.
Proof.
  unfold uxListRemove, listREMOVE_ITEM, bindM.
  destruct (get_item i s) as [[it s']| | | |] eqn:Hi; [|done..].
  assert (s' = s) as ->.
  { unfold get_item, bindM, getM, derefM, retM, faultM in Hi.
    by destruct (ls_items s !! i); simplify_eq. }
  destruct (pxContainer it) as [l|] eqn:Hl; simpl; [|done]. rewrite Hi, Hl. simpl.
  repeat (case_match; simplify_eq; try done).
Qed.

Lemma wp_uxListRemove s m l r i :
  rep s m → m !! l = Some r → i ∈ r_items r →
  wp (uxListRemove i) (λ n s', n = Z.of_nat (length (r_items (ring_remove i r))) ∧
    rep s' (<[l := ring_remove i r]> m) ∧ same_items s s') s.
Proof.
  intros Hrep Hm Hin. pose proof (ring_cont s m l r Hrep Hm i Hin) as Hc.
  unfold wp. rewrite uxListRemove_eq.
  change (wp (let* it := get_item i in
     let* l := derefM (pxContainer it) in
     listREMOVE_ITEM i ;>
     let* x := get_list l in retM (uxNumberOfItems x)) (λ n s',
       n = Z.of_nat (length (r_items (ring_remove i r))) ∧
    rep s' (<[l := ring_remove i r]> m) ∧ same_items s s') s).
  apply wp_bind, wp_get_item; [by eapply contOf_present|]. intros it Hit.
  apply wp_bind. eapply (wp_deref _ l).
  { with_strategy transparent [contOf] (unfold contOf in Hc). by rewrite Hit in Hc. }
  apply wp_bind. eapply wp_remove_body; [done..|]. intros s' Hrep' Hsame.
  assert (<[l:=ring_remove i r]> m !! l = Some (ring_remove i r)) as Hm' by apply lookup_insert_eq.
  apply wp_bind, wp_get_list; [by eapply end_present|]. intros x Hx.
  apply wp_ret. split; [|done].
  eapply countOf_list; [done|]. by apply (rl_count _ _ _ (rep_lists _ _ Hrep' _ _ Hm')).
Qed.

Lemma wp_listINSERT_END s m l r i :
  rep s m → m !! l = Some r → contOf s i = None → present s (PItem i) = true →
  wp (listINSERT_END l i) (λ _ s',
    rep s' (<[l := ring_insert_end i r]> m) ∧ same_items s s') s.
Proof. apply wp_vListInsertEnd. Qed.

(** *** Queries *)

Lemma wp_get_ring s m l r (Q : List_t → list_store → Prop) :
  rep s m → m !! l = Some r →
  (∀ x, uxNumberOfItems x = Z.of_nat (length (r_items r)) →
        pxIndex x = Some (idx_ptr l (r_index r)) → Q x s) → wp (get_list l) Q s.
Proof.
  intros Hrep Hm HQ. apply wp_get_list; [by eapply end_present|]. intros x Hx.
  pose proof (rep_lists s m Hrep l r Hm) as [].
  apply HQ; [by eapply countOf_list|by eapply indexOf_list].
Qed.

Lemma wp_listCURRENT_LIST_LENGTH s m l r (Q : Z → list_store → Prop) :
  rep s m → m !! l = Some r → Q (Z.of_nat (length (r_items r))) s →
  wp (listCURRENT_LIST_LENGTH l) Q s.
Proof.
  intros Hrep Hm HQ. apply wp_bind. eapply wp_get_ring; [done..|]. intros x Hx _.
  apply wp_ret. by rewrite Hx.
Qed.

Lemma wp_listLIST_IS_EMPTY s m l r (Q : bool → list_store → Prop) :
  rep s m → m !! l = Some r → Q (bool_decide (r_items r = [])) s →
  wp (listLIST_IS_EMPTY l) Q s.
Proof.
  intros Hrep Hm HQ. apply wp_bind. eapply wp_get_ring; [done..|]. intros x -> _. apply wp_ret.
  by destruct (r_items r).
Qed.

Lemma head_next l (xs : list I) : next_of l xs = idx_ptr l (head xs).
Proof. by destruct xs. Qed.

Lemma wp_get_head s m l r (Q : option ptr → list_store → Prop) :
  rep s m → m !! l = Some r → Q (Some (idx_ptr l (head (r_items r)))) s →
  wp (get_next (Some (PEnd l))) Q s.
Proof.
  intros Hrep Hm HQ. apply wp_get_next; [by eapply end_present|].
  destruct (ring_link s m l r Hrep Hm [] (r_items r) eq_refl) as [Hn _].
  unfold prev_of, prev_node in Hn. simpl in Hn. by rewrite Hn, head_next.
Qed.

Lemma wp_get_owner s i (t : Z) Q :
  present s (PItem i) = true → ownerOf s i = Some t → Q t s → wp (get_owner (Some (PItem i))) Q s.
Proof.
  intros Hp Ho HQ. unfold get_owner, onPtr. apply wp_bind, (wp_deref _ (PItem i)); [done|].
  apply wp_bind, wp_gets. rewrite Hp. apply wp_bind, wp_getM. by eapply wp_deref.
Qed.

Lemma wp_listGET_OWNER_OF_HEAD_ENTRY s m l r i xs t (Q : Z → list_store → Prop) :
  rep s m → m !! l = Some r → r_items r = i :: xs → ownerOf s i = Some t → Q t s →
  wp (listGET_OWNER_OF_HEAD_ENTRY l) Q s.
Proof.
  intros Hrep Hm Heq Ho HQ. apply wp_bind. eapply wp_get_head; [done..|]. rewrite Heq.
  eapply wp_get_owner; [|done|done].
  eapply contOf_present, (ring_cont s m l r Hrep Hm). rewrite Heq. by left.
Qed.

Lemma wp_listGET_ITEM_VALUE_OF_HEAD_ENTRY s m l r i xs (Q : Z → list_store → Prop) :
  rep s m → m !! l = Some r → r_items r = i :: xs → Q (val_of s i) s →
  wp (listGET_ITEM_VALUE_OF_HEAD_ENTRY l) Q s.
Proof.
  intros Hrep Hm Heq HQ. apply wp_bind. eapply wp_get_head; [done..|]. rewrite Heq.
  eapply wp_get_value; [|done]. apply present_value.
  eapply contOf_present, (ring_cont s m l r Hrep Hm). rewrite Heq. by left.
Qed.

(** *** Round robin *)

Lemma after_next l r j :
  j ∈ r_items r → NoDup (r_items r) →
  ∀ s, path s (PEnd l :: (PItem <$> r_items r) ++ [PEnd l]) →
  nextOf s (PItem j) = Some (next_of l (after j (r_items r))).
Proof.
  intros Hin Hnd s Hp. rewrite (before_after j _ Hin), fmap_app in Hp.
  by apply path_mid in Hp as [_ [? _]].
Qed.

Lemma ring_next_in r j : ring_next r = Some j → j ∈ r_items r.
Proof.
  unfold ring_next. destruct (r_index r) as [k|]; [|apply head_Some_elem_of].
  destruct (after k (r_items r)) as [|x xs] eqn:Ha; [apply head_Some_elem_of|].
  intros [= ->]. assert (j ∈ after k (r_items r)) as Hin by (rewrite Ha; by left).
  clear Ha. induction (r_items r) as [|y ys IH]; simpl in *; [done|].
  case_decide; [by right|]. right. by apply IH.
Qed.

Lemma rep_index s m l r j o :
  rep s m → m !! l = Some r → j ∈ r_items r → o = Some (PItem j) →
  rep (upd_index l o s) (<[l := r <| r_index := Some j |>]> m).
Proof.
  intros Hrep Hm Hin ->. pose proof (rep_lists s m Hrep l r Hm) as [Hp Hc Hx Hxi Hnd He Hct].
  pose proof (end_present s m l r Hrep Hm) as HpE.
  eapply rep_update; try done.
  - split; intros; by autorewrite with klist.
  - split; simpl; autorewrite with klist; try done.
    + eapply (path_frame_all s _ (PEnd l :: (PItem <$> r_items r) ++ [PEnd l])); [|done].
      intros. by autorewrite with klist.
    + rewrite indexOf_upd_index, decide_True by done. done.
  - intros p _. by autorewrite with klist.
  - intros l' Hne. autorewrite with klist. by rewrite indexOf_upd_index, decide_False by congruence.
  - intros j'. autorewrite with klist. simpl. intros Hj'.
    apply (rep_cont s m) in Hj' as (r2 & Hr2 & ?); [|done]. by simplify_eq.
Qed.

Lemma wp_listGET_OWNER_OF_NEXT_ENTRY s m l r j t :
  rep s m → m !! l = Some r → ring_next r = Some j → ownerOf s j = Some t →
  wp (listGET_OWNER_OF_NEXT_ENTRY l) (λ t' s', t' = t ∧
    rep s' (<[l := r <| r_index := Some j |>]> m) ∧ same_items s s') s.
Proof.
  intros Hrep Hm Hnext Ho. pose proof (rep_lists s m Hrep l r Hm) as Hrl.
  pose proof (end_present s m l r Hrep Hm) as HpE.
  pose proof (ring_next_in r j Hnext) as Hjin.
  pose proof (contOf_present s j l (ring_cont s m l r Hrep Hm j Hjin)) as Hpj.
  destruct (ring_link s m l r Hrep Hm [] (r_items r) eq_refl) as [Hhead _].
  unfold prev_of, prev_node in Hhead. simpl in Hhead.
  unfold listGET_OWNER_OF_NEXT_ENTRY. apply wp_bind. eapply wp_get_ring; [done..|].
  intros x _ ->. apply wp_bind, wp_get_next.
  { destruct (r_index r) as [k|] eqn:Hk; [|done]. pose proof (rl_index_in _ _ _ Hrl) as Hki.
    rewrite Hk in Hki. by eapply contOf_present, (ring_cont s m l r). }
  kstep. apply wp_bind.
  assert (∃ o, wp
    (if bool_decide (nextOf s (idx_ptr l (r_index r)) = Some (PEnd l))
     then let* first := get_next (Some (PEnd l)) in set_list l (λ x, x <| pxIndex := first |>)
     else retM ()) (λ _ s', s' = upd_index l (Some (PItem j)) o ∨
       s' = upd_index l (Some (PItem j)) s) (upd_index l (nextOf s (idx_ptr l (r_index r))) s)
     ∧ (o = s ∨ o = upd_index l (nextOf s (idx_ptr l (r_index r))) s)) as (o & Hwp & Ho').
  { exists (upd_index l (nextOf s (idx_ptr l (r_index r))) s). split; [|by right].
    unfold ring_next in Hnext. case_bool_decide as Hw.
    - kstep. autorewrite with klist. rewrite Hhead, head_next. apply wp_set_index; [kpresent|].
      left. f_equal. f_equal.
      destruct (r_index r) as [k|] eqn:Hk; simpl in *; [|by rewrite Hnext].
      pose proof (rl_index_in _ _ _ Hrl) as Hki. rewrite Hk in Hki.
      rewrite (after_next l r k Hki (rl_nodup _ _ _ Hrl) s (rl_path _ _ _ Hrl)) in Hw.
      destruct (after k (r_items r)); [by rewrite Hnext|]. rewrite next_of_cons in Hw. congruence.
    - apply wp_ret. right. f_equal.
      destruct (r_index r) as [k|] eqn:Hk; simpl in *.
      + pose proof (rl_index_in _ _ _ Hrl) as Hki. rewrite Hk in Hki.
        rewrite (after_next l r k Hki (rl_nodup _ _ _ Hrl) s (rl_path _ _ _ Hrl)) in *.
        destruct (after k (r_items r)); [by destruct Hw|]. rewrite next_of_cons. congruence.
      + rewrite Hhead in *. rewrite head_next, Hnext in *. done. }
  eapply wp_mono; [apply Hwp|]. intros [] s' Hs'. simpl.
  assert (rep s' (<[l:=r <| r_index := Some j |>]> m) ∧ same_items s s') as [Hrep' Hsame].
  { assert (∀ o1 o2, upd_index l o1 (upd_index l o2 s) = upd_index l o1 s) as Hii.
    { intros o1 o2. with_strategy transparent [upd_index] (unfold upd_index).
      unfold upd_list, set_field. simpl. by rewrite alter_alter_eq. }
    assert (s' = upd_index l (Some (PItem j)) s) as ->.
    { destruct Hs' as [->| ->], Ho' as [->| ->]; by rewrite ?Hii. }
    split; [by apply rep_index|]. split; intros; by autorewrite with klist. }
  apply wp_bind. eapply wp_get_ring; [done|by rewrite lookup_insert_eq|].
  intros x' _ ->. simpl. eapply wp_get_owner; [|by rewrite (si_owner s s')|done].
  eapply contOf_present, (ring_cont s' _ l _ Hrep'); [by rewrite lookup_insert_eq|done].
Qed.

(** *** Setters and queries on items *)

Lemma wp_item_query {A} s i (f : ListItem_t (I:=I) (L:=L) → A) (Q : A → list_store → Prop) :
  present s (PItem i) = true →
  (∀ it, ls_items s !! i = Some it → Q (f it) s) →
  wp (let* it := get_item i in retM (f it)) Q s.
Proof. intros Hp HQ. apply wp_bind, wp_get_item; [done|]. intros it Hit. apply wp_ret. auto. Qed.

Lemma wp_listGET_LIST_ITEM_VALUE s i (Q : Z → list_store → Prop) :
  present s (PItem i) = true → Q (val_of s i) s → wp (listGET_LIST_ITEM_VALUE i) Q s.
Proof.
  intros Hp HQ. apply wp_item_query; [done|]. intros it Hit.
  unfold val_of in HQ. with_strategy transparent [valueOf] (unfold valueOf in HQ).
  by rewrite Hit in HQ.
Qed.
Lemma wp_listLIST_ITEM_CONTAINER s i (Q : option L → list_store → Prop) :
  present s (PItem i) = true → Q (contOf s i) s → wp (listLIST_ITEM_CONTAINER i) Q s.
Proof.
  intros Hp HQ. apply wp_item_query; [done|]. intros it Hit.
  with_strategy transparent [contOf] (unfold contOf in HQ). by rewrite Hit in HQ.
Qed.
Lemma wp_listIS_CONTAINED_WITHIN s l i (Q : bool → list_store → Prop) :
  present s (PItem i) = true → Q (bool_decide (contOf s i = Some l)) s →
  wp (listIS_CONTAINED_WITHIN l i) Q s.
Proof.
  intros Hp HQ. apply wp_item_query; [done|]. intros it Hit.
  with_strategy transparent [contOf] (unfold contOf in HQ). by rewrite Hit in HQ.
Qed.
Lemma wp_listGET_LIST_ITEM_OWNER s i t (Q : Z → list_store → Prop) :
  ownerOf s i = Some t → Q t s → wp (listGET_LIST_ITEM_OWNER i) Q s.
Proof.
  with_strategy transparent [ownerOf] (unfold ownerOf).
  intros (it & Hit & Ho)%bind_Some HQ. unfold listGET_LIST_ITEM_OWNER.
  apply wp_bind, wp_get_item.
  - apply present_item. eauto.
  - intros it' ?. simplify_eq. by eapply wp_deref.
Qed.

(** Changing data of items that the rings do not depend on. *)
Lemma rep_upd_items s s' m :
  rep s m → (∀ p, nextOf s' p = nextOf s p ∧ prevOf s' p = prevOf s p) →
  ls_lists s' = ls_lists s → (∀ i, contOf s' i = contOf s i) →
  (∀ i z, valueOf s' (PItem i) = Some z → u32 z) →
  size (ls_items s') = size (ls_items s) → rep s' m.
Proof.
  intros Hrep Hl Hls Hc Hv Hsz. split.
  - rewrite Hsz. apply Hrep.
  - intros l r Hr. destruct (rep_lists s m Hrep l r Hr) as [Hp Hcn Hx Hxi Hnd He Hct].
    split; try done.
    + by eapply path_frame_all.
    + with_strategy transparent [countOf] (unfold countOf in *). by rewrite Hls.
    + with_strategy transparent [indexOf] (unfold indexOf in *). by rewrite Hls.
    + with_strategy transparent [valueOf] (unfold valueOf in *). by rewrite Hls.
    + eapply Forall_impl; [done|]. intros i. by rewrite Hc.
  - intros i it Hit. destruct (pxContainer it) as [l|] eqn:Hcont; [|done].
    assert (contOf s i = Some l) as Hci by (rewrite <-Hc; apply contOf_Some; eauto).
    by apply (rep_cont s m) in Hci as (r & -> & ?).
  - intros i it Hit. apply (Hv i).
    with_strategy transparent [valueOf] (unfold valueOf). by rewrite Hit.
  - rewrite Hls. apply Hrep.
Qed.

Lemma wp_listSET_LIST_ITEM_VALUE s m i z (Q : unit → list_store → Prop) :
  rep s m → present s (PItem i) = true → u32 z →
  (∀ s', rep s' m →
    (∀ j, valueOf s' (PItem j) = if decide (i = j) then Some z else valueOf s (PItem j)) →
    (∀ j, ownerOf s' j = ownerOf s j) → Q tt s') →
  wp (listSET_LIST_ITEM_VALUE i z) Q s.
Proof.
  intros Hrep Hp Hz HQ. apply wp_set_item; [done|].
  change (upd_item i _ s) with (upd_value i z s).
  assert (∀ j, valueOf (upd_value i z s) (PItem j) =
    if decide (i = j) then Some z else valueOf s (PItem j)) as Hval.
  { apply present_item in Hp as [it Hit]. intros j.
    with_strategy transparent [valueOf upd_value] (unfold valueOf, upd_value).
    unfold upd_item. simpl. rewrite lookup_alter. case_decide; [|done]. subst. by rewrite Hit. }
  apply HQ; [|done|].
  - eapply rep_upd_items; [done|..].
    + intros p. split; [apply nextOf_upd_value|apply prevOf_upd_value].
    + done.
    + intros. apply contOf_upd_value.
    + intros j z'. rewrite Hval. case_decide; [by intros [= <-]|]. by apply (rep_value s m).
    + with_strategy transparent [upd_value] (unfold upd_value, upd_item). simpl.
      by rewrite <-!size_dom, dom_alter_L.
  - intros. apply ownerOf_upd_value.
Qed.

Lemma wp_vListInitialise s m l :
  rep s m → (∀ r, m !! l = Some r → r_items r = []) →
  wp (vListInitialise l) (λ _ s', rep s' (<[l := empty_ring]> m) ∧ ls_items s' = ls_items s) s.
Proof.
  intros Hrep Hemp. apply wp_modify. split; [|done].
  assert (∀ p, p ≠ PEnd l →
    let s' := s <| ls_lists ::= <[l:=mkList 0 (Some (PEnd l))
      (mkMiniListItem portMAX_DELAY (Some (PEnd l)) (Some (PEnd l)))]> |> in
    nextOf s' p = nextOf s p ∧ prevOf s' p = prevOf s p ∧ valueOf s' p = valueOf s p) as Hne.
  { intros [i|l'] Hne s'; [done|]. assert (l ≠ l') by congruence.
    with_strategy transparent [nextOf prevOf valueOf] (unfold nextOf, prevOf, valueOf).
    subst s'. simpl. by rewrite lookup_insert_ne. }
  split; [apply Hrep| | |apply Hrep|].
  - intros l' r' [[<- <-]|[Hll Hr']]%lookup_insert_Some.
    + with_strategy transparent [nextOf prevOf valueOf countOf indexOf] (split; simpl;
        unfold link, nextOf, prevOf, valueOf, countOf, indexOf; simpl; rewrite ?lookup_insert_eq;
        try done; constructor).
    + destruct (rep_lists s m Hrep l' r' Hr') as [Hp Hcn Hx Hxi Hnd He Hct].
      split; try done.
      * eapply path_frame_all; [|done]. intros p Hin.
        assert (p ≠ PEnd l) as Hp'.
        { intros ->. rewrite elem_of_cons, elem_of_app, list_elem_of_fmap in Hin.
          destruct Hin as [?|[(? & ? & _)|?%list_elem_of_singleton]]; congruence. }
        specialize (Hne p Hp'). naive_solver.
      * with_strategy transparent [countOf] (unfold countOf in *; simpl). by rewrite lookup_insert_ne.
      * with_strategy transparent [indexOf] (unfold indexOf in *; simpl). by rewrite lookup_insert_ne.
      * destruct (Hne (PEnd l')) as (_ & _ & Hv'); [congruence|]. by rewrite Hv'.
  - intros i it Hit. pose proof (rep_items s m Hrep i it Hit) as Hi. simpl in *.
    destruct (pxContainer it) as [l'|]; [|done].
    destruct (decide (l = l')) as [->|]; [|by rewrite lookup_insert_ne].
    destruct (m !! l') as [r'|] eqn:Hr'; [|done]. rewrite (Hemp r') in Hi by done. set_solver.
  - intros l' x Hx. unfold set_field in Hx. simpl in Hx. revert Hx.
    intros [[<- _]|[Hll Hx]]%lookup_insert_Some; [by rewrite lookup_insert_eq|].
    rewrite lookup_insert_ne by done. by apply (rep_dom s m Hrep l' x).
Qed.

(** *** Deciding [rep] on a concrete store *)

#[global] Instance rep_list_dec s l r : Decision (rep_list s l r).
Proof.
  assert (Decision (match r_index r with None => True | Some i => i ∈ r_items r end)).
  { destruct (r_index r); apply _. }
  destruct (decide (
    path s (PEnd l :: (PItem <$> r_items r) ++ [PEnd l]) ∧
    countOf s l = Some (Z.of_nat (length (r_items r))) ∧
    indexOf s l = Some (idx_ptr l (r_index r)) ∧
    match r_index r with None => True | Some i => i ∈ r_items r end ∧
    NoDup (r_items r) ∧
    valueOf s (PEnd l) = Some portMAX_DELAY ∧
    Forall (λ i, contOf s i = Some l) (r_items r))) as [Hd|Hd].
  - left. abstract (destruct_and!; split; done).
  - right. abstract (intros [???????]; apply Hd; split_and!; done).
Defined.

#[global] Instance rep_dec s m : Decision (rep s m).
Proof.
  assert (∀ i it, Decision (match pxContainer (it : ListItem_t (I:=I) (L:=L)) with
      | None => True
      | Some l => match m !! l with Some r => i ∈ r_items r | None => False end
      end)).
  { intros i it. destruct (pxContainer it) as [l|]; [destruct (m !! l)|]; apply _. }
  assert (∀ z, Decision (u32 z)) by (intros z; unfold u32; apply _).
  destruct (decide (
    Z.of_nat (size (ls_items s)) < MAX32 ∧
    map_Forall (rep_list s) m ∧
    map_Forall (λ i it,
      match pxContainer it with
      | None => True
      | Some l => match m !! l with Some r => i ∈ r_items r | None => False end
      end) (ls_items s) ∧
    map_Forall (λ _ it, u32 (xItemValue it)) (ls_items s) ∧
    map_Forall (λ l _, is_Some (m !! l)) (ls_lists s))) as [Hd|Hd].
  - left. abstract (destruct_and!; split; done).
  - right. abstract (intros [?????]; apply Hd; split_and!; done).
Defined.

End spec.
