(* ===== verification/KListProps.v ===== *)
(** * Properties of the kernel list

    What the users of list.c rely on: [vListInsert] keeps a list sorted and
    stable, [uxListRemove] takes out exactly one item, and
    [listGET_OWNER_OF_NEXT_ENTRY] serves the items of a list in turn. *)
From S2P Require Import Prelude KList KListSpec.

Section order.
Context {I L : Type} `{Countable I} `{Countable L}.
#[local] Abbreviation list_store := (KList.list_store (I:=I) (L:=L)).
#[local] Abbreviation ring := (KList.ring (I:=I)).
Implicit Types (s : list_store) (m : gmap L ring) (i j : I) (l : L) (r : ring).

(** ** Sorted rings *)

Definition sorted_by (val : I → Z) (xs : list I) : Prop :=
  ∀ (n1 n2 : nat) i j, xs !! n1 = Some i → xs !! n2 = Some j → (n1 ≤ n2)%nat → val i ≤ val j.

Lemma sorted_by_cons val i (xs : list I) :
  sorted_by val (i :: xs) ↔ (∀ j, j ∈ xs → val i ≤ val j) ∧ sorted_by val xs.
Proof.
  split.
  - intros Hs. split.
    + intros j [n Hn]%list_elem_of_lookup. by apply (Hs 0%nat (S n)); [..|lia].
    + intros n1 n2 x y H1 H2 Hle. by apply (Hs (S n1) (S n2)); [..|lia].
  - intros [Hi Hs] [|n1] [|n2] x y H1 H2 Hle; simplify_eq/=; [done| |lia|].
    + apply Hi. by eapply list_elem_of_lookup_2.
    + eapply (Hs n1 n2); [done..|lia].
Qed.
Lemma sorted_by_nil val : sorted_by val [].
Proof. intros n1 n2 x y H1. by rewrite lookup_nil in H1. Qed.
Lemma sorted_by_app val (xs ys : list I) :
  sorted_by val (xs ++ ys) ↔
  sorted_by val xs ∧ sorted_by val ys ∧ ∀ i j, i ∈ xs → j ∈ ys → val i ≤ val j.
Proof.
  induction xs as [|x xs IH]; simpl.
  - split; [|by intros (_ & ? & _)]. intros ?. split_and!; [apply sorted_by_nil|done|set_solver].
  - rewrite !sorted_by_cons, IH. set_solver.
Qed.
Lemma sorted_by_ext val val' (xs : list I) :
  (∀ i, i ∈ xs → val i = val' i) → sorted_by val xs → sorted_by val' xs.
Proof.
  intros Hv Hs n1 n2 x y H1 H2 Hle.
  rewrite <- !Hv by (by eapply list_elem_of_lookup_2). by eapply Hs.
Qed.

(** Insertion in a sorted list: after the items that are not greater, before
    those that are. *)
Lemma ins_sorted_filter val z i (xs : list I) :
  sorted_by val xs →
  ins_sorted val z i xs =
    filter (λ j, val j ≤ z) xs ++ i :: filter (λ j, z < val j) xs.
Proof.
  induction xs as [|x xs IH]; simpl; [done|]. rewrite sorted_by_cons. intros [Hx Hs].
  rewrite !filter_cons. destruct (Z.leb_spec (val x) z).
  - rewrite decide_True, decide_False by lia. by rewrite IH.
  - rewrite decide_False, decide_True by lia.
    replace (filter (λ j, val j ≤ z) xs) with (@nil I).
    + simpl. do 2 f_equal. symmetry. apply filter_all.
      intros y Hy. specialize (Hx y Hy). lia.
    + symmetry. apply filter_none. intros y Hy ?. specialize (Hx y Hy). lia.
Qed.

(** Insertion in any list: before the first item that is greater. *)
Lemma ins_sorted_split val z i (xs : list I) : ∃ ys zs, xs = ys ++ zs ∧ ins_sorted val z i xs = ys ++ i :: zs ∧
  (∀ j, j ∈ ys → val j ≤ z) ∧ (∀ j, head zs = Some j → z < val j).
Proof.
  induction xs as [|x xs (ys & zs & -> & IH & H1 & H2)]; simpl; [exists [], []; set_solver|].
  destruct (Z.leb_spec (val x) z).
  - exists (x :: ys), zs. rewrite IH. split_and!; [done|done| |done]. intros j [->|?]%elem_of_cons; [done|by apply H1].
  - exists [], (x :: ys ++ zs). split_and!; [done|done|set_solver|]. by intros j [= <-].
Qed.

Lemma sorted_by_filter val (P : I → Prop) `{∀ i, Decision (P i)} (xs : list I) :
  sorted_by val xs → sorted_by val (filter P xs).
Proof.
  induction xs as [|x xs IH]; [done|].
  rewrite sorted_by_cons. intros [Hx Hs]. rewrite filter_cons. case_decide; [|by apply IH].
  apply sorted_by_cons. split; [|by apply IH]. intros j [_ Hj]%list_elem_of_filter. by apply Hx.
Qed.

Lemma ins_sorted_sorted val i (xs : list I) :
  sorted_by val xs → sorted_by val (ins_sorted val (val i) i xs).
Proof.
  intros Hs. rewrite ins_sorted_filter by done.
  apply sorted_by_app. rewrite sorted_by_cons. split_and!.
  - by apply sorted_by_filter.
  - intros j [??]%list_elem_of_filter. lia.
  - by apply sorted_by_filter.
  - intros x y [??]%list_elem_of_filter [->|[??]%list_elem_of_filter]%elem_of_cons; lia.
Qed.

(** ** The order in which [listGET_OWNER_OF_NEXT_ENTRY] visits a list *)

(** The item [pxIndex] designates comes last. *)
Definition ring_order (r : ring) : list I :=
  match r_index r with
  | None => r_items r
  | Some j => after j (r_items r) ++ before j (r_items r) ++ [j]
  end.

Definition ring_wf (r : ring) : Prop :=
  NoDup (r_items r) ∧ match r_index r with None => True | Some j => j ∈ r_items r end.

Lemma rep_ring_wf s m l r : rep s m → m !! l = Some r → ring_wf r.
Proof. intros Hrep Hm. by destruct (rep_lists s m Hrep l r Hm). Qed.

Lemma ring_order_perm r : ring_wf r → ring_order r ≡ₚ r_items r.
Proof.
  intros [_ Hj]. unfold ring_order. destruct (r_index r) as [j|]; [|done].
  rewrite (before_perm j (r_items r)) at 3 by done.
  rewrite Permutation_app_comm, <- app_assoc. simpl.
  by rewrite <- Permutation_middle.
Qed.

Lemma ring_next_order r : ring_wf r → ring_next r = head (ring_order r).
Proof.
  intros [_ Hj]. unfold ring_next, ring_order. destruct (r_index r) as [j|]; [|done].
  destruct (after j (r_items r)) as [|x xs] eqn:Ha; [|done]. simpl.
  pose proof (before_after j _ Hj) as Heq. rewrite Ha in Heq. by rewrite <- Heq.
Qed.

(** Moving the index to the next item sends it to the back of the queue. *)
Lemma ring_order_step r j xs :
  ring_wf r → ring_order r = j :: xs → ring_order (r <| r_index := Some j |>) = xs ++ [j].
Proof.
  intros [Hnd Hj]. unfold ring_order. simpl. destruct (r_index r) as [k|]; simpl.
  - pose proof (before_after k _ Hj) as Heq.
    revert Heq. generalize (before k (r_items r)) (after k (r_items r)). intros l1 l2 Heq.
    rewrite Heq in Hnd |- *.
    destruct l2 as [|y ys]; simpl; [|intros [= <- <-]].
    + destruct l1 as [|z zs]; simpl; intros [= <- <-]; by rewrite !decide_True, ?app_nil_r.
    + replace (l1 ++ k :: y :: ys) with ((l1 ++ [k]) ++ y :: ys) by by rewrite <- app_assoc.
      assert (y ∉ l1 ++ [k]).
      { apply NoDup_app in Hnd as (_ & Hd & Hc). apply NoDup_cons in Hc as [Hc _].
        intros [Hin|Hin%list_elem_of_singleton]%elem_of_app; [|subst; apply Hc; by left].
        apply (Hd _ Hin). by right; left. }
      rewrite after_mid, before_mid by done. by rewrite <- !app_assoc.
  - intros ->. simpl. by rewrite !decide_True.
Qed.

(** An item put at the end is visited after every other item, the one that
    [pxIndex] designates apart. *)
Lemma ring_order_insert_end i r :
  ring_wf r → i ∉ r_items r →
  ring_order (ring_insert_end i r) =
    match r_index r with
    | None => ring_order r ++ [i]
    | Some j => after j (r_items r) ++ before j (r_items r) ++ [i; j]
    end.
Proof.
  intros [Hnd Hj] Hi. unfold ring_order, ring_insert_end.
  destruct (r_index r) as [j|] eqn:Hidx; simpl; rewrite Hidx; [|done].
  assert (i ≠ j) as Hne by (by intros ->).
  replace (before j (r_items r) ++ i :: j :: after j (r_items r))
    with ((before j (r_items r) ++ [i]) ++ j :: after j (r_items r)) by by rewrite <- app_assoc.
  assert (j ∉ before j (r_items r) ++ [i]).
  { intros [Hin|Hin%list_elem_of_singleton]%elem_of_app; [|by subst].
    by apply before_not_in in Hin. }
  rewrite after_mid, before_mid by done. by rewrite <- !app_assoc.
Qed.

(** [n] calls of [listGET_OWNER_OF_NEXT_ENTRY]. *)
Fixpoint next_owners (n : nat) (l : L) : M list_store (list Z) :=
  match n with
  | O => retM []
  | Datatypes.S n =>
      let* t := listGET_OWNER_OF_NEXT_ENTRY l in
      let* ts := next_owners n l in
      retM (t :: ts)
  end.

Lemma wp_next_owners (own : I → Z) l r n : ∀ s m xs ys,
  rep s m → m !! l = Some r → ring_order r = xs ++ ys → n = length xs →
  (∀ j, j ∈ r_items r → ownerOf s j = Some (own j)) →
  wp (next_owners n l) (λ ts s', ts = own <$> xs ∧
    rep s' (<[l := match last xs with None => r | Some j => r <| r_index := Some j |> end]> m) ∧
    same_items s s') s.
Proof.
  revert r. induction n as [|n IH]; intros r s m xs ys Hrep Hm Hord Hn Hown.
  { destruct xs; [|done]. simpl. apply wp_ret. rewrite insert_id by done. done. }
  destruct xs as [|j xs]; [done|]. simplify_eq/=.
  pose proof (rep_ring_wf s m l r Hrep Hm) as Hwf.
  assert (j ∈ r_items r) as Hj.
  { rewrite <- (ring_order_perm r Hwf), Hord. by left. }
  apply wp_bind. eapply wp_mono.
  { eapply (wp_listGET_OWNER_OF_NEXT_ENTRY s m l r j (own j)); [done..| |by apply Hown].
    by rewrite ring_next_order, Hord. }
  intros t s' (-> & Hrep' & Hsame). apply wp_bind. eapply wp_mono.
  { apply (IH (r <| r_index := Some j |>) s' _ xs (ys ++ [j]) Hrep').
    - by rewrite lookup_insert_eq.
    - rewrite (ring_order_step r j (xs ++ ys)) by done. by rewrite app_assoc.
    - done.
    - intros k Hk. rewrite (si_owner _ _ Hsame). by apply Hown. }
  simpl. intros ts s'' (-> & Hrep'' & Hsame'). apply wp_ret. split; [done|].
  split; [|by etransitivity]. rewrite insert_insert_eq in Hrep''.
  rewrite last_cons. by destruct (last xs).
Qed.

(** ** The properties *)

(** C18: [vListInsert] on a list sorted by item value: the call terminates,
    the list stays sorted, the new item goes after every item whose value is
    not greater (items of equal value keep their order of arrival) and before
    the greater ones, and no other list, item value or owner changes. *)
Theorem vListInsert_sorted_stable s m l r i :
  rep s m → m !! l = Some r → contOf s i = None → present s (PItem i) = true →
  sorted_by (val_of s) (r_items r) →
  wp (vListInsert l i) (λ _ s', ∃ r',
    rep s' (<[l := r']> m) ∧ same_items s s' ∧ r_index r' = r_index r ∧
    r_items r' = filter (λ j, val_of s j ≤ val_of s i) (r_items r) ++
                 i :: filter (λ j, val_of s i < val_of s j) (r_items r) ∧
    sorted_by (val_of s') (r_items r')) s.
Proof.
  intros Hrep Hm Hc Hp Hs. eapply wp_mono; [by apply (wp_vListInsert s m l r i)|].
  intros _ s' [Hrep' Hsame]. exists (ring_insert (val_of s) i r). split_and!; [done..| |].
  - by apply ins_sorted_filter.
  - apply (sorted_by_ext (val_of s)); [|by apply ins_sorted_sorted].
    intros j _. unfold val_of. by rewrite (si_value _ _ Hsame).
Qed.

(** C19: [uxListRemove] of an item that is in a list: the call terminates, the
    item and only it leaves the list (the others keep their order), its
    [pxContainer] is [NULL], the answer is the number of items left, and no
    other list, item value or owner changes. *)
Theorem uxListRemove_exact s m l i :
  rep s m → contOf s i = Some l →
  wp (uxListRemove i) (λ n s', ∃ r r',
    m !! l = Some r ∧ rep s' (<[l := r']> m) ∧ same_items s s' ∧
    r_items r' = filter (.≠ i) (r_items r) ∧ contOf s' i = None ∧
    n = Z.of_nat (length (r_items r')) ∧ S (length (r_items r')) = length (r_items r)) s.
Proof.
  intros Hrep Hc. apply (rep_cont s m i l Hrep) in Hc as (r & Hm & Hi).
  eapply wp_mono; [by apply (wp_uxListRemove s m l r i)|].
  intros n s' (-> & Hrep' & Hsame). exists r, (ring_remove i r).
  pose proof (rl_nodup _ _ _ (rep_lists s m Hrep l r Hm)) as Hnd.
  assert (r_items (ring_remove i r) = filter (.≠ i) (r_items r)) as Hf.
  { simpl. rewrite (before_after i (r_items r)) in Hnd |- * by done.
    apply NoDup_app in Hnd as (Hb & Hd & [Ha ?]%NoDup_cons).
    pose proof (before_not_in i (r_items r)).
    rewrite before_mid, after_mid by done.
    rewrite filter_app, filter_cons_False by auto.
    f_equal; symmetry; apply filter_all; by intros ? ? ->. }
  split_and!; try done.
  - destruct (contOf s' i) as [l'|] eqn:Hc; [|done]. exfalso.
    apply (rep_cont s' _ i l' Hrep') in Hc as (r' & Hr' & Hi').
    destruct (decide (l = l')) as [->|Hne].
    + rewrite lookup_insert_eq in Hr'. simplify_eq.
      rewrite Hf in Hi'. by apply list_elem_of_filter in Hi' as [? _].
    + rewrite lookup_insert_ne in Hr' by done.
      assert (contOf s i = Some l') as Hc' by (apply (rep_cont s m i l' Hrep); eauto).
      assert (contOf s i = Some l) by (apply (rep_cont s m i l Hrep); eauto). congruence.
  - symmetry. by apply remove_length.
Qed.

(** [listGET_OWNER_OF_NEXT_ENTRY], the selection among tasks of equal
    priority, is fair: on a list of [n] items, [n] calls return the owner of
    every item exactly once, starting with the item after [pxIndex], and end
    with [pxIndex] on the item they started from. *)
Theorem listGET_OWNER_OF_NEXT_ENTRY_fair (own : I → Z) s m l r j :
  rep s m → m !! l = Some r → r_index r = Some j →
  (∀ k, k ∈ r_items r → ownerOf s k = Some (own k)) →
  wp (next_owners (length (r_items r)) l) (λ ts s',
    ts = own <$> (after j (r_items r) ++ before j (r_items r) ++ [j]) ∧
    ts ≡ₚ own <$> r_items r ∧ rep s' m ∧ same_items s s') s.
Proof.
  intros Hrep Hm Hidx Hown. pose proof (rep_ring_wf s m l r Hrep Hm) as Hwf.
  pose proof (ring_order_perm r Hwf) as Hperm.
  eapply wp_mono; [apply (wp_next_owners own l r _ s m (ring_order r) [] Hrep Hm)|].
  - by rewrite app_nil_r.
  - by rewrite Hperm.
  - done.
  - intros ts s' (-> & Hrep' & Hsame). split_and!; [| | |done].
    + unfold ring_order. by rewrite Hidx.
    + by apply fmap_Permutation.
    + assert (last (ring_order r) = Some j) as Hl.
      { unfold ring_order. rewrite Hidx, app_assoc. apply last_snoc. }
      rewrite Hl in Hrep'. rewrite insert_id in Hrep'; [done|].
      destruct r; simpl in *. by simplify_eq.
Qed.
End order.

Lemma ins_sorted_fmap {A I} (f : A → I) (val : I → Z) (val' : A → Z) z a xs :
  (∀ x, x ∈ xs → val (f x) = val' x) → ins_sorted val z (f a) (f <$> xs) = f <$> ins_sorted val' z a xs.
Proof.
  induction xs as [|x xs IH]; intros Hv; [done|]. simpl. rewrite Hv by by left.
  destruct (_ <=? _); [|done]. simpl. f_equal. apply IH. intros u Hu. apply Hv. by right.
Qed.


(** ** A concrete store *)

(** Four items with values 3, 5, 5, 8 and owners 101 to 104, and two lists. *)
Definition ex_item (v o : Z) : ListItem_t (I:=Z) (L:=Z) := mkListItem v None None (Some o) None.
Definition ex_store0 : list_store (I:=Z) (L:=Z) :=
  mkStore (list_to_map [(1, ex_item 3 101); (2, ex_item 5 102); (3, ex_item 5 103);
                        (4, ex_item 8 104)]) ∅.
Definition ex_setup : M (list_store (I:=Z) (L:=Z)) unit :=
  vListInitialise 10 ;> vListInitialise 20 ;>
  vListInsert 10 4 ;> vListInsert 10 2 ;> vListInsert 10 1.
Definition ex_store : list_store (I:=Z) (L:=Z) :=
  match ex_setup ex_store0 with ROk (_, s) => s | _ => ex_store0 end.
Definition ex_rings : gmap Z (ring (I:=Z)) :=
  <[10 := mkRing [1; 2; 4] None]> (<[20 := mkRing [] None]> ∅).
(** After one call of [listGET_OWNER_OF_NEXT_ENTRY] the index is on item 1. *)
Definition ex_store1 : list_store (I:=Z) (L:=Z) :=
  match listGET_OWNER_OF_NEXT_ENTRY 10 ex_store with ROk (_, s) => s | _ => ex_store0 end.
Definition ex_ring1 : ring (I:=Z) := mkRing [1; 2; 4] (Some 1).
Definition ex_own (i : Z) : Z := 100 + i.

Lemma ex_rep : rep ex_store ex_rings.
Proof. by apply (bool_decide_unpack _); vm_compute. Qed.
Lemma ex_rep1 : rep ex_store1 (<[10 := ex_ring1]> ex_rings).
Proof. by apply (bool_decide_unpack _); vm_compute. Qed.
Lemma ex_sorted : sorted_by (val_of ex_store) [1; 2; 4].
Proof.
  rewrite !sorted_by_cons. split_and!; [..|apply sorted_by_nil];
    intros j Hj; repeat (apply elem_of_cons in Hj as [->|Hj]; [by vm_compute|]);
    by apply not_elem_of_nil in Hj.
Qed.

Lemma vListInsert_sorted_stable_witness :
  wp (vListInsert 10 3) (λ _ s', ∃ r',
    rep s' (<[10 := r']> ex_rings) ∧ same_items ex_store s' ∧ r_index r' = None ∧
    r_items r' = filter (λ j, val_of ex_store j ≤ val_of ex_store 3) [1; 2; 4] ++
                 3 :: filter (λ j, val_of ex_store 3 < val_of ex_store j) [1; 2; 4] ∧
    sorted_by (val_of s') (r_items r')) ex_store.
Proof.
  apply (vListInsert_sorted_stable ex_store ex_rings 10 (mkRing [1; 2; 4] None) 3);
    [exact ex_rep|reflexivity|reflexivity|reflexivity|exact ex_sorted].
Defined.

Lemma uxListRemove_exact_witness :
  wp (uxListRemove 2) (λ n s', ∃ r r',
    ex_rings !! 10 = Some r ∧ rep s' (<[10 := r']> ex_rings) ∧ same_items ex_store s' ∧
    r_items r' = filter (.≠ 2) (r_items r) ∧ contOf s' 2 = None ∧
    n = Z.of_nat (length (r_items r')) ∧ S (length (r_items r')) = length (r_items r)) ex_store.
Proof. apply (uxListRemove_exact ex_store ex_rings 10 2); [exact ex_rep|reflexivity]. Defined.

Lemma listGET_OWNER_OF_NEXT_ENTRY_fair_witness :
  wp (next_owners 3 10) (λ ts s',
    ts = [102; 104; 101] ∧ ts ≡ₚ [101; 102; 104] ∧
    rep s' (<[10 := ex_ring1]> ex_rings) ∧ same_items ex_store1 s') ex_store1.
Proof.
  apply (listGET_OWNER_OF_NEXT_ENTRY_fair ex_own ex_store1 (<[10 := ex_ring1]> ex_rings)
    10 ex_ring1 1); [exact ex_rep1|reflexivity|reflexivity|].
  intros k Hk. repeat (apply elem_of_cons in Hk as [->|Hk]; [by vm_compute|]).
  by apply not_elem_of_nil in Hk.
Defined.
