(* ===== verification/Tasks.v ===== *)
(** * The scheduler: state and operations (src/FreeRTOS/Source/tasks.c)

    The variables of tasks.c as one record over the pointer-level lists of
    [KList], and one definition per function and macro of tasks.c that the
    single-core configuration of the demo uses (FreeRTOSConfig.h: preemption
    with time slicing, port-optimised task selection, mutexes, notifications,
    [vTaskSuspend], [vTaskDelete], [xTaskAbortDelay]).

    A definition is the code between two points where another task or an
    interrupt can run, or several of them in a row where the code has several
    critical sections.  [portYIELD] sets the pending bit of PendSV; the switch
    itself, [xPortPendSVHandler], is a step of its own. *)
From S2P Require Import Prelude KList.

(** ** Items and lists

    A TCB holds two list items; [lid] names every [List_t] of the kernel: the
    lists of tasks.c, the two event lists of a queue and the one of an event
    group. *)
Inductive item : Type :=
| StateItem (t : Z)
| EventItem (t : Z).

Inductive lid : Type :=
| ReadyL (p : Z)
| DelayedL1
| DelayedL2
| PendingReadyL
| TerminationL
| SuspendedL
| WaitSendL (q : Z)
| WaitRecvL (q : Z)
| EventGroupL (e : Z).

#[global] Instance item_eq_dec : EqDecision item.
Proof. solve_decision. Defined.
#[global] Instance item_countable : Countable item.
Proof.
  apply (inj_countable' (λ i, match i with StateItem t => inl t | EventItem t => inr t end)
    (λ x, match x with inl t => StateItem t | inr t => EventItem t end)).
  by intros [].
Defined.
#[global] Instance lid_eq_dec : EqDecision lid.
Proof. solve_decision. Defined.
#[global] Instance lid_countable : Countable lid.
Proof.
  apply (inj_countable' (λ l, match l with
    | ReadyL p => (0%nat, p) | DelayedL1 => (1%nat, 0) | DelayedL2 => (2%nat, 0)
    | PendingReadyL => (3%nat, 0) | TerminationL => (4%nat, 0) | SuspendedL => (5%nat, 0)
    | WaitSendL q => (6%nat, q) | WaitRecvL q => (7%nat, q) | EventGroupL e => (8%nat, e) end)
    (λ x, match x with
    | (0%nat, p) => ReadyL p | (1%nat, _) => DelayedL1 | (2%nat, _) => DelayedL2
    | (3%nat, _) => PendingReadyL | (4%nat, _) => TerminationL | (5%nat, _) => SuspendedL
    | (6%nat, q) => WaitSendL q | (7%nat, q) => WaitRecvL q | (_, e) => EventGroupL e end)).
  by intros [].
Defined.

Abbreviation store := (list_store (I:=item) (L:=lid)).

(** ** Configuration (FreeRTOSConfig.h) and constants *)
Definition configMAX_PRIORITIES : Z := 9.
Definition configTASK_NOTIFICATION_ARRAY_ENTRIES : Z := 3.
Definition configTICK_RATE_HZ : Z := 1000.
Definition tskIDLE_PRIORITY : Z := 0.
Definition taskNOT_WAITING_NOTIFICATION : Z := 0.
Definition taskWAITING_NOTIFICATION : Z := 1.
Definition taskNOTIFICATION_RECEIVED : Z := 2.
Definition taskEVENT_LIST_ITEM_VALUE_IN_USE : Z := 2147483648.

(** ** State *)

(** Task control block; its two list items live in the list store. *)
Record TCB_t := mkTCB {
  uxPriority : Z;
  uxBasePriority : Z;
  uxMutexesHeld : Z;
  uxTCBNumber : Z;
  pxStack : Z;
  ucStaticallyAllocated : Z;
  ucDelayAborted : bool;
  ulNotifiedValue : list Z;
  ucNotifyState : list Z
}.
#[global] Instance eta_TCB : Eta TCB_t := λ r,
  mkTCB (uxPriority r) (uxBasePriority r) (uxMutexesHeld r) (uxTCBNumber r) (pxStack r)
    (ucStaticallyAllocated r) (ucDelayAborted r) (ulNotifiedValue r) (ucNotifyState r).

(** The file-scope variables of tasks.c, the TCBs by address, and the PendSV
    pending bit of the interrupt controller ([pendsv]). *)
Record kernel := mkKernel {
  k_lists : store;
  k_tcbs : gmap Z TCB_t;
  pxCurrentTCB : option Z;
  pxDelayedTaskList : lid;
  pxOverflowDelayedTaskList : lid;
  uxDeletedTasksWaitingCleanUp : Z;
  uxCurrentNumberOfTasks : Z;
  xTickCount : Z;
  uxTopReadyPriority : Z;
  xSchedulerRunning : bool;
  xPendedTicks : Z;
  xYieldPendings : bool;
  xNumOfOverflows : Z;
  uxTaskNumber : Z;
  xNextTaskUnblockTime : Z;
  uxSchedulerSuspended : Z;
  pendsv : bool
}.
#[global] Instance eta_kernel : Eta kernel := λ k,
  mkKernel (k_lists k) (k_tcbs k) (pxCurrentTCB k) (pxDelayedTaskList k)
    (pxOverflowDelayedTaskList k) (uxDeletedTasksWaitingCleanUp k) (uxCurrentNumberOfTasks k)
    (xTickCount k) (uxTopReadyPriority k) (xSchedulerRunning k) (xPendedTicks k)
    (xYieldPendings k) (xNumOfOverflows k) (uxTaskNumber k) (xNextTaskUnblockTime k)
    (uxSchedulerSuspended k) (pendsv k).

Record TimeOut_t := mkTimeOut {
  xOverflowCount : Z;
  xTimeOnEntering : Z
}.

Inductive eTaskState := eRunning | eReady | eBlocked | eSuspended | eDeleted | eInvalid.
#[global] Instance eTaskState_eq_dec : EqDecision eTaskState.
Proof. solve_decision. Defined.
(** [eOtherAction]: an integer that is none of the enumerators. *)
Inductive eNotifyAction :=
| eNoAction | eSetBits | eIncrement | eSetValueWithOverwrite | eSetValueWithoutOverwrite
| eOtherAction.

Abbreviation K := (M kernel).

(** ** Access to the state *)

(** A list operation. *)
Definition kl {A} (m : M store A) : K A := zoom k_lists (λ s k, k <| k_lists := s |>) m.

(** [pxCurrentTCB] as an object: dereferencing [NULL] faults. *)
Definition current : K Z := let* k := getM in derefM (pxCurrentTCB k).
Definition tcb_get {A} (t : Z) (f : TCB_t → A) : K A :=
  let* k := getM in derefM (f <$> k_tcbs k !! t).
Definition tcb_set (t : Z) (f : TCB_t → TCB_t) : K unit :=
  let* k := getM in
  match k_tcbs k !! t with
  | None => faultM
  | Some x => modify (λ k, k <| k_tcbs ::= <[t := f x]> |>)
  end.

(** [prvGetTCBFromHandle( pxHandle )] *)
Definition prvGetTCBFromHandle (pxHandle : option Z) : K (option Z) :=
  match pxHandle with None => gets pxCurrentTCB | Some t => retM (Some t) end.

(** A critical section: the interrupts that use the kernel are masked, so the
    code of the section is one step. *)
Definition critical {A} (m : K A) : K A := m.

(** ** The port: ready bitmap and yields (portable/GCC/ARM_CM3) *)

Definition portYIELD : K unit := modify (λ k, k <| pendsv := true |>).
Definition portYIELD_WITHIN_API : K unit := portYIELD.
Definition portEND_SWITCHING_ISR (xSwitchRequired : bool) : K unit :=
  when xSwitchRequired then portYIELD.

(** [1UL << uxPriority] *)
Definition prio_bit (uxPriority : Z) : Z := Z.shiftl 1 uxPriority.
Definition portRECORD_READY_PRIORITY (uxPriority : Z) : K unit :=
  modify (λ k, k <| uxTopReadyPriority ::= λ b, Z.lor b (prio_bit uxPriority) |>).
Definition portRESET_READY_PRIORITY (uxPriority : Z) : K unit :=
  modify (λ k, k <| uxTopReadyPriority ::= λ b, Z.land b (Z.lnot (prio_bit uxPriority)) |>).
(** The [clz] instruction on a 32-bit word. *)
Definition ucPortCountLeadingZeros (ulBitmap : Z) : Z :=
  if ulBitmap =? 0 then 32 else 31 - Z.log2 ulBitmap.
Definition portGET_HIGHEST_PRIORITY (uxReadyPriorities : Z) : Z :=
  wrap32 (31 - ucPortCountLeadingZeros uxReadyPriorities).

(** ** Macros of tasks.c *)

Definition taskRESET_READY_PRIORITY (uxPriority : Z) : K unit :=
  let* n := kl (listCURRENT_LIST_LENGTH (ReadyL uxPriority)) in
  when n =? 0 then portRESET_READY_PRIORITY uxPriority.

Definition taskSELECT_HIGHEST_PRIORITY_TASK : K unit :=
  let* k := getM in
  let uxTopPriority := portGET_HIGHEST_PRIORITY (uxTopReadyPriority k) in
  let* n := kl (listCURRENT_LIST_LENGTH (ReadyL uxTopPriority)) in
  configASSERT (0 <? n) ;>
  let* t := kl (listGET_OWNER_OF_NEXT_ENTRY (ReadyL uxTopPriority)) in
  modify (λ k, k <| pxCurrentTCB := Some t |>).

Definition prvResetNextTaskUnblockTime : K unit :=
  let* k := getM in
  let* e := kl (listLIST_IS_EMPTY (pxDelayedTaskList k)) in
  if e then modify (λ k, k <| xNextTaskUnblockTime := portMAX_DELAY |>)
  else
    let* v := kl (listGET_ITEM_VALUE_OF_HEAD_ENTRY (pxDelayedTaskList k)) in
    modify (λ k, k <| xNextTaskUnblockTime := v |>).

Definition taskSWITCH_DELAYED_LISTS : K unit :=
  let* k := getM in
  let* e := kl (listLIST_IS_EMPTY (pxDelayedTaskList k)) in
  configASSERT e ;>
  modify (λ k', k' <| pxDelayedTaskList := pxOverflowDelayedTaskList k |>
                   <| pxOverflowDelayedTaskList := pxDelayedTaskList k |>
                   <| xNumOfOverflows ::= λ n, wrap32 (n + 1) |>) ;>
  prvResetNextTaskUnblockTime.

Definition prvAddTaskToReadyList (pxTCB : Z) : K unit :=
  let* p := tcb_get pxTCB uxPriority in
  portRECORD_READY_PRIORITY p ;>
  kl (listINSERT_END (ReadyL p) (StateItem pxTCB)).

Definition taskYIELD_ANY_CORE_IF_USING_PREEMPTION (pxTCB : Z) : K unit :=
  let* cur := current in
  let* pc := tcb_get cur uxPriority in
  let* p := tcb_get pxTCB uxPriority in
  when pc <? p then portYIELD_WITHIN_API.

(** Sets [xYieldPendings] when [pxTCB] has a higher priority than the running
    task; the comparison at the end of every function that readies a task. *)
Definition preempts (pxTCB : Z) : K bool :=
  let* cur := current in
  let* p := tcb_get pxTCB uxPriority in
  let* pc := tcb_get cur uxPriority in
  retM (pc <? p).
Definition setYieldPending : K unit := modify (λ k, k <| xYieldPendings := true |>).

(** ** Start-up *)

Definition prvInitialiseTaskLists : K unit :=
  let fix ready (n : nat) : K unit :=
    match n with
    | O => retM tt
    | S n => ready n ;> kl (vListInitialise (ReadyL (Z.of_nat n)))
    end in
  ready (Z.to_nat configMAX_PRIORITIES) ;>
  kl (vListInitialise DelayedL1) ;>
  kl (vListInitialise DelayedL2) ;>
  kl (vListInitialise PendingReadyL) ;>
  kl (vListInitialise TerminationL) ;>
  kl (vListInitialise SuspendedL) ;>
  modify (λ k, k <| pxDelayedTaskList := DelayedL1 |>
                 <| pxOverflowDelayedTaskList := DelayedL2 |>).

(** The TCB object that [prvCreateTask] or [xTaskCreateStatic] has zeroed with
    [memset], at the address [pxNewTCB], and the fields they set in it. *)
Definition zeroTCB (stack : Z) (ucStatic : Z) : TCB_t :=
  mkTCB 0 0 0 0 stack ucStatic false
    (replicate (Z.to_nat configTASK_NOTIFICATION_ARRAY_ENTRIES) 0)
    (replicate (Z.to_nat configTASK_NOTIFICATION_ARRAY_ENTRIES) taskNOT_WAITING_NOTIFICATION).
Definition zeroItem : ListItem_t (I:=item) (L:=lid) := mkListItem 0 None None None None.
Definition memsetTCB (pxNewTCB stack ucStatic : Z) : K unit :=
  modify (λ k, k <| k_tcbs ::= <[pxNewTCB := zeroTCB stack ucStatic]> |>
    <| k_lists ::= λ s, s <| ls_items ::= λ m,
         <[EventItem pxNewTCB := zeroItem]> (<[StateItem pxNewTCB := zeroItem]> m) |> |>).

(** The fields of a TCB that [prvInitialiseNewTask] sets ([pxNewTCB] is an object
    that [prvCreateTask] or [xTaskCreateStatic] has zeroed). *)
Definition prvInitialiseNewTask (uxPriority0 : Z) (pxNewTCB : Z) : K unit :=
  configASSERT (uxPriority0 <? configMAX_PRIORITIES) ;>
  let p := if configMAX_PRIORITIES <=? uxPriority0 then configMAX_PRIORITIES - 1 else uxPriority0 in
  tcb_set pxNewTCB (λ x, x <| uxPriority := p |>) ;>
  tcb_set pxNewTCB (λ x, x <| uxBasePriority := p |>) ;>
  kl (vListInitialiseItem (StateItem pxNewTCB)) ;>
  kl (vListInitialiseItem (EventItem pxNewTCB)) ;>
  kl (listSET_LIST_ITEM_OWNER (StateItem pxNewTCB) pxNewTCB) ;>
  kl (listSET_LIST_ITEM_VALUE (EventItem pxNewTCB) (wrap32 (configMAX_PRIORITIES - p))) ;>
  kl (listSET_LIST_ITEM_OWNER (EventItem pxNewTCB) pxNewTCB).

Definition prvAddNewTaskToReadyList (pxNewTCB : Z) : K unit :=
  critical (
    modify (λ k, k <| uxCurrentNumberOfTasks ::= λ n, wrap32 (n + 1) |>) ;>
    let* k := getM in
    (match pxCurrentTCB k with
     | None =>
         modify (λ k, k <| pxCurrentTCB := Some pxNewTCB |>) ;>
         when uxCurrentNumberOfTasks k =? 1 then prvInitialiseTaskLists
     | Some cur =>
         when negb (xSchedulerRunning k) then
           let* pc := tcb_get cur uxPriority in
           let* p := tcb_get pxNewTCB uxPriority in
           when pc <=? p then modify (λ k, k <| pxCurrentTCB := Some pxNewTCB |>)
     end) ;>
    modify (λ k, k <| uxTaskNumber ::= λ n, wrap32 (n + 1) |>) ;>
    let* k := getM in
    tcb_set pxNewTCB (λ x, x <| uxTCBNumber := uxTaskNumber k |>) ;>
    prvAddTaskToReadyList pxNewTCB) ;>
  let* k := getM in
  when xSchedulerRunning k then taskYIELD_ANY_CORE_IF_USING_PREEMPTION pxNewTCB.

(** The part of [vTaskStartScheduler] after the idle and timer tasks exist. *)
Definition startKernel : K unit :=
  modify (λ k, k <| xNextTaskUnblockTime := portMAX_DELAY |>
                 <| xSchedulerRunning := true |>
                 <| xTickCount := 0 |>).

Definition vTaskResetState : K unit :=
  modify (λ k, k <| pxCurrentTCB := None |>
                 <| uxDeletedTasksWaitingCleanUp := 0 |>
                 <| uxCurrentNumberOfTasks := 0 |>
                 <| xTickCount := 0 |>
                 <| uxTopReadyPriority := tskIDLE_PRIORITY |>
                 <| xSchedulerRunning := false |>
                 <| xPendedTicks := 0 |>
                 <| xYieldPendings := false |>
                 <| xNumOfOverflows := 0 |>
                 <| uxTaskNumber := 0 |>
                 <| xNextTaskUnblockTime := 0 |>
                 <| uxSchedulerSuspended := 0 |>).

(** ** The tick and the context switch *)

(** One turn of the loop of [xTaskIncrementTick] that unblocks the tasks whose
    time has come, with its local variable [xSwitchRequired]. *)
Definition unblock_one (xConstTickCount : Z) (xSwitchRequired : bool) : K (bool + bool) :=
  let* k := getM in
  let* e := kl (listLIST_IS_EMPTY (pxDelayedTaskList k)) in
  if e then
    modify (λ k, k <| xNextTaskUnblockTime := portMAX_DELAY |>) ;>
    retM (inr xSwitchRequired)
  else
    let* pxTCB := kl (listGET_OWNER_OF_HEAD_ENTRY (pxDelayedTaskList k)) in
    let* xItemValue := kl (listGET_LIST_ITEM_VALUE (StateItem pxTCB)) in
    if xConstTickCount <? xItemValue then
      modify (λ k, k <| xNextTaskUnblockTime := xItemValue |>) ;>
      retM (inr xSwitchRequired)
    else
      kl (listREMOVE_ITEM (StateItem pxTCB)) ;>
      let* c := kl (listLIST_ITEM_CONTAINER (EventItem pxTCB)) in
      (match c with
       | Some _ => kl (listREMOVE_ITEM (EventItem pxTCB))
       | None => retM tt
       end) ;>
      prvAddTaskToReadyList pxTCB ;>
      let* b := preempts pxTCB in
      retM (inl (b || xSwitchRequired)).

(** The loop; its fuel is one turn per task of the delayed list and one more. *)
Definition unblock_loop (xConstTickCount : Z) : K bool :=
  let* k := getM in
  let* n := kl (listCURRENT_LIST_LENGTH (pxDelayedTaskList k)) in
  iterM (S (Z.to_nat n)) (unblock_one xConstTickCount) false.

(** The hook of main.c, empty in the demo that is built. *)
Definition vApplicationTickHook : K unit := retM tt.
Definition xTaskIncrementTick : K bool :=
  let* k := getM in
  if uxSchedulerSuspended k =? 0 then
    let xConstTickCount := wrap32 (xTickCount k + 1) in
    modify (λ k, k <| xTickCount := xConstTickCount |>) ;>
    (when xConstTickCount =? 0 then taskSWITCH_DELAYED_LISTS) ;>
    let* k := getM in
    let* xSwitchRequired :=
      (if xNextTaskUnblockTime k <=? xConstTickCount then unblock_loop xConstTickCount
       else retM false) in
    let* cur := current in
    let* p := tcb_get cur uxPriority in
    let* n := kl (listCURRENT_LIST_LENGTH (ReadyL p)) in
    let* k := getM in
    (when xPendedTicks k =? 0 then vApplicationTickHook) ;>
    let* k := getM in
    retM (xYieldPendings k || (1 <? n) || xSwitchRequired)
  else
    modify (λ k, k <| xPendedTicks ::= λ n, wrap32 (n + 1) |>) ;>
    vApplicationTickHook ;>
    retM false.

(** portable/GCC/ARM_CM3/port.c *)
Definition xPortSysTickHandler : K unit :=
  let* b := xTaskIncrementTick in
  when b then portYIELD.

Definition vTaskSwitchContext : K unit :=
  let* k := getM in
  if negb (uxSchedulerSuspended k =? 0) then setYieldPending
  else
    modify (λ k, k <| xYieldPendings := false |>) ;>
    taskSELECT_HIGHEST_PRIORITY_TASK.

(** The PendSV handler: the pending bit is cleared by the exception entry. *)
Definition xPortPendSVHandler : K unit :=
  modify (λ k, k <| pendsv := false |>) ;>
  vTaskSwitchContext.

(** ** Suspending the scheduler *)

Definition vTaskSuspendAll : K unit :=
  modify (λ k, k <| uxSchedulerSuspended ::= λ n, wrap32 (n + 1) |>).

(** One turn of the loop that moves the tasks readied while the scheduler was
    suspended; the local variable is [pxTCB], the last task moved. *)
Definition move_pending_one (pxTCB : option Z) : K (option Z + option Z) :=
  let* e := kl (listLIST_IS_EMPTY PendingReadyL) in
  if e then retM (inr pxTCB)
  else
    let* pxTCB := kl (listGET_OWNER_OF_HEAD_ENTRY PendingReadyL) in
    kl (listREMOVE_ITEM (EventItem pxTCB)) ;>
    kl (listREMOVE_ITEM (StateItem pxTCB)) ;>
    prvAddTaskToReadyList pxTCB ;>
    let* b := preempts pxTCB in
    (when b then setYieldPending) ;>
    retM (inl (Some pxTCB)).

Definition move_pending : K (option Z) :=
  let* n := kl (listCURRENT_LIST_LENGTH PendingReadyL) in
  iterM (S (Z.to_nat n)) move_pending_one None.

(** The [do]-[while] loop over [xPendedCounts]. *)
Fixpoint pended_ticks (xPendedCounts : nat) : K unit :=
  match xPendedCounts with
  | O => retM tt
  | S n =>
      let* b := xTaskIncrementTick in
      (when b then setYieldPending) ;>
      pended_ticks n
  end.

Definition xTaskResumeAll : K bool :=
  critical (
    let* k := getM in
    configASSERT (negb (uxSchedulerSuspended k =? 0)) ;>
    modify (λ k, k <| uxSchedulerSuspended ::= λ n, wrap32 (n - 1) |>) ;>
    let* k := getM in
    if (uxSchedulerSuspended k =? 0) && (0 <? uxCurrentNumberOfTasks k) then
      let* pxTCB := move_pending in
      (when bool_decide (is_Some pxTCB) then prvResetNextTaskUnblockTime) ;>
      let* k := getM in
      let xPendedCounts := xPendedTicks k in
      (when 0 <? xPendedCounts then
         pended_ticks (Z.to_nat xPendedCounts) ;>
         modify (λ k, k <| xPendedTicks := 0 |>)) ;>
      let* k := getM in
      if xYieldPendings k then portYIELD_WITHIN_API ;> retM true
      else retM false
    else retM false).

Definition xTaskCatchUpTicks (xTicksToCatchUp : Z) : K bool :=
  let* k := getM in
  configASSERT (uxSchedulerSuspended k =? 0) ;>
  vTaskSuspendAll ;>
  critical (modify (λ k, k <| xPendedTicks ::= λ n, wrap32 (n + xTicksToCatchUp) |>)) ;>
  xTaskResumeAll.

(** ** Blocking the running task *)

Definition prvAddCurrentTaskToDelayedList (xTicksToWait : Z) (xCanBlockIndefinitely : bool) : K unit :=
  let* k := getM in
  let xConstTickCount := xTickCount k in
  let pxDelayedList := pxDelayedTaskList k in
  let pxOverflowDelayedList := pxOverflowDelayedTaskList k in
  let* cur := current in
  tcb_set cur (λ x, x <| ucDelayAborted := false |>) ;>
  let* n := kl (uxListRemove (StateItem cur)) in
  let* p := tcb_get cur uxPriority in
  (when n =? 0 then portRESET_READY_PRIORITY p) ;>
  if (xTicksToWait =? portMAX_DELAY) && xCanBlockIndefinitely then
    kl (listINSERT_END SuspendedL (StateItem cur))
  else
    let xTimeToWake := wrap32 (xConstTickCount + xTicksToWait) in
    kl (listSET_LIST_ITEM_VALUE (StateItem cur) xTimeToWake) ;>
    if xTimeToWake <? xConstTickCount then
      kl (vListInsert pxOverflowDelayedList (StateItem cur))
    else
      kl (vListInsert pxDelayedList (StateItem cur)) ;>
      let* k := getM in
      when xTimeToWake <? xNextTaskUnblockTime k then
        modify (λ k, k <| xNextTaskUnblockTime := xTimeToWake |>).

Definition vTaskDelay (xTicksToDelay : Z) : K unit :=
  let* xAlreadyYielded :=
    (if 0 <? xTicksToDelay then
       vTaskSuspendAll ;>
       let* k := getM in
       configASSERT (uxSchedulerSuspended k =? 1) ;>
       prvAddCurrentTaskToDelayedList xTicksToDelay false ;>
       xTaskResumeAll
     else retM false) in
  when negb xAlreadyYielded then portYIELD_WITHIN_API.

(** Answers [xShouldDelay] and the new value of [*pxPreviousWakeTime]. *)
Definition xTaskDelayUntil (pxPreviousWakeTime xTimeIncrement : Z) : K (bool * Z) :=
  configASSERT (0 <? xTimeIncrement) ;>
  vTaskSuspendAll ;>
  let* k := getM in
  let xConstTickCount := xTickCount k in
  configASSERT (uxSchedulerSuspended k =? 1) ;>
  let xTimeToWake := wrap32 (pxPreviousWakeTime + xTimeIncrement) in
  let xShouldDelay :=
    if xConstTickCount <? pxPreviousWakeTime then
      (xTimeToWake <? pxPreviousWakeTime) && (xConstTickCount <? xTimeToWake)
    else
      (xTimeToWake <? pxPreviousWakeTime) || (xConstTickCount <? xTimeToWake) in
  (when xShouldDelay then
     prvAddCurrentTaskToDelayedList (wrap32 (xTimeToWake - xConstTickCount)) false) ;>
  let* xAlreadyYielded := xTaskResumeAll in
  (when negb xAlreadyYielded then portYIELD_WITHIN_API) ;>
  retM (xShouldDelay, xTimeToWake).

(** ** Event lists *)

Definition vTaskPlaceOnEventList (pxEventList : lid) (xTicksToWait : Z) : K unit :=
  let* cur := current in
  kl (vListInsert pxEventList (EventItem cur)) ;>
  prvAddCurrentTaskToDelayedList xTicksToWait true.

Definition vTaskPlaceOnUnorderedEventList (pxEventList : lid) (xItemValue xTicksToWait : Z) : K unit :=
  let* k := getM in
  configASSERT (negb (uxSchedulerSuspended k =? 0)) ;>
  let* cur := current in
  kl (listSET_LIST_ITEM_VALUE (EventItem cur) (Z.lor xItemValue taskEVENT_LIST_ITEM_VALUE_IN_USE)) ;>
  kl (listINSERT_END pxEventList (EventItem cur)) ;>
  prvAddCurrentTaskToDelayedList xTicksToWait true.

Definition vTaskPlaceOnEventListRestricted (pxEventList : lid) (xTicksToWait : Z)
    (xWaitIndefinitely : bool) : K unit :=
  let* cur := current in
  kl (listINSERT_END pxEventList (EventItem cur)) ;>
  let xTicksToWait := if xWaitIndefinitely then portMAX_DELAY else xTicksToWait in
  prvAddCurrentTaskToDelayedList xTicksToWait xWaitIndefinitely.

Definition xTaskRemoveFromEventList (pxEventList : lid) : K bool :=
  let* pxUnblockedTCB := kl (listGET_OWNER_OF_HEAD_ENTRY pxEventList) in
  kl (listREMOVE_ITEM (EventItem pxUnblockedTCB)) ;>
  let* k := getM in
  (if uxSchedulerSuspended k =? 0 then
     kl (listREMOVE_ITEM (StateItem pxUnblockedTCB)) ;>
     prvAddTaskToReadyList pxUnblockedTCB
   else
     kl (listINSERT_END PendingReadyL (EventItem pxUnblockedTCB))) ;>
  let* b := preempts pxUnblockedTCB in
  if b then setYieldPending ;> retM true else retM false.

(** The event list item is given by the task that owns it. *)
Definition vTaskRemoveFromUnorderedEventList (pxEventListItem : item) (xItemValue : Z) : K unit :=
  let* k := getM in
  configASSERT (negb (uxSchedulerSuspended k =? 0)) ;>
  kl (listSET_LIST_ITEM_VALUE pxEventListItem (Z.lor xItemValue taskEVENT_LIST_ITEM_VALUE_IN_USE)) ;>
  let* pxUnblockedTCB := kl (listGET_LIST_ITEM_OWNER pxEventListItem) in
  kl (listREMOVE_ITEM pxEventListItem) ;>
  kl (listREMOVE_ITEM (StateItem pxUnblockedTCB)) ;>
  prvAddTaskToReadyList pxUnblockedTCB ;>
  let* b := preempts pxUnblockedTCB in
  when b then setYieldPending.

(** ** Time-outs *)

Definition vTaskInternalSetTimeOutState : K TimeOut_t :=
  gets (λ k, mkTimeOut (xNumOfOverflows k) (xTickCount k)).
Definition vTaskSetTimeOutState : K TimeOut_t :=
  critical vTaskInternalSetTimeOutState.

(** Answers [xReturn] and the new contents of [*pxTimeOut] and [*pxTicksToWait]. *)
Definition xTaskCheckForTimeOut (pxTimeOut : TimeOut_t) (pxTicksToWait : Z)
    : K (bool * TimeOut_t * Z) :=
  critical (
    let* k := getM in
    let xConstTickCount := xTickCount k in
    let xElapsedTime := wrap32 (xConstTickCount - xTimeOnEntering pxTimeOut) in
    let* cur := current in
    let* aborted := tcb_get cur ucDelayAborted in
    if aborted then
      tcb_set cur (λ x, x <| ucDelayAborted := false |>) ;>
      retM (true, pxTimeOut, pxTicksToWait)
    else if pxTicksToWait =? portMAX_DELAY then
      retM (false, pxTimeOut, pxTicksToWait)
    else if negb (xNumOfOverflows k =? xOverflowCount pxTimeOut)
            && (xTimeOnEntering pxTimeOut <=? xConstTickCount) then
      retM (true, pxTimeOut, 0)
    else if xElapsedTime <? pxTicksToWait then
      let* t := vTaskInternalSetTimeOutState in
      retM (false, t, wrap32 (pxTicksToWait - xElapsedTime))
    else retM (true, pxTimeOut, 0)).

Definition vTaskMissedYield : K unit := setYieldPending.

(** ** Task state *)

Definition eTaskGetState (pxTCB : Z) : K eTaskState :=
  let* k := getM in
  if bool_decide (pxCurrentTCB k = Some pxTCB) then retM eRunning
  else
    let* pxStateList := kl (listLIST_ITEM_CONTAINER (StateItem pxTCB)) in
    let* pxEventList := kl (listLIST_ITEM_CONTAINER (EventItem pxTCB)) in
    if bool_decide (pxEventList = Some PendingReadyL) then retM eReady
    else if bool_decide (pxStateList = Some (pxDelayedTaskList k))
            || bool_decide (pxStateList = Some (pxOverflowDelayedTaskList k)) then retM eBlocked
    else if bool_decide (pxStateList = Some SuspendedL) then
      let* e := kl (listLIST_ITEM_CONTAINER (EventItem pxTCB)) in
      if bool_decide (e = None) then
        let* st := tcb_get pxTCB ucNotifyState in
        retM (if existsb (Z.eqb taskWAITING_NOTIFICATION) st then eBlocked else eSuspended)
      else retM eBlocked
    else if bool_decide (pxStateList = Some TerminationL) || bool_decide (pxStateList = None)
      then retM eDeleted
    else retM eReady.

Definition uxTaskPriorityGet (xTask : option Z) : K Z :=
  let* h := prvGetTCBFromHandle xTask in
  configASSERT (bool_decide (is_Some h)) ;>
  let* pxTCB := derefM h in
  tcb_get pxTCB uxPriority.
Definition uxTaskBasePriorityGet (xTask : option Z) : K Z :=
  let* h := prvGetTCBFromHandle xTask in
  configASSERT (bool_decide (is_Some h)) ;>
  let* pxTCB := derefM h in
  tcb_get pxTCB uxBasePriority.
Definition xTaskGetTickCount : K Z := gets xTickCount.
Definition uxTaskGetNumberOfTasks : K Z := gets uxCurrentNumberOfTasks.
Definition xTaskGetCurrentTaskHandle : K (option Z) := gets pxCurrentTCB.

Inductive scheduler_state :=
| taskSCHEDULER_SUSPENDED | taskSCHEDULER_NOT_STARTED | taskSCHEDULER_RUNNING.
Definition xTaskGetSchedulerState : K scheduler_state :=
  let* k := getM in
  retM (if negb (xSchedulerRunning k) then taskSCHEDULER_NOT_STARTED
        else if uxSchedulerSuspended k =? 0 then taskSCHEDULER_RUNNING
        else taskSCHEDULER_SUSPENDED).

Definition xTaskAbortDelay (pxTCB : Z) : K bool :=
  vTaskSuspendAll ;>
  let* st := eTaskGetState pxTCB in
  let* xReturn :=
    (match st with
     | eBlocked =>
         let* _ := kl (uxListRemove (StateItem pxTCB)) in
         critical (
           let* c := kl (listLIST_ITEM_CONTAINER (EventItem pxTCB)) in
           match c with
           | Some _ =>
               let* _ := kl (uxListRemove (EventItem pxTCB)) in
               tcb_set pxTCB (λ x, x <| ucDelayAborted := true |>)
           | None => retM tt
           end) ;>
         prvAddTaskToReadyList pxTCB ;>
         let* b := preempts pxTCB in
         (when b then setYieldPending) ;>
         retM true
     | _ => retM false
     end) in
  let* _ := xTaskResumeAll in
  retM xReturn.

(** ** Suspension *)

(** The loop that clears the waiting notification states. *)
Definition clear_waiting (st : list Z) : list Z :=
  (λ s, if s =? taskWAITING_NOTIFICATION then taskNOT_WAITING_NOTIFICATION else s) <$> st.

Definition vTaskSuspend (xTaskToSuspend : option Z) : K unit :=
  let* h := prvGetTCBFromHandle xTaskToSuspend in
  configASSERT (bool_decide (is_Some h)) ;>
  let* pxTCB := derefM h in
  critical (
    let* n := kl (uxListRemove (StateItem pxTCB)) in
    (when n =? 0 then
       let* p := tcb_get pxTCB uxPriority in taskRESET_READY_PRIORITY p) ;>
    let* c := kl (listLIST_ITEM_CONTAINER (EventItem pxTCB)) in
    (match c with
     | Some _ => let* _ := kl (uxListRemove (EventItem pxTCB)) in retM tt
     | None => retM tt
     end) ;>
    kl (vListInsertEnd SuspendedL (StateItem pxTCB)) ;>
    tcb_set pxTCB (λ x, x <| ucNotifyState ::= clear_waiting |>)) ;>
  let* k := getM in
  (when xSchedulerRunning k then critical prvResetNextTaskUnblockTime) ;>
  let* k := getM in
  when bool_decide (pxCurrentTCB k = Some pxTCB) then
    if xSchedulerRunning k then
      configASSERT (uxSchedulerSuspended k =? 0) ;>
      portYIELD_WITHIN_API
    else
      let* uxCurrentListLength := kl (listCURRENT_LIST_LENGTH SuspendedL) in
      if uxCurrentListLength =? uxCurrentNumberOfTasks k then
        modify (λ k, k <| pxCurrentTCB := None |>)
      else vTaskSwitchContext.

Definition prvTaskIsTaskSuspended (pxTCB : Z) : K bool :=
  let* sus := kl (listIS_CONTAINED_WITHIN SuspendedL (StateItem pxTCB)) in
  if sus then
    let* pend := kl (listIS_CONTAINED_WITHIN PendingReadyL (EventItem pxTCB)) in
    if pend then retM false
    else
      (* listIS_CONTAINED_WITHIN( NULL, ... ) *)
      let* c := kl (listLIST_ITEM_CONTAINER (EventItem pxTCB)) in
      if bool_decide (c = None) then
        let* st := tcb_get pxTCB ucNotifyState in
        retM (negb (existsb (Z.eqb taskWAITING_NOTIFICATION) st))
      else retM false
  else retM false.

Definition vTaskResume (xTaskToResume : option Z) : K unit :=
  configASSERT (bool_decide (is_Some xTaskToResume)) ;>
  let* k := getM in
  match xTaskToResume with
  | None => retM tt
  | Some pxTCB =>
      when negb (bool_decide (pxCurrentTCB k = Some pxTCB)) then
        critical (
          let* b := prvTaskIsTaskSuspended pxTCB in
          when b then
            let* _ := kl (uxListRemove (StateItem pxTCB)) in
            prvAddTaskToReadyList pxTCB ;>
            taskYIELD_ANY_CORE_IF_USING_PREEMPTION pxTCB)
  end.

Definition xTaskResumeFromISR (xTaskToResume : option Z) : K bool :=
  configASSERT (bool_decide (is_Some xTaskToResume)) ;>
  let* pxTCB := derefM xTaskToResume in
  critical (
    let* b := prvTaskIsTaskSuspended pxTCB in
    if b then
      let* k := getM in
      if uxSchedulerSuspended k =? 0 then
        let* xYieldRequired := preempts pxTCB in
        (when xYieldRequired then setYieldPending) ;>
        let* _ := kl (uxListRemove (StateItem pxTCB)) in
        prvAddTaskToReadyList pxTCB ;>
        retM xYieldRequired
      else
        kl (vListInsertEnd PendingReadyL (EventItem pxTCB)) ;>
        retM false
    else retM false).

(** ** Priorities *)

(** The event item keeps the priority, unless its value is borrowed. *)
Definition setEventItemPriority (pxTCB uxNewPriority : Z) : K unit :=
  let* v := kl (listGET_LIST_ITEM_VALUE (EventItem pxTCB)) in
  when Z.land v taskEVENT_LIST_ITEM_VALUE_IN_USE =? 0 then
    kl (listSET_LIST_ITEM_VALUE (EventItem pxTCB) (wrap32 (configMAX_PRIORITIES - uxNewPriority))).

(** Takes the task out of the ready list of priority [uxPriorityUsedOnEntry] and
    puts it in the one of its new priority. *)
Definition moveReady (pxTCB uxPriorityUsedOnEntry : Z) : K unit :=
  let* n := kl (uxListRemove (StateItem pxTCB)) in
  (when n =? 0 then portRESET_READY_PRIORITY uxPriorityUsedOnEntry) ;>
  prvAddTaskToReadyList pxTCB.

Definition vTaskPrioritySet (xTask : option Z) (uxNewPriority0 : Z) : K unit :=
  configASSERT (uxNewPriority0 <? configMAX_PRIORITIES) ;>
  let uxNewPriority :=
    if configMAX_PRIORITIES <=? uxNewPriority0 then configMAX_PRIORITIES - 1 else uxNewPriority0 in
  critical (
    let* h := prvGetTCBFromHandle xTask in
    configASSERT (bool_decide (is_Some h)) ;>
    let* pxTCB := derefM h in
    let* uxCurrentBasePriority := tcb_get pxTCB uxBasePriority in
    when negb (uxCurrentBasePriority =? uxNewPriority) then
      let* k := getM in
      let running := bool_decide (pxCurrentTCB k = Some pxTCB) in
      let* xYieldRequired :=
        (if uxCurrentBasePriority <? uxNewPriority then
           if running then retM false
           else
             let* cur := current in
             let* pc := tcb_get cur uxPriority in
             retM (pc <? uxNewPriority)
         else retM running) in
      let* uxPriorityUsedOnEntry := tcb_get pxTCB uxPriority in
      (when (uxCurrentBasePriority =? uxPriorityUsedOnEntry)
            || (uxPriorityUsedOnEntry <? uxNewPriority) then
         tcb_set pxTCB (λ x, x <| uxPriority := uxNewPriority |>)) ;>
      tcb_set pxTCB (λ x, x <| uxBasePriority := uxNewPriority |>) ;>
      setEventItemPriority pxTCB uxNewPriority ;>
      let* ready := kl (listIS_CONTAINED_WITHIN (ReadyL uxPriorityUsedOnEntry) (StateItem pxTCB)) in
      (when ready then moveReady pxTCB uxPriorityUsedOnEntry) ;>
      when xYieldRequired then portYIELD_WITHIN_API).

Definition xTaskPriorityInherit (pxMutexHolder : option Z) : K bool :=
  match pxMutexHolder with
  | None => retM false
  | Some pxMutexHolderTCB =>
      let* p := tcb_get pxMutexHolderTCB uxPriority in
      let* cur := current in
      let* pc := tcb_get cur uxPriority in
      if p <? pc then
        setEventItemPriority pxMutexHolderTCB pc ;>
        let* ready := kl (listIS_CONTAINED_WITHIN (ReadyL p) (StateItem pxMutexHolderTCB)) in
        (if ready then
           let* n := kl (uxListRemove (StateItem pxMutexHolderTCB)) in
           (when n =? 0 then portRESET_READY_PRIORITY p) ;>
           tcb_set pxMutexHolderTCB (λ x, x <| uxPriority := pc |>) ;>
           prvAddTaskToReadyList pxMutexHolderTCB
         else tcb_set pxMutexHolderTCB (λ x, x <| uxPriority := pc |>)) ;>
        retM true
      else
        let* b := tcb_get pxMutexHolderTCB uxBasePriority in
        retM (b <? pc)
  end.

Definition xTaskPriorityDisinherit (pxMutexHolder : option Z) : K bool :=
  match pxMutexHolder with
  | None => retM false
  | Some pxTCB =>
      let* k := getM in
      configASSERT (bool_decide (pxCurrentTCB k = Some pxTCB)) ;>
      let* h := tcb_get pxTCB uxMutexesHeld in
      configASSERT (negb (h =? 0)) ;>
      tcb_set pxTCB (λ x, x <| uxMutexesHeld ::= λ n, wrap32 (n - 1) |>) ;>
      let* p := tcb_get pxTCB uxPriority in
      let* b := tcb_get pxTCB uxBasePriority in
      let* h := tcb_get pxTCB uxMutexesHeld in
      if negb (p =? b) && (h =? 0) then
        let* n := kl (uxListRemove (StateItem pxTCB)) in
        (when n =? 0 then portRESET_READY_PRIORITY p) ;>
        tcb_set pxTCB (λ x, x <| uxPriority := b |>) ;>
        kl (listSET_LIST_ITEM_VALUE (EventItem pxTCB) (wrap32 (configMAX_PRIORITIES - b))) ;>
        prvAddTaskToReadyList pxTCB ;>
        retM true
      else retM false
  end.

Definition vTaskPriorityDisinheritAfterTimeout (pxMutexHolder : option Z)
    (uxHighestPriorityWaitingTask : Z) : K unit :=
  match pxMutexHolder with
  | None => retM tt
  | Some pxTCB =>
      let* h := tcb_get pxTCB uxMutexesHeld in
      configASSERT (negb (h =? 0)) ;>
      let* b := tcb_get pxTCB uxBasePriority in
      let uxPriorityToUse :=
        if b <? uxHighestPriorityWaitingTask then uxHighestPriorityWaitingTask else b in
      let* p := tcb_get pxTCB uxPriority in
      when negb (p =? uxPriorityToUse) && (h =? 1) then
        let* k := getM in
        configASSERT (negb (bool_decide (pxCurrentTCB k = Some pxTCB))) ;>
        tcb_set pxTCB (λ x, x <| uxPriority := uxPriorityToUse |>) ;>
        setEventItemPriority pxTCB uxPriorityToUse ;>
        let* ready := kl (listIS_CONTAINED_WITHIN (ReadyL p) (StateItem pxTCB)) in
        when ready then moveReady pxTCB p
  end.

Definition uxTaskResetEventItemValue : K Z :=
  let* cur := current in
  let* uxReturn := kl (listGET_LIST_ITEM_VALUE (EventItem cur)) in
  let* p := tcb_get cur uxPriority in
  kl (listSET_LIST_ITEM_VALUE (EventItem cur) (wrap32 (configMAX_PRIORITIES - p))) ;>
  retM uxReturn.

Definition pvTaskIncrementMutexHeldCount : K (option Z) :=
  let* k := getM in
  (match pxCurrentTCB k with
   | Some cur => tcb_set cur (λ x, x <| uxMutexesHeld ::= λ n, wrap32 (n + 1) |>)
   | None => retM tt
   end) ;>
  retM (pxCurrentTCB k).
