(* ===== verification/TasksView.v ===== *)
(** * The abstract view of the scheduler's lists

    [lview] is what the kernel relies on of its list store: the contents of
    every list as a ring and the value of every item.  [krep] relates a store
    and the set of TCBs to a view; a rule for each list operation says how the
    view changes.  The theorems about the scheduler use these rules only. *)
From S2P Require Import Prelude KList KListSpec KListProps Tasks.

Record lview := mkView {
  rings : gmap lid (ring (I:=item));
  vals : item → Z
}.
#[global] Instance eta_view : Eta lview := λ v, mkView (rings v) (vals v).

(** The task an item belongs to. *)
Definition itask (i : item) : Z := match i with StateItem t | EventItem t => t end.
Definition is_state (i : item) : bool := match i with StateItem _ => true | EventItem _ => false end.

(** [in_list v i l]: item [i] is in list [l]. *)
Definition in_list (v : lview) (i : item) (l : lid) : Prop :=
  ∃ r, rings v !! l = Some r ∧ i ∈ r_items r.
Definition in_none (v : lview) (i : item) : Prop := ∀ l, ¬ in_list v i l.
Definition vitems (v : lview) (l : lid) : list item := from_option r_items [] (rings v !! l).

(** ** The list operations on views *)
Definition ring_del (i : item) (r : ring (I:=item)) : ring (I:=item) :=
  if decide (i ∈ r_items r) then ring_remove i r else r.
Definition vrem (i : item) (v : lview) : lview := v <| rings ::= fmap (ring_del i) |>.
Definition vend (l : lid) (i : item) (v : lview) : lview :=
  v <| rings ::= alter (ring_insert_end i) l |>.
Definition vins (l : lid) (i : item) (v : lview) : lview :=
  v <| rings ::= alter (ring_insert (vals v) i) l |>.
Definition vval (i : item) (z : Z) (v : lview) : lview :=
  v <| vals ::= <[i := z]> |>.
Definition vidx (l : lid) (j : item) (v : lview) : lview :=
  v <| rings ::= alter (λ r, r <| r_index := Some j |>) l |>.

(** ** Representation *)
Record krep (s : store) (T : gmap Z TCB_t) (v : lview) : Prop := {
  kr_rep : rep s (rings v);
  kr_items : ∀ i, present s (PItem i) = true ↔ is_Some (T !! itask i);
  kr_owner : ∀ i, is_Some (T !! itask i) → ownerOf s i = Some (itask i);
  kr_vals : ∀ i, is_Some (T !! itask i) → val_of s i = vals v i
}.

Lemma in_list_vitems v i l : in_list v i l ↔ i ∈ vitems v l.
Proof.
  unfold in_list, vitems. destruct (rings v !! l) as [r|]; simpl.
  - split; [by intros (r' & [= <-] & ?)|eauto].
  - split; [by intros (r' & ? & _)|by intros ?%not_elem_of_nil].
Qed.

#[global] Instance in_list_dec v i l : Decision (in_list v i l).
Proof. destruct (decide (i ∈ vitems v l)); [left|right]; by rewrite in_list_vitems. Defined.

Section krep.
Context {s : store} {T : gmap Z TCB_t} {v : lview} (Hk : krep s T v).

Lemma krep_cont i l : contOf s i = Some l ↔ in_list v i l.
Proof. apply (rep_cont s (rings v)), Hk. Qed.
Lemma krep_none i : contOf s i = None ↔ in_none v i.
Proof.
  unfold in_none. setoid_rewrite <- krep_cont.
  destruct (contOf s i) as [l|]; split; naive_solver.
Qed.
Lemma in_list_unique i l l' : in_list v i l → in_list v i l' → l = l'.
Proof. intros H1%krep_cont H2%krep_cont. congruence. Qed.
Lemma in_list_tcb i l : in_list v i l → is_Some (T !! itask i).
Proof. intros H%krep_cont. apply (kr_items _ _ _ Hk). by eapply contOf_present. Qed.
Lemma in_list_list i l : in_list v i l → is_Some (rings v !! l).
Proof. intros (r & ? & _). eauto. Qed.
Lemma krep_nodup l r : rings v !! l = Some r → NoDup (r_items r).
Proof. intros Hr. apply (rl_nodup _ _ _ (rep_lists _ _ (kr_rep _ _ _ Hk) l r Hr)). Qed.
Lemma krep_u32 i : is_Some (T !! itask i) → u32 (vals v i).
Proof.
  intros HT. rewrite <- (kr_vals _ _ _ Hk) by done.
  apply (rep_value s (rings v) i); [apply Hk|].
  apply present_value. by apply (kr_items _ _ _ Hk).
Qed.

Lemma vrem_insert i l r :
  rings v !! l = Some r → i ∈ r_items r → rings (vrem i v) = <[l := ring_remove i r]> (rings v).
Proof.
  intros Hr Hi. apply map_eq. intros l'. simpl. rewrite lookup_fmap.
  destruct (decide (l = l')) as [<-|Hne].
  - rewrite Hr, lookup_insert_eq. simpl. unfold ring_del. by rewrite decide_True.
  - rewrite lookup_insert_ne by done. destruct (rings v !! l') as [r'|] eqn:Hr'; [|done].
    simpl. unfold ring_del. rewrite decide_False; [done|]. intros Hi'.
    apply Hne. apply (in_list_unique i); [exists r|exists r']; done.
Qed.

Lemma in_list_vrem i j l : in_list (vrem i v) j l ↔ in_list v j l ∧ j ≠ i.
Proof.
  unfold in_list. simpl. setoid_rewrite lookup_fmap. split.
  - intros (r' & Hr' & Hj). destruct (rings v !! l) as [r|] eqn:Hr; [|done]. simplify_eq/=.
    pose proof (krep_nodup l r Hr) as Hnd. unfold ring_del in Hj. case_decide as Hi.
    + simpl in Hj. apply elem_of_remove in Hj as [??]; naive_solver.
    + naive_solver.
  - intros ((r & Hr & Hj) & Hne). rewrite Hr. simpl. eexists. split; [done|].
    unfold ring_del. case_decide as Hi; [|done]. simpl.
    apply elem_of_remove; [done|by eapply krep_nodup|done].
Qed.
Lemma vrem_none i : in_none (vrem i v) i.
Proof. intros l [_ ?]%in_list_vrem. done. Qed.
Lemma vrem_list i l : is_Some (rings (vrem i v) !! l) ↔ is_Some (rings v !! l).
Proof. simpl. by rewrite lookup_fmap, fmap_is_Some. Qed.
Lemma vitems_vrem i l : vitems (vrem i v) l = filter (.≠ i) (vitems v l).
Proof.
  unfold vitems. simpl. rewrite lookup_fmap. destruct (rings v !! l) as [r|] eqn:Hr; [|done].
  simpl. unfold ring_del. case_decide as Hi; simpl.
  - pose proof (krep_nodup l r Hr) as Hnd.
    rewrite (before_after i (r_items r)) in Hnd |- * by done.
    apply NoDup_app in Hnd as (Hb & Hd & [Ha ?]%NoDup_cons).
    pose proof (before_not_in i (r_items r)).
    rewrite before_mid, after_mid by done. rewrite filter_app, filter_cons_False by auto.
    f_equal; symmetry; apply filter_all; by intros ? ? ->.
  - symmetry. apply filter_all. by intros ? ? ->.
Qed.

Lemma in_list_vend i j l l' :
  is_Some (rings v !! l) → in_list (vend l i v) j l' ↔ (j = i ∧ l' = l) ∨ in_list v j l'.
Proof.
  intros [r Hr]. unfold in_list. simpl.
  destruct (decide (l = l')) as [<-|Hne].
  - rewrite lookup_alter_eq, Hr. simpl.
    pose proof (insert_end_perm i r (proj2 (rep_ring_wf s _ l r (kr_rep _ _ _ Hk) Hr))) as Hp.
    split.
    + intros (r' & [= <-] & Hj). rewrite Hp in Hj. set_solver.
    + intros Hj. eexists. split; [done|]. rewrite Hp. set_solver.
  - rewrite lookup_alter_ne by done. naive_solver.
Qed.
Lemma in_list_vins i j l l' :
  is_Some (rings v !! l) → in_list (vins l i v) j l' ↔ (j = i ∧ l' = l) ∨ in_list v j l'.
Proof.
  intros [r Hr]. unfold in_list. simpl.
  destruct (decide (l = l')) as [<-|Hne].
  - rewrite lookup_alter_eq, Hr. simpl.
    pose proof (ins_sorted_perm (vals v) (vals v i) i (r_items r)) as Hp. split.
    + intros (r' & [= <-] & Hj). simpl in Hj. rewrite Hp in Hj. set_solver.
    + intros Hj. eexists. split; [done|]. simpl. rewrite Hp. set_solver.
  - rewrite lookup_alter_ne by done. naive_solver.
Qed.
Lemma in_list_vval i z j l : in_list (vval i z v) j l ↔ in_list v j l.
Proof. done. Qed.
Lemma in_list_vidx l0 j0 j l : in_list (vidx l0 j0 v) j l ↔ in_list v j l.
Proof.
  unfold in_list. simpl. destruct (decide (l0 = l)) as [<-|Hne].
  - rewrite lookup_alter_eq. destruct (rings v !! l0) as [r|]; simpl; naive_solver.
  - by rewrite lookup_alter_ne.
Qed.
Lemma vend_list i l l' : is_Some (rings (vend l i v) !! l') ↔ is_Some (rings v !! l').
Proof. simpl. by rewrite lookup_alter_is_Some. Qed.
End krep.

(** ** Rules for the list operations *)
#[local] Opaque present valueOf ownerOf contOf val_of.

Lemma ins_sorted_ext (val val' : item → Z) z i (xs : list item) :
  (∀ j, j ∈ xs → val j = val' j) → ins_sorted val z i xs = ins_sorted val' z i xs.
Proof.
  induction xs as [|x xs IH]; simpl; intros Hv; [done|].
  rewrite Hv by (by left). destruct (val' x <=? z); [|done].
  f_equal. apply IH. intros j ?. apply Hv. by right.
Qed.

Lemma ring_insert_ext (val val' : item → Z) i r :
  val i = val' i → (∀ j, j ∈ r_items r → val j = val' j) → ring_insert val i r = ring_insert val' i r.
Proof.
  intros Hi Hr. destruct r as [xs o]. unfold ring_insert, set_field. simpl in *.
  by rewrite Hi, (ins_sorted_ext val val' _ _ xs).
Qed.

Lemma present_iff (s : store) i : present s (PItem i) = true ↔ is_Some (valueOf s (PItem i)).
Proof.
  split; [intros Hp; rewrite present_value by done; eauto|].
  with_strategy transparent [valueOf present] (unfold valueOf, present).
  intros [z Hz]. apply bool_decide_eq_true.
  destruct (ls_items s !! i); [eauto|done].
Qed.

Lemma val_of_same (s s' : store) i :
  valueOf s' (PItem i) = valueOf s (PItem i) → val_of s' i = val_of s i.
Proof. with_strategy transparent [val_of] (unfold val_of). by intros ->. Qed.
Lemma val_of_eq (s : store) i z : valueOf s (PItem i) = Some z → val_of s i = z.
Proof. with_strategy transparent [val_of] (unfold val_of). by intros ->. Qed.

Lemma krep_same s s' T v m :
  krep s T v → rep s' m → same_items s s' → krep s' T (v <| rings := m |>).
Proof.
  intros Hk Hrep Hsame. split; [done|..]; intros i.
  - rewrite present_iff, (si_value _ _ Hsame), <- present_iff. apply Hk.
  - rewrite (si_owner _ _ Hsame). apply Hk.
  - intros HT. rewrite (val_of_same s) by apply Hsame. by apply Hk.
Qed.

Section rules.
Context (s : store) (T : gmap Z TCB_t) (v : lview) (Hk : krep s T v).
Implicit Types (i j : item) (l : lid).

Lemma krep_view (f : gmap lid ring → gmap lid ring) s' m :
  rep s' m → same_items s s' → m = f (rings v) → krep s' T (v <| rings ::= f |>).
Proof. intros Hrep Hsame ->. by apply (krep_same s). Qed.

Lemma krep_alter l r r' s' (g : ring → ring) :
  rep s' (<[l := r']> (rings v)) → same_items s s' → rings v !! l = Some r → r' = g r →
  krep s' T (v <| rings ::= alter g l |>).
Proof.
  intros Hrep Hsame Hr ->. eapply krep_view; [done..|].
  apply map_eq. intros l'. destruct (decide (l = l')) as [<-|Hne].
  - by rewrite lookup_insert_eq, lookup_alter_eq, Hr.
  - by rewrite lookup_insert_ne, lookup_alter_ne.
Qed.

Lemma ws_remove i l Q :
  in_list v i l → (∀ s', krep s' T (vrem i v) → Q tt s') → wp (listREMOVE_ITEM i) Q s.
Proof.
  intros (r & Hr & Hi) HQ. eapply wp_mono.
  { eapply (wp_listREMOVE_ITEM s (rings v) l r i); [apply Hk|done..]. }
  intros [] s' [Hrep Hsame]. apply HQ. apply (krep_same s _ _ _ (rings (vrem i v)) Hk); [|done].
  by erewrite vrem_insert.
Qed.

Lemma ws_uxListRemove i l Q :
  in_list v i l →
  (∀ s' n, krep s' T (vrem i v) → n = Z.of_nat (length (vitems (vrem i v) l)) → Q n s') →
  wp (uxListRemove i) Q s.
Proof.
  intros (r & Hr & Hi) HQ. eapply wp_mono.
  { eapply (wp_uxListRemove s (rings v) l r i); [apply Hk|done..]. }
  intros n s' (-> & Hrep & Hsame). apply HQ.
  - apply (krep_same s _ _ _ (rings (vrem i v)) Hk); [|done]. by erewrite vrem_insert.
  - unfold vitems. erewrite vrem_insert by done. by rewrite lookup_insert_eq.
Qed.

Lemma ws_insert_end_pre i :
  in_none v i → is_Some (T !! itask i) → contOf s i = None ∧ present s (PItem i) = true.
Proof. intros Hn HT. split; [by apply (krep_none Hk)|by apply (kr_items _ _ _ Hk)]. Qed.

Lemma ws_listINSERT_END l i Q :
  in_none v i → is_Some (T !! itask i) → is_Some (rings v !! l) →
  (∀ s', krep s' T (vend l i v) → Q tt s') → wp (listINSERT_END l i) Q s.
Proof.
  intros Hn HT [r Hr] HQ. destruct (ws_insert_end_pre i Hn HT) as [Hc Hp].
  eapply wp_mono; [eapply (wp_listINSERT_END s (rings v) l r i); [apply Hk|done..]|].
  intros [] s' [Hrep Hsame]. apply HQ. by eapply krep_alter.
Qed.
Lemma ws_vListInsertEnd l i Q :
  in_none v i → is_Some (T !! itask i) → is_Some (rings v !! l) →
  (∀ s', krep s' T (vend l i v) → Q tt s') → wp (vListInsertEnd l i) Q s.
Proof.
  intros Hn HT [r Hr] HQ. destruct (ws_insert_end_pre i Hn HT) as [Hc Hp].
  eapply wp_mono; [eapply (wp_vListInsertEnd s (rings v) l r i); [apply Hk|done..]|].
  intros [] s' [Hrep Hsame]. apply HQ. by eapply krep_alter.
Qed.

Lemma ws_vListInsert l i Q :
  in_none v i → is_Some (T !! itask i) → is_Some (rings v !! l) →
  (∀ s', krep s' T (vins l i v) → Q tt s') → wp (vListInsert l i) Q s.
Proof.
  intros Hn HT [r Hr] HQ. destruct (ws_insert_end_pre i Hn HT) as [Hc Hp].
  eapply wp_mono; [eapply (wp_vListInsert s (rings v) l r i); [apply Hk|done..]|].
  intros [] s' [Hrep Hsame]. apply HQ. eapply krep_alter; [done..|].
  apply ring_insert_ext; [by apply Hk|]. intros j Hj. apply (kr_vals _ _ _ Hk).
  apply (in_list_tcb Hk j l). by exists r.
Qed.

Lemma ws_setval i z Q :
  is_Some (T !! itask i) → u32 z →
  (∀ s', krep s' T (vval i z v) → Q tt s') → wp (listSET_LIST_ITEM_VALUE i z) Q s.
Proof.
  intros HT Hz HQ. apply (wp_listSET_LIST_ITEM_VALUE s (rings v)); [apply Hk|by apply Hk|done|].
  intros s' Hrep Hval Hown. apply HQ. split; [done|..]; intros j.
  - rewrite present_iff, Hval. case_decide as Hij; [subst|by rewrite <- present_iff; apply Hk].
    split; [done|eauto].
  - rewrite Hown. apply Hk.
  - intros HTj. specialize (Hval j). simpl. case_decide as Hij; [subst|].
    + rewrite fn_lookup_insert. by apply val_of_eq.
    + rewrite fn_lookup_insert_ne by done. rewrite (val_of_same s) by done. by apply Hk.
Qed.

Lemma ws_len l Q :
  is_Some (rings v !! l) → Q (Z.of_nat (length (vitems v l))) s →
  wp (listCURRENT_LIST_LENGTH l) Q s.
Proof.
  intros [r Hr] HQ. eapply wp_listCURRENT_LIST_LENGTH; [apply Hk|done|].
  unfold vitems in HQ. by rewrite Hr in HQ.
Qed.
Lemma ws_is_empty l Q :
  is_Some (rings v !! l) → Q (bool_decide (vitems v l = [])) s → wp (listLIST_IS_EMPTY l) Q s.
Proof.
  intros [r Hr] HQ. eapply wp_listLIST_IS_EMPTY; [apply Hk|done|].
  unfold vitems in HQ. by rewrite Hr in HQ.
Qed.
Lemma vitems_cons l i xs :
  vitems v l = i :: xs → ∃ r, rings v !! l = Some r ∧ r_items r = i :: xs ∧ is_Some (T !! itask i).
Proof.
  unfold vitems. destruct (rings v !! l) as [r|] eqn:Hr; simpl; [|done]. intros Hi.
  exists r. split_and!; [done..|]. apply (in_list_tcb Hk i l). exists r. rewrite Hi. split; [done|by left].
Qed.
Lemma ws_head_owner l i xs Q :
  vitems v l = i :: xs → Q (itask i) s → wp (listGET_OWNER_OF_HEAD_ENTRY l) Q s.
Proof.
  intros (r & Hr & Hi & HT)%vitems_cons HQ.
  eapply wp_listGET_OWNER_OF_HEAD_ENTRY; [apply Hk|done|done|by apply Hk|done].
Qed.
Lemma ws_head_value l i xs Q :
  vitems v l = i :: xs → Q (vals v i) s → wp (listGET_ITEM_VALUE_OF_HEAD_ENTRY l) Q s.
Proof.
  intros (r & Hr & Hi & HT)%vitems_cons HQ.
  eapply wp_listGET_ITEM_VALUE_OF_HEAD_ENTRY; [apply Hk|done|done|].
  by rewrite (kr_vals _ _ _ Hk).
Qed.
Lemma ws_value i Q :
  is_Some (T !! itask i) → Q (vals v i) s → wp (listGET_LIST_ITEM_VALUE i) Q s.
Proof.
  intros HT HQ. apply wp_listGET_LIST_ITEM_VALUE; [by apply Hk|]. by rewrite (kr_vals _ _ _ Hk).
Qed.
Lemma ws_owner i Q :
  is_Some (T !! itask i) → Q (itask i) s → wp (listGET_LIST_ITEM_OWNER i) Q s.
Proof. intros HT HQ. eapply wp_listGET_LIST_ITEM_OWNER; [by apply Hk|done]. Qed.
Lemma ws_container i Q :
  is_Some (T !! itask i) →
  (∀ c, (∀ l, c = Some l ↔ in_list v i l) → Q c s) → wp (listLIST_ITEM_CONTAINER i) Q s.
Proof.
  intros HT HQ. apply wp_listLIST_ITEM_CONTAINER; [by apply Hk|]. apply HQ.
  intros l. apply (krep_cont Hk).
Qed.
Lemma ws_contained l i Q :
  is_Some (T !! itask i) →
  (∀ b : bool, (b = true ↔ in_list v i l) → Q b s) → wp (listIS_CONTAINED_WITHIN l i) Q s.
Proof.
  intros HT HQ. apply wp_listIS_CONTAINED_WITHIN; [by apply Hk|]. apply HQ.
  rewrite bool_decide_eq_true. apply (krep_cont Hk).
Qed.
Lemma ws_next_owner l r j Q :
  rings v !! l = Some r → ring_next r = Some j →
  (∀ s', krep s' T (vidx l j v) → Q (itask j) s') → wp (listGET_OWNER_OF_NEXT_ENTRY l) Q s.
Proof.
  intros Hr Hj HQ. eapply wp_mono.
  { eapply (wp_listGET_OWNER_OF_NEXT_ENTRY s (rings v) l r j (itask j)); [apply Hk|done..|].
    apply (kr_owner _ _ _ Hk). apply (in_list_tcb Hk j l). exists r. split; [done|].
    by eapply ring_next_in. }
  intros t s' (-> & Hrep & Hsame). apply HQ. by eapply krep_alter.
Qed.
End rules.

Lemma wp_kl {A} (m : M store A) Q k :
  wp m (λ a s, Q a (k <| k_lists := s |>)) (k_lists k) → wp (kl m) Q k.
Proof. intros HQ. unfold kl. by apply (wp_zoom k_lists). Qed.

(** Changing the contents of a TCB. *)
Lemma krep_tcb s T v t x y : krep s T v → T !! t = Some y → krep s (<[t := x]> T) v.
Proof.
  intros Hk Hy.
  assert (∀ i, is_Some (<[t:=x]> T !! itask i) ↔ is_Some (T !! itask i)) as Heq.
  { intros i. destruct (decide (t = itask i)) as [->|?].
    - rewrite lookup_insert_eq, Hy. split; eauto.
    - by rewrite lookup_insert_ne. }
  split; [apply Hk|..]; intros i; rewrite Heq; apply Hk.
Qed.
