(* ===== verification/TasksInv.v ===== *)
(** * The invariant of the scheduler

    [kinv k v]: the state [k], whose lists have the abstract contents [v], is
    one that the kernel's operations may be called in.  The parts of the
    invariant depend on few variables each, so that an operation re-establishes
    only those it touches. *)
From S2P Require Import Prelude KList KListSpec KListProps Tasks TasksView.

#[global] Arguments wp : simpl never.

(** ** Parts of the invariant *)

(** The lists a state list item can be in. *)
Definition state_list (l : lid) : bool :=
  match l with
  | ReadyL _ | DelayedL1 | DelayedL2 | TerminationL | SuspendedL => true
  | PendingReadyL | WaitSendL _ | WaitRecvL _ | EventGroupL _ => false
  end.

(** Every list of tasks.c exists, and holds items of its kind. *)
Record i_lists (v : lview) : Prop := {
  il_ready : ∀ p, is_Some (rings v !! ReadyL p) ↔ 0 ≤ p < configMAX_PRIORITIES;
  il_fixed : ∀ l, l ∈ [DelayedL1; DelayedL2; PendingReadyL; TerminationL; SuspendedL] →
    is_Some (rings v !! l);
  il_kind : ∀ i l, in_list v i l → is_state i = state_list l
}.

(** A task is in the ready list of its priority, if in any, and the bitmap has
    the bits of the lists that are not empty.  Inside an operation the bit of
    one priority [e] may be out of date. *)
Record i_ready_but (e : Z) (T : gmap Z TCB_t) (top : Z) (v : lview) : Prop := {
  ir_prio : ∀ t p x, in_list v (StateItem t) (ReadyL p) → T !! t = Some x → uxPriority x = p;
  ir_nonneg : 0 ≤ top;
  ir_bits : ∀ p, 0 ≤ p → p ≠ e → Z.testbit top p = true ↔ vitems v (ReadyL p) ≠ []
}.
Definition i_ready : gmap Z TCB_t → Z → lview → Prop := i_ready_but (-1).

(** Priorities are in range, and never below the base priority. *)
Definition i_prio (T : gmap Z TCB_t) : Prop :=
  map_Forall (λ _ x, 0 ≤ uxBasePriority x ≤ uxPriority x ∧ uxPriority x < configMAX_PRIORITIES) T.

(** Every task is in a state list. *)
Definition i_state (T : gmap Z TCB_t) (v : lview) : Prop :=
  ∀ t, is_Some (T !! t) → ∃ l, in_list v (StateItem t) l.

(** The two delayed lists are sorted; the tasks of the current one wake up
    after [lo] (the present tick, except while a tick is being processed) and
    not before [xNextTaskUnblockTime], those of the other one after the tick
    counter has wrapped. *)
Record i_delay (D O : lid) (lo tick next : Z) (v : lview) : Prop := {
  id_which : (D = DelayedL1 ∧ O = DelayedL2) ∨ (D = DelayedL2 ∧ O = DelayedL1);
  id_tick : u32 tick;
  id_next : u32 next;
  id_sorted : sorted_by (vals v) (vitems v D);
  id_sorted_o : sorted_by (vals v) (vitems v O);
  id_future : ∀ i, in_list v i D → lo < vals v i ∧ next ≤ vals v i;
  id_wrapped : ∀ i, in_list v i O → vals v i < tick
}.

(** While the scheduler runs no task is pending. *)
Record i_susp (susp pended : Z) (v : lview) : Prop := {
  is_u32 : u32 susp;
  is_pended : u32 pended;
  is_zero : susp = 0 → vitems v PendingReadyL = []
}.

Record kinv_from (lo : Z) (k : kernel) (v : lview) : Prop := {
  ki_rep : krep (k_lists k) (k_tcbs k) v;
  ki_lists : i_lists v;
  ki_ready : i_ready (k_tcbs k) (uxTopReadyPriority k) v;
  ki_prio : i_prio (k_tcbs k);
  ki_state : i_state (k_tcbs k) v;
  ki_delay : i_delay (pxDelayedTaskList k) (pxOverflowDelayedTaskList k)
    lo (xTickCount k) (xNextTaskUnblockTime k) v;
  ki_susp : i_susp (uxSchedulerSuspended k) (xPendedTicks k) v;
  ki_current : is_Some (pxCurrentTCB k ≫= λ c, k_tcbs k !! c);
  ki_count : 0 < uxCurrentNumberOfTasks k
}.
Definition kinv (k : kernel) (v : lview) : Prop := kinv_from (xTickCount k) k v.

(** ** Moving items *)

Section moves.
Context {s : store} {T : gmap Z TCB_t} {v : lview} (Hk : krep s T v).

(** What a view operation does to the lists that are not concerned. *)
Lemma vitems_vend_ne i l l' : l ≠ l' → vitems (vend l i v) l' = vitems v l'.
Proof. intros. unfold vitems. simpl. by rewrite lookup_alter_ne. Qed.
Lemma vitems_vins_ne i l l' : l ≠ l' → vitems (vins l i v) l' = vitems v l'.
Proof. intros. unfold vitems. simpl. by rewrite lookup_alter_ne. Qed.
Lemma vitems_vidx l j l' : vitems (vidx l j v) l' = vitems v l'.
Proof.
  unfold vitems. simpl. destruct (decide (l = l')) as [->|?]; [|by rewrite lookup_alter_ne].
  rewrite lookup_alter_eq. by destruct (rings v !! l').
Qed.
Lemma vitems_vrem_ne i l : ¬ in_list v i l → vitems (vrem i v) l = vitems v l.
Proof.
  intros Hn. rewrite (vitems_vrem Hk). apply filter_all. intros j Hj ->.
  apply Hn. by apply in_list_vitems.
Qed.
Lemma vitems_vins i l : is_Some (rings v !! l) →
  vitems (vins l i v) l = ins_sorted (vals v) (vals v i) i (vitems v l).
Proof. intros [r Hr]. unfold vitems. simpl. by rewrite lookup_alter_eq, Hr. Qed.
Lemma vitems_vend_nonempty i l : is_Some (rings v !! l) → vitems (vend l i v) l ≠ [].
Proof.
  intros Hl He. assert (in_list (vend l i v) i l) as Hin%in_list_vitems.
  { apply (in_list_vend Hk); [done|by left]. }
  rewrite He in Hin. by apply not_elem_of_nil in Hin.
Qed.

(** *** Existence and kinds of the lists *)
Lemma i_lists_ext (v' : lview) :
  i_lists v → (∀ l, is_Some (rings v' !! l) ↔ is_Some (rings v !! l)) →
  (∀ i l, in_list v' i l → in_list v i l ∨ is_state i = state_list l) → i_lists v'.
Proof.
  intros [Hr Hf Hkd] Hex Hin. split.
  - intros p. rewrite Hex. apply Hr.
  - intros l Hl. apply Hex, Hf, Hl.
  - intros i l [?|?]%Hin; auto.
Qed.
Lemma i_lists_vrem i : i_lists v → i_lists (vrem i v).
Proof.
  intros Hl. apply i_lists_ext; [done|apply vrem_list|].
  intros j l [? _]%(in_list_vrem Hk). by left.
Qed.
End moves.

Section more_moves.
Context {s : store} {T : gmap Z TCB_t} {v : lview} (Hk : krep s T v).

Lemma i_lists_vend i l :
  is_Some (rings v !! l) → is_state i = state_list l → i_lists v → i_lists (vend l i v).
Proof.
  intros Hl Hkd Hil. apply (i_lists_ext (v:=v)); [done|apply vend_list|].
  intros j l' [[-> ->]|?]%(in_list_vend Hk); auto.
Qed.
Lemma i_lists_vins i l :
  is_Some (rings v !! l) → is_state i = state_list l → i_lists v → i_lists (vins l i v).
Proof.
  intros Hl Hkd Hil. apply (i_lists_ext (v:=v)); [done| |].
  - intros l'. simpl. by rewrite lookup_alter_is_Some.
  - intros j l' [[-> ->]|?]%(in_list_vins Hk); auto.
Qed.
Lemma i_lists_vval i z : i_lists v → i_lists (vval i z v).
Proof. intros Hil. apply (i_lists_ext (v:=v)); [done|done|auto]. Qed.
Lemma i_lists_vidx l j : i_lists v → i_lists (vidx l j v).
Proof.
  intros Hil. apply (i_lists_ext (v:=v)); [done| |].
  - intros l'. simpl. by rewrite lookup_alter_is_Some.
  - intros i l' ?%in_list_vidx. auto.
Qed.
End more_moves.

Lemma list_ready v p : i_lists v → 0 ≤ p < configMAX_PRIORITIES → is_Some (rings v !! ReadyL p).
Proof. intros Hl Hp. by apply Hl. Qed.
Lemma list_fixed v l :
  i_lists v → l ∈ [DelayedL1; DelayedL2; PendingReadyL; TerminationL; SuspendedL] →
  is_Some (rings v !! l).
Proof. intros Hl. apply Hl. Qed.
Lemma list_delayed D O lo tick next v :
  i_lists v → i_delay D O lo tick next v → is_Some (rings v !! D) ∧ is_Some (rings v !! O).
Proof.
  intros Hl Hd. destruct (id_which _ _ _ _ _ _ Hd) as [[-> ->]|[-> ->]];
    split; apply Hl; set_solver.
Qed.

(** ** The ready lists *)

Lemma testbit_record top p q :
  0 ≤ p → 0 ≤ q → Z.testbit (Z.lor top (prio_bit p)) q = Z.testbit top q || bool_decide (p = q).
Proof.
  intros. unfold prio_bit. rewrite Z.lor_spec, Z.shiftl_1_l, Z.pow2_bits_eqb by done.
  f_equal. by rewrite Z.eqb_sym, bool_decide_decide; destruct (decide _), (Z.eqb_spec q p); lia.
Qed.
Lemma testbit_reset top p q :
  0 ≤ p → 0 ≤ q →
  Z.testbit (Z.land top (Z.lnot (prio_bit p))) q = Z.testbit top q && bool_decide (p ≠ q).
Proof.
  intros. unfold prio_bit. rewrite Z.land_spec, Z.lnot_spec, Z.shiftl_1_l, Z.pow2_bits_eqb by done.
  f_equal. case_bool_decide; destruct (Z.eqb_spec p q); simpl; congruence.
Qed.

Section ready.
Context {s : store} {T : gmap Z TCB_t} {v : lview} (Hk : krep s T v).

Lemma i_ready_weaken e top : i_ready T top v → i_ready_but e T top v.
Proof. intros [???]. split; [done..|]. intros p ? _. apply ir_bits0; lia. Qed.

(** Leaving a list: only the bit of the task's own priority can change. *)
Lemma i_ready_leave t x top :
  i_ready T top v → T !! t = Some x → i_ready_but (uxPriority x) T top (vrem (StateItem t) v).
Proof.
  intros [Hp Hn Hb] Hx. split; [|done|].
  - intros t' p y [Hin _]%(in_list_vrem Hk). by apply Hp.
  - intros p ? Hne. rewrite (vitems_vrem_ne Hk); [apply Hb; lia|].
    intros Hin. apply Hne. symmetry. by apply (Hp t p x).
Qed.
Lemma i_ready_leave_event t top : i_lists v → i_ready T top v → i_ready T top (vrem (EventItem t) v).
Proof.
  intros Hl [Hp Hn Hb]. split; [|done|].
  - intros t' p y [Hin _]%(in_list_vrem Hk). by apply Hp.
  - intros p ? Hne. rewrite (vitems_vrem_ne Hk); [apply Hb; lia|].
    intros Hin%(il_kind _ Hl). done.
Qed.

(** Entering the ready list of its priority, with the bit set. *)
Lemma i_ready_enter t x top :
  i_ready_but (uxPriority x) T top v → T !! t = Some x → i_lists v → i_prio T →
  i_ready T (Z.lor top (prio_bit (uxPriority x))) (vend (ReadyL (uxPriority x)) (StateItem t) v).
Proof.
  intros [Hp Hn Hb] Hx Hl Hpr.
  assert (0 ≤ uxPriority x < configMAX_PRIORITIES) as Hpx by (apply Hpr in Hx; lia).
  pose proof (list_ready v _ Hl Hpx) as Hr. split.
  - intros t' p y [[[= ->] [= ->]]|Hin]%(in_list_vend Hk) Hy; [by simplify_eq| |done]. by eapply Hp.
  - apply Z.lor_nonneg. unfold prio_bit. split; [done|]. apply Z.shiftl_nonneg. lia.
  - intros p Hp0 _. rewrite testbit_record by lia.
    case_bool_decide as Heq; [subst|].
    + rewrite orb_true_r. split; [|done]. intros _. by apply (vitems_vend_nonempty Hk).
    + rewrite orb_false_r, vitems_vend_ne by congruence. apply Hb; [done|congruence].
Qed.

(** Leaving a list, and clearing the bit of its priority when the ready list
    has become empty. *)
Lemma i_ready_block t x top (b : bool) :
  let v' := vrem (StateItem t) v in
  i_ready T top v → T !! t = Some x → 0 ≤ uxPriority x →
  (b = true → vitems v' (ReadyL (uxPriority x)) = []) →
  (b = false → vitems v' (ReadyL (uxPriority x)) ≠ [] ∨
               ¬ in_list v (StateItem t) (ReadyL (uxPriority x))) →
  i_ready T (if b then Z.land top (Z.lnot (prio_bit (uxPriority x))) else top) v'.
Proof.
  intros v' Hir Hx Hp0 Ht Hf. pose proof (i_ready_leave t x top Hir Hx) as [Hp Hn Hb].
  split; [done| |].
  - destruct b; [|done]. apply Z.land_nonneg. by left.
  - intros q Hq _. destruct b.
    + rewrite testbit_reset by done. case_bool_decide as Hpq.
      * rewrite andb_true_r. by apply Hb.
      * rewrite andb_false_r. split; [done|]. intros Hne.
        assert (uxPriority x = q) as <- by (destruct (decide (uxPriority x = q)); done).
        by destruct Hne; apply Ht.
    + destruct (decide (q = uxPriority x)) as [->|Hpq]; [|by apply Hb].
      assert (Z.testbit top (uxPriority x) = true ↔ vitems v (ReadyL (uxPriority x)) ≠ []) as ->.
      { apply Hir; lia. }
      destruct (Hf eq_refl) as [Hne|Hni].
      * split; [done|]. intros _ He. apply Hne. unfold v'. by rewrite (vitems_vrem Hk), He.
      * unfold v'. by rewrite (vitems_vrem_ne Hk).
Qed.

(** A move inside lists that are not ready lists. *)
Lemma i_ready_other e top (v' : lview) :
  i_ready_but e T top v → (∀ p, vitems v' (ReadyL p) = vitems v (ReadyL p)) →
  i_ready_but e T top v'.
Proof.
  intros [Hp Hn Hb] Heq. split; [|done|].
  - intros t p x. rewrite in_list_vitems, Heq, <- in_list_vitems. apply Hp.
  - intros p. rewrite Heq. apply Hb.
Qed.
End ready.

(** A change of TCBs that keeps the priorities of the tasks in ready lists. *)
Lemma i_ready_tcbs e T T' top v :
  i_ready_but e T top v →
  (∀ t p x, in_list v (StateItem t) (ReadyL p) → T' !! t = Some x → ∃ y, T !! t = Some y ∧ uxPriority y = uxPriority x) →
  i_ready_but e T' top v.
Proof.
  intros [Hp Hn Hb] HT. split; [|done|done].
  intros t p x Hin Hx. destruct (HT t p x Hin Hx) as (y & Hy & <-). by eapply Hp.
Qed.

(** ** Tasks are in some list *)
Section state.
Context {s : store} {T : gmap Z TCB_t} {v : lview} (Hk : krep s T v).

Lemma i_state_put (v' : lview) t l :
  i_state T v → in_list v' (StateItem t) l →
  (∀ t' l', t' ≠ t → in_list v (StateItem t') l' → in_list v' (StateItem t') l') → i_state T v'.
Proof.
  intros Hs Ht Ho t' HT. destruct (decide (t' = t)) as [->|Hne]; [by exists l|].
  destruct (Hs t' HT) as [l' Hl']. exists l'. by apply Ho.
Qed.
Lemma i_state_vrem_event t : i_state T v → i_state T (vrem (EventItem t) v).
Proof. intros Hs t' HT. destruct (Hs t' HT) as [l Hl]. exists l. by apply (in_list_vrem Hk). Qed.
Lemma i_state_vend_event l t : is_Some (rings v !! l) → i_state T v → i_state T (vend l (EventItem t) v).
Proof.
  intros Hl Hs t' HT. destruct (Hs t' HT) as [l' Hl']. exists l'. apply (in_list_vend Hk); auto.
Qed.
Lemma i_state_vins_event l t : is_Some (rings v !! l) → i_state T v → i_state T (vins l (EventItem t) v).
Proof.
  intros Hl Hs t' HT. destruct (Hs t' HT) as [l' Hl']. exists l'. apply (in_list_vins Hk); auto.
Qed.
Lemma i_state_vidx l j : i_state T v → i_state T (vidx l j v).
Proof. intros Hs t HT. destruct (Hs t HT) as [l' Hl']. exists l'. by apply in_list_vidx. Qed.
End state.

Lemma i_state_tcb T v t x y : i_state T v → T !! t = Some y → i_state (<[t := x]> T) v.
Proof.
  intros Hs Ht t' [z Hz]. apply Hs. destruct (decide (t = t')) as [->|?]; [eauto|].
  rewrite lookup_insert_ne in Hz by done. eauto.
Qed.
Lemma i_prio_tcb T t x :
  i_prio T → 0 ≤ uxBasePriority x ≤ uxPriority x ∧ uxPriority x < configMAX_PRIORITIES →
  i_prio (<[t := x]> T).
Proof. intros Hp Hx. by apply map_Forall_insert_2. Qed.

(** ** The delayed lists *)
Section delay.
Context {s : store} {T : gmap Z TCB_t} {v : lview} (Hk : krep s T v).

Lemma i_delay_ext D O lo tick next (v' : lview) :
  i_delay D O lo tick next v → vitems v' D = vitems v D → vitems v' O = vitems v O →
  (∀ i, in_list v i D ∨ in_list v i O → vals v' i = vals v i) → i_delay D O lo tick next v'.
Proof.
  intros [? ? ? Hs Hso Hf Hw] HD HO Hv.
  assert (∀ i, in_list v i D → vals v' i = vals v i) as HvD by auto.
  assert (∀ i, in_list v i O → vals v' i = vals v i) as HvO by auto.
  split; [done..| | | |].
  - rewrite HD. apply (sorted_by_ext (vals v)); [|done]. intros i Hi.
    symmetry. apply HvD. by apply in_list_vitems.
  - rewrite HO. apply (sorted_by_ext (vals v)); [|done]. intros i Hi.
    symmetry. apply HvO. by apply in_list_vitems.
  - intros i. rewrite in_list_vitems, HD, <- in_list_vitems. intros Hi. rewrite (HvD _ Hi). by apply Hf.
  - intros i. rewrite in_list_vitems, HO, <- in_list_vitems. intros Hi. rewrite (HvO _ Hi). by apply Hw.
Qed.
Lemma i_delay_vrem D O lo tick next i : i_delay D O lo tick next v → i_delay D O lo tick next (vrem i v).
Proof.
  intros [? ? ? Hs Hso Hf Hw]. split; [done..| | | |].
  - rewrite (vitems_vrem Hk). by apply sorted_by_filter.
  - rewrite (vitems_vrem Hk). by apply sorted_by_filter.
  - intros j [Hj _]%(in_list_vrem Hk). by apply Hf.
  - intros j [Hj _]%(in_list_vrem Hk). by apply Hw.
Qed.
Lemma i_delay_vend D O lo tick next l i :
  l ∉ [DelayedL1; DelayedL2] → i_delay D O lo tick next v → i_delay D O lo tick next (vend l i v).
Proof.
  intros Hl Hd. assert (l ≠ D ∧ l ≠ O) as [??].
  { destruct (id_which _ _ _ _ _ _ Hd) as [[-> ->]|[-> ->]]; split; intros ->; apply Hl;
      by (left || (right; left)). }
  apply i_delay_ext; [done|by apply vitems_vend_ne..|done].
Qed.
Lemma i_delay_vins_other D O lo tick next l i :
  l ∉ [DelayedL1; DelayedL2] → i_delay D O lo tick next v → i_delay D O lo tick next (vins l i v).
Proof.
  intros Hl Hd. assert (l ≠ D ∧ l ≠ O) as [??].
  { destruct (id_which _ _ _ _ _ _ Hd) as [[-> ->]|[-> ->]]; split; intros ->; apply Hl;
      by (left || (right; left)). }
  apply i_delay_ext; [done|by apply vitems_vins_ne..|done].
Qed.
Lemma i_delay_vidx D O lo tick next l j : i_delay D O lo tick next v → i_delay D O lo tick next (vidx l j v).
Proof. intros Hd. apply i_delay_ext; [done|by rewrite vitems_vidx..|done]. Qed.
Lemma i_delay_vval D O lo tick next i z :
  ¬ in_list v i D → ¬ in_list v i O → i_delay D O lo tick next v → i_delay D O lo tick next (vval i z v).
Proof.
  intros HnD HnO Hd. apply i_delay_ext; [done..|]. intros j Hj. simpl.
  apply fn_lookup_insert_ne. intros <-. naive_solver.
Qed.

(** A task that wakes up before the counter wraps. *)
Lemma i_delay_now D O lo tick next i :
  i_delay D O lo tick next v → is_Some (rings v !! D) → in_none v i →
  lo < vals v i → u32 (vals v i) →
  i_delay D O lo tick (if vals v i <? next then vals v i else next) (vins D i v).
Proof.
  intros [Hw ? ? Hs Hso Hf Hwr] HD Hn Hlt Hu. split; [done|done| | | | |].
  - by destruct (vals v i <? next).
  - rewrite (vitems_vins i D HD). by apply ins_sorted_sorted.
  - rewrite vitems_vins_ne; [done|]. destruct Hw as [[-> ->]|[-> ->]]; done.
  - intros j [[-> _]|Hj]%(in_list_vins Hk); [| |done]; simpl.
    + split; [done|]. destruct (Z.ltb_spec (vals v i) next); lia.
    + destruct (Hf j Hj). split; [done|]. destruct (Z.ltb_spec (vals v i) next); lia.
  - intros j [[-> Heq]|Hj]%(in_list_vins Hk); [| |done]; [|by apply Hwr].
    exfalso. destruct Hw as [[-> ->]|[-> ->]]; done.
Qed.
(** A task that wakes up after the counter has wrapped. *)
Lemma i_delay_later D O lo tick next i :
  i_delay D O lo tick next v → is_Some (rings v !! O) → in_none v i → vals v i < tick →
  i_delay D O lo tick next (vins O i v).
Proof.
  intros [Hw ? ? Hs Hso Hf Hwr] HO Hn Hlt. split; [done..| | | |].
  - rewrite vitems_vins_ne; [done|]. destruct Hw as [[-> ->]|[-> ->]]; done.
  - rewrite (vitems_vins i O HO). by apply ins_sorted_sorted.
  - intros j [[-> Heq]|Hj]%(in_list_vins Hk); [| |done]; [|by apply Hf].
    exfalso. destruct Hw as [[-> ->]|[-> ->]]; done.
  - intros j [[-> Heq]|Hj]%(in_list_vins Hk); [| |done]; [done|by apply Hwr].
Qed.

(** ** Pending tasks *)
Lemma i_susp_ext susp pended (v' : lview) :
  i_susp susp pended v → (vitems v PendingReadyL = [] → vitems v' PendingReadyL = []) →
  i_susp susp pended v'.
Proof. intros [? ? Hz] Hv. split; [done..|]. intros Hs. by apply Hv, Hz. Qed.
Lemma i_susp_vrem susp pended i : i_susp susp pended v → i_susp susp pended (vrem i v).
Proof.
  intros Hs. apply (i_susp_ext _ _ _ Hs). intros He. by rewrite (vitems_vrem Hk), He.
Qed.
Lemma i_susp_vend susp pended l i :
  l ≠ PendingReadyL → i_susp susp pended v → i_susp susp pended (vend l i v).
Proof. intros Hl Hs. apply (i_susp_ext _ _ _ Hs). by rewrite vitems_vend_ne. Qed.
Lemma i_susp_vins susp pended l i :
  l ≠ PendingReadyL → i_susp susp pended v → i_susp susp pended (vins l i v).
Proof. intros Hl Hs. apply (i_susp_ext _ _ _ Hs). by rewrite vitems_vins_ne. Qed.
Lemma i_susp_vidx susp pended l j : i_susp susp pended v → i_susp susp pended (vidx l j v).
Proof. intros Hs. apply (i_susp_ext _ _ _ Hs). by rewrite vitems_vidx. Qed.
End delay.

(** ** Rules for access to the state *)
Lemma wp_current k c Q : pxCurrentTCB k = Some c → Q c k → wp current Q k.
Proof. intros Hc HQ. unfold current, wp, bindM, getM. by rewrite Hc. Qed.
Lemma wp_tcb_get {A} t (f : TCB_t → A) x Q k :
  k_tcbs k !! t = Some x → Q (f x) k → wp (tcb_get t f) Q k.
Proof. intros Hx HQ. unfold tcb_get, wp, bindM, getM. by rewrite Hx. Qed.
Lemma wp_tcb_set t f x Q k :
  k_tcbs k !! t = Some x → Q tt (k <| k_tcbs ::= <[t := f x]> |>) → wp (tcb_set t f) Q k.
Proof. intros Hx HQ. unfold tcb_set, wp, bindM, getM. by rewrite Hx. Qed.
Lemma wp_when {S} (b : bool) (m : M S unit) Q s :
  (b = true → wp m Q s) → (b = false → Q tt s) → wp (when b then m) Q s.
Proof. intros Ht Hf. destruct b; [by apply Ht|by apply wp_ret, Hf]. Qed.

(** ** Waking tasks *)

(** The tasks [ts] are in the ready lists of their priorities, their event items
    in no list, and every other item is where it was. *)
Definition woken (T : gmap Z TCB_t) (ts : list Z) (v v' : lview) : Prop :=
  ∀ i l, in_list v' i l ↔
    if decide (itask i ∈ ts)
    then is_state i = true ∧ ∃ x, T !! itask i = Some x ∧ l = ReadyL (uxPriority x)
    else in_list v i l.

Lemma woken_nil T v : woken T [] v v.
Proof. intros i l. by rewrite decide_False by apply not_elem_of_nil. Qed.
Lemma woken_snoc T ts t v v1 v2 :
  woken T ts v v1 → woken T [t] v1 v2 → woken T (ts ++ [t]) v v2.
Proof.
  intros H1 H2 i l. rewrite (H2 i l).
  destruct (decide (itask i ∈ [t])) as [Hin|Hni].
  - rewrite decide_True; [done|]. apply elem_of_app. by right.
  - rewrite (H1 i l). destruct (decide (itask i ∈ ts)) as [Hts|Hts].
    + rewrite decide_True; [done|]. apply elem_of_app. by left.
    + rewrite decide_False; [done|]. by intros [?|?]%elem_of_app.
Qed.

(** Nothing changes when an item that is in no list is taken out. *)
Lemma vrem_id v i : in_none v i → vrem i v = v.
Proof.
  intros Hn. destruct v as [m vs]. unfold vrem, set_field. simpl. f_equal.
  apply map_eq. intros l. rewrite lookup_fmap. destruct (m !! l) as [r|] eqn:Hr; [|done].
  simpl. unfold ring_del. rewrite decide_False; [done|]. intros Hi. apply (Hn l). by exists r.
Qed.

Definition vwake (t p : Z) (v : lview) : lview :=
  vend (ReadyL p) (StateItem t) (vrem (EventItem t) (vrem (StateItem t) v)).

Lemma vwake_woken s s1 s2 T v t x :
  krep s T v → krep s1 T (vrem (StateItem t) v) →
  krep s2 T (vrem (EventItem t) (vrem (StateItem t) v)) →
  T !! t = Some x → is_Some (rings v !! ReadyL (uxPriority x)) →
  woken T [t] v (vwake t (uxPriority x) v).
Proof.
  intros Hk Hk1 Hk2 Hx Hl i l. unfold vwake.
  rewrite (in_list_vend Hk2) by (by apply vrem_list, vrem_list).
  rewrite (in_list_vrem Hk1), (in_list_vrem Hk). destruct (decide (itask i ∈ [t])) as [Hin|Hni].
  - apply list_elem_of_singleton in Hin. destruct i as [t'|t']; simpl in *; subst t'; split.
    + intros [[_ ->]|[[_ ?] _]]; [|done]. split; [done|]. eauto.
    + intros [_ (y & Hy & ->)]. left. split; [done|]. congruence.
    + intros [[? _]|[_ ?]]; done.
    + intros [? _]; done.
  - rewrite list_elem_of_singleton in Hni. split.
    + intros [[-> _]|[[? _] _]]; [done|done].
    + intros ?. right. split_and!; [done|by intros ->|by intros ->].
Qed.

(** ** Rules for access to the ready lists *)
Lemma wp_prvAddTaskToReadyList k v t x Q :
  krep (k_lists k) (k_tcbs k) v → k_tcbs k !! t = Some x → in_none v (StateItem t) →
  is_Some (rings v !! ReadyL (uxPriority x)) →
  (∀ s, krep s (k_tcbs k) (vend (ReadyL (uxPriority x)) (StateItem t) v) →
    Q tt (k <| uxTopReadyPriority ::= λ b, Z.lor b (prio_bit (uxPriority x)) |> <| k_lists := s |>)) →
  wp (prvAddTaskToReadyList t) Q k.
Proof.
  intros Hk Hx Hn Hl HQ. unfold prvAddTaskToReadyList, portRECORD_READY_PRIORITY.
  apply wp_bind. eapply wp_tcb_get; [done|]. apply wp_bind, wp_modify, wp_kl.
  eapply ws_listINSERT_END; [exact Hk|done|by simpl; eauto|done|]. intros s Hs. by apply HQ.
Qed.

Lemma wp_preempts k t x c y Q :
  k_tcbs k !! t = Some x → pxCurrentTCB k = Some c → k_tcbs k !! c = Some y →
  Q (uxPriority y <? uxPriority x) k → wp (preempts t) Q k.
Proof.
  intros Hx Hc Hy HQ. unfold preempts. apply wp_bind. eapply wp_current; [done|].
  apply wp_bind. eapply wp_tcb_get; [done|]. apply wp_bind. eapply wp_tcb_get; [done|].
  by apply wp_ret.
Qed.

Lemma wp_setYieldPending k Q :
  Q tt (k <| xYieldPendings := true |>) → wp setYieldPending Q k.
Proof. apply wp_modify. Qed.
Lemma wp_portYIELD k Q : Q tt (k <| pendsv := true |>) → wp portYIELD_WITHIN_API Q k.
Proof. apply wp_modify. Qed.

(** ** Inside an operation: one task out of the lists

    [kinv_hole t e lo k v]: [kinv], but the state item of [t] is in no list and
    the bitmap's bit of priority [e] may be out of date. *)
Record kinv_hole (t e lo : Z) (k : kernel) (v : lview) : Prop := {
  kh_rep : krep (k_lists k) (k_tcbs k) v;
  kh_lists : i_lists v;
  kh_ready : i_ready_but e (k_tcbs k) (uxTopReadyPriority k) v;
  kh_prio : i_prio (k_tcbs k);
  kh_none : in_none v (StateItem t);
  kh_state : ∀ t', t' ≠ t → is_Some (k_tcbs k !! t') → ∃ l, in_list v (StateItem t') l;
  kh_delay : i_delay (pxDelayedTaskList k) (pxOverflowDelayedTaskList k)
    lo (xTickCount k) (xNextTaskUnblockTime k) v;
  kh_susp : i_susp (uxSchedulerSuspended k) (xPendedTicks k) v;
  kh_current : is_Some (pxCurrentTCB k ≫= λ c, k_tcbs k !! c);
  kh_count : 0 < uxCurrentNumberOfTasks k
}.

Lemma not_delayed_ready p : ReadyL p ∉ [DelayedL1; DelayedL2].
Proof. by intros [?|[?|?%not_elem_of_nil]%elem_of_cons]%elem_of_cons. Qed.

Section hole.
Context (lo : Z) (k : kernel) (v : lview).

(** Taking the state item out. *)
Lemma kinv_leave t x s :
  kinv_from lo k v → k_tcbs k !! t = Some x → krep s (k_tcbs k) (vrem (StateItem t) v) →
  kinv_hole t (uxPriority x) lo (k <| k_lists := s |>) (vrem (StateItem t) v).
Proof.
  intros [Hk Hl Hr Hp Hst Hd Hsu Hc Hn] Hx H1. split; simpl; try done.
  - by apply (i_lists_vrem Hk).
  - by apply (i_ready_leave Hk).
  - by apply (vrem_none Hk).
  - intros t' Hne HT. destruct (Hst t' HT) as [l Hin]. exists l. apply (in_list_vrem Hk).
    split; [done|congruence].
  - by apply (i_delay_vrem Hk).
  - by apply (i_susp_vrem Hk).
Qed.

(** Taking an event item out. *)
Lemma kinv_leave_event lo' t s :
  kinv_from lo' k v → krep s (k_tcbs k) (vrem (EventItem t) v) →
  kinv_from lo' (k <| k_lists := s |>) (vrem (EventItem t) v).
Proof.
  intros [Hk Hl Hr Hp Hst Hd Hsu Hc Hn] H1. split; simpl; try done.
  - by apply (i_lists_vrem Hk).
  - by apply (i_ready_leave_event Hk).
  - by apply (i_state_vrem_event Hk).
  - by apply (i_delay_vrem Hk).
  - by apply (i_susp_vrem Hk).
Qed.
Lemma kinv_hole_leave_event t e t' s :
  kinv_hole t e lo k v → krep s (k_tcbs k) (vrem (EventItem t') v) →
  kinv_hole t e lo (k <| k_lists := s |>) (vrem (EventItem t') v).
Proof.
  intros [Hk Hl Hr Hp Hno Hst Hd Hsu Hc Hn] H1. split; simpl; try done.
  - by apply (i_lists_vrem Hk).
  - apply (i_ready_other (v:=v)); [done|]. intros p. apply (vitems_vrem_ne Hk).
    intros Hin%(il_kind _ Hl). done.
  - intros l [Hin _]%(in_list_vrem Hk). by apply Hno in Hin.
  - intros t'' Hne HT. destruct (Hst t'' Hne HT) as [l Hin]. exists l. by apply (in_list_vrem Hk).
  - by apply (i_delay_vrem Hk).
  - by apply (i_susp_vrem Hk).
Qed.

(** Putting an event item in. *)
Lemma kinv_enter_event t l s :
  kinv_from lo k v → state_list l = false → is_Some (rings v !! l) →
  (l = PendingReadyL → uxSchedulerSuspended k ≠ 0) →
  krep s (k_tcbs k) (vend l (EventItem t) v) →
  kinv_from lo (k <| k_lists := s |>) (vend l (EventItem t) v).
Proof.
  intros [Hk Hl Hr Hp Hst Hd Hsu Hc Hn] Hkd HL Hpend H1. split; simpl; try done.
  - by apply (i_lists_vend Hk).
  - apply (i_ready_other (v:=v)); [done|]. intros p. apply vitems_vend_ne. by intros ->.
  - by apply (i_state_vend_event Hk).
  - apply i_delay_vend; [|done]. intros [->|[->|?%not_elem_of_nil]%elem_of_cons]%elem_of_cons; done.
  - destruct Hsu as [? ? Hz]. split; [done..|]. intros Hs.
    rewrite vitems_vend_ne; [by apply Hz|]. intros ->. by apply Hpend.
Qed.
Lemma kinv_insert_event t l s :
  kinv_from lo k v → state_list l = false → l ≠ PendingReadyL → is_Some (rings v !! l) →
  krep s (k_tcbs k) (vins l (EventItem t) v) →
  kinv_from lo (k <| k_lists := s |>) (vins l (EventItem t) v).
Proof.
  intros [Hk Hl Hr Hp Hst Hd Hsu Hc Hn] Hkd Hne HL H1. split; simpl; try done.
  - by apply (i_lists_vins Hk).
  - apply (i_ready_other (v:=v)); [done|]. intros p. apply vitems_vins_ne. by intros ->.
  - by apply (i_state_vins_event Hk).
  - apply i_delay_vins_other; [|done]. intros [->|[->|?%not_elem_of_nil]%elem_of_cons]%elem_of_cons; done.
  - by apply i_susp_vins.
Qed.

(** Readying the task. *)
Lemma kinv_enter_ready t x s :
  kinv_hole t (uxPriority x) lo k v → k_tcbs k !! t = Some x →
  krep s (k_tcbs k) (vend (ReadyL (uxPriority x)) (StateItem t) v) →
  kinv_from lo (k <| uxTopReadyPriority ::= λ b, Z.lor b (prio_bit (uxPriority x)) |>
                  <| k_lists := s |>) (vend (ReadyL (uxPriority x)) (StateItem t) v).
Proof.
  intros [Hk Hl Hr Hp Hno Hst Hd Hsu Hc Hn] Hx H1.
  assert (is_Some (rings v !! ReadyL (uxPriority x))) as HR.
  { pose proof (Hp _ _ Hx). simpl in *. apply list_ready; [done|lia]. }
  split; simpl; try done.
  - by apply (i_lists_vend Hk).
  - by apply (i_ready_enter Hk).
  - intros t' HT. destruct (decide (t' = t)) as [->|Hne].
    + eexists. apply (in_list_vend Hk); [done|by left].
    + destruct (Hst t' Hne HT) as [l Hin]. exists l. apply (in_list_vend Hk); [done|by right].
  - apply i_delay_vend; [apply not_delayed_ready|done].
  - by apply i_susp_vend.
Qed.

(** Putting it in a list of its own kind that is neither ready nor delayed. *)
Lemma kinv_enter_other t l s :
  kinv_hole t (-1) lo k v → l = SuspendedL ∨ l = TerminationL →
  krep s (k_tcbs k) (vend l (StateItem t) v) →
  kinv_from lo (k <| k_lists := s |>) (vend l (StateItem t) v).
Proof.
  intros [Hk Hl Hr Hp Hno Hst Hd Hsu Hc Hn] Hlist H1.
  assert (is_Some (rings v !! l)) as HL.
  { apply list_fixed; [done|]. destruct Hlist as [->| ->]; set_solver. }
  assert (state_list l = true ∧ (∀ p, l ≠ ReadyL p) ∧ l ≠ PendingReadyL ∧ l ∉ [DelayedL1; DelayedL2])
    as (Hkd & Hnr & Hnp & Hnd).
  { destruct Hlist as [->| ->]; (split_and!; [done|done|done|set_solver]). }
  split; simpl; try done.
  - by apply (i_lists_vend Hk).
  - apply (i_ready_other (v:=v)); [done|]. intros p. by apply vitems_vend_ne.
  - intros t' HT. destruct (decide (t' = t)) as [->|Hne].
    + eexists. apply (in_list_vend Hk); [done|by left].
    + destruct (Hst t' Hne HT) as [l' Hin]. exists l'. apply (in_list_vend Hk); [done|by right].
  - by apply i_delay_vend.
  - by apply i_susp_vend.
Qed.
End hole.
