(* ===== verification/TasksTick.v ===== *)
(** * The tick interrupt

    [xTaskIncrementTick] readies exactly the tasks whose time has come, also
    when the tick counter wraps, and keeps the invariant. *)
From S2P Require Import Prelude KList KListSpec KListProps Tasks TasksView TasksInv.


(** Readying a task, wherever its items are. *)
Lemma kinv_wake lo k v t x s1 s2 s3 :
  kinv_from lo k v → k_tcbs k !! t = Some x →
  krep s1 (k_tcbs k) (vrem (StateItem t) v) →
  krep s2 (k_tcbs k) (vrem (EventItem t) (vrem (StateItem t) v)) →
  krep s3 (k_tcbs k) (vwake t (uxPriority x) v) →
  kinv_from lo (k <| uxTopReadyPriority ::= λ b, Z.lor b (prio_bit (uxPriority x)) |>
                  <| k_lists := s3 |>) (vwake t (uxPriority x) v).
Proof.
  intros [Hk Hl Hr Hp Hst Hd Hsu Hc Hn] Hx H1 H2 H3.
  pose proof (Hp _ _ Hx) as Hpx. simpl in Hpx.
  pose proof (i_lists_vrem Hk (StateItem t) Hl) as Hl1.
  pose proof (i_lists_vrem H1 (EventItem t) Hl1) as Hl2.
  assert (is_Some (rings (vrem (EventItem t) (vrem (StateItem t) v)) !! ReadyL (uxPriority x))) as HR.
  { apply list_ready; [done|lia]. }
  split; simpl; try done.
  - by apply (i_lists_vend H2).
  - unfold vwake. apply (i_ready_enter H2); [|done..].
    apply (i_ready_other (v:=vrem (StateItem t) v)); [by apply (i_ready_leave Hk)|].
    intros p. apply (vitems_vrem_ne H1). intros Hin%(il_kind _ Hl1). done.
  - apply (i_state_put (v:=v) _ t (ReadyL (uxPriority x)) Hst).
    + apply (in_list_vend H2); [done|by left].
    + intros t' l' Hne Hin. apply (in_list_vend H2); [done|]. right.
      apply (in_list_vrem H1). split; [|done]. apply (in_list_vrem Hk). split; [done|congruence].
  - apply i_delay_vend; [apply not_delayed_ready|].
    apply (i_delay_vrem H1), (i_delay_vrem Hk), Hd.
  - apply i_susp_vend; [done|]. apply (i_susp_vrem H1), (i_susp_vrem Hk), Hsu.
Qed.

(** The part of the kernel state that readying tasks changes. *)
Definition set_ready (s : store) (top : Z) (k : kernel) : kernel :=
  k <| k_lists := s |> <| uxTopReadyPriority := top |>.

(** Removing a task's event item if it is in a list. *)
Lemma wp_remove_event (c : option lid) k v i Q :
  krep (k_lists k) (k_tcbs k) v → (∀ l, c = Some l ↔ in_list v i l) →
  (∀ s, krep s (k_tcbs k) (vrem i v) → Q tt (k <| k_lists := s |>)) →
  wp (match c with Some _ => kl (listREMOVE_ITEM i) | None => retM tt end) Q k.
Proof.
  intros Hk Hc HQ. destruct c as [l|].
  - apply wp_kl. eapply ws_remove; [done|by apply Hc|done].
  - apply wp_ret. assert (in_none v i) as Hn by (by intros l Hl%Hc).
    specialize (HQ (k_lists k)). rewrite vrem_id in HQ by done.
    destruct k. by apply HQ.
Qed.

Section unblock.
Context (k : kernel) (v0 : lview) (lo tick : Z) (c : Z) (y : TCB_t).
Context (Hc : pxCurrentTCB k = Some c) (Hy : k_tcbs k !! c = Some y).
Notation D := (pxDelayedTaskList k).
Notation T := (k_tcbs k).

Definition prio_above (t : Z) : Prop :=
  ∃ x, T !! t = Some x ∧ uxPriority y < uxPriority x.

(** The loop invariant: [ts] are the tasks readied so far. *)
Record unblocking (ts : list Z) (b : bool) (k' : kernel) (v : lview) : Prop := {
  ub_state : ∃ s top, k' = set_ready s top k;
  ub_inv : kinv_from lo k' v;
  ub_vals : vals v = vals v0;
  ub_split : vitems v0 D = (StateItem <$> ts) ++ vitems v D;
  ub_due : ∀ t, t ∈ ts → vals v0 (StateItem t) ≤ tick;
  ub_woken : woken T ts v0 v;
  ub_switch : b = true ↔ ∃ t, t ∈ ts ∧ prio_above t
}.

Lemma vitems_state_cons v i xs :
  i_lists v → vitems v D = i :: xs → (D = DelayedL1 ∨ D = DelayedL2) → i = StateItem (itask i).
Proof.
  intros Hl Hi HD. assert (in_list v i D) as Hin by (apply in_list_vitems; rewrite Hi; by left).
  apply (il_kind _ Hl) in Hin. destruct i; [done|]. destruct HD as [HD|HD]; by rewrite HD in Hin.
Qed.

Lemma vwake_delayed s s1 s2 t p v xs :
  krep s T v → krep s1 T (vrem (StateItem t) v) →
  krep s2 T (vrem (EventItem t) (vrem (StateItem t) v)) →
  i_lists v → D = DelayedL1 ∨ D = DelayedL2 → vitems v D = StateItem t :: xs →
  vitems (vwake t p v) D = xs.
Proof.
  intros Hk Hk1 Hk2 Hl HD Hi. unfold vwake.
  rewrite vitems_vend_ne by (destruct HD as [-> | ->]; done).
  rewrite (vitems_vrem_ne Hk1).
  - destruct (vitems_cons s T v Hk D _ xs Hi) as (r & Hr & Hri & _).
    pose proof (krep_nodup Hk D r Hr) as Hnd. rewrite Hri in Hnd.
    apply NoDup_cons in Hnd as [Hni _].
    rewrite (vitems_vrem Hk), Hi, filter_cons_False by auto.
    apply filter_all. by intros j Hj ->.
  - intros [Hin _]%(in_list_vrem Hk). apply (il_kind _ Hl) in Hin. by destruct HD as [HD|HD]; rewrite HD in Hin.
Qed.

Lemma wp_unblock_one ts b k' v :
  unblocking ts b k' v →
  wp (unblock_one tick b) (λ r k'', match r with
    | inr b' => b' = b ∧ ∃ next, k'' = k' <| xNextTaskUnblockTime := next |> ∧
        (∀ i, in_list v i D → tick < vals v i ∧ next ≤ vals v i) ∧ u32 next
    | inl b' => ∃ t v', unblocking (ts ++ [t]) b' k'' v' ∧
        (length (vitems v' D) < length (vitems v D))%nat
    end) k'.
Proof.
  intros [(s & top & ->) Hinv Hvals Hsplit Hdue Hwk Hsw].
  pose proof Hinv as [Hk Hl Hr Hp Hst Hd Hsu Hcu Hn]. simpl in *.
  destruct (list_delayed _ _ _ _ _ _ Hl Hd) as [HD HO].
  assert (D = DelayedL1 ∨ D = DelayedL2) as Hwhich.
  { destruct (id_which _ _ _ _ _ _ Hd) as [[? _]|[? _]]; auto. }
  unfold unblock_one. apply wp_bind, wp_getM, wp_bind, wp_kl. simpl.
  eapply ws_is_empty; [exact Hk|done|]. case_bool_decide as He.
  { apply wp_bind, wp_modify, wp_ret. split; [done|]. exists portMAX_DELAY.
    split_and!; [done| |done]. intros i Hi%in_list_vitems. rewrite He in Hi.
    by apply not_elem_of_nil in Hi. }
  destruct (vitems v D) as [|i xs] eqn:Hi; [done|]. clear He.
  pose proof (vitems_state_cons v i xs Hl Hi Hwhich) as Hit.
  apply wp_bind, wp_kl. simpl. eapply ws_head_owner; [exact Hk|exact Hi|].
  set (t := itask i) in *. clearbody t. subst i.
  destruct (vitems_cons s T v Hk D _ xs Hi) as (_ & _ & _ & [x Hx]). simpl in Hx.
  apply wp_bind, wp_kl. simpl. eapply ws_value; [exact Hk|by simpl; eauto|].
  destruct (Z.ltb_spec tick (vals v (StateItem t))) as [Hlt|Hge].
  { apply wp_bind, wp_modify, wp_ret. split; [done|]. eexists. split; [done|]. split.
    - intros j Hj%in_list_vitems. pose proof (id_sorted _ _ _ _ _ _ Hd) as Hs. rewrite Hi in Hj, Hs.
      apply sorted_by_cons in Hs as [Hs _].
      apply elem_of_cons in Hj as [->|Hj]; [lia|]. specialize (Hs j Hj). lia.
    - apply (krep_u32 Hk). simpl. eauto. }
  assert (in_list v (StateItem t) D) as Hin by (apply in_list_vitems; rewrite Hi; by left).
  apply wp_bind, wp_kl. simpl. eapply ws_remove; [exact Hk|exact Hin|]. intros s1 Hk1.
  apply wp_bind, wp_kl. simpl. eapply ws_container; [exact Hk1|by simpl; eauto|]. intros ce Hce.
  apply wp_bind. eapply wp_remove_event; [exact Hk1|exact Hce|]. simpl. intros s2 Hk2.
  apply wp_bind. eapply (wp_prvAddTaskToReadyList _ _ t x); [exact Hk2|exact Hx| | |].
  { intros l [Hin' _]%(in_list_vrem Hk1). by apply (vrem_none Hk) in Hin'. }
  { apply vrem_list, vrem_list, list_ready; [done|]. pose proof (Hp _ _ Hx); simpl in *; lia. }
  simpl. intros s3 Hk3.
  apply wp_bind. eapply (wp_preempts _ t x c y); [exact Hx|exact Hc|exact Hy|].
  apply wp_ret. exists t, (vwake t (uxPriority x) v).
  assert (vitems (vwake t (uxPriority x) v) D = xs) as Hxs.
  { by apply (vwake_delayed s s1 s2). }
  split; [|rewrite Hxs; simpl; lia].
  split.
  - exists s3, (Z.lor top (prio_bit (uxPriority x))). reflexivity.
  - exact (kinv_wake lo _ v t x s1 s2 s3 Hinv Hx Hk1 Hk2 Hk3).
  - done.
  - rewrite Hxs, Hsplit, fmap_app, <- app_assoc. done.
  - intros t' [Ht'|Ht']%elem_of_app; [by apply Hdue|].
    apply list_elem_of_singleton in Ht' as ->. by rewrite <- Hvals.
  - eapply woken_snoc; [exact Hwk|]. apply (vwake_woken s s1 s2); try done.
    apply list_ready; [done|]. pose proof (Hp _ _ Hx); simpl in *; lia.
  - rewrite orb_true_iff, Hsw, Z.ltb_lt. setoid_rewrite elem_of_app. split.
    + intros [?|(t' & ? & ?)]; [|by exists t'; auto].
      exists t. split; [right; by apply list_elem_of_singleton|by exists x].
    + intros (t' & [?|Ht'] & Hab); [right; by exists t'|].
      apply list_elem_of_singleton in Ht' as ->. destruct Hab as (x' & Hx' & ?).
      left. rewrite Hx in Hx'. by simplify_eq.
Qed.

Lemma wp_unblock_loop :
  kinv_from lo k v0 →
  wp (unblock_loop tick) (λ b k', ∃ s top next v' ts,
    k' = set_ready s top k <| xNextTaskUnblockTime := next |> ∧
    kinv_from lo (set_ready s top k) v' ∧ u32 next ∧
    (∀ i, in_list v' i D → tick < vals v' i ∧ next ≤ vals v' i) ∧
    vals v' = vals v0 ∧ woken T ts v0 v' ∧
    vitems v0 D = (StateItem <$> ts) ++ vitems v' D ∧
    (∀ t, t ∈ ts → vals v0 (StateItem t) ≤ tick) ∧
    (b = true ↔ ∃ t, t ∈ ts ∧ prio_above t)) k.
Proof.
  intros Hinv. pose proof Hinv as [Hk Hl Hr Hp Hst Hd Hsu Hcu Hn]. simpl in *.
  destruct (list_delayed _ _ _ _ _ _ Hl Hd) as [HD HO].
  unfold unblock_loop. apply wp_bind, wp_getM, wp_bind, wp_kl.
  eapply ws_len; [exact Hk|done|].
  apply (wp_iter (λ n b k', ∃ ts v, n = length (vitems v D) ∧ unblocking ts b k' v)
    _ _ _ (length (vitems v0 D))); [| |lia].
  - intros n b k' (ts & v & -> & Hub). eapply wp_mono; [by apply wp_unblock_one|].
    intros [b'|b'] k''.
    + intros (t & v' & Hub' & Hlt). eexists. split; [exact Hlt|]. by eauto.
    + intros (-> & next & -> & Hf & Hu).
      destruct Hub as [(s & top & ->) Hinv' Hvals Hsplit Hdue Hwk Hsw].
      exists s, top, next, v, ts. by split_and!.
  - exists [], v0. split; [done|]. split; try done.
    + exists (k_lists k), (uxTopReadyPriority k). by destruct k.
    + by intros t ?%not_elem_of_nil.
    + split; [done|]. by intros (t & ?%not_elem_of_nil & _).
Qed.
End unblock.

(** ** Advancing the counter *)

(** The variables that a tick leaves alone. *)
Record same_but_lists (k k' : kernel) : Prop := {
  sb_tcbs : k_tcbs k' = k_tcbs k;
  sb_current : pxCurrentTCB k' = pxCurrentTCB k;
  sb_deleted : uxDeletedTasksWaitingCleanUp k' = uxDeletedTasksWaitingCleanUp k;
  sb_number : uxCurrentNumberOfTasks k' = uxCurrentNumberOfTasks k;
  sb_running : xSchedulerRunning k' = xSchedulerRunning k;
  sb_pended : xPendedTicks k' = xPendedTicks k;
  sb_yield : xYieldPendings k' = xYieldPendings k;
  sb_tasknumber : uxTaskNumber k' = uxTaskNumber k;
  sb_suspended : uxSchedulerSuspended k' = uxSchedulerSuspended k;
  sb_pendsv : pendsv k' = pendsv k
}.
#[global] Instance same_but_lists_po : PreOrder same_but_lists.
Proof.
  split.
  - intros k. by split.
  - intros k1 k2 k3 [] []. split; congruence.
Qed.

Definition next_tick (k : kernel) : Z := wrap32 (xTickCount k + 1).
(** The delayed list in use, and the other one, after the next tick. *)
Definition next_delayed (k : kernel) : lid :=
  if next_tick k =? 0 then pxOverflowDelayedTaskList k else pxDelayedTaskList k.
Definition next_overflow (k : kernel) : lid :=
  if next_tick k =? 0 then pxDelayedTaskList k else pxOverflowDelayedTaskList k.
Definition next_overflows (k : kernel) : Z :=
  if next_tick k =? 0 then wrap32 (xNumOfOverflows k + 1) else xNumOfOverflows k.

Record ticked (k k' : kernel) : Prop := {
  tk_frame : same_but_lists k k';
  tk_tick : xTickCount k' = next_tick k;
  tk_delayed : pxDelayedTaskList k' = next_delayed k;
  tk_overflow : pxOverflowDelayedTaskList k' = next_overflow k;
  tk_overflows : xNumOfOverflows k' = next_overflows k
}.

(** [xNextTaskUnblockTime] after [prvResetNextTaskUnblockTime]. *)
Lemma wp_prvResetNextTaskUnblockTime k v D Q :
  krep (k_lists k) (k_tcbs k) v → pxDelayedTaskList k = D → is_Some (rings v !! D) →
  sorted_by (vals v) (vitems v D) →
  (∀ next, u32 next → (∀ i, in_list v i D → next ≤ vals v i) →
    Q tt (k <| xNextTaskUnblockTime := next |>)) →
  wp prvResetNextTaskUnblockTime Q k.
Proof.
  intros Hk HD Hl Hs HQ. unfold prvResetNextTaskUnblockTime.
  apply wp_bind, wp_getM. rewrite HD. apply wp_bind, wp_kl.
  eapply ws_is_empty; [exact Hk|done|]. case_bool_decide as He.
  - apply wp_modify. destruct k; apply HQ; [done|]. intros i Hi%in_list_vitems.
    rewrite He in Hi. by apply not_elem_of_nil in Hi.
  - destruct (vitems v D) as [|i xs] eqn:Hi; [done|].
    apply wp_bind, wp_kl. simpl. eapply ws_head_value; [exact Hk|exact Hi|].
    apply wp_modify. destruct k; apply HQ.
    + destruct (vitems_cons _ _ v Hk D i xs Hi) as (_ & _ & _ & HT). by apply (krep_u32 Hk).
    + intros j Hj%in_list_vitems. rewrite Hi in Hj. apply sorted_by_cons in Hs as [Hs _].
      apply elem_of_cons in Hj as [->|Hj]; [done|by apply Hs].
Qed.

Lemma wp_tick_advance k v Q :
  kinv k v →
  (∀ lo k', kinv_from lo k' v → ticked k k' → k_lists k' = k_lists k →
    uxTopReadyPriority k' = uxTopReadyPriority k → Q tt k') →
  wp (modify (λ k', k' <| xTickCount := next_tick k |>) ;>
      when next_tick k =? 0 then taskSWITCH_DELAYED_LISTS) Q k.
Proof.
  intros [Hk Hl Hr Hp Hst Hd Hsu Hcu Hn] HQ.
  pose proof (id_tick _ _ _ _ _ _ Hd) as Htick.
  destruct (list_delayed _ _ _ _ _ _ Hl Hd) as [HD HO].
  assert (u32 (next_tick k)) as Hu by apply wrap32_u32.
  apply wp_bind, wp_modify.
  destruct (Z.eqb_spec (next_tick k) 0) as [Hz|Hz].
  - (* the counter wraps: the current list is empty *)
    assert (xTickCount k = MAX32 - 1) as Hmax.
    { unfold next_tick, wrap32, u32, MAX32 in *.
      destruct (decide (xTickCount k + 1 < 4294967296)); [|lia].
      rewrite Z.mod_small in Hz by lia. lia. }
    assert (∀ i, ¬ in_list v i (pxDelayedTaskList k)) as Hne.
    { intros i Hi. pose proof (id_future _ _ _ _ _ _ Hd i Hi) as [Hf _].
      pose proof (krep_u32 Hk i (in_list_tcb Hk _ _ Hi)) as Hvu. unfold u32 in Hvu. lia. }
    assert (vitems v (pxDelayedTaskList k) = []) as He.
    { destruct (vitems v (pxDelayedTaskList k)) as [|i xs] eqn:Hi; [done|].
      destruct (Hne i). apply in_list_vitems. rewrite Hi. by left. }
    unfold taskSWITCH_DELAYED_LISTS. apply wp_bind, wp_getM, wp_bind, wp_kl. simpl.
    eapply ws_is_empty; [exact Hk|done|]. rewrite bool_decide_eq_true_2 by done.
    apply wp_bind, wp_assert; [done|]. apply wp_bind, wp_modify.
    eapply wp_prvResetNextTaskUnblockTime; simpl; [exact Hk|done|done|apply Hd|].
    intros next Hnu Hnext. apply (HQ (-1)); simpl; [|split; simpl|done|done].
    + split; simpl; try done. rewrite Hz. split; try done.
      * destruct (id_which _ _ _ _ _ _ Hd) as [[-> ->]|[-> ->]]; auto.
      * apply Hd.
      * rewrite He. apply sorted_by_nil.
      * intros i Hi. split; [|by apply Hnext].
        pose proof (krep_u32 Hk i (in_list_tcb Hk _ _ Hi)) as Hvu. unfold u32 in Hvu. lia.
      * intros i Hi. by destruct (Hne i).
    + by split.
    + done.
    + unfold next_delayed. by rewrite Hz.
    + unfold next_overflow. by rewrite Hz.
    + unfold next_overflows. by rewrite Hz.
  - apply wp_ret. assert (next_tick k = xTickCount k + 1) as Ht.
    { unfold next_tick, wrap32, u32, MAX32 in *.
      destruct (decide (xTickCount k + 1 < 4294967296)).
      - apply Z.mod_small. lia.
      - assert (xTickCount k + 1 = 4294967296) as Heq by lia. by rewrite Heq in Hz. }
    apply (HQ (xTickCount k)); simpl; [|split; simpl|done|done].
    + split; simpl; try done. destruct Hd as [? ? ? ? ? Hf Hw]. split; try done.
      intros i Hi. specialize (Hw i Hi). lia.
    + by split.
    + done.
    + unfold next_delayed. destruct (Z.eqb_spec (next_tick k) 0); done.
    + unfold next_overflow. destruct (Z.eqb_spec (next_tick k) 0); done.
    + unfold next_overflows. destruct (Z.eqb_spec (next_tick k) 0); done.
Qed.

(** ** [xTaskIncrementTick] *)

(** The tasks that the next tick readies, in the order of their wake-up times. *)
Definition due_tasks (k : kernel) (v : lview) : list Z :=
  itask <$> filter (λ i, vals v i ≤ next_tick k) (vitems v (next_delayed k)).

Definition prio_above_current (k : kernel) (t : Z) : Prop :=
  ∃ c x y, pxCurrentTCB k = Some c ∧ k_tcbs k !! c = Some y ∧
    k_tcbs k !! t = Some x ∧ uxPriority y < uxPriority x.
(** The running task shares its priority with another ready task. *)
Definition time_slice (k : kernel) (v : lview) : Prop :=
  ∃ c y, pxCurrentTCB k = Some c ∧ k_tcbs k !! c = Some y ∧
    1 < Z.of_nat (length (vitems v (ReadyL (uxPriority y)))).

Record tick_spec (k : kernel) (v : lview) (b : bool) (k' : kernel) (v' : lview) : Prop := {
  ts_inv : kinv k' v';
  ts_ticked : ticked k k';
  ts_vals : vals v' = vals v;
  ts_woken : woken (k_tcbs k) (due_tasks k v) v v';
  ts_switch : b = true ↔
    xYieldPendings k = true ∨ (∃ t, t ∈ due_tasks k v ∧ prio_above_current k t) ∨ time_slice k' v'
}.

Lemma kinv_current k v lo :
  kinv_from lo k v → ∃ c y, pxCurrentTCB k = Some c ∧ k_tcbs k !! c = Some y.
Proof.
  intros Hk. destruct (ki_current _ _ _ Hk) as [y Hy].
  destruct (pxCurrentTCB k) as [c|]; [|done]. eauto.
Qed.

(** The end of the handler: the time slice and the pending yield. *)
Lemma wp_tick_switch lo k v (sw : bool) Q :
  kinv_from lo k v →
  (∀ b : bool, (b = true ↔ xYieldPendings k = true ∨ sw = true ∨ time_slice k v) → Q b k) →
  wp (let* cur := current in
      let* p := tcb_get cur uxPriority in
      let* n := kl (listCURRENT_LIST_LENGTH (ReadyL p)) in
      let* k := getM in
      (when xPendedTicks k =? 0 then vApplicationTickHook) ;>
      let* k := getM in
      retM (xYieldPendings k || (1 <? n) || sw)) Q k.
Proof.
  intros Hinv HQ. destruct (kinv_current k v lo Hinv) as (c & y & Hc & Hy).
  destruct Hinv as [Hk Hl Hr Hp Hst Hd Hsu Hcu Hn].
  pose proof (Hp _ _ Hy) as Hpy. simpl in Hpy.
  apply wp_bind. eapply wp_current; [exact Hc|]. apply wp_bind. eapply wp_tcb_get; [exact Hy|].
  apply wp_bind, wp_kl. eapply ws_len; [exact Hk|apply list_ready; [done|lia]|].
  apply wp_bind, wp_getM, wp_bind, (wp_mono _ (λ _ k', k' = k)).
  { destruct k. simpl. destruct (_ =? _); by apply wp_ret. }
  intros _ k' ->. apply wp_bind, wp_getM, wp_ret. apply HQ.
  rewrite !orb_true_iff, Z.ltb_lt. unfold time_slice. simpl in *. split.
  - intros [[?|?]|?]; [by left| |by right; left]. right. right. by exists c, y.
  - intros [?|[?|(c' & y' & ? & ? & ?)]]; [by left; left|by right|]. left. right. by simplify_eq.
Qed.

Lemma due_prefix (f : item → Z) tick (ts : list Z) (xs : list item) :
  (∀ t, t ∈ ts → f (StateItem t) ≤ tick) → (∀ i, i ∈ xs → tick < f i) →
  itask <$> filter (λ i, f i ≤ tick) ((StateItem <$> ts) ++ xs) = ts.
Proof.
  intros Hts Hxs. rewrite filter_app, (filter_none _ xs), app_nil_r.
  - rewrite filter_all.
    + rewrite <- list_fmap_compose. by apply list_fmap_id.
    + intros i Hi. apply list_elem_of_fmap in Hi as (t & -> & Ht). by apply Hts.
  - intros i Hi ?. specialize (Hxs i Hi). lia.
Qed.

Lemma kinv_from_weaken lo next k v :
  kinv_from lo k v → u32 next →
  (∀ i, in_list v i (pxDelayedTaskList k) → xTickCount k < vals v i ∧ next ≤ vals v i) →
  kinv (k <| xNextTaskUnblockTime := next |>) v.
Proof.
  intros [? ? ? ? ? [] ? ? ?] Hn Hf. by split.
Qed.

Lemma wp_xTaskIncrementTick k v :
  kinv k v → uxSchedulerSuspended k = 0 →
  wp xTaskIncrementTick (λ b k', ∃ v', tick_spec k v b k' v') k.
Proof.
  intros Hinv Hs. unfold xTaskIncrementTick.
  apply wp_bind, wp_getM. rewrite Hs. simpl.
  change (wrap32 (xTickCount k + 1)) with (next_tick k).
  apply (wp_bind_assoc _ (λ _, when next_tick k =? 0 then taskSWITCH_DELAYED_LISTS)).
  apply wp_bind. apply (wp_tick_advance k v); [done|].
  intros lo k1 Hk1 Hticked Hlists Htop.
  destruct (kinv_current k1 v lo Hk1) as (c & y & Hc & Hy).
  destruct Hticked as [Hfr Htick HD HO Hov].
  apply wp_bind, wp_getM, wp_bind.
  destruct (Z.leb_spec (xNextTaskUnblockTime k1) (next_tick k)) as [Hle|Hgt].
  - eapply wp_mono; [by apply (wp_unblock_loop k1 v lo (next_tick k) c y Hc Hy)|].
    intros b k2 (s & top & next & v' & ts & -> & Hinv' & Hu & Hf & Hvals & Hwk & Hsplit & Hdue & Hb).
    assert (due_tasks k v = ts) as Hts.
    { unfold due_tasks. rewrite <- HD, Hsplit. apply due_prefix; [done|].
      intros i Hi%in_list_vitems. rewrite <- Hvals. by apply Hf. }
    assert (kinv (set_ready s top k1 <| xNextTaskUnblockTime := next |>) v') as Hkinv.
    { apply (kinv_from_weaken lo next (set_ready s top k1) v'); [done..|]. simpl. by rewrite Htick. }
    eapply wp_tick_switch; [exact Hkinv|]. intros b' Hb'. exists v'. split; [done| |done| |].
    + split; simpl; [|done..]. etransitivity; [exact Hfr|]. by split.
    + rewrite Hts. by rewrite <- (sb_tcbs _ _ Hfr).
    + rewrite Hb'. simpl. rewrite (sb_yield _ _ Hfr), Hb, Hts.
      apply or_iff_compat_l, or_iff_compat_r.
      split; intros (t & Ht & Hab); exists t; (split; [done|]).
      * destruct Hab as (x & Hx & Hlt). exists c, x, y.
        rewrite <- (sb_current _ _ Hfr), <- (sb_tcbs _ _ Hfr). done.
      * destruct Hab as (c' & x & y' & Hc' & Hy' & Hx & Hlt).
        rewrite <- (sb_current _ _ Hfr) in Hc'. rewrite <- (sb_tcbs _ _ Hfr) in Hy', Hx.
        simplify_eq. by exists x.
  - apply wp_ret.
    assert (∀ i, in_list v i (pxDelayedTaskList k1) → next_tick k < vals v i) as Hf.
    { intros i Hi. pose proof (id_future _ _ _ _ _ _ (ki_delay _ _ _ Hk1) i Hi). lia. }
    assert (due_tasks k v = []) as Hts.
    { unfold due_tasks. rewrite <- HD, filter_none; [done|].
      intros i Hi%in_list_vitems ?. specialize (Hf i Hi). lia. }
    assert (kinv k1 v) as Hkinv.
    { destruct Hk1 as [? ? ? ? ? [? ? ? ? ? Hfu ?] ? ? ?]. split; try done. split; try done.
      intros i Hi. rewrite Htick. split; [by apply Hf|by apply Hfu]. }
    eapply wp_tick_switch; [exact Hkinv|]. intros b' Hb'. exists v. split; [done|done|done| |].
    + rewrite Hts. apply woken_nil.
    + rewrite Hb', (sb_yield _ _ Hfr), Hts. split.
      * intros [?|[?|?]]; [by left|done|by right; right].
      * intros [?|[(t & ?%not_elem_of_nil & _)|?]]; [by left|done|by right; right].
Qed.
