(* ===== verification/TasksSwitch.v ===== *)
(** * The context switch

    [vTaskSwitchContext] gives the processor to a ready task of the highest
    priority, the tasks of that priority in turn. *)
From S2P Require Import Prelude KList KListSpec KListProps Tasks TasksView TasksInv TasksTick.

(** The running task is ready, and no ready task has a higher priority. *)
Definition current_is_top (k : kernel) (v : lview) : Prop :=
  ∃ c x, pxCurrentTCB k = Some c ∧ k_tcbs k !! c = Some x ∧
    in_list v (StateItem c) (ReadyL (uxPriority x)) ∧
    ∀ t p, in_list v (StateItem t) (ReadyL p) → p ≤ uxPriority x.

Definition some_ready (v : lview) : Prop := ∃ t p, in_list v (StateItem t) (ReadyL p).

(** [p] is the highest priority of a ready task. *)
Definition top_priority (v : lview) (p : Z) : Prop :=
  vitems v (ReadyL p) ≠ [] ∧ ∀ q, p < q → vitems v (ReadyL q) = [].

Lemma vitems_ready_range v p : i_lists v → vitems v (ReadyL p) ≠ [] → 0 ≤ p < configMAX_PRIORITIES.
Proof.
  intros Hl Hne. apply (il_ready _ Hl). unfold vitems in Hne.
  destruct (rings v !! ReadyL p); [eauto|done].
Qed.

(** The bitmap finds it. *)
Lemma highest_priority T top v :
  i_lists v → i_ready T top v → some_ready v →
  top_priority v (portGET_HIGHEST_PRIORITY top).
Proof.
  intros Hl Hr (t & p & Hin).
  assert (vitems v (ReadyL p) ≠ []) as Hne.
  { apply in_list_vitems in Hin. intros He. rewrite He in Hin. by apply not_elem_of_nil in Hin. }
  pose proof (vitems_ready_range v p Hl Hne) as Hp.
  destruct Hr as [_ Hn Hb].
  assert (Z.testbit top p = true) as Hbit by (apply Hb; [lia..|done]).
  assert (0 < top) as Hpos.
  { destruct (decide (top = 0)) as [->|]; [by rewrite Z.bits_0 in Hbit|lia]. }
  assert (Z.testbit top (Z.log2 top) = true) as Hlog by by apply Z.bit_log2.
  assert (vitems v (ReadyL (Z.log2 top)) ≠ []) as Htop.
  { apply Hb; [apply Z.log2_nonneg|pose proof (Z.log2_nonneg top); lia|done]. }
  pose proof (vitems_ready_range v _ Hl Htop) as Hr. unfold configMAX_PRIORITIES in Hr.
  assert (portGET_HIGHEST_PRIORITY top = Z.log2 top) as ->.
  { unfold portGET_HIGHEST_PRIORITY, ucPortCountLeadingZeros.
    destruct (Z.eqb_spec top 0); [lia|].
    rewrite wrap32_small; [lia|]. unfold u32, MAX32. lia. }
  split; [done|]. intros q Hq. destruct (vitems v (ReadyL q)) as [|i xs] eqn:Hi; [done|].
  assert (Z.testbit top q = true) as Hbq by (apply Hb; [lia..|by rewrite Hi]).
  by rewrite Z.bits_above_log2 in Hbq by lia.
Qed.

(** The next task of priority [p] in round-robin order. *)
Definition next_of_priority (v : lview) (p t : Z) : Prop :=
  ∃ r, rings v !! ReadyL p = Some r ∧ head (ring_order r) = Some (StateItem t).

Lemma kinv_vidx lo k v l j s (c : Z) :
  kinv_from lo k v → krep s (k_tcbs k) (vidx l j v) → is_Some (k_tcbs k !! c) →
  kinv_from lo (k <| k_lists := s |> <| pxCurrentTCB := Some c |>) (vidx l j v).
Proof.
  intros [Hk Hl Hr Hp Hst Hd Hsu Hcu Hn] Hs Hc. split; simpl; try done.
  - by apply i_lists_vidx.
  - apply (i_ready_other (v:=v)); [done|]. intros p. apply vitems_vidx.
  - by apply i_state_vidx.
  - by apply i_delay_vidx.
  - by apply i_susp_vidx.
Qed.

Record switch_spec (k : kernel) (v : lview) (k' : kernel) (v' : lview) : Prop := {
  ss_inv : kinv k' v';
  ss_top : current_is_top k' v';
  ss_yield : xYieldPendings k' = false;
  ss_next : ∃ p t, top_priority v p ∧ next_of_priority v p t ∧ pxCurrentTCB k' = Some t ∧
    v' = vidx (ReadyL p) (StateItem t) v;
  ss_same : ∀ i l, in_list v' i l ↔ in_list v i l;
  ss_vals : vals v' = vals v;
  ss_frame : ∃ s c, k' = k <| xYieldPendings := false |> <| k_lists := s |> <| pxCurrentTCB := c |>
}.

Lemma wp_vTaskSwitchContext k v :
  kinv k v → uxSchedulerSuspended k = 0 → some_ready v →
  wp vTaskSwitchContext (λ _ k', ∃ v', switch_spec k v k' v') k.
Proof.
  intros Hinv Hs Hsome. pose proof Hinv as [Hk Hl Hr Hp Hst Hd Hsu Hcu Hn].
  pose proof (highest_priority _ _ _ Hl Hr Hsome) as Htop.
  set (p := portGET_HIGHEST_PRIORITY (uxTopReadyPriority k)) in *.
  pose proof (vitems_ready_range v p Hl (proj1 Htop)) as Hpr.
  destruct (list_ready v p Hl Hpr) as [r Hring].
  unfold vTaskSwitchContext. apply wp_bind, wp_getM. rewrite Hs. simpl.
  apply wp_bind, wp_modify. unfold taskSELECT_HIGHEST_PRIORITY_TASK.
  apply wp_bind, wp_getM. simpl. fold p. apply wp_bind, wp_kl.
  eapply ws_len; [exact Hk|done|]. simpl. apply wp_bind, wp_assert.
  { apply Z.ltb_lt. destruct (vitems v (ReadyL p)) as [|? ?] eqn:He; [by destruct Htop|]. simpl. lia. }
  pose proof (rep_ring_wf _ _ _ _ (kr_rep _ _ _ Hk) Hring) as Hwf.
  assert (∃ t xs, ring_order r = StateItem t :: xs) as (t & xs & Hord).
  { assert (vitems v (ReadyL p) = r_items r) as He by (unfold vitems; by rewrite Hring).
    destruct (ring_order r) as [|j xs] eqn:Ho.
    - destruct Htop as [Hne _]. rewrite He in Hne. pose proof (ring_order_perm r Hwf) as Hperm.
      rewrite Ho in Hperm. by apply Permutation_nil in Hperm.
    - assert (in_list v j (ReadyL p)) as Hj.
      { exists r. split; [done|]. rewrite <- (ring_order_perm r Hwf), Ho. by left. }
      apply (il_kind _ Hl) in Hj. destruct j as [t|t]; [by exists t, xs|done]. }
  assert (in_list v (StateItem t) (ReadyL p)) as Hin.
  { exists r. split; [done|]. rewrite <- (ring_order_perm r Hwf), Hord. by left. }
  destruct (in_list_tcb Hk _ _ Hin) as [x Hx]. simpl in Hx.
  pose proof (ir_prio _ _ _ _ Hr _ _ _ Hin Hx) as Hpx.
  apply wp_bind, wp_kl. simpl. eapply ws_next_owner; [exact Hk|exact Hring| |].
  { by rewrite ring_next_order, Hord. }
  intros s Hks. apply wp_modify. simpl.
  assert (kinv (k <| xYieldPendings := false |>) v) as Hinv' by by split.
  exists (vidx (ReadyL p) (StateItem t) v). split.
  - exact (kinv_vidx _ _ _ _ _ s t Hinv' Hks (ex_intro _ x Hx)).
  - exists t, x. split_and!; [done|done| |].
    + apply in_list_vidx. by rewrite Hpx.
    + intros t' q Hq%in_list_vidx%in_list_vitems. rewrite Hpx.
      destruct (decide (p < q)) as [Hlt|]; [|lia]. rewrite (proj2 Htop q Hlt) in Hq.
      by apply not_elem_of_nil in Hq.
  - done.
  - exists p, t. split_and!; [done| |done|done]. exists r. by rewrite Hord.
  - intros i l. apply in_list_vidx.
  - done.
  - exists s, (Some t). reflexivity.
Qed.
