(* ===== verification/TasksBlock.v ===== *)
(** * Blocking, delaying, and suspending the scheduler

    [prvAddCurrentTaskToDelayedList], the delays built on it, and
    [vTaskSuspendAll] / [xTaskResumeAll]. *)
From S2P Require Import Prelude KList KListSpec KListProps Tasks TasksView TasksInv TasksTick.
From S2P Require Import TasksSwitch.

(** ** A TCB changes, but not its priority *)
Lemma kinv_tcb lo k v t x x' :
  kinv_from lo k v → k_tcbs k !! t = Some x → uxPriority x' = uxPriority x →
  0 ≤ uxBasePriority x' ≤ uxPriority x' →
  kinv_from lo (k <| k_tcbs ::= <[t := x']> |>) v.
Proof.
  intros [Hk Hl Hr Hp Hst Hd Hsu Hc Hn] Hx Heq Hb. split; simpl; try done.
  - by eapply krep_tcb.
  - eapply i_ready_tcbs; [exact Hr|]. intros t' p z _ Hz.
    destruct (decide (t = t')) as [->|Hne].
    + rewrite lookup_insert_eq in Hz. simplify_eq. eauto.
    + rewrite lookup_insert_ne in Hz by done. eauto.
  - apply i_prio_tcb; [done|]. pose proof (Hp _ _ Hx). simpl in *. lia.
  - by eapply i_state_tcb.
  - destruct (pxCurrentTCB k) as [c|]; [|by destruct Hc]. simpl in *.
    destruct (decide (t = c)) as [->|?]; [by rewrite lookup_insert_eq|by rewrite lookup_insert_ne].
Qed.

Section hole.
Context (k : kernel) (v : lview).

(** The bitmap is repaired when the task was the last of its ready list. *)
Lemma kinv_leave_ready lo t x s (n : Z) :
  kinv_from lo k v → k_tcbs k !! t = Some x → in_list v (StateItem t) (ReadyL (uxPriority x)) →
  krep s (k_tcbs k) (vrem (StateItem t) v) →
  n = Z.of_nat (length (vitems (vrem (StateItem t) v) (ReadyL (uxPriority x)))) →
  kinv_hole t (-1) lo
    (k <| k_lists := s |> <| uxTopReadyPriority :=
       if n =? 0 then Z.land (uxTopReadyPriority k) (Z.lnot (prio_bit (uxPriority x)))
       else uxTopReadyPriority k |>) (vrem (StateItem t) v).
Proof.
  intros Hinv Hx Hin H1 Hn.
  destruct (kinv_leave lo k v t x s Hinv Hx H1) as [Hk Hl _ Hp Hno Hst Hd Hsu Hc Hcn].
  split; try done. simpl.
  apply (i_ready_block (ki_rep _ _ _ Hinv)); [apply Hinv|done| | |].
  - pose proof (ki_prio _ _ _ Hinv _ _ Hx). simpl in *. lia.
  - intros Hz%Z.eqb_eq. subst n. by destruct (vitems _ _).
  - intros Hz%Z.eqb_neq. left. intros He. rewrite He in Hn. done.
Qed.

(** Giving the task that is out of the lists a wake-up time. *)
Lemma kinv_hole_vval t e lo z s :
  kinv_hole t e lo k v → krep s (k_tcbs k) (vval (StateItem t) z v) →
  kinv_hole t e lo (k <| k_lists := s |>) (vval (StateItem t) z v).
Proof.
  intros [Hk Hl Hr Hp Hno Hst Hd Hsu Hc Hn] H1. split; simpl; try done.
  - by apply (i_lists_vval (v:=v)).
  - by apply (i_ready_other (v:=v)).
  - apply i_delay_vval; [apply Hno..|done].
  - by apply (i_susp_ext _ _ _ Hsu).
Qed.

Lemma kinv_enter_delayed t lo s :
  kinv_hole t (-1) lo k v → lo < vals v (StateItem t) → u32 (vals v (StateItem t)) →
  krep s (k_tcbs k) (vins (pxDelayedTaskList k) (StateItem t) v) →
  kinv_from lo (k <| k_lists := s |> <| xNextTaskUnblockTime :=
    if vals v (StateItem t) <? xNextTaskUnblockTime k then vals v (StateItem t)
    else xNextTaskUnblockTime k |>) (vins (pxDelayedTaskList k) (StateItem t) v).
Proof.
  intros [Hk Hl Hr Hp Hno Hst Hd Hsu Hc Hn] Hlt Hu H1.
  destruct (list_delayed _ _ _ _ _ _ Hl Hd) as [HD HO].
  assert (state_list (pxDelayedTaskList k) = true ∧ (∀ p, pxDelayedTaskList k ≠ ReadyL p) ∧
    pxDelayedTaskList k ≠ PendingReadyL) as (Hkd & Hnr & Hnp).
  { by destruct (id_which _ _ _ _ _ _ Hd) as [[-> _]|[-> _]]. }
  split; simpl; try done.
  - by apply (i_lists_vins Hk).
  - apply (i_ready_other (v:=v)); [done|]. intros p. by apply vitems_vins_ne.
  - intros t' HT. destruct (decide (t' = t)) as [->|Hne].
    + eexists. apply (in_list_vins Hk); [done|by left].
    + destruct (Hst t' Hne HT) as [l' Hin]. exists l'. apply (in_list_vins Hk); [done|by right].
  - by apply (i_delay_now Hk).
  - by apply i_susp_vins.
Qed.
Lemma kinv_enter_overflow t lo s :
  kinv_hole t (-1) lo k v → vals v (StateItem t) < xTickCount k →
  krep s (k_tcbs k) (vins (pxOverflowDelayedTaskList k) (StateItem t) v) →
  kinv_from lo (k <| k_lists := s |>) (vins (pxOverflowDelayedTaskList k) (StateItem t) v).
Proof.
  intros [Hk Hl Hr Hp Hno Hst Hd Hsu Hc Hn] Hlt H1.
  destruct (list_delayed _ _ _ _ _ _ Hl Hd) as [HD HO].
  assert (state_list (pxOverflowDelayedTaskList k) = true ∧
    (∀ p, pxOverflowDelayedTaskList k ≠ ReadyL p) ∧
    pxOverflowDelayedTaskList k ≠ PendingReadyL) as (Hkd & Hnr & Hnp).
  { by destruct (id_which _ _ _ _ _ _ Hd) as [[_ ->]|[_ ->]]. }
  split; simpl; try done.
  - by apply (i_lists_vins Hk).
  - apply (i_ready_other (v:=v)); [done|]. intros p. by apply vitems_vins_ne.
  - intros t' HT. destruct (decide (t' = t)) as [->|Hne].
    + eexists. apply (in_list_vins Hk); [done|by left].
    + destruct (Hst t' Hne HT) as [l' Hin]. exists l'. apply (in_list_vins Hk); [done|by right].
  - by apply (i_delay_later Hk).
  - by apply i_susp_vins.
Qed.
End hole.

(** ** Blocking the running task *)

(** The running task is in the ready list of its priority. *)
Definition current_ready (k : kernel) (v : lview) (c : Z) (y : TCB_t) : Prop :=
  pxCurrentTCB k = Some c ∧ k_tcbs k !! c = Some y ∧ in_list v (StateItem c) (ReadyL (uxPriority y)).

Definition wake_time (k : kernel) (xTicksToWait : Z) : Z := wrap32 (xTickCount k + xTicksToWait).

(** Where the task goes. *)
Definition blocked_view (k : kernel) (c xTicksToWait : Z) (indef : bool) (v : lview) : lview :=
  let v1 := vrem (StateItem c) v in
  if (xTicksToWait =? portMAX_DELAY) && indef then vend SuspendedL (StateItem c) v1
  else
    let w := wake_time k xTicksToWait in
    let v2 := vval (StateItem c) w v1 in
    if w <? xTickCount k then vins (pxOverflowDelayedTaskList k) (StateItem c) v2
    else vins (pxDelayedTaskList k) (StateItem c) v2.

(** The variables that blocking leaves alone. *)
Definition blocked_frame (k : kernel) (c : Z) (y : TCB_t) (k' : kernel) : Prop :=
  ∃ s top next, k' = k <| k_tcbs ::= <[c := y <| ucDelayAborted := false |>]> |> <| k_lists := s |>
    <| uxTopReadyPriority := top |> <| xNextTaskUnblockTime := next |>.

Lemma wp_prvAddCurrentTaskToDelayedList k v c y xTicksToWait indef :
  kinv k v → current_ready k v c y → 0 < xTicksToWait < MAX32 →
  wp (prvAddCurrentTaskToDelayedList xTicksToWait indef) (λ _ k',
    kinv k' (blocked_view k c xTicksToWait indef v) ∧ blocked_frame k c y k') k.
Proof.
  intros Hinv (Hc & Hy & Hin) Ht. unfold prvAddCurrentTaskToDelayedList.
  apply wp_bind, wp_getM, wp_bind. eapply wp_current; [exact Hc|].
  apply wp_bind. eapply wp_tcb_set; [exact Hy|].
  set (y' := y <| ucDelayAborted := false |>).
  assert (kinv (k <| k_tcbs ::= <[c := y']> |>) v) as Hinv1.
  { apply (kinv_tcb _ k v c y y' Hinv Hy); [done|].
    pose proof (ki_prio _ _ _ Hinv _ _ Hy). simpl in *. lia. }
  set (k1 := k <| k_tcbs ::= <[c := y']> |>) in *.
  assert (k_tcbs k1 !! c = Some y') as Hy1 by apply lookup_insert_eq.
  change (uxPriority y) with (uxPriority y') in Hin.
  apply wp_bind, wp_kl. eapply ws_uxListRemove; [apply Hinv1|exact Hin|].
  intros s1 n Hk1 Hn.
  apply wp_bind. eapply wp_tcb_get; [exact Hy1|]. apply wp_bind.
  pose proof (kinv_leave_ready k1 v _ c y' s1 n Hinv1 Hy1 Hin Hk1 Hn) as Hhole.
  set (top := if n =? 0 then Z.land (uxTopReadyPriority k1) (Z.lnot (prio_bit (uxPriority y')))
              else uxTopReadyPriority k1) in Hhole.
  apply (wp_mono _ (λ _ k2, k2 = k1 <| k_lists := s1 |> <| uxTopReadyPriority := top |>)).
  { unfold top. destruct (n =? 0); [by apply wp_modify|]. by apply wp_ret. }
  intros [] k2 ->. unfold blocked_view.
  destruct ((xTicksToWait =? portMAX_DELAY) && indef) eqn:Hindef.
  { apply wp_kl. simpl. eapply ws_listINSERT_END; [exact Hk1|apply Hhole|simpl; eauto| |].
    - apply list_fixed; [apply Hhole|set_solver].
    - intros s2 Hk2. split.
      + refine (kinv_enter_other _ _ _ c SuspendedL s2 Hhole _ Hk2). by left.
      + exists s2, top, (xNextTaskUnblockTime k). reflexivity. }
  change (wrap32 (xTickCount k + xTicksToWait)) with (wake_time k xTicksToWait).
  set (w := wake_time k xTicksToWait).
  apply wp_bind, wp_kl. simpl. eapply ws_setval; [exact Hk1|simpl; eauto|apply wrap32_u32|].
  intros s2 Hk2. pose proof (kinv_hole_vval _ _ _ _ _ w s2 Hhole Hk2) as Hhole2.
  destruct (list_delayed _ _ _ _ _ _ (kh_lists _ _ _ _ _ Hhole2) (kh_delay _ _ _ _ _ Hhole2))
    as [HD HO].
  assert (vals (vval (StateItem c) w (vrem (StateItem c) v)) (StateItem c) = w) as Hw.
  { apply fn_lookup_insert. }
  destruct (Z.ltb_spec w (xTickCount k)) as [Hlt|Hge].
  - apply wp_kl. simpl. eapply ws_vListInsert; [exact Hk2|apply Hhole2|simpl; eauto|exact HO|].
    intros s3 Hk3. split.
    + refine (kinv_enter_overflow _ _ c _ s3 Hhole2 _ Hk3). by rewrite Hw.
    + exists s3, top, (xNextTaskUnblockTime k). reflexivity.
  - apply wp_bind, wp_kl. simpl. eapply ws_vListInsert; [exact Hk2|apply Hhole2|simpl; eauto|exact HD|].
    intros s3 Hk3. apply wp_bind, wp_getM.
    assert (xTickCount k < w) as Hltw.
    { pose proof (id_tick _ _ _ _ _ _ (ki_delay _ _ _ Hinv)) as Hu.
      unfold w, wake_time, wrap32, u32, MAX32 in *. Z.to_euclidean_division_equations. lia. }
    pose proof (kinv_enter_delayed _ _ c _ s3 Hhole2) as Hend. rewrite Hw in Hend.
    specialize (Hend Hltw (wrap32_u32 _) Hk3). simpl in Hend |- *.
    destruct (w <? xNextTaskUnblockTime k).
    + apply wp_modify. split; [exact Hend|]. exists s3, top, w. reflexivity.
    + apply wp_ret. split; [|exists s3, top, (xNextTaskUnblockTime k); reflexivity].
      exact Hend.
Qed.

(** ** No better task waits *)

(** No ready task has a higher priority than the running one. *)
Definition no_better (k : kernel) (v : lview) : Prop :=
  ∀ t p c x, in_list v (StateItem t) (ReadyL p) → pxCurrentTCB k = Some c →
    k_tcbs k !! c = Some x → p ≤ uxPriority x.
(** Or else a context switch is pending: in the interrupt controller, or in
    [xYieldPendings] for the next tick or [xTaskResumeAll] to request. *)
Definition sched_ok (k : kernel) (v : lview) : Prop :=
  pendsv k = true ∨ xYieldPendings k = true ∨ no_better k v.

Lemma no_better_woken k k' v v' ts :
  no_better k v → woken (k_tcbs k) ts v v' →
  k_tcbs k' = k_tcbs k → pxCurrentTCB k' = pxCurrentTCB k →
  (∀ t, t ∈ ts → ¬ prio_above_current k t) → no_better k' v'.
Proof.
  intros Hmax Hwk HT Hcur Hts t p c x Hin Hc Hx. rewrite HT in Hx. rewrite Hcur in Hc.
  apply Hwk in Hin. simpl in Hin. case_decide as Hd; [|by eapply Hmax].
  destruct Hin as [_ (x' & Hx' & [= ->])].
  destruct (decide (uxPriority x < uxPriority x')) as [Hlt|]; [|lia].
  destruct (Hts t Hd). by exists c, x', x.
Qed.
Lemma no_better_sub k k' v v' :
  no_better k v →
  (∀ t p, in_list v' (StateItem t) (ReadyL p) → in_list v (StateItem t) (ReadyL p)) →
  (uxPriority <$> (pxCurrentTCB k' ≫= λ c, k_tcbs k' !! c)) =
  (uxPriority <$> (pxCurrentTCB k ≫= λ c, k_tcbs k !! c)) → no_better k' v'.
Proof.
  intros Hmax Hin Hcur t p c x Ht Hc Hx.
  rewrite Hc in Hcur. simpl in Hcur. rewrite Hx in Hcur. simpl in Hcur.
  destruct (pxCurrentTCB k) as [c'|] eqn:Hc'; [|done]. simpl in Hcur.
  destruct (k_tcbs k !! c') as [x'|] eqn:Hx'; [|done]. simpl in Hcur. injection Hcur as ->.
  by eapply Hmax; [apply Hin|..].
Qed.
Lemma current_is_top_no_better k v : current_is_top k v → no_better k v.
Proof. intros (c & x & Hc & Hx & _ & Hmax) t p c' x' Ht ? ?. simplify_eq. by eapply Hmax. Qed.
