(* ===== verification/TasksResume.v ===== *)
(** * Resuming the scheduler

    [xTaskResumeAll] readies every task that was readied while the scheduler
    was suspended, then processes the ticks that were held back. *)
From S2P Require Import Prelude KList KListSpec KListProps Tasks TasksView TasksInv TasksTick.
From S2P Require Import TasksSwitch TasksBlock.

(** ** The tasks that are pending *)

(** The state of the kernel, seen with the scheduler still suspended. *)
Definition as_suspended (k : kernel) : kernel := k <| uxSchedulerSuspended := 1 |>.

Definition set_pending (s : store) (top : Z) (b : bool) (k : kernel) : kernel :=
  k <| k_lists := s |> <| uxTopReadyPriority := top |> <| xYieldPendings := b |>.

Section pending.
Context (k : kernel) (v0 : lview) (lo : Z).
Notation T := (k_tcbs k).

Record moving (ts : list Z) (o : option Z) (k' : kernel) (v : lview) : Prop := {
  mv_state : ∃ s top b, k' = set_pending s top b k ∧
    (b = true ↔ xYieldPendings k = true ∨ ∃ t, t ∈ ts ∧ prio_above_current k t);
  mv_inv : kinv_from lo (as_suspended k') v;
  mv_vals : vals v = vals v0;
  mv_split : vitems v0 PendingReadyL = (EventItem <$> ts) ++ vitems v PendingReadyL;
  mv_last : o = last ts;
  mv_woken : woken T ts v0 v
}.

Lemma event_item_cons v l i xs :
  i_lists v → vitems v l = i :: xs → state_list l = false → i = EventItem (itask i).
Proof.
  intros Hl Hi Hkd. assert (in_list v i l) as Hin by (apply in_list_vitems; rewrite Hi; by left).
  apply (il_kind _ Hl) in Hin. destruct i; [|done]. by rewrite Hkd in Hin.
Qed.

(** Readying a task whose event item is taken out first. *)
Definition vwake_event (t p : Z) (v : lview) : lview :=
  vend (ReadyL p) (StateItem t) (vrem (StateItem t) (vrem (EventItem t) v)).

Lemma vwake_event_woken s s1 s2 TT v t x :
  krep s TT v → krep s1 TT (vrem (EventItem t) v) →
  krep s2 TT (vrem (StateItem t) (vrem (EventItem t) v)) →
  TT !! t = Some x → is_Some (rings v !! ReadyL (uxPriority x)) →
  woken TT [t] v (vwake_event t (uxPriority x) v).
Proof.
  intros Hk Hk1 Hk2 Hx Hl i l. unfold vwake_event.
  rewrite (in_list_vend Hk2) by (by apply vrem_list, vrem_list).
  rewrite (in_list_vrem Hk1), (in_list_vrem Hk). destruct (decide (itask i ∈ [t])) as [Hin|Hni].
  - apply list_elem_of_singleton in Hin. destruct i as [t'|t']; simpl in *; subst t'; split.
    + intros [[_ ->]|[_ ?]]; [|done]. split; [done|]. eauto.
    + intros [_ (z & Hz & ->)]. left. split; [done|]. congruence.
    + intros [[? _]|[[_ ?] _]]; done.
    + intros [? _]; done.
  - rewrite list_elem_of_singleton in Hni. split.
    + intros [[-> _]|[[? _] _]]; [done|done].
    + intros ?. right. split_and!; [done|by intros ->|by intros ->].
Qed.

Lemma vitems_vrem_head s TT v l i xs :
  krep s TT v → vitems v l = i :: xs → vitems (vrem i v) l = xs.
Proof.
  intros Hk Hi. destruct (vitems_cons s TT v Hk l _ xs Hi) as (r & Hr & Hri & _).
  pose proof (krep_nodup Hk l r Hr) as Hnd. rewrite Hri in Hnd.
  apply NoDup_cons in Hnd as [Hni _].
  rewrite (vitems_vrem Hk), Hi, filter_cons_False by auto.
  apply filter_all. by intros j Hj ->.
Qed.

Lemma wp_move_pending_one ts o k' v :
  moving ts o k' v →
  wp (move_pending_one o) (λ r k'', match r with
    | inr o' => o' = o ∧ k'' = k' ∧ vitems v PendingReadyL = []
    | inl o' => ∃ t v', moving (ts ++ [t]) o' k'' v' ∧
        (length (vitems v' PendingReadyL) < length (vitems v PendingReadyL))%nat
    end) k'.
Proof.
  intros [(s & top & b & -> & Hb) Hinv Hvals Hsplit Hlast Hwk].
  pose proof Hinv as [Hk Hl Hr Hp Hst Hd Hsu Hcu Hn]. simpl in *.
  assert (is_Some (rings v !! PendingReadyL)) as HL by (apply list_fixed; [done|set_solver]).
  destruct (kinv_current _ _ _ Hinv) as (c & y & Hc & Hy). simpl in Hc, Hy.
  unfold move_pending_one. apply wp_bind, wp_kl. simpl.
  eapply ws_is_empty; [exact Hk|done|]. case_bool_decide as He.
  { apply wp_ret. split_and!; [done|by destruct k|done]. }
  destruct (vitems v PendingReadyL) as [|i xs] eqn:Hi; [done|]. clear He.
  pose proof (event_item_cons v _ i xs Hl Hi eq_refl) as Hit.
  apply wp_bind, wp_kl. simpl. eapply ws_head_owner; [exact Hk|exact Hi|].
  set (t := itask i) in *. clearbody t. subst i.
  destruct (vitems_cons s T v Hk _ _ xs Hi) as (_ & _ & _ & [x Hx]). simpl in Hx.
  assert (in_list v (EventItem t) PendingReadyL) as Hin.
  { apply in_list_vitems; rewrite Hi; by left. }
  apply wp_bind, wp_kl. simpl. eapply ws_remove; [exact Hk|exact Hin|]. intros s1 Hk1.
  pose proof (kinv_leave_event _ _ _ t s1 Hinv Hk1) as Hinv1.
  destruct (ki_state _ _ _ Hinv1 t (ex_intro _ x Hx)) as [l Hinl].
  apply wp_bind, wp_kl. simpl. eapply ws_remove; [exact Hk1|exact Hinl|]. intros s2 Hk2.
  pose proof (kinv_leave _ _ _ t x s2 Hinv1 Hx Hk2) as Hhole.
  assert (is_Some (rings (vrem (StateItem t) (vrem (EventItem t) v)) !! ReadyL (uxPriority x))) as HR.
  { apply list_ready; [apply Hhole|]. pose proof (Hp _ _ Hx); simpl in *; lia. }
  apply wp_bind. eapply (wp_prvAddTaskToReadyList _ _ t x); [exact Hk2|exact Hx|apply Hhole|done|].
  simpl. intros s3 Hk3.
  pose proof (kinv_enter_ready _ _ _ t x s3 Hhole Hx Hk3) as Hinv3.
  apply wp_bind. eapply (wp_preempts _ t x c y); [exact Hx|exact Hc|exact Hy|].
  apply wp_bind.
  set (b' := if uxPriority y <? uxPriority x then true else b).
  apply (wp_mono _ (λ _ k2, k2 = set_pending s3 (Z.lor top (prio_bit (uxPriority x))) b' k)).
  { unfold b'. destruct (uxPriority y <? uxPriority x); [by apply wp_modify|by apply wp_ret]. }
  intros [] k2 ->. apply wp_ret. exists t, (vwake_event t (uxPriority x) v).
  assert (vitems (vwake_event t (uxPriority x) v) PendingReadyL = xs) as Hxs.
  { unfold vwake_event. rewrite vitems_vend_ne by done.
    rewrite (vitems_vrem_ne Hk1).
    - by apply (vitems_vrem_head s T).
    - intros [Hbad _]%(in_list_vrem Hk). by apply (il_kind _ Hl) in Hbad. }
  split; [|rewrite Hxs; simpl; lia].
  split.
  - exists s3, (Z.lor top (prio_bit (uxPriority x))), b'. split; [done|].
    unfold b'. setoid_rewrite elem_of_app.
    assert (uxPriority y <? uxPriority x = true ↔ prio_above_current k t) as Hab.
    { rewrite Z.ltb_lt. unfold prio_above_current. split; [by exists c, x, y|].
      intros (c' & x' & y' & ? & ? & ? & ?). by simplify_eq. }
    destruct (uxPriority y <? uxPriority x).
    + split; [|done]. intros _. right. exists t. split; [right; by apply list_elem_of_singleton|by apply Hab].
    + rewrite Hb. split; [intros [?|(t' & ? & ?)]; eauto|].
      intros [?|(t' & [?|Ht'] & ?)]; [by left|by right; exists t'|].
      apply list_elem_of_singleton in Ht' as ->. by apply Hab in H.
  - by destruct Hinv3; split.
  - done.
  - rewrite Hxs, Hsplit, fmap_app, <- app_assoc. done.
  - by rewrite last_snoc.
  - eapply woken_snoc; [exact Hwk|]. apply (vwake_event_woken s s1 s2); try done.
    apply list_ready; [done|]. pose proof (Hp _ _ Hx); simpl in *; lia.
Qed.

Lemma wp_move_pending :
  kinv_from lo (as_suspended k) v0 →
  wp move_pending (λ o k', ∃ s top b v' ts,
    k' = set_pending s top b k ∧ kinv_from lo (as_suspended k') v' ∧
    vals v' = vals v0 ∧ woken T ts v0 v' ∧ vitems v' PendingReadyL = [] ∧
    vitems v0 PendingReadyL = EventItem <$> ts ∧ o = last ts ∧
    (b = true ↔ xYieldPendings k = true ∨ ∃ t, t ∈ ts ∧ prio_above_current k t)) k.
Proof.
  intros Hinv. pose proof Hinv as [Hk Hl Hr Hp Hst Hd Hsu Hcu Hn]. simpl in *.
  assert (is_Some (rings v0 !! PendingReadyL)) as HL by (apply list_fixed; [done|set_solver]).
  unfold move_pending. apply wp_bind, wp_kl. eapply ws_len; [exact Hk|done|].
  apply (wp_iter (λ n o k', ∃ ts v, n = length (vitems v PendingReadyL) ∧ moving ts o k' v)
    _ _ _ (length (vitems v0 PendingReadyL))); [| |lia].
  - intros n o k' (ts & v & -> & Hub). eapply wp_mono; [by apply wp_move_pending_one|].
    intros [o'|o'] k''.
    + intros (t & v' & Hub' & Hlt). eexists. split; [exact Hlt|]. by eauto.
    + intros (-> & -> & He).
      destruct Hub as [(s & top & b & -> & Hb) Hinv' Hvals Hsplit Hlast Hwk].
      exists s, top, b, v, ts. split_and!; try done. by rewrite Hsplit, He, app_nil_r.
  - exists [], v0. split; [done|]. split; try done.
    exists (k_lists k), (uxTopReadyPriority k), (xYieldPendings k). split; [by destruct k|].
    split; [by left|]. by intros [?|(t & ?%not_elem_of_nil & _)].
Qed.
End pending.

(** ** The ticks that were held back *)

(** [n] ticks in a row, as [xTaskResumeAll] processes them. *)
Inductive ticks : nat → kernel → lview → kernel → lview → Prop :=
| ticks_0 k v : ticks 0 k v k v
| ticks_S n k v b k1 v1 k2 v2 :
    tick_spec k v b k1 v1 →
    ticks n (if (b : bool) then k1 <| xYieldPendings := true |> else k1) v1 k2 v2 →
    ticks (S n) k v k2 v2.

Lemma kinv_yield lo k v b : kinv_from lo k v → kinv_from lo (k <| xYieldPendings := b |>) v.
Proof. intros []. by split. Qed.
Lemma kinv_pendsv lo k v b : kinv_from lo k v → kinv_from lo (k <| pendsv := b |>) v.
Proof. intros []. by split. Qed.
Lemma kinv_pended lo k v n : kinv_from lo k v → u32 n → kinv_from lo (k <| xPendedTicks := n |>) v.
Proof. intros [? ? ? ? ? ? [] ? ?] Hn. by split. Qed.

Lemma wp_pended_ticks n : ∀ k v,
  kinv k v → uxSchedulerSuspended k = 0 →
  wp (pended_ticks n) (λ _ k', ∃ v', ticks n k v k' v' ∧ kinv k' v') k.
Proof.
  induction n as [|n IH]; intros k v Hinv Hs; simpl.
  - apply wp_ret. exists v. split; [constructor|done].
  - apply wp_bind. eapply wp_mono; [by apply wp_xTaskIncrementTick|].
    intros b k1 (v1 & Hspec). apply wp_bind.
    set (k1' := if b then k1 <| xYieldPendings := true |> else k1).
    apply (wp_mono _ (λ _ k2, k2 = k1')).
    { unfold k1'. destruct b; [by apply wp_modify|by apply wp_ret]. }
    intros [] k2 ->. pose proof (ts_inv _ _ _ _ _ Hspec) as Hinv1.
    pose proof (tk_frame _ _ (ts_ticked _ _ _ _ _ Hspec)) as Hfr.
    eapply wp_mono; [apply (IH k1' v1)|].
    + unfold k1'. destruct b; [by apply kinv_yield|done].
    + unfold k1'. destruct b; simpl; by rewrite (sb_suspended _ _ Hfr).
    + intros [] k2 (v2 & Ht & Hinv2). exists v2. split; [|done]. by eapply ticks_S.
Qed.

(** What a row of ticks keeps. *)
Record ticks_frame (k k' : kernel) : Prop := {
  tf_tcbs : k_tcbs k' = k_tcbs k;
  tf_current : pxCurrentTCB k' = pxCurrentTCB k;
  tf_suspended : uxSchedulerSuspended k' = uxSchedulerSuspended k;
  tf_pended : xPendedTicks k' = xPendedTicks k;
  tf_running : xSchedulerRunning k' = xSchedulerRunning k;
  tf_pendsv : pendsv k' = pendsv k;
  tf_deleted : uxDeletedTasksWaitingCleanUp k' = uxDeletedTasksWaitingCleanUp k;
  tf_number : uxCurrentNumberOfTasks k' = uxCurrentNumberOfTasks k;
  tf_yield : xYieldPendings k = true → xYieldPendings k' = true
}.
Lemma ticks_frames n k v k' v' : ticks n k v k' v' → ticks_frame k k'.
Proof.
  induction 1 as [k v|n k v b k1 v1 k2 v2 Hs Ht IH]; [by split|].
  destruct (tk_frame _ _ (ts_ticked _ _ _ _ _ Hs)), IH.
  destruct b; simpl in *; split; try congruence; intros Hy; apply tf_yield0; congruence.
Qed.
Lemma ticks_count n k v k' v' :
  ticks n k v k' v' → u32 (xTickCount k) → xTickCount k' = wrap32 (xTickCount k + Z.of_nat n).
Proof.
  induction 1 as [k v|n k v b k1 v1 k2 v2 Hs Ht IH]; intros Hu.
  - rewrite Z.add_0_r. symmetry. by apply wrap32_small.
  - pose proof (tk_tick _ _ (ts_ticked _ _ _ _ _ Hs)) as Htk.
    assert (xTickCount (if b then k1 <| xYieldPendings := true |> else k1) = next_tick k) as Hk1.
    { by destruct b. }
    rewrite Hk1 in IH. rewrite IH by apply wrap32_u32. unfold next_tick, wrap32.
    rewrite Zplus_mod_idemp_l. f_equal. lia.
Qed.
(** A better task sets [xYieldPendings]. *)
Lemma ticks_sched n k v k' v' :
  ticks n k v k' v' → xYieldPendings k' = false → no_better k v → no_better k' v'.
Proof.
  induction 1 as [k v|n k v b k1 v1 k2 v2 Hs Ht IH]; [done|]. intros Hy Htop.
  pose proof (ticks_frames _ _ _ _ _ Ht) as Hfr.
  destruct b; simpl in *.
  { pose proof (tf_yield _ _ Hfr eq_refl). congruence. }
  apply IH; [done|]. pose proof (tk_frame _ _ (ts_ticked _ _ _ _ _ Hs)) as Hsame.
  eapply no_better_woken; [exact Htop|exact (ts_woken _ _ _ _ _ Hs)|apply Hsame..|].
  intros t Hin Hab. enough (false = true) by done.
  apply (ts_switch _ _ _ _ _ Hs). right. left. by exists t.
Qed.
Lemma ticks_ready n k v k' v' t p :
  ticks n k v k' v' → kinv k v →
  in_list v (StateItem t) (ReadyL p) → in_list v' (StateItem t) (ReadyL p).
Proof.
  intros Ht. induction Ht as [k v|n k v b k1 v1 k2 v2 Hs Ht IH]; [done|]. intros Hinv Hin.
  pose proof (ts_inv _ _ _ _ _ Hs) as Hinv1.
  apply IH; [destruct b; [by apply kinv_yield|done]|].
  apply (ts_woken _ _ _ _ _ Hs). simpl. case_decide; [|done]. split; [done|].
  destruct (in_list_tcb (ki_rep _ _ _ Hinv) _ _ Hin) as [x Hx]. exists x. split; [done|].
  f_equal. symmetry. by eapply (ir_prio _ _ _ _ (ki_ready _ _ _ Hinv)).
Qed.

(** ** [xTaskResumeAll] *)

(** What is changed while the pending tasks are moved. *)
Definition set_resumed (s : store) (top : Z) (b : bool) (next : Z) (k : kernel) : kernel :=
  set_pending s top b (k <| uxSchedulerSuspended := 0 |>) <| xNextTaskUnblockTime := next |>.

(** The outermost [xTaskResumeAll]: the pending tasks [ts] are readied, giving
    [k1], then the pended ticks are processed, giving [k2], then a switch is
    requested if one is needed. *)
Record resume_spec (k : kernel) (v : lview) (b : bool) (k' : kernel) (v' : lview)
    (ts : list Z) (k1 : kernel) (v1 : lview) (k2 : kernel) : Prop := {
  rs_inv : kinv k' v';
  rs_pending : vitems v PendingReadyL = EventItem <$> ts;
  rs_woken : woken (k_tcbs k) ts v v1;
  rs_vals : vals v1 = vals v;
  rs_inv1 : kinv k1 v1;
  rs_state1 : ∃ s top next y, k1 = set_resumed s top y next k ∧
    (y = true ↔ xYieldPendings k = true ∨ ∃ t, t ∈ ts ∧ prio_above_current k t);
  rs_ticks : ticks (Z.to_nat (xPendedTicks k)) k1 v1 k2 v';
  rs_yield : b = xYieldPendings k2;
  rs_final : k' = if b then k2 <| xPendedTicks := 0 |> <| pendsv := true |>
                  else k2 <| xPendedTicks := 0 |>
}.

Lemma kinv_resumed k v :
  kinv (as_suspended k) v → uxSchedulerSuspended k = 0 → vitems v PendingReadyL = [] → kinv k v.
Proof. intros [? ? ? ? ? ? [] ? ?] Hs He. split; try done. by rewrite Hs. Qed.

Lemma set_pended_id k : xPendedTicks k = 0 → k <| xPendedTicks := 0 |> = k.
Proof. destruct k. simpl. by intros ->. Qed.

Lemma wp_xTaskResumeAll k v :
  kinv k v → uxSchedulerSuspended k = 1 →
  wp xTaskResumeAll (λ b k', ∃ v' ts k1 v1 k2, resume_spec k v b k' v' ts k1 v1 k2) k.
Proof.
  intros Hinv Hs. pose proof Hinv as [Hk Hl Hr Hp Hst Hd Hsu Hcu Hn].
  unfold xTaskResumeAll, critical. apply wp_bind, wp_getM, wp_bind.
  apply wp_assert; [by rewrite Hs|]. apply wp_bind, wp_modify, wp_bind, wp_getM. simpl.
  rewrite Hs. change (wrap32 (1 - 1)) with 0. rewrite (proj2 (Z.ltb_lt _ _) Hn). simpl.
  set (k0 := k <| uxSchedulerSuspended := 0 |>).
  assert (kinv_from (xTickCount k0) (as_suspended k0) v) as Hinv0.
  { split; try done. simpl. by rewrite <- Hs. }
  assert (k <| uxSchedulerSuspended ::= λ n, wrap32 (n - 1) |> = k0) as Hk0.
  { unfold k0, set_field. simpl. by rewrite Hs. }
  rewrite Hk0. apply wp_bind. eapply wp_mono; [by apply (wp_move_pending k0 v _ Hinv0)|].
  intros o k1 (s & top & y & v1 & ts & -> & Hinv1 & Hvals & Hwk & He & Hpend & Hlast & Hy).
  assert (kinv (set_pending s top y k0) v1) as Hinv1' by by apply kinv_resumed.
  assert (∃ next, wp (when bool_decide (is_Some o) then prvResetNextTaskUnblockTime)
    (λ _ k1', k1' = set_resumed s top y next k) (set_pending s top y k0) ∧
    kinv (set_resumed s top y next k) v1) as (next & Hreset & Hinv1'').
  { destruct (bool_decide (is_Some o)).
    - destruct (list_delayed _ _ _ _ _ _ (ki_lists _ _ _ Hinv1') (ki_delay _ _ _ Hinv1')) as [HD _].
      pose proof (ki_delay _ _ _ Hinv1') as Hd1.
      set (P := λ next, u32 next ∧ ∀ i, in_list v1 i (pxDelayedTaskList k) → next ≤ vals v1 i).
      assert (wp prvResetNextTaskUnblockTime (λ _ k1', ∃ next, P next ∧
        k1' = set_resumed s top y next k) (set_pending s top y k0)) as Hwp.
      { eapply wp_prvResetNextTaskUnblockTime; [apply Hinv1'|done|exact HD|apply Hd1|].
        intros next Hu Hle. exists next. by split. }
      destruct (wp_ok _ _ _ Hwp) as (a & k1' & Heq & next & [Hu Hle] & ->).
      exists next. split; [by apply (wp_intro _ _ _ a _ Heq)|].
      destruct Hinv1' as [? ? ? ? ? [? ? ? ? ? Hf ?] ? ? ?]. split; try done. split; try done.
      intros i Hi. split; [by apply Hf|by apply Hle].
    - exists (xNextTaskUnblockTime k). split; [apply wp_ret; by destruct k|].
      by destruct Hinv1'; split. }
  apply wp_bind. eapply wp_mono; [exact Hreset|]. intros [] k1' ->.
  apply wp_bind, wp_getM, wp_bind.
  set (k1 := set_resumed s top y next k) in *.
  set (n := Z.to_nat (xPendedTicks k)).
  apply (wp_mono _ (λ _ k', ∃ k2 v2, k' = k2 <| xPendedTicks := 0 |> ∧ ticks n k1 v1 k2 v2 ∧
    kinv k' v2)).
  { change (xPendedTicks k1) with (xPendedTicks k).
    pose proof (is_pended _ _ _ Hsu) as Hpd.
    destruct (Z.ltb_spec 0 (xPendedTicks k)).
    - apply wp_bind. eapply wp_mono; [by apply (wp_pended_ticks n k1 v1)|].
      intros [] k2 (v2 & Ht & Hinv2). apply wp_modify. exists k2, v2. split_and!; [done..|].
      by apply kinv_pended.
    - apply wp_ret. assert (xPendedTicks k = 0) as Hz by (unfold u32 in Hpd; lia).
      exists k1, v1. unfold n. rewrite Hz. by split_and!; [rewrite (set_pended_id k1)|apply ticks_0|]. }
  intros [] k3 (k2 & v2 & -> & Ht & Hinv2). apply wp_bind, wp_getM. simpl.
  assert (∃ s top next y, k1 = set_resumed s top y next k ∧
    (y = true ↔ xYieldPendings k = true ∨ ∃ t, t ∈ ts ∧ prio_above_current k t)) as Hst1.
  { exists s, top, next, y. split; [done|exact Hy]. }
  destruct (xYieldPendings k2) eqn:Hy2.
  - apply wp_bind, wp_portYIELD, wp_ret. exists v2, ts, k1, v1, k2.
    split; try done. by apply kinv_pendsv.
  - apply wp_ret. exists v2, ts, k1, v1, k2. by split.
Qed.

(** Nested: only the counter changes. *)
Lemma wp_xTaskResumeAll_nested k v :
  kinv k v → 1 < uxSchedulerSuspended k →
  wp xTaskResumeAll (λ b k', b = false ∧
    k' = k <| uxSchedulerSuspended := uxSchedulerSuspended k - 1 |> ∧ kinv k' v) k.
Proof.
  intros Hinv Hs. pose proof (is_u32 _ _ _ (ki_susp _ _ _ Hinv)) as Hu.
  assert (wrap32 (uxSchedulerSuspended k - 1) = uxSchedulerSuspended k - 1) as Hw.
  { apply wrap32_small. unfold u32 in *. lia. }
  unfold xTaskResumeAll, critical. apply wp_bind, wp_getM, wp_bind.
  apply wp_assert; [by destruct (Z.eqb_spec (uxSchedulerSuspended k) 0); [lia|]|].
  apply wp_bind, wp_modify, wp_bind, wp_getM. simpl. rewrite Hw.
  destruct (Z.eqb_spec (uxSchedulerSuspended k - 1) 0) as [?|Hne]; [lia|]. simpl. apply wp_ret.
  assert (k <| uxSchedulerSuspended ::= λ n, wrap32 (n - 1) |> =
    k <| uxSchedulerSuspended := uxSchedulerSuspended k - 1 |>) as ->.
  { unfold set_field. simpl. by rewrite Hw. }
  split_and!; [done..|].
  destruct Hinv as [? ? ? ? ? ? [? ? Hz] ? ?]. split; try done. split; [|done|].
  - simpl. unfold u32 in *. lia.
  - simpl. intros. lia.
Qed.
