(* ===== verification/TasksDelay.v ===== *)
(** * Delays last as long as they should

    A task that [prvAddCurrentTaskToDelayedList] delays for [n] ticks is readied
    by the [n]-th tick that follows and not before, whether or not the 32-bit
    tick counter wraps meanwhile. *)
From S2P Require Import Prelude KList KListSpec KListProps Tasks TasksView TasksInv TasksTick.
From S2P Require Import TasksSwitch TasksBlock TasksResume.

(** [t] is delayed with [d] ticks to go. *)
Definition delayed_for (k : kernel) (v : lview) (t d : Z) : Prop :=
  0 < d ∧
  ((in_list v (StateItem t) (pxDelayedTaskList k) ∧ vals v (StateItem t) = xTickCount k + d) ∨
   (in_list v (StateItem t) (pxOverflowDelayedTaskList k) ∧
    vals v (StateItem t) + MAX32 = xTickCount k + d)).

Lemma due_tasks_iff k v t :
  i_lists v → (next_delayed k = DelayedL1 ∨ next_delayed k = DelayedL2) →
  t ∈ due_tasks k v ↔
  in_list v (StateItem t) (next_delayed k) ∧ vals v (StateItem t) ≤ next_tick k.
Proof.
  intros Hl HD. unfold due_tasks. rewrite list_elem_of_fmap. split.
  - intros (i & -> & [Hle Hi]%list_elem_of_filter). apply in_list_vitems in Hi.
    assert (i = StateItem (itask i)) as <-; [|done].
    apply (il_kind _ Hl) in Hi. destruct i; [done|]. destruct HD as [HD|HD]; by rewrite HD in Hi.
  - intros [Hi Hle]. exists (StateItem t). split; [done|]. apply list_elem_of_filter.
    split; [done|]. by apply in_list_vitems.
Qed.

Lemma next_delayed_which k v lo :
  kinv_from lo k v →
  (next_delayed k = DelayedL1 ∧ next_overflow k = DelayedL2) ∨
  (next_delayed k = DelayedL2 ∧ next_overflow k = DelayedL1).
Proof.
  intros Hinv. unfold next_delayed, next_overflow.
  destruct (id_which _ _ _ _ _ _ (ki_delay _ _ _ Hinv)) as [[-> ->]|[-> ->]];
    destruct (next_tick k =? 0); auto.
Qed.

Lemma tick_not_due k v b k1 v1 t l :
  tick_spec k v b k1 v1 → t ∉ due_tasks k v →
  in_list v (StateItem t) l → in_list v1 (StateItem t) l.
Proof.
  intros Hs Hn Hin. apply (ts_woken _ _ _ _ _ Hs). simpl. by rewrite decide_False.
Qed.

(** Whether the next tick wraps the counter. *)
Lemma next_tick_cases k :
  u32 (xTickCount k) →
  (next_tick k = xTickCount k + 1 ∧ next_delayed k = pxDelayedTaskList k ∧
   next_overflow k = pxOverflowDelayedTaskList k ∧ xTickCount k + 1 < MAX32) ∨
  (next_tick k = 0 ∧ next_delayed k = pxOverflowDelayedTaskList k ∧
   next_overflow k = pxDelayedTaskList k ∧ xTickCount k + 1 = MAX32).
Proof.
  unfold next_delayed, next_overflow, u32. intros Hu.
  destruct (decide (xTickCount k + 1 < MAX32)) as [Hlt|Hge].
  - assert (next_tick k = xTickCount k + 1) as -> by (apply wrap32_small; unfold u32; lia).
    destruct (Z.eqb_spec (xTickCount k + 1) 0); [lia|]. auto.
  - assert (xTickCount k + 1 = MAX32) as Heq by lia.
    assert (next_tick k = 0) as ->.
    { unfold next_tick. rewrite Heq. unfold wrap32. by apply Z_mod_same_full. }
    auto.
Qed.

(** The two delayed lists have no item in common. *)
Lemma delayed_lists_disjoint k v lo i :
  kinv_from lo k v → in_list v i (pxDelayedTaskList k) →
  in_list v i (pxOverflowDelayedTaskList k) → False.
Proof.
  intros Hinv H1 H2. pose proof (in_list_unique (ki_rep _ _ _ Hinv) _ _ _ H1 H2) as Heq.
  destruct (id_which _ _ _ _ _ _ (ki_delay _ _ _ Hinv)) as [[HD HO]|[HD HO]];
    rewrite HD, HO in Heq; done.
Qed.

(** Due at the next tick. *)
Lemma delayed_due k v t x d :
  kinv k v → delayed_for k v t d → k_tcbs k !! t = Some x → t ∈ due_tasks k v ↔ d = 1.
Proof.
  intros Hinv [Hd Hwhere] Hx.
  pose proof (id_tick _ _ _ _ _ _ (ki_delay _ _ _ Hinv)) as Htick.
  pose proof (krep_u32 (ki_rep _ _ _ Hinv) (StateItem t) (ex_intro _ x Hx)) as Hval.
  assert (next_delayed k = DelayedL1 ∨ next_delayed k = DelayedL2) as HND.
  { destruct (next_delayed_which _ _ _ Hinv) as [[? _]|[? _]]; auto. }
  rewrite (due_tasks_iff k v t (ki_lists _ _ _ Hinv) HND).
  destruct (next_tick_cases k Htick) as [(-> & -> & _ & Hlt)|(-> & -> & _ & Heq)];
    unfold u32, MAX32 in *; destruct Hwhere as [[Hin Hv]|[Hin Hv]].
  - split; [intros [_ ?]; lia|]. intros ->. split; [done|lia].
  - split; [|lia]. intros [Hin' _]. by destruct (delayed_lists_disjoint _ _ _ _ Hinv Hin' Hin).
  - lia.
  - split; [intros [_ ?]; lia|]. intros ->. split; [done|lia].
Qed.

(** One tick. *)
Lemma delayed_tick k v b k1 v1 t x d :
  kinv k v → tick_spec k v b k1 v1 → delayed_for k v t d → k_tcbs k !! t = Some x →
  if decide (d = 1) then in_list v1 (StateItem t) (ReadyL (uxPriority x))
  else delayed_for k1 v1 t (d - 1).
Proof.
  intros Hinv Hs Hdel Hx. pose proof (delayed_due k v t x d Hinv Hdel Hx) as Hiff.
  pose proof (id_tick _ _ _ _ _ _ (ki_delay _ _ _ Hinv)) as Htick.
  pose proof (krep_u32 (ki_rep _ _ _ Hinv) (StateItem t) (ex_intro _ x Hx)) as Hval.
  destruct (ts_ticked _ _ _ _ _ Hs) as [_ Htk HD HO _]. destruct Hdel as [Hd Hwhere].
  case_decide as Hd1.
  - apply (ts_woken _ _ _ _ _ Hs). simpl. rewrite decide_True by by apply Hiff.
    split; [done|]. by exists x.
  - assert (t ∉ due_tasks k v) as Hnd by by rewrite Hiff.
    split; [lia|]. rewrite Htk, HD, HO, (ts_vals _ _ _ _ _ Hs).
    destruct (next_tick_cases k Htick) as [(-> & -> & -> & Hlt)|(-> & -> & -> & Heq)];
      unfold u32, MAX32 in *; destruct Hwhere as [[Hin Hv]|[Hin Hv]].
    + left. split; [by eapply tick_not_due|lia].
    + right. split; [by eapply tick_not_due|lia].
    + lia.
    + left. split; [by eapply tick_not_due|lia].
Qed.

Lemma ticks_inv n k v k' v' : ticks n k v k' v' → kinv k v → kinv k' v'.
Proof.
  induction 1 as [|n k v b k1 v1 k2 v2 Hs Ht IH]; [done|]. intros _. apply IH.
  destruct b; [apply kinv_yield|]; apply Hs.
Qed.

(** A row of ticks. *)
Lemma delayed_ticks n k v k' v' t x d :
  ticks n k v k' v' → kinv k v → delayed_for k v t d → k_tcbs k !! t = Some x →
  if decide (d ≤ Z.of_nat n) then in_list v' (StateItem t) (ReadyL (uxPriority x))
  else delayed_for k' v' t (d - Z.of_nat n).
Proof.
  intros Ht. revert d. induction Ht as [k v|n k v b k1 v1 k2 v2 Hs Ht IH]; intros d Hinv Hdel Hx.
  - rewrite decide_False by (destruct Hdel; lia). by rewrite Z.sub_0_r.
  - pose proof (delayed_tick _ _ _ _ _ _ _ _ Hinv Hs Hdel Hx) as Hstep.
    set (k1' := if b then k1 <| xYieldPendings := true |> else k1) in *.
    assert (kinv k1' v1) as Hinv1 by (unfold k1'; destruct b; [apply kinv_yield|]; apply Hs).
    assert (k_tcbs k1' !! t = Some x) as Hx1.
    { rewrite <- Hx, <- (sb_tcbs _ _ (tk_frame _ _ (ts_ticked _ _ _ _ _ Hs))).
      unfold k1'. by destruct b. }
    destruct (decide (d = 1)) as [->|Hd1].
    + rewrite decide_True by lia. by apply (ticks_ready n k1' v1 k2 v2).
    + assert (delayed_for k1' v1 t (d - 1)) as Hdel1 by (unfold k1'; by destruct b).
      specialize (IH (d - 1) Hinv1 Hdel1 Hx1). destruct Hdel as [Hd _].
      repeat case_decide; try lia; [done|].
      replace (d - Z.of_nat (S n)) with (d - 1 - Z.of_nat n) by lia. done.
Qed.

(** Blocking gives the task its delay. *)
Lemma blocked_delayed k v c y xTicksToWait indef k' :
  kinv k v → current_ready k v c y → 0 < xTicksToWait < MAX32 →
  (xTicksToWait = portMAX_DELAY → indef = false) →
  blocked_frame k c y k' →
  delayed_for k' (blocked_view k c xTicksToWait indef v) c xTicksToWait.
Proof.
  intros Hinv (Hc & Hy & Hin) Ht Hindef (s & top & next & ->).
  unfold blocked_view.
  assert ((xTicksToWait =? portMAX_DELAY) && indef = false) as ->.
  { destruct (Z.eqb_spec xTicksToWait portMAX_DELAY); [by rewrite Hindef|done]. }
  pose proof (id_tick _ _ _ _ _ _ (ki_delay _ _ _ Hinv)) as Htick.
  destruct (list_delayed _ _ _ _ _ _ (ki_lists _ _ _ Hinv) (ki_delay _ _ _ Hinv)) as [HD HO].
  set (w := wake_time k xTicksToWait).
  assert (∀ l, is_Some (rings v !! l) →
    in_list (vins l (StateItem c) (vval (StateItem c) w (vrem (StateItem c) v))) (StateItem c) l) as Hins.
  { intros l [r Hr]. exists (ring_insert (vals (vval (StateItem c) w (vrem (StateItem c) v)))
      (StateItem c) (ring_del (StateItem c) r)). split.
    - simpl. by rewrite lookup_alter_eq, lookup_fmap, Hr.
    - unfold ring_insert. simpl. rewrite ins_sorted_perm. by left. }
  split; [lia|]. unfold w, wake_time, wrap32, u32, MAX32 in *.
  destruct (decide (xTickCount k + xTicksToWait < 4294967296)) as [Hlt|Hge].
  - rewrite Z.mod_small in * by lia.
    destruct (Z.ltb_spec (xTickCount k + xTicksToWait) (xTickCount k)); [lia|].
    left. simpl. split; [by apply Hins|]. apply fn_lookup_insert.
  - assert ((xTickCount k + xTicksToWait) mod 4294967296 = xTickCount k + xTicksToWait - 4294967296)
      as Hw by (Z.to_euclidean_division_equations; lia).
    rewrite Hw in *.
    destruct (Z.ltb_spec (xTickCount k + xTicksToWait - 4294967296) (xTickCount k)); [|lia].
    right. simpl. split; [by apply Hins|]. rewrite fn_lookup_insert. lia.
Qed.
