(* ===== verification/TasksOps.v ===== *)
(** * The operations on tasks keep the invariant

    For each operation of tasks.c that tasks and interrupts call: under its
    documented conditions of use it terminates without a failed assertion,
    keeps the invariant, and leaves no better task waiting ([sched_ok]). *)
From S2P Require Import Prelude KList KListSpec KListProps Tasks TasksView TasksInv TasksTick.
From S2P Require Import TasksSwitch TasksBlock TasksResume TasksDelay.

(** The invariant with the abstract contents existentially quantified, for a
    system whose idle task [idle] is always ready. *)
Record kok (idle : Z) (k : kernel) (v : lview) : Prop := {
  ko_inv : kinv k v;
  ko_sched : sched_ok k v;
  ko_idle : ∃ p, in_list v (StateItem idle) (ReadyL p)
}.
Definition kernel_ok (idle : Z) (k : kernel) : Prop := ∃ v, kok idle k v.

Lemma kok_some_ready idle k v : kok idle k v → some_ready v.
Proof. intros [_ _ [p Hp]]. by exists idle, p. Qed.

(** A ready task stays ready when others are readied. *)
Lemma woken_ready T top ts v v' t p x :
  i_ready T top v → woken T ts v v' → T !! t = Some x →
  in_list v (StateItem t) (ReadyL p) → in_list v' (StateItem t) (ReadyL p).
Proof.
  intros Hr Hwk Hx Hin. apply Hwk. simpl. case_decide; [|done]. split; [done|].
  exists x. split; [done|]. f_equal. symmetry. by eapply (ir_prio _ _ _ _ Hr).
Qed.

Section ops.
Context (idle : Z).

Lemma kok_idle_tcb k v : kok idle k v → is_Some (k_tcbs k !! idle).
Proof. intros [Hinv _ [p Hp]]. by apply (in_list_tcb (ki_rep _ _ _ Hinv) _ _ Hp). Qed.

Lemma kok_yield k v : kok idle k v → kok idle (k <| xYieldPendings := true |>) v.
Proof.
  intros [Hinv Hs Hi]. split; [by apply kinv_yield| |done]. right. by left.
Qed.
Lemma kok_pendsv k v : kok idle k v → kok idle (k <| pendsv := true |>) v.
Proof.
  intros [Hinv Hs Hi]. split; [by apply kinv_pendsv| |done]. by left.
Qed.

(** Requesting a switch never hurts. *)
Lemma wp_yield k v (Q : unit → kernel → Prop) :
  kok idle k v → (∀ k', kok idle k' v → Q tt k') → wp portYIELD_WITHIN_API Q k.
Proof. intros Hk HQ. apply wp_portYIELD, HQ. by apply kok_pendsv. Qed.

(** *** The tick interrupt *)
Lemma tick_kok k v b k' v' :
  kok idle k v → tick_spec k v b k' v' →
  kok idle (if b then k' <| pendsv := true |> else k') v'.
Proof.
  intros [Hinv Hs [p Hp]] Hspec. pose proof (tk_frame _ _ (ts_ticked _ _ _ _ _ Hspec)) as Hfr.
  split.
  - destruct b; [apply kinv_pendsv|]; apply Hspec.
  - destruct b; [by left|]. unfold sched_ok.
    rewrite (sb_pendsv _ _ Hfr), (sb_yield _ _ Hfr).
    destruct Hs as [?|[Hy|Hnb]]; [by left|by right; left|]. right. right.
    eapply no_better_woken; [exact Hnb|apply Hspec|apply Hfr..|].
    intros t Ht Hab. enough (false = true) by done.
    apply (ts_switch _ _ _ _ _ Hspec). right. left. by exists t.
  - destruct (in_list_tcb (ki_rep _ _ _ Hinv) _ _ Hp) as [x Hx]. exists p.
    eapply woken_ready; [apply Hinv|apply Hspec|exact Hx|done].
Qed.

Lemma wp_xPortSysTickHandler k v :
  kok idle k v → wp xPortSysTickHandler (λ _ k', ∃ v', kok idle k' v') k.
Proof.
  intros Hk. pose proof Hk as [Hinv Hs Hi].
  unfold xPortSysTickHandler. apply wp_bind.
  destruct (decide (uxSchedulerSuspended k = 0)) as [Hz|Hnz].
  - eapply wp_mono; [by apply (wp_xTaskIncrementTick k v)|].
    intros b k' (v' & Hspec). pose proof (tick_kok k v b k' v' Hk Hspec) as Hk'.
    destruct b; [apply wp_modify|apply wp_ret]; by exists v'.
  - unfold xTaskIncrementTick. apply wp_bind, wp_getM.
    destruct (Z.eqb_spec (uxSchedulerSuspended k) 0); [done|].
    apply wp_bind, wp_modify, wp_bind, wp_ret, wp_ret, wp_ret. exists v. split; [|done|done].
    destruct Hinv as [? ? ? ? ? ? [? ? ?] ? ?]. split; try done. split; [done| |done].
    apply wrap32_u32.
Qed.

(** *** The context switch *)
Lemma wp_xPortPendSVHandler k v :
  kok idle k v → wp xPortPendSVHandler (λ _ k', ∃ v', kok idle k' v' ∧
    (uxSchedulerSuspended k = 0 → current_is_top k' v' ∧ pendsv k' = false)) k.
Proof.
  intros Hk. pose proof Hk as [Hinv Hs Hi]. unfold xPortPendSVHandler.
  apply wp_bind, wp_modify.
  assert (kinv (k <| pendsv := false |>) v) as Hinv0 by by apply kinv_pendsv.
  destruct (decide (uxSchedulerSuspended k = 0)) as [Hz|Hnz].
  - eapply wp_mono; [apply (wp_vTaskSwitchContext _ v Hinv0 Hz (kok_some_ready _ _ _ Hk))|].
    intros _ k' (v' & Hsp). exists v'. split.
    + split; [apply Hsp| |].
      * right. right. apply current_is_top_no_better, Hsp.
      * destruct Hi as [p Hp]. exists p. by apply (ss_same _ _ _ _ Hsp).
    + intros _. split; [apply Hsp|]. destruct (ss_frame _ _ _ _ Hsp) as (s & c & ->). done.
  - unfold vTaskSwitchContext. apply wp_bind, wp_getM. simpl.
    destruct (Z.eqb_spec (uxSchedulerSuspended k) 0); [done|]. simpl.
    apply wp_modify. exists v. split; [|done]. split; [by apply kinv_yield| |done].
    right. by left.
Qed.

(** *** Suspending the scheduler *)
Lemma wp_vTaskSuspendAll k v Q :
  kok idle k v → uxSchedulerSuspended k + 1 < MAX32 →
  (∀ k', kok idle k' v → k' = k <| uxSchedulerSuspended := uxSchedulerSuspended k + 1 |> → Q tt k') →
  wp vTaskSuspendAll Q k.
Proof.
  intros [Hinv Hs Hi] Hlt HQ. pose proof (is_u32 _ _ _ (ki_susp _ _ _ Hinv)) as Hu.
  apply wp_modify.
  assert (k <| uxSchedulerSuspended ::= λ n, wrap32 (n + 1) |> =
    k <| uxSchedulerSuspended := uxSchedulerSuspended k + 1 |>) as ->.
  { unfold set_field. simpl. rewrite wrap32_small; [done|]. unfold u32 in *. lia. }
  apply HQ; [|done]. split; [|done|done].
  destruct Hinv as [? ? ? ? ? ? [? ? ?] ? ?]. split; try done. split; simpl; [|done|].
  - unfold u32 in *. lia.
  - unfold u32 in *. lia.
Qed.

Lemma resume_kok k v b k' v' ts k1 v1 k2 :
  kok idle k v → resume_spec k v b k' v' ts k1 v1 k2 → kok idle k' v'.
Proof.
  intros [Hinv Hs [p Hp]] Hr. destruct (rs_state1 _ _ _ _ _ _ _ _ _ Hr) as (s & top & next & y & Hk1 & Hy).
  pose proof (ticks_frames _ _ _ _ _ (rs_ticks _ _ _ _ _ _ _ _ _ Hr)) as Hfr.
  pose proof (rs_final _ _ _ _ _ _ _ _ _ Hr) as Hfin.
  pose proof (rs_yield _ _ _ _ _ _ _ _ _ Hr) as Hb.
  pose proof (rs_woken _ _ _ _ _ _ _ _ _ Hr) as Hwk.
  split; [apply Hr| |].
  - destruct b; [left; by rewrite Hfin|]. rewrite Hfin.
    assert (y = false) as Hyf.
    { destruct y; [|done]. subst k1. rewrite (tf_yield _ _ Hfr) in Hb; done. }
    destruct Hs as [Hpd|[Hyk|Hnb]].
    + left. simpl. rewrite (tf_pendsv _ _ Hfr). by rewrite Hk1.
    + assert (y = true) as Hyt by (apply Hy; by left). congruence.
    + right. right.
      assert (no_better k1 v1) as Hnb1.
      { eapply no_better_woken; [exact Hnb|exact Hwk|by rewrite Hk1..|].
        intros t Ht Hab. assert (y = true) by (apply Hy; right; by exists t). congruence. }
      pose proof (ticks_sched _ _ _ _ _ (rs_ticks _ _ _ _ _ _ _ _ _ Hr) (eq_sym Hb) Hnb1) as Hnb2.
      by apply (no_better_sub k2 _ v' v' Hnb2).
  - exists p. apply (ticks_ready _ _ _ _ _ idle p (rs_ticks _ _ _ _ _ _ _ _ _ Hr)); [apply Hr|].
    destruct (in_list_tcb (ki_rep _ _ _ Hinv) _ _ Hp) as [x Hx].
    eapply woken_ready; [apply Hinv|exact Hwk|exact Hx|done].
Qed.

Lemma wp_xTaskResumeAll_ok k v :
  kok idle k v → 0 < uxSchedulerSuspended k →
  wp xTaskResumeAll (λ b k', ∃ v', kok idle k' v' ∧
    uxSchedulerSuspended k' = uxSchedulerSuspended k - 1 ∧ (b = true → pendsv k' = true)) k.
Proof.
  intros Hk Hs. destruct (decide (uxSchedulerSuspended k = 1)) as [H1|H1].
  - eapply wp_mono; [by apply (wp_xTaskResumeAll k v); [apply Hk|]|].
    intros b k' (v' & ts & k1 & v1 & k2 & Hr). exists v'. split_and!.
    + by eapply resume_kok.
    + rewrite (rs_final _ _ _ _ _ _ _ _ _ Hr), H1.
      pose proof (tf_suspended _ _ (ticks_frames _ _ _ _ _ (rs_ticks _ _ _ _ _ _ _ _ _ Hr))) as Hsu.
      destruct (rs_state1 _ _ _ _ _ _ _ _ _ Hr) as (s & top & next & y & -> & _).
      by destruct b.
    + intros ->. by rewrite (rs_final _ _ _ _ _ _ _ _ _ Hr).
  - eapply wp_mono; [apply (wp_xTaskResumeAll_nested k v); [apply Hk|lia]|].
    intros b k' (-> & Hk' & Hinv'). exists v. split_and!; [|by rewrite Hk'|done].
    split; [done| |apply Hk]. rewrite Hk'. apply Hk.
Qed.

(** *** Blocking *)
Lemma vitems_blocked_ready k v c n indef p :
  kinv k v → vitems (blocked_view k c n indef v) (ReadyL p) = filter (.≠ StateItem c) (vitems v (ReadyL p)).
Proof.
  intros Hinv. rewrite <- (vitems_vrem (ki_rep _ _ _ Hinv)).
  destruct (id_which _ _ _ _ _ _ (ki_delay _ _ _ Hinv)) as [[HD HO]|[HD HO]];
    unfold blocked_view; rewrite HD, HO;
    destruct ((n =? portMAX_DELAY) && indef); [by apply vitems_vend_ne| |by apply vitems_vend_ne|];
    destruct (wake_time k n <? xTickCount k); by rewrite vitems_vins_ne.
Qed.
Lemma blocked_ready k v c n indef t p :
  kinv k v → in_list (blocked_view k c n indef v) (StateItem t) (ReadyL p) ↔
             in_list v (StateItem t) (ReadyL p) ∧ t ≠ c.
Proof.
  intros Hinv. rewrite !in_list_vitems, vitems_blocked_ready, list_elem_of_filter by done.
  naive_solver.
Qed.

Lemma blocked_kok k v c y n indef k' :
  kok idle k v → current_ready k v c y → c ≠ idle →
  kinv k' (blocked_view k c n indef v) → blocked_frame k c y k' →
  kok idle k' (blocked_view k c n indef v).
Proof.
  intros [Hinv Hs [p Hp]] (Hc & Hy & Hin) Hne Hinv' (s & top & next & ->). split; [done| |].
  - destruct Hs as [?|[?|Hnb]]; [by left|by right; left|]. right. right.
    eapply no_better_sub; [exact Hnb| |].
    + intros t q Ht. by apply (blocked_ready k v c n indef t q Hinv) in Ht as [? _].
    + simpl. rewrite Hc. simpl. by rewrite lookup_insert_eq, Hy.
  - exists p. by apply blocked_ready.
Qed.

Lemma wp_vTaskDelay k v c y n :
  kok idle k v → current_ready k v c y → c ≠ idle → uxSchedulerSuspended k = 0 → 0 < n < MAX32 →
  wp (vTaskDelay n) (λ _ k', ∃ v', kok idle k' v' ∧ pendsv k' = true ∧ uxSchedulerSuspended k' = 0) k.
Proof.
  intros Hk Hcur Hne Hs Hn. unfold vTaskDelay.
  rewrite (proj2 (Z.ltb_lt 0 n)) by lia. apply wp_bind, wp_bind.
  apply (wp_vTaskSuspendAll k v); [done|by rewrite Hs|].
  intros k1 Hk1 Heq. apply wp_bind, wp_getM, wp_bind, wp_assert; [by rewrite Heq, Hs|].
  assert (current_ready k1 v c y) as Hcur1 by by rewrite Heq.
  apply wp_bind. eapply wp_mono.
  { by apply (wp_prvAddCurrentTaskToDelayedList k1 v c y n false); [apply Hk1|..]. }
  intros _ k2 [Hinv2 Hfr2]. pose proof (blocked_kok k1 v c y n false k2 Hk1 Hcur1 Hne Hinv2 Hfr2) as Hk2.
  assert (uxSchedulerSuspended k2 = 1) as Hs2.
  { destruct Hfr2 as (s & top & next & ->). simpl. by rewrite Heq, Hs. }
  eapply wp_mono; [by apply (wp_xTaskResumeAll_ok k2 _ Hk2); lia|].
  intros b k3 (v3 & Hk3 & Hs3 & Hb). destruct b; simpl.
  - apply wp_ret. exists v3. split_and!; [done|auto|lia].
  - apply wp_portYIELD. exists v3. split_and!; [by apply kok_pendsv|done|simpl; lia].
Qed.

(** *** Readying a task *)

(** The state item of [t] is taken out of its list and put in its ready list. *)
Definition vready (t p : Z) (v : lview) : lview :=
  vend (ReadyL p) (StateItem t) (vrem (StateItem t) v).

Lemma in_list_vready s s1 T v t p i l :
  krep s T v → krep s1 T (vrem (StateItem t) v) → is_Some (rings v !! ReadyL p) →
  in_list (vready t p v) i l ↔ (i = StateItem t ∧ l = ReadyL p) ∨ (in_list v i l ∧ i ≠ StateItem t).
Proof.
  intros Hk Hk1 Hl. unfold vready.
  rewrite (in_list_vend Hk1), (in_list_vrem Hk); [done|]. by apply vrem_list.
Qed.

Lemma vready_idle s s1 T v t x :
  krep s T v → krep s1 T (vrem (StateItem t) v) → is_Some (rings v !! ReadyL (uxPriority x)) →
  (∃ p, in_list v (StateItem idle) (ReadyL p)) →
  ∃ p, in_list (vready t (uxPriority x) v) (StateItem idle) (ReadyL p).
Proof.
  intros Hk Hk1 Hl [p Hp].
  destruct (decide (idle = t)) as [->|Hne].
  - exists (uxPriority x). apply (in_list_vready s s1 T); auto.
  - exists p. apply (in_list_vready s s1 T); [done..|]. right. split; [done|congruence].
Qed.

(** The common end of the operations that ready a task [t] found in some list:
    take its state item out and put it in its ready list.  Unless [t] is better
    than the running task, no better task waits afterwards. *)
Lemma wp_ready_task {A} k v t x (rem : K A) (Q : unit → kernel → Prop) :
  kok idle k v → k_tcbs k !! t = Some x →
  (∀ l R, in_list v (StateItem t) l →
    (∀ s a, krep s (k_tcbs k) (vrem (StateItem t) v) → R a (k <| k_lists := s |>)) → wp rem R k) →
  (∀ k' v', kinv k' v' → v' = vready t (uxPriority x) v →
    (∃ s top, k' = set_ready s top k) →
    (∃ p, in_list v' (StateItem idle) (ReadyL p)) →
    (pendsv k' = true ∨ xYieldPendings k' = true ∨ prio_above_current k t ∨ no_better k' v') →
    Q tt k') →
  wp (rem ;> prvAddTaskToReadyList t) Q k.
Proof.
  intros [Hinv Hs Hi] Hx Hrem HQ.
  destruct (ki_state _ _ _ Hinv t (ex_intro _ x Hx)) as [l Hl].
  apply wp_bind. apply (Hrem l); [done|]. intros s a Hk1.
  pose proof (kinv_leave _ _ _ t x s Hinv Hx Hk1) as Hhole.
  assert (is_Some (rings v !! ReadyL (uxPriority x))) as HR.
  { apply list_ready; [apply Hinv|]. pose proof (ki_prio _ _ _ Hinv _ _ Hx). simpl in *. lia. }
  eapply (wp_prvAddTaskToReadyList _ _ t x); [exact Hk1|exact Hx|apply Hhole| |].
  { by apply vrem_list. }
  intros s2 Hk2. pose proof (kinv_enter_ready _ _ _ t x s2 Hhole Hx Hk2) as Hinv2.
  apply (HQ _ (vready t (uxPriority x) v)); [exact Hinv2|done| | |].
  - eexists _, _. reflexivity.
  - by apply (vready_idle (k_lists k) s (k_tcbs k)); [apply Hinv|..].
  - simpl. destruct Hs as [?|[?|Hnb]]; [by left|by right; left|]. right. right.
    destruct (kinv_current _ _ _ Hinv) as (c & y & Hc & Hy).
    destruct (decide (uxPriority y < uxPriority x)) as [Hlt|Hge].
    + left. by exists c, x, y.
    + right. intros t' p c' y' Hin Hc' Hy'. simpl in Hc', Hy'. simplify_eq.
      apply (in_list_vready (k_lists k) s (k_tcbs k)) in Hin as [[_ [= ->]]|[Hin _]];
        [lia|by eapply Hnb|apply Hinv|done|done].
Qed.

Lemma wp_remove_cases k v t l (R : unit → kernel → Prop) :
  kinv k v → in_list v (StateItem t) l →
  (∀ s a, krep s (k_tcbs k) (vrem (StateItem t) v) → R a (k <| k_lists := s |>)) →
  wp (kl (listREMOVE_ITEM (StateItem t))) R k.
Proof.
  intros Hinv Hl HR. apply wp_kl. eapply ws_remove; [apply Hinv|exact Hl|].
  intros s Hk. by apply HR.
Qed.
Lemma wp_uxremove_cases k v t l (R : Z → kernel → Prop) :
  kinv k v → in_list v (StateItem t) l →
  (∀ s a, krep s (k_tcbs k) (vrem (StateItem t) v) → R a (k <| k_lists := s |>)) →
  wp (kl (uxListRemove (StateItem t))) R k.
Proof.
  intros Hinv Hl HR. apply wp_kl. eapply ws_uxListRemove; [apply Hinv|exact Hl|].
  intros s n Hk _. by apply HR.
Qed.

(** Suspended by [vTaskSuspend], and not blocked for ever on an event or a
    notification. *)
Definition suspended_task (v : lview) (t : Z) (x : TCB_t) : Prop :=
  in_list v (StateItem t) SuspendedL ∧ in_none v (EventItem t) ∧
  existsb (Z.eqb taskWAITING_NOTIFICATION) (ucNotifyState x) = false.

(** [prvTaskIsTaskSuspended] only looks. *)
Lemma wp_prvTaskIsTaskSuspended k v t x (Q : bool → kernel → Prop) :
  kinv k v → k_tcbs k !! t = Some x →
  (∀ b : bool, (b = true ↔ suspended_task v t x) → Q b k) →
  wp (prvTaskIsTaskSuspended t) Q k.
Proof.
  intros Hinv Hx HQ. unfold prvTaskIsTaskSuspended.
  apply wp_bind, wp_kl. eapply ws_contained; [apply Hinv|simpl; eauto|]. intros b Hb.
  assert (∀ k', ¬ suspended_task v t x → k' = k → wp (A:=bool) (retM false) Q k') as Hno.
  { intros k' Hns ->. apply wp_ret, HQ. by split. }
  destruct b.
  2: { apply Hno; [|by destruct k]. intros [Hl _]. by apply Hb in Hl. }
  apply wp_bind, wp_kl. simpl. eapply ws_contained; [apply Hinv|simpl; eauto|]. intros b2 Hb2.
  destruct b2.
  { apply Hno; [|by destruct k]. intros (_ & Hn & _). by eapply Hn, Hb2. }
  apply wp_bind, wp_kl. simpl. eapply ws_container; [apply Hinv|simpl; eauto|]. intros c Hc.
  case_bool_decide as Hcn.
  2: { apply Hno; [|by destruct k]. intros (_ & Hn & _). destruct c as [l|]; [|done].
       by eapply Hn, Hc. }
  apply wp_bind. eapply wp_tcb_get; [exact Hx|]. apply wp_ret.
  replace (k <| k_lists := k_lists k |> <| k_lists := k_lists k |> <| k_lists := k_lists k |>) with k
    by by destruct k.
  apply HQ. rewrite negb_true_iff. unfold suspended_task. split.
  - intros Hw. split_and!; [by apply Hb| |done]. intros l Hl%Hc. congruence.
  - by intros (_ & _ & ?).
Qed.

Lemma wp_taskYIELD_ANY k v t x (Q : unit → kernel → Prop) :
  kinv k v → k_tcbs k !! t = Some x →
  (prio_above_current k t → Q tt (k <| pendsv := true |>)) →
  (¬ prio_above_current k t → Q tt k) →
  wp (taskYIELD_ANY_CORE_IF_USING_PREEMPTION t) Q k.
Proof.
  intros Hinv Hx Ht Hf. destruct (kinv_current _ _ _ Hinv) as (c & y & Hc & Hy).
  unfold taskYIELD_ANY_CORE_IF_USING_PREEMPTION.
  apply wp_bind. eapply wp_current; [exact Hc|]. apply wp_bind. eapply wp_tcb_get; [exact Hy|].
  apply wp_bind. eapply wp_tcb_get; [exact Hx|].
  destruct (Z.ltb_spec (uxPriority y) (uxPriority x)).
  - apply wp_portYIELD, Ht. by exists c, x, y.
  - apply wp_ret, Hf. intros (c' & x' & y' & ? & ? & ? & ?). simplify_eq. lia.
Qed.

Lemma wp_vTaskResume k v t x :
  kok idle k v → k_tcbs k !! t = Some x →
  wp (vTaskResume (Some t)) (λ _ k', ∃ v', kok idle k' v' ∧
    ((pxCurrentTCB k ≠ Some t ∧ suspended_task v t x ∧ v' = vready t (uxPriority x) v) ∨
     ((pxCurrentTCB k = Some t ∨ ¬ suspended_task v t x) ∧ v' = v ∧ k' = k))) k.
Proof.
  intros Hk Hx. unfold vTaskResume. apply wp_bind, wp_assert; [done|].
  apply wp_bind, wp_getM. case_bool_decide as Hcur; simpl.
  { apply wp_ret. exists v. split; [done|]. right. auto. }
  unfold critical. apply wp_bind.
  apply (wp_prvTaskIsTaskSuspended k v t x); [apply Hk|done|]. intros b Hb.
  destruct b.
  2: { apply wp_ret. exists v. split; [done|]. right. split_and!; [|done..].
       right. by intros ?%Hb. }
  apply (wp_bind_assoc _ (λ _, prvAddTaskToReadyList t)), wp_bind.
  eapply (wp_ready_task k v t x _ _ Hk Hx).
  { intros l R Hl HR. eapply wp_uxremove_cases; [apply Hk|exact Hl|exact HR]. }
  intros k' v' Hinv' Hv' (s & top & ->) Hi' Hs'.
  assert (k_tcbs (set_ready s top k) !! t = Some x) as Hx' by done.
  eapply wp_taskYIELD_ANY; [exact Hinv'|exact Hx'| |].
  - intros _. exists v'. split; [|left; split_and!; [done|by apply Hb|done]].
    split; [by apply kinv_pendsv|by left|done].
  - intros Hab. exists v'. split; [|left; split_and!; [done|by apply Hb|done]].
    split; [done| |done].
    destruct Hs' as [?|[?|[?|?]]]; [by left|by right; left|done|by right; right].
Qed.

Lemma wp_preempts_iff k v t x (Q : bool → kernel → Prop) :
  kinv k v → k_tcbs k !! t = Some x →
  (∀ b : bool, (b = true ↔ prio_above_current k t) → Q b k) → wp (preempts t) Q k.
Proof.
  intros Hinv Hx HQ. destruct (kinv_current _ _ _ Hinv) as (c & y & Hc & Hy).
  eapply (wp_preempts k t x c y); [done..|]. apply HQ. rewrite Z.ltb_lt. split.
  - intros Hlt. by exists c, x, y.
  - intros (c' & x' & y' & ? & ? & ? & ?). by simplify_eq.
Qed.

(** The yield of an operation that has readied [t]. *)
Lemma kok_after_ready k v' t (b : bool) (k0 : kernel) :
  kinv k v' → (b = true ↔ prio_above_current k0 t) →
  (∃ p, in_list v' (StateItem idle) (ReadyL p)) →
  (pendsv k = true ∨ xYieldPendings k = true ∨ prio_above_current k0 t ∨ no_better k v') →
  kok idle (if b then k <| xYieldPendings := true |> else k) v'.
Proof.
  intros Hinv Hb Hi Hs. destruct b.
  - split; [by apply kinv_yield|by right; left|done].
  - split; [done| |done]. destruct Hs as [?|[?|[Hab|?]]]; [by left|by right; left| |by right; right].
    by apply Hb in Hab.
Qed.

Lemma wp_xTaskResumeFromISR k v t x :
  kok idle k v → k_tcbs k !! t = Some x →
  wp (xTaskResumeFromISR (Some t)) (λ b k', ∃ v', kok idle k' v' ∧
    (suspended_task v t x →
      v' = if decide (uxSchedulerSuspended k = 0) then vready t (uxPriority x) v
           else vend PendingReadyL (EventItem t) v) ∧
    (¬ suspended_task v t x → v' = v ∧ k' = k)) k.
Proof.
  intros Hk Hx. unfold xTaskResumeFromISR, critical. apply wp_bind, wp_assert; [done|]. apply wp_bind. eapply wp_deref; [done|]. apply wp_bind.
  apply (wp_prvTaskIsTaskSuspended k v t x); [apply Hk|done|]. intros b Hb.
  destruct b.
  2: { apply wp_ret. exists v. split_and!; [done| |done]. by intros ?%Hb. }
  assert (suspended_task v t x) as Hst by by apply Hb.
  apply wp_bind, wp_getM. destruct (Z.eqb_spec (uxSchedulerSuspended k) 0) as [Hz|Hnz].
  - rewrite decide_True by done. apply wp_bind.
    eapply (wp_preempts_iff k v t x); [apply Hk|done|]. intros b' Hb'.
    set (k1 := if b' then k <| xYieldPendings := true |> else k).
    apply wp_bind, (wp_mono _ (λ _ k2, k2 = k1)).
    { unfold k1. destruct b'; [by apply wp_modify|by apply wp_ret]. }
    intros [] k2 ->.
    assert (kok idle k1 v) as Hk1 by (unfold k1; destruct b'; [by apply kok_yield|done]).
    assert (k_tcbs k1 !! t = Some x) as Hx1 by (unfold k1; by destruct b').
    apply (wp_bind_assoc _ (λ _, prvAddTaskToReadyList t)), wp_bind.
    eapply (wp_ready_task k1 v t x _ _ Hk1 Hx1).
    { intros l R Hl HR. eapply wp_uxremove_cases; [apply Hk1|exact Hl|exact HR]. }
    intros k' v' Hinv' Hv' (s & top & Heq) Hi' Hs'. apply wp_ret.
    exists v'. split_and!; [|by intros _|done]. split; [done| |done].
    destruct Hs' as [?|[?|[Hab|?]]]; [by left|by right; left| |by right; right].
    assert (b' = true) as Hbt.
    { apply Hb'. unfold k1 in Hab. by destruct b'. }
    right. left. rewrite Heq. unfold k1. by rewrite Hbt.
  - rewrite decide_False by done. destruct Hst as (Hsl & Hen & Hw).
    apply wp_bind, wp_kl.
    assert (is_Some (rings v !! PendingReadyL)) as HL by (apply list_fixed; [apply Hk|set_solver]).
    eapply ws_vListInsertEnd; [apply Hk|exact Hen|simpl; eauto|exact HL|].
    intros s Hks. apply wp_ret. eexists. split_and!; [|by intros _|by intros []; split_and!].
    destruct Hk as [Hinv Hs [p Hp]]. split.
    + apply kinv_enter_event; [done|done|done|done|exact Hks].
    + destruct Hs as [?|[?|Hnb]]; [by left|by right; left|]. right. right.
      eapply no_better_sub; [exact Hnb| |done].
      intros t' q. by rewrite (in_list_vitems (vend _ _ _)), vitems_vend_ne, <- in_list_vitems.
    + exists p. by rewrite in_list_vitems, vitems_vend_ne, <- in_list_vitems.
Qed.

(** *** [eTaskGetState] *)
Lemma wp_eTaskGetState k v t x (Q : eTaskState → kernel → Prop) :
  kinv k v → k_tcbs k !! t = Some x →
  (∀ st, (st = eRunning ↔ pxCurrentTCB k = Some t) →
    (st = eBlocked → in_list v (StateItem t) (pxDelayedTaskList k) ∨
       in_list v (StateItem t) (pxOverflowDelayedTaskList k) ∨ in_list v (StateItem t) SuspendedL) →
    (st = eSuspended → suspended_task v t x) →
    Q st k) → wp (eTaskGetState t) Q k.
Proof.
  intros Hinv Hx HQ. unfold eTaskGetState. apply wp_bind, wp_getM.
  case_bool_decide as Hcur.
  { apply wp_ret, HQ; [done|by intros|by intros]. }
  apply wp_bind, wp_kl. eapply ws_container; [apply Hinv|simpl; eauto|]. intros cs Hcs.
  apply wp_bind, wp_kl. simpl. eapply ws_container; [apply Hinv|simpl; eauto|]. intros ce Hce.
  replace (k <| k_lists := k_lists k |> <| k_lists := k_lists k |>) with k by by destruct k.
  case_bool_decide as Hp; [by apply wp_ret, HQ|].
  destruct (bool_decide (cs = Some (pxDelayedTaskList k))
    || bool_decide (cs = Some (pxOverflowDelayedTaskList k))) eqn:Hd.
  { apply wp_ret, HQ; [done| |done]. intros _.
    apply orb_true_iff in Hd as [Hd%bool_decide_eq_true|Hd%bool_decide_eq_true]; subst cs.
    - left. by apply Hcs.
    - right. left. by apply Hcs. }
  clear Hd. case_bool_decide as Hs.
  - apply wp_bind, wp_kl. eapply ws_container; [apply Hinv|simpl; eauto|]. intros ce' Hce'.
    replace (k <| k_lists := k_lists k |>) with k by by destruct k.
    assert (in_list v (StateItem t) SuspendedL) as Hin by by apply Hcs.
    case_bool_decide as Hn.
    + apply wp_bind. eapply wp_tcb_get; [exact Hx|]. apply wp_ret, HQ.
      * by destruct (existsb _ _).
      * auto.
      * destruct (existsb _ _) eqn:Hw; [done|]. intros _. split_and!; [done| |done].
        intros l Hl%Hce'. congruence.
    + apply wp_ret, HQ; [done|auto|done].
  - destruct (_ || _); by apply wp_ret, HQ.
Qed.
End ops.

(** ** The state of a task, from its lists *)
(** What [eTaskGetState] answers. *)
Definition state_of (k : kernel) (t : Z) : eTaskState :=
  if decide (pxCurrentTCB k = Some t) then eRunning
  else if decide (contOf (k_lists k) (EventItem t) = Some PendingReadyL) then eReady
  else match contOf (k_lists k) (StateItem t) with
       | None => eDeleted
       | Some l =>
           if decide (l = pxDelayedTaskList k ∨ l = pxOverflowDelayedTaskList k) then eBlocked
           else if decide (l = SuspendedL) then
             if decide (contOf (k_lists k) (EventItem t) = None) then
               if existsb (Z.eqb taskWAITING_NOTIFICATION) (from_option ucNotifyState [] (k_tcbs k !! t)) then eBlocked else eSuspended
             else eBlocked
           else if decide (l = TerminationL) then eDeleted
           else eReady
       end.
Lemma lists_same (k : kernel) : k <| k_lists := k_lists k |> = k.
Proof. by destruct k. Qed.
Lemma container_eq s T v i c :
  krep s T v → (∀ l, c = Some l ↔ in_list v i l) → c = contOf s i.
Proof.
  intros Hk Hc. destruct c as [l|].
  - symmetry. by apply (krep_cont Hk), Hc.
  - destruct (contOf s i) as [l|] eqn:Hs; [|done]. by apply (krep_cont Hk), Hc in Hs.
Qed.
Lemma wk_container k v t i (Q : option lid → kernel → Prop) :
  kinv k v → is_Some (k_tcbs k !! t) → itask i = t → Q (contOf (k_lists k) i) k →
  wp (kl (listLIST_ITEM_CONTAINER i)) Q k.
Proof.
  intros Hinv HT Hi HQ. apply wp_kl. subst t. eapply ws_container; [apply Hinv|done|].
  intros c Hc. rewrite lists_same. by rewrite (container_eq _ _ _ _ _ (ki_rep _ _ _ Hinv) Hc).
Qed.

Lemma eTaskGetState_eq k v t x :
  kinv k v → k_tcbs k !! t = Some x → eTaskGetState t k = ROk (state_of k t, k).
Proof.
  intros Hinv Hx. enough (wp (eTaskGetState t) (λ st k', k' = k ∧ st = state_of k t) k) as Hw.
  { destruct (wp_ok _ _ _ Hw) as (st & k' & Hr & -> & ->). exact Hr. }
  unfold eTaskGetState, state_of. apply wp_bind, wp_getM.
  case_bool_decide as Hc; [rewrite decide_True by done; by apply wp_ret|]. rewrite decide_False by done.
  apply wp_bind. apply (wk_container k v t); [done|by rewrite Hx|done|].
  apply wp_bind. apply (wk_container k v t); [done|by rewrite Hx|done|].
  case_bool_decide as Hp; [rewrite decide_True by done; by apply wp_ret|]. rewrite decide_False by done.
  rewrite Hx. simpl. destruct (contOf (k_lists k) (StateItem t)) as [l|] eqn:Hs.
  2:{ simpl. by apply wp_ret. }
  rewrite <- bool_decide_or. case_bool_decide as HD.
  { rewrite decide_True by naive_solver. by apply wp_ret. }
  rewrite decide_False by naive_solver. case_bool_decide as HS.
  - injection HS as ->. rewrite decide_True by done. apply wp_bind.
    apply (wk_container k v t); [done|by rewrite Hx|done|]. case_bool_decide as He.
    + rewrite decide_True by done. apply wp_bind. eapply wp_tcb_get; [exact Hx|]. by apply wp_ret.
    + rewrite decide_False by done. by apply wp_ret.
  - rewrite decide_False by naive_solver. rewrite (bool_decide_eq_false_2 (Some l = None)) by done. rewrite orb_false_r.
    case_bool_decide as HT; apply wp_ret.
    + rewrite decide_True by naive_solver. done.
    + rewrite decide_False by naive_solver. done.
Qed.
