(* ===== verification/TasksSuspend.v ===== *)
(** * [vTaskSuspend] and [xTaskAbortDelay]

    The two operations that take a task out of whatever list it is in. *)
From S2P Require Import Prelude KList KListSpec KListProps Tasks TasksView TasksInv TasksTick.
From S2P Require Import TasksSwitch TasksBlock TasksResume TasksDelay TasksOps.

(** A TCB changes while its task is out of the lists. *)
Lemma kinv_hole_tcb t e lo k v u x x' :
  kinv_hole t e lo k v → k_tcbs k !! u = Some x → uxPriority x' = uxPriority x →
  uxBasePriority x' = uxBasePriority x →
  kinv_hole t e lo (k <| k_tcbs ::= <[u := x']> |>) v.
Proof.
  intros [Hk Hl Hr Hp Hno Hst Hd Hsu Hc Hn] Hx Heq Hb.
  assert (∀ t', is_Some (<[u := x']> (k_tcbs k) !! t') ↔ is_Some (k_tcbs k !! t')) as Hdom.
  { intros t'. destruct (decide (u = t')) as [->|?].
    - rewrite lookup_insert_eq, Hx. split; eauto.
    - by rewrite lookup_insert_ne. }
  split; simpl; try done.
  - by eapply krep_tcb.
  - eapply i_ready_tcbs; [exact Hr|]. intros t' p z _ Hz.
    destruct (decide (u = t')) as [->|Hne].
    + rewrite lookup_insert_eq in Hz. simplify_eq. eauto.
    + rewrite lookup_insert_ne in Hz by done. eauto.
  - apply i_prio_tcb; [done|]. pose proof (Hp _ _ Hx). simpl in *. lia.
  - intros t' Hne HT. apply Hst; [done|]. by apply Hdom.
  - destruct (pxCurrentTCB k) as [c|]; [|by destruct Hc]. simpl in *. by apply Hdom.
Qed.

(** Taking out the event item of a task if it is in a list. *)
Lemma wp_remove_event_ux (c : option lid) k v i (Q : unit → kernel → Prop) :
  krep (k_lists k) (k_tcbs k) v → (∀ l, c = Some l ↔ in_list v i l) →
  (∀ s, krep s (k_tcbs k) (vrem i v) → Q tt (k <| k_lists := s |>)) →
  wp (match c with
      | Some _ => let* _ := kl (uxListRemove i) in retM tt
      | None => retM tt
      end) Q k.
Proof.
  intros Hk Hc HQ. destruct c as [l|].
  - apply wp_bind, wp_kl. eapply ws_uxListRemove; [done|by apply Hc|].
    intros s n Hks _. by apply wp_ret, HQ.
  - apply wp_ret. assert (in_none v i) as Hn by (by intros l Hl%Hc).
    specialize (HQ (k_lists k)). rewrite vrem_id in HQ by done.
    destruct k. by apply HQ.
Qed.

Section ops.
Context (idle : Z).

(** ** [vTaskSuspend] *)

(** The contents after the suspension of [t]. *)
Definition suspended_view (t : Z) (v : lview) : lview :=
  vend SuspendedL (StateItem t) (vrem (EventItem t) (vrem (StateItem t) v)).

(** [taskRESET_READY_PRIORITY] when nothing was left in the task's list. *)
Lemma wp_reset_after_leave k v t x s n (Q : unit → kernel → Prop) l :
  kinv k v → k_tcbs k !! t = Some x → in_list v (StateItem t) l →
  krep s (k_tcbs k) (vrem (StateItem t) v) →
  n = Z.of_nat (length (vitems (vrem (StateItem t) v) l)) →
  (∀ top, kinv_hole t (-1) (xTickCount k)
     (k <| k_lists := s |> <| uxTopReadyPriority := top |>) (vrem (StateItem t) v) →
     Q tt (k <| k_lists := s |> <| uxTopReadyPriority := top |>)) →
  wp (when n =? 0 then let* p := tcb_get t uxPriority in taskRESET_READY_PRIORITY p) Q
    (k <| k_lists := s |>).
Proof.
  intros Hinv Hx Hin Hs Hn HQ.
  pose proof (kinv_leave _ _ _ t x s Hinv Hx Hs) as [Hk Hl _ Hp Hno Hst Hd Hsu Hc Hcn].
  pose proof (ki_prio _ _ _ Hinv _ _ Hx) as Hpx. simpl in Hpx.
  assert (is_Some (rings (vrem (StateItem t) v) !! ReadyL (uxPriority x))) as HR.
  { apply list_ready; [done|lia]. }
  set (p := uxPriority x) in *.
  set (emp := bool_decide (vitems (vrem (StateItem t) v) (ReadyL p) = [])).
  assert (i_ready (k_tcbs k) (if (n =? 0) && emp then Z.land (uxTopReadyPriority k) (Z.lnot (prio_bit p))
    else uxTopReadyPriority k) (vrem (StateItem t) v)) as Hready.
  { apply (i_ready_block (ki_rep _ _ _ Hinv)); [apply Hinv|done|lia| |].
    - intros [_ He]%andb_true_iff. by apply bool_decide_eq_true in He.
    - intros [Hnz|He]%andb_false_iff.
      + destruct (decide (l = ReadyL p)) as [->|Hne].
        * left. intros He. fold p in He. rewrite He in Hn. by apply Z.eqb_neq in Hnz.
        * right. intros Hin'. apply Hne. by apply (in_list_unique (ki_rep _ _ _ Hinv) _ _ _ Hin Hin').
      + left. by apply bool_decide_eq_false in He. }
  assert (∀ top, i_ready (k_tcbs k) top (vrem (StateItem t) v) →
    Q tt (k <| k_lists := s |> <| uxTopReadyPriority := top |>)) as HQ'.
  { intros top Ht. apply HQ. by split. }
  specialize (HQ' _ Hready). destruct (n =? 0); simpl in *.
  - apply wp_bind. eapply wp_tcb_get; [exact Hx|]. fold p. unfold taskRESET_READY_PRIORITY.
    apply wp_bind, wp_kl. eapply ws_len; [exact Hs|done|].
    assert (Z.of_nat (length (vitems (vrem (StateItem t) v) (ReadyL p))) =? 0 = emp) as ->.
    { unfold emp. destruct (vitems (vrem (StateItem t) v) (ReadyL p)); by case_bool_decide. }
    destruct emp; [apply wp_modify|apply wp_ret]; destruct k; exact HQ'.
  - apply wp_ret. destruct k; exact HQ'.
Qed.

Lemma kinv_suspended t lo k v s x (st : list Z) :
  kinv_hole t (-1) lo k v → krep s (k_tcbs k) (vend SuspendedL (StateItem t) v) →
  k_tcbs k !! t = Some x →
  kinv_from lo (k <| k_lists := s |> <| k_tcbs ::= <[t := x <| ucNotifyState := st |>]> |>)
    (vend SuspendedL (StateItem t) v).
Proof.
  intros Hhole Hks Hx. eapply kinv_tcb; [|exact Hx|done|].
  - apply kinv_enter_other; [done|by left|done].
  - pose proof (kh_prio _ _ _ _ _ Hhole _ _ Hx). simpl in *. lia.
Qed.

Lemma kinv_reset_next k v (Q : unit → kernel → Prop) :
  kinv k v →
  (∀ next, kinv (k <| xNextTaskUnblockTime := next |>) v →
     Q tt (k <| xNextTaskUnblockTime := next |>)) →
  wp prvResetNextTaskUnblockTime Q k.
Proof.
  intros Hinv HQ. pose proof Hinv as [Hk Hl _ _ _ Hd _ _ _].
  destruct (list_delayed _ _ _ _ _ _ Hl Hd) as [HD _].
  eapply wp_prvResetNextTaskUnblockTime; [exact Hk|done|exact HD|apply Hd|].
  intros next Hu Hle. apply HQ. apply (kinv_from_weaken (xTickCount k)); [done..|].
  intros i Hi. split; [by apply (id_future _ _ _ _ _ _ Hd)|by apply Hle].
Qed.

Lemma wp_vTaskSuspend k v h t x :
  kok idle k v → match h with Some u => u = t | None => pxCurrentTCB k = Some t end →
  k_tcbs k !! t = Some x → t ≠ idle →
  xSchedulerRunning k = true → (pxCurrentTCB k = Some t → uxSchedulerSuspended k = 0) →
  wp (vTaskSuspend h) (λ _ k', kok idle k' (suspended_view t v) ∧
    k_tcbs k' = <[t := x <| ucNotifyState ::= clear_waiting |>]> (k_tcbs k) ∧
    pxCurrentTCB k' = pxCurrentTCB k ∧
    (pxCurrentTCB k = Some t → pendsv k' = true) ∧
    uxSchedulerSuspended k' = uxSchedulerSuspended k ∧
    in_list (suspended_view t v) (StateItem t) SuspendedL ∧ in_none (suspended_view t v) (EventItem t)) k.
Proof.
  intros Hk Hh Hx Hidle Hrun Hcur. pose proof Hk as [Hinv Hs [p Hp]]. unfold vTaskSuspend.
  apply wp_bind, (wp_mono _ (λ o k', o = Some t ∧ k' = k)).
  { destruct h as [u|]; simpl; [apply wp_ret; by subst|by apply wp_gets]. }
  intros o ? [-> ->]. apply wp_bind, wp_assert; [done|]. apply wp_bind, wp_ret.
  unfold critical. apply wp_bind.
  destruct (ki_state _ _ _ Hinv t (ex_intro _ x Hx)) as [l Hl].
  apply wp_bind, wp_kl. eapply ws_uxListRemove; [apply Hinv|exact Hl|]. intros s1 n Hk1 Hn.
  apply wp_bind. eapply wp_reset_after_leave; [exact Hinv|exact Hx|exact Hl|exact Hk1|exact Hn|].
  intros top Hhole.
  apply wp_bind, wp_kl. simpl. eapply ws_container; [exact Hk1|simpl; eauto|]. intros ce Hce.
  apply wp_bind. eapply wp_remove_event_ux; [exact Hk1|exact Hce|]. simpl. intros s2 Hk2.
  pose proof (kinv_hole_leave_event _ _ _ t _ t s2 Hhole Hk2) as Hhole2.
  apply wp_bind, wp_kl. simpl.
  eapply ws_vListInsertEnd; [exact Hk2|apply Hhole2|simpl; eauto| |].
  { apply list_fixed; [apply Hhole2|set_solver]. }
  intros s3 Hk3.
  pose proof (kinv_suspended t _ _ _ s3 x (clear_waiting (ucNotifyState x)) Hhole2 Hk3 Hx) as Hinv3.
  eapply wp_tcb_set; [exact Hx|]. simpl.
  apply wp_bind, wp_getM. simpl. rewrite Hrun. apply wp_bind. unfold critical.
  apply (kinv_reset_next _ (suspended_view t v)); [exact Hinv3|]. intros next Hinv4.
  apply wp_bind, wp_getM. simpl. rewrite Hrun.
  set (k4 := k <| k_lists := s3 |> <| uxTopReadyPriority := top |>
    <| k_tcbs ::= <[t := x <| ucNotifyState ::= clear_waiting |>]> |>
    <| xNextTaskUnblockTime := next |>).
  assert (∀ t' q, in_list (suspended_view t v) (StateItem t') (ReadyL q) ↔
    in_list v (StateItem t') (ReadyL q) ∧ t' ≠ t) as Hready.
  { intros t' q. unfold suspended_view. rewrite in_list_vitems, vitems_vend_ne by done.
    rewrite <- in_list_vitems, (in_list_vrem Hk1), (in_list_vrem (ki_rep _ _ _ Hinv)).
    split; [intros [[? ?] _]|intros [? ?]]; split_and!; try done; congruence. }
  assert (kok idle k4 (suspended_view t v)) as Hk4.
  { split; [exact Hinv4| |].
    - destruct Hs as [?|[?|Hnb]]; [by left|by right; left|]. right. right.
      eapply no_better_sub; [exact Hnb| |].
      + intros t' q Hin. by apply Hready.
      + simpl. destruct (pxCurrentTCB k) as [c|]; [|done]. simpl.
        destruct (decide (t = c)) as [<-|?]; [by rewrite lookup_insert_eq, Hx|by rewrite lookup_insert_ne].
    - exists p. by apply Hready. }
  assert (∀ i l, in_list (suspended_view t v) i l ↔ (i = StateItem t ∧ l = SuspendedL) ∨
    in_list (vrem (EventItem t) (vrem (StateItem t) v)) i l) as Hview.
  { intros i l'. apply (in_list_vend Hk2). apply list_fixed; [apply Hhole2|set_solver]. }
  assert (in_list (suspended_view t v) (StateItem t) SuspendedL) as Hin1 by (apply Hview; by left).
  assert (in_none (suspended_view t v) (EventItem t)) as Hno1.
  { intros l' [[? _]|Hl']%Hview; [done|]. by apply (vrem_none Hk1) in Hl'. }
  case_bool_decide as Hc.
  - apply wp_bind, wp_assert; [by rewrite Hcur|].
    apply wp_portYIELD. by split_and!; [by apply kok_pendsv in Hk4|..].
  - apply wp_ret. by split_and!; [exact Hk4|..].
Qed.

(** ** [xTaskAbortDelay] *)

(** [xTaskAbortDelay] has found the task blocked: it is readied, out of any
    event list, and told that its wait was aborted if it waited for an event. *)
Lemma wp_abort_blocked k v t x (Q : bool → kernel → Prop) :
  kok idle k v → k_tcbs k !! t = Some x →
  (∀ k' b, kok idle k' (vwake t (uxPriority x) v) →
    (∃ s top y, k' = k <| k_lists := s |> <| uxTopReadyPriority := top |> <| xYieldPendings := y |>
       <| k_tcbs := if b : bool then <[t := x <| ucDelayAborted := true |>]> (k_tcbs k) else k_tcbs k |> ∧
       (prio_above_current k t → y = true)) →
    (b = true ↔ ¬ in_none v (EventItem t)) →
    woken (k_tcbs k) [t] v (vwake t (uxPriority x) v) →
    Q true k') →
  wp (let* _ := kl (uxListRemove (StateItem t)) in
      critical (
        let* c := kl (listLIST_ITEM_CONTAINER (EventItem t)) in
        match c with
        | Some _ =>
            let* _ := kl (uxListRemove (EventItem t)) in
            tcb_set t (λ x, x <| ucDelayAborted := true |>)
        | None => retM tt
        end) ;>
      prvAddTaskToReadyList t ;>
      let* b := preempts t in
      (when b then setYieldPending) ;>
      retM true) Q k.
Proof.
  intros Hk Hx HQ. pose proof Hk as [Hinv Hs [p Hp]].
  destruct (ki_state _ _ _ Hinv t (ex_intro _ x Hx)) as [l Hl].
  apply wp_bind, wp_kl. eapply ws_uxListRemove; [apply Hinv|exact Hl|]. intros s1 n Hk1 _.
  pose proof (kinv_leave _ _ _ t x s1 Hinv Hx Hk1) as Hhole.
  apply wp_bind. unfold critical. apply wp_bind, wp_kl. simpl.
  eapply ws_container; [exact Hk1|simpl; eauto|]. intros ce Hce.
  set (b := bool_decide (is_Some ce)).
  set (x' := if b then x <| ucDelayAborted := true |> else x).
  assert (uxPriority x' = uxPriority x) as Hpx' by (unfold x'; by destruct b).
  assert (b = true ↔ ¬ in_none v (EventItem t)) as Hb.
  { unfold b. rewrite bool_decide_eq_true. split.
    - intros [l' ->] Hn. apply (Hn l').
      pose proof (proj1 (Hce l') eq_refl) as Hin. by apply (in_list_vrem (ki_rep _ _ _ Hinv)) in Hin as [? _].
    - intros Hn. destruct ce as [l'|]; [eauto|]. destruct Hn. intros l' Hl'.
      enough (None = Some l') by done. apply Hce. by apply (in_list_vrem (ki_rep _ _ _ Hinv)). }
  apply (wp_mono _ (λ _ k', ∃ s2, krep s2 (k_tcbs k) (vrem (EventItem t) (vrem (StateItem t) v)) ∧
    k' = k <| k_lists := s2 |> <| k_tcbs := if b then <[t := x']> (k_tcbs k) else k_tcbs k |> ∧
    kinv_hole t (uxPriority x) (xTickCount k) k' (vrem (EventItem t) (vrem (StateItem t) v)))).
  { unfold x', b. destruct ce as [l'|].
    - apply wp_bind, wp_kl. simpl. eapply ws_uxListRemove; [exact Hk1|by apply Hce|]. intros s2 n' Hk2 _.
      eapply wp_tcb_set; [exact Hx|]. exists s2. split_and!; [exact Hk2|reflexivity|].
      eapply kinv_hole_tcb; [|exact Hx|done|done]. exact (kinv_hole_leave_event _ _ _ t _ t s2 Hhole Hk2).
    - apply wp_ret. exists s1. assert (in_none (vrem (StateItem t) v) (EventItem t)) as Hn.
      { by intros l' Hl'%Hce. }
      rewrite vrem_id by done. split_and!; [exact Hk1|by destruct k|exact Hhole]. }
  intros [] k2 (s2 & Hk2 & Heq2 & Hhole2).
  assert (k_tcbs k2 !! t = Some x') as Hx2.
  { rewrite Heq2. simpl. unfold x'. destruct b; [by rewrite lookup_insert_eq|done]. }
  apply wp_bind. rewrite <- Hpx' in Hhole2.
  eapply (wp_prvAddTaskToReadyList _ _ t x'); [apply Hhole2|exact Hx2|apply Hhole2| |].
  { apply list_ready; [apply Hhole2|]. pose proof (kh_prio _ _ _ _ _ Hhole2 _ _ Hx2). simpl in *. lia. }
  intros s3 Hk3. pose proof (kinv_enter_ready _ _ _ t x' s3 Hhole2 Hx2 Hk3) as Hinv3.
  set (k3 := k2 <| uxTopReadyPriority ::= λ b, Z.lor b (prio_bit (uxPriority x')) |> <| k_lists := s3 |>) in *.
  rewrite Hpx' in Hinv3. change (vend _ _ _) with (vwake t (uxPriority x) v) in Hinv3.
  assert (xTickCount k = xTickCount k3) as Htick by (unfold k3; by rewrite Heq2).
  rewrite Htick in Hinv3. change (kinv k3 (vwake t (uxPriority x) v)) in Hinv3.
  assert (prio_above_current k3 t ↔ prio_above_current k t) as Hab.
  { unfold k3, prio_above_current. rewrite Heq2. simpl. unfold x' in *.
    destruct b; [|done]. split; intros (c & z & y & Hc & Hy & Hz & Hlt).
    - rewrite lookup_insert_eq in Hz. simplify_eq. simpl in Hlt.
      destruct (decide (t = c)) as [->|Hne].
      + rewrite lookup_insert_eq in Hy. simplify_eq. simpl in Hlt. lia.
      + rewrite lookup_insert_ne in Hy by done. by exists c, x, y.
    - simplify_eq. exists c, (x <| ucDelayAborted := true |>).
      destruct (decide (t = c)) as [->|Hne].
      + simplify_eq. lia.
      + exists y. rewrite lookup_insert_ne, lookup_insert_eq by done. done. }
  apply wp_bind. eapply (wp_preempts_iff k3 _ t x'); [exact Hinv3|exact Hx2|]. intros b' Hb'.
  apply wp_bind, (wp_mono _ (λ _ k4, k4 = if b' then k3 <| xYieldPendings := true |> else k3)).
  { destruct b'; [by apply wp_modify|by apply wp_ret]. }
  assert (woken (k_tcbs k) [t] v (vwake t (uxPriority x) v)) as Hwk.
  { eapply (vwake_woken (k_lists k) s1 s2); [apply Hinv|exact Hk1|exact Hk2|exact Hx|].
    apply list_ready; [apply Hinv|]. pose proof (ki_prio _ _ _ Hinv _ _ Hx). simpl in *. lia. }
  intros [] k4 ->. apply wp_ret. apply (HQ _ b); [| | |exact Hwk].
  - apply (kok_after_ready idle k3 _ t b' k3); [exact Hinv3|done| |].
    + destruct (in_list_tcb (ki_rep _ _ _ Hinv) _ _ Hp) as [z Hz]. exists p.
      eapply woken_ready; [apply Hinv|exact Hwk|exact Hz|done].
    + rewrite Hab. unfold k3. rewrite Heq2. simpl.
      destruct Hs as [?|[?|Hnb]]; [by left|by right; left|]. right. right.
      destruct (decide (b' = true)) as [Hbt|Hbt]; [left; by apply Hab, Hb'|]. right.
      intros t' q c y Hin Hc Hy. simpl in Hc, Hy.
      unfold vwake in Hin.
      apply (in_list_vend Hk2) in Hin as [[[= ->] [= ->]]|Hin].
      * destruct (decide (uxPriority y < uxPriority x)) as [Hlt|]; [|lia].
        destruct Hbt. apply Hb', Hab. destruct b; [|by exists c, x, y].
        destruct (decide (t = c)) as [->|Hne].
        -- rewrite lookup_insert_eq in Hy. simplify_eq. lia.
        -- rewrite lookup_insert_ne in Hy by done. by exists c, x, y.
      * apply (in_list_vrem Hk1) in Hin as [[Hin _]%(in_list_vrem (ki_rep _ _ _ Hinv)) _].
        destruct b; [|by eapply Hnb]. destruct (decide (t = c)) as [->|Hne].
        -- rewrite lookup_insert_eq in Hy. simplify_eq. rewrite Hpx'. by eapply Hnb.
        -- rewrite lookup_insert_ne in Hy by done. by eapply Hnb.
      * apply vrem_list, vrem_list. apply list_ready; [apply Hinv|].
        pose proof (ki_prio _ _ _ Hinv _ _ Hx). simpl in *. lia.
  - exists s3, (Z.lor (uxTopReadyPriority k) (prio_bit (uxPriority x'))),
      (if b' then true else xYieldPendings k).
    split; [unfold k3; rewrite Heq2; unfold x'; by destruct b', b|]. intros Ha%Hab%Hb'. by rewrite Ha.
  - exact Hb.
Qed.

Lemma wp_xTaskAbortDelay k v t x :
  kok idle k v → k_tcbs k !! t = Some x → uxSchedulerSuspended k + 1 < MAX32 →
  wp (xTaskAbortDelay t) (λ b k', ∃ v', kok idle k' v' ∧ (b = true → pxCurrentTCB k ≠ Some t)) k.
Proof.
  intros Hk Hx Hlt. unfold xTaskAbortDelay. apply wp_bind.
  pose proof (is_u32 _ _ _ (ki_susp _ _ _ (ko_inv _ _ _ Hk))) as Hu.
  apply (wp_vTaskSuspendAll idle k v); [done|done|]. intros k1 Hk1 Heq1.
  assert (k_tcbs k1 !! t = Some x) as Hx1 by by rewrite Heq1.
  assert (pxCurrentTCB k1 = pxCurrentTCB k) as Hc1 by by rewrite Heq1.
  apply wp_bind. eapply (wp_eTaskGetState k1 v t x); [apply Hk1|done|]. intros st Hrun Hblk _.
  assert (∀ (b : bool) k2 v2, kok idle k2 v2 → uxSchedulerSuspended k2 = uxSchedulerSuspended k1 →
    (b = true → pxCurrentTCB k ≠ Some t) →
    wp (let* _ := xTaskResumeAll in retM b) (λ b k', ∃ v', kok idle k' v' ∧
      (b = true → pxCurrentTCB k ≠ Some t)) k2) as Hend.
  { intros b k2 v2 Hk2 Hsu2 Hcur. apply wp_bind. eapply wp_mono.
    { apply (wp_xTaskResumeAll_ok idle k2 v2 Hk2). rewrite Hsu2, Heq1. simpl. unfold u32 in Hu. lia. }
    intros b' k3 (v3 & Hk3 & _). apply wp_ret. by exists v3. }
  apply wp_bind.
  destruct st; try (apply wp_ret; by apply (Hend false k1 v)).
  apply (wp_abort_blocked k1 v t x); [done..|]. intros k2 b Hk2 (s & top & y & -> & _) _ _.
  eapply Hend; [exact Hk2|done|]. intros _ Hcur. rewrite <- Hc1 in Hcur. by apply Hrun in Hcur.
Qed.
End ops.
