(* ===== verification/TasksPrio.v ===== *)
(** * Priorities and priority inheritance

    [vTaskPrioritySet], and the three operations by which a mutex lends its
    waiters' priority to its holder and takes it back. *)
From S2P Require Import Prelude KList KListSpec KListProps Tasks TasksView TasksInv TasksTick.
From S2P Require Import TasksSwitch TasksBlock TasksResume TasksDelay TasksOps.

(** ** A change of priority *)

Section prio.
Context (k : kernel) (v : lview) (lo : Z) (t : Z) (x x' : TCB_t).
Context (Hx : k_tcbs k !! t = Some x).
Context (Hb : 0 ≤ uxBasePriority x' ≤ uxPriority x' ∧ uxPriority x' < configMAX_PRIORITIES).
Let k' : kernel := k <| k_tcbs ::= <[t := x']> |>.

Lemma tcbs_dom t' : is_Some (<[t := x']> (k_tcbs k) !! t') ↔ is_Some (k_tcbs k !! t').
Proof.
  destruct (decide (t = t')) as [->|?].
  - rewrite lookup_insert_eq, Hx. split; eauto.
  - by rewrite lookup_insert_ne.
Qed.

(** The task is in no ready list: its priority is only a number. *)
Lemma kinv_prio_blocked :
  kinv_from lo k v → ¬ in_list v (StateItem t) (ReadyL (uxPriority x)) → kinv_from lo k' v.
Proof.
  intros [Hk Hl Hr Hp Hst Hd Hsu Hc Hn] Hni. split; simpl; try done.
  - by eapply krep_tcb.
  - destruct Hr as [Hpr Hnn Hbits]. split; [|done|done]. intros t' p y Hin Hy.
    destruct (decide (t = t')) as [<-|Hne].
    + destruct Hni. by rewrite (Hpr t p x Hin Hx).
    + rewrite lookup_insert_ne in Hy by done. by eapply Hpr.
  - by apply i_prio_tcb.
  - by eapply i_state_tcb.
  - destruct (pxCurrentTCB k) as [c|]; [|by destruct Hc]. simpl in *. by apply tcbs_dom.
Qed.

(** The task is out of its ready list, and the bitmap is repaired. *)
Lemma kinv_prio_leave s (n : Z) :
  kinv_from lo k v → in_list v (StateItem t) (ReadyL (uxPriority x)) →
  krep s (<[t := x']> (k_tcbs k)) (vrem (StateItem t) v) →
  n = Z.of_nat (length (vitems (vrem (StateItem t) v) (ReadyL (uxPriority x)))) →
  kinv_hole t (-1) lo (k <| k_tcbs ::= <[t := x']> |> <| k_lists := s |> <| uxTopReadyPriority :=
    if n =? 0 then Z.land (uxTopReadyPriority k) (Z.lnot (prio_bit (uxPriority x)))
    else uxTopReadyPriority k |>) (vrem (StateItem t) v).
Proof.
  intros Hinv Hin Hks Hn.
  assert (krep s (k_tcbs k) (vrem (StateItem t) v)) as Hks'.
  { rewrite <- (insert_id (k_tcbs k) t x Hx), <- (insert_insert_eq (k_tcbs k) t x x').
    eapply krep_tcb; [done|]. by apply lookup_insert_eq. }
  destruct (kinv_leave_ready k v lo t x s n Hinv Hx Hin Hks' Hn) as [Hk Hl Hr Hp Hno Hst Hd Hsu Hc Hcn].
  split; simpl in *; try done.
  - eapply i_ready_tcbs; [exact Hr|]. intros t' p y Hin' Hy.
    destruct (decide (t = t')) as [<-|Hne]; [by apply Hno in Hin'|].
    rewrite lookup_insert_ne in Hy by done. eauto.
  - by apply i_prio_tcb.
  - intros t' Hne HT. apply Hst; [done|]. by apply tcbs_dom.
  - destruct (pxCurrentTCB k) as [c|]; [|by destruct Hc]. simpl in *. by apply tcbs_dom.
Qed.
End prio.

(** Setting the value of an event item. *)
Lemma kinv_vval_event lo k v t z s :
  kinv_from lo k v → krep s (k_tcbs k) (vval (EventItem t) z v) →
  kinv_from lo (k <| k_lists := s |>) (vval (EventItem t) z v).
Proof.
  intros [Hk Hl Hr Hp Hst Hd Hsu Hc Hn] Hks. split; simpl; try done.
  - by apply (i_lists_vval (v:=v)).
  - by apply (i_ready_other (v:=v)).
  - destruct (id_which _ _ _ _ _ _ Hd) as [[HD HO]|[HD HO]];
      (apply i_delay_vval; [| |done]; rewrite ?HD, ?HO; intros Hin; by apply (il_kind _ Hl) in Hin).
  - by apply (i_susp_ext _ _ _ Hsu).
Qed.

(** [setEventItemPriority] changes at most the value of the event item. *)
Definition event_value_only (t : Z) (v v' : lview) : Prop := v' = v ∨ ∃ z, v' = vval (EventItem t) z v.

Lemma event_value_in_list t v v' i l : event_value_only t v v' → in_list v' i l ↔ in_list v i l.
Proof. by intros [->|[z ->]]. Qed.

Lemma wp_setEventItemPriority k v t p (Q : unit → kernel → Prop) :
  krep (k_lists k) (k_tcbs k) v → is_Some (k_tcbs k !! t) →
  (∀ s v', krep s (k_tcbs k) v' → event_value_only t v v' → Q tt (k <| k_lists := s |>)) →
  wp (setEventItemPriority t p) Q k.
Proof.
  intros Hk Ht HQ. unfold setEventItemPriority. apply wp_bind, wp_kl.
  eapply ws_value; [exact Hk|done|].
  destruct (_ =? 0).
  - apply wp_kl. simpl. eapply ws_setval; [exact Hk|done|apply wrap32_u32|]. intros s Hs.
    eapply (HQ s); [exact Hs|]. right. by eexists.
  - apply wp_ret. apply (HQ _ v); [done|by left].
Qed.

Section ops.
Context (idle : Z).

(** The contents after a task changes priority: if it was ready, it is at the
    end of its new ready list. *)
Definition moved (t : Z) (x x' : TCB_t) (v v' : lview) : Prop :=
  ∀ i l, in_list v' i l ↔
    if decide (in_list v (StateItem t) (ReadyL (uxPriority x)) ∧ i = StateItem t)
    then l = ReadyL (uxPriority x') else in_list v i l.

Lemma moved_idle k t x x' v v' :
  krep (k_lists k) (k_tcbs k) v → moved t x x' v v' →
  (∃ p, in_list v (StateItem idle) (ReadyL p)) → ∃ p, in_list v' (StateItem idle) (ReadyL p).
Proof.
  intros Hk Hm [p Hp].
  destruct (decide (in_list v (StateItem t) (ReadyL (uxPriority x)) ∧ StateItem idle = StateItem t)) as [Hd|Hd].
  - exists (uxPriority x'). apply Hm. by rewrite decide_True.
  - exists p. apply Hm. by rewrite decide_False.
Qed.

(** After the TCB has changed: the event item is updated and a ready task is
    moved. *)
Lemma wp_move_ready k v t x x' (Q : unit → kernel → Prop) :
  kinv k v → k_tcbs k !! t = Some x →
  0 ≤ uxBasePriority x' ≤ uxPriority x' ∧ uxPriority x' < configMAX_PRIORITIES →
  in_list v (StateItem t) (ReadyL (uxPriority x)) →
  (∀ s top v', let k' := set_ready s top k <| k_tcbs := <[t := x']> (k_tcbs k) |> in
     kinv k' v' → moved t x x' v v' → Q tt k') →
  wp (moveReady t (uxPriority x)) Q (k <| k_tcbs ::= <[t := x']> |>).
Proof.
  intros Hinv Hx Hb Hin HQ. unfold moveReady. pose proof (ki_rep _ _ _ Hinv) as Hk.
  assert (krep (k_lists k) (<[t := x']> (k_tcbs k)) v) as Hk' by (by eapply krep_tcb).
  apply wp_bind, wp_kl. eapply ws_uxListRemove; [exact Hk'|exact Hin|]. intros s1 n Hk1 Hn.
  pose proof (kinv_prio_leave k v _ t x x' Hx Hb s1 n Hinv Hin Hk1 Hn) as Hhole.
  set (top := if n =? 0 then Z.land (uxTopReadyPriority k) (Z.lnot (prio_bit (uxPriority x)))
    else uxTopReadyPriority k) in *.
  apply wp_bind, (wp_mono _ (λ _ k2, k2 = k <| k_tcbs ::= <[t := x']> |> <| k_lists := s1 |>
    <| uxTopReadyPriority := top |>)).
  { unfold top. destruct (n =? 0); [by apply wp_modify|by apply wp_ret; destruct k]. }
  intros [] k2 ->.
  assert (is_Some (rings (vrem (StateItem t) v) !! ReadyL (uxPriority x'))) as HR.
  { apply list_ready; [apply Hhole|lia]. }
  eapply (wp_prvAddTaskToReadyList _ (vrem (StateItem t) v) t x'); [apply Hhole|by apply lookup_insert_eq|apply Hhole|done|].
  simpl. intros s2 Hk2.
  assert (i_ready_but (uxPriority x') (<[t:=x']> (k_tcbs k)) top (vrem (StateItem t) v)) as Hr'.
  { apply (i_ready_weaken (T:=<[t:=x']> (k_tcbs k))). apply Hhole. }
  assert (kinv_hole t (uxPriority x') (xTickCount k)
    (k <| k_tcbs ::= <[t := x']> |> <| k_lists := s1 |> <| uxTopReadyPriority := top |>)
    (vrem (StateItem t) v)) as Hhole' by (destruct Hhole; by split).
  refine (HQ s2 _ _ (kinv_enter_ready _ _ _ t x' s2 Hhole' _ Hk2) _).
  { by apply lookup_insert_eq. }
  intros i l. rewrite (in_list_vend Hk1) by done. rewrite (in_list_vrem Hk').
  case_decide as Hd.
  - destruct Hd as [_ ->]. split; [by intros [[_ ?]|[_ ?]]|]. intros ->. by left.
  - assert (i ≠ StateItem t) by naive_solver. split; [by intros [[? _]|[? _]]|]. by right.
Qed.

Lemma krep_tcb_back s T v t x x' : krep s (<[t := x']> T) v → T !! t = Some x → krep s T v.
Proof.
  intros Hk Hx. rewrite <- (insert_id T t x Hx), <- (insert_insert_eq T t x x').
  eapply krep_tcb; [done|]. by apply lookup_insert_eq.
Qed.

Lemma kinv_event_value lo k v v' t s :
  kinv_from lo k v → event_value_only t v v' → krep s (k_tcbs k) v' →
  kinv_from lo (k <| k_lists := s |>) v'.
Proof.
  intros Hinv [->|[z ->]] Hks; [|by apply kinv_vval_event]. by destruct Hinv; split.
Qed.

Lemma moved_event t x x' v v1 v' :
  event_value_only t v v1 → moved t x x' v1 v' → moved t x x' v v'.
Proof.
  intros Hev Hm i l. rewrite (Hm i l).
  assert (∀ j l', in_list v1 j l' ↔ in_list v j l') as Heq.
  { intros j l'. by apply (event_value_in_list t). }
  destruct (decide (in_list v1 _ _ ∧ _)) as [[H1 ->]|H1].
  - rewrite decide_True; [done|]. split; [by apply Heq|done].
  - rewrite decide_False; [apply Heq|]. intros [H2 ->]. apply H1. split; [by apply Heq|done].
Qed.

(** The common part of the operations that give [t] the TCB [x'], another
    priority among its changes: the event item is updated, and a task found in
    the ready list of its old priority is moved. *)
Lemma wp_change_priority k v t x x' p (Q : unit → kernel → Prop) :
  kinv k v → k_tcbs k !! t = Some x →
  0 ≤ uxBasePriority x' ≤ uxPriority x' ∧ uxPriority x' < configMAX_PRIORITIES →
  (∀ s top v', let k' := set_ready s top k <| k_tcbs := <[t := x']> (k_tcbs k) |> in
     kinv k' v' → moved t x x' v v' → Q tt k') →
  wp (setEventItemPriority t p ;>
      let* ready := kl (listIS_CONTAINED_WITHIN (ReadyL (uxPriority x)) (StateItem t)) in
      when ready then moveReady t (uxPriority x)) Q (k <| k_tcbs ::= <[t := x']> |>).
Proof.
  intros Hinv Hx Hb HQ. pose proof (ki_rep _ _ _ Hinv) as Hk.
  assert (krep (k_lists k) (<[t := x']> (k_tcbs k)) v) as Hk' by (by eapply krep_tcb).
  assert (is_Some (<[t := x']> (k_tcbs k) !! t)) as Hsome by (rewrite lookup_insert_eq; eauto).
  apply wp_bind, (wp_setEventItemPriority _ v); [exact Hk'|exact Hsome|].
  simpl. intros s1 v1 Hk1 Hev.
  assert (kinv (k <| k_lists := s1 |>) v1) as Hinv1.
  { eapply (kinv_event_value _ k v); [done..|]. by eapply krep_tcb_back. }
  apply wp_bind, wp_kl. simpl. eapply ws_contained; [exact Hk1|exact Hsome|].
  intros b Hbr. rewrite (event_value_in_list t v v1) in Hbr by done. destruct b.
  - change (wp (moveReady t (uxPriority x)) Q (k <| k_lists := s1 |> <| k_tcbs ::= <[t := x']> |>)).
    eapply (wp_move_ready (k <| k_lists := s1 |>) v1 t x x'); [exact Hinv1|exact Hx|done| |].
    + apply (event_value_in_list t v v1); [done|]. by apply Hbr.
    + intros s top v' k'' Hk'' Hm. apply (HQ s top v'); [exact Hk''|]. by eapply moved_event.
  - apply wp_ret.
    assert (¬ in_list v (StateItem t) (ReadyL (uxPriority x))) as Hni by by intros ?%Hbr.
    assert (Q tt (set_ready s1 (uxTopReadyPriority k) k <| k_tcbs := <[t:=x']> (k_tcbs k) |>)) as HQ1;
      [|by destruct k].
    apply (HQ s1 _ v1).
    + pose (k1 := k <| k_lists := s1 |>).
      pose proof (kinv_prio_blocked k1 v1 _ t x x' Hx Hb Hinv1) as Hres.
      rewrite (event_value_in_list t v v1) in Hres by done. specialize (Hres Hni). by destruct k.
    + intros i l. rewrite (event_value_in_list t v v1) by done.
      rewrite decide_False; [done|]. by intros [? _].
Qed.

(** No better task waits after a change of priority that does not raise [t]
    above the running task, nor lower the running task. *)
Lemma moved_no_better k k' v v' t x x' :
  no_better k v → moved t x x' v v' →
  k_tcbs k !! t = Some x → k_tcbs k' = <[t := x']> (k_tcbs k) → pxCurrentTCB k' = pxCurrentTCB k →
  (pxCurrentTCB k = Some t → uxPriority x ≤ uxPriority x') →
  (∀ c y, pxCurrentTCB k = Some c → c ≠ t → k_tcbs k !! c = Some y →
     uxPriority x' ≤ uxPriority x ∨ uxPriority x' ≤ uxPriority y) →
  no_better k' v'.
Proof.
  intros Hnb Hm Hx HT Hcur Hself Hother u p c y Hin Hc Hy.
  rewrite HT in Hy. rewrite Hcur in Hc. apply Hm in Hin.
  destruct (decide (t = c)) as [->|Hne].
  - rewrite lookup_insert_eq in Hy. simplify_eq. specialize (Hself Hc).
    case_decide as Hd; [by simplify_eq|]. specialize (Hnb u p c x Hin Hc Hx). lia.
  - rewrite lookup_insert_ne in Hy by done. case_decide as Hd; [|by eapply Hnb].
    destruct Hd as [Hready _]. simplify_eq.
    pose proof (Hnb t _ c y Hready Hc Hy). destruct (Hother c y Hc) as [?|?]; [done|done|lia|done].
Qed.

(** ** [vTaskPrioritySet] *)

Definition prioritySet_tcb (x : TCB_t) (new : Z) : TCB_t :=
  x <| uxPriority := if (uxBasePriority x =? uxPriority x) || (uxPriority x <? new) then new
                     else uxPriority x |>
    <| uxBasePriority := new |>.

Lemma prioritySet_bounds x new :
  0 ≤ uxBasePriority x ≤ uxPriority x ∧ uxPriority x < configMAX_PRIORITIES →
  0 ≤ new < configMAX_PRIORITIES →
  0 ≤ uxBasePriority (prioritySet_tcb x new) ≤ uxPriority (prioritySet_tcb x new) ∧
  uxPriority (prioritySet_tcb x new) < configMAX_PRIORITIES.
Proof.
  intros Hx Hn. simpl. destruct (Z.eqb_spec (uxBasePriority x) (uxPriority x)); simpl; [lia|].
  destruct (Z.ltb_spec (uxPriority x) new); lia.
Qed.

Lemma wp_tcb_set2 k t x f (b : bool) g (Q : unit → kernel → Prop) :
  k_tcbs k !! t = Some x →
  Q tt (k <| k_tcbs ::= <[t := g (if b then f x else x)]> |>) →
  wp ((when b then tcb_set t f) ;> tcb_set t g) Q k.
Proof.
  intros Hx HQ. apply wp_bind. destruct b.
  - eapply wp_tcb_set; [exact Hx|]. eapply wp_tcb_set; [by apply lookup_insert_eq|].
    assert (k <| k_tcbs ::= <[t := f x]> |> <| k_tcbs ::= <[t := g (f x)]> |> =
      k <| k_tcbs ::= <[t := g (f x)]> |>) as ->; [|done].
    unfold set_field. simpl. by rewrite insert_insert_eq.
  - apply wp_ret. by eapply wp_tcb_set.
Qed.

Lemma wp_vTaskPrioritySet k v h t x new :
  kok idle k v → match h with Some u => u = t | None => pxCurrentTCB k = Some t end →
  k_tcbs k !! t = Some x → 0 ≤ new < configMAX_PRIORITIES →
  wp (vTaskPrioritySet h new) (λ _ k', ∃ v', kok idle k' v' ∧ pxCurrentTCB k' = pxCurrentTCB k ∧
    if decide (uxBasePriority x = new) then k' = k ∧ v' = v
    else k_tcbs k' = <[t := prioritySet_tcb x new]> (k_tcbs k) ∧
         moved t x (prioritySet_tcb x new) v v') k.
Proof.
  intros Hk Hh Hx Hnew. pose proof Hk as [Hinv Hs Hi]. unfold vTaskPrioritySet.
  apply wp_bind, wp_assert; [apply Z.ltb_lt; lia|].
  destruct (Z.leb_spec configMAX_PRIORITIES new) as [?|_]; [lia|].
  unfold critical. apply wp_bind, (wp_mono _ (λ o k', o = Some t ∧ k' = k)).
  { destruct h as [u|]; simpl; [apply wp_ret; by subst|by apply wp_gets]. }
  intros o ? [-> ->]. apply wp_bind, wp_assert; [done|]. apply wp_bind, wp_ret.
  apply wp_bind. eapply wp_tcb_get; [exact Hx|].
  destruct (Z.eqb_spec (uxBasePriority x) new) as [Heq|Hne].
  { apply wp_ret. exists v. by rewrite decide_True. }
  destruct (decide (uxBasePriority x = new)) as [|_]; [done|]. simpl. apply wp_bind, wp_getM.
  destruct (kinv_current _ _ _ Hinv) as (c & y & Hc & Hy).
  set (yld := if uxBasePriority x <? new
              then (if bool_decide (pxCurrentTCB k = Some t) then false else uxPriority y <? new)
              else bool_decide (pxCurrentTCB k = Some t)).
  apply wp_bind, (wp_mono _ (λ b k', b = yld ∧ k' = k)).
  { unfold yld. destruct (uxBasePriority x <? new); [|by apply wp_ret].
    case_bool_decide; [by apply wp_ret|]. apply wp_bind. eapply wp_current; [exact Hc|].
    apply wp_bind. eapply wp_tcb_get; [exact Hy|]. by apply wp_ret. }
  intros b ? [-> ->]. apply wp_bind. eapply wp_tcb_get; [exact Hx|].
  set (x' := prioritySet_tcb x new).
  pose proof (prioritySet_bounds x new (ki_prio _ _ _ Hinv _ _ Hx) Hnew) as Hb. fold x' in Hb.
  apply (wp_bind_assoc _ (λ _, tcb_set t (λ x, x <| uxBasePriority := new |>))), wp_bind.
  eapply wp_tcb_set2; [exact Hx|].
  assert ((if (uxBasePriority x =? uxPriority x) || (uxPriority x <? new)
           then x <| uxPriority := new |> else x) <| uxBasePriority := new |> = x') as Hx'.
  { unfold x', prioritySet_tcb, set_field. simpl. by destruct (_ || _). }
  rewrite Hx'. apply wp_bind_assoc2.
  eapply (wp_change_priority k v t x x'); [exact Hinv|exact Hx|exact Hb|].
  intros s top v' k' Hinv' Hm.
  assert (∃ p, in_list v' (StateItem idle) (ReadyL p)) as Hi'.
  { eapply moved_idle; [apply Hinv|exact Hm|exact Hi]. }
  pose proof (eq_refl yld) as Hyld. unfold yld at 2 in Hyld. clearbody yld.
  destruct yld; symmetry in Hyld.
  - apply wp_portYIELD. exists v'. split_and!; [|done|done|exact Hm].
    split; [by apply kinv_pendsv|by left|done].
  - apply wp_ret. exists v'. split_and!; [|done|done|exact Hm].
    split; [exact Hinv'| |done].
    destruct Hs as [?|[?|Hnb]]; [by left|by right; left|]. right. right.
    pose proof (ki_prio _ _ _ Hinv _ _ Hx) as Hpx. simpl in Hpx.
    eapply (moved_no_better k k' v v' t x x'); [exact Hnb|exact Hm|exact Hx|done|done| |].
    + intros Hct. rewrite bool_decide_eq_true_2 in Hyld by done.
      destruct (Z.ltb_spec (uxBasePriority x) new); [|done].
      unfold x', prioritySet_tcb. simpl.
      destruct (Z.eqb_spec (uxBasePriority x) (uxPriority x)); simpl; [lia|].
      destruct (Z.ltb_spec (uxPriority x) new); lia.
    + intros c' y' Hc' Hne' Hy'. simplify_eq.
      rewrite bool_decide_eq_false_2 in Hyld by congruence.
      unfold prioritySet_tcb. simpl.
      destruct (Z.eqb_spec (uxBasePriority x) (uxPriority x)); simpl;
        destruct (Z.ltb_spec (uxPriority x) new); destruct (Z.ltb_spec (uxBasePriority x) new);
        simpl; try lia; destruct (Z.ltb_spec (uxPriority y) new); try done; lia.
Qed.

(** ** Priority inheritance *)

Lemma kinv_hole_prio t e lo k v x x' :
  kinv_hole t e lo k v → k_tcbs k !! t = Some x →
  0 ≤ uxBasePriority x' ≤ uxPriority x' ∧ uxPriority x' < configMAX_PRIORITIES →
  kinv_hole t e lo (k <| k_tcbs ::= <[t := x']> |>) v.
Proof.
  intros [Hk Hl Hr Hp Hno Hst Hd Hsu Hc Hn] Hx Hb. split; simpl; try done.
  - by eapply krep_tcb.
  - eapply i_ready_tcbs; [exact Hr|]. intros t' p z Hin Hz.
    destruct (decide (t = t')) as [<-|Hne]; [by apply Hno in Hin|].
    rewrite lookup_insert_ne in Hz by done. eauto.
  - by apply i_prio_tcb.
  - intros t' Hne HT. apply Hst; [done|]. by rewrite lookup_insert_ne in HT.
  - destruct (pxCurrentTCB k) as [c|]; [|by destruct Hc]. simpl in *.
    destruct (decide (t = c)) as [->|?]; [by rewrite lookup_insert_eq|by rewrite lookup_insert_ne].
Qed.

(** The move of a ready task whose TCB changes after it has left its list. *)
Lemma wp_move_ready_late k v t x (f : TCB_t → TCB_t) (ev : K unit) (Q : unit → kernel → Prop) :
  let x' := f x in
  kinv k v → k_tcbs k !! t = Some x →
  0 ≤ uxBasePriority x' ≤ uxPriority x' ∧ uxPriority x' < configMAX_PRIORITIES →
  in_list v (StateItem t) (ReadyL (uxPriority x)) →
  (∀ k1 v1 (R : unit → kernel → Prop), krep (k_lists k1) (k_tcbs k1) v1 → is_Some (k_tcbs k1 !! t) →
     (∀ s v2, krep s (k_tcbs k1) v2 → event_value_only t v1 v2 → R tt (k1 <| k_lists := s |>)) →
     wp ev R k1) →
  (∀ s top v', let k' := set_ready s top k <| k_tcbs := <[t := x']> (k_tcbs k) |> in
     kinv k' v' → moved t x x' v v' → Q tt k') →
  wp (let* n := kl (uxListRemove (StateItem t)) in
      (when n =? 0 then portRESET_READY_PRIORITY (uxPriority x)) ;>
      tcb_set t f ;> ev ;> prvAddTaskToReadyList t) Q k.
Proof.
  intros x' Hinv Hx Hb Hin Hev HQ. pose proof (ki_rep _ _ _ Hinv) as Hk.
  apply wp_bind, wp_kl. eapply ws_uxListRemove; [exact Hk|exact Hin|]. intros s1 n Hk1 Hn.
  pose proof (kinv_leave_ready k v _ t x s1 n Hinv Hx Hin Hk1 Hn) as Hhole.
  set (top := if n =? 0 then Z.land (uxTopReadyPriority k) (Z.lnot (prio_bit (uxPriority x)))
    else uxTopReadyPriority k) in *.
  apply wp_bind, (wp_mono _ (λ _ k2, k2 = k <| k_lists := s1 |> <| uxTopReadyPriority := top |>)).
  { unfold top. destruct (n =? 0); [by apply wp_modify|by apply wp_ret; destruct k]. }
  intros [] k2 ->. apply wp_bind. eapply wp_tcb_set; [exact Hx|]. fold x'.
  pose proof (kinv_hole_prio t _ _ _ _ x x' Hhole Hx Hb) as Hhole2.
  set (k2 := k <| k_lists := s1 |> <| uxTopReadyPriority := top |> <| k_tcbs ::= <[t := x']> |>) in *.
  assert (k_tcbs k2 !! t = Some x') as Hx2 by by apply lookup_insert_eq.
  apply wp_bind, (Hev k2 (vrem (StateItem t) v)); [apply Hhole2|by rewrite Hx2|].
  intros s2 v2 Hk2 Hev2.
  assert (kinv_hole t (uxPriority x') (xTickCount k) (k2 <| k_lists := s2 |>) v2) as Hhole3.
  { assert (kinv_hole t (-1) (xTickCount k) (k2 <| k_lists := s2 |>) v2) as [? ? Hr ? ? ? ? ? ? ?].
    { destruct Hev2 as [->|[z ->]]; destruct Hhole2 as [? Hl Hr ? Hno ? Hd Hsu ? ?]; split; try done.
      - by apply (i_lists_vval (v:=vrem (StateItem t) v)).
      - by apply (i_ready_other (v:=vrem (StateItem t) v)).
      - destruct (id_which _ _ _ _ _ _ Hd) as [[HD HO]|[HD HO]];
          (apply i_delay_vval; [| |done]; simpl in *; rewrite ?HD, ?HO; intros Hbad;
           by apply (il_kind _ Hl) in Hbad).
      - by apply (i_susp_ext _ _ _ Hsu). }
    split; try done. by apply (i_ready_weaken (T:=k_tcbs k2)). }
  eapply (wp_prvAddTaskToReadyList _ v2 t x'); [exact Hk2|exact Hx2|apply Hhole3| |].
  { apply list_ready; [apply Hhole3|lia]. }
  intros s3 Hk3.
  refine (HQ s3 _ _ (kinv_enter_ready _ _ _ t x' s3 Hhole3 Hx2 Hk3) _).
  intros i l. rewrite (in_list_vend Hk2) by (apply list_ready; [apply Hhole3|lia]).
  rewrite (event_value_in_list t _ v2) by done. rewrite (in_list_vrem Hk).
  case_decide as Hd.
  - destruct Hd as [_ ->]. split; [by intros [[_ ?]|[_ ?]]|]. intros ->. by left.
  - assert (i ≠ StateItem t) by naive_solver. split; [by intros [[? _]|[? _]]|]. by right.
Qed.

Definition inherit_tcb (x : TCB_t) (p : Z) : TCB_t := x <| uxPriority := p |>.

Lemma wp_xTaskPriorityInherit k v h x c y :
  kok idle k v → k_tcbs k !! h = Some x → pxCurrentTCB k = Some c → k_tcbs k !! c = Some y →
  wp (xTaskPriorityInherit (Some h)) (λ b k', ∃ v', kok idle k' v' ∧
    pxCurrentTCB k' = pxCurrentTCB k ∧ uxSchedulerSuspended k' = uxSchedulerSuspended k ∧
    if decide (uxPriority x < uxPriority y)
    then b = true ∧ k_tcbs k' = <[h := inherit_tcb x (uxPriority y)]> (k_tcbs k) ∧
         moved h x (inherit_tcb x (uxPriority y)) v v'
    else b = (uxBasePriority x <? uxPriority y) ∧ k' = k ∧ v' = v) k.
Proof.
  intros Hk Hx Hc Hy. pose proof Hk as [Hinv Hs Hi]. unfold xTaskPriorityInherit.
  apply wp_bind. eapply wp_tcb_get; [exact Hx|]. apply wp_bind. eapply wp_current; [exact Hc|].
  apply wp_bind. eapply wp_tcb_get; [exact Hy|].
  destruct (Z.ltb_spec (uxPriority x) (uxPriority y)) as [Hlt|Hge].
  2: { apply wp_bind. eapply wp_tcb_get; [exact Hx|]. apply wp_ret. exists v.
       split_and!; [done..|]. rewrite decide_False by lia. done. }
  destruct (decide (uxPriority x < uxPriority y)) as [_|]; [|done].
  set (x' := inherit_tcb x (uxPriority y)).
  assert (0 ≤ uxBasePriority x' ≤ uxPriority x' ∧ uxPriority x' < configMAX_PRIORITIES) as Hb.
  { pose proof (ki_prio _ _ _ Hinv _ _ Hx). pose proof (ki_prio _ _ _ Hinv _ _ Hy).
    unfold x'. simpl in *. lia. }
  apply wp_bind, (wp_setEventItemPriority _ v); [apply Hinv|eauto|]. intros s1 v1 Hk1 Hev.
  assert (kinv (k <| k_lists := s1 |>) v1) as Hinv1 by by eapply (kinv_event_value _ k v).
  pose (k1 := k <| k_lists := s1 |>).
  assert (∀ s top v', let k' := set_ready s top k <| k_tcbs := <[h := x']> (k_tcbs k) |> in
    kinv k' v' → moved h x x' v v' → ∃ v'', kok idle k' v'' ∧
    pxCurrentTCB k' = pxCurrentTCB k ∧ uxSchedulerSuspended k' = uxSchedulerSuspended k ∧
    true = true ∧ k_tcbs k' = <[h := x']> (k_tcbs k) ∧ moved h x x' v v'') as Hend.
  { intros s top v' k' Hinv' Hm. exists v'. split_and!; [|done..|exact Hm].
    split; [exact Hinv'| |by eapply moved_idle; [apply Hinv|..]].
    destruct Hs as [?|[?|Hnb]]; [by left|by right; left|]. right. right.
    eapply (moved_no_better k k' v v' h x x'); [exact Hnb|exact Hm|exact Hx|done|done| |].
    - intros _. unfold x'. simpl. lia.
    - intros c' y' Hc' _ Hy'. simplify_eq. by right. }
  apply wp_bind, wp_kl. simpl. eapply ws_contained; [exact Hk1|simpl; eauto|].
  intros b Hbr. rewrite (event_value_in_list h v v1) in Hbr by done.
  apply wp_bind. destruct b.
  - change (wp (let* n := kl (uxListRemove (StateItem h)) in
      (when n =? 0 then portRESET_READY_PRIORITY (uxPriority x)) ;>
      tcb_set h (λ x, inherit_tcb x (uxPriority y)) ;> retM tt ;> prvAddTaskToReadyList h)
      (λ _, wp (retM true) (λ b k', ∃ v', kok idle k' v' ∧
        pxCurrentTCB k' = pxCurrentTCB k ∧ uxSchedulerSuspended k' = uxSchedulerSuspended k ∧
        b = true ∧ k_tcbs k' = <[h := x']> (k_tcbs k) ∧ moved h x x' v v')) k1).
    eapply (wp_move_ready_late k1 v1 h x (λ x, inherit_tcb x (uxPriority y)));
      [exact Hinv1|exact Hx|exact Hb| | |].
    + apply (event_value_in_list h v v1); [done|]. by apply Hbr.
    + intros k2 v2 R Hk2 _ HR. apply wp_ret. specialize (HR (k_lists k2) v2 Hk2).
      destruct k2. apply HR. by left.
    + intros s top v' k' Hinv' Hm. apply wp_ret. apply (Hend s top v'); [exact Hinv'|].
      by eapply moved_event.
  - eapply wp_tcb_set; [exact Hx|]. apply wp_ret.
    assert (¬ in_list v (StateItem h) (ReadyL (uxPriority x))) as Hni by by intros ?%Hbr.
    pose proof (kinv_prio_blocked k1 v1 _ h x x' Hx Hb Hinv1) as Hres.
    rewrite (event_value_in_list h v v1) in Hres by done. specialize (Hres Hni).
    assert (moved h x x' v v1) as Hm.
    { intros i l. rewrite (event_value_in_list h v v1) by done.
      rewrite decide_False; [done|]. by intros [? _]. }
    exact (Hend s1 (uxTopReadyPriority k) v1 Hres Hm).
Qed.

Definition disinherit_tcb (x : TCB_t) : TCB_t :=
  let held := wrap32 (uxMutexesHeld x - 1) in
  x <| uxMutexesHeld := held |>
    <| uxPriority := if held =? 0 then uxBasePriority x else uxPriority x |>.

(** [xTaskPriorityDisinherit] by the running task that holds a mutex.  When it
    answers [pdTRUE] the caller must yield. *)
Lemma wp_xTaskPriorityDisinherit k v c x :
  kok idle k v → current_ready k v c x → 0 < uxMutexesHeld x < MAX32 →
  wp (xTaskPriorityDisinherit (Some c)) (λ b k', ∃ v', kinv k' v' ∧
    (∃ p, in_list v' (StateItem idle) (ReadyL p)) ∧
    (b = false → sched_ok k' v') ∧
    b = negb (uxPriority x =? uxBasePriority x) && (uxMutexesHeld x =? 1) ∧
    pxCurrentTCB k' = pxCurrentTCB k ∧ uxSchedulerSuspended k' = uxSchedulerSuspended k ∧
    k_tcbs k' = <[c := disinherit_tcb x]> (k_tcbs k) ∧
    moved c x (disinherit_tcb x) v v') k.
Proof.
  intros Hk (Hc & Hx & Hin) Hheld. pose proof Hk as [Hinv Hs Hi].
  unfold xTaskPriorityDisinherit. apply wp_bind, wp_getM, wp_bind, wp_assert.
  { by apply bool_decide_eq_true. }
  apply wp_bind. eapply wp_tcb_get; [exact Hx|]. apply wp_bind, wp_assert.
  { destruct (Z.eqb_spec (uxMutexesHeld x) 0); [lia|done]. }
  set (held := wrap32 (uxMutexesHeld x - 1)).
  assert (held = uxMutexesHeld x - 1) as Hhv by (apply wrap32_small; unfold u32; lia).
  assert ((held =? 0) = (uxMutexesHeld x =? 1)) as Hh1.
  { rewrite Hhv. destruct (Z.eqb_spec (uxMutexesHeld x) 1), (Z.eqb_spec (uxMutexesHeld x - 1) 0); lia || done. }
  set (x1 := x <| uxMutexesHeld := held |>).
  apply wp_bind. eapply wp_tcb_set; [exact Hx|].
  assert (kinv (k <| k_tcbs ::= <[c := x1]> |>) v) as Hinv1.
  { apply (kinv_tcb _ k v c x x1 Hinv Hx); [done|].
    pose proof (ki_prio _ _ _ Hinv _ _ Hx). simpl in *. lia. }
  change (x <| uxMutexesHeld ::= λ n, wrap32 (n - 1) |>) with x1.
  set (k1 := k <| k_tcbs ::= <[c := x1]> |>) in *.
  assert (k_tcbs k1 !! c = Some x1) as Hx1 by by apply lookup_insert_eq.
  do 3 (apply wp_bind; eapply wp_tcb_get; [exact Hx1|]).
  change (uxPriority x1) with (uxPriority x). change (uxBasePriority x1) with (uxBasePriority x).
  change (uxMutexesHeld x1) with held. rewrite Hh1.
  pose proof (ki_prio _ _ _ Hinv _ _ Hx) as Hpx. simpl in Hpx.
  destruct (negb (uxPriority x =? uxBasePriority x) && (uxMutexesHeld x =? 1)) eqn:Hb.
  - apply andb_true_iff in Hb as [_ Hone].
    set (x2 := x1 <| uxPriority := uxBasePriority x |>).
    assert (x2 = disinherit_tcb x) as Hx2.
    { unfold x2, x1, disinherit_tcb, set_field. fold held. simpl. by rewrite Hh1, Hone. }
    set (Q := λ (b : bool) (k' : kernel), ∃ v', kinv k' v' ∧
      (∃ p, in_list v' (StateItem idle) (ReadyL p)) ∧ (b = false → sched_ok k' v') ∧ b = true ∧
      pxCurrentTCB k' = pxCurrentTCB k ∧ uxSchedulerSuspended k' = uxSchedulerSuspended k ∧
      k_tcbs k' = <[c := disinherit_tcb x]> (k_tcbs k) ∧ moved c x (disinherit_tcb x) v v').
    set (ev := kl (listSET_LIST_ITEM_VALUE (EventItem c) (wrap32 (configMAX_PRIORITIES - uxBasePriority x)))).
    enough (wp (let* n := kl (uxListRemove (StateItem c)) in
      (when n =? 0 then portRESET_READY_PRIORITY (uxPriority x1)) ;>
      tcb_set c (λ y, y <| uxPriority := uxBasePriority x |>) ;> ev ;> prvAddTaskToReadyList c)
      (λ _ k', Q true k') k1) as Hwp.
    { revert Hwp. unfold wp, bindM. destruct (kl (uxListRemove (StateItem c)) k1) as [[n k2]| | | |]; [|done..].
      change (uxPriority x1) with (uxPriority x).
      destruct ((when n =? 0 then portRESET_READY_PRIORITY (uxPriority x)) k2) as [[a k3]| | | |]; [|done..].
      destruct (tcb_set c _ k3) as [[a' k4]| | | |]; [|done..]. fold ev.
      destruct (ev k4) as [[a'' k5]| | | |]; [|done..].
      by destruct (prvAddTaskToReadyList c k5) as [[a3 k6]| | | |]. }
    eapply (wp_move_ready_late k1 v c x1 (λ y, y <| uxPriority := uxBasePriority x |>));
      [exact Hinv1|exact Hx1|simpl; lia|exact Hin| |].
    + intros k2 v2 R Hk2 Ht HR. apply wp_kl. eapply ws_setval; [exact Hk2|exact Ht|apply wrap32_u32|].
      intros s Hs2. eapply HR; [exact Hs2|]. right. by eexists.
    + intros s top v' k' Hinv' Hm. fold x2 in k', Hm. exists v'.
      assert (moved c x (disinherit_tcb x) v v') as Hm' by by rewrite <- Hx2.
      split_and!; [exact Hinv'| |done..| |exact Hm'].
      * eapply moved_idle; [apply Hinv|exact Hm'|exact Hi].
      * change (k_tcbs k') with (<[c:=x2]> (<[c:=x1]> (k_tcbs k))). by rewrite (insert_insert_eq (k_tcbs k)), Hx2.
  - apply wp_ret. exists v.
    assert (disinherit_tcb x = x1) as Hd.
    { unfold disinherit_tcb, x1, set_field. fold held. simpl. f_equal.
      destruct (Z.eqb_spec held 0) as [Hz|]; [|done].
      destruct (Z.eqb_spec (uxPriority x) (uxBasePriority x)); [done|].
      destruct (Z.eqb_spec (uxMutexesHeld x) 1); [done|lia]. }
    split_and!; [exact Hinv1|exact Hi| |done..| |].
    + intros _. destruct Hs as [?|[?|Hnb]]; [by left|by right; left|]. right. right.
      eapply no_better_sub; [exact Hnb|done|]. simpl. rewrite Hc. simpl.
      by rewrite lookup_insert_eq, Hx.
    + simpl. by rewrite Hd.
    + intros i l. rewrite Hd. case_decide as Hdec; [|done]. destruct Hdec as [_ ->].
      change (uxPriority x1) with (uxPriority x). split; [|by intros ->].
      intros Hl. by apply (in_list_unique (ki_rep _ _ _ Hinv) _ _ _ Hl Hin).
Qed.

(** The holder gives back part of what it has inherited, when a waiter of its
    only mutex has timed out. *)
Lemma wp_vTaskPriorityDisinheritAfterTimeout k v h x hw :
  kok idle k v → k_tcbs k !! h = Some x → 0 < uxMutexesHeld x → pxCurrentTCB k ≠ Some h →
  0 ≤ hw ≤ uxPriority x →
  wp (vTaskPriorityDisinheritAfterTimeout (Some h) hw) (λ _ k', ∃ v', kok idle k' v' ∧
    pxCurrentTCB k' = pxCurrentTCB k ∧ uxSchedulerSuspended k' = uxSchedulerSuspended k ∧
    let p := Z.max (uxBasePriority x) hw in
    if decide (uxMutexesHeld x = 1 ∧ uxPriority x ≠ p)
    then k_tcbs k' = <[h := x <| uxPriority := p |>]> (k_tcbs k) ∧
         moved h x (x <| uxPriority := p |>) v v'
    else k' = k ∧ v' = v) k.
Proof.
  intros Hk Hx Hheld Hc Hhw. pose proof Hk as [Hinv Hs Hi].
  unfold vTaskPriorityDisinheritAfterTimeout. apply wp_bind. eapply wp_tcb_get; [exact Hx|].
  apply wp_bind, wp_assert. { destruct (Z.eqb_spec (uxMutexesHeld x) 0); [lia|done]. }
  do 2 (apply wp_bind; eapply wp_tcb_get; [exact Hx|]).
  assert ((if uxBasePriority x <? hw then hw else uxBasePriority x) = Z.max (uxBasePriority x) hw) as ->.
  { destruct (Z.ltb_spec (uxBasePriority x) hw); lia. }
  set (p := Z.max (uxBasePriority x) hw).
  pose proof (ki_prio _ _ _ Hinv _ _ Hx) as Hpx. simpl in Hpx.
  destruct (Z.eqb_spec (uxPriority x) p) as [Heq|Hne]; simpl.
  { apply wp_ret. exists v. split_and!; [done..|]. rewrite decide_False; [done|]. naive_solver. }
  destruct (Z.eqb_spec (uxMutexesHeld x) 1) as [H1|H1].
  2: { apply wp_ret. exists v. split_and!; [done..|]. rewrite decide_False; [done|]. naive_solver. }
  destruct (decide (uxMutexesHeld x = 1 ∧ uxPriority x ≠ p)) as [_|Hd]; [|by destruct Hd].
  apply wp_bind, wp_getM, wp_bind, wp_assert; [by rewrite bool_decide_eq_false_2|].
  apply wp_bind. eapply wp_tcb_set; [exact Hx|].
  set (x' := x <| uxPriority := p |>).
  eapply (wp_change_priority k v h x x'); [exact Hinv|exact Hx|simpl; unfold p; lia|].
  intros s top v' k' Hinv' Hm. exists v'. split_and!; [|done..|exact Hm].
  split; [exact Hinv'| |by eapply moved_idle; [apply Hinv|..]].
  destruct Hs as [?|[?|Hnb]]; [by left|by right; left|]. right. right.
  eapply (moved_no_better k k' v v' h x x'); [exact Hnb|exact Hm|exact Hx|done|done|done|].
  intros c y _ _ _. left. unfold x', p. simpl. lia.
Qed.
End ops.
