(* ===== verification/TasksEvents.v ===== *)
(** * Event lists and time-outs

    Blocking on an event list and being taken off it again keep the invariant
    and the promise that no better task waits; [xTaskCheckForTimeOut] measures
    the time since [vTaskSetTimeOutState] whether or not the tick counter has
    wrapped. *)
From S2P Require Import Prelude KList KListSpec KListProps Tasks TasksView TasksInv TasksTick.
From S2P Require Import TasksSwitch TasksBlock TasksResume TasksDelay TasksOps TasksSuspend TasksPrio.

(** An event list of a queue, a semaphore or an event group. *)
Definition event_list (v : lview) (l : lid) : Prop :=
  state_list l = false ∧ l ≠ PendingReadyL ∧ is_Some (rings v !! l).

(** *** What a view operation leaves alone *)

Lemma in_vend_inv i l v j l' : in_list (vend l i v) j l' → l' = l ∨ in_list v j l'.
Proof.
  destruct (decide (l = l')) as [->|Hne]; [by left|]. rewrite !in_list_vitems, vitems_vend_ne by done. by right.
Qed.
Lemma in_vrem_inv i v j l : in_list (vrem i v) j l → in_list v j l.
Proof.
  intros (r' & Hr' & Hj). simpl in Hr'. rewrite lookup_fmap in Hr'.
  destruct (rings v !! l) as [r|] eqn:Hr; [|done]. simplify_eq/=. exists r. split; [done|].
  unfold ring_del in Hj. case_decide; [|done]. simpl in Hj.
  rewrite (before_after i (r_items r)), elem_of_app by done.
  apply elem_of_app in Hj as [?|?]; [by left|right; by right].
Qed.
Lemma vend_in i l v : is_Some (rings v !! l) → in_list (vend l i v) i l.
Proof.
  intros [r Hr]. exists (ring_insert_end i r). simpl. rewrite lookup_alter_eq, Hr. split; [done|].
  unfold ring_insert_end. destruct (r_index r); simpl; rewrite !elem_of_app; right; by left.
Qed.
Lemma vins_list i l v l' : is_Some (rings (vins l i v) !! l') ↔ is_Some (rings v !! l').
Proof. simpl. by rewrite lookup_alter_is_Some. Qed.
(** Taking out a state item changes no event list. *)
Lemma vitems_vrem_state k v t l lo :
  kinv_from lo k v → state_list l = false → vitems (vrem (StateItem t) v) l = vitems v l.
Proof.
  intros Hinv Hl. apply (vitems_vrem_ne (ki_rep _ _ _ Hinv)).
  intros Hin%(il_kind _ (ki_lists _ _ _ Hinv)). simpl in Hin. congruence.
Qed.

Lemma blocked_event_list k v c n indef l :
  kinv k v → event_list v l →
  vitems (blocked_view k c n indef v) l = vitems v l ∧ event_list (blocked_view k c n indef v) l.
Proof.
  intros Hinv (Hkd & Hnp & HL). pose proof (vitems_vrem_state k v c l _ Hinv Hkd) as Hrem.
  assert (∀ l' w i, state_list l' = true → vitems (vins l' i w) l = vitems w l) as Hins.
  { intros l' w i Hst. apply vitems_vins_ne. intros ->. congruence. }
  assert (is_Some (rings (blocked_view k c n indef v) !! l)) as HL'.
  { unfold blocked_view. destruct ((n =? portMAX_DELAY) && indef); [by apply vend_list, vrem_list|].
    destruct (wake_time k n <? xTickCount k); apply vins_list; by apply vrem_list. }
  split; [|by split_and!]. unfold blocked_view. destruct ((n =? portMAX_DELAY) && indef).
  - rewrite vitems_vend_ne by (intros <-; done). exact Hrem.
  - destruct (id_which _ _ _ _ _ _ (ki_delay _ _ _ Hinv)) as [[HD HO]|[HD HO]]; rewrite HD, HO;
      destruct (wake_time k n <? xTickCount k); rewrite Hins by done; exact Hrem.
Qed.

Section events.
Context (idle : Z).

(** An event item goes into, or comes out of, an event list. *)
Lemma kok_event k k' v v' :
  kok idle k v → kinv k' v' → (∀ p, vitems v' (ReadyL p) = vitems v (ReadyL p)) →
  (∃ s, k' = k <| k_lists := s |>) → kok idle k' v'.
Proof.
  intros [Hinv Hs [p Hp]] Hinv' Hr [s ->]. split; [done| |].
  - destruct Hs as [?|[?|Hnb]]; [by left|by right; left|]. right. right.
    eapply no_better_sub; [exact Hnb| |done].
    intros t q. by rewrite !in_list_vitems, Hr.
  - exists p. by rewrite in_list_vitems, Hr, <- in_list_vitems.
Qed.

Lemma current_ready_event k k' v v' c y :
  current_ready k v c y → (∀ p, vitems v' (ReadyL p) = vitems v (ReadyL p)) →
  (∃ s, k' = k <| k_lists := s |>) → current_ready k' v' c y.
Proof.
  intros (Hc & Hy & Hin) Hr [s ->]. split_and!; [done..|].
  by rewrite in_list_vitems, Hr, <- in_list_vitems.
Qed.

Lemma wp_block_after k v c y n indef :
  kok idle k v → current_ready k v c y → c ≠ idle → 0 < n < MAX32 →
  wp (prvAddCurrentTaskToDelayedList n indef) (λ _ k',
    kok idle k' (blocked_view k c n indef v) ∧ blocked_frame k c y k') k.
Proof.
  intros Hk Hcur Hne Hn. eapply wp_mono.
  { by apply (wp_prvAddCurrentTaskToDelayedList k v c y n indef); [apply Hk|..]. }
  intros _ k' [Hinv Hfr]. split; [|done]. by apply (blocked_kok idle k v c y n indef k').
Qed.

(** The running task waits in the list, sorted by priority, and in a delayed
    list or the suspended list. *)
Lemma wp_vTaskPlaceOnEventList k v c y l n :
  kok idle k v → current_ready k v c y → c ≠ idle → 0 < n < MAX32 →
  event_list v l → in_none v (EventItem c) →
  wp (vTaskPlaceOnEventList l n) (λ _ k', ∃ s,
    kok idle k' (blocked_view k c n true (vins l (EventItem c) v)) ∧
    kinv (k <| k_lists := s |>) (vins l (EventItem c) v) ∧
    blocked_frame (k <| k_lists := s |>) c y k') k.
Proof.
  intros Hk Hcur Hne Hn (Hkd & Hnp & HL) Hno. pose proof Hcur as (Hc & Hy & Hin).
  unfold vTaskPlaceOnEventList. apply wp_bind. eapply wp_current; [exact Hc|].
  apply wp_bind, wp_kl. eapply ws_vListInsert; [apply Hk|exact Hno|simpl; eauto|exact HL|].
  intros s Hs.
  pose proof (kinv_insert_event _ _ _ c l s (ko_inv _ _ _ Hk) Hkd Hnp HL Hs) as Hinv1.
  assert (∀ p, vitems (vins l (EventItem c) v) (ReadyL p) = vitems v (ReadyL p)) as Hr.
  { intros p. apply vitems_vins_ne. by intros ->. }
  eapply wp_mono.
  { apply (wp_block_after (k <| k_lists := s |>) (vins l (EventItem c) v) c y n true);
      [|by eapply current_ready_event; [exact Hcur|exact Hr|exists s]|done..].
    apply (kok_event k _ v); [done|exact Hinv1|done|by exists s]. }
  intros _ k' [Hk' Hfr]. exists s. by split_and!.
Qed.

(** The item of an event group waiter carries the bits it waits for. *)
Lemma in_none_vval v i j z : in_none v i → in_none (vval j z v) i.
Proof. done. Qed.

Lemma wp_vTaskPlaceOnUnorderedEventList k v c y l bits n :
  kok idle k v → current_ready k v c y → c ≠ idle → 0 < n < MAX32 →
  event_list v l → in_none v (EventItem c) → 0 < uxSchedulerSuspended k →
  u32 bits →
  wp (vTaskPlaceOnUnorderedEventList l bits n) (λ _ k', ∃ s,
    kok idle k' (blocked_view k c n true (vend l (EventItem c)
      (vval (EventItem c) (Z.lor bits taskEVENT_LIST_ITEM_VALUE_IN_USE) v))) ∧
    kinv (k <| k_lists := s |>) (vend l (EventItem c)
      (vval (EventItem c) (Z.lor bits taskEVENT_LIST_ITEM_VALUE_IN_USE) v)) ∧
    blocked_frame (k <| k_lists := s |>) c y k') k.
Proof.
  intros Hk Hcur Hne Hn (Hkd & Hnp & HL) Hno Hsus Hbits. pose proof Hcur as (Hc & Hy & Hin).
  unfold vTaskPlaceOnUnorderedEventList. apply wp_bind, wp_getM, wp_bind, wp_assert.
  { by destruct (Z.eqb_spec (uxSchedulerSuspended k) 0); [lia|]. }
  apply wp_bind. eapply wp_current; [exact Hc|].
  assert (u32 (Z.lor bits taskEVENT_LIST_ITEM_VALUE_IN_USE)) as Hu.
  { unfold u32, MAX32, taskEVENT_LIST_ITEM_VALUE_IN_USE in *. split; [apply Z.lor_nonneg; lia|].
    destruct (decide (Z.lor bits 2147483648 = 0)) as [->|Hnz]; [lia|].
    apply (Z.log2_lt_pow2 _ 32); [|rewrite Z.log2_lor by lia].
    - pose proof (proj2 (Z.lor_nonneg bits 2147483648)). lia.
    - apply Z.max_lub_lt; [|reflexivity]. destruct (decide (bits = 0)) as [->|]; [reflexivity|].
      apply (Z.log2_lt_pow2 bits 32); lia. }
  apply wp_bind, wp_kl. eapply ws_setval; [apply Hk|simpl; eauto|exact Hu|]. intros s1 Hs1.
  set (v1 := vval (EventItem c) _ v) in *.
  assert (kinv (k <| k_lists := s1 |>) v1) as Hinv1.
  { eapply kinv_vval_event; [apply Hk|exact Hs1]. }
  apply wp_bind, wp_kl. eapply ws_listINSERT_END; [exact Hs1|exact Hno|simpl; eauto|exact HL|].
  intros s2 Hs2.
  pose proof (kinv_enter_event _ _ _ c l s2 Hinv1 Hkd HL (λ H, False_ind _ (Hnp H)) Hs2) as Hinv2.
  assert (∀ p, vitems (vend l (EventItem c) v1) (ReadyL p) = vitems v (ReadyL p)) as Hr.
  { intros p. rewrite vitems_vend_ne; [done|]. by intros ->. }
  set (k2 := k <| k_lists := s2 |>) in *. set (v2 := vend l (EventItem c) v1) in *.
  assert (kok idle k2 v2) as Hk2 by (apply (kok_event k _ v); [done|exact Hinv2|done|by exists s2]).
  assert (current_ready k2 v2 c y) as Hcur2.
  { apply (current_ready_event k _ v); [exact Hcur|exact Hr|by exists s2]. }
  eapply wp_mono; [by apply (wp_block_after k2 v2 c y n true)|].
  intros _ k' [Hk' Hfr]. exists s2. by split_and!.
Qed.

(** The task at the head of the list is readied, or, while the scheduler is
    suspended, put on the pending list for [xTaskResumeAll]. *)
Definition removed_view (susp t p : Z) (v : lview) : lview :=
  if susp =? 0 then vready t p (vrem (EventItem t) v)
  else vend PendingReadyL (EventItem t) (vrem (EventItem t) v).

Lemma wp_xTaskRemoveFromEventList k v t x l xs :
  kok idle k v → event_list v l → vitems v l = EventItem t :: xs → k_tcbs k !! t = Some x →
  wp (xTaskRemoveFromEventList l) (λ b k',
    kok idle k' (removed_view (uxSchedulerSuspended k) t (uxPriority x) v) ∧
    (∃ s top, k' = (if b then k <| xYieldPendings := true |> else k)
       <| k_lists := s |> <| uxTopReadyPriority := top |>) ∧
    (b = true ↔ prio_above_current k t)) k.
Proof.
  intros Hk (Hkd & Hnp & HL) Hi Hx. pose proof (ko_inv _ _ _ Hk) as Hinv.
  assert (in_list v (EventItem t) l) as Hin by (apply in_list_vitems; rewrite Hi; by left).
  unfold xTaskRemoveFromEventList. apply wp_bind, wp_kl.
  eapply ws_head_owner; [apply Hinv|exact Hi|]. simpl.
  replace (k <| k_lists := k_lists k |>) with k by by destruct k.
  apply wp_bind, wp_kl. eapply ws_remove; [apply Hinv|exact Hin|]. intros s1 Hk1.
  pose proof (kinv_leave_event _ _ _ t s1 Hinv Hk1) as Hinv1.
  set (v1 := vrem (EventItem t) v) in *.
  set (k1 := k <| k_lists := s1 |>).
  assert (∀ p, vitems v1 (ReadyL p) = vitems v (ReadyL p)) as Hr.
  { intros p. unfold v1. apply (vitems_vrem_ne (ki_rep _ _ _ Hinv)). intros Hc%(il_kind _ (ki_lists _ _ _ Hinv)). done. }
  assert (kok idle k1 v1) as Hok1 by (apply (kok_event k _ v); [done|exact Hinv1|done|by exists s1]).
  apply wp_bind, wp_getM, wp_bind. change (uxSchedulerSuspended (k <| k_lists := s1 |>)) with (uxSchedulerSuspended k).
  assert (∀ b : bool, (b = true ↔ prio_above_current k1 t) → b = true ↔ prio_above_current k t) as Hab.
  { intros b ->. done. }
  set (v2 := removed_view (uxSchedulerSuspended k) t (uxPriority x) v).
  apply (wp_mono _ (λ _ k2, kinv k2 v2 ∧ (∃ s top, k2 = set_ready s top k1) ∧
    (∃ p, in_list v2 (StateItem idle) (ReadyL p)) ∧
    (pendsv k2 = true ∨ xYieldPendings k2 = true ∨ prio_above_current k1 t ∨ no_better k2 v2))).
  { unfold v2, removed_view. fold v1.
    fold k1. change (uxSchedulerSuspended k1) with (uxSchedulerSuspended k).
    destruct (uxSchedulerSuspended k =? 0) eqn:Hz.
    - eapply (wp_ready_task idle k1 v1 t x); [exact Hok1|exact Hx| |].
      { intros l' R Hl HR. eapply wp_remove_cases; [exact Hinv1|exact Hl|exact HR]. }
      intros k' v' Hinv' -> Hst Hi' Hs'. by split_and!.
    - apply Z.eqb_neq in Hz.
      assert (is_Some (rings v1 !! PendingReadyL)) as HP by (apply list_fixed; [apply Hinv1|set_solver]).
      assert (in_none v1 (EventItem t)) as Hno by by apply (vrem_none (ki_rep _ _ _ Hinv)).
      apply wp_kl. eapply ws_listINSERT_END; [exact Hk1|exact Hno|simpl; eauto|exact HP|].
      intros s2 Hs2.
      assert (kok idle (k1 <| k_lists := s2 |>) (vend PendingReadyL (EventItem t) v1)) as [Hi2 Hso2 Hid2].
      { apply (kok_event k1 _ v1); [done| | |by exists s2].
        - by apply kinv_enter_event.
        - intros p. by apply vitems_vend_ne. }
      split_and!; [exact Hi2|by exists s2, (uxTopReadyPriority k)|exact Hid2|].
      destruct Hso2 as [?|[?|?]]; auto. }
  intros [] k2 (Hinv2 & (s2 & top & ->) & Hi2 & Hs2).
  apply wp_bind. eapply (wp_preempts_iff _ v2 t x); [exact Hinv2|exact Hx|]. intros b Hb.
  pose proof (kok_after_ready idle _ v2 t b k1 Hinv2 Hb Hi2 Hs2) as Hk2.
  destruct b.
  - apply wp_bind, wp_setYieldPending, wp_ret. split_and!; [exact Hk2| |by apply Hab].
    by exists s2, top.
  - apply wp_ret. split_and!; [exact Hk2| |by apply Hab]. by exists s2, top.
Qed.

(** The same for a given waiter of an event group. *)
Lemma wp_vTaskRemoveFromUnorderedEventList k v t x l bits :
  kok idle k v → event_list v l → in_list v (EventItem t) l → k_tcbs k !! t = Some x →
  uxSchedulerSuspended k ≠ 0 → u32 (Z.lor bits taskEVENT_LIST_ITEM_VALUE_IN_USE) →
  wp (vTaskRemoveFromUnorderedEventList (EventItem t) bits) (λ _ k',
    kok idle k' (vready t (uxPriority x) (vrem (EventItem t)
      (vval (EventItem t) (Z.lor bits taskEVENT_LIST_ITEM_VALUE_IN_USE) v))) ∧
    (∃ s top y, k' = k <| xYieldPendings := y |> <| k_lists := s |> <| uxTopReadyPriority := top |> ∧
       (y = true ↔ xYieldPendings k = true ∨ prio_above_current k t))) k.
Proof.
  intros Hk (Hkd & Hnp & HL) Hin Hx Hsus Hu. pose proof (ko_inv _ _ _ Hk) as Hinv.
  unfold vTaskRemoveFromUnorderedEventList. apply wp_bind, wp_getM, wp_bind, wp_assert.
  { by destruct (Z.eqb_spec (uxSchedulerSuspended k) 0). }
  apply wp_bind, wp_kl. eapply ws_setval; [apply Hinv|simpl; eauto|exact Hu|]. intros s0 Hs0.
  set (v0 := vval (EventItem t) _ v) in *.
  assert (kinv (k <| k_lists := s0 |>) v0) as Hinv0 by (eapply kinv_vval_event; [exact Hinv|exact Hs0]).
  set (k0 := k <| k_lists := s0 |>) in *.
  assert (kok idle k0 v0) as Hok0 by (apply (kok_event k _ v); [done|exact Hinv0|done|by exists s0]).
  assert (in_list v0 (EventItem t) l) as Hin0 by done.
  apply wp_bind, wp_kl. eapply ws_owner; [apply Hinv0|simpl; eauto|]. simpl.
  replace (k0 <| k_lists := s0 |>) with k0 by done.
  apply wp_bind, wp_kl. eapply ws_remove; [apply Hinv0|exact Hin0|]. intros s1 Hk1.
  pose proof (kinv_leave_event _ _ _ t s1 Hinv0 Hk1) as Hinv1.
  set (v1 := vrem (EventItem t) v0) in *. 
  set (k1 := k0 <| k_lists := s1 |>).
  assert (∀ p, vitems v1 (ReadyL p) = vitems v0 (ReadyL p)) as Hr.
  { intros p. apply (vitems_vrem_ne (ki_rep _ _ _ Hinv0)). intros Hc%(il_kind _ (ki_lists _ _ _ Hinv0)). done. }
  assert (kok idle k1 v1) as Hok1 by (apply (kok_event k0 _ v0); [done|exact Hinv1|done|by exists s1]).
  apply (wp_bind_assoc _ (λ _, prvAddTaskToReadyList t)), wp_bind.
  eapply (wp_ready_task idle k1 v1 t x); [exact Hok1|exact Hx| |].
  { intros l' R Hl HR. eapply wp_remove_cases; [exact Hinv1|exact Hl|exact HR]. }
  intros k' v' Hinv' -> (s & top & ->) Hi' Hs'.
  apply wp_bind. eapply (wp_preempts_iff _ _ t x); [exact Hinv'|exact Hx|]. intros b Hb.
  pose proof (kok_after_ready idle _ _ t b k1 Hinv' Hb Hi' Hs') as Hk2.
  destruct b; [apply wp_setYieldPending|apply wp_ret]; (split; [exact Hk2|]).
  - exists s, top, true. split; [done|]. split; [intros _|done]. right. by apply Hb.
  - exists s, top, (xYieldPendings k). split; [by destruct k|]. split; [by left|].
    intros [?|Hab]; [done|]. by apply Hb in Hab.
Qed.
End events.
