(* ===== verification/TasksTime.v ===== *)
(** * Time as the tasks see it

    How long [vTaskDelay] and [xTaskDelayUntil] keep a task, ticks pended while
    the scheduler is suspended and wrap of the tick counter included, and what
    [xTaskCheckForTimeOut] measures. *)
From S2P Require Import Prelude KList KListSpec KListProps Tasks TasksView TasksInv TasksTick.
From S2P Require Import TasksSwitch TasksBlock TasksResume TasksDelay TasksOps.

(** ** The absolute time *)

(** [n] ticks after [k0]: the tick counter with its overflow counter. *)
Definition ticks_after (n : Z) (k0 k : kernel) : Prop :=
  xTickCount k = wrap32 (xTickCount k0 + n) ∧
  xNumOfOverflows k = wrap32 (xNumOfOverflows k0 + (xTickCount k0 + n) / MAX32).

Lemma ticks_after_0 k : u32 (xTickCount k) → u32 (xNumOfOverflows k) → ticks_after 0 k k.
Proof.
  intros Ht Ho. unfold ticks_after. rewrite Z.add_0_r. split; [by rewrite wrap32_small|].
  rewrite Z.div_small, Z.add_0_r by exact Ht. by rewrite wrap32_small.
Qed.

Lemma ticks_after_step n k0 k k' :
  0 ≤ n → ticks_after n k0 k → ticked k k' → ticks_after (n + 1) k0 k'.
Proof.
  intros Hn [Ht Ho] [_ Htk _ _ Hov]. unfold ticks_after.
  unfold next_tick, next_overflows in *. rewrite Htk, Hov. clear Htk Hov.
  set (a := xTickCount k0 + n) in *. replace (xTickCount k0 + (n + 1)) with (a + 1) by (unfold a; lia).
  unfold next_tick. rewrite Ht, Ho. unfold wrap32, MAX32 in *.
  rewrite Zplus_mod_idemp_l. split; [done|].
  destruct (Z.eqb_spec ((a + 1) mod 4294967296) 0) as [Hz|Hz].
  - rewrite Zplus_mod_idemp_l. f_equal. Z.to_euclidean_division_equations; lia.
  - f_equal. Z.to_euclidean_division_equations; lia.
Qed.

Lemma ticks_ticks_after n k v k' v' :
  ticks n k v k' v' → ∀ m k0, 0 ≤ m → ticks_after m k0 k → ticks_after (m + Z.of_nat n) k0 k'.
Proof.
  induction 1 as [k v|n k v b k1 v1 k2 v2 Hs Ht IH]; intros m k0 Hm Ha.
  - by rewrite Z.add_0_r.
  - replace (m + Z.of_nat (S n)) with (m + 1 + Z.of_nat n) by lia. apply IH; [lia|].
    pose proof (ticks_after_step m k0 k k1 Hm Ha (ts_ticked _ _ _ _ _ Hs)). by destruct b.
Qed.

(** ** Time-outs *)

(** The comparison of [xTaskCheckForTimeOut], [n] ticks after the time-out was set. *)
Lemma timeout_arith t0 o0 n wait :
  u32 t0 → u32 o0 → 0 ≤ n < MAX32 → 0 ≤ wait →
  let t := wrap32 (t0 + n) in
  let o := wrap32 (o0 + (t0 + n) / MAX32) in
  wrap32 (t - t0) = n ∧
  (negb (o =? o0) && (t0 <=? t) = false).
Proof.
  intros Ht Ho Hn Hw t o. unfold u32, t, o, wrap32, MAX32 in *. split.
  - rewrite Zminus_mod_idemp_l. replace (t0 + n - t0) with n by lia. by apply Z.mod_small.
  - destruct (decide (t0 + n < 4294967296)) as [Hlt|Hge].
    + rewrite (Z.div_small (t0 + n)), Z.add_0_r, (Z.mod_small o0) by lia.
      by rewrite Z.eqb_refl.
    + replace ((t0 + n) mod 4294967296) with (t0 + n - 4294967296)
        by (Z.to_euclidean_division_equations; lia).
      destruct (Z.leb_spec t0 (t0 + n - 4294967296)); [lia|]. by rewrite andb_false_r.
Qed.

Lemma wp_xTaskCheckForTimeOut k0 k n wait c x (Q : bool * TimeOut_t * Z → kernel → Prop) :
  u32 (xTickCount k0) → u32 (xNumOfOverflows k0) → ticks_after n k0 k → 0 ≤ n < MAX32 →
  u32 wait → pxCurrentTCB k = Some c → k_tcbs k !! c = Some x →
  (ucDelayAborted x = true → Q (true, mkTimeOut (xNumOfOverflows k0) (xTickCount k0), wait)
     (k <| k_tcbs ::= <[c := x <| ucDelayAborted := false |>]> |>)) →
  (ucDelayAborted x = false →
     Q (if wait =? portMAX_DELAY then (false, mkTimeOut (xNumOfOverflows k0) (xTickCount k0), wait)
        else if wait <=? n then (true, mkTimeOut (xNumOfOverflows k0) (xTickCount k0), 0)
        else (false, mkTimeOut (xNumOfOverflows k) (xTickCount k), wait - n)) k) →
  wp (xTaskCheckForTimeOut (mkTimeOut (xNumOfOverflows k0) (xTickCount k0)) wait) Q k.
Proof.
  intros Ht Ho [Htk Hov] Hn Hw Hc Hx Hab HQ.
  destruct (timeout_arith _ _ n wait Ht Ho Hn (proj1 Hw)) as [He Hb]. rewrite <- Htk in He. rewrite <- Htk, <- Hov in Hb.
  unfold xTaskCheckForTimeOut, critical. apply wp_bind, wp_getM, wp_bind.
  eapply wp_current; [exact Hc|]. apply wp_bind. eapply wp_tcb_get; [exact Hx|].
  destruct (ucDelayAborted x); [apply wp_bind; eapply wp_tcb_set; [exact Hx|]; by apply wp_ret, Hab|].
  specialize (HQ eq_refl). destruct (wait =? portMAX_DELAY); [by apply wp_ret|].
  cbn [xOverflowCount xTimeOnEntering]. rewrite Hb, He.
  destruct (Z.leb_spec wait n), (Z.ltb_spec n wait); try lia.
  - by apply wp_ret.
  - apply wp_bind, wp_gets, wp_ret. rewrite wrap32_small; [done|]. unfold u32, MAX32 in *. lia.
Qed.

(** ** Delays across [xTaskResumeAll] *)

Lemma resume_delayed k v b k' v' ts k1 v1 k2 t x d :
  kinv k v → resume_spec k v b k' v' ts k1 v1 k2 →
  delayed_for k v t d → in_none v (EventItem t) → k_tcbs k !! t = Some x →
  if decide (d ≤ xPendedTicks k) then in_list v' (StateItem t) (ReadyL (uxPriority x))
  else delayed_for k' v' t (d - xPendedTicks k).
Proof.
  intros Hinv Hr [Hd Hwh] Hno Hx.
  pose proof (is_pended _ _ _ (ki_susp _ _ _ Hinv)) as Hpd.
  assert (t ∉ ts) as Hnt.
  { intros Hin. apply (Hno PendingReadyL), in_list_vitems. rewrite (rs_pending _ _ _ _ _ _ _ _ _ Hr).
    by apply list_elem_of_fmap_2. }
  destruct (rs_state1 _ _ _ _ _ _ _ _ _ Hr) as (s & top & next & y & Hk1 & _).
  assert (∀ l, in_list v1 (StateItem t) l ↔ in_list v (StateItem t) l) as Hw.
  { intros l. rewrite (rs_woken _ _ _ _ _ _ _ _ _ Hr (StateItem t) l). simpl. by rewrite decide_False. }
  assert (delayed_for k1 v1 t d) as Hdel.
  { split; [done|]. rewrite !Hw, (rs_vals _ _ _ _ _ _ _ _ _ Hr), Hk1. exact Hwh. }
  assert (k_tcbs k1 !! t = Some x) as Hx1 by by rewrite Hk1.
  pose proof (delayed_ticks _ _ _ _ _ t x d (rs_ticks _ _ _ _ _ _ _ _ _ Hr)
    (rs_inv1 _ _ _ _ _ _ _ _ _ Hr) Hdel Hx1) as Hfin.
  rewrite Z2Nat.id in Hfin by (unfold u32 in Hpd; lia).
  case_decide; [done|]. rewrite (rs_final _ _ _ _ _ _ _ _ _ Hr). by destruct b.
Qed.

(** ** Delaying the running task *)

Section delay.
Context (idle : Z).

(** [c] has [d] ticks to go; none or fewer: it is ready. *)
Definition sleeping (k : kernel) (v : lview) (c : Z) (x : TCB_t) (d : Z) : Prop :=
  if decide (d ≤ 0) then in_list v (StateItem c) (ReadyL (uxPriority x))
  else delayed_for k v c d.

(** The same of the running task, its priority unchanged. *)
Definition asleep (k : kernel) (v : lview) (c : Z) (x : TCB_t) (d : Z) : Prop :=
  pxCurrentTCB k = Some c ∧ (uxPriority <$> k_tcbs k !! c) = Some (uxPriority x) ∧ sleeping k v c x d.

(** The running task blocks for [n] ticks and gives the processor away: the
    body that [vTaskDelay] and [xTaskDelayUntil] share. *)
Lemma wp_delay_resume k v c y n :
  kok idle k v → current_ready k v c y → c ≠ idle → uxSchedulerSuspended k = 1 →
  0 < n < MAX32 → in_none v (EventItem c) →
  wp (prvAddCurrentTaskToDelayedList n false ;> xTaskResumeAll) (λ b k', ∃ v', kok idle k' v' ∧
    (b = true → pendsv k' = true) ∧ uxSchedulerSuspended k' = 0 ∧
    asleep k' v' c y (n - xPendedTicks k)) k.
Proof.
  intros Hk Hcur Hne Hs Hn Hno. apply wp_bind. eapply wp_mono.
  { by apply (wp_prvAddCurrentTaskToDelayedList k v c y n false); [apply Hk|..]. }
  intros _ k2 [Hinv2 Hfr2].
  pose proof (blocked_kok idle k v c y n false k2 Hk Hcur Hne Hinv2 Hfr2) as Hk2.
  pose proof (blocked_delayed k v c y n false k2 (ko_inv _ _ _ Hk) Hcur Hn (λ _, eq_refl) Hfr2) as Hdel.
  set (v2 := blocked_view k c n false v) in *.
  destruct Hfr2 as (s & top & next & Heq2).
  assert (uxSchedulerSuspended k2 = 1) as Hs2 by by rewrite Heq2.
  assert (in_none v2 (EventItem c)) as Hno2.
  { intros l Hl. pose proof (ki_lists _ _ _ Hinv2) as Hil.
    assert (vitems v2 l = vitems v l) as Hsame.
    { pose proof (il_kind _ Hil _ _ Hl) as Hkd. simpl in Hkd. unfold v2, blocked_view. simpl.
      assert (∀ v0 l0 i, state_list l0 = true → vitems (vins l0 i v0) l = vitems v0 l) as Hins.
      { intros v0 l0 i H0. apply vitems_vins_ne. intros ->. congruence. }
      destruct (id_which _ _ _ _ _ _ (ki_delay _ _ _ (ko_inv _ _ _ Hk))) as [[HD HO]|[HD HO]];
        rewrite HD, HO, andb_false_r; destruct (wake_time k n <? xTickCount k);
        rewrite Hins by done; apply (vitems_vrem_ne (ki_rep _ _ _ (ko_inv _ _ _ Hk)));
        intros Hc%(il_kind _ (ki_lists _ _ _ (ko_inv _ _ _ Hk))); simpl in Hc; congruence. }
    apply (Hno l). by rewrite in_list_vitems, <- Hsame, <- in_list_vitems. }
  assert (k_tcbs k2 !! c = Some (y <| ucDelayAborted := false |>)) as Hy2.
  { rewrite Heq2. simpl. apply lookup_insert_eq. }
  eapply wp_mono; [by apply (wp_xTaskResumeAll k2 v2); [exact Hinv2|]|].
  intros b k3 (v3 & ts & k1' & v1' & k2' & Hr). exists v3. split_and!.
  - by eapply resume_kok.
  - intros ->. by rewrite (rs_final _ _ _ _ _ _ _ _ _ Hr).
  - rewrite (rs_final _ _ _ _ _ _ _ _ _ Hr).
    pose proof (tf_suspended _ _ (ticks_frames _ _ _ _ _ (rs_ticks _ _ _ _ _ _ _ _ _ Hr))) as Hsu.
    destruct (rs_state1 _ _ _ _ _ _ _ _ _ Hr) as (s' & top' & next' & y' & -> & _). by destruct b.
  - split_and!.
    { rewrite (rs_final _ _ _ _ _ _ _ _ _ Hr).
    pose proof (tf_current _ _ (ticks_frames _ _ _ _ _ (rs_ticks _ _ _ _ _ _ _ _ _ Hr))) as Hcu.
    destruct (rs_state1 _ _ _ _ _ _ _ _ _ Hr) as (s' & top' & next' & y' & Hk1' & _).
    assert (pxCurrentTCB k1' = Some c) as Hc1 by (rewrite Hk1', Heq2; apply Hcur).
    destruct b; simpl; congruence. }
    { rewrite (rs_final _ _ _ _ _ _ _ _ _ Hr).
      pose proof (tf_tcbs _ _ (ticks_frames _ _ _ _ _ (rs_ticks _ _ _ _ _ _ _ _ _ Hr))) as HT.
      destruct (rs_state1 _ _ _ _ _ _ _ _ _ Hr) as (s' & top' & next' & y' & Hk1' & _).
      assert (k_tcbs k1' = k_tcbs k2) as HT1 by by rewrite Hk1'.
      destruct b; simpl; by rewrite HT, HT1, Hy2. }
    pose proof (resume_delayed k2 v2 b k3 v3 ts k1' v1' k2' c _ n Hinv2 Hr Hdel Hno2 Hy2) as Hd.
    assert (xPendedTicks k2 = xPendedTicks k) as Hpe by by rewrite Heq2.
    rewrite Hpe in Hd. unfold sleeping. repeat case_decide; [done|lia|lia|done].
Qed.

Lemma wp_vTaskDelay_exact k v c y n :
  kok idle k v → current_ready k v c y → c ≠ idle → uxSchedulerSuspended k = 0 →
  0 < n < MAX32 → in_none v (EventItem c) →
  wp (vTaskDelay n) (λ _ k', ∃ v', kok idle k' v' ∧ pendsv k' = true ∧ uxSchedulerSuspended k' = 0 ∧
    asleep k' v' c y (n - xPendedTicks k)) k.
Proof.
  intros Hk Hcur Hne Hs Hn Hno. unfold vTaskDelay.
  rewrite (proj2 (Z.ltb_lt 0 n)) by lia. apply wp_bind, wp_bind.
  apply (wp_vTaskSuspendAll idle k v); [done|by rewrite Hs|].
  intros k1 Hk1 Heq. apply wp_bind, wp_getM, wp_bind, wp_assert; [by rewrite Heq, Hs|].
  eapply wp_mono; [apply (wp_delay_resume k1 v c y n Hk1)|].
  { by rewrite Heq. } { done. } { by rewrite Heq; simpl; rewrite Hs. } { done. } { done. }
  intros b k3 (v3 & Hk3 & Hb & Hs3 & Hd).
  assert (xPendedTicks k1 = xPendedTicks k) as Hpe by by rewrite Heq. rewrite Hpe in Hd.
  destruct b; simpl.
  - apply wp_ret. exists v3. by split_and!; [|auto|..].
  - apply wp_portYIELD. exists v3. split_and!; [by apply kok_pendsv|done..|]. exact Hd.
Qed.

(** The comparison of [xTaskDelayUntil], with the last wake-up at the absolute
    time [w] and the present absolute time [now]. *)
Lemma should_delay_arith w now inc :
  0 ≤ w → w ≤ now → now < w + MAX32 → 0 < inc < MAX32 →
  let pv := wrap32 w in let t := wrap32 now in let wk := wrap32 (pv + inc) in
  wk = wrap32 (w + inc) ∧
  (if t <? pv then (wk <? pv) && (t <? wk) else (wk <? pv) || (t <? wk)) = (now <? w + inc) ∧
  (now < w + inc → wrap32 (wk - t) = w + inc - now).
Proof.
  intros Hw Hwn Hnw Hi pv t wk. subst pv t wk. unfold wrap32, MAX32 in *.
  rewrite Zplus_mod_idemp_l. split; [done|]. split.
  - destruct (Z.ltb_spec now (w + inc)), (Z.ltb_spec (now mod 4294967296) (w mod 4294967296)),
      (Z.ltb_spec ((w + inc) mod 4294967296) (w mod 4294967296)),
      (Z.ltb_spec (now mod 4294967296) ((w + inc) mod 4294967296)); simpl; try done;
      exfalso; Z.to_euclidean_division_equations; lia.
  - intros Hlt. rewrite <- Zminus_mod. apply Z.mod_small. lia.
Qed.

Lemma wp_xTaskDelayUntil_exact k v c y w now inc :
  kok idle k v → current_ready k v c y → c ≠ idle → uxSchedulerSuspended k = 0 →
  in_none v (EventItem c) → xTickCount k = wrap32 now →
  0 ≤ w → w ≤ now → now < w + MAX32 → 0 < inc < MAX32 →
  wp (xTaskDelayUntil (wrap32 w) inc) (λ r k', r = (now <? w + inc, wrap32 (w + inc)) ∧
    pendsv k' = true ∧ uxSchedulerSuspended k' = 0 ∧
    ∃ v', kok idle k' v' ∧
      (now < w + inc → asleep k' v' c y (w + inc - now - xPendedTicks k))) k.
Proof.
  intros Hk Hcur Hne Hs Hno Htick Hw Hwn Hnw Hi.
  destruct (should_delay_arith w now inc Hw Hwn Hnw Hi) as (Hwk & Hsd & Hdl).
  unfold xTaskDelayUntil. apply wp_bind, wp_assert; [apply Z.ltb_lt; lia|].
  apply wp_bind, (wp_vTaskSuspendAll idle k v); [done|by rewrite Hs|].
  intros k1 Hk1 Heq. apply wp_bind, wp_getM, wp_bind, wp_assert; [by rewrite Heq, Hs|].
  assert (xTickCount k1 = wrap32 now) as -> by by rewrite Heq.
  rewrite Hwk in Hdl |- *. rewrite Hwk in Hsd. rewrite Hsd.
  assert (xPendedTicks k1 = xPendedTicks k) as Hpe by by rewrite Heq.
  assert (∀ (b : bool) k3 v3, kok idle k3 v3 → (b = true → pendsv k3 = true) → uxSchedulerSuspended k3 = 0 →
    (now < w + inc → asleep k3 v3 c y (w + inc - now - xPendedTicks k)) →
    wp ((when negb b then portYIELD_WITHIN_API) ;> retM (now <? w + inc, wrap32 (w + inc)))
      (λ r k', r = (now <? w + inc, wrap32 (w + inc)) ∧
        pendsv k' = true ∧ uxSchedulerSuspended k' = 0 ∧
        ∃ v', kok idle k' v' ∧
          (now < w + inc → asleep k' v' c y (w + inc - now - xPendedTicks k))) k3) as Hend.
  { intros b k3 v3 Hk3 Hb Hs3 Hd. apply wp_bind. destruct b; simpl.
    - apply wp_ret, wp_ret. split_and!; [done|auto|done|by exists v3].
    - apply wp_portYIELD, wp_ret. split_and!; [done..|]. exists v3. split; [by apply kok_pendsv|exact Hd]. }
  destruct (Z.ltb_spec now (w + inc)) as [Hlt|Hge].
  - rewrite Hdl by lia.
    apply (wp_bind_assoc _ (λ _, xTaskResumeAll)), wp_bind.
    eapply wp_mono; [apply (wp_delay_resume k1 v c y (w + inc - now) Hk1)|].
    { by rewrite Heq. } { done. } { by rewrite Heq; simpl; rewrite Hs. } { lia. } { done. }
    intros b k3 (v3 & Hk3 & Hb & Hs3 & Hd). rewrite Hpe in Hd. by apply (Hend b k3 v3).
  - apply wp_bind, wp_ret. apply wp_bind. eapply wp_mono.
    { apply (wp_xTaskResumeAll_ok idle k1 v Hk1). rewrite Heq. simpl. lia. }
    intros b k3 (v3 & Hk3 & Hs3 & Hb). apply (Hend b k3 v3); [done|done| |lia].
    rewrite Hs3, Heq. simpl. lia.
Qed.
End delay.
