(* ===== verification/TasksCreate.v ===== *)
(** * Creating tasks

    A new task joins the invariant; creating tasks from the reset state and
    starting the kernel establishes it. *)
From S2P Require Import Prelude KList KListSpec KListProps Tasks TasksView TasksInv TasksTick.
From S2P Require Import TasksSwitch TasksBlock TasksResume TasksDelay TasksOps TasksSuspend.

(** ** A new item *)

Lemma rep_new (s : store) (m : gmap lid (ring (I:=item))) i it :
  rep s m → ls_items s !! i = None → Z.of_nat (size (ls_items s)) + 1 < MAX32 →
  pxContainer it = None → u32 (xItemValue it) →
  rep (s <| ls_items ::= <[i := it]> |>) m.
Proof.
  intros Hrep Hi Hsz Hc Hv. set (s' := s <| ls_items ::= <[i := it]> |>).
  assert (∀ j, j ≠ i → ls_items s' !! j = ls_items s !! j) as Hne.
  { intros j Hj. simpl. by rewrite lookup_insert_ne. }
  split.
  - simpl. rewrite map_size_insert_None by done. lia.
  - intros l r Hr. destruct (rep_lists s m Hrep l r Hr) as [Hp Hcn Hx Hxi Hnd He Hct].
    rewrite Forall_forall in Hct.
    assert (∀ j, j ∈ r_items r → j ≠ i) as Hni.
    { intros j Hj ->. apply Hct, contOf_present, present_item in Hj as [? Hj]. by rewrite Hi in Hj. }
    split; try done.
    + eapply path_frame_all; [|exact Hp]. intros p Hin.
      enough (p ≠ PItem i) by (destruct p as [j|]; [|done]; simpl; rewrite Hne by congruence; done).
      intros ->. apply elem_of_cons in Hin as [?|[Hin|[?|[]%not_elem_of_nil]%elem_of_cons]%elem_of_app]; [done| |done].
      apply list_elem_of_fmap in Hin as (j & [= ->] & Hj). by apply (Hni j).
    + rewrite Forall_forall. intros j Hj. unfold contOf. rewrite Hne by auto. by apply Hct.
  - intros j x Hx. simpl in Hx. destruct (decide (i = j)) as [<-|].
    + rewrite lookup_insert_eq in Hx. simplify_eq. by rewrite Hc.
    + rewrite lookup_insert_ne in Hx by done. by apply (rep_items s m Hrep j x).
  - intros j x Hx. simpl in Hx. destruct (decide (i = j)) as [<-|].
    + rewrite lookup_insert_eq in Hx. by simplify_eq.
    + rewrite lookup_insert_ne in Hx by done. by apply (rep_values s m Hrep j x).
  - apply Hrep.
Qed.

(** ** [prvInitialiseNewTask] *)

#[local] Abbreviation items := (gmap item (ListItem_t (I:=item) (L:=lid))).

(** The two list items of a new task with priority [p]. *)
Definition state_item (t : Z) : ListItem_t (I:=item) (L:=lid) := mkListItem 0 None None (Some t) None.
Definition event_item (t p : Z) : ListItem_t (I:=item) (L:=lid) :=
  mkListItem (wrap32 (configMAX_PRIORITIES - p)) None None (Some t) None.
Definition new_items (t p : Z) (s : store) : store :=
  s <| ls_items ::= λ m, <[EventItem t := event_item t p]> (<[StateItem t := state_item t]> m) |>.
Definition new_tcb (stack p ucStatic : Z) : TCB_t :=
  (zeroTCB stack ucStatic) <| uxPriority := p |> <| uxBasePriority := p |>.

Lemma wp_set_new_item (s : store) i x f Q :
  ls_items s !! i = Some x →
  Q tt (s <| ls_items ::= <[i := f x]> |>) → wp (set_item i f) Q s.
Proof.
  intros Hx HQ. apply wp_set_item; [by apply present_item; eauto|].
  assert (upd_item i f s = s <| ls_items ::= <[i := f x]> |>) as ->; [|done].
  unfold upd_item, set_field. simpl. f_equal. apply map_eq. intros j.
  destruct (decide (i = j)) as [<-|].
  - by rewrite lookup_alter_eq, lookup_insert_eq, Hx.
  - by rewrite lookup_alter_ne, lookup_insert_ne.
Qed.

Lemma items_state_event (m : items) t a b a' :
  <[StateItem t := a']> (<[EventItem t := b]> (<[StateItem t := a]> m)) =
  <[EventItem t := b]> (<[StateItem t := a']> m).
Proof. by rewrite insert_insert_ne, insert_insert_eq. Qed.
Lemma items_event_event (m : items) t a b b' :
  <[EventItem t := b']> (<[EventItem t := b]> (<[StateItem t := a]> m)) =
  <[EventItem t := b']> (<[StateItem t := a]> m).
Proof. by rewrite insert_insert_eq. Qed.

Lemma lookup_new_state (m : items) t a b :
  <[EventItem t := b]> (<[StateItem t := a]> m) !! StateItem t = Some a.
Proof. by rewrite lookup_insert_ne, lookup_insert_eq. Qed.
Lemma lookup_new_event (m : items) t a b :
  <[EventItem t := b]> (<[StateItem t := a]> m) !! EventItem t = Some b.
Proof. by rewrite lookup_insert_eq. Qed.

(** A store whose items are those of [s] and two of [t]. *)
Definition with_items (t : Z) (a b : ListItem_t (I:=item) (L:=lid)) (s : store) : store :=
  mkStore (<[EventItem t := b]> (<[StateItem t := a]> (ls_items s))) (ls_lists s).

Lemma wp_set_state k s t a b f (Q : unit → kernel → Prop) :
  Q tt (k <| k_lists := with_items t (f a) b s |>) →
  wp (kl (set_item (StateItem t) f)) Q (k <| k_lists := with_items t a b s |>).
Proof.
  intros HQ. apply wp_kl. simpl. eapply wp_set_new_item; [apply lookup_new_state|].
  unfold with_items, set_field. simpl. rewrite items_state_event. exact HQ.
Qed.
Lemma wp_set_event k s t a b f (Q : unit → kernel → Prop) :
  Q tt (k <| k_lists := with_items t a (f b) s |>) →
  wp (kl (set_item (EventItem t) f)) Q (k <| k_lists := with_items t a b s |>).
Proof.
  intros HQ. apply wp_kl. simpl. eapply wp_set_new_item; [apply lookup_new_event|].
  unfold with_items, set_field. simpl. rewrite items_event_event. exact HQ.
Qed.

(** The kernel with a task that is in no list yet. *)
Definition with_task (t stack p ucStatic : Z) (k : kernel) : kernel :=
  k <| k_tcbs ::= <[t := new_tcb stack p ucStatic]> |> <| k_lists ::= new_items t p |>.

Lemma wp_new_task k t stack p ucStatic (Q : unit → kernel → Prop) :
  0 ≤ p < configMAX_PRIORITIES → Q tt (with_task t stack p ucStatic k) →
  wp (memsetTCB t stack ucStatic ;> prvInitialiseNewTask p t) Q k.
Proof.
  intros Hp HQ. apply wp_bind, wp_modify. unfold prvInitialiseNewTask.
  apply wp_bind, wp_assert; [apply Z.ltb_lt; lia|].
  destruct (Z.leb_spec configMAX_PRIORITIES p) as [|_]; [lia|].
  apply wp_bind. eapply wp_tcb_set; [apply lookup_insert_eq|].
  apply wp_bind. eapply wp_tcb_set; [apply lookup_insert_eq|].
  set (x := new_tcb stack p ucStatic).
  set (k1 := k <| k_tcbs ::= <[t := x]> |>).
  match goal with |- wp _ _ ?k0 =>
    assert (k0 = k1 <| k_lists := with_items t zeroItem zeroItem (k_lists k) |>) as -> end.
  { unfold k1, set_field. simpl. f_equal. rewrite !insert_insert_eq. done. }
  unfold vListInitialiseItem, listSET_LIST_ITEM_OWNER, listSET_LIST_ITEM_VALUE.
  apply wp_bind, wp_set_state, wp_bind, wp_set_event, wp_bind, wp_set_state, wp_bind, wp_set_event, wp_set_event.
  exact HQ.
Qed.

(** ** The new task and the invariant *)

Definition new_vals (t p : Z) (v : lview) : lview :=
  vval (EventItem t) (wrap32 (configMAX_PRIORITIES - p)) (vval (StateItem t) 0 v).

Lemma krep_new s T v t p x :
  krep s T v → T !! t = None → Z.of_nat (size (ls_items s)) + 2 < MAX32 →
  krep (new_items t p s) (<[t := x]> T) (new_vals t p v).
Proof.
  intros Hk Ht Hsz.
  assert (∀ i, itask i = t → ls_items s !! i = None) as Hnone.
  { intros i Hi. destruct (ls_items s !! i) as [it|] eqn:He; [|done].
    assert (is_Some (T !! itask i)) as Hs.
    { apply (kr_items _ _ _ Hk). apply present_item. eauto. }
    rewrite Hi, Ht in Hs. by destruct Hs. }
  assert (∀ i, is_Some (<[t:=x]> T !! itask i) ↔ itask i = t ∨ is_Some (T !! itask i)) as Hsome.
  { intros i. destruct (decide (t = itask i)) as [->|Hne].
    - rewrite lookup_insert_eq. naive_solver.
    - rewrite lookup_insert_ne by done. naive_solver. }
  set (it1 := state_item t). set (it2 := event_item t p).
  assert (new_items t p s = s <| ls_items ::= <[StateItem t := it1]> |> <| ls_items ::= <[EventItem t := it2]> |>)
    as Heq by done.
  assert (∀ i, ls_items (new_items t p s) !! i =
    if decide (itask i = t) then Some (if is_state i then it1 else it2) else ls_items s !! i) as Hl.
  { intros i. unfold new_items. simpl. destruct i as [u|u]; simpl; case_decide as Hd; subst.
    - by rewrite lookup_insert_ne, lookup_insert_eq.
    - rewrite lookup_insert_ne, lookup_insert_ne by congruence. done.
    - by rewrite lookup_insert_eq.
    - rewrite lookup_insert_ne, lookup_insert_ne by congruence. done. }
  assert (∀ i, itask i ≠ t → vals (new_vals t p v) i = vals v i) as Hvals.
  { intros i Hi. simpl. destruct i as [u|u]; simpl in Hi.
    - rewrite fn_lookup_insert_ne, fn_lookup_insert_ne by congruence. done.
    - rewrite fn_lookup_insert_ne, fn_lookup_insert_ne by congruence. done. }
  split.
  - rewrite Heq. apply rep_new; [apply rep_new; [apply Hk|by apply Hnone|lia|done|unfold u32, MAX32; simpl; lia]| | | |].
    + simpl. rewrite lookup_insert_ne by done. by apply Hnone.
    + simpl. rewrite map_size_insert_None by by apply Hnone. lia.
    + done.
    + apply wrap32_u32.
  - intros i. rewrite Hsome, present_item, Hl. case_decide; [naive_solver|].
    rewrite <- present_item, (kr_items _ _ _ Hk). naive_solver.
  - intros i [Hi|Hi]%Hsome.
    + unfold ownerOf. rewrite Hl, decide_True by done. by destruct i; simpl in *; subst.
    + unfold ownerOf. rewrite Hl. case_decide as Hd; [by destruct i; simpl in *; subst|].
      by apply (kr_owner _ _ _ Hk).
  - intros i Hi%Hsome. unfold val_of, valueOf. rewrite Hl. case_decide as Hd.
    + destruct i as [u|u]; simpl in *; subst.
      * rewrite fn_lookup_insert_ne by done. by rewrite fn_lookup_insert.
      * by rewrite fn_lookup_insert.
    + destruct Hi as [?|Hi]; [done|]. rewrite Hvals by done. by apply (kr_vals _ _ _ Hk).
Qed.

Lemma in_list_new t p v i l : in_list (new_vals t p v) i l ↔ in_list v i l.
Proof. done. Qed.

Lemma no_items_new s T v t : krep s T v → T !! t = None → ∀ i, itask i = t → in_none v i.
Proof.
  intros Hk Ht i Hi l Hin. destruct (in_list_tcb Hk i l Hin) as [y Hy]. rewrite Hi in Hy. congruence.
Qed.

(** Everything but the lists of the new task is as the invariant wants it. *)
Lemma kinv_new k v t stack p ucStatic :
  kinv k v → k_tcbs k !! t = None → Z.of_nat (size (ls_items (k_lists k))) + 2 < MAX32 →
  0 ≤ p < configMAX_PRIORITIES →
  kinv_hole t (-1) (xTickCount k) (with_task t stack p ucStatic k) (new_vals t p v).
Proof.
  intros [Hk Hl Hr Hp Hst Hd Hsu Hc Hn] Ht Hsz Hpr.
  pose proof (no_items_new _ _ _ _ Hk Ht) as Hno.
  split; simpl; try done.
  - by apply krep_new.
  - by apply i_lists_vval, i_lists_vval.
  - apply (i_ready_other (v:=v)); [|done]. eapply i_ready_tcbs; [exact Hr|].
    intros u q x Hu Hx. destruct (decide (u = t)) as [->|Hne].
    + by destruct (Hno (StateItem t) eq_refl (ReadyL q)).
    + rewrite lookup_insert_ne in Hx by done. eauto.
  - apply map_Forall_insert_2; [|done]. simpl. lia.
  - intros l Hin. by apply (Hno (StateItem t) eq_refl l).
  - intros u Hne Hu. rewrite lookup_insert_ne in Hu by done. by apply Hst.
  - apply (i_delay_ext _ (v:=v)); [done|done|done|]. intros i Hi.
    assert (itask i ≠ t) as Hit.
    { intros Hit. destruct Hi as [Hi|Hi]; [by apply (Hno i Hit (pxDelayedTaskList k))|
        by apply (Hno i Hit (pxOverflowDelayedTaskList k))]. }
    simpl. rewrite fn_lookup_insert_ne by (intros <-; by apply Hit).
    by rewrite fn_lookup_insert_ne by (intros <-; by apply Hit).
  - destruct Hsu. by split.
  - revert Hc. destruct (pxCurrentTCB k) as [c|]; [|by intros [??]]. intros [y Hy].
    change (k_tcbs k !! c = Some y) in Hy. apply (mk_is_Some _ y).
    change (<[t := new_tcb stack p ucStatic]> (k_tcbs k) !! c = Some y).
    rewrite lookup_insert_ne; [done|]. intros ->. congruence.
Qed.

(** ** [prvInitialiseTaskLists] *)

Definition all_empty (m : gmap lid (ring (I:=item))) : Prop := ∀ l r, m !! l = Some r → r_items r = [].

Lemma wp_init_list k m l (Q : unit → kernel → Prop) :
  rep (k_lists k) m → all_empty m →
  (∀ s m', rep s m' → all_empty m' → (∀ l', m' !! l' = if decide (l = l') then Some empty_ring else m !! l') →
     ls_items s = ls_items (k_lists k) → Q tt (k <| k_lists := s |>)) →
  wp (kl (vListInitialise l)) Q k.
Proof.
  intros Hrep He HQ. apply wp_kl. eapply wp_mono; [apply (wp_vListInitialise _ m l Hrep); apply He|].
  intros [] s [Hrep' Hi].
  assert (∀ l', <[l:=empty_ring]> m !! l' = if decide (l = l') then Some empty_ring else m !! l') as Hm.
  { intros l'. case_decide; [subst; by rewrite lookup_insert_eq|by rewrite lookup_insert_ne]. }
  eapply HQ; [exact Hrep'| |exact Hm|exact Hi].
  intros l' r. rewrite Hm. case_decide; [|apply He]. by intros [= <-].
Qed.

Fixpoint init_ready (n : nat) : K unit :=
  match n with
  | O => retM tt
  | S n => init_ready n ;> kl (vListInitialise (ReadyL (Z.of_nat n)))
  end.

Lemma wp_init_ready n : ∀ k m (Q : unit → kernel → Prop),
  rep (k_lists k) m → all_empty m →
  (∀ s m', rep s m' → all_empty m' →
     (∀ l', m' !! l' = match l' with
       | ReadyL p => if decide (0 ≤ p < Z.of_nat n) then Some empty_ring else m !! l'
       | _ => m !! l' end) →
     ls_items s = ls_items (k_lists k) → Q tt (k <| k_lists := s |>)) →
  wp (init_ready n) Q k.
Proof.
  induction n as [|n IH]; intros k m Q Hrep He HQ.
  - apply wp_ret. replace k with (k <| k_lists := k_lists k |>) by by destruct k.
    apply (HQ (k_lists k) m); [done|done| |done]. intros [p| | | | | | | |]; [|done..].
    by rewrite decide_False by lia.
  - simpl. apply wp_bind, (IH k m); [done|done|]. intros s m1 Hrep1 He1 Hm1 Hi1.
    apply (wp_init_list _ m1); [exact Hrep1|exact He1|]. intros s2 m2 Hrep2 He2 Hm2 Hi2.
    apply (HQ s2 m2); [done|done| |by rewrite Hi2].
    intros l'. rewrite Hm2. case_decide as Hd.
    + subst. by rewrite decide_True by lia.
    + rewrite Hm1. destruct l' as [p| | | | | | | |]; try done.
      assert (p ≠ Z.of_nat n) by congruence. repeat case_decide; (lia || done).
Qed.

(** The lists tasks.c owns. *)
Definition task_list (l : lid) : bool :=
  match l with
  | ReadyL p => bool_decide (0 ≤ p < configMAX_PRIORITIES)
  | DelayedL1 | DelayedL2 | PendingReadyL | TerminationL | SuspendedL => true
  | _ => false
  end.

Lemma wp_prvInitialiseTaskLists k m (Q : unit → kernel → Prop) :
  rep (k_lists k) m → all_empty m →
  (∀ s m', rep s m' → all_empty m' →
     (∀ l', m' !! l' = if task_list l' then Some empty_ring else m !! l') →
     ls_items s = ls_items (k_lists k) →
     Q tt (k <| k_lists := s |> <| pxDelayedTaskList := DelayedL1 |> <| pxOverflowDelayedTaskList := DelayedL2 |>)) →
  wp prvInitialiseTaskLists Q k.
Proof.
  intros Hrep He HQ. unfold prvInitialiseTaskLists.
  apply wp_bind. fold init_ready. apply (wp_init_ready _ k m); [done|done|].
  intros s1 m1 R1 E1 M1 I1. apply wp_bind, (wp_init_list _ m1); [exact R1|exact E1|].
  intros s2 m2 R2 E2 M2 I2. apply wp_bind, (wp_init_list _ m2); [exact R2|exact E2|].
  intros s3 m3 R3 E3 M3 I3. apply wp_bind, (wp_init_list _ m3); [exact R3|exact E3|].
  intros s4 m4 R4 E4 M4 I4. apply wp_bind, (wp_init_list _ m4); [exact R4|exact E4|].
  intros s5 m5 R5 E5 M5 I5. apply wp_bind, (wp_init_list _ m5); [exact R5|exact E5|].
  intros s6 m6 R6 E6 M6 I6. apply wp_modify.
  apply (HQ s6 m6); [exact R6|exact E6| |].
  - intros l'. rewrite M6, M5, M4, M3, M2, M1.
    assert (∀ p, (if decide (0 ≤ p < Z.of_nat (Z.to_nat configMAX_PRIORITIES)) then Some empty_ring else m !! ReadyL p)
      = if bool_decide (0 ≤ p < configMAX_PRIORITIES) then Some empty_ring else m !! ReadyL p) as Hp.
    { intros p. unfold configMAX_PRIORITIES. case_bool_decide; case_decide; (done || lia). }
    destruct l' as [p| | | | | | | |]; simpl; [apply Hp|done..].
  - simpl in *. congruence.
Qed.

(** ** [prvAddNewTaskToReadyList] *)

Lemma kernel_ext_tcbs k k' :
  (∀ T, k <| k_tcbs := T |> = k' <| k_tcbs := T |>) → k_tcbs k = k_tcbs k' → k = k'.
Proof.
  intros Hk HT. specialize (Hk ∅). destruct k, k'. simpl in HT. subst.
  unfold set_field in Hk. simpl in Hk. injection Hk. intros. subst. reflexivity.
Qed.

(** The new task with its number. *)
Definition numbered (n : Z) (x : TCB_t) : TCB_t := x <| uxTCBNumber := n |>.

Definition joined (t : Z) (x : TCB_t) (n top : Z) (s : store) (k : kernel) : kernel :=
  k <| k_tcbs ::= <[t := numbered n x]> |>
    <| uxTaskNumber := n |> <| uxTopReadyPriority := top |> <| k_lists := s |>.

Lemma wp_number_and_ready k v t p stack st (Q : unit → kernel → Prop) :
  kinv_hole t (-1) (xTickCount k) k v → k_tcbs k !! t = Some (new_tcb stack p st) →
  (∀ s top n, kinv (joined t (new_tcb stack p st) n top s k) (vend (ReadyL p) (StateItem t) v) →
     Q tt (joined t (new_tcb stack p st) n top s k)) →
  wp (modify (λ k, k <| uxTaskNumber ::= λ n, wrap32 (n + 1) |>) ;>
      let* k := getM in
      tcb_set t (λ x, x <| uxTCBNumber := uxTaskNumber k |>) ;>
      prvAddTaskToReadyList t) Q k.
Proof.
  intros Hh Hx HQ. apply wp_bind, wp_modify, wp_bind, wp_getM, wp_bind.
  set (n := wrap32 (uxTaskNumber k + 1)).
  set (k1 := k <| uxTaskNumber ::= λ n, wrap32 (n + 1) |>).
  assert (kinv_hole t (-1) (xTickCount k) k1 v) as Hh1 by by destruct Hh; split.
  eapply wp_tcb_set; [exact Hx|].
  set (x' := numbered n (new_tcb stack p st)).
  change ((new_tcb stack p st) <| uxTCBNumber := uxTaskNumber k1 |>) with x'.
  pose proof (kinv_hole_tcb t (-1) _ k1 v t _ x' Hh1 Hx eq_refl eq_refl) as Hh2.
  set (k2 := k1 <| k_tcbs ::= <[t := x']> |>) in *.
  assert (k_tcbs k2 !! t = Some x') as Hx2 by by apply lookup_insert_eq.
  assert (kinv_hole t (uxPriority x') (xTickCount k) k2 v) as Hh3.
  { destruct Hh2 as [? ? [Hp Hn Hb] ? ? ? ? ? ? ?]. split; try done. split; [done..|].
    intros q Hq _. apply Hb; lia. }
  eapply (wp_prvAddTaskToReadyList k2 v t x'); [apply Hh3|exact Hx2|apply Hh3| |].
  { apply list_ready; [apply Hh3|]. pose proof (kh_prio _ _ _ _ _ Hh3 _ _ Hx2). simpl in *. lia. }
  intros s Hs. pose proof (kinv_enter_ready _ _ _ t x' s Hh3 Hx2 Hs) as Hinv.
  exact (HQ s (Z.lor (uxTopReadyPriority k) (prio_bit p)) n Hinv).
Qed.

(** The new task, readied. *)
Definition created_view (t p : Z) (v : lview) : lview :=
  vend (ReadyL p) (StateItem t) (new_vals t p v).

Lemma in_list_created s T v t p i l :
  krep s T v → T !! t = None → Z.of_nat (size (ls_items s)) + 2 < MAX32 → is_Some (rings v !! ReadyL p) →
  in_list (created_view t p v) i l ↔ (i = StateItem t ∧ l = ReadyL p) ∨ in_list v i l.
Proof.
  intros Hk Ht Hsz Hl. unfold created_view.
  rewrite (in_list_vend (krep_new s T v t p (zeroTCB 0 0) Hk Ht Hsz)); [done|exact Hl].
Qed.

Definition createTask (t stack p ucStatic : Z) : K unit :=
  memsetTCB t stack ucStatic ;> prvInitialiseNewTask p t ;> prvAddNewTaskToReadyList t.

(** Whom [prvAddNewTaskToReadyList] makes current. *)
Definition current_after (k : kernel) (t p : Z) : option Z :=
  match pxCurrentTCB k with
  | None => Some t
  | Some c => if xSchedulerRunning k then Some c
              else match k_tcbs k !! c with
                   | Some y => if uxPriority y <=? p then Some t else Some c
                   | None => None
                   end
  end.

Record creates (t stack p st : Z) (k : kernel) (v : lview) (k' : kernel) (v' : lview) : Prop := {
  cr_inv : kinv k' v';
  cr_view : v' = created_view t p v;
  cr_state : ∃ s top n b,
    k' = joined t (new_tcb stack p st) n top s (k
      <| uxCurrentNumberOfTasks := uxCurrentNumberOfTasks k + 1 |>
      <| pxCurrentTCB := current_after k t p |> <| pendsv := b |>) ∧
    (b = true ↔ pendsv k = true ∨
       (xSchedulerRunning k = true ∧ ∃ c y, pxCurrentTCB k = Some c ∧ k_tcbs k !! c = Some y ∧ uxPriority y < p))
}.

Lemma size_with_items t p (s : store) T v : krep s T v → T !! t = None →
  size (ls_items (new_items t p s)) = (size (ls_items s) + 2)%nat.
Proof.
  intros Hk Ht.
  assert (∀ i, itask i = t → ls_items s !! i = None) as Hnone.
  { intros i Hi. destruct (ls_items s !! i) as [it|] eqn:He; [|done].
    assert (is_Some (T !! itask i)) as Hs by (apply (kr_items _ _ _ Hk), present_item; eauto).
    rewrite Hi, Ht in Hs. by destruct Hs. }
  simpl. rewrite !map_size_insert_None; [lia|by apply Hnone|].
  rewrite lookup_insert_ne by done. by apply Hnone.
Qed.

Lemma wp_createTask k v t stack p st :
  kinv k v → k_tcbs k !! t = None → 0 ≤ p < configMAX_PRIORITIES →
  Z.of_nat (size (ls_items (k_lists k))) + 2 < MAX32 → uxCurrentNumberOfTasks k + 1 < MAX32 →
  wp (createTask t stack p st) (λ _ k', creates t stack p st k v k' (created_view t p v)) k.
Proof.
  intros Hinv Ht Hp Hsz Hcnt. unfold createTask.
  pose proof (ki_count _ _ _ Hinv) as Hpos.
  apply (wp_bind_assoc _ (λ _, prvInitialiseNewTask p t) (λ _, prvAddNewTaskToReadyList t)), wp_bind, wp_new_task; [done|].
  pose proof (kinv_new k v t stack p st Hinv Ht Hsz Hp) as Hh.
  set (k1 := with_task t stack p st k) in *.
  destruct (kinv_current _ _ _ Hinv) as (c & y & Hc & Hy).
  assert (c ≠ t) as Hct by congruence.
  assert (k_tcbs k1 !! c = Some y) as Hy1 by (simpl; by rewrite lookup_insert_ne).
  assert (k_tcbs k1 !! t = Some (new_tcb stack p st)) as Ht1 by by apply lookup_insert_eq.
  unfold prvAddNewTaskToReadyList, critical. apply wp_bind, wp_bind, wp_modify, wp_bind, wp_getM, wp_bind.
  set (k2 := k1 <| uxCurrentNumberOfTasks ::= λ n, wrap32 (n + 1) |>).
  assert (k2 = k1 <| uxCurrentNumberOfTasks := uxCurrentNumberOfTasks k + 1 |>) as Hk2.
  { unfold k2, set_field. simpl. rewrite wrap32_small; [done|]. unfold u32. lia. }
  clearbody k2. subst k2.
  set (k2 := k1 <| uxCurrentNumberOfTasks := uxCurrentNumberOfTasks k + 1 |>) in *.
  assert (pxCurrentTCB k2 = Some c) as -> by done.
  set (k3 := k2 <| pxCurrentTCB := current_after k t p |>).
  apply (wp_mono _ (λ _ k', k' = k3)).
  { unfold k3, current_after. rewrite Hc, Hy.
    change (xSchedulerRunning k2) with (xSchedulerRunning k).
    assert (k2 = k2 <| pxCurrentTCB := Some c |>) as Hid by by rewrite <- Hc; destruct k.
    destruct (xSchedulerRunning k); simpl; [apply wp_ret; exact Hid|].
    apply wp_bind. eapply wp_tcb_get; [exact Hy1|]. apply wp_bind. eapply wp_tcb_get; [exact Ht1|].
    change (uxPriority (new_tcb stack p st)) with p.
    destruct (uxPriority y <=? p); [by apply wp_modify|by apply wp_ret]. }
  intros [] k3' ->.
  assert (kinv_hole t (-1) (xTickCount k) k3 (new_vals t p v)) as Hh3.
  { destruct Hh as [? ? ? ? ? ? ? ? ? ?]. split; try done; [|simpl; lia].
    unfold k3, current_after. rewrite Hc, Hy. simpl.
    destruct (xSchedulerRunning k); [|destruct (uxPriority y <=? p)]; simpl; eauto. }
  apply (wp_number_and_ready k3 (new_vals t p v) t p stack st); [exact Hh3|exact Ht1|].
  intros s top n Hinv4. set (x := new_tcb stack p st) in *.
  assert (∀ b, (joined t x n top s k3) <| pendsv := b |> = joined t x n top s (k
      <| uxCurrentNumberOfTasks := uxCurrentNumberOfTasks k + 1 |>
      <| pxCurrentTCB := current_after k t p |> <| pendsv := b |>)) as Hfinal.
  { intros b. apply kernel_ext_tcbs; [reflexivity|apply insert_insert_eq]. }
  assert (k_tcbs (joined t x n top s k3) = <[t := numbered n x]> (k_tcbs k)) as HT4 by apply insert_insert_eq.
  assert (pxCurrentTCB (joined t x n top s k3) = current_after k t p) as Hc4 by done.
  assert (xSchedulerRunning (joined t x n top s k3) = xSchedulerRunning k) as Hr4 by done.
  assert (pendsv (joined t x n top s k3) = pendsv k) as Hp4 by done.
  set (k4 := joined t x n top s k3) in *. clearbody k4.
  assert (k4 <| pendsv := pendsv k |> = k4) as Hsame by (rewrite <- Hp4; by destruct k4).
  apply wp_bind, wp_getM. rewrite Hr4.
  assert (∀ b : bool, (b = true ↔ pendsv k = true ∨
       (xSchedulerRunning k = true ∧ ∃ c y, pxCurrentTCB k = Some c ∧ k_tcbs k !! c = Some y ∧ uxPriority y < p)) →
     creates t stack p st k v (k4 <| pendsv := b |>) (created_view t p v)) as Hcr.
  { intros b Hb. split; [by apply kinv_pendsv|done|]. exists s, top, n, b. split; [apply Hfinal|exact Hb]. }
  assert (uxPriority (numbered n x) = p) as Hpn by done.
  destruct (xSchedulerRunning k) eqn:Hrun.
  - assert (pxCurrentTCB k4 = Some c) as Hc5.
    { rewrite Hc4. unfold current_after. by rewrite Hc, Hrun. }
    unfold taskYIELD_ANY_CORE_IF_USING_PREEMPTION.
    apply wp_bind. eapply wp_current; [exact Hc5|].
    assert (k_tcbs k4 !! c = Some y) as Hy4 by (by rewrite HT4, lookup_insert_ne).
    apply wp_bind. eapply wp_tcb_get; [exact Hy4|]. apply wp_bind.
    eapply wp_tcb_get; [rewrite HT4; apply lookup_insert_eq|]. rewrite Hpn.
    destruct (Z.ltb_spec (uxPriority y) p) as [Hlt|Hge].
    + apply wp_portYIELD, Hcr. split; [|done]. intros _. right. split; [done|]. by exists c, y.
    + apply wp_ret. rewrite <- Hsame. apply Hcr. split; [by left|].
      intros [?|[_ (c' & y' & ? & ? & ?)]]; [done|]. simplify_eq. lia.
  - apply wp_ret. rewrite <- Hsame. apply Hcr. split; [by left|]. by intros [?|[? _]].
Qed.

(** ** From reset to a running kernel *)

(** The state the C start-up code leaves (.bss zeroed); queues and event groups
    may exist, with empty lists. *)
Record at_reset (k : kernel) (m : gmap lid (ring (I:=item))) : Prop := {
  re_rep : rep (k_lists k) m;
  re_items : ls_items (k_lists k) = ∅;
  re_lists : ∀ l, is_Some (m !! l) → state_list l = false ∧ l ≠ PendingReadyL;
  re_tcbs : k_tcbs k = ∅;
  re_zero : pxCurrentTCB k = None ∧ uxCurrentNumberOfTasks k = 0 ∧ xTickCount k = 0 ∧
    uxTopReadyPriority k = 0 ∧ xSchedulerRunning k = false ∧ xPendedTicks k = 0 ∧
    xNextTaskUnblockTime k = 0 ∧ uxSchedulerSuspended k = 0
}.

(** Before the scheduler starts every task is ready, and the current one has
    the highest priority. *)
Record not_started (k : kernel) (v : lview) : Prop := {
  ns_inv : kinv k v;
  ns_ready : ∀ t x, k_tcbs k !! t = Some x → in_list v (StateItem t) (ReadyL (uxPriority x));
  ns_events : ∀ i l, in_list v i l → is_state i = true;
  ns_best : no_better k v;
  ns_running : xSchedulerRunning k = false;
  ns_susp : uxSchedulerSuspended k = 0;
  ns_tick : xTickCount k = 0;
  ns_delayed : ∀ i, ¬ in_list v i (pxDelayedTaskList k);
  ns_count : uxCurrentNumberOfTasks k = Z.of_nat (size (k_tcbs k))
}.

Lemma elem_reset_empty k m : at_reset k m → all_empty m.
Proof.
  intros Hr l r Hm. pose proof (rep_lists _ _ (re_rep _ _ Hr) l r Hm) as Hrl.
  pose proof (rl_cont _ _ _ Hrl) as Hc. rewrite Forall_forall in Hc.
  destruct (r_items r) as [|i xs] eqn:Hi; [done|]. exfalso.
  assert (i ∈ i :: xs) as Hin by by left.
  apply Hc, contOf_present, present_item in Hin as [it Hit].
  by rewrite (re_items _ _ Hr), lookup_empty in Hit.
Qed.

(** The hole of the first task, once the lists exist. *)
Lemma first_hole k m t stack p st s m' :
  at_reset k m → 0 ≤ p < configMAX_PRIORITIES →
  rep s m' → all_empty m' → (∀ l', m' !! l' = if task_list l' then Some empty_ring else m !! l') →
  ls_items s = ls_items (k_lists (with_task t stack p st k)) →
  kinv_hole t (-1) 0 ((with_task t stack p st k) <| uxCurrentNumberOfTasks := 1 |>
     <| pxCurrentTCB := Some t |> <| k_lists := s |> <| pxDelayedTaskList := DelayedL1 |>
     <| pxOverflowDelayedTaskList := DelayedL2 |>) (new_vals t p (mkView m' (λ _, 0))).
Proof.
  intros Hr Hp Hrep He Hm Hi. pose proof Hr as [Hrep0 Hi0 Hl HT (Hc & Hn & Htk & Htop & Hrun & Hpe & Hnx & Hsu)].
  assert (∀ i l, ¬ in_list (new_vals t p (mkView m' (λ _, 0))) i l) as Hno.
  { intros i l (r & Hrl & Hin). simpl in Hrl. rewrite (He l r Hrl) in Hin. by apply not_elem_of_nil in Hin. }
  assert (∀ l, vitems (new_vals t p (mkView m' (λ _, 0))) l = []) as Hv.
  { intros l. destruct (vitems _ l) as [|i xs] eqn:Hx; [done|]. exfalso. apply (Hno i l).
    rewrite in_list_vitems, Hx. by left. }
  assert (∀ i, ls_items s !! i = if decide (itask i = t)
    then Some (if is_state i then state_item t else event_item t p) else None) as Hit.
  { intros i. rewrite Hi. simpl. rewrite Hi0. destruct i as [u|u]; simpl; case_decide; subst.
    - by rewrite lookup_insert_ne, lookup_insert_eq.
    - by rewrite !lookup_insert_ne by congruence.
    - by rewrite lookup_insert_eq.
    - by rewrite !lookup_insert_ne by congruence. }
  assert (∀ i, is_Some ((<[t := new_tcb stack p st]> (k_tcbs k)) !! itask i) ↔ itask i = t) as Hsome.
  { intros i. rewrite HT. destruct (decide (t = itask i)) as [->|Hne].
    - rewrite lookup_insert_eq. split; eauto.
    - rewrite lookup_insert_ne, lookup_empty by done. split; [by intros [??]|congruence]. }
  split; simpl; try done.
  - split; simpl; [exact Hrep|..]; intros i; rewrite Hsome.
    + rewrite bool_decide_eq_true, Hit. case_decide; split; eauto; try done. all: by intros [??].
    + intros Hd. unfold ownerOf. rewrite Hit, decide_True by done. by destruct i; simpl in *; subst.
    + intros Hd. unfold val_of, valueOf. rewrite Hit, decide_True by done.
      destruct i as [u|u]; simpl in *; subst.
      * by rewrite fn_lookup_insert_ne, fn_lookup_insert by done.
      * by rewrite fn_lookup_insert.
  - split; simpl.
    + intros q. rewrite Hm. simpl. case_bool_decide; [split; [done|eauto]|].
      split; [|done]. intros Hs. by apply Hl in Hs as [? _].
    + intros l Hin. rewrite Hm. assert (task_list l = true) as ->; [|by exists empty_ring].
      by repeat (apply elem_of_cons in Hin as [->|Hin]; [done|]); apply not_elem_of_nil in Hin.
    + intros i l Hin. by apply Hno in Hin.
  - split; [|lia|].
    + intros u q x Hin. by apply Hno in Hin.
    + intros q Hq _. rewrite Hv, Htop, Z.bits_0. split; [done|]. by intros [].
  - rewrite HT. apply map_Forall_insert_2; [simpl; lia|apply map_Forall_empty].
  - intros l Hin. by apply Hno in Hin.
  - intros u Hne Hu. apply (Hsome (StateItem u)) in Hu. done.
  - split; [by left|..].
    + rewrite Htk. unfold u32, MAX32. lia.
    + rewrite Hnx. unfold u32, MAX32. lia.
    + rewrite Hv. apply sorted_by_nil.
    + rewrite Hv. apply sorted_by_nil.
    + intros i Hin. by apply Hno in Hin.
    + intros i Hin. by apply Hno in Hin.
  - split; [rewrite Hsu|rewrite Hpe|intros _; apply Hv]; unfold u32, MAX32; lia.
  - apply (Hsome (StateItem t)). done.
Qed.

(** The items of the store are the two of every TCB. *)
Lemma krep_size s T v : krep s T v → size (ls_items s) = (2 * size T)%nat.
Proof.
  intros Hk. set (ks := (map_to_list T).*1).
  assert (∀ t, t ∈ ks ↔ is_Some (T !! t)) as Hks.
  { intros t. unfold ks. rewrite list_elem_of_fmap. split.
    - intros ([u x] & -> & Hin%elem_of_map_to_list). eauto.
    - intros [x Hx]. exists (t, x). by rewrite elem_of_map_to_list. }
  assert (NoDup ks) as Hnd by apply NoDup_fst_map_to_list.
  set (its := (StateItem <$> ks) ++ (EventItem <$> ks)).
  assert (dom (ls_items s) = list_to_set its) as Hdom.
  { apply set_eq. intros i. rewrite elem_of_dom, elem_of_list_to_set, <- present_item, (kr_items _ _ _ Hk).
    unfold its. rewrite elem_of_app, !list_elem_of_fmap, <- Hks. destruct i as [u|u]; naive_solver. }
  rewrite <- size_dom, Hdom, size_list_to_set.
  - unfold its, ks. rewrite length_app, !length_fmap, length_map_to_list. lia.
  - apply NoDup_app. split_and!.
    + apply NoDup_fmap_2; [|done]. by intros ?? [= ->].
    + by intros i (u & -> & _)%list_elem_of_fmap (u' & ? & _)%list_elem_of_fmap.
    + apply NoDup_fmap_2; [|done]. by intros ?? [= ->].
Qed.

Lemma wp_first_task k m t stack p st :
  at_reset k m → 0 ≤ p < configMAX_PRIORITIES →
  wp (createTask t stack p st) (λ _ k', ∃ v' n, not_started k' v' ∧
    k_tcbs k' = {[t := numbered n (new_tcb stack p st)]} ∧ pxCurrentTCB k' = Some t ∧
    pendsv k' = pendsv k) k.
Proof.
  intros Hr Hp. pose proof Hr as [Hrep0 Hi0 Hl HT (Hc & Hn & Htk & Htop & Hrun & Hpe & Hnx & Hsu)].
  unfold createTask.
  apply (wp_bind_assoc _ (λ _, prvInitialiseNewTask p t) (λ _, prvAddNewTaskToReadyList t)), wp_bind, wp_new_task; [done|].
  set (k1 := with_task t stack p st k).
  assert (rep (k_lists k1) m) as Hrep1.
  { assert (∀ i, ls_items (k_lists k) !! i = None) as Hnone by (intros i; by rewrite Hi0, lookup_empty).
    change (k_lists k1) with ((k_lists k) <| ls_items ::= <[StateItem t := state_item t]> |>
      <| ls_items ::= <[EventItem t := event_item t p]> |>).
    apply rep_new; [apply rep_new; [done|by apply Hnone|rewrite Hi0, map_size_empty; unfold MAX32; lia|done|
      unfold u32, MAX32; simpl; lia]| | |done|apply wrap32_u32]; simpl; rewrite Hi0.
    - by rewrite lookup_insert_ne, lookup_empty by done.
    - rewrite map_size_insert_None, map_size_empty by apply lookup_empty. unfold MAX32. lia. }
  pose proof (elem_reset_empty k m Hr) as He.
  unfold prvAddNewTaskToReadyList, critical. apply wp_bind, wp_bind, wp_modify, wp_bind, wp_getM, wp_bind.
  set (k2 := k1 <| uxCurrentNumberOfTasks ::= λ n, wrap32 (n + 1) |>).
  assert (k2 = k1 <| uxCurrentNumberOfTasks := 1 |>) as Hk2.
  { unfold k2, set_field. simpl. by rewrite Hn. }
  clearbody k2. subst k2. set (k2 := k1 <| uxCurrentNumberOfTasks := 1 |>).
  assert (pxCurrentTCB k2 = None) as -> by done. simpl.
  apply wp_bind, wp_modify, (wp_prvInitialiseTaskLists _ m); [exact Hrep1|exact He|].
  intros s m' Hrep' He' Hm' Hi'.
  pose proof (first_hole k m t stack p st s m' Hr Hp Hrep' He' Hm' Hi') as Hh. fold k1 k2 in Hh.
  set (v0 := new_vals t p (mkView m' (λ _, 0))) in *.
  set (k3 := k2 <| pxCurrentTCB := Some t |> <| k_lists := s |> <| pxDelayedTaskList := DelayedL1 |>
     <| pxOverflowDelayedTaskList := DelayedL2 |>) in *.
  assert (xTickCount k3 = 0) as Ht3 by exact Htk. rewrite <- Ht3 in Hh.
  apply (wp_number_and_ready k3 v0 t p stack st); [exact Hh|apply lookup_insert_eq|].
  intros s2 top n Hinv4. set (x := new_tcb stack p st) in *.
  assert (k_tcbs (joined t x n top s2 k3) = {[t := numbered n x]}) as HT4.
  { unfold joined, k3, k2, k1, with_task. simpl. rewrite HT. by rewrite insert_insert_eq. }
  assert (∀ i l, ¬ in_list v0 i l) as Hno.
  { intros i l (r & Hrl & Hin). simpl in Hrl. rewrite (He' l r Hrl) in Hin. by apply not_elem_of_nil in Hin. }
  assert (is_Some (rings v0 !! ReadyL p)) as HL.
  { simpl. rewrite Hm'. simpl. rewrite bool_decide_eq_true_2 by done. eauto. }
  assert (∀ i l, in_list (vend (ReadyL p) (StateItem t) v0) i l ↔ i = StateItem t ∧ l = ReadyL p) as Hin.
  { intros i l. rewrite (in_list_vend (kh_rep _ _ _ _ _ Hh)) by done. split; [|by left].
    intros [?|Hin]; [done|]. by apply Hno in Hin. }
  assert (pxCurrentTCB (joined t x n top s2 k3) = Some t) as Hc4 by done.
  assert (xSchedulerRunning (joined t x n top s2 k3) = false ∧ uxSchedulerSuspended (joined t x n top s2 k3) = 0 ∧
    xTickCount (joined t x n top s2 k3) = 0 ∧ pxDelayedTaskList (joined t x n top s2 k3) = DelayedL1 ∧
    uxCurrentNumberOfTasks (joined t x n top s2 k3) = 1 ∧ pendsv (joined t x n top s2 k3) = pendsv k)
    as (Hr4 & Hs4 & Htk4 & HD4 & Hn4 & Hp4) by by split_and!.
  set (k4 := joined t x n top s2 k3) in *. clearbody k4.
  apply wp_bind, wp_getM. rewrite Hr4. apply wp_ret. eexists _, n. split_and!; [|exact HT4|exact Hc4|exact Hp4].
  split; [exact Hinv4| | | |done..| |].
  - intros u y. rewrite HT4. intros [<- <-]%lookup_singleton_Some. by apply Hin.
  - by intros i l [-> _]%Hin.
  - intros u q c y [[= ->] [= ->]]%Hin Hcur. rewrite HT4. intros Hy. simplify_eq.
    rewrite lookup_singleton_eq in Hy. by simplify_eq.
  - intros i [_ Hd]%Hin. by rewrite HD4 in Hd.
  - by rewrite HT4, map_size_singleton, Hn4.
Qed.

Lemma wp_next_task k v t stack p st :
  not_started k v → k_tcbs k !! t = None → 0 ≤ p < configMAX_PRIORITIES →
  Z.of_nat (size (k_tcbs k)) < 1000000 →
  wp (createTask t stack p st) (λ _ k', ∃ v' n, not_started k' v' ∧
    k_tcbs k' = <[t := numbered n (new_tcb stack p st)]> (k_tcbs k) ∧
    pxCurrentTCB k' = current_after k t p ∧ pendsv k' = pendsv k) k.
Proof.
  intros [Hinv Hr Hev Hb Hrun Hs Htk Hd Hn] Ht Hp Hsz.
  pose proof (krep_size _ _ _ (ki_rep _ _ _ Hinv)) as Hsize.
  eapply wp_mono.
  { apply (wp_createTask k v t stack p st Hinv Ht Hp); unfold MAX32; lia. }
  intros _ k' [Hinv' _ (s & top & n & b & Hk' & Hbb)].
  assert (is_Some (rings v !! ReadyL p)) as HL by by apply list_ready; [apply Hinv|].
  assert (∀ i l, in_list (created_view t p v) i l ↔ (i = StateItem t ∧ l = ReadyL p) ∨ in_list v i l) as Hin.
  { intros i l. apply (in_list_created (k_lists k) (k_tcbs k)); [apply Hinv|done|unfold MAX32; lia|done]. }
  assert (b = pendsv k) as Hbp.
  { apply Bool.eq_iff_eq_true. rewrite Hbb, Hrun. split; [|by left]. by intros [?|[? _]]. }
  set (x := numbered n (new_tcb stack p st)) in *.
  assert (k_tcbs k' = <[t := x]> (k_tcbs k)) as HT by by rewrite Hk'.
  assert (pxCurrentTCB k' = current_after k t p) as Hc by by rewrite Hk'.
  exists (created_view t p v), n. split_and!; [|done|done|by rewrite Hk', Hbp].
  split; [done| | | |by rewrite Hk'|by rewrite Hk'|by rewrite Hk'| |].
  - intros u y. rewrite HT. destruct (decide (t = u)) as [<-|Hne].
    + rewrite lookup_insert_eq. intros [= <-]. apply Hin. by left.
    + rewrite lookup_insert_ne by done. intros Hy. apply Hin. right. by apply Hr.
  - intros i l [[-> _]|Hi]%Hin; [done|by eapply Hev].
  - destruct (kinv_current _ _ _ Hinv) as (c & y & Hcur & Hy). unfold current_after in Hc.
    rewrite Hcur, Hrun, Hy in Hc. intros u q c' y' Hu Hc' Hy'. rewrite Hc in Hc'. rewrite HT in Hy'.
    destruct (Z.leb_spec (uxPriority y) p); simplify_eq.
    + rewrite lookup_insert_eq in Hy'. simplify_eq. simpl.
      apply Hin in Hu as [[_ [= ->]]|Hu]; [lia|]. specialize (Hb _ _ _ _ Hu Hcur Hy). lia.
    + rewrite lookup_insert_ne in Hy' by congruence. simplify_eq.
      apply Hin in Hu as [[_ [= ->]]|Hu]; [lia|]. by eapply Hb.
  - intros i Hi. assert (pxDelayedTaskList k' = pxDelayedTaskList k) as Heq by by rewrite Hk'.
    rewrite Heq in Hi. apply Hin in Hi as [[_ Hx]|Hi]; [|by eapply Hd].
    destruct (id_which _ _ _ _ _ _ (ki_delay _ _ _ Hinv)) as [[HD _]|[HD _]]; congruence.
  - rewrite HT, map_size_insert_None by done. rewrite Hk'. simpl. rewrite Hn. lia.
Qed.

(** Creating several tasks: address, stack and priority of each. *)
Fixpoint createTasks (ts : list (Z * Z * Z)) : K unit :=
  match ts with
  | [] => retM tt
  | (t, stack, p) :: ts => createTask t stack p 0 ;> createTasks ts
  end.

(** The TCB [x] is one of the tasks created. *)
Definition created_as (ts : list (Z * Z * Z)) (t : Z) (x : TCB_t) : Prop :=
  ∃ stack p n, (t, stack, p) ∈ ts ∧ x = numbered n (new_tcb stack p 0).

Lemma wp_createTasks ts : ∀ k v,
  not_started k v → NoDup (ts.*1.*1) → (∀ t stack p, (t, stack, p) ∈ ts → k_tcbs k !! t = None) →
  (∀ t stack p, (t, stack, p) ∈ ts → 0 ≤ p < configMAX_PRIORITIES) →
  Z.of_nat (size (k_tcbs k)) + Z.of_nat (length ts) < 1000000 →
  wp (createTasks ts) (λ _ k', ∃ v', not_started k' v' ∧ pendsv k' = pendsv k ∧
    ∀ t x, k_tcbs k' !! t = Some x → k_tcbs k !! t = Some x ∨ created_as ts t x) k.
Proof.
  induction ts as [|[[t stack] p] ts IH]; intros k v Hns Hnd Hfr Hp Hsz.
  { apply wp_ret. exists v. split_and!; [done|done|by left]. }
  simpl in Hnd, Hsz |- *. apply NoDup_cons in Hnd as [Hnt Hnd].
  assert (∀ u s q, (u, s, q) ∈ ts → u ≠ t) as Hne.
  { intros u s q Hu ->. apply Hnt, list_elem_of_fmap. exists (t, s). split; [done|].
    apply list_elem_of_fmap. by exists (t, s, q). }
  assert (k_tcbs k !! t = None) as Ht by (eapply Hfr; by left).
  apply wp_bind. eapply wp_mono.
  { apply (wp_next_task k v t stack p 0 Hns Ht); [eapply Hp; by left|lia]. }
  intros _ k1 (v1 & n & Hns1 & HT1 & _ & Hpv1). eapply wp_mono.
  { apply (IH k1 v1 Hns1 Hnd).
    - intros u s q Hu. rewrite HT1, lookup_insert_ne by (pose proof (Hne _ _ _ Hu); congruence).
      eapply Hfr. by right.
    - intros u s q Hu. eapply Hp. by right.
    - rewrite HT1, map_size_insert_None by done. lia. }
  intros _ k2 (v2 & Hns2 & Hpv2 & HT2). exists v2. split_and!; [done|congruence|].
  intros u x Hx. destruct (HT2 u x Hx) as [Hu|(s & q & n' & Hin & Heq)].
  - rewrite HT1 in Hu. destruct (decide (t = u)) as [<-|Htu].
    + rewrite lookup_insert_eq in Hu. simplify_eq. right. exists stack, p, n. split; [by left|done].
    + rewrite lookup_insert_ne in Hu by done. by left.
  - right. exists s, q, n'. split; [by right|done].
Qed.

(** Creating tasks only adds them. *)
Lemma createTasks_all ts : ∀ k v,
  not_started k v → NoDup (ts.*1.*1) → (∀ t stack p, (t, stack, p) ∈ ts → k_tcbs k !! t = None) →
  (∀ t stack p, (t, stack, p) ∈ ts → 0 ≤ p < configMAX_PRIORITIES) →
  Z.of_nat (size (k_tcbs k)) + Z.of_nat (length ts) < 1000000 →
  wp (createTasks ts) (λ _ k', ∀ t, is_Some (k_tcbs k !! t) ∨ t ∈ ts.*1.*1 → is_Some (k_tcbs k' !! t)) k.
Proof.
  induction ts as [|[[t stack] p] ts IH]; intros k v Hns Hnd Hfr Hp Hsz.
  { apply wp_ret. by intros t [?|?%not_elem_of_nil]. }
  simpl in Hnd, Hsz |- *. apply NoDup_cons in Hnd as [Hnt Hnd].
  assert (∀ u s q, (u, s, q) ∈ ts → u ≠ t) as Hne.
  { intros u s q Hu ->. apply Hnt, list_elem_of_fmap. exists (t, s). split; [done|].
    apply list_elem_of_fmap. by exists (t, s, q). }
  assert (k_tcbs k !! t = None) as Ht by (eapply Hfr; by left).
  apply wp_bind. eapply wp_mono.
  { apply (wp_next_task k v t stack p 0 Hns Ht); [eapply Hp; by left|lia]. }
  intros _ k1 (v1 & n & Hns1 & HT1 & _ & _). eapply wp_mono.
  { apply (IH k1 v1 Hns1 Hnd).
    - intros u s q Hu. rewrite HT1, lookup_insert_ne by (pose proof (Hne _ _ _ Hu); congruence).
      eapply Hfr. by right.
    - intros u s q Hu. eapply Hp. by right.
    - rewrite HT1, map_size_insert_None by done. lia. }
  intros [] k2 Hall u Hu. apply Hall. rewrite HT1. destruct (decide (t = u)) as [<-|Htu].
  - left. rewrite lookup_insert_eq. eauto.
  - rewrite lookup_insert_ne by done. destruct Hu as [?|[->|?]%elem_of_cons]; [by left|done|by right].
Qed.

(** A kernel whose scheduler is about to run [pxCurrentTCB]. *)
Definition booted (ts : list (Z * Z * Z)) (k : kernel) (v : lview) : Prop :=
  kinv k v ∧ no_better k v ∧ xSchedulerRunning k = true ∧ uxSchedulerSuspended k = 0 ∧
  (∀ t, is_Some (k_tcbs k !! t) ↔ t ∈ ts.*1.*1) ∧
  (∀ t x, k_tcbs k !! t = Some x → created_as ts t x ∧ in_list v (StateItem t) (ReadyL (uxPriority x))).

(** What [startKernel] leaves. *)
Definition started (k : kernel) : kernel :=
  k <| xNextTaskUnblockTime := portMAX_DELAY |> <| xSchedulerRunning := true |> <| xTickCount := 0 |>.
Lemma started_inv k v : not_started k v → kinv (started k) v ∧ no_better (started k) v.
Proof.
  intros [[? ? ? ? ? [? ? ? ? ? Hf Hw] ? ? ?] _ _ Hb _ _ Htk Hd _]. split; [|exact Hb]. rewrite Htk in *. split; simpl; try done.
  split; simpl; try done. intros i Hi. by apply Hd in Hi.
Qed.

Lemma wp_boot k m ts :
  at_reset k m → ts ≠ [] → NoDup (ts.*1.*1) →
  (∀ t stack p, (t, stack, p) ∈ ts → 0 ≤ p < configMAX_PRIORITIES) →
  Z.of_nat (length ts) < 1000000 →
  wp (createTasks ts ;> startKernel) (λ _ k', ∃ v', booted ts k' v' ∧ pendsv k' = pendsv k) k.
Proof.
  intros Hr Hne Hnd Hp Hlen. apply wp_bind. destruct ts as [|[[t stack] p] ts]; [done|].
  simpl in Hnd, Hlen |- *. apply NoDup_cons in Hnd as [Hnt Hnd].
  assert (∀ u s q, (u, s, q) ∈ ts → u ≠ t) as Hneq.
  { intros u s q Hu ->. apply Hnt, list_elem_of_fmap. exists (t, s). split; [done|].
    apply list_elem_of_fmap. by exists (t, s, q). }
  apply wp_bind. eapply wp_mono; [apply (wp_first_task k m t stack p 0 Hr); eapply Hp; by left|].
  intros _ k1 (v1 & n & Hns1 & HT1 & _ & Hpv1).
  assert (∀ u s q, (u, s, q) ∈ ts → k_tcbs k1 !! u = None) as Hfr.
  { intros u s q Hu. rewrite HT1, lookup_singleton_ne; [done|]. pose proof (Hneq _ _ _ Hu). congruence. }
  assert (∀ u s q, (u, s, q) ∈ ts → 0 ≤ q < configMAX_PRIORITIES) as Hp1 by (intros; eapply Hp; by right).
  assert (Z.of_nat (size (k_tcbs k1)) + Z.of_nat (length ts) < 1000000) as Hsz.
  { rewrite HT1, map_size_singleton. lia. }
  eapply wp_mono.
  { apply wp_conj; [apply (wp_createTasks ts k1 v1 Hns1 Hnd Hfr Hp1 Hsz)|
      apply (createTasks_all ts k1 v1 Hns1 Hnd Hfr Hp1 Hsz)]. }
  intros _ k2 [(v2 & Hns2 & Hpv2 & HT2) Hall2]. apply wp_modify. exists v2.
  destruct (started_inv k2 v2 Hns2) as [Hinv2 Hb2]. pose proof (ns_ready _ _ Hns2) as Hr2.
  assert (∀ u x, k_tcbs k2 !! u = Some x → created_as ((t, stack, p) :: ts) u x) as Hcr.
  { intros u x Hx. destruct (HT2 u x Hx) as [Hu|(s & q & n' & Hin & Heq)].
    - rewrite HT1 in Hu. apply lookup_singleton_Some in Hu as [<- <-].
      exists stack, p, n. split; [by left|done].
    - exists s, q, n'. split; [by right|done]. }
  split; [|by rewrite <- Hpv1, <- Hpv2]. split_and!; [exact Hinv2|exact Hb2|done|apply (ns_susp _ _ Hns2)| |].
  - intros u. split.
    + intros [x Hx]. destruct (Hcr u x Hx) as (s & q & n' & Hin & _).
      change (u ∈ (((t, stack, p) :: ts).*1.*1)). apply list_elem_of_fmap. exists (u, s). split; [done|].
      apply list_elem_of_fmap. by exists (u, s, q).
    + intros [->|Hu]%elem_of_cons; apply Hall2; [left; rewrite HT1, lookup_singleton_eq; eauto|by right].
  - intros u x Hx. split; [by apply Hcr|by apply Hr2].
Qed.
