(* ===== verification/TasksMachine.v ===== *)
(** * The scheduler as a machine

    The interrupts and the kernel calls as the steps of a transition system.
    From the state start-up leaves, every step that the rules of the API allow
    runs to completion (no failed assertion, no bad pointer), keeps the
    invariant, and never leaves a better task waiting without a switch
    pending. *)
From S2P Require Import Prelude KList KListSpec KListProps Tasks TasksView TasksInv TasksTick.
From S2P Require Import TasksSwitch TasksBlock TasksResume TasksDelay TasksOps TasksSuspend TasksPrio TasksEvents.
From S2P Require Import TasksTime TasksCreate.

(** ** What a kernel state shows *)

(** The list a task's state item, event item is in; its wake-up time. *)
Definition state_in (k : kernel) (t : Z) : option lid := contOf (k_lists k) (StateItem t).
Definition event_in (k : kernel) (t : Z) : option lid := contOf (k_lists k) (EventItem t).
Definition wake_at (k : kernel) (t : Z) : Z := val_of (k_lists k) (StateItem t).
Definition prio (k : kernel) (t : Z) : option Z := uxPriority <$> k_tcbs k !! t.
(** The task is ready: in the ready list of its priority. *)
Definition ready (k : kernel) (t : Z) : bool :=
  match prio k t with
  | Some p => bool_decide (state_in k t = Some (ReadyL p))
  | None => false
  end.
(** No switch is pending. *)
Definition settled (k : kernel) : bool := negb (pendsv k) && negb (xYieldPendings k).

Section seen.
Context (k : kernel) (v : lview) (Hinv : kinv k v).

Lemma state_in_iff t l : state_in k t = Some l ↔ in_list v (StateItem t) l.
Proof. apply (krep_cont (ki_rep _ _ _ Hinv)). Qed.
Lemma event_in_iff t l : event_in k t = Some l ↔ in_list v (EventItem t) l.
Proof. apply (krep_cont (ki_rep _ _ _ Hinv)). Qed.
Lemma event_in_none t : event_in k t = None ↔ in_none v (EventItem t).
Proof. apply (krep_none (ki_rep _ _ _ Hinv)). Qed.
Lemma wake_at_eq t : is_Some (k_tcbs k !! t) → wake_at k t = vals v (StateItem t).
Proof. intros Ht. by apply (kr_vals _ _ _ (ki_rep _ _ _ Hinv) (StateItem t)). Qed.
Lemma ready_iff t x : k_tcbs k !! t = Some x → ready k t = true ↔ in_list v (StateItem t) (ReadyL (uxPriority x)).
Proof. intros Hx. unfold ready, prio. rewrite Hx. simpl. rewrite bool_decide_eq_true. apply state_in_iff. Qed.
Lemma ready_any t p : in_list v (StateItem t) (ReadyL p) → ready k t = true ∧ prio k t = Some p.
Proof.
  intros Hin. destruct (in_list_tcb (ki_rep _ _ _ Hinv) _ _ Hin) as [x Hx]. simpl in Hx.
  pose proof (ir_prio _ _ _ _ (ki_ready _ _ _ Hinv) _ _ _ Hin Hx) as <-.
  split; [by apply (ready_iff t x)|]. unfold prio. by rewrite Hx.
Qed.
End seen.

(** ** Steps *)

Inductive action : Type :=
| ATick                              (* the SysTick interrupt *)
| APendSV                            (* the PendSV interrupt *)
| AYield                             (* the running task calls taskYIELD *)
| ASuspendAll | AResumeAll
| ADelay (xTicksToDelay : Z)
| ADelayUntil (xPreviousWakeTime xTimeIncrement : Z)
| ACatchUp (xTicksToCatchUp : Z)
| ASuspend (t : Z)
| AResume (t : Z)
| AResumeFromISR (t : Z)
| AAbortDelay (t : Z)
| APrioritySet (t uxNewPriority : Z)
| AMutexTaken                        (* the running task has taken a mutex *)
| AInherit (t : Z)                   (* the running task waits for a mutex of t *)
| AMutexGiven                        (* the running task gives back a mutex nobody waits for *)
| ACreate (t stack p : Z).

Definition run_action (a : action) : K unit :=
  match a with
  | ATick => xPortSysTickHandler
  | APendSV => xPortPendSVHandler
  | AYield => portYIELD_WITHIN_API
  | ASuspendAll => vTaskSuspendAll
  | AResumeAll => let* _ := xTaskResumeAll in retM tt
  | ADelay n => vTaskDelay n
  | ADelayUntil w n => let* _ := xTaskDelayUntil w n in retM tt
  | ACatchUp n => let* _ := xTaskCatchUpTicks n in retM tt
  | ASuspend t => vTaskSuspend (Some t)
  | AResume t => vTaskResume (Some t)
  | AResumeFromISR t => let* b := xTaskResumeFromISR (Some t) in portEND_SWITCHING_ISR b
  | AAbortDelay t => let* _ := xTaskAbortDelay t in retM tt
  | APrioritySet t p => vTaskPrioritySet (Some t) p
  | AMutexTaken => let* _ := pvTaskIncrementMutexHeldCount in retM tt
  | AInherit t => let* _ := xTaskPriorityInherit (Some t) in retM tt
  | AMutexGiven =>
      (* as prvCopyDataToQueue and its caller do *)
      let* c := current in
      let* b := xTaskPriorityDisinherit (Some c) in
      when b then portYIELD_WITHIN_API
  | ACreate t stack p => createTask t stack p 0
  end.

Definition exists_task (k : kernel) (t : Z) : bool := bool_decide (is_Some (k_tcbs k !! t)).
Definition cur (k : kernel) : Z := default 0 (pxCurrentTCB k).
Definition held (k : kernel) : Z := from_option uxMutexesHeld 0 (k_tcbs k !! cur k).
Definition u32b (z : Z) : bool := (0 <=? z) && (z <? MAX32).

(** The running task may call a function that blocks it: it is not the idle
    task, and the scheduler is not suspended. *)
Definition may_block (idle : Z) (k : kernel) : bool :=
  ready k (cur k) && negb (cur k =? idle) && (uxSchedulerSuspended k =? 0).

(** The rules of the API.  A task runs only when no PendSV is pending: the
    exception is taken as soon as interrupts are enabled. *)
Definition enabled (idle : Z) (k : kernel) (a : action) : bool :=
  match a with
  | ATick | AResumeFromISR _ => true
  | APendSV => pendsv k
  | _ => negb (pendsv k)
  end &&
  match a with
  | ATick | APendSV | AYield => true
  | ASuspendAll => uxSchedulerSuspended k + 1 <? MAX32
  | AResumeAll => 0 <? uxSchedulerSuspended k
  | ADelay n => may_block idle k && (0 <? n) && (n <? MAX32)
  | ADelayUntil w n => may_block idle k && (0 <? n) && (n <? MAX32) && u32b w
  | ACatchUp n => (uxSchedulerSuspended k =? 0)
  | ASuspend t => exists_task k t && negb (t =? idle) && xSchedulerRunning k &&
                  ((uxSchedulerSuspended k =? 0) || negb (cur k =? t))
  | AResume t | AResumeFromISR t => exists_task k t
  | AAbortDelay t => exists_task k t && (uxSchedulerSuspended k + 1 <? MAX32)
  | APrioritySet t p => exists_task k t && (0 <=? p) && (p <? configMAX_PRIORITIES)
  | AMutexTaken => true
  | AInherit t => exists_task k t
  | AMutexGiven => ready k (cur k) && (0 <? held k) && (held k <? MAX32)
  | ACreate t stack p => negb (exists_task k t) && (0 <=? p) && (p <? configMAX_PRIORITIES) &&
      (Z.of_nat (size (k_tcbs k)) <? 1000000) && (uxCurrentNumberOfTasks k + 1 <? MAX32)
  end.

Section machine.
Context (idle : Z).

Lemma kok_current k v : kok idle k v →
  ∃ c y, pxCurrentTCB k = Some c ∧ cur k = c ∧ k_tcbs k !! c = Some y.
Proof.
  intros Hk. destruct (kinv_current _ _ _ (ko_inv _ _ _ Hk)) as (c & y & Hc & Hy).
  exists c, y. split_and!; [done| |done]. unfold cur. by rewrite Hc.
Qed.

Lemma may_block_spec k v : kok idle k v → may_block idle k = true →
  ∃ c y, current_ready k v c y ∧ c ≠ idle ∧ uxSchedulerSuspended k = 0.
Proof.
  intros Hk Hm. unfold may_block in Hm. apply andb_true_iff in Hm as [[Hr Hi]%andb_true_iff Hs].
  destruct (kok_current k v Hk) as (c & y & Hc & Hcur & Hy). rewrite Hcur in Hr, Hi.
  exists c, y. split_and!; [|by apply negb_true_iff, Z.eqb_neq in Hi|by apply Z.eqb_eq].
  split_and!; [done|done|]. by apply (ready_iff k v (ko_inv _ _ _ Hk)).
Qed.

Lemma exists_task_spec k t : exists_task k t = true → ∃ x, k_tcbs k !! t = Some x.
Proof. unfold exists_task. rewrite bool_decide_eq_true. by intros [x ?]; exists x. Qed.

(** The body that the two delays share, for any state of the event item. *)
Lemma wp_delay_body k v c y n :
  kok idle k v → current_ready k v c y → c ≠ idle → uxSchedulerSuspended k = 1 → 0 < n < MAX32 →
  wp (prvAddCurrentTaskToDelayedList n false) (λ _ k', ∃ v', kok idle k' v' ∧ uxSchedulerSuspended k' = 1) k.
Proof.
  intros Hk Hcur Hne Hs Hn. eapply wp_mono.
  { by apply (wp_prvAddCurrentTaskToDelayedList k v c y n false); [apply Hk|..]. }
  intros _ k2 [Hinv2 Hfr2]. eexists. split; [by eapply blocked_kok|].
  destruct Hfr2 as (s & top & next & ->). done.
Qed.

Lemma wp_xTaskDelayUntil_ok k v w n :
  kok idle k v → may_block idle k = true → 0 < n < MAX32 →
  wp (xTaskDelayUntil w n) (λ _ k', kernel_ok idle k') k.
Proof.
  intros Hk Hm Hn. destruct (may_block_spec k v Hk Hm) as (c & y & Hcur & Hne & Hs).
  unfold xTaskDelayUntil. apply wp_bind, wp_assert; [apply Z.ltb_lt; lia|].
  apply wp_bind, (wp_vTaskSuspendAll idle k v); [done|by rewrite Hs|].
  intros k1 Hk1 Heq. apply wp_bind, wp_getM, wp_bind, wp_assert; [by rewrite Heq, Hs|].
  assert (current_ready k1 v c y) as Hcur1 by by rewrite Heq.
  assert (uxSchedulerSuspended k1 = 1) as Hs1 by (rewrite Heq; simpl; lia).
  set (d := wrap32 (wrap32 (w + n) - xTickCount k1)).
  set (b := if xTickCount k1 <? w then _ else _).
  assert (b = true → 0 < d) as Hd.
  { pose proof (wrap32_u32 (wrap32 (w + n) - xTickCount k1)) as Hu. fold d in Hu.
    intros Hb. enough (d ≠ 0) by (unfold u32 in Hu; lia). intros Hz.
    pose proof (id_tick _ _ _ _ _ _ (ki_delay _ _ _ (ko_inv _ _ _ Hk1))) as Htick.
    pose proof (wrap32_u32 (w + n)) as Hwk.
    assert (wrap32 (w + n) = xTickCount k1) as He.
    { unfold d, wrap32, u32, MAX32 in *. Z.to_euclidean_division_equations; lia. }
    unfold b in Hb. rewrite He, Z.ltb_irrefl, ?andb_false_r, ?orb_false_r in Hb.
    destruct (xTickCount k1 <? w); done. }
  apply wp_bind, (wp_mono _ (λ _ k', ∃ v', kok idle k' v' ∧ uxSchedulerSuspended k' = 1)).
  { destruct b; [|apply wp_ret; by exists v]. apply (wp_delay_body k1 v c y); [done..|].
    pose proof (wrap32_u32 (wrap32 (w + n) - xTickCount k1)) as Hu. fold d in Hu.
    specialize (Hd eq_refl). unfold u32 in Hu. lia. }
  intros _ k2 (v2 & Hk2 & Hs2). apply wp_bind. eapply wp_mono.
  { apply (wp_xTaskResumeAll_ok idle k2 v2 Hk2). lia. }
  intros b' k3 (v3 & Hk3 & _). apply wp_bind. destruct b'; simpl.
  - apply wp_ret, wp_ret. by exists v3.
  - apply wp_portYIELD, wp_ret. exists v3. by apply kok_pendsv.
Qed.

Lemma wp_xTaskCatchUpTicks_ok k v n :
  kok idle k v → uxSchedulerSuspended k = 0 →
  wp (xTaskCatchUpTicks n) (λ _ k', kernel_ok idle k') k.
Proof.
  intros Hk Hs. unfold xTaskCatchUpTicks. apply wp_bind, wp_getM, wp_bind, wp_assert; [by rewrite Hs|].
  apply wp_bind, (wp_vTaskSuspendAll idle k v); [done|by rewrite Hs|].
  intros k1 Hk1 Heq. unfold critical. apply wp_bind, wp_modify.
  eapply wp_mono.
  { eapply (wp_xTaskResumeAll_ok idle _ v).
    - destruct Hk1 as [Hinv1 Hs1 Hi1]. split; [|exact Hs1|exact Hi1].
      by apply kinv_pended; [|apply wrap32_u32].
    - rewrite Heq. simpl. lia. }
  intros b k3 (v3 & Hk3 & _). by exists v3.
Qed.

Lemma wp_mutex_taken k v : kok idle k v →
  wp pvTaskIncrementMutexHeldCount (λ _ k', kernel_ok idle k') k.
Proof.
  intros Hk. destruct (kok_current k v Hk) as (c & y & Hc & _ & Hy).
  unfold pvTaskIncrementMutexHeldCount. apply wp_bind, wp_getM. rewrite Hc.
  apply wp_bind. eapply wp_tcb_set; [exact Hy|]. apply wp_ret. exists v.
  destruct Hk as [Hinv Hs Hi]. split; [|destruct Hs as [?|[?|Hnb]]; [by left|by right; left|]|done].
  - eapply kinv_tcb; [exact Hinv|exact Hy|done|].
    pose proof (ki_prio _ _ _ Hinv _ _ Hy). simpl in *. lia.
  - right. right. eapply no_better_sub; [exact Hnb|done|]. simpl. rewrite Hc. simpl.
    by rewrite lookup_insert_eq, Hy.
Qed.

(** Creating a task while the scheduler runs, or before. *)
Lemma wp_createTask_ok k v t stack p :
  kok idle k v → k_tcbs k !! t = None → 0 ≤ p < configMAX_PRIORITIES →
  Z.of_nat (size (k_tcbs k)) < 1000000 → uxCurrentNumberOfTasks k + 1 < MAX32 →
  wp (createTask t stack p 0) (λ _ k', kernel_ok idle k') k.
Proof.
  intros Hk Ht Hp Hsz Hcnt. pose proof Hk as [Hinv Hs [q Hq]].
  pose proof (krep_size _ _ _ (ki_rep _ _ _ Hinv)) as Hsize.
  eapply wp_mono; [apply (wp_createTask k v t stack p 0 Hinv Ht Hp); [unfold MAX32; lia|done]|].
  intros _ k' [Hinv' _ (s & top & n & b & Hk' & Hb)]. exists (created_view t p v).
  assert (is_Some (rings v !! ReadyL p)) as HL by by apply list_ready; [apply Hinv|].
  assert (∀ i l, in_list (created_view t p v) i l ↔ (i = StateItem t ∧ l = ReadyL p) ∨ in_list v i l) as Hin.
  { intros i l. apply (in_list_created (k_lists k) (k_tcbs k)); [apply Hinv|done|unfold MAX32; lia|done]. }
  destruct (kinv_current _ _ _ Hinv) as (c & y & Hc & Hy).
  assert (c ≠ t) as Hct by congruence.
  split; [done| |exists q; apply Hin; by right].
  destruct Hs as [Hpv|[Hy'|Hnb]].
  - left. rewrite Hk'. apply Hb. by left.
  - right. left. by rewrite Hk'.
  - destruct (pendsv k') eqn:Hpv'; [by left|]. right. right.
    assert (b = false) as -> by (rewrite <- Hpv'; by rewrite Hk').
    assert (pxCurrentTCB k' = current_after k t p) as Hc' by by rewrite Hk'.
    assert (k_tcbs k' = <[t := numbered n (new_tcb stack p 0)]> (k_tcbs k)) as HT' by by rewrite Hk'.
    unfold current_after in Hc'. rewrite Hc, Hy in Hc'.
    intros u r c' y' Hu Hcur Hy''. rewrite HT' in Hy''. rewrite Hcur in Hc'.
    destruct (xSchedulerRunning k) eqn:Hrun.
    + simplify_eq. rewrite lookup_insert_ne in Hy'' by done. simplify_eq.
      apply Hin in Hu as [[_ [= ->]]|Hu]; [|by eapply Hnb].
      destruct (decide (uxPriority y < p)) as [Hlt|]; [|lia].
      enough (false = true) by done. apply Hb. right. split; [done|]. by exists c, y.
    + destruct (Z.leb_spec (uxPriority y) p); simplify_eq.
      * rewrite lookup_insert_eq in Hy''. simplify_eq. simpl.
        apply Hin in Hu as [[_ [= ->]]|Hu]; [lia|]. specialize (Hnb _ _ _ _ Hu Hc Hy). lia.
      * rewrite lookup_insert_ne in Hy'' by done. simplify_eq.
        apply Hin in Hu as [[_ [= ->]]|Hu]; [lia|by eapply Hnb].
Qed.

(** Every enabled step runs to completion and keeps the invariant. *)
Lemma wp_run_action a k v :
  kok idle k v → enabled idle k a = true → wp (run_action a) (λ _ k', kernel_ok idle k') k.
Proof.
  intros Hk [_ He]%andb_true_iff. pose proof (is_u32 _ _ _ (ki_susp _ _ _ (ko_inv _ _ _ Hk))) as Hsu.
  unfold u32 in Hsu. destruct a; simpl in *.
  - by apply (wp_xPortSysTickHandler idle k v).
  - eapply wp_mono; [by apply (wp_xPortPendSVHandler idle k v)|]. intros _ k' (v' & ? & _). by exists v'.
  - apply (wp_yield idle k v); [done|]. intros k' ?. by exists v.
  - apply (wp_vTaskSuspendAll idle k v); [done|lia|]. intros k' ? _. by exists v.
  - apply wp_bind. eapply wp_mono; [apply (wp_xTaskResumeAll_ok idle k v Hk); lia|].
    intros b k' (v' & ? & _). apply wp_ret. by exists v'.
  - apply andb_true_iff in He as [[Hm ?]%andb_true_iff ?].
    destruct (may_block_spec k v Hk Hm) as (c & y & Hcur & Hne & Hs).
    eapply wp_mono; [apply (wp_vTaskDelay idle k v c y xTicksToDelay Hk Hcur Hne Hs); lia|].
    intros _ k' (v' & ? & _). by exists v'.
  - apply andb_true_iff in He as [[[Hm ?]%andb_true_iff ?]%andb_true_iff _].
    apply wp_bind. eapply wp_mono; [apply (wp_xTaskDelayUntil_ok k v _ _ Hk Hm); lia|].
    intros r k' ?. by apply wp_ret.
  - apply wp_bind. eapply wp_mono; [apply (wp_xTaskCatchUpTicks_ok k v _ Hk); lia|].
    intros r k' ?. by apply wp_ret.
  - apply andb_true_iff in He as [[[[x Hx]%exists_task_spec Hi]%andb_true_iff Hrun]%andb_true_iff Hs].
    eapply wp_mono; [apply (wp_vTaskSuspend idle k v (Some t) t x Hk eq_refl Hx)|].
    + by apply negb_true_iff, Z.eqb_neq in Hi.
    + done.
    + intros Hc. unfold cur in Hs. rewrite Hc in Hs. simpl in Hs. rewrite Z.eqb_refl in Hs. lia.
    + intros _ k' (? & _). by eexists.
  - apply exists_task_spec in He as [x Hx].
    eapply wp_mono; [apply (wp_vTaskResume idle k v t x Hk Hx)|]. intros _ k' (v' & ? & _). by exists v'.
  - apply exists_task_spec in He as [x Hx]. apply wp_bind.
    eapply wp_mono; [apply (wp_xTaskResumeFromISR idle k v t x Hk Hx)|]. intros b k' (v' & Hk' & _).
    destruct b; [apply wp_modify|apply wp_ret]; exists v'; [by apply kok_pendsv|done].
  - apply andb_true_iff in He as [[x Hx]%exists_task_spec ?]. apply wp_bind.
    eapply wp_mono; [apply (wp_xTaskAbortDelay idle k v t x Hk Hx); lia|].
    intros b k' (v' & ? & _). apply wp_ret. by exists v'.
  - apply andb_true_iff in He as [[[x Hx]%exists_task_spec ?]%andb_true_iff ?].
    eapply wp_mono; [apply (wp_vTaskPrioritySet idle k v (Some t) t x _ Hk eq_refl Hx); lia|].
    intros _ k' (v' & ? & _). by exists v'.
  - apply wp_bind. eapply wp_mono; [by apply (wp_mutex_taken k v)|]. intros r k' ?. by apply wp_ret.
  - apply exists_task_spec in He as [x Hx].
    destruct (kok_current k v Hk) as (c & y & Hc & _ & Hy). apply wp_bind.
    eapply wp_mono; [apply (wp_xTaskPriorityInherit idle k v t x c y Hk Hx Hc Hy)|].
    intros b k' (v' & ? & _). apply wp_ret. by exists v'.
  - apply andb_true_iff in He as [[Hr H1]%andb_true_iff H2].
    destruct (kok_current k v Hk) as (c & y & Hc & Hcur & Hy).
    unfold held in H1, H2. rewrite Hcur in Hr, H1, H2. rewrite Hy in H1, H2. simpl in H1, H2.
    apply wp_bind. eapply wp_current; [exact Hc|]. apply wp_bind.
    eapply wp_mono; [apply (wp_xTaskPriorityDisinherit idle k v c y Hk)|].
    + split_and!; [done|done|]. by apply (ready_iff k v (ko_inv _ _ _ Hk)).
    + lia.
    + intros b k' (v' & Hinv' & Hi' & Hs' & _). destruct b.
      * apply wp_portYIELD. exists v'. split; [by apply kinv_pendsv|by left|done].
      * apply wp_ret. exists v'. split; [done|by apply Hs'|done].
  - apply andb_true_iff in He as [[[[Ht ?]%andb_true_iff ?]%andb_true_iff ?]%andb_true_iff ?].
    assert (k_tcbs k !! t = None) as Hnone.
    { apply negb_true_iff, bool_decide_eq_false in Ht. destruct (k_tcbs k !! t); [|done]. destruct Ht; eauto. }
    apply (wp_createTask_ok k v t stack p Hk Hnone); lia.
Qed.

(** ** Reachable states *)

Inductive kstep : kernel → kernel → Prop :=
| step a k k' : enabled idle k a = true → run_action a k = ROk (tt, k') → kstep k k'.

Lemma kernel_ok_step k k' : kernel_ok idle k → kstep k k' → kernel_ok idle k'.
Proof.
  intros [v Hk] Hst. destruct Hst as [a k k' He Hr].
  exact (wp_run _ _ _ _ _ (wp_run_action a k v Hk He) Hr).
Qed.
Lemma kernel_ok_steps k k' : kernel_ok idle k → rtc kstep k k' → kernel_ok idle k'.
Proof. intros Hk Hs. induction Hs; [done|]. apply IHHs. by eapply kernel_ok_step. Qed.

(** What the invariant says of a state that is settled. *)
Lemma kernel_ok_highest k t p :
  kernel_ok idle k → settled k = true → ready k t = true → prio k t = Some p →
  ∃ c q, pxCurrentTCB k = Some c ∧ prio k c = Some q ∧ p ≤ q.
Proof.
  intros [v Hk] Hs Hr Hp. destruct (kok_current k v Hk) as (c & y & Hc & _ & Hy).
  unfold settled in Hs. apply andb_true_iff in Hs as [H1%negb_true_iff H2%negb_true_iff].
  destruct Hk as [Hinv [Hx|[Hx|Hnb]] Hi]; [congruence..|].
  exists c, (uxPriority y). split; [done|]. unfold prio. rewrite Hy. split; [done|].
  unfold prio in Hp. destruct (k_tcbs k !! t) as [x|] eqn:Hx; [|done]. simplify_eq/=.
  apply (ready_iff k v Hinv t x Hx) in Hr. by eapply Hnb.
Qed.
End machine.

(** Start-up establishes the invariant. *)
Lemma booted_kok idle stack p ts k v :
  booted ts k v → (idle, stack, p) ∈ ts → kok idle k v.
Proof.
  intros (Hinv & Hnb & Hrun & Hs & Hdom & Hall) Hin. split; [done|by right; right|].
  assert (is_Some (k_tcbs k !! idle)) as [x Hx].
  { apply Hdom, list_elem_of_fmap. exists (idle, stack). split; [done|].
    apply list_elem_of_fmap. by exists (idle, stack, p). }
  destruct (Hall idle x Hx) as [_ Hr]. by exists (uxPriority x).
Qed.
