(* ===== verification/TasksTrace.v ===== *)
(** * Interrupts and switches in a row

    What holds of a task through any sequence of tick and PendSV interrupts,
    and of the running task through consecutive switches. *)
From S2P Require Import Prelude KList KListSpec KListProps Tasks TasksView TasksInv TasksTick.
From S2P Require Import TasksSwitch TasksBlock TasksResume TasksDelay TasksOps TasksSuspend TasksPrio TasksEvents.
From S2P Require Import TasksTime TasksCreate TasksMachine.

(** A sequence of interrupts: [true] is the tick, [false] PendSV. *)
Fixpoint interrupts (tr : list bool) : K unit :=
  match tr with
  | [] => retM tt
  | b :: tr => (if b then xPortSysTickHandler else xPortPendSVHandler) ;> interrupts tr
  end.
Definition count_ticks (tr : list bool) : Z := Z.of_nat (length (filter (.= true) tr)).

Lemma count_ticks_cons b tr : count_ticks (b :: tr) = (if b then 1 else 0) + count_ticks tr.
Proof. unfold count_ticks. rewrite filter_cons. destruct b; simpl; lia. Qed.
Lemma count_ticks_nonneg tr : 0 ≤ count_ticks tr.
Proof. unfold count_ticks. lia. Qed.

Section trace.
Context (idle : Z).

(** The effect of one interrupt while the scheduler is not suspended. *)
Record irq_effect (b : bool) (k : kernel) (v : lview) (k' : kernel) (v' : lview) : Prop := {
  ie_ok : kok idle k' v';
  ie_susp : uxSchedulerSuspended k' = 0;
  ie_tcbs : k_tcbs k' = k_tcbs k;
  ie_woken : woken (k_tcbs k) (if b then due_tasks k v else []) v v';
  ie_sleep : ∀ t x d, k_tcbs k !! t = Some x → sleeping k v t x d →
    sleeping k' v' t x (d - if b then 1 else 0);
  ie_time : ∀ n k0, 0 ≤ n → ticks_after n k0 k → ticks_after (n + if b then 1 else 0) k0 k'
}.

Lemma sleeping_same k k' v v' t x d :
  (∀ i l, in_list v' i l ↔ in_list v i l) → vals v' = vals v →
  pxDelayedTaskList k' = pxDelayedTaskList k → pxOverflowDelayedTaskList k' = pxOverflowDelayedTaskList k →
  xTickCount k' = xTickCount k → sleeping k v t x d → sleeping k' v' t x d.
Proof.
  intros Hin Hv HD HO Ht. unfold sleeping. case_decide; [by rewrite Hin|].
  unfold delayed_for. by rewrite Hv, HD, HO, Ht, !Hin.
Qed.

Lemma wp_irq (b : bool) k v :
  kok idle k v → uxSchedulerSuspended k = 0 →
  wp (if b then xPortSysTickHandler else xPortPendSVHandler)
    (λ _ k', ∃ v', irq_effect b k v k' v') k.
Proof.
  intros Hk Hs. pose proof Hk as [Hinv Hso Hi]. destruct b.
  - unfold xPortSysTickHandler. apply wp_bind.
    eapply wp_mono; [by apply (wp_xTaskIncrementTick k v)|]. intros b k1 (v1 & Hspec).
    pose proof (tick_kok idle k v b k1 v1 Hk Hspec) as Hk1.
    set (k2 := if b then k1 <| pendsv := true |> else k1) in *.
    assert (irq_effect true k v k2 v1) as Hie.
    { pose proof (ts_ticked _ _ _ _ _ Hspec) as Htk. pose proof (tk_frame _ _ Htk) as Hfr.
      split.
      - done.
      - unfold k2. rewrite <- Hs, <- (sb_suspended _ _ Hfr). by destruct b.
      - unfold k2. rewrite <- (sb_tcbs _ _ Hfr). by destruct b.
      - apply Hspec.
      - intros t x d Hx Hsl. unfold sleeping in Hsl. case_decide as Hd.
        + assert (in_list v1 (StateItem t) (ReadyL (uxPriority x))) as Hr1.
          { eapply woken_ready; [apply Hinv|apply Hspec|exact Hx|exact Hsl]. }
          unfold sleeping. by rewrite decide_True by lia.
        + pose proof (delayed_tick k v b k1 v1 t x d Hinv Hspec Hsl Hx) as Hst.
          unfold sleeping. destruct Hsl as [Hpos _]. repeat case_decide; try lia; [done|].
          unfold k2. by destruct b.
      - intros n k0 Hn Ha. pose proof (ticks_after_step n k0 k k1 Hn Ha Htk) as Hst.
        unfold k2. by destruct b. }
    destruct b; [apply wp_modify|apply wp_ret]; by exists v1.
  - unfold xPortPendSVHandler. apply wp_bind, wp_modify.
    assert (kinv (k <| pendsv := false |>) v) as Hinv0 by by apply kinv_pendsv.
    eapply wp_mono; [apply (wp_vTaskSwitchContext _ v Hinv0 Hs (kok_some_ready _ _ _ Hk))|].
    intros _ k' (v' & Hsp). exists v'. destruct (ss_frame _ _ _ _ Hsp) as (s & c & Heq).
    split.
    + split; [apply Hsp| |].
      * right. right. apply current_is_top_no_better, Hsp.
      * destruct Hi as [p Hp]. exists p. by apply (ss_same _ _ _ _ Hsp).
    + by rewrite Heq.
    + by rewrite Heq.
    + intros i l. rewrite decide_False by apply not_elem_of_nil. apply (ss_same _ _ _ _ Hsp).
    + intros t x d _ Hsl. rewrite Z.sub_0_r.
      eapply sleeping_same; [apply Hsp|apply Hsp|by rewrite Heq..|exact Hsl].
    + intros n k0 _ Ha. rewrite Z.add_0_r. by rewrite Heq.
Qed.

(** A whole sequence. *)
Record irqs_effect (tr : list bool) (k : kernel) (v : lview) (k' : kernel) (v' : lview) : Prop := {
  ies_ok : kok idle k' v';
  ies_susp : uxSchedulerSuspended k' = 0;
  ies_tcbs : k_tcbs k' = k_tcbs k;
  ies_sleep : ∀ t x d, k_tcbs k !! t = Some x → sleeping k v t x d →
    sleeping k' v' t x (d - count_ticks tr);
  ies_time : ∀ n k0, 0 ≤ n → ticks_after n k0 k → ticks_after (n + count_ticks tr) k0 k';
  ies_suspended : ∀ t, in_list v (StateItem t) SuspendedL → in_none v (EventItem t) →
    in_list v' (StateItem t) SuspendedL ∧ in_none v' (EventItem t)
}.

Lemma suspended_woken k v v' t :
  kinv k v → woken (k_tcbs k) (due_tasks k v) v v' →
  in_list v (StateItem t) SuspendedL → in_none v (EventItem t) →
  in_list v' (StateItem t) SuspendedL ∧ in_none v' (EventItem t).
Proof.
  intros Hinv Hw Hin Hno.
  assert (t ∉ due_tasks k v) as Hnd.
  { destruct (next_delayed_which k v _ Hinv) as [[HD _]|[HD _]];
      (rewrite (due_tasks_iff k v t (ki_lists _ _ _ Hinv)) by auto; intros [Hd _];
       pose proof (in_list_unique (ki_rep _ _ _ Hinv) _ _ _ Hd Hin); congruence). }
  split.
  - apply Hw. simpl. by rewrite decide_False.
  - intros l Hl%Hw. simpl in Hl. rewrite decide_False in Hl by done. by apply Hno in Hl.
Qed.

Lemma wp_interrupts tr : ∀ k v,
  kok idle k v → uxSchedulerSuspended k = 0 →
  wp (interrupts tr) (λ _ k', ∃ v', irqs_effect tr k v k' v') k.
Proof.
  induction tr as [|b tr IH]; intros k v Hk Hs; simpl.
  - apply wp_ret. exists v. split; try done.
    + intros t x d _. by rewrite Z.sub_0_r.
    + intros n k0 _. by rewrite Z.add_0_r.
  - apply wp_bind. eapply wp_mono; [by apply (wp_irq b k v)|].
    intros _ k1 (v1 & [Hk1 Hs1 HT1 Hw1 Hsl1 Hti1]).
    eapply wp_mono; [by apply (IH k1 v1)|]. intros _ k2 (v2 & [Hk2 Hs2 HT2 Hsl2 Hti2 Hsu2]).
    exists v2. split; [done|done|congruence| | |].
    + intros t x d Hx Hd. rewrite count_ticks_cons, Z.sub_add_distr. apply Hsl2; [congruence|].
      by apply Hsl1.
    + intros n k0 Hn Ha. rewrite count_ticks_cons, Z.add_assoc.
      apply Hti2; [destruct b; lia|by apply Hti1].
    + intros t Hin Hno. destruct b.
      * destruct (suspended_woken k v v1 t (ko_inv _ _ _ Hk) Hw1 Hin Hno). by apply Hsu2.
      * apply Hsu2.
        -- apply Hw1. by rewrite decide_False by apply not_elem_of_nil.
        -- intros l Hl%Hw1. rewrite decide_False in Hl by apply not_elem_of_nil. by apply Hno in Hl.
Qed.

(** Sleeping and [ready]. *)
Lemma sleeping_ready k v t x d :
  kinv k v → k_tcbs k !! t = Some x → sleeping k v t x d → ready k t = bool_decide (d ≤ 0).
Proof.
  intros Hinv Hx Hsl. unfold sleeping in Hsl. case_decide as Hd.
  - rewrite bool_decide_eq_true_2 by done. by apply (ready_iff k v Hinv t x).
  - rewrite bool_decide_eq_false_2 by done. apply not_true_iff_false.
    rewrite (ready_iff k v Hinv t x Hx). intros Hin. destruct Hsl as [_ Hwh].
    destruct (id_which _ _ _ _ _ _ (ki_delay _ _ _ Hinv)) as [[HD HO]|[HD HO]];
      destruct Hwh as [[Hl _]|[Hl _]];
      pose proof (in_list_unique (ki_rep _ _ _ Hinv) _ _ _ Hl Hin); congruence.
Qed.

(** *** Consecutive switches *)

(** The tasks selected by [n] switches in a row. *)
Fixpoint switches (n : nat) : K (list Z) :=
  match n with
  | O => retM []
  | S n =>
      vTaskSwitchContext ;>
      let* c := current in
      let* cs := switches n in
      retM (c :: cs)
  end.

Lemma top_priority_unique v p q : top_priority v p → top_priority v q → p = q.
Proof.
  intros [Hp Hp'] [Hq Hq']. destruct (decide (p < q)) as [Hlt|]; [by rewrite Hp' in Hq|].
  destruct (decide (q < p)) as [Hlt|]; [by rewrite Hq' in Hp|]. lia.
Qed.
Lemma top_priority_vidx v l j p : top_priority v p → top_priority (vidx l j v) p.
Proof. intros [Hp Hq]. split; [by rewrite vitems_vidx|]. intros q Hlt. rewrite vitems_vidx. by apply Hq. Qed.

Lemma wp_switches n : ∀ k v p r xs ys,
  kok idle k v → uxSchedulerSuspended k = 0 → top_priority v p →
  rings v !! ReadyL p = Some r → ring_order r = (StateItem <$> xs) ++ ys → n = length xs →
  wp (switches n) (λ cs k', cs = xs ∧ kernel_ok idle k' ∧
    uxSchedulerSuspended k' = 0 ∧ k_tcbs k' = k_tcbs k) k.
Proof.
  induction n as [|n IH]; intros k v p r xs ys Hk Hs Htop Hr Hord Hn.
  { destruct xs; [|done]. apply wp_ret. split_and!; [done|by exists v|done|done]. }
  destruct xs as [|t xs]; [done|]. simplify_eq/=.
  pose proof Hk as [Hinv Hso Hi]. apply wp_bind.
  eapply wp_mono; [apply (wp_vTaskSwitchContext k v Hinv Hs (kok_some_ready _ _ _ Hk))|].
  intros _ k1 (v1 & Hsp). destruct (ss_next _ _ _ _ Hsp) as (p' & t' & Htop' & (r' & Hr' & Hh') & Hc1 & Hv1).
  pose proof (top_priority_unique v p p' Htop Htop') as <-. rewrite Hr in Hr'. simplify_eq.
  rewrite Hord in Hh'. simplify_eq/=.
  destruct (ss_frame _ _ _ _ Hsp) as (s & c & Heq).
  set (v1 := vidx (ReadyL p) (StateItem t') v) in *.
  assert (kok idle k1 v1) as Hk1.
  { split; [apply Hsp| |].
    - right. right. apply current_is_top_no_better, Hsp.
    - destruct Hi as [q Hq]. exists q. by apply (ss_same _ _ _ _ Hsp). }
  pose proof (rep_ring_wf _ _ _ _ (kr_rep _ _ _ (ki_rep _ _ _ Hinv)) Hr) as Hwf.
  apply wp_bind. eapply wp_current; [exact Hc1|]. apply wp_bind. eapply wp_mono.
  { apply (IH k1 v1 p (r' <| r_index := Some (StateItem t') |>) xs (ys ++ [StateItem t']) Hk1).
    - by rewrite Heq.
    - by apply top_priority_vidx.
    - unfold v1. simpl. by rewrite lookup_alter_eq, Hr.
    - rewrite (ring_order_step r' (StateItem t') ((StateItem <$> xs) ++ ys) Hwf Hord). by rewrite app_assoc.
    - done. }
  intros cs k2 (-> & Hk2 & Hs2 & HT2). apply wp_ret. split_and!; [done|done|done|].
  rewrite HT2. by rewrite Heq.
Qed.

(** *** Aborting a delay *)

Lemma resume_ready k v b k' v' ts k1 v1 k2 t x :
  kinv k v → resume_spec k v b k' v' ts k1 v1 k2 → k_tcbs k !! t = Some x →
  in_list v (StateItem t) (ReadyL (uxPriority x)) → in_list v' (StateItem t) (ReadyL (uxPriority x)).
Proof.
  intros Hinv Hr Hx Hin. eapply ticks_ready; [apply Hr|apply Hr|].
  eapply woken_ready; [apply Hinv|apply Hr|exact Hx|exact Hin].
Qed.

Lemma woken_event_none T ts v v' t :
  woken T ts v v' → in_none v (EventItem t) → in_none v' (EventItem t).
Proof. intros Hw Hno l Hl%Hw. simpl in Hl. case_decide; [by destruct Hl|by apply Hno in Hl]. Qed.
Lemma ticks_event_none n k v k' v' t :
  ticks n k v k' v' → in_none v (EventItem t) → in_none v' (EventItem t).
Proof.
  induction 1 as [|n k v b k1 v1 k2 v2 Hs Ht IH]; [done|]. intros Hno. apply IH.
  eapply woken_event_none; [apply Hs|done].
Qed.

Lemma resume_tcbs k v b k' v' ts k1 v1 k2 :
  resume_spec k v b k' v' ts k1 v1 k2 → k_tcbs k' = k_tcbs k ∧ uxSchedulerSuspended k' = 0.
Proof.
  intros Hr. rewrite (rs_final _ _ _ _ _ _ _ _ _ Hr).
  pose proof (ticks_frames _ _ _ _ _ (rs_ticks _ _ _ _ _ _ _ _ _ Hr)) as Hfr.
  pose proof (tf_suspended _ _ Hfr) as Hsu. pose proof (tf_tcbs _ _ Hfr) as HT.
  destruct (rs_state1 _ _ _ _ _ _ _ _ _ Hr) as (s' & top' & next' & y' & -> & _).
  by destruct b.
Qed.

(** The outermost [xTaskResumeAll] with nothing pended. *)
Lemma wp_resume_none k v :
  kok idle k v → uxSchedulerSuspended k = 1 → xPendedTicks k = 0 → vitems v PendingReadyL = [] →
  wp xTaskResumeAll (λ _ k', ∃ v', kok idle k' v' ∧ k_tcbs k' = k_tcbs k ∧ (∀ i l, in_list v' i l ↔ in_list v i l) ∧
    (xYieldPendings k = true → pendsv k' = true)) k.
Proof.
  intros Hk Hs Hp He. eapply wp_mono; [apply (wp_xTaskResumeAll k v); [apply Hk|done]|].
  intros b k' (v' & ts & k1 & v1 & k2 & Hr). exists v'.
  assert (ts = []) as ->.
  { pose proof (rs_pending _ _ _ _ _ _ _ _ _ Hr) as Hts. rewrite He in Hts. by destruct ts. }
  pose proof (rs_ticks _ _ _ _ _ _ _ _ _ Hr) as Ht. rewrite Hp in Ht. simpl in Ht.
  split_and!; [by eapply resume_kok|by eapply resume_tcbs| |].
  - intros i l. pose proof (rs_woken _ _ _ _ _ _ _ _ _ Hr i l) as Hw.
    rewrite decide_False in Hw by apply not_elem_of_nil. inversion Ht; subst. exact Hw.
  - intros Hy. destruct (rs_state1 _ _ _ _ _ _ _ _ _ Hr) as (s & top & next & y & Hk1 & Hyy).
    rewrite (rs_final _ _ _ _ _ _ _ _ _ Hr), (rs_yield _ _ _ _ _ _ _ _ _ Hr).
    assert (xYieldPendings k2 = true) as ->; [|done].
    inversion Ht; subst. simpl. apply Hyy. by left.
Qed.

(** [xTaskAbortDelay] while the scheduler runs. *)
Lemma wp_xTaskAbortDelay_state k v t x :
  kok idle k v → k_tcbs k !! t = Some x → uxSchedulerSuspended k = 0 → xPendedTicks k = 0 →
  wp (xTaskAbortDelay t) (λ b k', b = bool_decide (state_of k t = eBlocked) ∧ ∃ v', kok idle k' v' ∧
    woken (k_tcbs k) (if b then [t] else []) v v' ∧
    k_tcbs k' = (if b && bool_decide (is_Some (event_in k t)) then <[t := x <| ucDelayAborted := true |>]> (k_tcbs k)
                 else k_tcbs k) ∧
    (b = true → prio_above_current k t → pendsv k' = true)) k.
Proof.
  intros Hk Hx Hs Hp. pose proof (ko_inv _ _ _ Hk) as Hinv. unfold xTaskAbortDelay. apply wp_bind.
  apply (wp_vTaskSuspendAll idle k v); [done|by rewrite Hs|]. intros k1 Hk1 Heq1.
  assert (k_tcbs k1 !! t = Some x) as Hx1 by by rewrite Heq1.
  assert (uxSchedulerSuspended k1 = 1) as Hs1 by (rewrite Heq1; simpl; lia).
  assert (vitems v PendingReadyL = []) as Hpend by (by apply (is_zero _ _ _ (ki_susp _ _ _ Hinv))).
  apply wp_bind. eapply wp_intro; [by apply (eTaskGetState_eq k1 v t x); [apply Hk1|]|].
  assert (state_of k1 t = state_of k t) as -> by by rewrite Heq1.
  assert (state_of k t ≠ eBlocked → wp (let* xReturn := retM false in let* _ := xTaskResumeAll in retM xReturn)
    (λ b k', b = bool_decide (state_of k t = eBlocked) ∧ ∃ v', kok idle k' v' ∧
      woken (k_tcbs k) (if b then [t] else []) v v' ∧
      k_tcbs k' = (if b && bool_decide (is_Some (event_in k t)) then <[t := x <| ucDelayAborted := true |>]> (k_tcbs k)
                   else k_tcbs k) ∧
      (b = true → prio_above_current k t → pendsv k' = true)) k1) as Hno.
  { intros Hne. apply wp_bind, wp_ret, wp_bind.
    eapply wp_mono; [by apply (wp_resume_none k1 v); [..|rewrite Heq1|]|].
    intros _ k' (v' & Hk' & HT & Hin & _). apply wp_ret. rewrite bool_decide_eq_false_2 by done. split; [done|].
    exists v'. split_and!; [done| |by rewrite HT, Heq1|done].
    intros i l. rewrite Hin. by rewrite decide_False by apply not_elem_of_nil. }
  destruct (state_of k t) eqn:Hst; try (by apply Hno). clear Hno. rewrite bool_decide_eq_true_2 by done.
  apply wp_bind. eapply (wp_abort_blocked idle k1 v t x); [exact Hk1|exact Hx1|].
  intros k2 b Hk2 (s & top & y & Heq2 & Hy) Hb Hwk. apply wp_bind.
  assert (∀ l, in_list (vwake t (uxPriority x) v) (EventItem t) l → False) as Hev.
  { intros l Hl%Hwk. simpl in Hl. rewrite decide_True in Hl by by left. by destruct Hl. }
  eapply wp_mono; [apply (wp_resume_none k2 (vwake t (uxPriority x) v)); [done|by rewrite Heq2|by rewrite Heq2, Heq1|]|].
  { destruct (vitems (vwake t (uxPriority x) v) PendingReadyL) as [|i ?] eqn:Hi; [done|].
    assert (in_list (vwake t (uxPriority x) v) i PendingReadyL) as Hin by (apply in_list_vitems; rewrite Hi; by left).
    apply Hwk in Hin. case_decide as Hd; [by destruct Hin as (_ & ? & _ & ?)|].
    apply in_list_vitems in Hin. rewrite Hpend in Hin. by apply not_elem_of_nil in Hin. }
  intros _ k' (v' & Hk' & HT & Hin & Hyp). apply wp_ret. split; [done|]. exists v'. split_and!; [done| | |].
  - intros i l. rewrite Hin, (Hwk i l). by rewrite Heq1.
  - rewrite HT, Heq2, Heq1. simpl. assert (bool_decide (is_Some (event_in k t)) = b) as ->; [|done].
    destruct b; [rewrite bool_decide_eq_true|rewrite bool_decide_eq_false].
    + destruct (event_in k t) as [l|] eqn:He; [done|]. by destruct (proj1 Hb eq_refl (proj1 (event_in_none k v Hinv t) He)).
    + intros [l Hl]. assert (false = true) as [=]. apply Hb. intros Hno. apply (Hno l). by apply (event_in_iff k v Hinv).
  - intros _ Ha. apply Hyp. rewrite Heq2. simpl. apply Hy. by rewrite Heq1.
Qed.
End trace.
