(* ===== verification/TasksCheck.v ===== *)
(** * Checking a concrete kernel state

    A boolean test of the scheduler's invariant, and its soundness: a state
    given in full, such as the one a sequence of calls has computed, can be
    shown to satisfy the invariant by evaluation. *)
From S2P Require Import Prelude KList KListSpec KListProps Tasks TasksView TasksInv TasksTick TasksSwitch TasksBlock TasksResume.
From S2P Require Import TasksDelay TasksOps TasksCreate TasksMachine TasksTrace.

(** ** The contents of the lists of a store *)

(** The items from the node [p] on, up to the end marker. *)
Fixpoint walk (fuel : nat) (s : store) (p : option (ptr (I:=item) (L:=lid))) : list item :=
  match fuel, p with
  | S n, Some (PItem i) => i :: walk n s (nextOf s (PItem i))
  | _, _ => []
  end.
Definition list_items (s : store) (l : lid) : list item :=
  walk (Z.to_nat (default 0 (countOf s l))) s (nextOf s (PEnd l)).
Definition list_ring (s : store) (l : lid) : ring (I:=item) :=
  mkRing (list_items s l)
    match indexOf s l with Some (PItem i) => Some i | _ => None end.
Definition store_rings (s : store) : gmap lid (ring (I:=item)) :=
  map_imap (λ l _, Some (list_ring s l)) (ls_lists s).
Definition view_of (k : kernel) : lview := mkView (store_rings (k_lists k)) (val_of (k_lists k)).

Lemma walk_items s l (xs : list item) p : ∀ fuel,
  path s (p :: (PItem <$> xs) ++ [PEnd l]) → (length xs ≤ fuel)%nat →
  walk fuel s (nextOf s p) = xs.
Proof.
  revert p. induction xs as [|x xs IH]; intros p fuel Hp Hf.
  - destruct Hp as [[-> _] _]. by destruct fuel.
  - destruct fuel as [|fuel]; simpl in Hf; [lia|]. destruct Hp as [[-> _] Hp].
    change (x :: walk fuel s (nextOf s (PItem x)) = x :: xs). f_equal. apply IH; [exact Hp|lia].
Qed.
Lemma list_items_ring s m l r : rep s m → m !! l = Some r → list_items s l = r_items r.
Proof.
  intros Hrep Hm. destruct (rep_lists s m Hrep l r Hm) as [Hp Hc _ _ _ _ _].
  unfold list_items. rewrite Hc. simpl. apply (walk_items s l (r_items r) (PEnd l)); [exact Hp|lia].
Qed.
(** The items of a list of the view. *)
Lemma list_items_view k v l :
  kinv k v → is_Some (rings v !! l) → list_items (k_lists k) l = vitems v l.
Proof.
  intros Hinv [r Hr]. rewrite (list_items_ring _ _ _ _ (kr_rep _ _ _ (ki_rep _ _ _ Hinv)) Hr).
  unfold vitems. by rewrite Hr.
Qed.

(** ** The test *)

Section check.
Context (idle : Z) (k : kernel).
#[local] Abbreviation s := (k_lists k).
#[local] Abbreviation T := (k_tcbs k).

(** A test of every list. *)
Definition rings_all (P : lid → ring (I:=item) → bool) : bool :=
  forallb (λ lr, P lr.1 lr.2) (map_to_list (store_rings s)).

Fixpoint sortedb (val : item → Z) (xs : list item) : bool :=
  match xs with
  | [] => true
  | x :: ys => forallb (λ y, val x <=? val y) ys && sortedb val ys
  end.

Definition check_rep : bool := bool_decide (rep s (store_rings s)).

Definition check_items : bool :=
  bool_decide (map_Forall (λ i it, is_Some (T !! itask i) ∧ pvOwner it = Some (itask i)) (ls_items s)) &&
  bool_decide (map_Forall (λ t _, is_Some (ls_items s !! StateItem t) ∧ is_Some (ls_items s !! EventItem t)) T).

Definition check_lists : bool :=
  forallb (λ p, bool_decide (is_Some (store_rings s !! ReadyL p))) (seqZ 0 configMAX_PRIORITIES) &&
  forallb (λ l, bool_decide (is_Some (store_rings s !! l)))
    [DelayedL1; DelayedL2; PendingReadyL; TerminationL; SuspendedL] &&
  rings_all (λ l r,
    match l with ReadyL p => (0 <=? p) && (p <? configMAX_PRIORITIES) | _ => true end &&
    forallb (λ i, Bool.eqb (is_state i) (state_list l)) (r_items r)).

Definition check_ready : bool :=
  rings_all (λ l r,
    match l with
    | ReadyL p => forallb (λ i, bool_decide (uxPriority <$> T !! itask i = Some p)) (r_items r)
    | _ => true
    end) &&
  bool_decide (0 ≤ uxTopReadyPriority k < 2 ^ configMAX_PRIORITIES) &&
  forallb (λ p, Bool.eqb (Z.testbit (uxTopReadyPriority k) p)
                         (negb (bool_decide (vitems (view_of k) (ReadyL p) = []))))
    (seqZ 0 configMAX_PRIORITIES).

Definition check_delay : bool :=
  let D := pxDelayedTaskList k in
  let O := pxOverflowDelayedTaskList k in
  (bool_decide (D = DelayedL1 ∧ O = DelayedL2) || bool_decide (D = DelayedL2 ∧ O = DelayedL1)) &&
  bool_decide (0 ≤ xTickCount k < MAX32) && bool_decide (0 ≤ xNextTaskUnblockTime k < MAX32) &&
  sortedb (val_of s) (vitems (view_of k) D) && sortedb (val_of s) (vitems (view_of k) O) &&
  forallb (λ i, (xTickCount k <? val_of s i) && (xNextTaskUnblockTime k <=? val_of s i)) (vitems (view_of k) D) &&
  forallb (λ i, val_of s i <? xTickCount k) (vitems (view_of k) O).

Definition check_rest : bool :=
  bool_decide (map_Forall (λ _ x, 0 ≤ uxBasePriority x ≤ uxPriority x ∧ uxPriority x < configMAX_PRIORITIES) T) &&
  bool_decide (map_Forall (λ t _, is_Some (contOf s (StateItem t))) T) &&
  bool_decide (0 ≤ uxSchedulerSuspended k < MAX32) && bool_decide (0 ≤ xPendedTicks k < MAX32) &&
  (negb (uxSchedulerSuspended k =? 0) || bool_decide (vitems (view_of k) PendingReadyL = [])) &&
  bool_decide (is_Some (pxCurrentTCB k ≫= λ c, T !! c)) && (0 <? uxCurrentNumberOfTasks k).

(** No ready task has a higher priority than the running one, or a switch is pending. *)
Definition check_sched : bool :=
  pendsv k || xYieldPendings k ||
  match prio k (cur k) with
  | Some q => rings_all (λ l r,
      match l with ReadyL p => (p <=? q) || bool_decide (r_items r = []) | _ => true end)
  | None => false
  end.

Definition kernel_check : bool :=
  check_rep && check_items && check_lists && check_ready && check_delay && check_rest && check_sched &&
  ready k idle.

(** *** Soundness *)

Lemma sortedb_sound val xs : sortedb val xs = true → sorted_by val xs.
Proof.
  induction xs as [|x xs IH]; simpl; [intros _; apply sorted_by_nil|].
  intros [Hx Hs]%andb_true_iff. apply sorted_by_cons. split; [|by apply IH].
  intros j Hj. rewrite forallb_forall in Hx. apply Z.leb_le, Hx. by apply list_elem_of_In.
Qed.

Lemma forallb_elem {A} (f : A → bool) xs x : forallb f xs = true → x ∈ xs → f x = true.
Proof. rewrite forallb_forall. intros Hf Hx. apply Hf. by apply list_elem_of_In. Qed.

Lemma rings_all_sound P l r : rings_all P = true → store_rings s !! l = Some r → P l r = true.
Proof.
  intros Ha Hr. apply (forallb_elem _ _ (l, r) Ha). by apply elem_of_map_to_list.
Qed.

Lemma check_rep_sound : check_rep = true → rep s (store_rings s).
Proof. apply bool_decide_eq_true. Qed.

Lemma view_list i l : in_list (view_of k) i l ↔ ∃ r, store_rings s !! l = Some r ∧ i ∈ r_items r.
Proof. done. Qed.

Lemma check_krep_sound : check_rep = true → check_items = true → krep s T (view_of k).
Proof.
  intros Hrep [H1 H2]%andb_true_iff. apply bool_decide_eq_true in H1, H2. split; simpl.
  - by apply check_rep_sound.
  - intros i. rewrite bool_decide_eq_true. split.
    + intros [it Hit]. by apply (H1 i it Hit).
    + intros [x Hx]. destruct (H2 _ x Hx). by destruct i.
  - intros i [x Hx]. destruct (H2 _ x Hx) as [Hs He].
    assert (is_Some (ls_items s !! i)) as [it Hit] by by destruct i.
    unfold ownerOf. rewrite Hit. by apply (H1 i it Hit).
  - done.
Qed.

Lemma check_lists_sound : check_lists = true → i_lists (view_of k).
Proof.
  intros [[H1 H2]%andb_true_iff H3]%andb_true_iff. split.
  - intros p. split.
    + intros [r Hr]. pose proof (rings_all_sound _ _ r H3 Hr) as [Hb _]%andb_true_iff. lia.
    + intros Hp. assert (p ∈ seqZ 0 configMAX_PRIORITIES) as Hin by (apply elem_of_seqZ; lia).
      by pose proof (forallb_elem _ _ p H1 Hin) as Hb%bool_decide_eq_true.
  - intros l Hl. by pose proof (forallb_elem _ _ l H2 Hl) as Hb%bool_decide_eq_true.
  - intros i l (r & Hr & Hi). pose proof (rings_all_sound _ l r H3 Hr) as [_ Hf]%andb_true_iff.
    apply Bool.eqb_prop. by apply (forallb_elem _ _ i Hf).
Qed.

Lemma check_ready_sound : check_lists = true → check_ready = true → i_ready T (uxTopReadyPriority k) (view_of k).
Proof.
  intros Hl [[H1 H2]%andb_true_iff H3]%andb_true_iff. apply bool_decide_eq_true in H2. split; [|lia|].
  - intros t p x (r & Hr & Hi) Hx. pose proof (rings_all_sound _ _ r H1 Hr) as Hf. simpl in Hf.
    pose proof (forallb_elem _ _ _ Hf Hi) as Hp%bool_decide_eq_true. simpl in Hp. rewrite Hx in Hp.
    by simplify_eq/=.
  - intros p Hp _. destruct (decide (p < configMAX_PRIORITIES)) as [Hlt|Hge].
    + assert (p ∈ seqZ 0 configMAX_PRIORITIES) as Hin by (apply elem_of_seqZ; lia).
      pose proof (forallb_elem _ _ p H3 Hin) as Hb. apply Bool.eqb_prop in Hb. rewrite Hb.
      rewrite negb_true_iff, bool_decide_eq_false. done.
    + split; intros Hx; exfalso.
      * destruct (decide (uxTopReadyPriority k = 0)) as [Hz|Hnz].
        -- rewrite Hz in Hx. by rewrite Z.bits_0 in Hx.
        -- rewrite Z.bits_above_log2 in Hx; [done|lia|].
           apply Z.lt_le_trans with configMAX_PRIORITIES; [|lia]. apply Z.log2_lt_pow2; lia.
      * apply Hge. enough (0 ≤ p < configMAX_PRIORITIES) by lia. apply (il_ready _ (check_lists_sound Hl)).
        unfold vitems in Hx. destruct (rings (view_of k) !! ReadyL p); [eauto|done].
Qed.

Lemma check_delay_sound : check_delay = true →
  i_delay (pxDelayedTaskList k) (pxOverflowDelayedTaskList k) (xTickCount k) (xTickCount k)
    (xNextTaskUnblockTime k) (view_of k).
Proof.
  unfold check_delay.
  intros [[[[[[H1 H2]%andb_true_iff H3]%andb_true_iff H4]%andb_true_iff H5]%andb_true_iff H6]%andb_true_iff H7]%andb_true_iff.
  apply bool_decide_eq_true in H2, H3. split.
  - apply orb_true_iff in H1 as [H1%bool_decide_eq_true|H1%bool_decide_eq_true]; auto.
  - exact H2.
  - exact H3.
  - by apply sortedb_sound.
  - by apply sortedb_sound.
  - intros i Hi%in_list_vitems. pose proof (forallb_elem _ _ i H6 Hi) as [Hb1%Z.ltb_lt Hb2%Z.leb_le]%andb_true_iff. done.
  - intros i Hi%in_list_vitems. by pose proof (forallb_elem _ _ i H7 Hi) as Hb%Z.ltb_lt.
Qed.

Lemma kernel_check_sound : kernel_check = true → kok idle k (view_of k).
Proof.
  unfold kernel_check.
  intros [[[[[[[Hre Hit]%andb_true_iff Hli]%andb_true_iff Hrd]%andb_true_iff Hde]%andb_true_iff Hrs]%andb_true_iff Hsc]%andb_true_iff Hidle]%andb_true_iff.
  assert (kinv k (view_of k)) as Hinv.
  { unfold check_rest in Hrs.
    apply andb_true_iff in Hrs as [[[[[[H1 H2]%andb_true_iff H3]%andb_true_iff H4]%andb_true_iff H5]%andb_true_iff H6]%andb_true_iff H7].
    apply bool_decide_eq_true in H1, H2, H3, H4, H6.
    pose proof (check_krep_sound Hre Hit) as Hk. split.
    - done.
    - by apply check_lists_sound.
    - by apply check_ready_sound.
    - done.
    - intros t [x Hx]. destruct (H2 t x Hx) as [l Hl]. exists l. by apply (krep_cont Hk).
    - by apply check_delay_sound.
    - split; [done|done|]. intros Hz. rewrite Hz in H5. simpl in H5. by apply bool_decide_eq_true in H5.
    - done.
    - lia. }
  split; [done| |].
  - unfold check_sched in Hsc. apply orb_true_iff in Hsc as [[Hs|Hs]%orb_true_iff|Hs]; [by left|by right; left|].
    right. right. unfold prio, cur in Hs. intros t p c x (r & Hr & Hi) Hc Hx.
    rewrite Hc in Hs. simpl in Hs. rewrite Hx in Hs. simpl in Hs.
    pose proof (rings_all_sound _ _ r Hs Hr) as [?|He%bool_decide_eq_true]%orb_true_iff; [lia|].
    rewrite He in Hi. by apply not_elem_of_nil in Hi.
  - unfold ready in Hidle. destruct (prio k idle) as [p|]; [|done]. apply bool_decide_eq_true in Hidle.
    exists p. by apply (state_in_iff k (view_of k) Hinv).
Qed.
End check.

Lemma kernel_check_ok idle k : kernel_check idle k = true → kernel_ok idle k.
Proof. intros Hk. exists (view_of k). by apply kernel_check_sound. Qed.

(** The state the start-up code leaves. *)
Definition zero_kernel : kernel :=
  mkKernel (mkStore ∅ ∅) ∅ None DelayedL1 DelayedL2 0 0 0 0 false 0 false 0 0 0 0 false.
(** The same after the event lists of a queue have been initialised. *)
Definition reset_kernel : kernel :=
  match (kl (vListInitialise (WaitSendL 7)) ;> kl (vListInitialise (WaitRecvL 7))) zero_kernel with
  | ROk (_, k) => k
  | _ => zero_kernel
  end.
Definition ex_tasks : list (Z * Z * Z) := [(1, 101, 0); (2, 102, 3); (3, 103, 3); (4, 104, 5)].
Definition ex_boot : kernel :=
  match (createTasks ex_tasks ;> startKernel) reset_kernel with ROk (_, k) => k | _ => zero_kernel end.

(** Calls made one after the other, each enabled. *)
Fixpoint run_enabled (acts : list action) (k : kernel) : option kernel :=
  match acts with
  | [] => Some k
  | a :: acts =>
      if enabled 1 k a then
        match run_action a k with ROk (_, k') => run_enabled acts k' | _ => None end
      else None
  end.
Definition after (acts : list action) : kernel := default zero_kernel (run_enabled acts ex_boot).

Lemma reset_rings : at_reset reset_kernel {[ WaitSendL 7 := empty_ring; WaitRecvL 7 := empty_ring ]}.
Proof.
  split; [|done| |done|by split_and!].
  - by apply (bool_decide_unpack _); vm_compute.
  - intros l [r Hr]. apply lookup_insert_Some in Hr as [[<- _]|[_ Hr]]; [done|].
    by apply lookup_singleton_Some in Hr as [<- _].
Qed.
Lemma ex_boot_ok : kernel_check 1 ex_boot = true.
Proof. by vm_compute. Qed.

(** Task 4 delays itself for 10 ticks; then a tick. *)
Definition ex_delayed : kernel := after [ADelay 10; APendSV; ATick].
Example ex_delayed_runs : pxCurrentTCB ex_delayed = Some 2 ∧ state_in ex_delayed 4 = Some DelayedL1 ∧
  wake_at ex_delayed 4 = 10.
Proof. by vm_compute. Qed.
