(* ===== verification/TasksWaiters.v ===== *)
(** * The waiters of an event list

    The tasks on an event list as the state shows them, and how the list changes
    when its first waiter is readied. *)
From S2P Require Import Prelude KList KListSpec KListProps Tasks TasksView TasksInv TasksTick.
From S2P Require Import TasksBlock TasksOps TasksEvents TasksCheck.

(** The tasks that wait on an event list, and the value that orders them
    (the priority, counted down). *)
Definition waiters (k : kernel) (l : lid) : list Z := itask <$> list_items (k_lists k) l.
Definition event_value (k : kernel) (t : Z) : Z := val_of (k_lists k) (EventItem t).
Lemma value_view k v t : kinv k v → is_Some (k_tcbs k !! t) → event_value k t = vals v (EventItem t).
Proof. intros Hinv Ht. apply (kr_vals _ _ _ (ki_rep _ _ _ Hinv)). exact Ht. Qed.
Lemma waiters_view k v l : kinv k v → event_list v l → EventItem <$> waiters k l = vitems v l.
Proof.
  intros Hinv (Hkd & _ & HL). unfold waiters. rewrite (list_items_view k v l Hinv HL).
  rewrite <- list_fmap_compose. rewrite <- (list_fmap_id (vitems v l)) at 2.
  apply list_fmap_ext. intros n i Hi. assert (in_list v i l) as Hin.
  { apply in_list_vitems. by eapply list_elem_of_lookup_2. }
  apply (il_kind _ (ki_lists _ _ _ Hinv)) in Hin. rewrite Hkd in Hin. by destruct i.
Qed.
Lemma waiter_tcb k v l t : kinv k v → event_list v l → t ∈ waiters k l → is_Some (k_tcbs k !! t).
Proof.
  intros Hinv Hl Ht. assert (in_list v (EventItem t) l) as Hin.
  { apply in_list_vitems. rewrite <- (waiters_view k v l) by done. by apply list_elem_of_fmap_2. }
  by apply (in_list_tcb (ki_rep _ _ _ Hinv)) in Hin.
Qed.
Lemma tasks_of_events (ts : list Z) : itask <$> (EventItem <$> ts) = ts.
Proof. rewrite <- list_fmap_compose. apply list_fmap_id. Qed.
Lemma waiters_eq k v l ts : kinv k v → event_list v l → vitems v l = EventItem <$> ts → waiters k l = ts.
Proof.
  intros Hinv Hl Hv. pose proof (waiters_view k v l Hinv Hl) as Hw. rewrite Hv in Hw.
  apply (f_equal (fmap itask)) in Hw. by rewrite !tasks_of_events in Hw.
Qed.

Lemma vitems_vrem_none v i l : i ∉ vitems v l → vitems (vrem i v) l = vitems v l.
Proof.
  unfold vitems. simpl. rewrite lookup_fmap. destruct (rings v !! l) as [r|]; [|done]. simpl.
  intros Hi. unfold ring_del. by rewrite decide_False.
Qed.

(** Filtering the waiters is filtering their items. *)
Lemma filter_waiters (P : Z → Prop) (Q : item → Prop) `{∀ t, Decision (P t)} `{∀ i, Decision (Q i)} (ts : list Z) :
  (∀ t, t ∈ ts → P t ↔ Q (EventItem t)) → filter Q (EventItem <$> ts) = EventItem <$> filter P ts.
Proof.
  induction ts as [|t ts IH]; intros HPQ; [done|]. rewrite fmap_cons, !filter_cons.
  rewrite IH by (intros u Hu; apply HPQ; by right). pose proof (HPQ t ltac:(by left)) as Ht.
  destruct (decide (P t)), (decide (Q (EventItem t))); (done || naive_solver).
Qed.

Lemma event_list_nodup k v l : kinv k v → event_list v l → NoDup (vitems v l).
Proof.
  intros Hinv (_ & _ & r & Hr). unfold vitems. rewrite Hr. by eapply (krep_nodup (ki_rep _ _ _ Hinv)).
Qed.
Lemma removed_waiters k v l susp t ts p :
  kinv k v → event_list v l → vitems v l = EventItem <$> t :: ts →
  vitems (removed_view susp t p v) l = EventItem <$> ts ∧ event_list (removed_view susp t p v) l.
Proof.
  intros Hinv Hl Hv. pose proof (event_list_nodup _ _ _ Hinv Hl) as Hnd. destruct Hl as (Hkd & Hnp & HL).
  assert (vitems (vrem (EventItem t) v) l = EventItem <$> ts) as Hrem.
  { rewrite (vitems_vrem (ki_rep _ _ _ Hinv)), Hv, fmap_cons, filter_cons_False by (intros Hc; by apply Hc).
    apply filter_all. intros i Hi ->. rewrite Hv in Hnd. by apply NoDup_cons in Hnd as [? _]. }
  split.
  - unfold removed_view, vready. destruct (susp =? 0).
    + rewrite vitems_vend_ne by (intros <-; done). rewrite vitems_vrem_none; [done|].
      rewrite Hrem. by intros (u & ? & _)%list_elem_of_fmap.
    + by rewrite vitems_vend_ne by done.
  - split_and!; [done|done|]. unfold removed_view, vready.
    destruct (susp =? 0); [by apply vend_list, vrem_list, vrem_list|by apply vend_list, vrem_list].
Qed.
(** Other event lists are as before. *)
Lemma removed_others k v l l' susp t p :
  kinv k v → in_list v (EventItem t) l → l' ≠ l → event_list v l' →
  vitems (removed_view susp t p v) l' = vitems v l'.
Proof.
  intros Hinv Hin Hne (Hkd & Hnp & HL).
  assert (EventItem t ∉ vitems v l') as Hno.
  { intros Hi%in_list_vitems. apply Hne. by eapply (in_list_unique (ki_rep _ _ _ Hinv)). }
  unfold removed_view, vready. destruct (susp =? 0).
  - rewrite vitems_vend_ne by (intros <-; done). rewrite vitems_vrem_none; [by apply vitems_vrem_none|].
    rewrite vitems_vrem_none by done. intros Hi%in_list_vitems.
    apply (il_kind _ (ki_lists _ _ _ Hinv)) in Hi. simpl in Hi. congruence.
  - rewrite vitems_vend_ne by (by intros <-). by apply vitems_vrem_none.
Qed.

(** *** Where the items are after a removal *)
Lemma krep_vrem s T v i : krep s T v → ∃ s', krep s' T (vrem i v).
Proof.
  intros Hk. destruct (contOf s i) as [l|] eqn:Hc.
  - apply (krep_cont Hk) in Hc.
    destruct (wp_ok (uxListRemove i) (λ _ s', krep s' T (vrem i v)) s) as (n & s' & _ & Hs'); [|by exists s'].
    eapply ws_uxListRemove; [exact Hk|exact Hc|]. by intros.
  - apply (krep_none Hk) in Hc. exists s. by rewrite vrem_id.
Qed.
Lemma in_list_removed s T v susp t p i l :
  krep s T v → is_Some (rings v !! ReadyL p) → is_Some (rings v !! PendingReadyL) →
  in_list (removed_view susp t p v) i l ↔
    if susp =? 0 then (i = StateItem t ∧ l = ReadyL p) ∨ (in_list v i l ∧ itask i ≠ t)
    else (i = EventItem t ∧ l = PendingReadyL) ∨ (in_list v i l ∧ i ≠ EventItem t).
Proof.
  intros Hk HR HP. destruct (krep_vrem _ _ _ (EventItem t) Hk) as [s1 Hk1].
  unfold removed_view. destruct (susp =? 0).
  - destruct (krep_vrem _ _ _ (StateItem t) Hk1) as [s2 Hk2].
    rewrite (in_list_vready _ _ _ _ _ _ _ _ Hk1 Hk2), (in_list_vrem Hk) by by apply vrem_list.
    destruct i as [u|u]; simpl; naive_solver.
  - rewrite (in_list_vend Hk1), (in_list_vrem Hk); [done|]. by apply vrem_list.
Qed.

(** *** Placing the running task *)
Lemma blocked_event_vals k c n b v t : vals (blocked_view k c n b v) (EventItem t) = vals v (EventItem t).
Proof.
  unfold blocked_view. destruct ((n =? portMAX_DELAY) && b); [done|]. destruct (wake_time k n <? xTickCount k); simpl;
    by rewrite fn_lookup_insert_ne.
Qed.
Lemma placed_waiters k v k' c y l n s :
  kinv k v → event_list v l → k_tcbs k !! c = Some y →
  kinv k' (blocked_view k c n true (vins l (EventItem c) v)) →
  kinv (k <| k_lists := s |>) (vins l (EventItem c) v) → blocked_frame (k <| k_lists := s |>) c y k' →
  event_list (blocked_view k c n true (vins l (EventItem c) v)) l ∧
  waiters k' l = ins_sorted (event_value k) (event_value k c) c (waiters k l) ∧
  ∀ t, is_Some (k_tcbs k !! t) → event_value k' t = event_value k t ∧ uxPriority <$> k_tcbs k' !! t = uxPriority <$> k_tcbs k !! t.
Proof.
  intros Hinv Hl Hy Hinv' Hinv1 (s' & top & next & Heq). pose proof Hl as (Hkd & Hnp & HL).
  set (v1 := vins l (EventItem c) v) in *.
  assert (event_list v1 l) as Hl1 by (split_and!; [done|done|by apply vins_list]).
  destruct (blocked_event_list _ v1 c n true l Hinv1 Hl1) as [Hv' Hl'].
  change (blocked_view (k <| k_lists := s |>) c n true v1) with (blocked_view k c n true v1) in Hv', Hl'.
  assert (k_tcbs k' = <[c := y <| ucDelayAborted := false |>]> (k_tcbs k)) as HT by by rewrite Heq.
  split_and!; [done| |].
  - apply (waiters_eq k' _ l _ Hinv' Hl'). rewrite Hv'; unfold v1; rewrite vitems_vins by done.
    rewrite <- (waiters_view k v l Hinv Hl), <- (value_view k v c) by (done || by rewrite Hy).
    apply ins_sorted_fmap. intros t Ht. symmetry. apply value_view; [done|]. by eapply waiter_tcb.
  - intros t Ht. split.
    + rewrite (value_view k' _ t Hinv'); [rewrite blocked_event_vals; symmetry; by apply (value_view k v t Hinv)|].
      rewrite HT. destruct (decide (c = t)) as [<-|]; [by rewrite lookup_insert_eq|by rewrite lookup_insert_ne].
    + rewrite HT. destruct (decide (c = t)) as [<-|]; [by rewrite lookup_insert_eq, Hy|by rewrite lookup_insert_ne].
Qed.
