(* ===== verification/TasksProps.v ===== *)
(** * Properties of the scheduler

    The theorems about tasks.c, in terms of what a kernel state shows: the list
    an item is in ([state_in], [event_in]), a task's priority ([prio]), whether
    it is [ready]. *)
From S2P Require Import Prelude KList KListSpec KListProps Tasks TasksView TasksInv TasksTick.
From S2P Require Import TasksSwitch TasksBlock TasksResume TasksDelay TasksOps TasksSuspend TasksPrio TasksEvents.
From S2P Require Import TasksTime TasksCreate TasksMachine TasksTrace TasksCheck TasksWaiters.

(** A ready task that no ready task beats. *)
Definition best (k : kernel) (t : Z) : Prop :=
  ready k t = true ∧ ∀ u p q, ready k u = true → prio k u = Some p → prio k t = Some q → p ≤ q.

(** The tasks for which this holds, by evaluation. *)
Definition tasks (k : kernel) : list Z := (map_to_list (k_tcbs k)).*1.
Definition bestb (k : kernel) (t : Z) : bool :=
  ready k t && forallb (λ u, negb (ready k u) || (default 0 (prio k u) <=? default 0 (prio k t))) (tasks k).
Definition best_tasks (k : kernel) : list Z := filter (λ t, bestb k t = true) (tasks k).

Lemma ready_prio k t : ready k t = true → ∃ x, k_tcbs k !! t = Some x ∧ prio k t = Some (uxPriority x).
Proof. unfold ready, prio. destruct (k_tcbs k !! t) as [x|]; [eauto|done]. Qed.
Lemma elem_of_tasks k t : t ∈ tasks k ↔ is_Some (k_tcbs k !! t).
Proof.
  unfold tasks. rewrite list_elem_of_fmap. split.
  - intros ([u x] & -> & Hin%elem_of_map_to_list). eauto.
  - intros [x Hx]. exists (t, x). by rewrite elem_of_map_to_list.
Qed.
Lemma elem_of_best_tasks k t : t ∈ best_tasks k ↔ best k t.
Proof.
  unfold best_tasks, best, bestb. rewrite list_elem_of_filter, andb_true_iff, forallb_forall. split.
  - intros [[Hr Hb] _]. split; [done|]. intros u p q Hu Hp Hq.
    destruct (ready_prio k u Hu) as (x & Hx & _).
    assert (u ∈ tasks k) as Hin by (apply elem_of_tasks; eauto). apply list_elem_of_In in Hin.
    specialize (Hb u Hin). rewrite Hu, Hp, Hq in Hb. by apply Z.leb_le in Hb.
  - intros [Hr Hb]. destruct (ready_prio k t Hr) as (y & Hy & Hq). split; [split; [done|]|].
    + intros u Hin%list_elem_of_In. destruct (ready k u) eqn:Hu; [|done].
      destruct (ready_prio k u Hu) as (x & Hx & Hp). rewrite Hp, Hq. simpl. apply Z.leb_le. by eapply Hb.
    + apply elem_of_tasks. eauto.
Qed.
Lemma best_tasks_nodup k : NoDup (best_tasks k).
Proof. apply NoDup_filter, NoDup_fst_map_to_list. Qed.

Section props.
Context (idle : Z).

(** *** The whole machine *)

(** C1: safety of the scheduler.  Take the state after reset, create any
    non-empty set of tasks, start the kernel, then let the tasks and the
    interrupts make any sequence of the modelled calls that obeys the rules of
    the API (tick, PendSV, delays, suspension, priorities, inheritance,
    creation, scheduler suspension): start-up succeeds, and in every state
    reached each enabled call runs to completion (no [configASSERT] fails, no
    [NULL] or stale pointer is followed, no loop runs on), and whenever no
    context switch is pending no ready task has a higher priority than the
    running one. *)
Theorem scheduler_safe k0 m ts stack p :
  at_reset k0 m → NoDup (ts.*1.*1) → (idle, stack, p) ∈ ts →
  (∀ t s q, (t, s, q) ∈ ts → 0 ≤ q < configMAX_PRIORITIES) →
  Z.of_nat (length ts) < 1000000 →
  wp (createTasks ts ;> startKernel) (λ _ k1, ∀ k, rtc (kstep idle) k1 k →
    (∀ a, enabled idle k a = true → ∃ k', run_action a k = ROk (tt, k')) ∧
    (settled k = true → ∀ t q, ready k t = true → prio k t = Some q →
       ∃ c r, pxCurrentTCB k = Some c ∧ prio k c = Some r ∧ q ≤ r)) k0.
Proof.
  intros Hr Hnd Hin Hp Hlen. eapply wp_mono.
  { apply (wp_boot k0 m ts Hr); [by intros ->; apply not_elem_of_nil in Hin|done..]. }
  intros _ k1 (v1 & Hb & _) k Hsteps.
  assert (kernel_ok idle k) as Hk.
  { eapply kernel_ok_steps; [|exact Hsteps]. exists v1. by eapply booted_kok. }
  split.
  - intros a He. destruct Hk as [v Hk].
    destruct (wp_ok _ _ _ (wp_run_action idle a k v Hk He)) as ([] & k' & Hrun & _). by exists k'.
  - intros Hs t q Hrd Hq. by apply (kernel_ok_highest idle k t q Hk Hs).
Qed.

(** *** The tick *)

(** C2: [xTaskIncrementTick] with the scheduler running: the tick counter
    advances modulo 2^32, exactly the tasks of the delayed list in use whose
    wake-up time has been reached become ready (and leave the event list they
    waited on), every other task stays in its lists, and a context switch is
    requested when a task so readied beats the running one. *)
Theorem xTaskIncrementTick_exact k :
  kernel_ok idle k → uxSchedulerSuspended k = 0 →
  wp xTaskIncrementTick (λ b k',
    kernel_ok idle (if b then k' <| pendsv := true |> else k') ∧
    xTickCount k' = wrap32 (xTickCount k + 1) ∧ k_tcbs k' = k_tcbs k ∧
    ∀ t, is_Some (k_tcbs k !! t) →
      if bool_decide (state_in k t = Some (next_delayed k)) && (wake_at k t <=? next_tick k)
      then ready k' t = true ∧ event_in k' t = None ∧ (prio_above_current k t → b = true)
      else state_in k' t = state_in k t ∧ event_in k' t = event_in k t) k.
Proof.
  intros [v Hk] Hs. pose proof Hk as [Hinv _ _].
  eapply wp_mono; [by apply (wp_xTaskIncrementTick k v)|]. intros b k' (v' & Hspec).
  pose proof (ts_inv _ _ _ _ _ Hspec) as Hinv'.
  pose proof (tk_frame _ _ (ts_ticked _ _ _ _ _ Hspec)) as Hfr.
  split_and!; [exists v'; by eapply tick_kok|apply Hspec|apply Hfr|].
  intros t [x Hx]. pose proof (ts_woken _ _ _ _ _ Hspec) as Hw.
  assert (bool_decide (state_in k t = Some (next_delayed k)) && (wake_at k t <=? next_tick k) = true
    ↔ t ∈ due_tasks k v) as Hdue.
  { rewrite (due_tasks_iff k v t (ki_lists _ _ _ Hinv)) by
      (destruct (next_delayed_which k v _ Hinv) as [[? _]|[? _]]; auto).
    rewrite andb_true_iff, bool_decide_eq_true, Z.leb_le, (state_in_iff k v Hinv).
    by rewrite (wake_at_eq k v Hinv) by eauto. }
  assert (∀ i l, itask i = t → t ∉ due_tasks k v → in_list v' i l ↔ in_list v i l) as Hsame.
  { intros i l Hi Hn. rewrite (Hw i l), Hi. by rewrite decide_False. }
  destruct (_ && _).
  - assert (t ∈ due_tasks k v) as Hin by by apply Hdue. split_and!.
    + apply (ready_iff k' v' Hinv' t x); [by rewrite (sb_tcbs _ _ Hfr)|].
      apply Hw. simpl. rewrite decide_True by done. split; [done|by exists x].
    + apply (event_in_none k' v' Hinv'). intros l Hl%Hw. simpl in Hl.
      rewrite decide_True in Hl by done. by destruct Hl.
    + intros Hab. apply (ts_switch _ _ _ _ _ Hspec). right. left. by exists t.
  - assert (t ∉ due_tasks k v) as Hin by by rewrite <- Hdue.
    assert (∀ (o o' : option lid), (∀ l, o = Some l ↔ o' = Some l) → o = o') as Hopt.
    { intros [l|] [l'|] Ho; try done; [by destruct (proj1 (Ho l) eq_refl)|by destruct (proj1 (Ho l) eq_refl)|
        by destruct (proj2 (Ho l') eq_refl)]. }
    split; apply Hopt; intros l.
    + by rewrite (state_in_iff k' v' Hinv'), (state_in_iff k v Hinv), Hsame.
    + by rewrite (event_in_iff k' v' Hinv'), (event_in_iff k v Hinv), Hsame.
Qed.

(** *** The switch *)

(** C3: [vTaskSwitchContext] with the scheduler running selects a ready task of
    the highest priority there is, clears the pending yield and moves no task. *)
Theorem vTaskSwitchContext_highest k :
  kernel_ok idle k → uxSchedulerSuspended k = 0 →
  wp vTaskSwitchContext (λ _ k', kernel_ok idle k' ∧ xYieldPendings k' = false ∧
    k_tcbs k' = k_tcbs k ∧ (∀ t, ready k' t = ready k t) ∧
    ∃ c, pxCurrentTCB k' = Some c ∧ best k' c) k.
Proof.
  intros [v Hk] Hs. pose proof Hk as [Hinv Hso Hi].
  eapply wp_mono; [apply (wp_vTaskSwitchContext k v Hinv Hs (kok_some_ready _ _ _ Hk))|].
  intros _ k' (v' & Hsp). pose proof (ss_inv _ _ _ _ Hsp) as Hinv'.
  destruct (ss_frame _ _ _ _ Hsp) as (s & c0 & Heq).
  assert (k_tcbs k' = k_tcbs k) as HT by by rewrite Heq.
  clear Heq s c0. destruct (ss_top _ _ _ _ Hsp) as (c & x & Hc & Hx & Hin & Hbest).
  split_and!.
  - exists v'. split; [done| |].
    + right. right. apply current_is_top_no_better, Hsp.
    + destruct Hi as [q Hq]. exists q. by apply (ss_same _ _ _ _ Hsp).
  - apply Hsp.
  - done.
  - intros t. destruct (k_tcbs k !! t) as [y|] eqn:Hy.
    + apply Bool.eq_iff_eq_true. rewrite (ready_iff k' v' Hinv' t y), (ready_iff k v Hinv t y) by congruence.
      apply (ss_same _ _ _ _ Hsp).
    + unfold ready, prio. by rewrite HT, Hy.
  - exists c. split; [done|]. split; [by apply (ready_iff k' v' Hinv' c x)|].
    intros u p q Hu Hp Hq. unfold prio in Hp, Hq. rewrite Hx in Hq. simplify_eq/=.
    destruct (k_tcbs k' !! u) as [y|] eqn:Hy; [|done]. simplify_eq/=.
    apply (ready_iff k' v' Hinv' u y Hy) in Hu. by eapply Hbest.
Qed.

(** C4: equal priorities share the processor.  If [n] ready tasks are beaten by
    no ready task, [n] consecutive context switches run each of them exactly
    once. *)
Theorem round_robin k :
  kernel_ok idle k → uxSchedulerSuspended k = 0 →
  wp (switches (length (best_tasks k))) (λ cs _, cs ≡ₚ best_tasks k) k.
Proof.
  intros [v Hk] Hs. pose proof (ko_inv _ _ _ Hk) as Hinv.
  pose proof (elem_of_best_tasks k) as Hts. pose proof (best_tasks_nodup k) as Hnd.
  destruct (best_tasks k) as [|t0 ts0]; [by apply wp_ret|]. set (ts := t0 :: ts0) in *.
  assert (best k t0) as [Hr0 Hb0] by (apply Hts; by left).
  assert (∃ x0, k_tcbs k !! t0 = Some x0) as [x0 Hx0].
  { unfold ready, prio in Hr0. destruct (k_tcbs k !! t0); [eauto|done]. }
  set (p := uxPriority x0).
  assert (prio k t0 = Some p) as Hp0 by (unfold prio; by rewrite Hx0).
  pose proof (proj1 (ready_iff k v Hinv t0 x0 Hx0) Hr0) as Hin0. fold p in Hin0.
  destruct Hin0 as (r & Hr & Hi0).
  assert (top_priority v p) as Htop.
  { split.
    - unfold vitems. rewrite Hr. intros He. simpl in He. rewrite He in Hi0. by apply not_elem_of_nil in Hi0.
    - intros q Hq. destruct (vitems v (ReadyL q)) as [|i xs] eqn:Hv; [done|]. exfalso.
      assert (in_list v i (ReadyL q)) as Hi by (apply in_list_vitems; rewrite Hv; by left).
      pose proof (il_kind _ (ki_lists _ _ _ Hinv) _ _ Hi) as Hkd. destruct i as [u|u]; [|done].
      destruct (ready_any k v Hinv u q Hi) as [Hru Hpu]. pose proof (Hb0 u q p Hru Hpu Hp0). lia. }
  pose proof (rep_ring_wf _ _ _ _ (kr_rep _ _ _ (ki_rep _ _ _ Hinv)) Hr) as Hwf.
  assert (∃ xs, ring_order r = StateItem <$> xs) as [xs Hord].
  { exists (itask <$> ring_order r). rewrite <- list_fmap_compose.
    rewrite <- (list_fmap_id (ring_order r)) at 1. apply list_fmap_ext. intros n i Hi.
    assert (in_list v i (ReadyL p)) as Hl.
    { exists r. split; [done|]. rewrite <- (ring_order_perm r Hwf). by eapply list_elem_of_lookup_2. }
    apply (il_kind _ (ki_lists _ _ _ Hinv)) in Hl. by destruct i. }
  assert (xs ≡ₚ ts) as Hperm.
  { apply NoDup_Permutation; [|done|].
    - apply (NoDup_fmap_1 StateItem). rewrite <- Hord, (ring_order_perm r Hwf). apply Hwf.
    - intros t. rewrite Hts.
      assert (t ∈ xs ↔ in_list v (StateItem t) (ReadyL p)) as ->.
      { unfold in_list. split.
        - intros Ht. exists r. split; [done|]. rewrite <- (ring_order_perm r Hwf), Hord.
          by apply list_elem_of_fmap_2.
        - intros (r' & Hr' & Ht). rewrite Hr in Hr'. simplify_eq.
          rewrite <- (ring_order_perm r' Hwf), Hord in Ht.
          by apply list_elem_of_fmap in Ht as (u & [= ->] & ?). }
      split.
      + intros Hin. destruct (ready_any k v Hinv t p Hin) as [Hrt Hpt]. split; [done|].
        intros u q q' Hu Hq Hq'. rewrite Hpt in Hq'. simplify_eq. by eapply Hb0.
      + intros [Hrt Hbt]. unfold ready in Hrt. destruct (prio k t) as [q|] eqn:Hq; [|done].
        apply bool_decide_eq_true in Hrt. apply (state_in_iff k v Hinv) in Hrt.
        pose proof (Hbt t0 p q Hr0 Hp0 eq_refl).
        destruct (ready_any k v Hinv t q Hrt) as [Hrt' _]. pose proof (Hb0 t q p Hrt' Hq Hp0).
        by replace p with q by lia. }
  rewrite <- (Permutation_length Hperm).
  eapply wp_mono; [apply (wp_switches idle _ k v p r xs [] Hk Hs Htop Hr); [by rewrite app_nil_r|done]|].
  intros cs k' (-> & _). done.
Qed.

(** *** Time *)

(** The running task is ready, is not the idle task, and the scheduler is not
    suspended: see [may_block]. *)
Lemma may_block_cur k v : kok idle k v → may_block idle k = true →
  ∃ y, current_ready k v (cur k) y ∧ cur k ≠ idle ∧ uxSchedulerSuspended k = 0.
Proof.
  intros Hk Hm. destruct (may_block_spec idle k v Hk Hm) as (c & y & Hc & Hne & Hs).
  destruct (kok_current idle k v Hk) as (c' & y' & Hc' & Hcur & Hy').
  assert (c' = c) as -> by (destruct Hc; congruence). rewrite Hcur. eauto.
Qed.

(** What a delay promises, for any interrupts that follow. *)
Lemma sleeping_trace k v c y d :
  kok idle k v → uxSchedulerSuspended k = 0 → asleep k v c y d →
  ∀ tr, wp (interrupts tr) (λ _ k2, ready k2 c = bool_decide (d ≤ count_ticks tr)) k.
Proof.
  intros Hk Hs (_ & Hy & Hsl) tr. destruct (k_tcbs k !! c) as [x|] eqn:Hx; [|done].
  injection Hy as Hy. assert (sleeping k v c x d) as Hsl' by (unfold sleeping in *; by rewrite Hy).
  eapply wp_mono; [by apply (wp_interrupts idle tr k v)|]. intros _ k2 (v2 & Hie).
  pose proof (ies_sleep _ _ _ _ _ _ Hie c x d Hx Hsl') as Hsl2.
  erewrite (sleeping_ready k2 v2 c x _ (ko_inv _ _ _ (ies_ok _ _ _ _ _ _ Hie))); [| |exact Hsl2].
  - apply bool_decide_ext. lia.
  - by rewrite (ies_tcbs _ _ _ _ _ _ Hie).
Qed.

(** C5: a delay lasts exactly as long as it should.  After the running task has
    called [vTaskDelay( n )], a switch is pending, and whatever tick and PendSV
    interrupts follow, the task is ready if and only if at least [n] ticks have
    happened (ticks that were pended count), even when the tick counter wraps
    in between. *)
Theorem vTaskDelay_exact k n :
  kernel_ok idle k → may_block idle k = true → event_in k (cur k) = None → 0 < n < MAX32 →
  wp (vTaskDelay n) (λ _ k1, pendsv k1 = true ∧ ∀ tr,
    wp (interrupts tr) (λ _ k2, ready k2 (cur k) = bool_decide (n ≤ xPendedTicks k + count_ticks tr)) k1) k.
Proof.
  intros [v Hk] Hm Hev Hn. destruct (may_block_cur k v Hk Hm) as (y & Hcur & Hne & Hs).
  apply (event_in_none k v (ko_inv _ _ _ Hk)) in Hev.
  eapply wp_mono; [apply (wp_vTaskDelay_exact idle k v (cur k) y n Hk Hcur Hne Hs Hn Hev)|].
  intros _ k1 (v1 & Hk1 & Hp1 & Hs1 & Hsl). split; [done|]. intros tr.
  eapply wp_mono; [by apply (sleeping_trace k1 v1 (cur k) y _ Hk1 Hs1 Hsl tr)|].
  intros _ k2 ->. apply bool_decide_ext. lia.
Qed.

(** C6: [xTaskDelayUntil] is periodic.  Let the last wake-up be at the absolute
    time [w] (of which the caller's variable holds the low 32 bits) and the
    present time be [now], less than 2^32 ticks later: the variable becomes
    [w + inc], the task blocks if and only if that time is still to come, and
    then it is ready again exactly when that time has come; otherwise it stays
    ready. *)
Theorem xTaskDelayUntil_periodic k w now inc :
  kernel_ok idle k → may_block idle k = true → event_in k (cur k) = None → xPendedTicks k = 0 →
  xTickCount k = wrap32 now → 0 ≤ w → w ≤ now → now < w + MAX32 → 0 < inc < MAX32 →
  wp (xTaskDelayUntil (wrap32 w) inc) (λ r k1, r = (now <? w + inc, wrap32 (w + inc)) ∧
    (now < w + inc → ∀ tr, wp (interrupts tr) (λ _ k2,
       ready k2 (cur k) = bool_decide (w + inc ≤ now + count_ticks tr)) k1)) k.
Proof.
  intros [v Hk] Hm Hev Hpe Htick Hw Hwn Hnw Hi. destruct (may_block_cur k v Hk Hm) as (y & Hcur & Hne & Hs).
  apply (event_in_none k v (ko_inv _ _ _ Hk)) in Hev.
  eapply wp_mono; [by apply (wp_xTaskDelayUntil_exact idle k v (cur k) y w now inc)|].
  intros r k1 (-> & Hp1 & Hs1 & v1 & Hk1 & Hsl). split; [done|]. intros Hlt tr.
  eapply wp_mono; [by apply (sleeping_trace k1 v1 (cur k) y _ Hk1 Hs1 (Hsl Hlt) tr)|].
  intros _ k2 ->. apply bool_decide_ext. rewrite Hpe. lia.
Qed.

(** The running task's mark of an aborted delay. *)
Definition delay_aborted : K bool := let* c := current in tcb_get c ucDelayAborted.

(** C7: time-outs, on every branch of [xTaskCheckForTimeOut].  Let the scheduler
    run, let [vTaskSetTimeOutState] record the time, and let any tick and PendSV
    interrupts follow, fewer than 2^32 ticks among them (the tick counter may
    wrap).  If the delay of the running task was aborted, the check answers a
    time-out, clears the mark and leaves both variables as they were; if the
    wait is indefinite ([portMAX_DELAY]), it answers no and leaves them; else it
    answers whether [wait] ticks have passed since, with nothing left to wait
    if so, and otherwise the rest of the wait, the measurement restarted. *)
Theorem xTaskCheckForTimeOut_exact k tr wait :
  kernel_ok idle k → uxSchedulerSuspended k = 0 → u32 (xNumOfOverflows k) →
  count_ticks tr < MAX32 → u32 wait →
  wp (let* t := vTaskSetTimeOutState in
      interrupts tr ;>
      let* aborted := delay_aborted in
      let* r := xTaskCheckForTimeOut t wait in
      let* now := vTaskSetTimeOutState in
      let* mark := delay_aborted in
      retM (t, aborted, r, now, mark)) (λ '(t, aborted, r, now, mark) _, mark = false ∧
    r = if aborted then (true, t, wait)
        else if wait =? portMAX_DELAY then (false, t, wait)
        else if wait <=? count_ticks tr then (true, t, 0)
        else (false, now, wait - count_ticks tr)) k.
Proof.
  intros [v Hk] Hs Hov Htr Hw. pose proof (ko_inv _ _ _ Hk) as Hinv.
  apply wp_bind, wp_gets. apply wp_bind. eapply wp_mono; [by apply (wp_interrupts idle tr k v)|].
  intros _ k1 (v1 & Hie). pose proof (ies_ok _ _ _ _ _ _ Hie) as Hk1.
  destruct (kinv_current _ _ _ (ko_inv _ _ _ Hk1)) as (c & x & Hc & Hx).
  pose proof (count_ticks_nonneg tr).
  pose proof (id_tick _ _ _ _ _ _ (ki_delay _ _ _ Hinv)) as Htick.
  assert (ticks_after (count_ticks tr) k k1) as Hta.
  { rewrite <- (Z.add_0_l (count_ticks tr)). eapply ies_time; [exact Hie|lia|]. by apply ticks_after_0. }
  assert (∀ K y (Q : bool → kernel → Prop), pxCurrentTCB K = Some c → k_tcbs K !! c = Some y →
    Q (ucDelayAborted y) K → wp delay_aborted Q K) as Hmark.
  { intros K y Q Hc' Hy HQ. apply wp_bind. eapply wp_current; [exact Hc'|]. by eapply wp_tcb_get. }
  apply wp_bind. apply (Hmark k1 x); [done..|].
  apply wp_bind. eapply (wp_xTaskCheckForTimeOut k k1 _ wait c x); [done|done|exact Hta|lia|done|done|done| |].
  - intros Hab. apply wp_bind, wp_gets, wp_bind. eapply Hmark; [exact Hc|apply lookup_insert_eq|].
    apply wp_ret. by rewrite Hab.
  - intros Hab. apply wp_bind, wp_gets, wp_bind. eapply Hmark; [exact Hc|exact Hx|]. apply wp_ret. rewrite Hab. split; [done|].
    by destruct (wait =? portMAX_DELAY), (wait <=? count_ticks tr).
Qed.

(** *** Suspending the scheduler *)

(** C8: [xTaskResumeAll] makes up for the time the scheduler was suspended.
    Nested, it only undoes one [vTaskSuspendAll].  Outermost, every task that an
    interrupt had put on the pending list becomes ready, the pending list is
    empty, as many ticks happen as were pended (a task delayed for no more
    than that becomes ready), and it answers whether it requested a switch;
    when it did not, no ready task beats the running one, provided none did
    before. *)
Theorem xTaskResumeAll_catches_up k :
  kernel_ok idle k → 0 < uxSchedulerSuspended k →
  wp xTaskResumeAll (λ b k', kernel_ok idle k' ∧
    uxSchedulerSuspended k' = uxSchedulerSuspended k - 1 ∧ k_tcbs k' = k_tcbs k ∧
    (b = true → pendsv k' = true) ∧
    (1 < uxSchedulerSuspended k → b = false ∧ xTickCount k' = xTickCount k ∧
       ∀ t, state_in k' t = state_in k t ∧ event_in k' t = event_in k t) ∧
    (uxSchedulerSuspended k = 1 →
       xTickCount k' = wrap32 (xTickCount k + xPendedTicks k) ∧ xPendedTicks k' = 0 ∧
       (∀ t, event_in k t = Some PendingReadyL → ready k' t = true ∧ event_in k' t = None) ∧
       (∀ t, event_in k' t ≠ Some PendingReadyL) ∧
       (∀ t, ready k t = true → ready k' t = true))) k.
Proof.
  intros [v Hk] Hs. pose proof (ko_inv _ _ _ Hk) as Hinv.
  destruct (decide (uxSchedulerSuspended k = 1)) as [H1|H1].
  - eapply wp_mono; [by apply (wp_xTaskResumeAll k v)|].
    intros b k' (v' & ts & k1 & v1 & k2 & Hr). pose proof (resume_kok idle _ _ _ _ _ _ _ _ _ Hk Hr) as Hk'.
    pose proof (ko_inv _ _ _ Hk') as Hinv'.
    destruct (resume_tcbs _ _ _ _ _ _ _ _ _ Hr) as [HT Hs'].
    pose proof (rs_ticks _ _ _ _ _ _ _ _ _ Hr) as Htk.
    destruct (rs_state1 _ _ _ _ _ _ _ _ _ Hr) as (s & top & next & y & Hk1 & _).
    pose proof (is_pended _ _ _ (ki_susp _ _ _ Hinv)) as Hpd.
    pose proof (id_tick _ _ _ _ _ _ (ki_delay _ _ _ Hinv)) as Htick.
    pose proof (rs_final _ _ _ _ _ _ _ _ _ Hr) as Hfin.
    split_and!; [by exists v'|lia|done| |lia|].
    + intros ->. by rewrite Hfin.
    + intros _. assert (xTickCount k1 = xTickCount k) as Ht1 by by rewrite Hk1.
      assert (u32 (xTickCount k1)) as Hu1 by by rewrite Ht1.
      pose proof (ticks_count _ _ _ _ _ Htk Hu1) as Htc.
      rewrite Z2Nat.id, Ht1 in Htc by (unfold u32 in Hpd; lia). split_and!.
      * rewrite <- Htc, Hfin. by destruct b.
      * rewrite Hfin. by destruct b.
      * intros t Hp. apply (event_in_iff k v Hinv) in Hp.
        assert (t ∈ ts) as Hin.
        { apply in_list_vitems in Hp. rewrite (rs_pending _ _ _ _ _ _ _ _ _ Hr) in Hp.
          by apply list_elem_of_fmap in Hp as (u & [= ->] & ?). }
        destruct (in_list_tcb (ki_rep _ _ _ Hinv) _ _ Hp) as [x Hx]. simpl in Hx.
        pose proof (rs_woken _ _ _ _ _ _ _ _ _ Hr) as Hw. split.
        -- apply (ready_iff k' v' Hinv' t x); [congruence|].
           eapply ticks_ready; [exact Htk|apply Hr|]. apply Hw. simpl. rewrite decide_True by done.
           split; [done|by exists x].
        -- apply (event_in_none k' v' Hinv'). eapply ticks_event_none; [exact Htk|].
           intros l Hl%Hw. simpl in Hl. rewrite decide_True in Hl by done. by destruct Hl.
      * intros t Hp%(event_in_iff k' v' Hinv')%in_list_vitems.
        rewrite (is_zero _ _ _ (ki_susp _ _ _ Hinv')) in Hp by done. by apply not_elem_of_nil in Hp.
      * intros t Hrt. destruct (ready_prio k t Hrt) as (x & Hx & _).
        apply (ready_iff k v Hinv t x Hx) in Hrt. apply (ready_iff k' v' Hinv' t x); [congruence|].
        eapply resume_ready; [exact Hinv|exact Hr|exact Hx|exact Hrt].
  - eapply wp_mono; [apply (wp_xTaskResumeAll_nested k v Hinv); lia|].
    intros b k' (-> & -> & Hinv').
    split_and!; [|done|done|done| |by intros ?].
    + exists v. by destruct Hk as [_ Hso Hi].
    + intros _. by split_and!.
Qed.

(** *** Suspending and resuming a task *)

Lemma clear_waiting_none st : existsb (Z.eqb taskWAITING_NOTIFICATION) (clear_waiting st) = false.
Proof.
  induction st as [|s st IH]; [done|]. apply orb_false_iff. split; [|exact IH].
  destruct (Z.eqb_spec s taskWAITING_NOTIFICATION); [done|]. apply Z.eqb_neq. congruence.
Qed.

(** C9: [vTaskSuspend] takes a task (not the idle task) from wherever it is,
    event lists included, and keeps it out of the ready lists through any tick
    and PendSV interrupts; [vTaskResume], called by another task, then makes it
    ready. *)
Theorem vTaskSuspend_until_resumed k t :
  kernel_ok idle k → is_Some (k_tcbs k !! t) → t ≠ idle → xSchedulerRunning k = true →
  uxSchedulerSuspended k = 0 →
  wp (vTaskSuspend (Some t)) (λ _ k1, (pxCurrentTCB k = Some t → pendsv k1 = true) ∧
    ∀ tr, wp (interrupts tr) (λ _ k2,
      state_in k2 t = Some SuspendedL ∧ event_in k2 t = None ∧ ready k2 t = false ∧
      (pxCurrentTCB k2 ≠ Some t → wp (vTaskResume (Some t)) (λ _ k3, ready k3 t = true) k2)) k1) k.
Proof.
  intros [v Hk] [x Hx] Hne Hrun Hs. pose proof (ko_inv _ _ _ Hk) as Hinv.
  eapply wp_mono; [apply (wp_vTaskSuspend idle k v (Some t) t x Hk eq_refl Hx Hne Hrun (λ _, Hs))|].
  intros [] k1 (Hk1 & HT1 & Hc1 & Hp1 & Hs1 & Hin1 & Hno1). split; [done|]. intros tr.
  rewrite Hs in Hs1. eapply wp_mono; [by apply (wp_interrupts idle tr k1 _ Hk1)|]. intros _ k2 (v2 & Hie).
  destruct (ies_suspended _ _ _ _ _ _ Hie t) as [Hin2 Hno2]; [done..|].
  pose proof (ies_ok _ _ _ _ _ _ Hie) as Hk2. pose proof (ko_inv _ _ _ Hk2) as Hinv2.
  set (x' := x <| ucNotifyState ::= clear_waiting |>) in *.
  assert (k_tcbs k2 !! t = Some x') as Hx2.
  { rewrite (ies_tcbs _ _ _ _ _ _ Hie), HT1. apply lookup_insert_eq. }
  split_and!.
  - by apply (state_in_iff k2 v2 Hinv2).
  - by apply (event_in_none k2 v2 Hinv2).
  - apply not_true_iff_false. rewrite (ready_iff k2 v2 Hinv2 t x' Hx2). intros Hr.
    by pose proof (in_list_unique (ki_rep _ _ _ Hinv2) _ _ _ Hin2 Hr).
  - intros Hc2. eapply wp_mono; [apply (wp_vTaskResume idle k2 v2 t x' Hk2 Hx2)|].
    intros _ k3 (v3 & Hk3 & [(_ & _ & ->)|([?|Hns] & _)]); [|done|].
    + pose proof (ko_inv _ _ _ Hk3) as Hinv3.
      assert (in_list (vready t (uxPriority x') v2) (StateItem t) (ReadyL (uxPriority x'))) as Hin3.
      { apply vend_in, vrem_list, list_ready; [apply Hinv2|].
        pose proof (ki_prio _ _ _ Hinv2 _ _ Hx2). simpl in *. lia. }
      by destruct (ready_any k3 _ Hinv3 _ _ Hin3).
    + destruct Hns. split_and!; [done|done|apply clear_waiting_none].
Qed.

(** *** Priorities *)

Lemma moved_ready k k' v v' t x x' u :
  kinv k v → kinv k' v' → k_tcbs k !! t = Some x → k_tcbs k' = <[t := x']> (k_tcbs k) →
  moved t x x' v v' → ready k' u = ready k u.
Proof.
  intros Hinv Hinv' Hx HT Hm. destruct (k_tcbs k !! u) as [y|] eqn:Hy.
  - apply Bool.eq_iff_eq_true. destruct (decide (u = t)) as [->|Hne].
    + simplify_eq. rewrite (ready_iff k v Hinv t x Hx).
      rewrite (ready_iff k' v' Hinv' t x') by (by rewrite HT, lookup_insert_eq).
      rewrite (Hm (StateItem t)). case_decide as Hd; [by destruct Hd|].
      split; [|intros ?; by destruct Hd]. intros Hin.
      pose proof (ir_prio _ _ _ _ (ki_ready _ _ _ Hinv) _ _ _ Hin Hx) as Hp. by rewrite Hp.
    + rewrite (ready_iff k v Hinv u y Hy), (ready_iff k' v' Hinv' u y) by (by rewrite HT, lookup_insert_ne).
      rewrite (Hm (StateItem u)). by rewrite decide_False by naive_solver.
  - unfold ready, prio. rewrite Hy. assert (u ≠ t) by congruence. by rewrite HT, lookup_insert_ne, Hy.
Qed.

(** C10: [vTaskPrioritySet] on an existing task sets its base priority; its
    priority becomes the new one unless it runs at a higher inherited priority,
    which it keeps; no task changes between ready and not ready, no other
    task's priority changes, and a switch is requested whenever one is due. *)
Theorem vTaskPrioritySet_effect k t x new :
  kernel_ok idle k → k_tcbs k !! t = Some x → 0 ≤ new < configMAX_PRIORITIES →
  wp (vTaskPrioritySet (Some t) new) (λ _ k', kernel_ok idle k' ∧
    k_tcbs k' = <[t := x <| uxBasePriority := new |>
      <| uxPriority := if uxPriority x =? uxBasePriority x then new else Z.max (uxPriority x) new |>]> (k_tcbs k) ∧
    ∀ u, ready k' u = ready k u) k.
Proof.
  intros [v Hk] Hx Hnew. pose proof (ko_inv _ _ _ Hk) as Hinv.
  pose proof (ki_prio _ _ _ Hinv _ _ Hx) as Hpx. simpl in Hpx.
  set (x' := x <| uxBasePriority := new |> <| uxPriority := _ |>).
  assert (x' = prioritySet_tcb x new) as Hx'.
  { unfold x', prioritySet_tcb, set_field. simpl. f_equal.
    rewrite (Z.eqb_sym (uxBasePriority x)).
    destruct (Z.eqb_spec (uxPriority x) (uxBasePriority x)); simpl; [done|].
    destruct (Z.ltb_spec (uxPriority x) new); lia. }
  eapply wp_mono; [by apply (wp_vTaskPrioritySet idle k v (Some t) t x new)|].
  intros _ k' (v' & Hk' & _ & Hcase). case_decide as Hb.
  - destruct Hcase as [-> ->]. assert (x' = x) as ->.
    { rewrite Hx'. unfold prioritySet_tcb, set_field. simpl. destruct x; simpl in *. subst. f_equal.
      destruct (Z.eqb_spec new uxPriority); simpl; [done|]. destruct (Z.ltb_spec uxPriority new); lia. }
    rewrite insert_id by done. split_and!; [by exists v|done|done].
  - destruct Hcase as [HT Hm]. rewrite Hx'. split_and!; [by exists v'|done|]. intros u.
    eapply (moved_ready k k' v v' t x _ u Hinv (ko_inv _ _ _ Hk') Hx HT Hm).
Qed.

(** C11: priority inheritance.  When the running task is about to wait for a
    mutex that the task [h] holds, [xTaskPriorityInherit] raises [h] to the
    priority of the running task if it is lower, leaves it otherwise, keeps its
    base priority and everybody's readiness, and answers whether [h] now runs
    at a priority it has from, or shares with, a waiter above its base. *)
Theorem xTaskPriorityInherit_effect k h x c y :
  kernel_ok idle k → k_tcbs k !! h = Some x → pxCurrentTCB k = Some c → k_tcbs k !! c = Some y →
  wp (xTaskPriorityInherit (Some h)) (λ b k', kernel_ok idle k' ∧
    pxCurrentTCB k' = Some c ∧
    k_tcbs k' = <[h := x <| uxPriority := Z.max (uxPriority x) (uxPriority y) |>]> (k_tcbs k) ∧
    (∀ u, ready k' u = ready k u) ∧ b = (uxBasePriority x <? uxPriority y)) k.
Proof.
  intros [v Hk] Hx Hc Hy. pose proof (ko_inv _ _ _ Hk) as Hinv.
  pose proof (ki_prio _ _ _ Hinv _ _ Hx) as Hpx. simpl in Hpx.
  eapply wp_mono; [by apply (wp_xTaskPriorityInherit idle k v h x c y)|].
  intros b k' (v' & Hk' & Hc' & _ & Hcase). case_decide as Hlt.
  - destruct Hcase as (-> & HT & Hm). rewrite Z.max_r by lia. split_and!.
    + by exists v'.
    + congruence.
    + exact HT.
    + intros u. eapply (moved_ready k k' v v' h x _ u Hinv (ko_inv _ _ _ Hk') Hx HT Hm).
    + symmetry. apply Z.ltb_lt. lia.
  - destruct Hcase as (-> & -> & ->). rewrite Z.max_l by lia.
    assert (x <| uxPriority := uxPriority x |> = x) as -> by by destruct x.
    rewrite insert_id by done. split_and!; [by exists v|done..].
Qed.

(** giving mutexes back.  When the running task, holding [n] mutexes, gives
    one back ([xTaskPriorityDisinherit]), it has [n - 1]; with the last one it
    returns to its base priority, before that it keeps what it has inherited;
    it stays ready, and the answer asks the caller to yield exactly when the
    priority changed. *)
Theorem xTaskPriorityDisinherit_effect k c x :
  kernel_ok idle k → pxCurrentTCB k = Some c → k_tcbs k !! c = Some x → ready k c = true →
  0 < uxMutexesHeld x < MAX32 →
  wp (xTaskPriorityDisinherit (Some c)) (λ b k',
    k_tcbs k' = <[c := x <| uxMutexesHeld := uxMutexesHeld x - 1 |>
      <| uxPriority := if uxMutexesHeld x =? 1 then uxBasePriority x else uxPriority x |>]> (k_tcbs k) ∧
    (∀ u, ready k' u = ready k u) ∧
    b = negb (bool_decide (prio k' c = prio k c)) ∧
    (b = false → kernel_ok idle k') ∧
    kernel_ok idle (k' <| pendsv := true |>)) k.
Proof.
  intros [v Hk] Hc Hx Hr Hheld. pose proof (ko_inv _ _ _ Hk) as Hinv.
  apply (ready_iff k v Hinv c x Hx) in Hr.
  eapply wp_mono; [by apply (wp_xTaskPriorityDisinherit idle k v c x)|].
  intros b k' (v' & Hinv' & Hi' & Hs' & Hb & _ & _ & HT & Hm).
  assert (disinherit_tcb x = x <| uxMutexesHeld := uxMutexesHeld x - 1 |>
      <| uxPriority := if uxMutexesHeld x =? 1 then uxBasePriority x else uxPriority x |>) as Hd.
  { unfold disinherit_tcb. rewrite wrap32_small by (unfold u32; lia).
    destruct (Z.eqb_spec (uxMutexesHeld x) 1), (Z.eqb_spec (uxMutexesHeld x - 1) 0); (done || lia). }
  rewrite <- Hd. split_and!.
  - done.
  - intros u. eapply (moved_ready k k' v v' c x _ u Hinv Hinv' Hx HT Hm).
  - rewrite Hb. unfold prio. rewrite HT, lookup_insert_eq, Hx, Hd. simpl.
    destruct (Z.eqb_spec (uxMutexesHeld x) 1), (Z.eqb_spec (uxPriority x) (uxBasePriority x)); simpl;
      case_bool_decide; (done || congruence).
  - intros Hbf. exists v'. by split; [|apply Hs'|].
  - exists v'. split; [by apply kinv_pendsv|by left|done].
Qed.

(** C12: when a waiter for the only mutex of [h] gives up,
    [vTaskPriorityDisinheritAfterTimeout] brings [h] down to the higher of its
    base priority and that of the best remaining waiter, and never moves a
    holder of several mutexes. *)
Theorem vTaskPriorityDisinheritAfterTimeout_effect k h x hw :
  kernel_ok idle k → k_tcbs k !! h = Some x → 0 < uxMutexesHeld x → pxCurrentTCB k ≠ Some h →
  0 ≤ hw ≤ uxPriority x →
  wp (vTaskPriorityDisinheritAfterTimeout (Some h) hw) (λ _ k', kernel_ok idle k' ∧
    k_tcbs k' = <[h := if uxMutexesHeld x =? 1
                       then x <| uxPriority := Z.max (uxBasePriority x) hw |> else x]> (k_tcbs k) ∧
    ∀ u, ready k' u = ready k u) k.
Proof.
  intros [v Hk] Hx Hheld Hc Hhw. pose proof (ko_inv _ _ _ Hk) as Hinv.
  eapply wp_mono; [by apply (wp_vTaskPriorityDisinheritAfterTimeout idle k v h x hw)|].
  intros _ k' (v' & Hk' & _ & _ & Hcase). simpl in Hcase.
  case_decide as Hd.
  - destruct Hd as [-> _], Hcase as [HT Hm]. simpl. split_and!; [by exists v'|done|]. intros u.
    eapply (moved_ready k k' v v' h x _ u Hinv (ko_inv _ _ _ Hk') Hx HT Hm).
  - destruct Hcase as [-> ->]. split_and!; [by exists v| |done]. symmetry. apply insert_id.
    rewrite Hx. f_equal. destruct (Z.eqb_spec (uxMutexesHeld x) 1) as [H1|]; [|done].
    assert (uxPriority x = Z.max (uxBasePriority x) hw) as <-.
    { destruct (decide (uxPriority x = Z.max (uxBasePriority x) hw)); [done|]. by destruct Hd. }
    by destruct x.
Qed.


(** *** Event lists *)

(** The invariant, and [l] is the event list of an object that exists. *)
Definition kernel_ok_with (k : kernel) (l : lid) : Prop := ∃ v, kok idle k v ∧ event_list v l.

(** C14: [xTaskRemoveFromEventList] takes the first waiter and only it off the
    list.  With the scheduler running the task is ready; with the scheduler
    suspended it goes to the pending list and stays blocked until
    [xTaskResumeAll].  The answer says whether it beats the running task. *)
Theorem xTaskRemoveFromEventList_first k l t ts :
  kernel_ok_with k l → waiters k l = t :: ts →
  wp (xTaskRemoveFromEventList l) (λ b k', kernel_ok_with k' l ∧ waiters k' l = ts ∧
    (b = true ↔ prio_above_current k t) ∧ (b = true → xYieldPendings k' = true) ∧
    if uxSchedulerSuspended k =? 0 then ready k' t = true ∧ event_in k' t = None
    else state_in k' t = state_in k t ∧ event_in k' t = Some PendingReadyL) k.
Proof.
  intros (v & Hk & Hl) Hw. pose proof (ko_inv _ _ _ Hk) as Hinv. pose proof Hl as (Hkd & Hnp & HL).
  pose proof (waiters_view k v l Hinv Hl) as Hv. rewrite Hw in Hv. simpl in Hv.
  assert (in_list v (EventItem t) l) as Hin by (apply in_list_vitems; rewrite <- Hv; by left).
  destruct (in_list_tcb (ki_rep _ _ _ Hinv) _ _ Hin) as [x Hx]. simpl in Hx.
  eapply wp_mono; [by apply (wp_xTaskRemoveFromEventList idle k v t x l (EventItem <$> ts))|].
  intros b k' (Hk' & (s & top & Heq) & Hb). set (v' := removed_view _ t _ v) in *.
  pose proof (ko_inv _ _ _ Hk') as Hinv'.
  assert (k_tcbs k' = k_tcbs k) as HT by (rewrite Heq; by destruct b).
  destruct (removed_waiters k v l (uxSchedulerSuspended k) t ts (uxPriority x) Hinv Hl) as [Hv' Hl']; [done|].
  fold v' in Hv', Hl'.
  split_and!.
  - by exists v'.
  - by apply (waiters_eq k' v' l).
  - done.
  - intros ->. by rewrite Heq.
  - destruct (uxSchedulerSuspended k =? 0) eqn:Hz.
    + assert (in_list v' (StateItem t) (ReadyL (uxPriority x))) as Hr.
      { unfold v', removed_view. rewrite Hz. apply vend_in, vrem_list, vrem_list, list_ready; [apply Hinv|].
        pose proof (ki_prio _ _ _ Hinv _ _ Hx). simpl in *. lia. }
      split; [by destruct (ready_any k' v' Hinv' _ _ Hr)|]. apply (event_in_none k' v' Hinv').
      intros l' Hl1. pose proof (il_kind _ (ki_lists _ _ _ Hinv') _ _ Hl1) as Hk1.
      unfold v', removed_view, vready in Hl1. rewrite Hz in Hl1.
      apply in_vend_inv in Hl1 as [->|Hl1]; [done|].
      by apply in_vrem_inv, (in_list_vrem (ki_rep _ _ _ Hinv)) in Hl1 as [_ ?].
    + assert (v' = vend PendingReadyL (EventItem t) (vrem (EventItem t) v)) as Hv1.
      { unfold v', removed_view. by rewrite Hz. }
      split.
      * destruct (ki_state _ _ _ Hinv t (ex_intro _ x Hx)) as [l' Hl1].
        rewrite (proj2 (state_in_iff k v Hinv t l') Hl1). apply (state_in_iff k' v' Hinv').
        pose proof (il_kind _ (ki_lists _ _ _ Hinv) _ _ Hl1) as Hk1. simpl in Hk1.
        rewrite Hv1, in_list_vitems, vitems_vend_ne by (intros <-; done).
        rewrite <- in_list_vitems, (in_list_vrem (ki_rep _ _ _ Hinv)). done.
      * apply (event_in_iff k' v' Hinv'). rewrite Hv1. apply vend_in, vrem_list, list_fixed; [apply Hinv|set_solver].
Qed.

Definition priority (k : kernel) (t : Z) : Z := default 0 (prio k t).
(** The event item of [t] holds what its priority says it should. *)
Definition priority_value (k : kernel) (t : Z) : Prop := event_value k t = configMAX_PRIORITIES - priority k t.
(** The waiters of [l] are in the order of their priorities, the highest first. *)
Definition priority_order (k : kernel) (l : lid) : Prop :=
  (∀ t, t ∈ waiters k l → priority_value k t) ∧ sorted_by (λ t, - priority k t) (waiters k l).

(** C15: [vTaskPlaceOnEventList] puts the running task before the first waiter
    whose event item has a greater value than its own, whatever the order of the
    others; nobody else moves, and the task is no longer ready.  On a list in
    the order of the priorities, every event item holding the value of its
    task's priority, this is service by priority: the task is behind every
    waiter of its priority or a higher one (first come, first served) and before
    every lower one, and the list is in that order again. *)
Theorem vTaskPlaceOnEventList_by_priority k l n :
  kernel_ok_with k l → may_block idle k = true → event_in k (cur k) = None → 0 < n < MAX32 →
  wp (vTaskPlaceOnEventList l n) (λ _ k',
    kernel_ok_with k' l ∧ event_in k' (cur k) = Some l ∧ ready k' (cur k) = false ∧
    (∃ ts1 ts2, waiters k l = ts1 ++ ts2 ∧ waiters k' l = ts1 ++ cur k :: ts2 ∧
       (∀ t, t ∈ ts1 → event_value k t ≤ event_value k (cur k)) ∧
       (∀ t, head ts2 = Some t → event_value k (cur k) < event_value k t)) ∧
    (priority_order k l → priority_value k (cur k) → priority_order k' l ∧
       waiters k' l = filter (λ t, priority k (cur k) ≤ priority k t) (waiters k l) ++
                      cur k :: filter (λ t, priority k t < priority k (cur k)) (waiters k l))) k.
Proof.
  intros (v & Hk & Hl) Hm Hev Hn. pose proof (ko_inv _ _ _ Hk) as Hinv. pose proof Hl as (Hkd & Hnp & HL).
  destruct (may_block_cur k v Hk Hm) as (y & Hcur & Hne & Hs). set (c := cur k) in *.
  pose proof Hcur as (Hc & Hy & Hinr).
  pose proof (proj1 (event_in_none k v Hinv c) Hev) as Hno.
  eapply wp_mono; [by apply (wp_vTaskPlaceOnEventList idle k v c y l n)|].
  intros _ k' (s & Hk' & Hinv1 & Hfr). pose proof (ko_inv _ _ _ Hk') as Hinv'.
  destruct (placed_waiters k v k' c y l n s Hinv Hl Hy Hinv' Hinv1 Hfr) as (Hl' & Hins & Hsame).
  split_and!.
  - eexists. split; [exact Hk'|exact Hl'].
  - apply (event_in_iff k' _ Hinv'), in_list_vitems. rewrite <- (waiters_view k' _ l Hinv' Hl'), Hins.
    apply list_elem_of_fmap. exists c. split; [done|]. rewrite ins_sorted_perm. by left.
  - apply not_true_iff_false. intros Hr. destruct Hfr as (s' & top & next & Heq).
    assert (k_tcbs k' !! c = Some (y <| ucDelayAborted := false |>)) as Hy'.
    { rewrite Heq. simpl. apply lookup_insert_eq. }
    apply (ready_iff k' _ Hinv' c _ Hy') in Hr.
    by apply (blocked_ready _ _ c n true c _ Hinv1) in Hr as [_ ?].
  - rewrite Hins. destruct (ins_sorted_split (event_value k) (event_value k c) c (waiters k l)) as (l1 & l2 & ? & ? & ? & ?).
    by exists l1, l2.
  - intros [Hvs Hso] Hvc. assert (∀ t, t ∈ c :: waiters k l → priority_value k t) as Hval by (by intros t [->|Ht]%elem_of_cons; [|apply Hvs]).
    assert (sorted_by (event_value k) (waiters k l)) as Hso'.
    { intros n1 n2 t u H1 H2 Hle. pose proof (Hso n1 n2 t u H1 H2 Hle) as Hpp. simpl in Hpp.
      rewrite (Hvs t), (Hvs u) by (by eapply list_elem_of_lookup_2). lia. }
    assert (∀ t, t ∈ c :: waiters k l → event_value k' t = event_value k t ∧ priority k' t = priority k t) as Hsm.
    { intros t Ht. destruct (Hsame t) as [He Hp]; [apply elem_of_cons in Ht as [->|Ht]; [by rewrite Hy|by eapply waiter_tcb]|].
      split; [done|]. unfold priority, prio. by rewrite Hp. }
    assert (∀ t, t ∈ waiters k' l → t ∈ c :: waiters k l) as Hin by (intros t; by rewrite Hins, ins_sorted_perm).
    split; [split|].
    + intros t Ht%Hin. unfold priority_value. destruct (Hsm t Ht) as [-> ->]. by apply Hval.
    + pose proof (ins_sorted_sorted (event_value k) c _ Hso') as Hs2. rewrite <- Hins in Hs2.
      intros n1 n2 t u H1 H2 Hle. pose proof (Hs2 n1 n2 t u H1 H2 Hle) as Hpp.
      assert (t ∈ c :: waiters k l) as Ht by (apply Hin; by eapply list_elem_of_lookup_2).
      assert (u ∈ c :: waiters k l) as Hu by (apply Hin; by eapply list_elem_of_lookup_2).
      destruct (Hsm t Ht) as [_ ->], (Hsm u Hu) as [_ ->]. rewrite (Hval t Ht), (Hval u Hu) in Hpp. lia.
    + rewrite Hins, ins_sorted_filter by exact Hso'.
      f_equal; [|f_equal]; apply filter_iff_in; intros t Ht; rewrite (Hvs t Ht), Hvc; lia.
Qed.
End props.

(** ** Witnesses *)

Lemma scheduler_safe_witness :
  wp (createTasks ex_tasks ;> startKernel) (λ _ k1, ∀ k, rtc (kstep 1) k1 k →
    (∀ a, enabled 1 k a = true → ∃ k', run_action a k = ROk (tt, k')) ∧
    (settled k = true → ∀ t q, ready k t = true → prio k t = Some q →
       ∃ c r, pxCurrentTCB k = Some c ∧ prio k c = Some r ∧ q ≤ r)) reset_kernel.
Proof.
  apply (scheduler_safe 1 reset_kernel {[ WaitSendL 7 := empty_ring; WaitRecvL 7 := empty_ring ]} ex_tasks 101 0).
  - exact reset_rings.
  - by apply (bool_decide_unpack _); vm_compute.
  - by left.
  - intros t s q Hin. unfold configMAX_PRIORITIES, ex_tasks in *.
    repeat (apply elem_of_cons in Hin as [[= -> -> ->]|Hin]; [lia|]). by apply not_elem_of_nil in Hin.
  - done.
Defined.

(** Task 4 wakes up at the next tick. *)
Definition ex_due : kernel := after [ADelay 1; APendSV].
Lemma ex_due_ok : kernel_ok 1 ex_due.
Proof. apply kernel_check_ok. by vm_compute. Qed.

Lemma xTaskIncrementTick_exact_witness :
  wp xTaskIncrementTick (λ b k', xTickCount k' = 1 ∧ ready k' 4 = true) ex_due.
Proof.
  eapply wp_mono; [exact (xTaskIncrementTick_exact 1 ex_due ex_due_ok eq_refl)|].
  intros b k' (_ & -> & _ & Ht). split; [by vm_compute|].
  specialize (Ht 4 ltac:(vm_compute; eauto)).
  replace (bool_decide _ && _) with true in Ht by (by vm_compute). by destruct Ht.
Defined.

Lemma vTaskSwitchContext_highest_witness :
  wp vTaskSwitchContext (λ _ k', ∃ c, pxCurrentTCB k' = Some c ∧ best k' c) ex_due.
Proof.
  eapply wp_mono; [exact (vTaskSwitchContext_highest 1 ex_due ex_due_ok eq_refl)|].
  by intros [] k' (_ & _ & _ & _ & Hb).
Defined.

Lemma round_robin_witness : wp (switches 2) (λ cs _, cs ≡ₚ [3; 2]) ex_due.
Proof.
  assert (best_tasks ex_due = [3; 2]) as Hb by by vm_compute.
  pose proof (round_robin 1 ex_due ex_due_ok eq_refl) as Hw. rewrite Hb in Hw. exact Hw.
Defined.

Lemma ex_boot_kernel_ok : kernel_ok 1 ex_boot.
Proof. apply kernel_check_ok, ex_boot_ok. Qed.

(** Task 4 runs, and sleeps for 10 ticks. *)
Lemma vTaskDelay_exact_witness :
  wp (vTaskDelay 10) (λ _ k1, pendsv k1 = true ∧ ∀ tr,
    wp (interrupts tr) (λ _ k2, ready k2 4 = bool_decide (10 ≤ count_ticks tr)) k1) ex_boot.
Proof.
  assert (cur ex_boot = 4) as Hc by by_eval. assert (xPendedTicks ex_boot = 0) as Hp by by_eval.
  pose proof (vTaskDelay_exact 1 ex_boot 10 ex_boot_kernel_ok ltac:(by_eval) ltac:(by_eval) ltac:(by_eval)) as Hw.
  rewrite Hc, Hp in Hw. exact Hw.
Defined.

(** The last wake-up of task 4 was 3 ticks before the counter wrapped to 0. *)
Lemma xTaskDelayUntil_periodic_witness :
  wp (xTaskDelayUntil 4294967293 5) (λ r k1, r = (true, 2) ∧
    (MAX32 < MAX32 - 3 + 5 → ∀ tr, wp (interrupts tr) (λ _ k2,
       ready k2 4 = bool_decide (MAX32 - 3 + 5 ≤ MAX32 + count_ticks tr)) k1)) ex_boot.
Proof.
  assert (cur ex_boot = 4) as Hc by by_eval.
  pose proof (xTaskDelayUntil_periodic 1 ex_boot (MAX32 - 3) MAX32 5 ex_boot_kernel_ok ltac:(by_eval)
    ltac:(by_eval) ltac:(by_eval) ltac:(by_eval) ltac:(by_eval) ltac:(by_eval)
    ltac:(by_eval) ltac:(by_eval)) as Hw.
  rewrite Hc in Hw. exact Hw.
Defined.

Lemma xTaskCheckForTimeOut_exact_witness :
  wp (let* t := vTaskSetTimeOutState in
      interrupts [true; false; true] ;>
      let* aborted := delay_aborted in
      let* r := xTaskCheckForTimeOut t 3 in
      let* now := vTaskSetTimeOutState in
      let* mark := delay_aborted in
      retM (t, aborted, r, now, mark)) (λ '(t, aborted, r, now, mark) _, mark = false ∧
    r = if aborted then (true, t, 3) else (false, now, 1)) ex_boot.
Proof.
  apply (xTaskCheckForTimeOut_exact 1 ex_boot [true; false; true] 3 ex_boot_kernel_ok);
    [by_eval|apply (bool_decide_unpack _); by_eval..].
Defined.

(** Task 4 sleeps, task 2 has suspended the scheduler, and two ticks have been
    pended. *)
Definition ex_pended : kernel := after [ADelay 2; APendSV; ASuspendAll; ATick; ATick].
Lemma ex_pended_ok : kernel_ok 1 ex_pended.
Proof. apply kernel_check_ok. by_eval. Qed.

Lemma xTaskResumeAll_catches_up_witness :
  wp xTaskResumeAll (λ _ k', xTickCount k' = 2 ∧ xPendedTicks k' = 0) ex_pended.
Proof.
  eapply wp_mono; [apply (xTaskResumeAll_catches_up 1 ex_pended ex_pended_ok); by_eval|].
  intros b k' (_ & _ & _ & _ & _ & H1). destruct (H1 ltac:(by_eval)) as (-> & -> & _). split; by_eval.
Defined.

Lemma vTaskSuspend_until_resumed_witness :
  wp (vTaskSuspend (Some 4)) (λ _ k1, pendsv k1 = true ∧
    ∀ tr, wp (interrupts tr) (λ _ k2, state_in k2 4 = Some SuspendedL ∧ ready k2 4 = false) k1) ex_boot.
Proof.
  eapply wp_mono; [apply (vTaskSuspend_until_resumed 1 ex_boot 4 ex_boot_kernel_ok); by_eval|].
  intros [] k1 [Hp Hr]. split; [by apply Hp; vm_compute|]. intros tr.
  eapply wp_mono; [exact (Hr tr)|]. by intros [] k2 (-> & _ & -> & _).
Defined.

(** The control block of a task of a state. *)
Definition ex_tcb (k : kernel) (t : Z) : TCB_t := default (zeroTCB 0 0) (k_tcbs k !! t).

Lemma vTaskPrioritySet_effect_witness :
  wp (vTaskPrioritySet (Some 2) 6) (λ _ k', prio k' 2 = Some 6 ∧ ready k' 2 = true) ex_boot.
Proof.
  eapply wp_mono; [apply (vTaskPrioritySet_effect 1 ex_boot 2 (ex_tcb ex_boot 2) 6 ex_boot_kernel_ok); by_eval|].
  intros [] k' (_ & HT & Hr). rewrite Hr. unfold prio. rewrite HT. split; by_eval.
Defined.

(** Task 4 waits for a mutex that task 2 holds. *)
Lemma xTaskPriorityInherit_effect_witness :
  wp (xTaskPriorityInherit (Some 2)) (λ b k', b = true ∧ prio k' 2 = Some 5) ex_boot.
Proof.
  eapply wp_mono; [apply (xTaskPriorityInherit_effect 1 ex_boot 2 (ex_tcb ex_boot 2) 4 (ex_tcb ex_boot 4)
    ex_boot_kernel_ok); by_eval|].
  intros b k' (_ & _ & HT & _ & ->). unfold prio. rewrite HT. split; by_eval.
Defined.

(** Task 2 has taken a mutex, task 4 has waited for it, and it is given back. *)
Definition ex_inherited : kernel :=
  after [ASuspend 4; APendSV; AMutexTaken; AResumeFromISR 4; APendSV; AInherit 2; ADelay 5; APendSV].
Lemma ex_inherited_ok : kernel_ok 1 ex_inherited.
Proof. apply kernel_check_ok. by_eval. Qed.
Lemma xTaskPriorityDisinherit_effect_witness :
  wp (xTaskPriorityDisinherit (Some 2)) (λ b k', b = true ∧ prio k' 2 = Some 3) ex_inherited.
Proof.
  eapply wp_mono; [apply (xTaskPriorityDisinherit_effect 1 ex_inherited 2 (ex_tcb ex_inherited 2) ex_inherited_ok); by_eval|].
  intros b k' (HT & _ & -> & _). unfold prio. rewrite HT. split; by_eval.
Defined.

(** The wait of task 4 for the mutex of task 2 times out. *)
Definition ex_waiter : kernel :=
  after [ASuspend 4; APendSV; AMutexTaken; AResumeFromISR 4; APendSV; AInherit 2].
Lemma ex_waiter_ok : kernel_ok 1 ex_waiter.
Proof. apply kernel_check_ok. by_eval. Qed.
Lemma vTaskPriorityDisinheritAfterTimeout_effect_witness :
  wp (vTaskPriorityDisinheritAfterTimeout (Some 2) 0) (λ _ k', prio k' 2 = Some 3) ex_waiter.
Proof.
  eapply wp_mono; [apply (vTaskPriorityDisinheritAfterTimeout_effect 1 ex_waiter 2 (ex_tcb ex_waiter 2) 0 ex_waiter_ok); by_eval|].
  intros [] k' (_ & HT & _). unfold prio. rewrite HT. by_eval.
Defined.


(** Task 4 waits for an item of queue 7, then task 3 does. *)
Definition ex_waiting : kernel :=
  match (vTaskPlaceOnEventList (WaitRecvL 7) 50 ;> portYIELD_WITHIN_API ;> xPortPendSVHandler) ex_boot with
  | ROk (_, k) => k
  | _ => zero_kernel
  end.
Lemma ex_waiting_ok : kernel_ok_with 1 ex_waiting (WaitRecvL 7).
Proof.
  exists (view_of ex_waiting). split; [apply kernel_check_sound; by_eval|]. split_and!; [by_eval|by_eval|by_eval].
Qed.
Lemma xTaskRemoveFromEventList_first_witness :
  wp (xTaskRemoveFromEventList (WaitRecvL 7)) (λ b k', b = true ∧ ready k' 4 = true ∧ waiters k' (WaitRecvL 7) = []) ex_waiting.
Proof.
  eapply wp_mono; [apply (xTaskRemoveFromEventList_first 1 ex_waiting (WaitRecvL 7) 4 [] ex_waiting_ok); by_eval|].
  intros b k' (_ & Hw & Hb & _ & Hr). replace (uxSchedulerSuspended ex_waiting =? 0) with true in Hr by (by_eval). destruct Hr as [Hr _]. split_and!; [|done|done].
  apply Hb. eexists _, _, _. split_and!; [by_eval..|by_eval].
Defined.
(** Task 2, of a lower priority than task 4 and of the same as task 3, comes third. *)
Definition ex_waiting_2 : kernel :=
  match (vTaskPlaceOnEventList (WaitRecvL 7) 20 ;> portYIELD_WITHIN_API ;> xPortPendSVHandler) ex_waiting with
  | ROk (_, k) => k
  | _ => zero_kernel
  end.
Lemma ex_waiting_2_ok : kernel_ok_with 1 ex_waiting_2 (WaitRecvL 7).
Proof.
  exists (view_of ex_waiting_2). split; [apply kernel_check_sound; by_eval|]. split_and!; [by_eval|by_eval|by_eval].
Qed.
Lemma ex_waiting_2_waiters : waiters ex_waiting_2 (WaitRecvL 7) = [4; cur ex_waiting].
Proof. by_eval. Qed.
Lemma two_in_order k l t u : waiters k l = [t; u] → priority_value k t → priority_value k u →
  (priority k u <=? priority k t) = true → priority_order k l.
Proof.
  intros Hw Ht Hu Hle%Z.leb_le. split; rewrite Hw.
  - by intros w [->|[->|[]%not_elem_of_nil]%elem_of_cons]%elem_of_cons.
  - apply sorted_by_cons. split; [|apply sorted_by_cons; split; [|apply sorted_by_nil]].
    + intros j [->|[]%not_elem_of_nil]%elem_of_cons. lia.
    + by intros j ?%not_elem_of_nil.
Qed.
Lemma ex_waiting_2_order : priority_order ex_waiting_2 (WaitRecvL 7).
Proof. apply (two_in_order _ _ 4 (cur ex_waiting) ex_waiting_2_waiters); by_eval. Qed.
Lemma ex_waiting_2_own : priority_value ex_waiting_2 (cur ex_waiting_2).
Proof. by_eval. Qed.
Lemma vTaskPlaceOnEventList_by_priority_witness :
  wp (vTaskPlaceOnEventList (WaitRecvL 7) 10)
    (λ _ k', waiters k' (WaitRecvL 7) = [4; cur ex_waiting; cur ex_waiting_2]) ex_waiting_2.
Proof.
  eapply wp_mono; [apply (vTaskPlaceOnEventList_by_priority 1 ex_waiting_2 (WaitRecvL 7) 10 ex_waiting_2_ok); by_eval|].
  intros [] k' (_ & _ & _ & _ & Hp). destruct (Hp ex_waiting_2_order ex_waiting_2_own) as [_ ->]. by_eval.
Defined.
