(* ===== verification/TasksFrame.v ===== *)
(** * What the operations of the scheduler leave alone

    Most operations of tasks.c change lists, ready bits, times and the pending
    switch, and nothing else: [frame] says so, and [solve_keeps] checks it by
    following the code of each operation. *)
From S2P Require Import Prelude KList Tasks.

(** The lists of a store. *)
Definition has_list (s : store) (l : lid) : Prop := is_Some (ls_lists s !! l).
Definition held_by (k : kernel) (t : Z) : option Z := uxMutexesHeld <$> k_tcbs k !! t.
(** The notification values and states of a task. *)
Definition notes (k : kernel) (t : Z) : option (list Z * list Z) :=
  (λ x, (ulNotifiedValue x, ucNotifyState x)) <$> k_tcbs k !! t.

(** Everything but the count of scheduler suspensions. *)
Record frame0 (k k' : kernel) : Prop := {
  fr_lists : ∀ l, has_list (k_lists k) l → has_list (k_lists k') l;
  fr_held : ∀ t, held_by k' t = held_by k t;
  fr_notes : ∀ t, notes k' t = notes k t;
  fr_current : pxCurrentTCB k' = pxCurrentTCB k;
  fr_running : xSchedulerRunning k' = xSchedulerRunning k;
  fr_number : uxCurrentNumberOfTasks k' = uxCurrentNumberOfTasks k;
  fr_pendsv : pendsv k = true → pendsv k' = true
}.
Record frame (k k' : kernel) : Prop := {
  fr_frame0 : frame0 k k';
  fr_susp : uxSchedulerSuspended k' = uxSchedulerSuspended k
}.
#[export] Instance frame0_refl : Reflexive frame0.
Proof. by intros k. Qed.
#[export] Instance frame0_trans : Transitive frame0.
Proof. intros k1 k2 k3 [] []. split; eauto; congruence. Qed.
#[export] Instance frame_refl : Reflexive frame.
Proof. by intros k. Qed.
#[export] Instance frame_trans : Transitive frame.
Proof. intros k1 k2 k3 [? ?] [? ?]. split; [by etrans|congruence]. Qed.

(** A property of the state that such an operation cannot change. *)
Class FrameClosed (P : kernel → Prop) := frame_closed : ∀ k k', frame k k' → P k → P k'.
#[export] Instance frame_frame_closed k0 : FrameClosed (frame k0).
Proof. intros k k' Hf H. by etrans. Qed.
#[export] Instance frame0_frame_closed k0 : FrameClosed (frame0 k0).
Proof. intros k k' [Hf _] H. by etrans. Qed.
#[export] Hint Resolve frame_frame_closed frame0_frame_closed : keeps.

(** ** List operations *)
Section lists.
Context (l0 : lid).
Abbreviation lk := (keeps (λ s : store, has_list s l0)).

Lemma has_upd_list s l f : has_list s l0 → has_list (upd_list l f s) l0.
Proof. unfold has_list, upd_list. simpl. by rewrite lookup_alter_is_Some. Qed.
Lemma keeps_get_item i : lk (get_item i). Proof. unfold get_item. solve_keeps. Qed.
Lemma keeps_get_list l : lk (get_list l). Proof. unfold get_list. solve_keeps. Qed.
Lemma keeps_set_item i f : lk (set_item i f).
Proof. unfold set_item, get_item. solve_keeps. done. Qed.
Lemma keeps_set_list l f : lk (set_list l f).
Proof. unfold set_list, get_list. solve_keeps. intros s Hs. by apply has_upd_list. Qed.
Lemma keeps_onPtr {A} o (f : _ → M store A) : (∀ p, lk (f p)) → lk (onPtr o f).
Proof. intros Hf. unfold onPtr. solve_keeps. Qed.
Lemma keeps_get_next o : lk (get_next o). Proof. apply keeps_onPtr. solve_keeps. Qed.
Lemma keeps_get_prev o : lk (get_prev o). Proof. apply keeps_onPtr. solve_keeps. Qed.
Lemma keeps_get_value o : lk (get_value o). Proof. apply keeps_onPtr. solve_keeps. Qed.
Lemma keeps_set_next o v : lk (set_next o v).
Proof. apply keeps_onPtr. intros [i|l]; solve_keeps; [done|intros s Hs; by apply has_upd_list]. Qed.
Lemma keeps_set_prev o v : lk (set_prev o v).
Proof. apply keeps_onPtr. intros [i|l]; solve_keeps; [done|intros s Hs; by apply has_upd_list]. Qed.
Lemma keeps_get_owner o : lk (get_owner o).
Proof. apply keeps_onPtr. intros [i|l]; solve_keeps. Qed.
#[local] Hint Resolve keeps_get_item keeps_get_list keeps_set_item keeps_set_list keeps_get_next
  keeps_get_prev keeps_get_value keeps_set_next keeps_set_prev keeps_get_owner : keeps.

Lemma keeps_vListInitialise l : lk (vListInitialise l).
Proof.
  unfold vListInitialise. solve_keeps. intros s Hs. unfold has_list in *. simpl.
  destruct (decide (l = l0)) as [->|]; [by rewrite lookup_insert_eq|by rewrite lookup_insert_ne].
Qed.
Lemma keeps_search n v p : lk (vListInsert_search n v p).
Proof. revert p. induction n as [|n IH]; intros p; simpl; [done|]. solve_keeps. Qed.
#[local] Hint Resolve keeps_search : keeps.
Lemma keeps_vListInsert l i : lk (vListInsert l i). Proof. unfold vListInsert. solve_keeps. Qed.
Lemma keeps_vListInsertEnd l i : lk (vListInsertEnd l i). Proof. unfold vListInsertEnd. solve_keeps. Qed.
Lemma keeps_listINSERT_END l i : lk (listINSERT_END l i). Proof. unfold listINSERT_END. solve_keeps. Qed.
Lemma keeps_uxListRemove i : lk (uxListRemove i). Proof. unfold uxListRemove. solve_keeps. Qed.
Lemma keeps_listREMOVE_ITEM i : lk (listREMOVE_ITEM i). Proof. unfold listREMOVE_ITEM. solve_keeps. Qed.
Lemma keeps_next_owner l : lk (listGET_OWNER_OF_NEXT_ENTRY l).
Proof. unfold listGET_OWNER_OF_NEXT_ENTRY. solve_keeps. Qed.
Lemma keeps_head_owner l : lk (listGET_OWNER_OF_HEAD_ENTRY l).
Proof. unfold listGET_OWNER_OF_HEAD_ENTRY. solve_keeps. Qed.
Lemma keeps_head_value l : lk (listGET_ITEM_VALUE_OF_HEAD_ENTRY l).
Proof. unfold listGET_ITEM_VALUE_OF_HEAD_ENTRY. solve_keeps. Qed.
Lemma keeps_length l : lk (listCURRENT_LIST_LENGTH l).
Proof. unfold listCURRENT_LIST_LENGTH. solve_keeps. Qed.
Lemma keeps_empty l : lk (listLIST_IS_EMPTY l).
Proof. unfold listLIST_IS_EMPTY. solve_keeps. Qed.
Lemma keeps_set_value i z : lk (listSET_LIST_ITEM_VALUE i z).
Proof. unfold listSET_LIST_ITEM_VALUE. solve_keeps. Qed.
Lemma keeps_value i : lk (listGET_LIST_ITEM_VALUE i).
Proof. unfold listGET_LIST_ITEM_VALUE. solve_keeps. Qed.
Lemma keeps_owner i : lk (listGET_LIST_ITEM_OWNER i).
Proof. unfold listGET_LIST_ITEM_OWNER. solve_keeps. Qed.
Lemma keeps_container i : lk (listLIST_ITEM_CONTAINER i).
Proof. unfold listLIST_ITEM_CONTAINER. solve_keeps. Qed.
Lemma keeps_within l i : lk (listIS_CONTAINED_WITHIN l i).
Proof. unfold listIS_CONTAINED_WITHIN. solve_keeps. Qed.
End lists.
#[export] Hint Resolve keeps_vListInitialise keeps_vListInsert keeps_vListInsertEnd keeps_listINSERT_END
  keeps_uxListRemove keeps_listREMOVE_ITEM keeps_next_owner keeps_head_owner keeps_head_value
  keeps_length keeps_empty keeps_set_value keeps_value keeps_owner keeps_container keeps_within : keeps.

(** ** Operations of tasks.c *)
Section ops.
Context (P : kernel → Prop) `{HP : !FrameClosed P}.
Abbreviation kp := (keeps P).

Lemma keeps_kl {A} (m : M store A) : (∀ l, keeps (λ s, has_list s l) m) → kp (kl m).
Proof.
  intros Hm k a k' Hk. unfold kl, zoom. destruct (m (k_lists k)) as [[b s]| | | |] eqn:Heq; [|done..].
  intros [= -> <-]. apply (HP k); [|done]. split; [|done]. split; try done. intros l Hl. by eapply (Hm l).
Qed.
Lemma keeps_sched (f : kernel → kernel) : (∀ k, frame k (f k)) → kp (modify f).
Proof. intros Hf. apply keeps_modify. intros k Hk. by apply (HP k). Qed.
Lemma keeps_tcb_get {A} t (f : TCB_t → A) : kp (tcb_get t f).
Proof. unfold tcb_get. solve_keeps. Qed.
Lemma frame_tcb k t x x' : k_tcbs k !! t = Some x → uxMutexesHeld x' = uxMutexesHeld x →
  (ulNotifiedValue x', ucNotifyState x') = (ulNotifiedValue x, ucNotifyState x) →
  frame k (k <| k_tcbs ::= <[t := x']> |>).
Proof.
  intros Hx Hh Hn. split; [|done]. split; try done; intros u; unfold held_by, notes; simpl;
    (destruct (decide (t = u)) as [<-|]; [rewrite lookup_insert_eq, Hx; simpl; congruence|by rewrite lookup_insert_ne]).
Qed.
Lemma keeps_tcb_set t f : (∀ x, uxMutexesHeld (f x) = uxMutexesHeld x) →
  (∀ x, (ulNotifiedValue (f x), ucNotifyState (f x)) = (ulNotifiedValue x, ucNotifyState x)) → kp (tcb_set t f).
Proof.
  intros Hf Hn k a k' Hk. unfold tcb_set, bindM, getM. destruct (k_tcbs k !! t) as [x|] eqn:Hx; [|done].
  intros [= _ <-]. apply (HP k); [|done]. by eapply frame_tcb.
Qed.
Lemma keeps_current : kp current. Proof. unfold current. solve_keeps. Qed.
End ops.
#[export] Hint Resolve keeps_kl keeps_tcb_get keeps_current : keeps.
#[export] Hint Extern 1 (keeps _ (tcb_set _ _)) => apply keeps_tcb_set; [apply _|intros; reflexivity..] : keeps.
#[export] Hint Extern 1 (keeps _ (modify _)) =>
  apply keeps_sched; [apply _|intros; split; [split|]; done] : keeps.

Section ops2.
Context (P : kernel → Prop) `{HP : !FrameClosed P}.
Abbreviation kp := (keeps P).

Lemma keeps_prvAddTaskToReadyList t : kp (prvAddTaskToReadyList t).
Proof. unfold prvAddTaskToReadyList, portRECORD_READY_PRIORITY. solve_keeps. Qed.
Lemma keeps_RESET p : kp (portRESET_READY_PRIORITY p).
Proof. unfold portRESET_READY_PRIORITY. solve_keeps. Qed.
Lemma keeps_preempts t : kp (preempts t). Proof. unfold preempts. solve_keeps. Qed.
Lemma keeps_setYieldPending : kp setYieldPending. Proof. unfold setYieldPending. solve_keeps. Qed.
Lemma keeps_portYIELD : kp portYIELD. Proof. unfold portYIELD. solve_keeps. Qed.
Lemma keeps_resetNext : kp prvResetNextTaskUnblockTime.
Proof. unfold prvResetNextTaskUnblockTime. solve_keeps. Qed.
Lemma keeps_switch_lists : kp taskSWITCH_DELAYED_LISTS.
Proof.
  unfold taskSWITCH_DELAYED_LISTS. solve_keeps. apply keeps_resetNext.
Qed.
End ops2.
#[export] Hint Resolve keeps_prvAddTaskToReadyList keeps_RESET keeps_preempts keeps_setYieldPending
  keeps_portYIELD keeps_resetNext keeps_switch_lists : keeps.
#[export] Hint Extern 1 (keeps _ portYIELD_WITHIN_API) => apply keeps_portYIELD; apply _ : keeps.

Section ops3.
Context (P : kernel → Prop) `{HP : !FrameClosed P}.
Abbreviation kp := (keeps P).

Lemma keeps_unblock_one n b : kp (unblock_one n b). Proof. unfold unblock_one. solve_keeps. Qed.
#[local] Hint Resolve keeps_unblock_one : keeps.
Lemma keeps_unblock_loop n : kp (unblock_loop n). Proof. unfold unblock_loop. solve_keeps. Qed.
#[local] Hint Resolve keeps_unblock_loop : keeps.
Lemma keeps_xTaskIncrementTick : kp xTaskIncrementTick. Proof. unfold xTaskIncrementTick. solve_keeps. Qed.
#[local] Hint Resolve keeps_xTaskIncrementTick : keeps.
Lemma keeps_xPortSysTickHandler : kp xPortSysTickHandler. Proof. unfold xPortSysTickHandler. solve_keeps. Qed.
Lemma keeps_move_pending : kp move_pending.
Proof. unfold move_pending, move_pending_one. solve_keeps. Qed.
Lemma keeps_pended_ticks n : kp (pended_ticks n).
Proof. induction n as [|n IH]; simpl; solve_keeps. Qed.
Lemma keeps_block n indef : kp (prvAddCurrentTaskToDelayedList n indef).
Proof. unfold prvAddCurrentTaskToDelayedList. solve_keeps. Qed.
#[local] Hint Resolve keeps_block : keeps.
Lemma keeps_vTaskPlaceOnEventList l n : kp (vTaskPlaceOnEventList l n).
Proof. unfold vTaskPlaceOnEventList. solve_keeps. Qed.
Lemma keeps_vTaskPlaceOnEventListRestricted l n b : kp (vTaskPlaceOnEventListRestricted l n b).
Proof. unfold vTaskPlaceOnEventListRestricted. solve_keeps. Qed.
Lemma keeps_xTaskRemoveFromEventList l : kp (xTaskRemoveFromEventList l).
Proof. unfold xTaskRemoveFromEventList. solve_keeps. Qed.
Lemma keeps_set_timeout : kp vTaskInternalSetTimeOutState.
Proof. unfold vTaskInternalSetTimeOutState. solve_keeps. Qed.
#[local] Hint Resolve keeps_set_timeout : keeps.
Lemma keeps_xTaskCheckForTimeOut o n : kp (xTaskCheckForTimeOut o n).
Proof. unfold xTaskCheckForTimeOut, critical. solve_keeps. Qed.
Lemma keeps_vTaskMissedYield : kp vTaskMissedYield. Proof. unfold vTaskMissedYield. solve_keeps. Qed.
Lemma keeps_setEventItemPriority t p : kp (setEventItemPriority t p).
Proof. unfold setEventItemPriority. solve_keeps. Qed.
#[local] Hint Resolve keeps_setEventItemPriority : keeps.
Lemma keeps_moveReady t p : kp (moveReady t p). Proof. unfold moveReady. solve_keeps. Qed.
#[local] Hint Resolve keeps_moveReady : keeps.
Lemma keeps_xTaskPriorityInherit h : kp (xTaskPriorityInherit h).
Proof. unfold xTaskPriorityInherit. solve_keeps. Qed.
Lemma keeps_AfterTimeout h p : kp (vTaskPriorityDisinheritAfterTimeout h p).
Proof. unfold vTaskPriorityDisinheritAfterTimeout. solve_keeps. Qed.
Lemma keeps_xTaskGetSchedulerState : kp xTaskGetSchedulerState.
Proof. unfold xTaskGetSchedulerState. solve_keeps. Qed.
Lemma keeps_uxTaskGetNumberOfTasks : kp uxTaskGetNumberOfTasks.
Proof. unfold uxTaskGetNumberOfTasks. solve_keeps. Qed.
Lemma keeps_xTaskGetCurrentTaskHandle : kp xTaskGetCurrentTaskHandle.
Proof. unfold xTaskGetCurrentTaskHandle. solve_keeps. Qed.
Lemma keeps_prvGetTCBFromHandle h : kp (prvGetTCBFromHandle h).
Proof. unfold prvGetTCBFromHandle. solve_keeps. Qed.
#[local] Hint Resolve keeps_prvGetTCBFromHandle : keeps.
Lemma keeps_vTaskPrioritySet h p : kp (vTaskPrioritySet h p).
Proof. unfold vTaskPrioritySet, critical. solve_keeps. Qed.
Lemma keeps_IsTaskSuspended t : kp (prvTaskIsTaskSuspended t).
Proof. unfold prvTaskIsTaskSuspended. solve_keeps. Qed.
#[local] Hint Resolve keeps_IsTaskSuspended : keeps.
Lemma keeps_YIELD_ANY t : kp (taskYIELD_ANY_CORE_IF_USING_PREEMPTION t).
Proof. unfold taskYIELD_ANY_CORE_IF_USING_PREEMPTION. solve_keeps. Qed.
#[local] Hint Resolve keeps_YIELD_ANY : keeps.
Lemma keeps_vTaskResume h : kp (vTaskResume h).
Proof. unfold vTaskResume, critical. solve_keeps. Qed.
Lemma keeps_xTaskResumeFromISR t : kp (xTaskResumeFromISR t).
Proof. unfold xTaskResumeFromISR, critical. solve_keeps. Qed.
End ops3.
#[export] Hint Resolve keeps_xTaskIncrementTick keeps_xPortSysTickHandler keeps_move_pending
  keeps_pended_ticks keeps_block keeps_vTaskPlaceOnEventList keeps_vTaskPlaceOnEventListRestricted
  keeps_xTaskRemoveFromEventList keeps_set_timeout keeps_xTaskCheckForTimeOut keeps_vTaskMissedYield
  keeps_xTaskPriorityInherit keeps_AfterTimeout keeps_xTaskGetSchedulerState
  keeps_uxTaskGetNumberOfTasks keeps_xTaskGetCurrentTaskHandle keeps_vTaskPrioritySet
  keeps_vTaskResume keeps_xTaskResumeFromISR : keeps.

(** [vTaskSuspendAll] and [xTaskResumeAll] change the count as well. *)
Lemma keeps_vTaskSuspendAll k0 : keeps (frame0 k0) vTaskSuspendAll.
Proof. apply keeps_modify. intros k Hk. etrans; [exact Hk|done]. Qed.
Lemma keeps_xTaskResumeAll k0 : keeps (frame0 k0) xTaskResumeAll.
Proof.
  unfold xTaskResumeAll, critical. solve_keeps. intros k Hk. etrans; [exact Hk|done].
Qed.
#[export] Hint Resolve keeps_vTaskSuspendAll keeps_xTaskResumeAll : keeps.
Lemma keeps_vTaskDelay k0 n : keeps (frame0 k0) (vTaskDelay n).
Proof. unfold vTaskDelay. solve_keeps. Qed.

(** What [keeps] says of one run. *)
Lemma wp_frame {A} (m : K A) (Q : A → kernel → Prop) k :
  (∀ k0, keeps (frame k0) m) → wp m Q k → wp m (λ a k', Q a k' ∧ frame k k') k.
Proof. intros Hm. by apply wp_keeps. Qed.
Lemma wp_frame0 {A} (m : K A) (Q : A → kernel → Prop) k :
  (∀ k0, keeps (frame0 k0) m) → wp m Q k → wp m (λ a k', Q a k' ∧ frame0 k k') k.
Proof. intros Hm. by apply wp_keeps. Qed.
