(* ===== verification/TasksBlind.v ===== *)
(** * No operation of tasks.c reads the PendSV bit

    A context switch is requested by setting the pending bit of the interrupt
    controller, and only the exception entry clears it.  So what an operation
    does when a switch is pending it does when none is: the theorems about
    states that satisfy [kok] apply to states ([ksafe]) where a better task may
    wait without a switch being pending. *)
From S2P Require Import Prelude KList KListSpec Tasks TasksView TasksInv TasksBlock TasksResume TasksOps.

Definition set_pend (b : bool) (k : kernel) : kernel := k <| pendsv := b |>.
Abbreviation pend := (set_pend true).

(** Only a request for a switch writes it: what makes none commutes with both
    values of the bit. *)
Abbreviation blb b := (blind (set_pend b)).
Abbreviation bl := (blind pend).

Lemma blind_kl b {A} (m : M store A) : blb b (kl m). Proof. unfold kl. solve_blind. Qed.
Lemma blind_tcb_get b {A} t (f : TCB_t → A) : blb b (tcb_get t f). Proof. unfold tcb_get. solve_blind. Qed.
Lemma blind_tcb_set b t f : blb b (tcb_set t f). Proof. unfold tcb_set. solve_blind. Qed.
Lemma blind_current b : blb b current. Proof. unfold current. solve_blind. Qed.
#[export] Hint Resolve blind_kl blind_tcb_get blind_tcb_set blind_current : blind.
Lemma blind_ready b t : blb b (prvAddTaskToReadyList t).
Proof. unfold prvAddTaskToReadyList, portRECORD_READY_PRIORITY. solve_blind. Qed.
Lemma blind_RESET b p : blb b (portRESET_READY_PRIORITY p).
Proof. unfold portRESET_READY_PRIORITY. solve_blind. Qed.
Lemma blind_tRESET b p : blb b (taskRESET_READY_PRIORITY p).
Proof. unfold taskRESET_READY_PRIORITY, portRESET_READY_PRIORITY. solve_blind. Qed.
Lemma blind_preempts b t : blb b (preempts t). Proof. unfold preempts. solve_blind. Qed.
Lemma blind_setYieldPending b : blb b setYieldPending. Proof. unfold setYieldPending. solve_blind. Qed.
Lemma blind_resetNext b : blb b prvResetNextTaskUnblockTime.
Proof. unfold prvResetNextTaskUnblockTime. solve_blind. Qed.
#[export] Hint Resolve blind_ready blind_RESET blind_tRESET blind_preempts blind_setYieldPending blind_resetNext : blind.
Lemma blind_xTaskRemoveFromEventList b l : blb b (xTaskRemoveFromEventList l).
Proof. unfold xTaskRemoveFromEventList. solve_blind. Qed.
#[export] Hint Resolve blind_xTaskRemoveFromEventList : blind.

(** Requests for a switch set it. *)
Lemma blind_portYIELD : bl portYIELD. Proof. unfold portYIELD. solve_blind. Qed.
Lemma blind_portYIELD' : bl portYIELD_WITHIN_API. Proof. apply blind_portYIELD. Qed.
#[export] Hint Resolve blind_portYIELD blind_portYIELD' : blind.
Lemma blind_switch_lists : bl taskSWITCH_DELAYED_LISTS.
Proof. unfold taskSWITCH_DELAYED_LISTS. solve_blind. Qed.
Lemma blind_unblock_one n b : bl (unblock_one n b). Proof. unfold unblock_one. solve_blind. Qed.
#[export] Hint Resolve blind_switch_lists blind_unblock_one : blind.
Lemma blind_unblock_loop n : bl (unblock_loop n). Proof. unfold unblock_loop. solve_blind. Qed.
#[export] Hint Resolve blind_unblock_loop : blind.
Lemma blind_xTaskIncrementTick : bl xTaskIncrementTick. Proof. unfold xTaskIncrementTick. solve_blind. Qed.
#[export] Hint Resolve blind_xTaskIncrementTick : blind.
Lemma blind_xPortSysTickHandler : bl xPortSysTickHandler. Proof. unfold xPortSysTickHandler. solve_blind. Qed.
Lemma blind_vTaskSuspendAll : bl vTaskSuspendAll. Proof. unfold vTaskSuspendAll. solve_blind. Qed.
Lemma blind_move_pending : bl move_pending.
Proof. unfold move_pending, move_pending_one. solve_blind. Qed.
Lemma blind_pended_ticks n : bl (pended_ticks n). Proof. induction n; simpl; solve_blind. Qed.
#[export] Hint Resolve blind_xPortSysTickHandler blind_vTaskSuspendAll blind_move_pending blind_pended_ticks : blind.
Lemma blind_xTaskResumeAll : bl xTaskResumeAll. Proof. unfold xTaskResumeAll, critical. solve_blind. Qed.
Lemma blind_block n indef : bl (prvAddCurrentTaskToDelayedList n indef).
Proof. unfold prvAddCurrentTaskToDelayedList. solve_blind. Qed.
#[export] Hint Resolve blind_xTaskResumeAll blind_block : blind.
Lemma blind_vTaskDelay n : bl (vTaskDelay n). Proof. unfold vTaskDelay. solve_blind. Qed.
Lemma blind_vTaskPlaceOnEventList l n : bl (vTaskPlaceOnEventList l n).
Proof. unfold vTaskPlaceOnEventList. solve_blind. Qed.
Lemma blind_set_timeout : bl vTaskInternalSetTimeOutState.
Proof. unfold vTaskInternalSetTimeOutState. solve_blind. Qed.
#[export] Hint Resolve blind_vTaskDelay blind_vTaskPlaceOnEventList
  blind_set_timeout : blind.
Lemma blind_xTaskCheckForTimeOut o n : bl (xTaskCheckForTimeOut o n).
Proof. unfold xTaskCheckForTimeOut, critical. solve_blind. Qed.
Lemma blind_setEventItemPriority t p : bl (setEventItemPriority t p).
Proof. unfold setEventItemPriority. solve_blind. Qed.
Lemma blind_moveReady t p : bl (moveReady t p). Proof. unfold moveReady. solve_blind. Qed.
Lemma blind_prvGetTCBFromHandle h : bl (prvGetTCBFromHandle h).
Proof. unfold prvGetTCBFromHandle. solve_blind. Qed.
Lemma blind_suspended t : bl (prvTaskIsTaskSuspended t).
Proof. unfold prvTaskIsTaskSuspended. solve_blind. Qed.
Lemma blind_yield_any t : bl (taskYIELD_ANY_CORE_IF_USING_PREEMPTION t).
Proof. unfold taskYIELD_ANY_CORE_IF_USING_PREEMPTION. solve_blind. Qed.
#[export] Hint Resolve blind_xTaskCheckForTimeOut blind_setEventItemPriority blind_moveReady
  blind_prvGetTCBFromHandle blind_suspended blind_yield_any : blind.
Lemma blind_inherit h : bl (xTaskPriorityInherit h). Proof. unfold xTaskPriorityInherit. solve_blind. Qed.
Lemma blind_disinherit h : bl (xTaskPriorityDisinherit h).
Proof. unfold xTaskPriorityDisinherit. solve_blind. Qed.
Lemma blind_after_timeout h p : bl (vTaskPriorityDisinheritAfterTimeout h p).
Proof. unfold vTaskPriorityDisinheritAfterTimeout. solve_blind. Qed.
Lemma blind_vTaskPrioritySet h p : bl (vTaskPrioritySet h p).
Proof. unfold vTaskPrioritySet, critical. solve_blind. Qed.
Lemma blind_vTaskResume h : bl (vTaskResume h). Proof. unfold vTaskResume, critical. solve_blind. Qed.
Lemma blind_vTaskSwitchContext : bl vTaskSwitchContext.
Proof. unfold vTaskSwitchContext, taskSELECT_HIGHEST_PRIORITY_TASK. solve_blind. Qed.
#[export] Hint Resolve blind_inherit blind_disinherit blind_after_timeout blind_vTaskPrioritySet
  blind_vTaskResume blind_vTaskSwitchContext : blind.
Lemma blind_vTaskSuspend h : bl (vTaskSuspend h). Proof. unfold vTaskSuspend, critical. solve_blind. Qed.
Lemma blind_xTaskResumeFromISR t : bl (xTaskResumeFromISR t).
Proof. unfold xTaskResumeFromISR, critical. solve_blind. Qed.
#[export] Hint Resolve blind_vTaskSuspend blind_xTaskResumeFromISR : blind.

(** What commutes with both values of the bit leaves it alone. *)
Lemma wp_pendsv {A} (m : K A) (Q : A → kernel → Prop) k :
  (∀ b, blb b m) → wp m Q k → wp m (λ a k', Q a k' ∧ pendsv k' = pendsv k) k.
Proof.
  intros Hb Hm. pose proof (Hb (pendsv k) k) as He.
  replace (set_pend (pendsv k) k) with k in He by by destruct k.
  unfold wp in *. destruct (m k) as [[a k']| | | |]; [|done..]. split; [done|].
  injection He as He. by rewrite He.
Qed.

(** The invariant without the promise that no better task waits. *)
Definition ksafe (idle : Z) (k : kernel) (v : lview) : Prop := kok idle (pend k) v.

Section ksafe.
Context (idle : Z) (k : kernel) (v : lview).

Lemma kok_ksafe : kok idle k v → ksafe idle k v.
Proof. intros Hk. by apply kok_pendsv. Qed.
Lemma ksafe_kinv : ksafe idle k v ↔ kinv k v ∧ ∃ p, in_list v (StateItem idle) (ReadyL p).
Proof.
  split.
  - intros [Hinv _ Hi]. split; [|done]. destruct Hinv as [? ? ? ? ? ? ? ? ?]. by split.
  - intros [Hinv Hi]. split; [by apply kinv_pendsv|by left|done].
Qed.

(** Rules proved for [kok] apply to [ksafe]. *)
Lemma wp_ksafe {A} (m : K A) (Q : A → kernel → Prop) :
  bl m → wp m Q (pend k) → wp m (λ a k', Q a (pend k')) k.
Proof. apply wp_blind. Qed.
End ksafe.
