(* ===== verification/TasksDetach.v ===== *)
(** * A ready task waits for no event

    A task's event item leaves its event list before the task is readied, so a
    task in a ready list is in no event list: the fact that lets a running task
    put its event item into a list.  [kgood] is the scheduler's invariant with
    this fact; each operation that the queue functions use keeps it. *)
From S2P Require Import Prelude KList KListSpec KListProps Tasks TasksView TasksInv TasksTick.
From S2P Require Import TasksSwitch TasksBlock TasksResume TasksDelay TasksOps TasksSuspend TasksPrio.
From S2P Require Import TasksEvents TasksMachine TasksTrace TasksCheck TasksWaiters TasksFrame TasksBlind.

Definition detached (v : lview) : Prop :=
  ∀ t p, in_list v (StateItem t) (ReadyL p) → in_none v (EventItem t).
Definition kgood (idle : Z) (k : kernel) : Prop := ∃ v, ksafe idle k v ∧ detached v.
(** No task stops being ready. *)
Definition kept_ready (k k' : kernel) : Prop := ∀ t, ready k t = true → ready k' t = true.

#[export] Instance kept_ready_refl : Reflexive kept_ready.
Proof. by intros k t. Qed.
#[export] Instance kept_ready_trans : Transitive kept_ready.
Proof. intros k1 k2 k3 H1 H2 t Ht. auto. Qed.

(** *** Detachment under the changes of views *)
Lemma detached_sub v v' :
  detached v → (∀ t p, in_list v' (StateItem t) (ReadyL p) → ∃ q, in_list v (StateItem t) (ReadyL q)) →
  (∀ t l, in_list v' (EventItem t) l → in_list v (EventItem t) l) → detached v'.
Proof. intros Hd Hs He t p [q Hq]%Hs l Hl%He. by eapply Hd. Qed.
Lemma detached_woken T ts v v' : detached v → woken T ts v v' → detached v'.
Proof.
  intros Hd Hw t p Hp l Hl. apply Hw in Hl. apply Hw in Hp. simpl in *. case_decide; [by destruct Hl|].
  by eapply Hd.
Qed.
Lemma detached_moved t x x' v v' : detached v → moved t x x' v v' → detached v'.
Proof.
  intros Hd Hm. apply (detached_sub v); [done| |].
  - intros u p Hp%Hm. case_decide as Hc; [destruct Hc as [? [= ->]]|]; eauto.
  - intros u l Hl%Hm. case_decide as Hc; [by destruct Hc|done].
Qed.
Lemma detached_vready s s1 T v t p :
  krep s T v → krep s1 T (vrem (StateItem t) v) → is_Some (rings v !! ReadyL p) →
  in_none v (EventItem t) → detached v → detached (vready t p v).
Proof.
  intros Hk Hk1 HL Hno Hd u q Hq l Hl.
  apply (in_list_vready _ _ _ _ _ _ _ _ Hk Hk1 HL) in Hl as [[? _]|[Hl _]]; [done|].
  apply (in_list_vready _ _ _ _ _ _ _ _ Hk Hk1 HL) in Hq as [[[= ->] _]|[Hq _]]; [by apply Hno in Hl|].
  by eapply Hd.
Qed.
Lemma detached_vrem_event v t : detached v → detached (vrem (EventItem t) v).
Proof.
  intros Hd. apply (detached_sub v); [done| |].
  - intros u p Hp%in_vrem_inv. eauto.
  - by intros u l Hl%in_vrem_inv.
Qed.

(** *** Readiness, seen from the state *)
Lemma ready_tcb k t : ready k t = true → ∃ x, k_tcbs k !! t = Some x.
Proof. unfold ready, prio. destruct (k_tcbs k !! t) as [x|]; [by exists x|done]. Qed.
Lemma views_kept_ready k k' v v' :
  kinv k v → kinv k' v' →
  (∀ t p, in_list v (StateItem t) (ReadyL p) → ∃ q, in_list v' (StateItem t) (ReadyL q)) → kept_ready k k'.
Proof.
  intros Hk Hk' Hv t Ht. destruct (ready_tcb _ _ Ht) as [x Hx].
  apply (ready_iff k v Hk t x Hx), Hv in Ht as [q Hq]. by eapply ready_any.
Qed.
Lemma ready_detached idle k v t : ksafe idle k v → detached v → ready k t = true →
  in_none v (EventItem t) ∧ ∃ y, k_tcbs k !! t = Some y ∧ in_list v (StateItem t) (ReadyL (uxPriority y)).
Proof.
  intros [Hk _]%ksafe_kinv Hd Ht. destruct (ready_tcb _ _ Ht) as [y Hy].
  apply (ready_iff k v Hk t y Hy) in Ht. split; [by eapply Hd|by exists y].
Qed.
Lemma kgood_list idle k v l : ksafe idle k v → has_list (k_lists k) l → is_Some (rings v !! l).
Proof. intros [Hk _]%ksafe_kinv [x Hl]. by eapply (rep_dom _ _ (kr_rep _ _ _ (ki_rep _ _ _ Hk))). Qed.

(** ** Facts about the lists that the interrupts and the scheduler lock keep

    [sgood Ψ]: the invariant with a fact [Ψ] about where the items are. *)
Class Side (Ψ : lview → Prop) : Prop := {
  side_woken T ts v v' : Ψ v → woken T ts v v' → Ψ v';
  side_same v v' : Ψ v → (∀ i l, in_list v' i l ↔ in_list v i l) → Ψ v'
}.
#[export] Instance side_detached : Side detached.
Proof.
  split; [exact detached_woken|]. intros v v' Hd Hs.
  apply (detached_sub v); [done|intros t p Hp%Hs; eauto|by intros t l Hl%Hs].
Qed.

Section sgood.
Context (idle : Z) (Ψ : lview → Prop) `{!Side Ψ}.
Definition sgood (k : kernel) : Prop := ∃ v, ksafe idle k v ∧ Ψ v.

Lemma sgood_intro k v : kinv k v → (∃ p, in_list v (StateItem idle) (ReadyL p)) → Ψ v → sgood k.
Proof. intros Hk Hi Hd. exists v. split; [by apply ksafe_kinv|done]. Qed.
Lemma sgood_current k : sgood k → ∃ c y, pxCurrentTCB k = Some c ∧ k_tcbs k !! c = Some y.
Proof. intros (v & Hk & _). destruct (kok_current idle _ v Hk) as (c & y & Hc & _ & Hy). by exists c, y. Qed.

(** *** The interrupts *)
Lemma woken_idle k ts v v' x : kinv k v → woken (k_tcbs k) ts v v' → k_tcbs k !! idle = Some x →
  (∃ p, in_list v (StateItem idle) (ReadyL p)) → ∃ p, in_list v' (StateItem idle) (ReadyL p).
Proof.
  intros Hk Hw Hx [p Hp]. exists p. eapply woken_ready; [apply Hk|exact Hw|exact Hx|exact Hp].
Qed.
Lemma woken_kept k k' ts v v' : kinv k v → kinv k' v' → woken (k_tcbs k) ts v v' → kept_ready k k'.
Proof.
  intros Hk Hk' Hw. eapply views_kept_ready; [exact Hk|exact Hk'|]. intros t p Hp. exists p.
  destruct (in_list_tcb (ki_rep _ _ _ Hk) _ _ Hp) as [x Hx]. eapply woken_ready; [apply Hk|exact Hw|exact Hx|done].
Qed.

Lemma sg_tick k : sgood k → wp xPortSysTickHandler (λ _ k', sgood k' ∧ kept_ready k k') k.
Proof.
  intros (v & Hk & Hd). apply ksafe_kinv in Hk as [Hinv Hi]. unfold xPortSysTickHandler. apply wp_bind.
  destruct (decide (uxSchedulerSuspended k = 0)) as [Hz|Hnz].
  - eapply wp_mono; [by apply (wp_xTaskIncrementTick k v)|]. intros b k' (v' & Hspec).
    assert (sgood k' ∧ kept_ready k k') as [Hg Hr].
    { destruct Hi as [p Hp]. destruct (in_list_tcb (ki_rep _ _ _ Hinv) _ _ Hp) as [x Hx].
      split; [|eapply woken_kept; [exact Hinv|apply Hspec..]].
      eapply sgood_intro; [apply Hspec| |by eapply side_woken; [|apply Hspec]].
      eapply woken_idle; [exact Hinv|apply Hspec|exact Hx|by exists p]. }
    destruct b; [apply wp_modify|by apply wp_ret]. split; [|by intros t ?; apply Hr]. destruct Hg as (w & Hw & ?). exists w. by split; [exact Hw|].
  - unfold xTaskIncrementTick. apply wp_bind, wp_getM.
    destruct (Z.eqb_spec (uxSchedulerSuspended k) 0); [done|].
    apply wp_bind, wp_modify, wp_bind, wp_ret, wp_ret, wp_ret. split; [|by intros t].
    apply (sgood_intro _ v); [|done|done]. apply kinv_pended; [done|apply wrap32_u32].
Qed.

(** After the switch the running task is ready; while the scheduler is suspended
    there is none. *)
Lemma sg_switch k : sgood k → wp xPortPendSVHandler (λ _ k', sgood k' ∧ kept_ready k k' ∧
    uxSchedulerSuspended k' = uxSchedulerSuspended k ∧ k_tcbs k' = k_tcbs k ∧
    xSchedulerRunning k' = xSchedulerRunning k ∧ uxCurrentNumberOfTasks k' = uxCurrentNumberOfTasks k ∧
    (∀ l, has_list (k_lists k) l → has_list (k_lists k') l) ∧ (∀ t, event_in k' t = event_in k t) ∧
    if uxSchedulerSuspended k =? 0 then ∃ c, pxCurrentTCB k' = Some c ∧ ready k' c = true
    else pxCurrentTCB k' = pxCurrentTCB k) k.
Proof.
  intros (v & Hk & Hd). apply ksafe_kinv in Hk as [Hinv Hi].
  eapply (wp_mono _ (λ r k', (sgood k' ∧ kept_ready k k' ∧
    uxSchedulerSuspended k' = uxSchedulerSuspended k ∧ k_tcbs k' = k_tcbs k ∧
    xSchedulerRunning k' = xSchedulerRunning k ∧ uxCurrentNumberOfTasks k' = uxCurrentNumberOfTasks k ∧
    (∀ t, event_in k' t = event_in k t) ∧
    if uxSchedulerSuspended k =? 0 then ∃ c, pxCurrentTCB k' = Some c ∧ ready k' c = true
    else pxCurrentTCB k' = pxCurrentTCB k) ∧ ∀ l, has_list (k_lists k) l → has_list (k_lists k') l)).
  2: { intros _ k' ((? & ? & ? & ? & ? & ? & ? & ?) & ?). by split_and!. }
  apply (wp_keeps (λ k', ∀ l, has_list (k_lists k) l → has_list (k_lists k') l)); [|done|].
  { unfold xPortPendSVHandler, vTaskSwitchContext, taskSELECT_HIGHEST_PRIORITY_TASK.
    assert (FrameClosed (λ k', ∀ l, has_list (k_lists k) l → has_list (k_lists k') l)).
    { intros k1 k2 Hf Hl l ?. by apply Hf, Hl. }
    solve_keeps; intros s Hs l Hl; exact (Hs l Hl). }
  unfold xPortPendSVHandler. apply wp_bind, wp_modify.
  assert (kinv (k <| pendsv := false |>) v) as Hinv0 by by apply kinv_pendsv.
  destruct (Z.eqb_spec (uxSchedulerSuspended k) 0) as [Hz|Hnz].
  - eapply wp_mono; [apply (wp_vTaskSwitchContext _ v Hinv0 Hz)|].
    { destruct Hi as [p Hp]. by exists idle, p. }
    intros _ k' (v' & Hsp). pose proof (ss_same _ _ _ _ Hsp) as Hsame.
    destruct (ss_frame _ _ _ _ Hsp) as (s & c & Heq). split_and!; try by rewrite Heq.
    + apply (sgood_intro _ v'); [apply Hsp| |].
      * destruct Hi as [p Hp]. exists p. by apply Hsame.
      * by eapply side_same.
    + apply (views_kept_ready (k <| pendsv := false |>) k' v v' Hinv0 (ss_inv _ _ _ _ Hsp)).
      intros t p Hp. exists p. by apply Hsame.
    + intros t. apply option_eq. intros l.
      pose proof (event_in_iff k' v' (ss_inv _ _ _ _ Hsp) t l) as E1. pose proof (event_in_iff k v Hinv t l) as E2.
      rewrite E1, E2. apply Hsame.
    + destruct (ss_top _ _ _ _ Hsp) as (c' & x & Hc & Hx & Hin & _). exists c'. split; [done|].
      by eapply ready_any; [apply Hsp|].
  - unfold vTaskSwitchContext. apply wp_bind, wp_getM. simpl.
    destruct (Z.eqb_spec (uxSchedulerSuspended k) 0); [done|]. simpl. apply wp_modify.
    split_and!; [apply (sgood_intro _ v); [by apply kinv_yield|done|done]|by intros t|done..].
Qed.

(** *** The scheduler lock *)
Lemma ticks_side n k v k' v' : ticks n k v k' v' → Ψ v → Ψ v'.
Proof. induction 1 as [|n k v b k1 v1 k2 v2 Hs _ IH]; [done|]. intros Hd. apply IH. by eapply side_woken; [|apply Hs]. Qed.

Lemma sg_suspend k : sgood k → uxSchedulerSuspended k = 0 →
  wp vTaskSuspendAll (λ _ k', sgood k' ∧ kept_ready k k' ∧ uxSchedulerSuspended k' = 1) k.
Proof.
  intros (v & Hk & Hd) Hs. apply wp_modify.
  assert (wp vTaskSuspendAll (λ _ k', kok idle k' v) (pend k)) as Hok.
  { apply (wp_vTaskSuspendAll idle (pend k) v); [exact Hk| |done].
    change (uxSchedulerSuspended k + 1 < MAX32). by rewrite Hs. }
  split_and!; [|by intros t|].
  2: { change (wrap32 (uxSchedulerSuspended k + 1) = 1). by rewrite Hs. }
  exists v. split; [|done]. exact Hok.
Qed.

Lemma sg_resume k : sgood k → uxSchedulerSuspended k = 1 →
  wp xTaskResumeAll (λ b k', sgood k' ∧ kept_ready k k' ∧ uxSchedulerSuspended k' = 0 ∧
    k_tcbs k' = k_tcbs k ∧ (b = true → pendsv k' = true) ∧
    (∀ t, event_in k t = Some PendingReadyL → ready k' t = true) ∧ frame0 k k' ∧
    (xPendedTicks k = 0 → ∀ t l, event_in k t = Some l → l ≠ PendingReadyL →
       event_in k' t = Some l ∧ ready k' t = ready k t)) k.
Proof.
  intros (v & Hk & Hd) Hs. apply ksafe_kinv in Hk as [Hinv Hi].
  eapply (wp_mono _ (λ b k', (∃ v' ts k1 v1 k2, resume_spec k v b k' v' ts k1 v1 k2) ∧ frame0 k k')).
  { apply wp_frame0; [auto with keeps|]. by apply (wp_xTaskResumeAll k v). }
  intros b k' ((v' & ts & k1 & v1 & k2 & Hr) & Hfr).
  destruct (resume_tcbs _ _ _ _ _ _ _ _ _ Hr) as [Ht Hs'].
  pose proof (rs_inv _ _ _ _ _ _ _ _ _ Hr) as Hinv'.
  assert (∀ t p, in_list v (StateItem t) (ReadyL p) → in_list v' (StateItem t) (ReadyL p)) as Hready.
  { intros t p Hp. destruct (in_list_tcb (ki_rep _ _ _ Hinv) _ _ Hp) as [x Hx]. simpl in Hx.
    pose proof (ir_prio _ _ _ _ (ki_ready _ _ _ Hinv) _ _ _ Hp Hx) as <-.
    eapply resume_ready; [exact Hinv|exact Hr|exact Hx|exact Hp]. }
  split_and!; [| |done|done| | |done|].
  - apply (sgood_intro _ v'); [done| |].
    + destruct Hi as [p Hp]. exists p. by apply Hready.
    + apply (ticks_side _ _ _ _ _ (rs_ticks _ _ _ _ _ _ _ _ _ Hr)).
      apply (side_woken (k_tcbs k) ts v); [done|apply Hr].
  - eapply views_kept_ready; [exact Hinv|exact Hinv'|]. intros t p Hp. exists p. by apply Hready.
  - intros ->. by rewrite (rs_final _ _ _ _ _ _ _ _ _ Hr).
  - intros t Hev%(event_in_iff k v Hinv). destruct (in_list_tcb (ki_rep _ _ _ Hinv) _ _ Hev) as [x Hx]. simpl in Hx.
    apply in_list_vitems in Hev. rewrite (rs_pending _ _ _ _ _ _ _ _ _ Hr) in Hev.
    apply list_elem_of_fmap in Hev as (u & [= <-] & Hu).
    destruct (ready_any k' v' Hinv' t (uxPriority x)) as [? _]; [|done].
    eapply ticks_ready; [apply Hr|apply Hr|]. apply (rs_woken _ _ _ _ _ _ _ _ _ Hr). simpl.
    rewrite decide_True by done. split; [done|]. by exists x.
  - intros Hz t l Hev%(event_in_iff k v Hinv) Hne.
    pose proof (rs_ticks _ _ _ _ _ _ _ _ _ Hr) as Htk. rewrite Hz in Htk. inversion Htk; subst. clear Htk.
    assert (t ∉ ts) as Hnt.
    { intros Hin. apply Hne, (in_list_unique (ki_rep _ _ _ Hinv) (EventItem t)); [exact Hev|].
      apply in_list_vitems. rewrite (rs_pending _ _ _ _ _ _ _ _ _ Hr). by apply list_elem_of_fmap_2. }
    assert (∀ i l, itask i = t → in_list v' i l ↔ in_list v i l) as Hsame.
    { intros i l' <-. pose proof (rs_woken _ _ _ _ _ _ _ _ _ Hr i l') as Hw. by rewrite decide_False in Hw. }
    split; [by apply (event_in_iff k' v' Hinv'), Hsame|].
    destruct (in_list_tcb (ki_rep _ _ _ Hinv) _ _ Hev) as [x Hx]. simpl in Hx.
    apply eq_iff_eq_true. rewrite (ready_iff k' v' Hinv' t x), (ready_iff k v Hinv t x), Hsame; [done..|by rewrite Ht].
Qed.

End sgood.

Lemma kgood_current idle k : kgood idle k → ∃ c y, pxCurrentTCB k = Some c ∧ k_tcbs k !! c = Some y.
Proof. apply (sgood_current idle detached). Qed.

Section kgood.
Context (idle : Z).
Abbreviation good := (kgood idle).

Lemma kgood_intro k v : kinv k v → (∃ p, in_list v (StateItem idle) (ReadyL p)) → detached v → good k.
Proof. intros Hk Hi Hd. exists v. split; [by apply ksafe_kinv|done]. Qed.
Lemma kgood_pend k : good (pend k) → good k.
Proof. intros (v & Hk & Hd). by exists v. Qed.
Lemma kgood_yield k : good k → good (k <| xYieldPendings := true |>).
Proof. intros (v & Hk & Hd). exists v. split; [|done]. by apply (kok_yield idle (pend k)). Qed.

(** *** The interrupts and the scheduler lock *)
Lemma kg_tick k : good k → wp xPortSysTickHandler (λ _ k', good k' ∧ kept_ready k k') k.
Proof. apply (sg_tick idle detached). Qed.
(** After the switch the running task is ready; while the scheduler is suspended
    there is none. *)
Lemma kg_switch k : good k → wp xPortPendSVHandler (λ _ k', good k' ∧ kept_ready k k' ∧
    uxSchedulerSuspended k' = uxSchedulerSuspended k ∧ k_tcbs k' = k_tcbs k ∧
    xSchedulerRunning k' = xSchedulerRunning k ∧ uxCurrentNumberOfTasks k' = uxCurrentNumberOfTasks k ∧
    (∀ l, has_list (k_lists k) l → has_list (k_lists k') l) ∧
    if uxSchedulerSuspended k =? 0 then ∃ c, pxCurrentTCB k' = Some c ∧ ready k' c = true
    else pxCurrentTCB k' = pxCurrentTCB k) k.
Proof.
  intros Hg. eapply wp_mono; [by apply (sg_switch idle detached)|].
  intros _ k' (? & ? & ? & ? & ? & ? & ? & _ & ?). by split_and!.
Qed.
Lemma kg_suspend k : good k → uxSchedulerSuspended k = 0 →
  wp vTaskSuspendAll (λ _ k', good k' ∧ kept_ready k k' ∧ uxSchedulerSuspended k' = 1) k.
Proof. apply (sg_suspend idle detached). Qed.
Lemma kg_resume k : good k → uxSchedulerSuspended k = 1 →
  wp xTaskResumeAll (λ b k', good k' ∧ kept_ready k k' ∧ uxSchedulerSuspended k' = 0 ∧
    k_tcbs k' = k_tcbs k ∧ (b = true → pendsv k' = true) ∧
    (∀ t, event_in k t = Some PendingReadyL → ready k' t = true) ∧ frame0 k k' ∧
    (xPendedTicks k = 0 → ∀ t l, event_in k t = Some l → l ≠ PendingReadyL →
       event_in k' t = Some l ∧ ready k' t = ready k t)) k.
Proof. apply (sg_resume idle detached). Qed.

(** *** Event lists *)
Definition is_event_list (l : lid) : bool := negb (state_list l) && negb (bool_decide (l = PendingReadyL)).
Lemma kgood_event_list k v l : ksafe idle k v → has_list (k_lists k) l → is_event_list l = true → event_list v l.
Proof.
  intros Hk Hl [Hst Hnp]%andb_true_iff. split_and!; [by destruct (state_list l)| |by eapply kgood_list].
  intros ->. by rewrite bool_decide_eq_true_2 in Hnp.
Qed.

Lemma blocked_event_items k v c n indef l :
  kinv k v → state_list l = false → vitems (blocked_view k c n indef v) l = vitems v l.
Proof.
  intros Hinv Hl. pose proof (vitems_vrem_state k v c l _ Hinv Hl) as Hrem.
  destruct (id_which _ _ _ _ _ _ (ki_delay _ _ _ Hinv)) as [[HD HO]|[HD HO]];
    unfold blocked_view; rewrite HD, HO; destruct ((n =? portMAX_DELAY) && indef);
    try (rewrite vitems_vend_ne by (by intros <-); exact Hrem);
    destruct (wake_time k n <? xTickCount k); rewrite vitems_vins_ne by (by intros <-); exact Hrem.
Qed.

(** The running task [c] waits on the list [l]. *)
Record placed (k : kernel) (c : Z) (l : lid) (k' : kernel) : Prop := {
  pl_good : good k';
  pl_frame : frame k k';
  pl_in : event_in k' c = Some l;
  pl_blocked : ready k' c = false;
  pl_pended : xPendedTicks k' = xPendedTicks k
}.

Lemma kg_place k c l n : good k → pxCurrentTCB k = Some c → ready k c = true → c ≠ idle →
  has_list (k_lists k) l → is_event_list l = true → 0 < n < MAX32 →
  wp (vTaskPlaceOnEventList l n) (λ _ k', placed k c l k') k.
Proof.
  intros (v & Hk & Hd) Hc Hr Hne Hl Hev Hn.
  destruct (ready_detached idle k v c Hk Hd Hr) as (Hno & y & Hy & Hin).
  pose proof (kgood_event_list k v l Hk Hl Hev) as Hevl. pose proof (ko_inv _ _ _ Hk) as Hinv0.
  eapply (wp_mono _ (λ _ k', (good (pend k') ∧ event_in k' c = Some l ∧ ready k' c = false ∧ xPendedTicks k' = xPendedTicks k) ∧ frame k k')).
  2: { intros _ k' (([v1 Hg] & ? & ? & ?) & ?). split; [by exists v1|done..]. }
  apply wp_frame; [auto with keeps|].
  apply (wp_ksafe k (vTaskPlaceOnEventList l n) (λ _ k', good k' ∧ event_in k' c = Some l ∧ ready k' c = false ∧ xPendedTicks k' = xPendedTicks k)); [auto with blind|].
  eapply wp_mono; [by apply (wp_vTaskPlaceOnEventList idle (pend k) v c y l n)|].
  intros _ k' (s & Hk' & Hinv1 & s' & top & next & Heq). pose proof (ko_inv _ _ _ Hk') as Hinv'.
  change (blocked_view (pend k)) with (blocked_view (pend k <| k_lists := s |>)) in Hk', Hinv'.
  assert (k_tcbs k' !! c = Some (y <| ucDelayAborted := false |>)) as Hy'.
  { rewrite Heq. simpl. apply lookup_insert_eq. }
  assert (∀ t l', in_list (blocked_view (pend k <| k_lists := s |>) c n true (vins l (EventItem c) v)) (EventItem t) l' ↔
    (t = c ∧ l' = l) ∨ in_list v (EventItem t) l') as Hevs.
  { intros t l'. rewrite in_list_vitems. destruct Hevl as (Hst & Hnp & HL).
    destruct (state_list l') eqn:Hst'.
    - split; [intros Hc'%in_list_vitems%(il_kind _ (ki_lists _ _ _ Hinv'))|intros [[_ ->]|Hc'%(il_kind _ (ki_lists _ _ _ Hinv0))]];
        simpl in *; congruence.
    - rewrite (blocked_event_items _ _ _ _ _ _ Hinv1 Hst'), <- in_list_vitems.
      rewrite (in_list_vins (ki_rep _ _ _ Hinv0)) by done. naive_solver. }
  split_and!.
  - eexists. split; [by apply kok_ksafe|].
    intros t p Hp. apply blocked_ready in Hp as [Hp Hne']; [|exact Hinv1]. destruct Hevl as (Hst & Hnp & HL).
    intros l' [[? _]|Hl']%Hevs; [done|]. apply in_list_vitems in Hp. rewrite vitems_vins_ne in Hp by (by intros ->).
    apply in_list_vitems in Hp. by eapply Hd.
  - apply (event_in_iff k' _ Hinv'), Hevs. by left.
  - apply not_true_iff_false. intros Hr'. apply (ready_iff k' _ Hinv' c _ Hy') in Hr'.
    by apply (blocked_ready _ _ c n true c _ Hinv1) in Hr' as [_ ?].
  - by rewrite Heq.
Qed.

(** *** Time-outs *)
Lemma kg_check_timeout k o n (Q : bool * TimeOut_t * Z → kernel → Prop) : good k → 0 ≤ n < MAX32 →
  (∀ (e : bool) o' n' k', good k' → frame k k' → kept_ready k k' → k_lists k' = k_lists k →
     xPendedTicks k' = xPendedTicks k →
     0 ≤ n' < MAX32 → (e = false → 0 < n') → Q (e, o', n') k') →
  wp (xTaskCheckForTimeOut o n) Q k.
Proof.
  intros Hg Hn HQ. destruct (kgood_current idle k Hg) as (c & y & Hc & Hy).
  assert (∀ (e : bool) o' n', 0 ≤ n' < MAX32 → (e = false → 0 < n') → Q (e, o', n') k) as Hend.
  { intros e o' n' ??. by apply HQ. }
  unfold xTaskCheckForTimeOut, critical. apply wp_bind, wp_getM, wp_bind.
  eapply wp_current; [exact Hc|]. apply wp_bind. eapply wp_tcb_get; [exact Hy|].
  destruct (ucDelayAborted y).
  - apply wp_bind. eapply wp_tcb_set; [exact Hy|]. apply wp_ret.
    destruct Hg as (v & [Hinv Hi]%ksafe_kinv & Hd). 
    assert (kinv (k <| k_tcbs ::= <[c := y <| ucDelayAborted := false |>]> |>) v) as Hinv'.
    { pose proof (ki_prio _ _ _ Hinv _ _ Hy). eapply kinv_tcb; [exact Hinv|exact Hy|done|simpl in *; lia]. }
    apply HQ; [by apply (kgood_intro _ v)| | |done|done|done|done].
    + by eapply frame_tcb.
    + eapply views_kept_ready; [exact Hinv|exact Hinv'|]. eauto.
  - unfold portMAX_DELAY. destruct (Z.eqb_spec n 4294967295).
    { apply wp_ret, Hend; [done|lia]. }
    destruct (_ && _); [apply wp_ret, Hend; [done|done]|].
    pose proof (wrap32_u32 (xTickCount k - xTimeOnEntering o)) as Hu. unfold u32 in Hu.
    destruct (Z.ltb_spec (wrap32 (xTickCount k - xTimeOnEntering o)) n).
    + apply wp_bind, wp_gets, wp_ret. rewrite wrap32_small by (unfold u32; lia). apply Hend; lia.
    + apply wp_ret, Hend; [done|done].
Qed.

Lemma kg_waiters k v l : ksafe idle k v → event_list v l → EventItem <$> waiters k l = vitems v l.
Proof. intros [Hk _]%ksafe_kinv. by apply waiters_view. Qed.

Lemma kg_is_empty k l (Q : bool → kernel → Prop) : good k → has_list (k_lists k) l → is_event_list l = true →
  Q (bool_decide (waiters k l = [])) k → wp (kl (listLIST_IS_EMPTY l)) Q k.
Proof.
  intros (v & Hk & _) Hl Hev HQ. pose proof (kgood_event_list k v l Hk Hl Hev) as Hevl.
  pose proof (kg_waiters k v l Hk Hevl) as Hw. pose proof Hk as [Hinv _]%ksafe_kinv.
  apply wp_kl. eapply ws_is_empty; [apply Hinv|apply Hevl|].
  replace (k <| k_lists := k_lists k |>) with k by by destruct k.
  replace (bool_decide (vitems v l = [])) with (bool_decide (waiters k l = [])); [done|].
  apply bool_decide_ext. rewrite <- Hw. by destruct (waiters k l).
Qed.

(** Who waits on the other event lists is unchanged. *)
Definition same_waiters_but (l : lid) (k k' : kernel) : Prop :=
  ∀ l', l' ≠ l → is_event_list l' = true → has_list (k_lists k) l' → waiters k' l' = waiters k l'.

(** The first waiter [t] of the list [l] has been taken off it; [b] tells whether
    it beats the running task. *)
Record woke (k : kernel) (l : lid) (t : Z) (ts : list Z) (b : bool) (k' : kernel) : Prop := {
  wk_good : good k';
  wk_frame : frame k k';
  wk_tcbs : k_tcbs k' = k_tcbs k;
  wk_kept : kept_ready k k';
  wk_waiters : waiters k' l = ts;
  wk_others : same_waiters_but l k k';
  wk_ready : uxSchedulerSuspended k = 0 → ready k' t = true;
  wk_pending : uxSchedulerSuspended k ≠ 0 → event_in k' t = Some PendingReadyL;
  wk_pending_kept u : event_in k u = Some PendingReadyL → event_in k' u = Some PendingReadyL;
  wk_beats : b = true ↔ prio_above_current k t;
  wk_pendsv : pendsv k' = pendsv k;
  wk_tick : xTickCount k' = xTickCount k;
  wk_same u : u ≠ t → state_in k' u = state_in k u ∧ event_in k' u = event_in k u
}.

Lemma kg_remove k l t ts : good k → has_list (k_lists k) l → is_event_list l = true → waiters k l = t :: ts →
  wp (xTaskRemoveFromEventList l) (λ b k', woke k l t ts b k') k.
Proof.
  intros (v & Hk & Hd) Hl Hev Hw. pose proof (kgood_event_list k v l Hk Hl Hev) as Hevl.
  pose proof (kg_waiters k v l Hk Hevl) as Hv. rewrite Hw in Hv. symmetry in Hv.
  assert (in_list v (EventItem t) l) as Hin by (apply in_list_vitems; rewrite Hv; by left).
  pose proof Hk as [Hinv Hidle]%ksafe_kinv.
  destruct (in_list_tcb (ki_rep _ _ _ Hinv) _ _ Hin) as [x Hx]. simpl in Hx.
  set (v' := removed_view (uxSchedulerSuspended k) t (uxPriority x) v).
  eapply (wp_mono _ (λ b k', ((ksafe idle (pend k') v' ∧ (b = true ↔ prio_above_current k t) ∧
    k_tcbs (pend k') = k_tcbs k ∧ xTickCount (pend k') = xTickCount k) ∧ frame k k') ∧ pendsv k' = pendsv k)).
  - apply wp_pendsv; [auto with blind|]. apply wp_frame; [auto with keeps|].
    apply (wp_ksafe k (xTaskRemoveFromEventList l)
      (λ b k', ksafe idle k' v' ∧ (b = true ↔ prio_above_current k t) ∧ k_tcbs k' = k_tcbs k ∧ xTickCount k' = xTickCount k));
      [auto with blind|].
    eapply wp_mono; [by apply (wp_xTaskRemoveFromEventList idle (pend k) v t x l (EventItem <$> ts))|].
    intros b k' (Hk' & (s & top & Heq) & Hb). split_and!; [by apply kok_ksafe|exact Hb|rewrite Heq; by destruct b..].
  - intros b k' (((Hk' & Hb & HT & Htk) & Hfr) & Hpd). assert (ksafe idle k' v') as Hk1 by exact Hk'.
    pose proof Hk1 as [Hinv' Hidle']%ksafe_kinv.
    destruct (removed_waiters k v l (uxSchedulerSuspended k) t ts (uxPriority x) Hinv Hevl Hv) as [Hv' Hl'].
    assert (∀ i l, in_list v' i l ↔ if uxSchedulerSuspended k =? 0
      then (i = StateItem t ∧ l = ReadyL (uxPriority x)) ∨ (in_list v i l ∧ itask i ≠ t)
      else (i = EventItem t ∧ l = PendingReadyL) ∨ (in_list v i l ∧ i ≠ EventItem t)) as Hmem.
    { intros i l'. eapply in_list_removed; [apply Hinv| |apply list_fixed; [apply Hinv|set_solver]].
      apply list_ready; [apply Hinv|]. pose proof (ki_prio _ _ _ Hinv _ _ Hx). simpl in *. lia. }
    split; [|exact Hfr|exact HT| |by apply (waiters_eq k' v')| | | | |exact Hb|exact Hpd|exact Htk|].
    + apply (kgood_intro _ v'); [done..|]. intros u p Hp l' Hl1. apply Hmem in Hp, Hl1.
      destruct (uxSchedulerSuspended k =? 0).
      * destruct Hl1 as [[? _]|[Hl1 Hne]]; [done|]. simpl in Hne.
        destruct Hp as [[[= ->] _]|[Hp _]]; [done|]. by eapply Hd.
      * destruct Hp as [[? _]|[Hp _]]; [done|]. destruct Hl1 as [[[= ->] _]|[Hl1 _]]; by eapply Hd.
    + eapply views_kept_ready; [exact Hinv|exact Hinv'|]. intros u p Hp. destruct (decide (u = t)) as [->|Hne].
      * by apply Hd in Hp as Hno; [apply Hno in Hin].
      * exists p. apply Hmem. destruct (uxSchedulerSuspended k =? 0); right; by split.
    + intros l' Hne Hev' Hl2. pose proof (kgood_event_list k v l' Hk Hl2 Hev') as Hevl2.
      pose proof (kg_waiters k v l' Hk Hevl2) as Hw2.
      assert (event_list v' l') as Hevl3.
      { eapply kgood_event_list; [exact Hk1| |done]. by apply Hfr. }
      apply (waiters_eq k' v'); [done|done|]. rewrite Hw2. by eapply removed_others.
    + intros Hz. destruct (ready_any k' v' Hinv' t (uxPriority x)) as [Hr _]; [|done].
      apply Hmem. rewrite Hz. by left.
    + intros Hz. apply (event_in_iff k' v' Hinv'). apply Hmem. destruct (Z.eqb_spec (uxSchedulerSuspended k) 0); [done|by left].
    + intros u Hu%(event_in_iff k v Hinv). apply (event_in_iff k' v' Hinv'), Hmem.
      assert (u ≠ t) as Hne.
      { intros ->. destruct Hevl as (_ & Hnp & _). apply Hnp. by eapply (in_list_unique (ki_rep _ _ _ Hinv)). }
      destruct (uxSchedulerSuspended k =? 0); right; (split; [done|]); [done|congruence].
    + intros u Hne. split; apply option_eq; intros l'.
      * rewrite (state_in_iff k' v' Hinv'), (state_in_iff k v Hinv), (Hmem _ _). destruct (uxSchedulerSuspended k =? 0); naive_solver.
      * rewrite (event_in_iff k' v' Hinv'), (event_in_iff k v Hinv), (Hmem _ _). destruct (uxSchedulerSuspended k =? 0); naive_solver.
Qed.
End kgood.

(** ** What tasks rely on between their steps *)
(** What a step of the others leaves task [t]. *)
Record kenv (t : Z) (k k' : kernel) : Prop := {
  ke_locked : pxCurrentTCB k = Some t → uxSchedulerSuspended k = 1 →
    pxCurrentTCB k' = Some t ∧ uxSchedulerSuspended k' = 1 ∧ (ready k t = true → ready k' t = true);
  ke_running : pxCurrentTCB k' = Some t →
    (uxSchedulerSuspended k' = 0 ∧ ready k' t = true) ∨
    (pxCurrentTCB k = Some t ∧ uxSchedulerSuspended k' = uxSchedulerSuspended k ∧
     (ready k t = true → ready k' t = true) ∧
     (pendsv k = true → uxSchedulerSuspended k = 0 → pendsv k' = true))
}.
Lemma kenv_refl t k : kenv t k k.
Proof. split; [done|by right]. Qed.
(** A step that leaves [t'] running. *)
Lemma kenv_own t t' k k' : pxCurrentTCB k = Some t' → pxCurrentTCB k' = Some t' → t ≠ t' → kenv t k k'.
Proof. intros H H' Hne. split; intros; congruence. Qed.

(** Not in the scheduler lock, and in it. *)
Definition khome (t : Z) (k : kernel) : Prop :=
  pxCurrentTCB k = Some t → uxSchedulerSuspended k = 0 ∧ (pendsv k = true ∨ ready k t = true).
Definition klocked (t : Z) (k : kernel) : Prop :=
  pxCurrentTCB k = Some t ∧ uxSchedulerSuspended k = 1 ∧ ready k t = true.
Lemma khome_stable t k k' : kenv t k k' → khome t k → khome t k'.
Proof.
  intros He Hh Hc. destruct (ke_running _ _ _ He Hc) as [[? ?]|(Hc0 & Hsu & Hr & Hp)]; [auto|].
  destruct (Hh Hc0) as [Hs [?|?]]; (split; [congruence|]); [left|right]; auto.
Qed.
Lemma klocked_stable t k k' : kenv t k k' → klocked t k → klocked t k'.
Proof. intros He (Hc & Hs & Hr). destruct (ke_locked _ _ _ He Hc Hs) as (? & ? & ?). split_and!; auto. Qed.
(** An interrupt that is not the context switch; the context switch. *)
Lemma kenv_irq t k k' : frame k k' → kept_ready k k' → kenv t k k'.
Proof.
  intros [Hf Hsu] Hr. split; rewrite (fr_current _ _ Hf), Hsu.
  - intros ??. split_and!; [done|done|apply Hr].
  - intros ?. right. split_and!; [done|done|apply Hr|]. intros ? _. by apply (fr_pendsv _ _ Hf).
Qed.
Lemma kenv_switch t k k' : kept_ready k k' → uxSchedulerSuspended k' = uxSchedulerSuspended k →
  (if uxSchedulerSuspended k =? 0 then ∃ c, pxCurrentTCB k' = Some c ∧ ready k' c = true
   else pxCurrentTCB k' = pxCurrentTCB k) → kenv t k k'.
Proof.
  intros Hr Hsu Hc. split.
  - intros Hct H1. destruct (Z.eqb_spec (uxSchedulerSuspended k) 0); [lia|]. split_and!; [congruence|congruence|apply Hr].
  - intros Hct. destruct (Z.eqb_spec (uxSchedulerSuspended k) 0) as [Hz|Hnz].
    + destruct Hc as (c & Hc & Hrc). left. split; [congruence|]. by simplify_eq.
    + right. split_and!; [congruence|done|apply Hr|done].
Qed.
