(* ===== verification/Prog.v ===== *)
(** * Programs of atomic steps

    A task runs between two points where the interrupts are enabled in one go:
    the operations of [Tasks] and [Queue] are such atomic steps, in the monad
    [M] of the prelude.  A function that blocks is a program of several steps,
    and between two of them interrupts come in and other tasks run.  This file
    has the programs, their uninterrupted execution, the machine that
    interleaves them, and a program logic in the style of rely and guarantee. *)
From S2P Require Import Prelude.

Section prog.
Context {S : Type}.

(** [Loop body b]: the C loop [for( ; ; )], whose body answers the loop's
    variables for the next turn or the result it returns. *)
Inductive prog : Type → Type :=
| Ret {A} (a : A) : prog A
| Atomic {A} (m : M S A) : prog A
| Bind {A B} (p : prog A) (k : A → prog B) : prog B
| Loop {A B} (body : B → prog (B + A)) (b : B) : prog A.

Definition is_ret {A} (p : prog A) : option A :=
  match p with Ret a => Some a | _ => None end.

(** One step.  Entering a loop and going on after a finished part take a step
    that changes nothing. *)
Fixpoint step {A} (p : prog A) : M S (prog A) :=
  match p with
  | Ret a => retM (Ret a)
  | Atomic m => let* a := m in retM (Ret a)
  | Bind p k =>
      match is_ret p with
      | Some a => retM (k a)
      | None => let* p' := step p in retM (Bind p' k)
      end
  | Loop body b =>
      retM (Bind (body b) (λ r, match r with inl b => Loop body b | inr a => Ret a end))
  end.

(** All steps in a row, each loop with at most [fuel] turns. *)
Fixpoint exec {A} (fuel : nat) (p : prog A) : M S A :=
  match p with
  | Ret a => retM a
  | Atomic m => m
  | Bind p k => let* a := exec fuel p in exec fuel (k a)
  | Loop body b => iterM fuel (λ b, exec fuel (body b)) b
  end.
End prog.
Arguments prog S A : clear implicits.

Notation "'let!' x ':=' p 'in' q" := (Bind p (λ x, q))
  (at level 200, x pattern, p at level 200, q at level 200, right associativity) : rtos_scope.
Notation "p ';!' q" := (Bind p (λ _, q))
  (at level 100, q at level 200, right associativity) : rtos_scope.

(** A program of a part of the state. *)
Fixpoint zoomP {S T A} (get : S → T) (put : T → S → S) (p : prog T A) : prog S A :=
  match p with
  | Ret a => Ret a
  | Atomic m => Atomic (zoom get put m)
  | Bind p k => Bind (zoomP get put p) (λ a, zoomP get put (k a))
  | Loop body b => Loop (λ b, zoomP get put (body b)) b
  end.

(** Rules for uninterrupted executions *)
Lemma wp_exec_ret {S A} fuel (a : A) (Q : A → S → Prop) s : Q a s → wp (exec fuel (Ret a)) Q s.
Proof. apply wp_ret. Qed.
Lemma wp_exec_atomic {S A} fuel (m : M S A) (Q : A → S → Prop) s : wp m Q s → wp (exec fuel (Atomic m)) Q s.
Proof. done. Qed.
Lemma wp_exec_bind {S A B} fuel (p : prog S A) (k : A → prog S B) (Q : B → S → Prop) s :
  wp (exec fuel p) (λ a, wp (exec fuel (k a)) Q) s → wp (exec fuel (Bind p k)) Q s.
Proof. apply wp_bind. Qed.

(** What holds of the program of the part holds of the program of the whole. *)
Lemma wp_exec_zoomP {S T A} (get : S → T) (put : T → S → S) fuel (p : prog T A) :
  (∀ t s, get (put t s) = t) → (∀ t t' s, put t' (put t s) = put t' s) → (∀ s, put (get s) s = s) →
  ∀ (Q : A → S → Prop) s, wp (exec fuel p) (λ a t, Q a (put t s)) (get s) → wp (exec fuel (zoomP get put p)) Q s.
Proof.
  intros Hgp Hpp Hpg. induction p as [A a|A m|A B p IHp k IHk|A B body IHb b]; intros Q s Hw; cbn [exec zoomP] in *.
  - unfold wp, retM in *. by rewrite Hpg in Hw.
  - by apply wp_zoom.
  - apply wp_bind, IHp. unfold wp, bindM in *. destruct (exec fuel p (get s)) as [[a t]| | | |]; [|done..].
    apply IHk. rewrite Hgp. unfold wp. destruct (exec fuel (k a) t) as [[b u]| | | |]; [by rewrite Hpp|done..].
  - assert (∀ n b s, wp (iterM n (λ b, exec fuel (body b)) b) (λ a t, Q a (put t s)) (get s) →
      wp (iterM n (λ b, exec fuel (zoomP get put (body b))) b) Q s) as Hn; [|by apply Hn].
    clear b s Hw. induction n as [|n IH]; intros b s Hw; cbn [iterM] in *; [done|].
    apply wp_bind, IHb. unfold wp, bindM in *. destruct (exec fuel (body b) (get s)) as [[[b'|a] t]| | | |]; [|..|done|done|done|done].
    + apply IH. rewrite Hgp. unfold wp. destruct (iterM _ _ b' t) as [[a u]| | | |]; [by rewrite Hpp|done..].
    + by apply wp_ret.
Qed.

(** An uninterrupted execution is one sequence of steps. *)
Section exec.
Context {S : Type}.

Inductive steps {A} : prog S A → S → prog S A → S → Prop :=
| steps_refl p s : steps p s p s
| steps_step p s p1 s1 p2 s2 : step p s = ROk (p1, s1) → steps p1 s1 p2 s2 → steps p s p2 s2.

Lemma steps_trans {A} (p1 p2 p3 : prog S A) s1 s2 s3 :
  steps p1 s1 p2 s2 → steps p2 s2 p3 s3 → steps p1 s1 p3 s3.
Proof. induction 1; [done|]. intros. econstructor; [done|auto]. Qed.

Lemma steps_bind {A B} (p p' : prog S A) (k : A → prog S B) s s' :
  steps p s p' s' → steps (Bind p k) s (Bind p' k) s'.
Proof.
  induction 1 as [|p s p1 s1 p2 s2 Hp _ IH]; [constructor|].
  destruct (is_ret p) as [a|] eqn:Hr.
  - destruct p; simplify_eq/=. by unfold retM in Hp; simplify_eq.
  - econstructor; [|exact IH]. simpl. rewrite Hr. unfold bindM. by rewrite Hp.
Qed.

Lemma exec_steps {A} (p : prog S A) : ∀ fuel s a s',
  exec fuel p s = ROk (a, s') → steps p s (Ret a) s'.
Proof.
  induction p as [A a|A m|A B p IHp k IHk|A B body IHb b]; intros fuel s x s' He; simpl in He.
  - unfold retM in He. simplify_eq. constructor.
  - econstructor; [|constructor]. simpl. unfold bindM. by rewrite He.
  - unfold bindM in He. destruct (exec fuel p s) as [[a s1]| | | |] eqn:Hp; [|done..].
    eapply steps_trans; [eapply steps_bind, IHp; exact Hp|].
    econstructor; [simpl; reflexivity|]. by eapply IHk.
  - assert (∀ n b s, iterM n (λ b, exec fuel (body b)) b s = ROk (x, s') →
      steps (Loop body b) s (Ret x) s') as Hn; [|by eapply Hn].
    clear b s He. induction n as [|n IH]; intros b s He; simpl in He; [done|].
    econstructor; [simpl; reflexivity|].
    unfold bindM in He. destruct (exec fuel (body b) s) as [[r s1]| | | |] eqn:Hb; [|done..].
    eapply steps_trans; [eapply steps_bind, IHb; exact Hb|].
    econstructor; [simpl; reflexivity|]. destruct r as [b'|a].
    + by apply IH.
    + unfold retM in He. simplify_eq. constructor.
Qed.
(** [reach p s Q]: run without interruption, [p] comes to a state in [Q]. *)
Definition reach {A} (p : prog S A) (s : S) (Q : S → Prop) : Prop := ∃ p' s', steps p s p' s' ∧ Q s'.

Lemma reach_exec {A} fuel (p : prog S A) s (Q : S → Prop) : wp (exec fuel p) (λ _, Q) s → reach p s Q.
Proof. intros (a & s' & He & HQ)%wp_ok. exists (Ret a), s'. split; [by eapply exec_steps|done]. Qed.
Lemma reach_bind {A B} (p : prog S A) (k : A → prog S B) s Q : reach p s Q → reach (Bind p k) s Q.
Proof. intros (p' & s' & Hs & HQ). exists (Bind p' k), s'. split; [by apply steps_bind|done]. Qed.
Lemma reach_seq {A B} fuel (p : prog S A) (k : A → prog S B) s Q :
  wp (exec fuel p) (λ a s', reach (k a) s' Q) s → reach (Bind p k) s Q.
Proof.
  intros (a & s' & He & p' & s2 & Hs & HQ)%wp_ok. exists p', s2. split; [|done].
  eapply steps_trans; [eapply steps_bind, exec_steps, He|]. econstructor; [simpl; reflexivity|done].
Qed.
(** The same with what is left of the program. *)
Definition comes_to {A} (p : prog S A) (s : S) (Q : prog S A → S → Prop) : Prop := ∃ p' s', steps p s p' s' ∧ Q p' s'.
Lemma comes_here {A} (p : prog S A) s (Q : prog S A → S → Prop) : Q p s → comes_to p s Q.
Proof. intros HQ. exists p, s. split; [constructor|done]. Qed.
Lemma comes_seq {A B} fuel (p : prog S A) (k : A → prog S B) s Q :
  wp (exec fuel p) (λ a s', comes_to (k a) s' Q) s → comes_to (Bind p k) s Q.
Proof.
  intros (a & s' & He & p' & s2 & Hs & HQ)%wp_ok. exists p', s2. split; [|done].
  eapply steps_trans; [eapply steps_bind, exec_steps, He|]. econstructor; [simpl; reflexivity|done].
Qed.
Lemma reach_loop {A B} (body : B → prog S (B + A)) b s Q : reach (body b) s Q → reach (Loop body b) s Q.
Proof.
  intros Hr. destruct (reach_bind _ (λ r, match r with inl b => Loop body b | inr a => Ret a end) _ _ Hr) as (p' & s' & Hs & HQ).
  exists p', s'. split; [|done]. econstructor; [simpl; reflexivity|done].
Qed.
End exec.

(** ** The machine

    [runs t s]: task [t] has the processor in [s] and no exception is pending;
    [irq i] is the handler of interrupt [i]. *)
Section machine.
Context {S I C : Type} (runs : Z → S → Prop) (irq : I → M S unit) (irq_enabled : I → S → Prop).
Context (code : C → prog S unit) (call_enabled : Z → C → S → Prop).

(** The state and the function each task is in the middle of. *)
Record conf := mkConf {
  c_state : S;
  c_progs : gmap Z (prog S unit)
}.

(** The task is not in a function. *)
Definition at_rest (c : conf) (t : Z) : Prop :=
  match c_progs c !! t with Some p => is_Some (is_ret p) | None => True end.

Inductive mstep : conf → conf → Prop :=
| ms_call t k c : runs t (c_state c) → at_rest c t → call_enabled t k (c_state c) →
    mstep c (mkConf (c_state c) (<[t := code k]> (c_progs c)))
| ms_task t p p' s' c : runs t (c_state c) → c_progs c !! t = Some p →
    step p (c_state c) = ROk (p', s') → mstep c (mkConf s' (<[t := p']> (c_progs c)))
| ms_irq i s' c : irq_enabled i (c_state c) → irq i (c_state c) = ROk (tt, s') →
    mstep c (mkConf s' (c_progs c)).

(** No step that can be taken fails. *)
Definition no_failure (c : conf) : Prop :=
  (∀ t p, runs t (c_state c) → c_progs c !! t = Some p → ∃ p' s', step p (c_state c) = ROk (p', s')) ∧
  (∀ i, irq_enabled i (c_state c) → ∃ s', irq i (c_state c) = ROk (tt, s')).

(** ** The logic

    [Inv] holds between any two steps; [env t s s'] is what a step of another
    task or an interrupt may do to the facts task [t] relies on; [home t] is
    what holds while [t] is not in a function. *)
Context (Inv : S → Prop) (env : Z → S → S → Prop) (home : Z → S → Prop).

Definition stable (t : Z) (P : S → Prop) : Prop := ∀ s s', Inv s → Inv s' → env t s s' → P s → P s'.
(** What a step of task [t] promises to the others. *)
Definition guar (t : Z) (s s' : S) : Prop := Inv s' ∧ ∀ u, u ≠ t → env u s s'.

(** [safe t p P Q]: task [t] runs [p] from [P] without failure, respecting the
    invariant and the others, and ends in [Q]. *)
Fixpoint safe (t : Z) {A} (p : prog S A) : (S → Prop) → (A → S → Prop) → Prop :=
  match p with
  | Ret a => λ P Q, ∀ s, Inv s → P s → Q a s
  | Atomic m => λ P Q, ∀ s, Inv s → runs t s → P s → wp m (λ a s', guar t s s' ∧ Q a s') s
  | Bind p k => λ P Q, ∃ R, (∀ a, stable t (R a)) ∧ safe t p P R ∧ ∀ a, safe t (k a) (R a) Q
  | Loop body b => λ P Q, ∃ J, (∀ b, stable t (J b)) ∧ (∀ s, Inv s → P s → J b s) ∧
      ∀ b, safe t (body b) (J b) (λ r, match r with inl b' => J b' | inr a => Q a end)
  end.

Lemma safe_pre t {A} (p : prog S A) : ∀ (P P' : S → Prop) Q,
  (∀ s, Inv s → P' s → P s) → safe t p P Q → safe t p P' Q.
Proof.
  clear call_enabled home.
  induction p as [A a|A m|A B p IHp k IHk|A B body IHb b]; intros P P' Q HP; simpl.
  - naive_solver.
  - naive_solver.
  - intros (R & HR & Hp & Hk). exists R. split_and!; [done| |done]. by eapply IHp.
  - intros (J & HJ & Hi & Hb). exists J. split_and!; [done| |done]. naive_solver.
Qed.
Lemma safe_post t {A} (p : prog S A) : ∀ P (Q Q' : A → S → Prop),
  (∀ a s, Inv s → Q a s → Q' a s) → safe t p P Q → safe t p P Q'.
Proof.
  clear call_enabled home.
  induction p as [A a|A m|A B p IHp k IHk|A B body IHb b]; intros P Q Q' HQ; simpl.
  - naive_solver.
  - intros Hm s ???. eapply wp_mono; [by apply Hm|]. intros a s' [Hg ?]. split; [done|].
    apply HQ; [apply Hg|done].
  - intros (R & HR & Hp & Hk). exists R. split_and!; [done..|]. intros a. by eapply IHk.
  - intros (J & HJ & Hi & Hb). exists J. split_and!; [done..|]. intros b'.
    eapply IHb; [|apply Hb]. intros [b''|a] s; simpl; auto.
Qed.

Lemma safe_false t {A} (p : prog S A) : ∀ Q, safe t p (λ _, False) Q.
Proof.
  clear call_enabled home.
  induction p as [A a|A m|A B p IHp k IHk|A B body IHb b]; intros Q; simpl; [done|done| |].
  - exists (λ _ _, False). split_and!; [by intros a s s' _ _ _|auto|auto].
  - exists (λ _ _, False). split_and!; [by intros a s s' _ _ _|done|auto].
Qed.
(** A fact that is not about the state. *)
Lemma safe_pure t {A} (p : prog S A) P (R : Prop) `{Decision R} Q :
  (R → safe t p P Q) → safe t p (λ s, P s ∧ R) Q.
Proof.
  intros HR. destruct (decide R) as [Hr|Hr].
  - eapply safe_pre; [|by apply HR]. by intros s _ [? _].
  - eapply safe_pre; [|apply safe_false]. by intros s _ [_ ?].
Qed.

Context (env_refl : ∀ t s, env t s s).

Lemma safe_step t {A} (p : prog S A) : ∀ P Q s,
  (∀ a, stable t (Q a)) → safe t p P Q → Inv s → runs t s → P s →
  wp (step p) (λ p' s', guar t s s' ∧ ∃ P', stable t P' ∧ P' s' ∧ safe t p' P' Q) s.
Proof.
  induction p as [A a|A m|A B p IHp k IHk|A B body IHb b]; intros P Q s HQ Hsafe Hinv Hrun HP; simpl in *.
  - apply wp_ret. split; [by split; [|intros; apply env_refl]|]. exists (Q a). split_and!; [done|by apply Hsafe|simpl; auto].
  - apply wp_bind. eapply wp_mono; [by apply Hsafe|]. intros a s' [Hg Ha]. apply wp_ret.
    split; [done|]. exists (Q a). split_and!; [done..|simpl; auto].
  - destruct Hsafe as (R & HR & Hp & Hk). destruct (is_ret p) as [a|] eqn:Hret.
    + destruct p; simplify_eq/=. apply wp_ret. split; [by split; [|intros; apply env_refl]|].
      exists (R a). split_and!; [done| |done]. by apply Hp.
    + apply wp_bind. eapply wp_mono; [by eapply (IHp P R)|]. intros p' s' (Hg & P' & HP' & HPs & Hs).
      apply wp_ret. split; [done|]. exists P'. split_and!; [done..|]. by exists R.
  - destruct Hsafe as (J & HJ & Hi & Hb). apply wp_ret.
    split; [by split; [|intros; apply env_refl]|]. exists (J b). split_and!; [done|by apply Hi|].
    exists (λ r, match r with inl b' => J b' | inr a => Q a end). split_and!; [intros [b'|a]; [apply HJ|apply HQ]|apply Hb|].
    intros [b'|a]; simpl; [|auto]. exists J. by split_and!.
Qed.

(** *** Every machine of safe programs is safe *)
Context (home_stable : ∀ t, stable t (home t)).
Context (calls_safe : ∀ t c s, Inv s → runs t s → home t s → call_enabled t c s →
  ∃ P, stable t P ∧ P s ∧ safe t (code c) P (λ _, home t)).
Context (irqs_safe : ∀ i s, Inv s → irq_enabled i s →
  wp (irq i) (λ _ s', Inv s' ∧ ∀ t, env t s s') s).

Definition conf_ok (c : conf) : Prop :=
  Inv (c_state c) ∧ ∀ t,
    match c_progs c !! t with
    | Some p => ∃ P, stable t P ∧ P (c_state c) ∧ safe t p P (λ _, home t)
    | None => home t (c_state c)
    end.

Lemma conf_ok_rest c t : conf_ok c → at_rest c t → home t (c_state c).
Proof.
  intros [Hinv Hc]. unfold at_rest. specialize (Hc t). destruct (c_progs c !! t) as [p|]; [|done].
  destruct Hc as (P & HP & HPs & Hs). intros [[] Hr]. 
  assert (∀ A (p : prog S A) a P Q, is_ret p = Some a → safe t p P Q → ∀ s, Inv s → P s → Q a s) as Hgen.
  { clear. intros A p a P Q Hr. destruct p; simplify_eq/=. auto. }
  by eapply (Hgen _ _ _ _ (λ _, home t)).
Qed.

Lemma conf_ok_step c c' : conf_ok c → mstep c c' → conf_ok c'.
Proof.
  intros Hok Hstep. pose proof Hok as [Hinv Hc].
  destruct Hstep as [t k c Hrun Hrest Hen|t p p' s' c Hrun Hp Hstep|i s' c Hen Hirq].
  - split; [done|]. intros u. simpl. destruct (decide (t = u)) as [<-|Hne].
    + rewrite lookup_insert_eq. apply calls_safe; [done..| |done]. by apply conf_ok_rest.
    + rewrite lookup_insert_ne by done. apply Hc.
  - pose proof (Hc t) as Ht. rewrite Hp in Ht. destruct Ht as (P & HP & HPs & Hs).
    eapply wp_run in Hstep; [|by apply (safe_step t p P (λ _, home t))].
    destruct Hstep as ([Hinv' Henv] & P' & HP' & HPs' & Hs').
    split; [done|]. intros u. simpl. destruct (decide (t = u)) as [<-|Hne].
    + rewrite lookup_insert_eq. by exists P'.
    + rewrite lookup_insert_ne by done. specialize (Hc u). destruct (c_progs c !! u) as [q|].
      * destruct Hc as (R & HR & HRs & Hq). exists R. split_and!; [done| |done].
        eapply HR; [| |by apply Henv|]; done.
      * eapply home_stable; [| |by apply Henv|]; done.
  - eapply wp_run in Hirq; [|by apply irqs_safe]. destruct Hirq as [Hinv' Henv].
    split; [done|]. intros u. simpl. specialize (Hc u). destruct (c_progs c !! u) as [q|].
    + destruct Hc as (R & HR & HRs & Hq). exists R. split_and!; [done| |done].
      eapply HR; [| |by apply Henv|]; done.
    + eapply home_stable; [| |by apply Henv|]; done.
Qed.

Lemma conf_ok_no_failure c : conf_ok c → no_failure c.
Proof.
  intros [Hinv Hc]. split.
  - intros t p Hrun Hp. specialize (Hc t). rewrite Hp in Hc. destruct Hc as (P & HP & HPs & Hs).
    destruct (wp_ok _ _ _ (safe_step t p P (λ _, home t) _ (λ _, home_stable t) Hs Hinv Hrun HPs))
      as (p' & s' & ? & _). eauto.
  - intros i Hen. destruct (wp_ok _ _ _ (irqs_safe _ _ Hinv Hen)) as ([] & s' & ? & _). eauto.
Qed.

(** Some task sees each step as a step of the others. *)
Lemma conf_ok_step_env c c' : conf_ok c → mstep c c' → ∃ u, env u (c_state c) (c_state c').
Proof.
  intros Hok Hstep. pose proof Hok as [Hinv Hc].
  destruct Hstep as [t k c Hrun Hrest Hen|t p p' s' c Hrun Hp Hstep|i s' c Hen Hirq].
  - exists 0. apply env_refl.
  - pose proof (Hc t) as Ht. rewrite Hp in Ht. destruct Ht as (P & HP & HPs & Hs).
    eapply wp_run in Hstep; [|by apply (safe_step t p P (λ _, home t))].
    destruct Hstep as ([_ Henv] & _). exists (t + 1). apply Henv. lia.
  - eapply wp_run in Hirq; [|by apply irqs_safe]. destruct Hirq as [_ Henv]. by exists 0.
Qed.

Lemma machine_safe c c' : conf_ok c → rtc mstep c c' → conf_ok c' ∧ no_failure c'.
Proof.
  intros Hc Hr. induction Hr as [c|c c1 c2 Hs _ IH].
  - split; [done|by apply conf_ok_no_failure].
  - apply IH. by eapply conf_ok_step.
Qed.
End machine.
#[global] Arguments safe : simpl never.
