(* ===== verification/Queue.v ===== *)
(** * Queues, semaphores and mutexes (src/FreeRTOS/Source/queue.c)

    A queue is a circular buffer of fixed-size items with two event lists; a
    semaphore is a queue of items of size 0, a mutex one whose [pcHead] is
    [NULL].  A definition in the monad [QM] is a critical section, or code that
    runs with the scheduler suspended or in an interrupt; a definition of type
    [QP] is a function that can block, as a program of such steps.  A buffer the
    caller passes is the list of its bytes, [None] being [NULL]. *)
From S2P Require Import Prelude KList Tasks Prog.

(** ** State *)

(** [u_0] and [u_1] are the two words of the union [u]: [pcTail] and
    [pcReadFrom] of a queue, [xMutexHolder] and [uxRecursiveCallCount] of a
    mutex.  [q_storage] holds the bytes of the storage area, which starts at the
    address [pcHead] when items have a size.  [NULL] is 0. *)
Record Queue_t := mkQueue {
  pcHead : Z;
  pcWriteTo : Z;
  u_0 : Z;
  u_1 : Z;
  uxMessagesWaiting : Z;
  uxLength : Z;
  uxItemSize : Z;
  cRxLock : Z;
  cTxLock : Z;
  q_ucStaticallyAllocated : Z;
  pxQueueSetContainer : Z;
  uxQueueNumber : Z;
  ucQueueType : Z;
  q_storage : list Z
}.
#[global] Instance eta_Queue : Eta Queue_t := λ q,
  mkQueue (pcHead q) (pcWriteTo q) (u_0 q) (u_1 q) (uxMessagesWaiting q) (uxLength q)
    (uxItemSize q) (cRxLock q) (cTxLock q) (q_ucStaticallyAllocated q) (pxQueueSetContainer q)
    (uxQueueNumber q) (ucQueueType q) (q_storage q).
Abbreviation pcTail := u_0.
Abbreviation pcReadFrom := u_1.
Abbreviation xMutexHolder := u_0.
Abbreviation uxRecursiveCallCount := u_1.
Abbreviation uxQueueType := pcHead.

Record QueueRegistryItem_t := mkRegistryItem {
  pcQueueName : option string;
  xHandle : Z
}.
#[global] Instance eta_RegistryItem : Eta QueueRegistryItem_t := λ r,
  mkRegistryItem (pcQueueName r) (xHandle r).

(** The kernel, the queue objects by address, and the registry. *)
Record qsys := mkQsys {
  q_kernel : kernel;
  q_objs : gmap Z Queue_t;
  xQueueRegistry : list QueueRegistryItem_t
}.
#[global] Instance eta_qsys : Eta qsys := λ s, mkQsys (q_kernel s) (q_objs s) (xQueueRegistry s).

Abbreviation QM := (M qsys).
Abbreviation QP := (prog qsys).

(** ** Constants *)
Definition queueUNLOCKED : Z := -1.
Definition queueLOCKED_UNMODIFIED : Z := 0.
Definition queueINT8_MAX : Z := 127.
Definition queueQUEUE_IS_MUTEX : Z := 0.
Definition queueSEMAPHORE_QUEUE_ITEM_LENGTH : Z := 0.
Definition queueMUTEX_GIVE_BLOCK_TIME : Z := 0.
Definition queueQUEUE_TYPE_BASE : Z := 0.
Definition queueQUEUE_TYPE_MUTEX : Z := 1.
Definition queueQUEUE_TYPE_COUNTING_SEMAPHORE : Z := 2.
Definition queueQUEUE_TYPE_BINARY_SEMAPHORE : Z := 3.
Definition queueQUEUE_TYPE_RECURSIVE_MUTEX : Z := 4.
Definition queueQUEUE_TYPE_SET : Z := 5.
Definition configQUEUE_REGISTRY_SIZE : Z := 10.
Definition SIZE_MAX : Z := 4294967295.
(** [sizeof( Queue_t )] and [sizeof( Queue_t * )] of the 32-bit target *)
Definition sizeof_Queue_t : Z := 84.
Definition sizeof_Queue_ptr : Z := 4.
Inductive copy_position := queueSEND_TO_BACK | queueSEND_TO_FRONT | queueOVERWRITE.
#[global] Instance copy_position_eq_dec : EqDecision copy_position.
Proof. solve_decision. Defined.
Definition is_overwrite (xCopyPosition : copy_position) : bool :=
  bool_decide (xCopyPosition = queueOVERWRITE).

(** ** Access to the state *)

(** An operation of the kernel. *)
Definition ker {A} (m : K A) : QM A := zoom q_kernel (λ k s, s <| q_kernel := k |>) m.
Definition q_get {A} (xQueue : Z) (f : Queue_t → A) : QM A :=
  let* s := getM in derefM (f <$> q_objs s !! xQueue).
Definition q_set (xQueue : Z) (f : Queue_t → Queue_t) : QM unit :=
  let* s := getM in
  match q_objs s !! xQueue with
  | None => faultM
  | Some x => modify (λ s, s <| q_objs ::= <[xQueue := f x]> |>)
  end.
(** [configASSERT( pxQueue )] *)
Definition assert_handle (xQueue : Z) : QM unit := configASSERT (negb (xQueue =? 0)).
(** A task handle in a word of memory, and back. *)
Definition handle_of (t : option Z) : Z := default 0 t.
Definition task_of (w : Z) : option Z := if w =? 0 then None else Some w.

(** [int8_t] arithmetic *)
Definition wrap_int8 (z : Z) : Z := (z + 128) mod 256 - 128.
(** The four bytes of a pointer, and back. *)
Definition ptr_bytes (a : Z) : list Z := [a mod 256; a / 256 mod 256; a / 65536 mod 256; a / 16777216 mod 256].
Definition ptr_of_bytes (bs : list Z) : Z := foldr (λ b a, b + 256 * a) 0 bs.

(** Bytes of the storage area: [memcpy] from and to the address [a]. *)
Definition storage_read (a n : Z) (x : Queue_t) : option (list Z) :=
  let o := a - pcHead x in
  if (0 <=? o) && (o + n <=? Z.of_nat (length (q_storage x)))
  then Some (take (Z.to_nat n) (drop (Z.to_nat o) (q_storage x))) else None.
Definition storage_write (a : Z) (bs : list Z) (x : Queue_t) : option Queue_t :=
  let o := a - pcHead x in
  if (0 <=? o) && (o + Z.of_nat (length bs) <=? Z.of_nat (length (q_storage x)))
  then Some (x <| q_storage ::= list_inserts (Z.to_nat o) bs |>) else None.
Definition memcpy_in (xQueue a n : Z) (pvItem : option (list Z)) : QM unit :=
  let* bs := derefM pvItem in
  if n <=? Z.of_nat (length bs) then
    let* s := getM in
    let* x := derefM (q_objs s !! xQueue ≫= storage_write a (take (Z.to_nat n) bs)) in
    q_set xQueue (λ _, x)
  else faultM.
Definition memcpy_out (xQueue a n : Z) : QM (list Z) :=
  let* s := getM in derefM (q_objs s !! xQueue ≫= storage_read a n).

(** [*pxHigherPriorityTaskWoken = pdTRUE] where the pointer is not [NULL] *)
Definition set_woken (pxHigherPriorityTaskWoken : option bool) : option bool :=
  (λ _, true) <$> pxHigherPriorityTaskWoken.

(** ** The buffer *)

(** Answers whether giving a mutex back needs a context switch. *)
Definition prvCopyDataToQueue (pxQueue : Z) (pvItemToQueue : option (list Z))
    (xPosition : copy_position) : QM bool :=
  let* n := q_get pxQueue uxMessagesWaiting in
  let* size := q_get pxQueue uxItemSize in
  let* (xReturn, n) :=
    (if size =? 0 then
       let* ty := q_get pxQueue uxQueueType in
       if ty =? queueQUEUE_IS_MUTEX then
         let* h := q_get pxQueue xMutexHolder in
         let* xReturn := ker (xTaskPriorityDisinherit (task_of h)) in
         q_set pxQueue (λ x, x <| xMutexHolder := 0 |>) ;>
         retM (xReturn, n)
       else retM (false, n)
     else if bool_decide (xPosition = queueSEND_TO_BACK) then
       let* w := q_get pxQueue pcWriteTo in
       memcpy_in pxQueue w size pvItemToQueue ;>
       q_set pxQueue (λ x, x <| pcWriteTo := wrap32 (w + size) |>) ;>
       let* w := q_get pxQueue pcWriteTo in
       let* tail := q_get pxQueue pcTail in
       (when tail <=? w then q_set pxQueue (λ x, x <| pcWriteTo := pcHead x |>)) ;>
       retM (false, n)
     else
       let* r := q_get pxQueue pcReadFrom in
       memcpy_in pxQueue r size pvItemToQueue ;>
       q_set pxQueue (λ x, x <| pcReadFrom := wrap32 (r - size) |>) ;>
       let* r := q_get pxQueue pcReadFrom in
       let* head := q_get pxQueue pcHead in
       (when r <? head then q_set pxQueue (λ x, x <| pcReadFrom := wrap32 (pcTail x - size) |>)) ;>
       retM (false, if is_overwrite xPosition && (0 <? n) then wrap32 (n - 1) else n)) in
  q_set pxQueue (λ x, x <| uxMessagesWaiting := wrap32 (n + 1) |>) ;>
  retM xReturn.

(** Answers the bytes copied to the caller's buffer. *)
Definition prvCopyDataFromQueue (pxQueue : Z) : QM (list Z) :=
  let* size := q_get pxQueue uxItemSize in
  if negb (size =? 0) then
    q_set pxQueue (λ x, x <| pcReadFrom := wrap32 (pcReadFrom x + size) |>) ;>
    let* r := q_get pxQueue pcReadFrom in
    let* tail := q_get pxQueue pcTail in
    (when tail <=? r then q_set pxQueue (λ x, x <| pcReadFrom := pcHead x |>)) ;>
    let* r := q_get pxQueue pcReadFrom in
    memcpy_out pxQueue r size
  else retM [].

(** ** Locking *)
Definition prvLockQueue (pxQueue : Z) : QM unit :=
  let* r := q_get pxQueue cRxLock in
  (when r =? queueUNLOCKED then q_set pxQueue (λ x, x <| cRxLock := queueLOCKED_UNMODIFIED |>)) ;>
  let* t := q_get pxQueue cTxLock in
  when t =? queueUNLOCKED then q_set pxQueue (λ x, x <| cTxLock := queueLOCKED_UNMODIFIED |>).

Definition prvIncrementQueueTxLock (pxQueue lock : Z) : QM unit :=
  let* uxNumberOfTasks := ker uxTaskGetNumberOfTasks in
  when wrap32 lock <? uxNumberOfTasks then
    (configASSERT (negb (lock =? queueINT8_MAX)) ;>
     q_set pxQueue (λ x, x <| cTxLock := wrap_int8 (lock + 1) |>)).
Definition prvIncrementQueueRxLock (pxQueue lock : Z) : QM unit :=
  let* uxNumberOfTasks := ker uxTaskGetNumberOfTasks in
  when wrap32 lock <? uxNumberOfTasks then
    (configASSERT (negb (lock =? queueINT8_MAX)) ;>
     q_set pxQueue (λ x, x <| cRxLock := wrap_int8 (lock + 1) |>)).

(** Has the list a waiter, and does readying it call for a switch?  The answer is
    [None] when nobody waits. *)
Definition wake_first (pxEventList : lid) : QM (option bool) :=
  let* e := ker (kl (listLIST_IS_EMPTY pxEventList)) in
  if e then retM None
  else let* b := ker (xTaskRemoveFromEventList pxEventList) in retM (Some b).

(** ** Queue sets *)
Definition prvNotifyQueueSetContainer (pxQueue : Z) : QM bool :=
  let* set := q_get pxQueue pxQueueSetContainer in
  configASSERT (negb (set =? 0)) ;>
  let* n := q_get set uxMessagesWaiting in
  let* len := q_get set uxLength in
  configASSERT (n <? len) ;>
  if n <? len then
    let* lock := q_get set cTxLock in
    let* xReturn := prvCopyDataToQueue set (Some (ptr_bytes pxQueue)) queueSEND_TO_BACK in
    if lock =? queueUNLOCKED then
      let* w := wake_first (WaitRecvL set) in
      retM (match w with Some true => true | _ => xReturn end)
    else
      prvIncrementQueueTxLock set lock ;>
      retM xReturn
  else retM false.

(** *** Unlocking: the two loops, [cTxLock] or [cRxLock] times at most *)
Fixpoint unlock_tx (pxQueue : Z) (cTxLock : nat) : QM unit :=
  match cTxLock with
  | O => retM tt
  | S cTxLock =>
      let* set := q_get pxQueue pxQueueSetContainer in
      if negb (set =? 0) then
        let* b := prvNotifyQueueSetContainer pxQueue in
        (when b then ker vTaskMissedYield) ;>
        unlock_tx pxQueue cTxLock
      else
        let* w := wake_first (WaitRecvL pxQueue) in
        match w with
        | Some b => (when b then ker vTaskMissedYield) ;> unlock_tx pxQueue cTxLock
        | None => retM tt
        end
  end.
Fixpoint unlock_rx (pxQueue : Z) (cRxLock : nat) : QM unit :=
  match cRxLock with
  | O => retM tt
  | S cRxLock =>
      let* w := wake_first (WaitSendL pxQueue) in
      match w with
      | Some b => (when b then ker vTaskMissedYield) ;> unlock_rx pxQueue cRxLock
      | None => retM tt
      end
  end.
Definition unlockTx (pxQueue : Z) : QM unit :=
  let* n := q_get pxQueue cTxLock in
  unlock_tx pxQueue (Z.to_nat n) ;>
  q_set pxQueue (λ x, x <| cTxLock := queueUNLOCKED |>).
Definition unlockRx (pxQueue : Z) : QM unit :=
  let* n := q_get pxQueue cRxLock in
  unlock_rx pxQueue (Z.to_nat n) ;>
  q_set pxQueue (λ x, x <| cRxLock := queueUNLOCKED |>).
Definition prvUnlockQueue (pxQueue : Z) : QP unit :=
  Atomic (unlockTx pxQueue) ;! Atomic (unlockRx pxQueue).

(** ** Queries *)
Definition prvIsQueueEmpty (pxQueue : Z) : QM bool :=
  let* n := q_get pxQueue uxMessagesWaiting in retM (n =? 0).
Definition prvIsQueueFull (pxQueue : Z) : QM bool :=
  let* n := q_get pxQueue uxMessagesWaiting in
  let* len := q_get pxQueue uxLength in
  retM (n =? len).
Definition xQueueIsQueueEmptyFromISR (xQueue : Z) : QM bool :=
  assert_handle xQueue ;> prvIsQueueEmpty xQueue.
Definition xQueueIsQueueFullFromISR (xQueue : Z) : QM bool :=
  assert_handle xQueue ;> prvIsQueueFull xQueue.
Definition uxQueueMessagesWaiting (xQueue : Z) : QM Z :=
  assert_handle xQueue ;> q_get xQueue uxMessagesWaiting.
Definition uxQueueMessagesWaitingFromISR (xQueue : Z) : QM Z :=
  assert_handle xQueue ;> q_get xQueue uxMessagesWaiting.
Definition uxQueueSpacesAvailable (xQueue : Z) : QM Z :=
  assert_handle xQueue ;>
  q_get xQueue (λ x, wrap32 (uxLength x - uxMessagesWaiting x)).
Definition uxQueueGetQueueNumber (xQueue : Z) : QM Z := q_get xQueue uxQueueNumber.
Definition vQueueSetQueueNumber (xQueue n : Z) : QM unit := q_set xQueue (λ x, x <| uxQueueNumber := n |>).
Definition ucQueueGetQueueType (xQueue : Z) : QM Z := q_get xQueue ucQueueType.
Definition uxQueueGetQueueItemSize (xQueue : Z) : QM Z := q_get xQueue uxItemSize.
Definition uxQueueGetQueueLength (xQueue : Z) : QM Z := q_get xQueue uxLength.
Definition xQueueGetMutexHolder (xSemaphore : Z) : QM Z :=
  assert_handle xSemaphore ;>
  q_get xSemaphore (λ x, if uxQueueType x =? queueQUEUE_IS_MUTEX then xMutexHolder x else 0).
Definition xQueueGetMutexHolderFromISR (xSemaphore : Z) : QM Z :=
  assert_handle xSemaphore ;>
  q_get xSemaphore (λ x, if uxQueueType x =? queueQUEUE_IS_MUTEX then xMutexHolder x else 0).
Definition prvGetHighestPriorityOfWaitToReceiveList (pxQueue : Z) : QM Z :=
  let* n := ker (kl (listCURRENT_LIST_LENGTH (WaitRecvL pxQueue))) in
  if 0 <? n then
    let* v := ker (kl (listGET_ITEM_VALUE_OF_HEAD_ENTRY (WaitRecvL pxQueue))) in
    retM (wrap32 (configMAX_PRIORITIES - v))
  else retM tskIDLE_PRIORITY.

(** ** Waiting

    The variables of the loops: [None] while [xEntryTimeSet] is false, the ticks
    left and, for a mutex, [xInheritanceOccurred]. *)

(** The first assertions of the functions that may block. *)
Definition assert_may_block (xTicksToWait : Z) : QM unit :=
  let* st := ker xTaskGetSchedulerState in
  configASSERT (negb (match st with taskSCHEDULER_SUSPENDED => true | _ => false end
                      && negb (xTicksToWait =? 0))).
Definition assert_buffer (xQueue : Z) (given : bool) : QM unit :=
  let* size := q_get xQueue uxItemSize in
  configASSERT (negb (negb given && negb (size =? 0))).
Definition given {A} (p : option A) : bool := bool_decide (is_Some p).

(** What the critical section at the head of a loop does when it cannot serve
    the caller: it gives up, or notes the time at the first turn. *)
Definition no_luck {A} (fail : A) (xTimeOut : option TimeOut_t) (xTicksToWait : Z) : QM (TimeOut_t + A) :=
  if xTicksToWait =? 0 then retM (inr fail)
  else
    match xTimeOut with
    | Some t => retM (inl t)
    | None => let* t := ker vTaskInternalSetTimeOutState in retM (inl t)
    end.

(** [if( xTaskRemoveFromEventList( ... ) != pdFALSE ) queueYIELD_IF_USING_PREEMPTION();]
    for a list that may be empty; answers whether somebody waited. *)
Definition wake_and_yield (pxEventList : lid) : QM bool :=
  let* w := wake_first pxEventList in
  (when (match w with Some true => true | _ => false end) then ker portYIELD_WITHIN_API) ;>
  retM (given w).

(** The end of every turn. *)
Definition unlock_and_resume (pxQueue : Z) : QP unit :=
  prvUnlockQueue pxQueue ;!
  let! _ := Atomic (ker xTaskResumeAll) in Ret tt.
Definition unlock_and_block (pxQueue : Z) : QP unit :=
  prvUnlockQueue pxQueue ;!
  let! b := Atomic (ker xTaskResumeAll) in
  if b then Ret tt else Atomic (ker portYIELD_WITHIN_API).

(** ** Sending *)

(** The critical section of [xQueueGenericSend]. *)
Definition send_try (pxQueue : Z) (pvItemToQueue : option (list Z)) (xCopyPosition : copy_position)
    (xTimeOut : option TimeOut_t) (xTicksToWait : Z) : QM (TimeOut_t + bool) :=
  let* n := q_get pxQueue uxMessagesWaiting in
  let* len := q_get pxQueue uxLength in
  if (n <? len) || is_overwrite xCopyPosition then
    let* xYieldRequired := prvCopyDataToQueue pxQueue pvItemToQueue xCopyPosition in
    let* set := q_get pxQueue pxQueueSetContainer in
    (if negb (set =? 0) then
       if is_overwrite xCopyPosition && negb (n =? 0) then retM tt
       else
         let* b := prvNotifyQueueSetContainer pxQueue in
         when b then ker portYIELD_WITHIN_API
     else
       let* woken := wake_and_yield (WaitRecvL pxQueue) in
       when negb woken && xYieldRequired then ker portYIELD_WITHIN_API) ;>
    retM (inr true)
  else no_luck false xTimeOut xTicksToWait.

Definition xQueueGenericSend (xQueue : Z) (pvItemToQueue : option (list Z)) (xTicksToWait : Z)
    (xCopyPosition : copy_position) : QP bool :=
  Atomic (
    assert_handle xQueue ;>
    assert_buffer xQueue (given pvItemToQueue) ;>
    (let* len := q_get xQueue uxLength in
     configASSERT (negb (is_overwrite xCopyPosition && negb (len =? 1)))) ;>
    assert_may_block xTicksToWait) ;!
  Loop (λ '(xTimeOut, xTicksToWait),
    let! r := Atomic (send_try xQueue pvItemToQueue xCopyPosition xTimeOut xTicksToWait) in
    match r with
    | inr xReturn => Ret (inr xReturn)
    | inl xTimeOut =>
        Atomic (ker vTaskSuspendAll) ;!
        Atomic (prvLockQueue xQueue) ;!
        let! (expired, xTimeOut, xTicksToWait) := Atomic (ker (xTaskCheckForTimeOut xTimeOut xTicksToWait)) in
        if negb expired then
          let! full := Atomic (prvIsQueueFull xQueue) in
          if full then
            Atomic (ker (vTaskPlaceOnEventList (WaitSendL xQueue) xTicksToWait)) ;!
            unlock_and_block xQueue ;!
            Ret (inl (Some xTimeOut, xTicksToWait))
          else
            unlock_and_resume xQueue ;!
            Ret (inl (Some xTimeOut, xTicksToWait))
        else
          unlock_and_resume xQueue ;!
          Ret (inr false)
    end) (None, xTicksToWait).

(** Answers [xReturn] and the new [*pxHigherPriorityTaskWoken]. *)
Definition xQueueGenericSendFromISR (xQueue : Z) (pvItemToQueue : option (list Z))
    (pxHigherPriorityTaskWoken : option bool) (xCopyPosition : copy_position) : QM (bool * option bool) :=
  assert_handle xQueue ;>
  assert_buffer xQueue (given pvItemToQueue) ;>
  (let* len := q_get xQueue uxLength in
   configASSERT (negb (is_overwrite xCopyPosition && negb (len =? 1)))) ;>
  let* n := q_get xQueue uxMessagesWaiting in
  let* len := q_get xQueue uxLength in
  if (n <? len) || is_overwrite xCopyPosition then
    let* lock := q_get xQueue cTxLock in
    let* _ := prvCopyDataToQueue xQueue pvItemToQueue xCopyPosition in
    if lock =? queueUNLOCKED then
      let* set := q_get xQueue pxQueueSetContainer in
      if negb (set =? 0) then
        if is_overwrite xCopyPosition && negb (n =? 0) then retM (true, pxHigherPriorityTaskWoken)
        else
          let* b := prvNotifyQueueSetContainer xQueue in
          retM (true, if b then set_woken pxHigherPriorityTaskWoken else pxHigherPriorityTaskWoken)
      else
        let* w := wake_first (WaitRecvL xQueue) in
        retM (true, match w with Some true => set_woken pxHigherPriorityTaskWoken
                            | _ => pxHigherPriorityTaskWoken end)
    else
      prvIncrementQueueTxLock xQueue lock ;>
      retM (true, pxHigherPriorityTaskWoken)
  else retM (false, pxHigherPriorityTaskWoken).

Definition xQueueGiveFromISR (xQueue : Z) (pxHigherPriorityTaskWoken : option bool) : QM (bool * option bool) :=
  assert_handle xQueue ;>
  (let* size := q_get xQueue uxItemSize in configASSERT (size =? 0)) ;>
  (let* ty := q_get xQueue uxQueueType in
   let* h := q_get xQueue xMutexHolder in
   configASSERT (negb ((ty =? queueQUEUE_IS_MUTEX) && negb (h =? 0)))) ;>
  let* n := q_get xQueue uxMessagesWaiting in
  let* len := q_get xQueue uxLength in
  if n <? len then
    let* lock := q_get xQueue cTxLock in
    q_set xQueue (λ x, x <| uxMessagesWaiting := wrap32 (n + 1) |>) ;>
    if lock =? queueUNLOCKED then
      let* set := q_get xQueue pxQueueSetContainer in
      if negb (set =? 0) then
        let* b := prvNotifyQueueSetContainer xQueue in
        retM (true, if b then set_woken pxHigherPriorityTaskWoken else pxHigherPriorityTaskWoken)
      else
        let* w := wake_first (WaitRecvL xQueue) in
        retM (true, match w with Some true => set_woken pxHigherPriorityTaskWoken
                            | _ => pxHigherPriorityTaskWoken end)
    else
      prvIncrementQueueTxLock xQueue lock ;>
      retM (true, pxHigherPriorityTaskWoken)
  else retM (false, pxHigherPriorityTaskWoken).

(** ** Receiving: the result is the contents of [pvBuffer], [None] for
    [errQUEUE_EMPTY]; [buffer] tells whether [pvBuffer] is not [NULL] *)

Definition receive_try (pxQueue : Z) (xTimeOut : option TimeOut_t) (xTicksToWait : Z)
    : QM (TimeOut_t + option (list Z)) :=
  let* n := q_get pxQueue uxMessagesWaiting in
  if 0 <? n then
    let* bs := prvCopyDataFromQueue pxQueue in
    q_set pxQueue (λ x, x <| uxMessagesWaiting := wrap32 (n - 1) |>) ;>
    let* _ := wake_and_yield (WaitSendL pxQueue) in
    retM (inr (Some bs))
  else no_luck None xTimeOut xTicksToWait.

(** The message stays in the queue. *)
Definition peek_try (pxQueue : Z) (xTimeOut : option TimeOut_t) (xTicksToWait : Z)
    : QM (TimeOut_t + option (list Z)) :=
  let* n := q_get pxQueue uxMessagesWaiting in
  if 0 <? n then
    let* pcOriginalReadPosition := q_get pxQueue pcReadFrom in
    let* bs := prvCopyDataFromQueue pxQueue in
    q_set pxQueue (λ x, x <| pcReadFrom := pcOriginalReadPosition |>) ;>
    let* _ := wake_and_yield (WaitRecvL pxQueue) in
    retM (inr (Some bs))
  else no_luck None xTimeOut xTicksToWait.

(** The loop of [xQueueReceive] and [xQueuePeek], which differ in the critical
    section at its head only. *)
Definition receive_loop (xQueue : Z)
    (try : option TimeOut_t → Z → QM (TimeOut_t + option (list Z))) : option TimeOut_t * Z → 
    QP ((option TimeOut_t * Z) + option (list Z)) :=
  λ '(xTimeOut, xTicksToWait),
    let! r := Atomic (try xTimeOut xTicksToWait) in
    match r with
    | inr xReturn => Ret (inr xReturn)
    | inl xTimeOut =>
        Atomic (ker vTaskSuspendAll) ;!
        Atomic (prvLockQueue xQueue) ;!
        let! (expired, xTimeOut, xTicksToWait) := Atomic (ker (xTaskCheckForTimeOut xTimeOut xTicksToWait)) in
        if negb expired then
          let! empty := Atomic (prvIsQueueEmpty xQueue) in
          if empty then
            Atomic (ker (vTaskPlaceOnEventList (WaitRecvL xQueue) xTicksToWait)) ;!
            unlock_and_block xQueue ;!
            Ret (inl (Some xTimeOut, xTicksToWait))
          else
            unlock_and_resume xQueue ;!
            Ret (inl (Some xTimeOut, xTicksToWait))
        else
          unlock_and_resume xQueue ;!
          let! empty := Atomic (prvIsQueueEmpty xQueue) in
          Ret (if empty then inr None else inl (Some xTimeOut, xTicksToWait))
    end.

Definition xQueueReceive (xQueue : Z) (buffer : bool) (xTicksToWait : Z) : QP (option (list Z)) :=
  Atomic (
    assert_handle xQueue ;>
    assert_buffer xQueue buffer ;>
    assert_may_block xTicksToWait) ;!
  Loop (receive_loop xQueue (receive_try xQueue)) (None, xTicksToWait).

Definition xQueuePeek (xQueue : Z) (buffer : bool) (xTicksToWait : Z) : QP (option (list Z)) :=
  Atomic (
    assert_handle xQueue ;>
    assert_buffer xQueue buffer ;>
    assert_may_block xTicksToWait) ;!
  Loop (receive_loop xQueue (peek_try xQueue)) (None, xTicksToWait).

Definition xQueueReceiveFromISR (xQueue : Z) (buffer : bool) (pxHigherPriorityTaskWoken : option bool)
    : QM (option (list Z) * option bool) :=
  assert_handle xQueue ;>
  assert_buffer xQueue buffer ;>
  let* n := q_get xQueue uxMessagesWaiting in
  if 0 <? n then
    let* lock := q_get xQueue cRxLock in
    let* bs := prvCopyDataFromQueue xQueue in
    q_set xQueue (λ x, x <| uxMessagesWaiting := wrap32 (n - 1) |>) ;>
    if lock =? queueUNLOCKED then
      let* w := wake_first (WaitSendL xQueue) in
      retM (Some bs, match w with Some true => set_woken pxHigherPriorityTaskWoken
                             | _ => pxHigherPriorityTaskWoken end)
    else
      prvIncrementQueueRxLock xQueue lock ;>
      retM (Some bs, pxHigherPriorityTaskWoken)
  else retM (None, pxHigherPriorityTaskWoken).

Definition xQueuePeekFromISR (xQueue : Z) (buffer : bool) : QM (option (list Z)) :=
  assert_handle xQueue ;>
  assert_buffer xQueue buffer ;>
  (let* size := q_get xQueue uxItemSize in configASSERT (negb (size =? 0))) ;>
  let* n := q_get xQueue uxMessagesWaiting in
  if 0 <? n then
    let* pcOriginalReadPosition := q_get xQueue pcReadFrom in
    let* bs := prvCopyDataFromQueue xQueue in
    q_set xQueue (λ x, x <| pcReadFrom := pcOriginalReadPosition |>) ;>
    retM (Some bs)
  else retM None.

(** ** Semaphores and mutexes *)

Definition take_try (pxQueue : Z) (xTimeOut : option TimeOut_t) (xTicksToWait : Z) : QM (TimeOut_t + bool) :=
  let* n := q_get pxQueue uxMessagesWaiting in
  if 0 <? n then
    q_set pxQueue (λ x, x <| uxMessagesWaiting := wrap32 (n - 1) |>) ;>
    let* ty := q_get pxQueue uxQueueType in
    (when ty =? queueQUEUE_IS_MUTEX then
       let* h := ker pvTaskIncrementMutexHeldCount in
       q_set pxQueue (λ x, x <| xMutexHolder := handle_of h |>)) ;>
    let* _ := wake_and_yield (WaitSendL pxQueue) in
    retM (inr true)
  else no_luck false xTimeOut xTicksToWait.

(** The holder of the mutex inherits the caller's priority. *)
Definition take_inherit (pxQueue : Z) : QM bool :=
  let* h := q_get pxQueue xMutexHolder in
  ker (xTaskPriorityInherit (task_of h)).
Definition take_disinherit (pxQueue : Z) : QM unit :=
  let* p := prvGetHighestPriorityOfWaitToReceiveList pxQueue in
  let* h := q_get pxQueue xMutexHolder in
  ker (vTaskPriorityDisinheritAfterTimeout (task_of h) p).

Definition xQueueSemaphoreTake (xQueue : Z) (xTicksToWait : Z) : QP bool :=
  Atomic (
    assert_handle xQueue ;>
    (let* size := q_get xQueue uxItemSize in configASSERT (size =? 0)) ;>
    assert_may_block xTicksToWait) ;!
  Loop (λ '(xTimeOut, xTicksToWait, xInheritanceOccurred),
    let! r := Atomic (take_try xQueue xTimeOut xTicksToWait) in
    match r with
    | inr xReturn => Ret (inr xReturn)
    | inl xTimeOut =>
        Atomic (ker vTaskSuspendAll) ;!
        Atomic (prvLockQueue xQueue) ;!
        let! (expired, xTimeOut, xTicksToWait) := Atomic (ker (xTaskCheckForTimeOut xTimeOut xTicksToWait)) in
        if negb expired then
          let! empty := Atomic (prvIsQueueEmpty xQueue) in
          if empty then
            let! ty := Atomic (q_get xQueue uxQueueType) in
            let! xInheritanceOccurred :=
              if ty =? queueQUEUE_IS_MUTEX then Atomic (take_inherit xQueue) else Ret xInheritanceOccurred in
            Atomic (ker (vTaskPlaceOnEventList (WaitRecvL xQueue) xTicksToWait)) ;!
            unlock_and_block xQueue ;!
            Ret (inl (Some xTimeOut, xTicksToWait, xInheritanceOccurred))
          else
            unlock_and_resume xQueue ;!
            Ret (inl (Some xTimeOut, xTicksToWait, xInheritanceOccurred))
        else
          unlock_and_resume xQueue ;!
          let! empty := Atomic (prvIsQueueEmpty xQueue) in
          if empty then
            (if xInheritanceOccurred then Atomic (take_disinherit xQueue) else Ret tt) ;!
            Ret (inr false)
          else Ret (inl (Some xTimeOut, xTicksToWait, xInheritanceOccurred))
    end) (None, xTicksToWait, false).

(** [pxMutex->u.xSemaphore.xMutexHolder == xTaskGetCurrentTaskHandle()] *)
Definition holds_mutex (pxMutex : Z) : QM bool :=
  let* h := q_get pxMutex xMutexHolder in
  let* c := ker xTaskGetCurrentTaskHandle in
  retM (h =? handle_of c).
Definition count_up (pxMutex : Z) : QM unit :=
  q_set pxMutex (λ x, x <| uxRecursiveCallCount := wrap32 (uxRecursiveCallCount x + 1) |>) ;>
  let* n := q_get pxMutex uxRecursiveCallCount in
  configASSERT (negb (n =? 0)).
Definition count_down (pxMutex : Z) : QM Z :=
  q_set pxMutex (λ x, x <| uxRecursiveCallCount := wrap32 (uxRecursiveCallCount x - 1) |>) ;>
  q_get pxMutex uxRecursiveCallCount.

Definition xQueueTakeMutexRecursive (xMutex : Z) (xTicksToWait : Z) : QP bool :=
  let! mine := Atomic (assert_handle xMutex ;> holds_mutex xMutex) in
  if mine then Atomic (count_up xMutex) ;! Ret true
  else
    let! xReturn := xQueueSemaphoreTake xMutex xTicksToWait in
    if xReturn then Atomic (count_up xMutex) ;! Ret true else Ret false.

Definition xQueueGiveMutexRecursive (xMutex : Z) : QP bool :=
  let! mine := Atomic (assert_handle xMutex ;> holds_mutex xMutex) in
  if mine then
    let! n := Atomic (count_down xMutex) in
    if n =? 0 then
      let! _ := xQueueGenericSend xMutex None queueMUTEX_GIVE_BLOCK_TIME queueSEND_TO_BACK in Ret true
    else Ret true
  else Ret false.
