(* ===== verification/QueueData.v ===== *)
(** * The contents of a queue

    The circular buffer of a queue as a list of messages: what the copying
    functions of queue.c do to the list, and the well-formedness they keep. *)
From S2P Require Import Prelude KList Tasks TasksInv Prog Queue.
From Stdlib Require Import ZifyBool.

(** ** Arithmetic on the slots of a ring *)
Lemma mod_next a l : 0 < l → (a + 1) mod l = if a mod l + 1 =? l then 0 else a mod l + 1.
Proof.
  intros Hl. pose proof (Z.mod_pos_bound a l Hl) as Hb. rewrite <- Zplus_mod_idemp_l.
  destruct (Z.eqb_spec (a mod l + 1) l) as [->|Hne]; [by apply Z.mod_same; lia|].
  apply Z.mod_small. lia.
Qed.
Lemma mod_differ a i j l : 0 ≤ i < l → 0 ≤ j < l → (a + i) mod l = (a + j) mod l → i = j.
Proof.
  intros Hi Hj He. assert (0 < l) as Hl by lia.
  pose proof (Z.div_mod (a + i) l ltac:(lia)) as H1. pose proof (Z.div_mod (a + j) l ltac:(lia)) as H2.
  rewrite He in H1. assert (i - j = l * ((a + i) / l - (a + j) / l)) as Hd by lia.
  assert ((a + i) / l = (a + j) / l); nia.
Qed.

(** ** Chunks of the storage *)
Definition chunk (n : nat) (st : list Z) (i : nat) : list Z := take n (drop (i * n) st).

Lemma inserts_app (k : nat) (bs l : list Z) :
  (k + length bs ≤ length l)%nat → list_inserts k bs l = take k l ++ bs ++ drop (k + length bs) l.
Proof.
  revert k l. induction bs as [|b bs IH]; intros k l Hl; simpl in *.
  - by rewrite Nat.add_0_r, take_drop.
  - rewrite IH by lia. rewrite insert_take_drop by (rewrite !length_app, length_take, length_drop; lia).
    rewrite take_app_le by (rewrite length_take; lia). rewrite take_take.
    replace (k `min` S k)%nat with k by lia. f_equal. f_equal.
    rewrite drop_app_ge by (rewrite length_take; lia). rewrite length_take.
    replace (S k - S k `min` length l)%nat with 0%nat by lia. rewrite drop_0. do 2 f_equal. lia.
Qed.
Lemma length_chunk n st i : ((i + 1) * n ≤ length st)%nat → length (chunk n st i) = n.
Proof. intros H. unfold chunk. rewrite length_take, length_drop. nia. Qed.
Lemma chunk_inserts n st bs i w :
  length bs = n → ((w + 1) * n ≤ length st)%nat →
  chunk n (list_inserts (w * n) bs st) i = if decide (i = w) then bs else chunk n st i.
Proof.
  intros Hbs Hw. unfold chunk. rewrite inserts_app by nia. rewrite Hbs.
  destruct (decide (i = w)) as [->|Hne].
  - rewrite drop_app_length' by (rewrite length_take; nia). by rewrite take_app_length'.
  - destruct (decide (i < w)%nat).
    + rewrite drop_app_le by (rewrite length_take; nia).
      rewrite take_app_le by (rewrite length_drop, length_take; nia).
      rewrite !take_drop_commute, take_take. do 2 f_equal. nia.
    + rewrite drop_app_ge by (rewrite length_take; nia). rewrite length_take.
      rewrite drop_app_ge by nia. rewrite drop_drop. f_equal. f_equal. nia.
Qed.

(** ** Well-formed queues *)

(** What never changes after creation: a mutex stays a mutex. *)
Definition is_mutex (x : Queue_t) : bool := (uxItemSize x =? 0) && (uxQueueType x =? queueQUEUE_IS_MUTEX).
Record same_queue (x x' : Queue_t) : Prop := {
  sq_size : uxItemSize x' = uxItemSize x;
  sq_length : uxLength x' = uxLength x;
  sq_head : pcHead x' = pcHead x;
  sq_set : pxQueueSetContainer x' = pxQueueSetContainer x;
  sq_static : q_ucStaticallyAllocated x' = q_ucStaticallyAllocated x
}.
#[export] Instance same_queue_refl : Reflexive same_queue.
Proof. by intros x. Qed.
#[export] Instance same_queue_trans : Transitive same_queue.
Proof. intros x y z [] []. split; congruence. Qed.

(** The buffer of a queue whose items have a size; [r] and [w] are the slots
    [pcReadFrom] and [pcWriteTo] point to: the next message to read is in the
    slot after [r]. *)
Record ring_buffer (x : Queue_t) (r w : Z) : Prop := {
  rb_size : 0 < uxItemSize x;
  rb_area : Z.of_nat (length (q_storage x)) = uxLength x * uxItemSize x;
  rb_head : uxItemSize x ≤ pcHead x ∧ pcHead x + uxLength x * uxItemSize x + uxItemSize x < MAX32;
  rb_tail : pcTail x = pcHead x + uxLength x * uxItemSize x;
  rb_read : 0 ≤ r < uxLength x ∧ pcReadFrom x = pcHead x + r * uxItemSize x;
  rb_write : 0 ≤ w < uxLength x ∧ pcWriteTo x = pcHead x + w * uxItemSize x;
  rb_ring : (r + 1 + uxMessagesWaiting x) mod uxLength x = w
}.

Record queue_wf (x : Queue_t) : Prop := {
  qw_length : 0 < uxLength x < MAX32;
  qw_count : 0 ≤ uxMessagesWaiting x ≤ uxLength x;
  qw_rx : -1 ≤ cRxLock x ≤ 127;
  qw_tx : -1 ≤ cTxLock x ≤ 127;
  qw_buffer : if uxItemSize x =? 0 then 0 ≤ pcHead x < MAX32 else ∃ r w, ring_buffer x r w;
  qw_mutex : is_mutex x = true → uxLength x = 1 ∧ 0 ≤ uxRecursiveCallCount x < MAX32
}.

(** The messages, the next one to read first. *)
Definition slot (x : Queue_t) (r : Z) (i : nat) : nat := Z.to_nat ((r + 1 + Z.of_nat i) mod uxLength x).
Definition messages_from (x : Queue_t) (r : Z) : list (list Z) :=
  (λ i, chunk (Z.to_nat (uxItemSize x)) (q_storage x) (slot x r i)) <$> seq 0 (Z.to_nat (uxMessagesWaiting x)).
Definition messages (x : Queue_t) : list (list Z) :=
  if uxItemSize x =? 0 then replicate (Z.to_nat (uxMessagesWaiting x)) []
  else messages_from x ((pcReadFrom x - pcHead x) / uxItemSize x).

Lemma length_messages x : length (messages x) = Z.to_nat (uxMessagesWaiting x).
Proof.
  unfold messages, messages_from. destruct (_ =? 0); [by rewrite length_replicate|].
  by rewrite length_fmap, length_seq.
Qed.
Lemma messages_ring x r w : ring_buffer x r w → messages x = messages_from x r.
Proof.
  intros H. pose proof (rb_size _ _ _ H) as Hs. destruct (rb_read _ _ _ H) as [Hr He]. unfold messages.
  destruct (Z.eqb_spec (uxItemSize x) 0); [lia|]. rewrite He.
  replace (pcHead x + r * uxItemSize x - pcHead x) with (r * uxItemSize x) by lia. by rewrite Z.div_mul.
Qed.

(** ** The new buffer after each operation *)
Definition next_slot (x : Queue_t) (i : Z) : Z := if i + 1 =? uxLength x then 0 else i + 1.
Definition prev_slot (x : Queue_t) (i : Z) : Z := if i =? 0 then uxLength x - 1 else i - 1.

Section buffer.
Context (x : Queue_t) (r w : Z) (Hx : ring_buffer x r w).
Context (Hlen : 0 < uxLength x < MAX32) (Hn : 0 ≤ uxMessagesWaiting x ≤ uxLength x).

Lemma slot_lt i : (slot x r i < Z.to_nat (uxLength x))%nat.
Proof. unfold slot. pose proof (Z.mod_pos_bound (r + 1 + Z.of_nat i) (uxLength x)). lia. Qed.
Lemma slot_fits i : (i < Z.to_nat (uxLength x))%nat →
  ((i + 1) * Z.to_nat (uxItemSize x) ≤ length (q_storage x))%nat.
Proof. pose proof (rb_area _ _ _ Hx). pose proof (rb_size _ _ _ Hx). nia. Qed.
Lemma write_slot : w = Z.of_nat (slot x r (Z.to_nat (uxMessagesWaiting x))).
Proof.
  unfold slot. rewrite (Z2Nat.id (uxMessagesWaiting x)) by lia. rewrite (rb_ring _ _ _ Hx).
  pose proof (rb_write _ _ _ Hx). rewrite Z2Nat.id; lia.
Qed.
Lemma slot_inj i j : (i < Z.to_nat (uxLength x))%nat → (j < Z.to_nat (uxLength x))%nat →
  slot x r i = slot x r j → i = j.
Proof.
  unfold slot. intros Hi Hj He.
  pose proof (Z.mod_pos_bound (r + 1 + Z.of_nat i) (uxLength x)).
  pose proof (Z.mod_pos_bound (r + 1 + Z.of_nat j) (uxLength x)).
  apply Nat2Z.inj, (mod_differ (r + 1) _ _ (uxLength x)); lia.
Qed.

Definition put_back (bs : list Z) : Queue_t :=
  x <| q_storage ::= list_inserts (Z.to_nat (w * uxItemSize x)) bs |>
    <| pcWriteTo := pcHead x + next_slot x w * uxItemSize x |>
    <| uxMessagesWaiting := uxMessagesWaiting x + 1 |>.
Definition put_front (bs : list Z) (n : Z) : Queue_t :=
  x <| q_storage ::= list_inserts (Z.to_nat (r * uxItemSize x)) bs |>
    <| pcReadFrom := pcHead x + prev_slot x r * uxItemSize x |>
    <| uxMessagesWaiting := n |>.
Definition take_front : Queue_t :=
  x <| pcReadFrom := pcHead x + next_slot x r * uxItemSize x |>
    <| uxMessagesWaiting := uxMessagesWaiting x - 1 |>.

Lemma slot_prev i : slot x (prev_slot x r) (S i) = slot x r i.
Proof.
  unfold slot, prev_slot. f_equal. destruct (Z.eqb_spec r 0) as [->|].
  - replace (uxLength x - 1 + 1 + Z.of_nat (S i)) with (0 + 1 + Z.of_nat i + 1 * uxLength x) by lia.
    apply Z.mod_add. lia.
  - f_equal. lia.
Qed.
Lemma slot_prev_0 : Z.of_nat (slot x (prev_slot x r) 0) = r.
Proof.
  pose proof (rb_read _ _ _ Hx). unfold slot, prev_slot. destruct (Z.eqb_spec r 0) as [->|].
  - replace (uxLength x - 1 + 1 + Z.of_nat 0) with (0 + 1 * uxLength x) by lia.
    rewrite Z.mod_add, Z.mod_small by lia. lia.
  - rewrite Z.mod_small by lia. lia.
Qed.
Lemma slot_next i : slot x (next_slot x r) i = slot x r (S i).
Proof.
  unfold slot, next_slot. f_equal. destruct (Z.eqb_spec (r + 1) (uxLength x)).
  - replace (r + 1 + Z.of_nat (S i)) with (0 + 1 + Z.of_nat i + 1 * uxLength x) by lia.
    symmetry. apply Z.mod_add. lia.
  - f_equal. lia.
Qed.
Lemma slot_0 : Z.of_nat (slot x r 0) = next_slot x r.
Proof.
  pose proof (rb_read _ _ _ Hx). unfold slot, next_slot. rewrite Z.add_0_r, mod_next by lia.
  rewrite Z.mod_small by lia. destruct (r + 1 =? uxLength x) eqn:?; lia.
Qed.

Lemma put_back_ring bs :
  uxMessagesWaiting x < uxLength x → Z.of_nat (length bs) = uxItemSize x →
  ring_buffer (put_back bs) r (next_slot x w) ∧
  messages_from (put_back bs) r = messages_from x r ++ [bs].
Proof.
  intros Hroom Hbs. pose proof write_slot as Hw. destruct Hx as [Hs Ha Hh Ht Hr Hwr Hring]. split.
  - split; simpl; try done.
    + rewrite length_inserts. done.
    + split; [unfold next_slot; destruct (w + 1 =? uxLength x) eqn:?; lia|done].
    + rewrite Z.add_assoc, mod_next, Hring by lia. done.
  - unfold messages_from. simpl. rewrite Z2Nat.inj_add by lia.
    replace (Z.to_nat 1) with 1%nat by done. rewrite seq_app, fmap_app. simpl. f_equal; [|f_equal].
    + apply list_fmap_ext. intros k i Hi%lookup_seq. destruct Hi as [-> Hi].
      replace (Z.to_nat (w * uxItemSize x)) with (Z.to_nat w * Z.to_nat (uxItemSize x))%nat by nia.
      rewrite chunk_inserts; [|lia|apply slot_fits; lia]. rewrite decide_False; [done|].
      change (slot (put_back bs)) with (slot x). simpl. intros Heq.
      assert (k = Z.to_nat (uxMessagesWaiting x)); [apply slot_inj|]; lia.
    + replace (Z.to_nat (w * uxItemSize x)) with (Z.to_nat w * Z.to_nat (uxItemSize x))%nat by nia.
      rewrite chunk_inserts; [|lia|apply slot_fits; lia]. rewrite decide_True; [done|].
      change (slot (put_back bs)) with (slot x). lia.
Qed.

Lemma put_front_ring bs :
  uxMessagesWaiting x < uxLength x → Z.of_nat (length bs) = uxItemSize x →
  let x' := put_front bs (uxMessagesWaiting x + 1) in
  ring_buffer x' (prev_slot x r) w ∧ messages_from x' (prev_slot x r) = bs :: messages_from x r.
Proof.
  intros Hroom Hbs. pose proof slot_prev_0 as Hp0. destruct Hx as [Hs Ha Hh Ht Hr Hwr Hring]. split.
  - split; simpl; try done.
    + rewrite length_inserts. done.
    + split; [unfold prev_slot; destruct (r =? 0) eqn:?; lia|done].
    + rewrite <- Hring. unfold prev_slot. destruct (Z.eqb_spec r 0) as [->|].
      * replace (uxLength x - 1 + 1 + (uxMessagesWaiting x + 1))
          with (0 + 1 + uxMessagesWaiting x + 1 * uxLength x) by lia.
        apply Z.mod_add. lia.
      * f_equal. lia.
  - unfold messages_from. simpl. rewrite Z2Nat.inj_add by lia.
    replace (Z.to_nat 1) with 1%nat by done. rewrite Nat.add_1_r. simpl.
    replace (Z.to_nat (r * uxItemSize x)) with (Z.to_nat r * Z.to_nat (uxItemSize x))%nat by nia.
    change (slot (put_front bs (uxMessagesWaiting x + 1))) with (slot x). f_equal.
    + rewrite chunk_inserts; [|lia|apply slot_fits; lia]. rewrite decide_True; [done|lia].
    + rewrite <- fmap_S_seq, <- list_fmap_compose. apply list_fmap_ext.
      intros k i Hi%lookup_seq. destruct Hi as [-> Hi]. simpl. rewrite slot_prev.
      rewrite chunk_inserts; [|lia|apply slot_fits; lia]. rewrite decide_False; [done|].
      rewrite <- slot_prev. intros Heq. assert (slot x (prev_slot x r) 0 = Z.to_nat r) as H0 by lia.
      rewrite <- H0 in Heq. unfold slot in Heq.
      pose proof (Z.mod_pos_bound (prev_slot x r + 1 + Z.of_nat (S k)) (uxLength x)).
      pose proof (Z.mod_pos_bound (prev_slot x r + 1 + Z.of_nat 0) (uxLength x)).
      enough (Z.of_nat (S k) = Z.of_nat 0) by lia.
      apply (mod_differ (prev_slot x r + 1) _ _ (uxLength x)); lia.
Qed.

(** Overwriting is for queues of one message. *)
Lemma overwrite_ring bs :
  uxLength x = 1 → Z.of_nat (length bs) = uxItemSize x →
  ring_buffer (put_front bs 1) (prev_slot x r) w ∧ messages_from (put_front bs 1) (prev_slot x r) = [bs].
Proof.
  intros Hl Hbs. destruct Hx as [Hs Ha Hh Ht Hr Hwr Hring].
  assert (prev_slot x r = 0) as Hp by (unfold prev_slot; destruct (r =? 0) eqn:?; lia).
  assert (r = 0 ∧ w = 0) as [Hr0 Hw0] by lia. split.
  - rewrite Hl in Ha, Hh, Ht. rewrite Hp.
    split; simpl; rewrite ?length_inserts, ?Hp, ?Hl, ?Z.mod_1_r; lia.
  - unfold messages_from. simpl. rewrite Hp. unfold slot. simpl. rewrite Hl, Z.mod_1_r. f_equal.
    rewrite Hr0. apply (chunk_inserts _ _ _ 0 0); [lia|]. rewrite Hl in Ha. lia.
Qed.

Lemma take_front_ring :
  0 < uxMessagesWaiting x →
  ring_buffer take_front (next_slot x r) w ∧
  messages_from x r =
    chunk (Z.to_nat (uxItemSize x)) (q_storage x) (Z.to_nat (next_slot x r))
      :: messages_from take_front (next_slot x r).
Proof.
  intros Hpos. pose proof slot_0 as H0. destruct Hx as [Hs Ha Hh Ht Hr Hwr Hring]. split.
  - split; simpl; try done.
    + split; [unfold next_slot; destruct (r + 1 =? uxLength x) eqn:?; lia|done].
    + rewrite <- Hring. unfold next_slot. destruct (Z.eqb_spec (r + 1) (uxLength x)) as [He|].
      * rewrite He. replace (uxLength x + uxMessagesWaiting x)
          with (0 + 1 + (uxMessagesWaiting x - 1) + 1 * uxLength x) by lia.
        symmetry. apply Z.mod_add. lia.
      * f_equal. lia.
  - unfold messages_from. simpl.
    replace (Z.to_nat (uxMessagesWaiting x)) with (S (Z.to_nat (uxMessagesWaiting x - 1))) by lia.
    simpl. f_equal; [f_equal; lia|].
    rewrite <- fmap_S_seq, <- list_fmap_compose. apply list_fmap_ext.
    intros k i Hi. simpl. change (slot take_front) with (slot x). by rewrite slot_next.
Qed.
End buffer.

(** ** Rules for access to the state

    A state is written [mkQsys k (<[q := x]> O) reg]: the object of interest
    stands in front. *)
Section access.
Context (k : kernel) (O : gmap Z Queue_t) (reg : list QueueRegistryItem_t).

Lemma wp_ker {A} (m : K A) (Q : A → qsys → Prop) :
  wp m (λ a k', Q a (mkQsys k' O reg)) k → wp (ker m) Q (mkQsys k O reg).
Proof. intros Hm. by apply (wp_zoom q_kernel). Qed.
Lemma wp_q_get {A} q x (f : Queue_t → A) Q :
  O !! q = Some x → Q (f x) (mkQsys k O reg) → wp (q_get q f) Q (mkQsys k O reg).
Proof. intros Hx HQ. unfold q_get, wp, bindM, getM, derefM. simpl. by rewrite Hx. Qed.
Lemma wp_q_set q x f Q :
  O !! q = Some x → Q tt (mkQsys k (<[q := f x]> O) reg) → wp (q_set q f) Q (mkQsys k O reg).
Proof. intros Hx HQ. unfold q_set, wp, bindM, getM. simpl. by rewrite Hx. Qed.

Context (q : Z) (x : Queue_t).
Lemma wp_get_front {A} (f : Queue_t → A) Q :
  Q (f x) (mkQsys k (<[q := x]> O) reg) → wp (q_get q f) Q (mkQsys k (<[q := x]> O) reg).
Proof. intros HQ. unfold q_get, wp, bindM, getM, derefM. simpl. by rewrite lookup_insert_eq. Qed.
Lemma wp_set_front f Q :
  Q tt (mkQsys k (<[q := f x]> O) reg) → wp (q_set q f) Q (mkQsys k (<[q := x]> O) reg).
Proof. 
  intros HQ. unfold q_set, wp, bindM, getM, modify, set_field. simpl.
  rewrite lookup_insert_eq. simpl. by rewrite insert_insert_eq.
Qed.
Lemma wp_write_front a n bs Q :
  0 ≤ n ≤ Z.of_nat (length bs) → 0 ≤ a - pcHead x → a - pcHead x + n ≤ Z.of_nat (length (q_storage x)) →
  Q tt (mkQsys k (<[q := x <| q_storage ::= list_inserts (Z.to_nat (a - pcHead x)) (take (Z.to_nat n) bs) |>]> O) reg) →
  wp (memcpy_in q a n (Some bs)) Q (mkQsys k (<[q := x]> O) reg).
Proof.
  intros Hn Ho Hl HQ. unfold memcpy_in. apply wp_bind. eapply wp_deref; [done|].
  destruct (Z.leb_spec n (Z.of_nat (length bs))); [|lia].
  apply wp_bind, wp_getM, wp_bind. simpl. rewrite lookup_insert_eq. simpl.
  unfold storage_write. rewrite length_take.
  destruct (Z.leb_spec 0 (a - pcHead x)); [|lia].
  destruct (Z.leb_spec (a - pcHead x + Z.of_nat (Z.to_nat n `min` length bs)) (Z.of_nat (length (q_storage x)))); [|lia].
  by apply (wp_set_front (λ _, _)).
Qed.
Lemma wp_read_front a n Q :
  0 ≤ a - pcHead x → a - pcHead x + n ≤ Z.of_nat (length (q_storage x)) →
  Q (take (Z.to_nat n) (drop (Z.to_nat (a - pcHead x)) (q_storage x))) (mkQsys k (<[q := x]> O) reg) →
  wp (memcpy_out q a n) Q (mkQsys k (<[q := x]> O) reg).
Proof.
  intros Ho Hl HQ. unfold memcpy_out. apply wp_bind, wp_getM. simpl. rewrite lookup_insert_eq. simpl.
  unfold storage_read. destruct (Z.leb_spec 0 (a - pcHead x)); [|lia].
  destruct (Z.leb_spec (a - pcHead x + n) (Z.of_nat (length (q_storage x)))); [|lia].
  by eapply wp_deref.
Qed.
End access.

(** ** The copying functions *)

(** The bytes a sender passes, as the queue stores them. *)
Definition payload (x : Queue_t) (pvItem : option (list Z)) : list Z :=
  take (Z.to_nat (uxItemSize x)) (default [] pvItem).
(** The caller's buffer is as large as an item of the queue. *)
Definition item_ok (x : Queue_t) (pvItem : option (list Z)) : bool :=
  (uxItemSize x =? 0) ||
  match pvItem with Some bs => uxItemSize x <=? Z.of_nat (length bs) | None => false end.
(** What sending does to the messages. *)
Definition send_messages (xPosition : copy_position) (m : list Z) (ms : list (list Z)) : list (list Z) :=
  match xPosition with
  | queueSEND_TO_BACK => ms ++ [m]
  | queueSEND_TO_FRONT => m :: ms
  | queueOVERWRITE => [m]
  end.
(** There is room, or the only message is overwritten. *)
Definition may_send (x : Queue_t) (xPosition : copy_position) : Prop :=
  uxMessagesWaiting x < uxLength x ∧ is_overwrite xPosition = false ∨
  is_overwrite xPosition = true ∧ uxLength x = 1 ∧ 0 < uxItemSize x.

Lemma set_if_front k O reg q x (b : bool) f (Q : unit → qsys → Prop) :
  Q tt (mkQsys k (<[q := if b then f x else x]> O) reg) →
  wp (when b then q_set q f) Q (mkQsys k (<[q := x]> O) reg).
Proof. intros HQ. destruct b; [by apply wp_set_front|by apply wp_ret]. Qed.

Lemma queue_wf_sem x n : uxItemSize x = 0 → queue_wf x → 0 ≤ n ≤ uxLength x →
  queue_wf (x <| uxMessagesWaiting := n |>) ∧
  messages (x <| uxMessagesWaiting := n |>) = replicate (Z.to_nat n) [].
Proof.
  intros H0 [Hl Hc Hr Ht Hb Hm] Hn. rewrite H0 in Hb. split; [|unfold messages; simpl; by rewrite H0].
  split; simpl; try done. by rewrite H0.
Qed.
Lemma queue_wf_ring x r w : ring_buffer x r w → 0 < uxLength x < MAX32 →
  0 ≤ uxMessagesWaiting x ≤ uxLength x → -1 ≤ cRxLock x ≤ 127 → -1 ≤ cTxLock x ≤ 127 →
  queue_wf x ∧ messages x = messages_from x r.
Proof.
  intros Hb Hl Hc Hr Ht. pose proof (rb_size _ _ _ Hb). split; [|by eapply messages_ring].
  split; try done; [|unfold is_mutex].
  - destruct (Z.eqb_spec (uxItemSize x) 0); [lia|by exists r, w].
  - destruct (Z.eqb_spec (uxItemSize x) 0); [lia|done].
Qed.

(** The queue after an operation on its messages. *)
Record updated (x x' : Queue_t) : Prop := {
  up_wf : queue_wf x';
  up_same : same_queue x x';
  up_rx : cRxLock x' = cRxLock x;
  up_tx : cTxLock x' = cTxLock x
}.

Lemma wp_copy_to k O reg q x item pos (Q : bool → qsys → Prop) :
  queue_wf x → is_mutex x = false → item_ok x item = true → may_send x pos →
  (∀ x', updated x x' → messages x' = send_messages pos (payload x item) (messages x) →
     Q false (mkQsys k (<[q := x']> O) reg)) →
  wp (prvCopyDataToQueue q item pos) Q (mkQsys k (<[q := x]> O) reg).
Proof.
  intros Hx Hmu Hitem Hmay HQ. pose proof Hx as [Hl Hn Hrx Htx Hb _].
  assert (∀ x', updated x x' → messages x' = send_messages pos (payload x item) (messages x) →
    wp (q_set q (λ _, x') ;> retM false) Q (mkQsys k (<[q := x]> O) reg)) as Hend.
  { intros x' Hup Hms. apply wp_bind, wp_set_front, wp_ret. by apply HQ. }
  unfold prvCopyDataToQueue. apply wp_bind, wp_get_front, wp_bind, wp_get_front, wp_bind.
  destruct (Z.eqb_spec (uxItemSize x) 0) as [H0|Hne].
  - (* a semaphore: only the count changes *)
    apply wp_bind, wp_get_front. unfold is_mutex in Hmu. rewrite H0 in Hmu. simpl in Hmu. rewrite Hmu.
    apply wp_ret. destruct Hmay as [[Hroom Hpos]|(_ & _ & ?)]; [|lia].
    rewrite (wrap32_small (uxMessagesWaiting x + 1)) by (unfold u32; lia).
    apply wp_bind, wp_set_front, wp_ret.
    destruct (queue_wf_sem x (uxMessagesWaiting x + 1) H0 Hx) as [Hwf Hms]; [lia|].
    apply HQ; [by split|]. rewrite Hms. unfold messages, payload. rewrite H0. simpl.
    rewrite Z2Nat.inj_add, Nat.add_1_r by lia.
    destruct pos; simpl; [by rewrite <- replicate_cons_app|done|done].
  - destruct Hb as (r & w & Hb).
    destruct item as [bs|]; unfold item_ok in Hitem; [|by destruct (Z.eqb_spec (uxItemSize x) 0)].
    destruct (Z.eqb_spec (uxItemSize x) 0) as [|_]; [done|]. simpl in Hitem. apply Z.leb_le in Hitem.
    pose proof (rb_size _ _ _ Hb) as Hs. pose proof (rb_head _ _ _ Hb) as Hh.
    destruct (rb_read _ _ _ Hb) as [Hr Hre]. destruct (rb_write _ _ _ Hb) as [Hw Hwe].
    pose proof (rb_area _ _ _ Hb) as Ha. pose proof (rb_tail _ _ _ Hb) as Ht.
    set (m := take (Z.to_nat (uxItemSize x)) bs).
    assert (Z.of_nat (length m) = uxItemSize x) as Hm by (unfold m; rewrite length_take; lia).
    case_bool_decide as Hpos.
    + (* at the back *)
      subst pos. destruct Hmay as [[Hroom _]|(? & _)]; [|done].
      apply wp_bind, wp_get_front. rewrite Hwe.
      apply wp_bind, wp_write_front; [lia|lia|nia|]. fold m.
      replace (pcHead x + w * uxItemSize x - pcHead x) with (w * uxItemSize x) by lia.
      apply wp_bind, wp_set_front. simpl. rewrite wrap32_small by (unfold u32; nia).
      apply wp_bind, wp_get_front. simpl. apply wp_bind, wp_get_front. simpl.
      apply wp_bind, set_if_front, wp_ret, wp_bind.
      rewrite wrap32_small by (unfold u32; lia). apply wp_set_front, wp_ret.
      destruct (put_back_ring x r w Hb Hl Hn m Hroom Hm) as [Hb' Hms].
      match goal with |- Q _ (mkQsys _ (<[_ := ?y]> _) _) => assert (put_back x w m = y) as <- end.
      { unfold put_back, next_slot. rewrite Ht.
        replace (w + 1 =? uxLength x) with
          (pcHead x + uxLength x * uxItemSize x <=? pcHead x + w * uxItemSize x + uxItemSize x) by nia.
        destruct (_ <=? _); [by rewrite Z.mul_0_l, Z.add_0_r|].
        replace (pcHead x + (w + 1) * uxItemSize x) with (pcHead x + w * uxItemSize x + uxItemSize x) by lia.
        done. }
      destruct (queue_wf_ring _ _ _ Hb') as [Hwf Hms']; [done|simpl; lia|done..|].
      apply HQ; [by split|]. rewrite Hms', Hms, (messages_ring _ _ _ Hb). done.
    + apply wp_bind, wp_get_front. rewrite Hre.
      apply wp_bind, wp_write_front; [lia|lia|nia|]. fold m.
      replace (pcHead x + r * uxItemSize x - pcHead x) with (r * uxItemSize x) by lia.
      apply wp_bind, wp_set_front. simpl.
      apply wp_bind, wp_get_front. simpl. apply wp_bind, wp_get_front. simpl.
      apply wp_bind, set_if_front, wp_ret, wp_bind, wp_set_front, wp_ret.
      match goal with |- Q _ (mkQsys _ (<[_ := ?y]> _) _) =>
        assert (put_front x r m (if is_overwrite pos then 1 else uxMessagesWaiting x + 1) = y) as <- end.
      { unfold put_front, prev_slot. simpl. rewrite Ht.
        rewrite (wrap32_small (pcHead x + r * uxItemSize x - uxItemSize x)) by (unfold u32; nia).
        rewrite (wrap32_small (pcHead x + _ - _)) by (unfold u32; nia).
        replace (r =? 0) with (pcHead x + r * uxItemSize x - uxItemSize x <? pcHead x) by nia.
        replace (wrap32 (_ + 1)) with (if is_overwrite pos then 1 else uxMessagesWaiting x + 1).
        - destruct (_ <? _).
          + replace (pcHead x + (uxLength x - 1) * uxItemSize x)
              with (pcHead x + uxLength x * uxItemSize x - uxItemSize x) by lia. done.
          + by replace (pcHead x + (r - 1) * uxItemSize x) with (pcHead x + r * uxItemSize x - uxItemSize x) by lia.
        - destruct Hmay as [[Hroom ->]|(-> & Hl1 & _)]; simpl.
          + by rewrite wrap32_small by (unfold u32; lia).
          + destruct (Z.ltb_spec 0 (uxMessagesWaiting x)).
            * by replace (uxMessagesWaiting x) with 1 by lia.
            * by replace (uxMessagesWaiting x) with 0 by lia. }
      destruct Hmay as [[Hroom Hov]|(Hov & Hl1 & _)]; rewrite Hov.
      * destruct (put_front_ring x r w Hb Hl Hn m Hroom Hm) as [Hb' Hms].
        destruct (queue_wf_ring _ _ _ Hb') as [Hwf Hms']; [done|simpl; lia|done..|].
        apply HQ; [by split|]. rewrite Hms', Hms, (messages_ring _ _ _ Hb). by destruct pos.
      * destruct (overwrite_ring x r w Hb Hl m Hl1 Hm) as [Hb' Hms].
        destruct (queue_wf_ring _ _ _ Hb') as [Hwf Hms']; [done|simpl; lia|done..|].
        apply HQ; [by split|]. rewrite Hms', Hms. by destruct pos.
Qed.

(** [x1] is the queue after the copy and before the count goes down. *)
Lemma wp_copy_from k O reg q x (Q : list Z → qsys → Prop) :
  queue_wf x → 0 < uxMessagesWaiting x →
  (∀ bs ms x1, messages x = bs :: ms →
     updated x (x1 <| uxMessagesWaiting := uxMessagesWaiting x - 1 |>) →
     messages (x1 <| uxMessagesWaiting := uxMessagesWaiting x - 1 |>) = ms →
     x1 <| pcReadFrom := pcReadFrom x |> = x → Q bs (mkQsys k (<[q := x1]> O) reg)) →
  wp (prvCopyDataFromQueue q) Q (mkQsys k (<[q := x]> O) reg).
Proof.
  intros Hx Hpos HQ. pose proof Hx as [Hl Hn Hrx Htx Hb _].
  unfold prvCopyDataFromQueue. apply wp_bind, wp_get_front.
  destruct (Z.eqb_spec (uxItemSize x) 0) as [H0|Hne]; simpl.
  - apply wp_ret. destruct (queue_wf_sem x (uxMessagesWaiting x - 1) H0 Hx) as [Hwf Hms]; [lia|].
    eapply (HQ _ (replicate (Z.to_nat (uxMessagesWaiting x - 1)) [])); [|by split|done|by destruct x].
    unfold messages. rewrite H0. simpl.
    by replace (Z.to_nat (uxMessagesWaiting x)) with (S (Z.to_nat (uxMessagesWaiting x - 1))) by lia.
  - destruct Hb as (r & w & Hb).
    pose proof (rb_size _ _ _ Hb) as Hs. pose proof (rb_head _ _ _ Hb) as Hh.
    destruct (rb_read _ _ _ Hb) as [Hr Hre].
    pose proof (rb_area _ _ _ Hb) as Ha. pose proof (rb_tail _ _ _ Hb) as Ht.
    destruct (take_front_ring x r w Hb Hl Hpos) as [Hb' Hms].
    destruct (queue_wf_ring _ _ _ Hb') as [Hwf Hms']; [done|simpl; lia|done..|].
    assert (0 ≤ next_slot x r < uxLength x) as Hnx by (unfold next_slot; destruct (r + 1 =? uxLength x) eqn:?; lia).
    apply wp_bind, wp_set_front. simpl. rewrite Hre, wrap32_small by (unfold u32; nia).
    apply wp_bind, wp_get_front. simpl. apply wp_bind, wp_get_front. simpl. rewrite Ht.
    apply wp_bind, set_if_front, wp_bind, wp_get_front.
    replace (pcHead x + uxLength x * uxItemSize x <=? pcHead x + r * uxItemSize x + uxItemSize x)
      with (r + 1 =? uxLength x) by nia.
    match goal with |- wp _ _ (mkQsys _ (<[_ := ?y]> _) _) =>
      assert (x <| pcReadFrom := pcHead x + next_slot x r * uxItemSize x |> = y) as <- end.
    { unfold next_slot. destruct (r + 1 =? uxLength x).
      - by rewrite Z.mul_0_l, Z.add_0_r.
      - by replace (pcHead x + (r + 1) * uxItemSize x) with (pcHead x + r * uxItemSize x + uxItemSize x) by lia. }
    apply wp_read_front; simpl; [nia..|].
    eapply HQ; [rewrite (messages_ring _ _ _ Hb), Hms|by split|exact Hms'|by destruct x].
    f_equal. unfold chunk. do 2 f_equal. nia.
Qed.
