(* ===== verification/QueueOps.v ===== *)
(** * The atomic steps of the queue functions

    What each critical section of queue.c does to the messages of its queue, to
    the tasks that wait for it and to the scheduler, for the queues and
    semaphores that are not mutexes and in no queue set. *)
From S2P Require Import Prelude KList KListSpec Tasks TasksView TasksInv TasksTick TasksOps TasksMachine TasksWaiters.
From S2P Require Import TasksFrame TasksBlind TasksDetach Prog Queue QueueData.
From Stdlib Require Import ZifyBool.

(** ** Good states *)
Record queue_ok (k : kernel) (q : Z) (x : Queue_t) : Prop := {
  qo_wf : queue_wf x;
  qo_handle : q ≠ 0;
  qo_send : has_list (k_lists k) (WaitSendL q);
  qo_recv : has_list (k_lists k) (WaitRecvL q);
  qo_plain : is_mutex x = false;
  qo_set : pxQueueSetContainer x = 0
}.
Record qgood (idle : Z) (s : qsys) : Prop := {
  qg_kernel : kgood idle (q_kernel s);
  qg_susp : 0 ≤ uxSchedulerSuspended (q_kernel s) ≤ 1;
  qg_running : xSchedulerRunning (q_kernel s) = true;
  qg_tasks : 0 ≤ uxCurrentNumberOfTasks (q_kernel s) ≤ 127;
  qg_queues : map_Forall (queue_ok (q_kernel s)) (q_objs s)
}.

(** What an atomic step other than [vTaskSuspendAll] and [xTaskResumeAll] keeps. *)
Record evolves (s s' : qsys) : Prop := {
  ev_frame : frame (q_kernel s) (q_kernel s');
  ev_kept : kept_ready (q_kernel s) (q_kernel s');
  ev_queues q x : q_objs s !! q = Some x → ∃ x', q_objs s' !! q = Some x' ∧ same_queue x x'
}.
#[export] Instance evolves_refl : Reflexive evolves.
Proof. intros s. split; [done|done|]. intros q x Hq. by exists x. Qed.
#[export] Instance evolves_trans : Transitive evolves.
Proof.
  intros s1 s2 s3 [? ? H12] [? ? H23]. split; [by etrans|by etrans|].
  intros q x (y & Hy & ?)%H12. apply H23 in Hy as (z & Hz & ?). exists z. split; [done|]. by etrans.
Qed.

Lemma same_queue_mutex x x' : same_queue x x' → is_mutex x' = is_mutex x.
Proof. intros [Hs _ Hh _]. unfold is_mutex. by rewrite Hs, Hh. Qed.
Lemma queue_ok_frame k k' q x : frame0 k k' → queue_ok k q x → queue_ok k' q x.
Proof. intros Hf []. split; try done; by apply Hf. Qed.
Lemma queue_ok_same k q x x' : queue_ok k q x → same_queue x x' → queue_wf x' → queue_ok k q x'.
Proof. intros [] Hs ?. split; try done; [by rewrite (same_queue_mutex _ _ Hs)|by rewrite (sq_set _ _ Hs)]. Qed.

(** The state with another kernel and another queue [q]. *)
Section update.
Context (idle : Z) (k : kernel) (O : gmap Z Queue_t) (reg : list QueueRegistryItem_t).

Lemma qgood_update k' q x x' :
  qgood idle (mkQsys k (<[q := x]> O) reg) → kgood idle k' → frame k k' → same_queue x x' → queue_wf x' →
  qgood idle (mkQsys k' (<[q := x']> O) reg).
Proof.
  intros [Hk Hs Hr Hn HQ] Hk' [Hf Hsu] Hsame Hwf. split; simpl in *; [done|by rewrite Hsu|by rewrite (fr_running _ _ Hf)|by rewrite (fr_number _ _ Hf)|].
  intros q' y Hy. apply (queue_ok_frame k); [done|]. destruct (decide (q = q')) as [<-|Hne].
  - rewrite lookup_insert_eq in Hy. simplify_eq. eapply queue_ok_same; [|done|done]. apply HQ. apply lookup_insert_eq.
  - apply HQ. rewrite lookup_insert_ne in Hy |- * by done. done.
Qed.
Lemma evolves_update k' q x x' :
  frame k k' → kept_ready k k' → same_queue x x' →
  evolves (mkQsys k (<[q := x]> O) reg) (mkQsys k' (<[q := x']> O) reg).
Proof.
  intros Hf Hr Hsame. split; [done|done|]. simpl. intros q' y Hy. destruct (decide (q = q')) as [<-|Hne].
  - rewrite lookup_insert_eq in Hy |- *. simplify_eq. by exists x'.
  - rewrite lookup_insert_ne in Hy |- * by done. by exists y.
Qed.
Lemma qgood_queue q x : qgood idle (mkQsys k (<[q := x]> O) reg) → queue_ok k q x.
Proof. intros Hg. apply (qg_queues _ _ Hg). apply lookup_insert_eq. Qed.
End update.

Lemma state_front s q x : q_objs s !! q = Some x → s = mkQsys (q_kernel s) (<[q := x]> (q_objs s)) (xQueueRegistry s).
Proof. intros Hx. rewrite insert_id by done. by destruct s. Qed.

(** ** Waking the first waiter *)
Section wake.
Context (idle : Z).

(** [k'] is [k] after [wake_first l] with the answer [w]. *)
Definition woken_first (k : kernel) (l : lid) (w : option bool) (k' : kernel) : Prop :=
  match w with
  | None => waiters k l = [] ∧ k' = k
  | Some b => ∃ t ts, waiters k l = t :: ts ∧ woke idle k l t ts b k'
  end.
Lemma woken_first_good k l w k' : kgood idle k → woken_first k l w k' → kgood idle k'.
Proof. destruct w; [intros _ (t & ts & _ & [])|intros ? [_ ->]]; done. Qed.
Lemma woken_first_frame k l w k' : woken_first k l w k' → frame k k' ∧ kept_ready k k'.
Proof. destruct w; [intros (t & ts & _ & [])|intros [_ ->]]; done. Qed.

Lemma wp_wake_first k O reg l (Q : option bool → qsys → Prop) :
  kgood idle k → has_list (k_lists k) l → is_event_list l = true →
  (∀ w k', woken_first k l w k' → Q w (mkQsys k' O reg)) →
  wp (wake_first l) Q (mkQsys k O reg).
Proof.
  intros Hk Hl Hev HQ. unfold wake_first. apply wp_bind, wp_ker, (kg_is_empty idle); [done..|].
  case_bool_decide as He; [by apply wp_ret, HQ|].
  destruct (waiters k l) as [|t ts] eqn:Hw; [done|]. apply wp_bind, wp_ker.
  eapply wp_mono; [by apply (kg_remove idle k l t ts)|]. intros b k' Hwk. apply wp_ret, HQ. by exists t, ts.
Qed.

(** [wake_and_yield] asks for a switch when the waiter beats the caller. *)
Definition yielded (b : bool) (k : kernel) : kernel := if b then pend k else k.
Definition woken_yield (k : kernel) (l : lid) (w : bool) (k' : kernel) : Prop :=
  ∃ o k1, woken_first k l o k1 ∧ w = given o ∧
    k' = yielded (match o with Some true => true | _ => false end) k1.
Lemma frame_pend k : frame k (pend k).
Proof. split; [|done]. by split. Qed.
Lemma kgood_pend' k : kgood idle k → kgood idle (pend k).
Proof. intros (v & Hk & Hd). exists v. split; [exact Hk|done]. Qed.
Lemma yielded_good b k : kgood idle k → kgood idle (yielded b k).
Proof. destruct b; [apply kgood_pend'|done]. Qed.
Lemma yielded_frame b k : frame k (yielded b k) ∧ kept_ready k (yielded b k).
Proof. destruct b; [split; [apply frame_pend|by intros t]|done]. Qed.
Lemma woken_yield_good k l w k' : kgood idle k → woken_yield k l w k' → kgood idle k' ∧ frame k k' ∧ kept_ready k k'.
Proof.
  intros Hk (o & k1 & Hw & _ & ->). pose proof (woken_first_good _ _ _ _ Hk Hw) as Hg.
  destruct (woken_first_frame _ _ _ _ Hw) as [Hf Hr].
  match goal with |- context [yielded ?b k1] => destruct (yielded_frame b k1) as [Hf' Hr'] end.
  split_and!; [by apply yielded_good|by etrans|by etrans].
Qed.
Lemma wp_yield_ker (b : bool) k O reg (Q : unit → qsys → Prop) :
  Q tt (mkQsys (yielded b k) O reg) → wp (when b then ker portYIELD_WITHIN_API) Q (mkQsys k O reg).
Proof. intros HQ. destruct b; [by apply wp_ker, wp_modify|by apply wp_ret]. Qed.
Lemma wp_wake_and_yield k O reg l (Q : bool → qsys → Prop) :
  kgood idle k → has_list (k_lists k) l → is_event_list l = true →
  (∀ w k', woken_yield k l w k' → Q w (mkQsys k' O reg)) →
  wp (wake_and_yield l) Q (mkQsys k O reg).
Proof.
  intros Hk Hl Hev HQ. unfold wake_and_yield. apply wp_bind, wp_wake_first; [done..|]. intros o k1 Hw.
  apply wp_bind, wp_yield_ker, wp_ret, HQ. by exists o, k1.
Qed.
End wake.

(** ** Sending and receiving *)
Section critical.
Context (idle : Z) (k : kernel) (O : gmap Z Queue_t) (reg : list QueueRegistryItem_t) (q : Z) (x : Queue_t).
Abbreviation st := (mkQsys k (<[q := x]> O) reg).
Context (Hg : qgood idle st).

(** Overwriting is for queues of one message. *)
Definition overwrite_ok (pos : copy_position) : Prop :=
  is_overwrite pos = true → uxLength x = 1 ∧ 0 < uxItemSize x.
Definition has_room (pos : copy_position) : bool := (uxMessagesWaiting x <? uxLength x) || is_overwrite pos.
Lemma room_may_send pos : overwrite_ok pos → has_room pos = true → may_send x pos.
Proof.
  intros Hov Hr. unfold has_room in Hr. destruct (is_overwrite pos) eqn:Hp; [by right; destruct (Hov Hp)|].
  left. split; [lia|done].
Qed.

(** The time a wait is measured from. *)
Definition entered (to : option TimeOut_t) (t : TimeOut_t) : Prop :=
  t = default (mkTimeOut (xNumOfOverflows k) (xTickCount k)) to.
Lemma wp_no_luck {A} (fail : A) to n (Q : TimeOut_t + A → qsys → Prop) :
  (n = 0 → Q (inr fail) st) → (n ≠ 0 → ∀ t, entered to t → Q (inl t) st) → wp (no_luck fail to n) Q st.
Proof.
  intros H0 H1. unfold no_luck. destruct (Z.eqb_spec n 0) as [->|Hn]; [by apply wp_ret, H0|].
  destruct to as [t|]; [by apply wp_ret, H1|]. apply wp_bind, wp_ker, wp_gets, wp_ret. by apply H1.
Qed.

Lemma wp_send_try item pos to n (Q : TimeOut_t + bool → qsys → Prop) :
  item_ok x item = true → overwrite_ok pos →
  (∀ x' w k', has_room pos = true → updated x x' → messages x' = send_messages pos (payload x item) (messages x) →
     woken_yield idle k (WaitRecvL q) w k' → Q (inr true) (mkQsys k' (<[q := x']> O) reg)) →
  (has_room pos = false → n = 0 → Q (inr false) st) →
  (has_room pos = false → n ≠ 0 → ∀ t, entered to t → Q (inl t) st) →
  wp (send_try q item pos to n) Q st.
Proof.
  intros Hitem Hov Hsent Hfull Hwait. pose proof (qgood_queue _ _ _ _ _ _ Hg) as Hq.
  unfold send_try. apply wp_bind, wp_get_front, wp_bind, wp_get_front. fold (has_room pos).
  destruct (has_room pos) eqn:Hr; [|by apply wp_no_luck; auto].
  apply wp_bind, (wp_copy_to k); [apply Hq|apply Hq|done|by apply room_may_send|]. intros x' Hup Hms.
  apply wp_bind, wp_get_front. rewrite (sq_set _ _ (up_same _ _ Hup)), (qo_set _ _ _ Hq). simpl.
  apply wp_bind, wp_bind. apply (wp_wake_and_yield idle); [apply Hg|apply Hq|done|]. intros w k' Hw.
  rewrite andb_false_r. apply wp_ret, wp_ret. by apply (Hsent x' w).
Qed.

(** The message at the front has been taken. *)
Definition received (bs : list Z) (x' : Queue_t) : Prop :=
  updated x x' ∧ messages x = bs :: messages x'.

Lemma wp_receive_try to n (Q : TimeOut_t + option (list Z) → qsys → Prop) :
  (∀ bs x' w k', 0 < uxMessagesWaiting x → received bs x' → woken_yield idle k (WaitSendL q) w k' →
     Q (inr (Some bs)) (mkQsys k' (<[q := x']> O) reg)) →
  (uxMessagesWaiting x = 0 → n = 0 → Q (inr None) st) →
  (uxMessagesWaiting x = 0 → n ≠ 0 → ∀ t, entered to t → Q (inl t) st) →
  wp (receive_try q to n) Q st.
Proof.
  intros Hgot Hempty Hwait. pose proof (qgood_queue _ _ _ _ _ _ Hg) as Hq. destruct (qo_wf _ _ _ Hq) as [Hl Hc _ _ _ _].
  unfold receive_try. apply wp_bind, wp_get_front.
  destruct (Z.ltb_spec 0 (uxMessagesWaiting x)); [|by apply wp_no_luck; intros; [apply Hempty|apply Hwait]; try lia].
  apply wp_bind, (wp_copy_from k); [apply Hq|done|]. intros bs ms x1 Hms Hup Hms' Hx1.
  apply wp_bind, wp_set_front. rewrite wrap32_small by (unfold u32; lia).
  apply wp_bind. apply (wp_wake_and_yield idle); [apply Hg|apply Hq|done|]. intros w k' Hw.
  apply wp_ret. apply (Hgot bs _ w); [done| |done]. split; [done|]. by rewrite Hms, Hms'.
Qed.

(** The message at the front has been read; it stays. *)
Lemma wp_peek_try to n (Q : TimeOut_t + option (list Z) → qsys → Prop) :
  (∀ bs ms w k', messages x = bs :: ms → woken_yield idle k (WaitRecvL q) w k' →
     Q (inr (Some bs)) (mkQsys k' (<[q := x]> O) reg)) →
  (uxMessagesWaiting x = 0 → n = 0 → Q (inr None) st) →
  (uxMessagesWaiting x = 0 → n ≠ 0 → ∀ t, entered to t → Q (inl t) st) →
  wp (peek_try q to n) Q st.
Proof.
  intros Hgot Hempty Hwait. pose proof (qgood_queue _ _ _ _ _ _ Hg) as Hq. destruct (qo_wf _ _ _ Hq) as [Hl Hc _ _ _ _].
  unfold peek_try. apply wp_bind, wp_get_front.
  destruct (Z.ltb_spec 0 (uxMessagesWaiting x)); [|by apply wp_no_luck; intros; [apply Hempty|apply Hwait]; try lia].
  apply wp_bind, wp_get_front.
  apply wp_bind, (wp_copy_from k); [apply Hq|done|]. intros bs ms x1 Hms Hup Hms' Hx1.
  apply wp_bind, wp_set_front. rewrite Hx1.
  apply wp_bind. apply (wp_wake_and_yield idle); [apply Hg|apply Hq|done|]. intros w k' Hw.
  apply wp_ret. by apply (Hgot bs ms w).
Qed.

(** A semaphore counts messages of no bytes. *)
Lemma wp_take_try to n (Q : TimeOut_t + bool → qsys → Prop) :
  uxItemSize x = 0 →
  (∀ x' w k', 0 < uxMessagesWaiting x → received [] x' → woken_yield idle k (WaitSendL q) w k' →
     Q (inr true) (mkQsys k' (<[q := x']> O) reg)) →
  (uxMessagesWaiting x = 0 → n = 0 → Q (inr false) st) →
  (uxMessagesWaiting x = 0 → n ≠ 0 → ∀ t, entered to t → Q (inl t) st) →
  wp (take_try q to n) Q st.
Proof.
  intros H0 Hgot Hempty Hwait. pose proof (qgood_queue _ _ _ _ _ _ Hg) as Hq.
  pose proof (qo_wf _ _ _ Hq) as Hwf. destruct Hwf as [Hl Hc Hrx Htx _ _].
  unfold take_try. apply wp_bind, wp_get_front.
  destruct (Z.ltb_spec 0 (uxMessagesWaiting x)); [|by apply wp_no_luck; intros; [apply Hempty|apply Hwait]; try lia].
  destruct (queue_wf_sem x (uxMessagesWaiting x - 1) H0 (qo_wf _ _ _ Hq)) as [Hwf' Hms']; [lia|].
  apply wp_bind, wp_set_front. rewrite wrap32_small by (unfold u32; lia).
  apply wp_bind, wp_get_front. simpl.
  pose proof (qo_plain _ _ _ Hq) as Hmu. unfold is_mutex in Hmu. rewrite H0 in Hmu. simpl in Hmu. rewrite Hmu.
  apply wp_bind, wp_ret, wp_bind. apply (wp_wake_and_yield idle); [apply Hg|apply Hq|done|]. intros w k' Hw.
  apply wp_ret. apply (Hgot _ w); [done| |done]. split; [by split|]. rewrite Hms'. unfold messages. rewrite H0. simpl.
  by replace (Z.to_nat (uxMessagesWaiting x)) with (S (Z.to_nat (uxMessagesWaiting x - 1))) by lia.
Qed.
End critical.

(** ** From interrupts *)

(** The lock count after one more message: capped at the number of tasks. *)
Definition bump (n lock : Z) : Z := if lock <? n then lock + 1 else lock.
Definition with_tx (l : Z) (x : Queue_t) : Queue_t := x <| cTxLock := l |>.
Definition with_rx (l : Z) (x : Queue_t) : Queue_t := x <| cRxLock := l |>.
Lemma with_tx_wf l x : queue_wf x → -1 ≤ l ≤ 127 → queue_wf (with_tx l x).
Proof.
  intros [Hl Hc Hr Ht Hb Hm] ?. split; try done. simpl in *. destruct (uxItemSize x =? 0); [done|].
  destruct Hb as (r & w & []). by exists r, w.
Qed.
Lemma with_rx_wf l x : queue_wf x → -1 ≤ l ≤ 127 → queue_wf (with_rx l x).
Proof.
  intros [Hl Hc Hr Ht Hb Hm] ?. split; try done. simpl in *. destruct (uxItemSize x =? 0); [done|].
  destruct Hb as (r & w & []). by exists r, w.
Qed.
Lemma bump_range n lock : n ≤ 127 → -1 ≤ lock ≤ 127 → -1 ≤ bump n lock ≤ 127.
Proof. unfold bump. destruct (lock <? n) eqn:?; lia. Qed.
Lemma wrap_int8_small z : -128 ≤ z < 128 → wrap_int8 z = z.
Proof. intros Hz. unfold wrap_int8. rewrite Z.mod_small; lia. Qed.

(** [*pxHigherPriorityTaskWoken] after waking. *)
Definition note_woken (w : option bool) (p : option bool) : option bool :=
  match w with Some true => set_woken p | _ => p end.

Section isr.
Context (idle : Z) (k : kernel) (O : gmap Z Queue_t) (reg : list QueueRegistryItem_t) (q : Z) (x : Queue_t).
Abbreviation st := (mkQsys k (<[q := x]> O) reg).
Context (Hg : qgood idle st).

Lemma wp_tx_lock lock (x1 : Queue_t) (Q : unit → qsys → Prop) :
  0 ≤ lock ≤ 127 → Q tt (mkQsys k (<[q := if lock <? uxCurrentNumberOfTasks k then with_tx (lock + 1) x1 else x1]> O) reg) →
  wp (prvIncrementQueueTxLock q lock) Q (mkQsys k (<[q := x1]> O) reg).
Proof.
  intros Hlock HQ. pose proof (qg_tasks _ _ Hg) as Hn. simpl in Hn. unfold prvIncrementQueueTxLock.
  apply wp_bind, wp_ker, wp_gets. rewrite wrap32_small by (unfold u32, MAX32; lia).
  destruct (Z.ltb_spec lock (uxCurrentNumberOfTasks k)); [|by apply wp_ret].
  apply wp_bind, wp_assert; [unfold queueINT8_MAX; lia|]. apply wp_set_front.
  rewrite wrap_int8_small by lia. exact HQ.
Qed.
Lemma wp_rx_lock lock (x1 : Queue_t) (Q : unit → qsys → Prop) :
  0 ≤ lock ≤ 127 → Q tt (mkQsys k (<[q := if lock <? uxCurrentNumberOfTasks k then with_rx (lock + 1) x1 else x1]> O) reg) →
  wp (prvIncrementQueueRxLock q lock) Q (mkQsys k (<[q := x1]> O) reg).
Proof.
  intros Hlock HQ. pose proof (qg_tasks _ _ Hg) as Hn. simpl in Hn. unfold prvIncrementQueueRxLock.
  apply wp_bind, wp_ker, wp_gets. rewrite wrap32_small by (unfold u32, MAX32; lia).
  destruct (Z.ltb_spec lock (uxCurrentNumberOfTasks k)); [|by apply wp_ret].
  apply wp_bind, wp_assert; [unfold queueINT8_MAX; lia|]. apply wp_set_front.
  rewrite wrap_int8_small by lia. exact HQ.
Qed.

(** A message more has come, or gone, from an interrupt: a waiter is woken at
    once, or counted while the queue is locked. *)
Inductive isr_after (l : lid) (lock : Z) (count : Z → Queue_t → Queue_t) (p : option bool) (x1 : Queue_t) :
    option bool → qsys → Prop :=
| isr_wakes w k' : lock = queueUNLOCKED → woken_first idle k l w k' →
    isr_after l lock count p x1 (note_woken w p) (mkQsys k' (<[q := x1]> O) reg)
| isr_counts : 0 ≤ lock →
    isr_after l lock count p x1 p
      (mkQsys k (<[q := if lock <? uxCurrentNumberOfTasks k then count (lock + 1) x1 else x1]> O) reg).

Lemma wp_give_done x1 p (on_set : QM (bool * option bool)) (Q : bool * option bool → qsys → Prop) :
  pxQueueSetContainer x1 = 0 →
  (∀ p' s', isr_after (WaitRecvL q) (cTxLock x) with_tx p x1 p' s' → Q (true, p') s') →
  wp (if cTxLock x =? queueUNLOCKED then
        let* set := q_get q pxQueueSetContainer in
        if negb (set =? 0) then on_set
        else
          let* w := wake_first (WaitRecvL q) in
          retM (true, match w with Some true => set_woken p | _ => p end)
      else prvIncrementQueueTxLock q (cTxLock x) ;> retM (true, p)) Q (mkQsys k (<[q := x1]> O) reg).
Proof.
  intros Hset HQ. pose proof (qgood_queue _ _ _ _ _ _ Hg) as Hq. pose proof (qw_tx _ (qo_wf _ _ _ Hq)) as Ht.
  unfold queueUNLOCKED in *. destruct (Z.eqb_spec (cTxLock x) (-1)) as [Hu|Hu].
  - apply wp_bind, wp_get_front. rewrite Hset. simpl.
    apply wp_bind, (wp_wake_first idle); [apply Hg|apply Hq|done|]. intros w k' Hw. by apply wp_ret, HQ, isr_wakes.
  - apply wp_bind, wp_tx_lock; [lia|]. apply wp_ret, HQ. apply isr_counts. lia.
Qed.

Lemma wp_xQueueGenericSendFromISR item p pos (Q : bool * option bool → qsys → Prop) :
  item_ok x item = true → overwrite_ok x pos →
  (∀ x1 p' s', has_room x pos = true → updated x x1 →
     messages x1 = send_messages pos (payload x item) (messages x) →
     isr_after (WaitRecvL q) (cTxLock x) with_tx p x1 p' s' → Q (true, p') s') →
  (has_room x pos = false → Q (false, p) st) →
  wp (xQueueGenericSendFromISR q item p pos) Q st.
Proof.
  intros Hitem Hov Hsent Hfull. pose proof (qgood_queue _ _ _ _ _ _ Hg) as Hq.
  unfold xQueueGenericSendFromISR. apply wp_bind, wp_assert.
  { pose proof (qo_handle _ _ _ Hq). by destruct (Z.eqb_spec q 0). }
  apply wp_bind. unfold assert_buffer. apply wp_bind, wp_get_front, wp_assert.
  { unfold item_ok in Hitem. destruct (uxItemSize x =? 0); [by rewrite andb_false_r|]. by destruct item. }
  apply wp_bind, wp_bind, wp_get_front, wp_assert.
  { unfold overwrite_ok in Hov. destruct (is_overwrite pos); [|done]. destruct Hov as [-> _]; done. }
  apply wp_bind, wp_get_front, wp_bind, wp_get_front. fold (has_room x pos).
  destruct (has_room x pos) eqn:Hr; [|by apply wp_ret, Hfull].
  apply wp_bind, wp_get_front.
  apply wp_bind, (wp_copy_to k); [apply Hq|apply Hq|done|by apply room_may_send|]. intros x' Hup Hms.
  apply wp_give_done; [rewrite (sq_set _ _ (up_same _ _ Hup)); apply Hq|].
  intros p' s' Ha. by apply (Hsent x').
Qed.

Lemma wp_xQueueGiveFromISR p (Q : bool * option bool → qsys → Prop) :
  uxItemSize x = 0 →
  (∀ x1 p' s', uxMessagesWaiting x < uxLength x → updated x x1 → messages x1 = messages x ++ [[]] →
     isr_after (WaitRecvL q) (cTxLock x) with_tx p x1 p' s' → Q (true, p') s') →
  (uxMessagesWaiting x = uxLength x → Q (false, p) st) →
  wp (xQueueGiveFromISR q p) Q st.
Proof.
  intros H0 Hsent Hfull. pose proof (qgood_queue _ _ _ _ _ _ Hg) as Hq.
  pose proof (qo_wf _ _ _ Hq) as Hwf. destruct Hwf as [Hl Hc Hrx Htx _ _].
  unfold xQueueGiveFromISR. apply wp_bind, wp_assert.
  { pose proof (qo_handle _ _ _ Hq). by destruct (Z.eqb_spec q 0). }
  apply wp_bind, wp_bind, wp_get_front, wp_assert; [by rewrite H0|].
  apply wp_bind, wp_bind, wp_get_front, wp_bind, wp_get_front, wp_assert.
  { pose proof (qo_plain _ _ _ Hq) as Hmu. unfold is_mutex in Hmu. rewrite H0 in Hmu. simpl in Hmu. by rewrite Hmu. }
  apply wp_bind, wp_get_front, wp_bind, wp_get_front.
  destruct (Z.ltb_spec (uxMessagesWaiting x) (uxLength x)) as [Hr|Hr]; [|apply wp_ret, Hfull; lia].
  destruct (queue_wf_sem x (uxMessagesWaiting x + 1) H0 (qo_wf _ _ _ Hq)) as [Hwf' Hms']; [lia|].
  apply wp_bind, wp_get_front, wp_bind, wp_set_front. rewrite wrap32_small by (unfold u32; lia).
  apply wp_give_done; [apply Hq|]. intros p' s' Ha. eapply (Hsent _ p' s'); [done|by split| |exact Ha].
  rewrite Hms'. unfold messages. rewrite H0. simpl.
  by rewrite <- replicate_cons_app, <- replicate_S, Z2Nat.inj_add, Nat.add_1_r by lia.
Qed.

Lemma wp_xQueueReceiveFromISR buffer p (Q : option (list Z) * option bool → qsys → Prop) :
  buffer || (uxItemSize x =? 0) = true →
  (∀ bs x1 p' s', 0 < uxMessagesWaiting x → received x bs x1 →
     isr_after (WaitSendL q) (cRxLock x) with_rx p x1 p' s' → Q (Some bs, p') s') →
  (uxMessagesWaiting x = 0 → Q (None, p) st) →
  wp (xQueueReceiveFromISR q buffer p) Q st.
Proof.
  intros Hbuf Hgot Hempty. pose proof (qgood_queue _ _ _ _ _ _ Hg) as Hq.
  pose proof (qo_wf _ _ _ Hq) as Hwf. destruct Hwf as [Hl Hc Hrx Htx _ _].
  unfold xQueueReceiveFromISR. apply wp_bind, wp_assert.
  { pose proof (qo_handle _ _ _ Hq). by destruct (Z.eqb_spec q 0). }
  apply wp_bind. unfold assert_buffer. apply wp_bind, wp_get_front, wp_assert.
  { destruct buffer; [done|]. simpl in *. by rewrite Hbuf. }
  apply wp_bind, wp_get_front.
  destruct (Z.ltb_spec 0 (uxMessagesWaiting x)); [|apply wp_ret, Hempty; lia].
  apply wp_bind, wp_get_front.
  apply wp_bind, (wp_copy_from k); [apply Hq|done|]. intros bs ms x1 Hms Hup Hms' Hx1.
  apply wp_bind, wp_set_front. rewrite wrap32_small by (unfold u32; lia).
  assert (received x bs (x1 <| uxMessagesWaiting := uxMessagesWaiting x - 1 |>)) as Hrc by (split; [done|by rewrite Hms, Hms']).
  unfold queueUNLOCKED in *. destruct (Z.eqb_spec (cRxLock x) (-1)) as [Hu|Hu].
  - apply wp_bind, (wp_wake_first idle); [apply Hg|apply Hq|done|]. intros w k' Hw.
    apply wp_ret. eapply (Hgot bs _ (note_woken w p)); [done|exact Hrc|]. by apply isr_wakes.
  - apply wp_bind, wp_rx_lock; [lia|]. apply wp_ret. eapply (Hgot bs); [done|exact Hrc|]. apply isr_counts. lia.
Qed.
End isr.

(** ** Locking and unlocking *)
Section locking.
Context (idle : Z).

(** The loops of [prvUnlockQueue]: at most [n] waiters of [l] are woken. *)
Definition missed (b : bool) (k : kernel) : kernel := if b then k <| xYieldPendings := true |> else k.
Inductive wakes (l : lid) : nat → kernel → kernel → Prop :=
| wakes_zero k : wakes l 0 k k
| wakes_empty n k : waiters k l = [] → wakes l n k k
| wakes_one n k t ts b k1 k' : waiters k l = t :: ts → woke idle k l t ts b k1 →
    wakes l n (missed b k1) k' → wakes l (S n) k k'.

Lemma missed_good b k : kgood idle k → kgood idle (missed b k).
Proof. destruct b; [apply kgood_yield|done]. Qed.
Lemma missed_frame b k : frame k (missed b k).
Proof. destruct b; [split; [by split|done]|done]. Qed.
Lemma wakes_good l n k k' : wakes l n k k' → kgood idle k → kgood idle k' ∧ frame k k' ∧ kept_ready k k'.
Proof.
  induction 1 as [k|n k|n k t ts b k1 k' Hw Hwk _ IH]; [done..|]. intros Hk. destruct Hwk.
  destruct IH as (Hg & Hf & Hr); [by apply missed_good|]. split_and!; [done| |].
  - etrans; [done|]. etrans; [apply (missed_frame b)|done].
  - etrans; [done|]. intros u Hu. apply Hr. by destruct b.
Qed.

(** The waiters woken wait for the scheduler to be resumed. *)
Lemma wakes_first l n k k' : wakes l n k k' → kgood idle k → uxSchedulerSuspended k ≠ 0 →
  waiters k' l = drop n (waiters k l) ∧
  (∀ t, t ∈ take n (waiters k l) → event_in k' t = Some PendingReadyL) ∧
  (∀ t, event_in k t = Some PendingReadyL → event_in k' t = Some PendingReadyL).
Proof.
  induction 1 as [k|n k Hw|n k t ts b k1 k' Hw Hwk _ IH]; intros Hk Hs.
  - rewrite drop_0, take_0. split_and!; [done|by intros t ?%elem_of_nil|done].
  - rewrite Hw, drop_nil, take_nil. split_and!; [done|by intros t ?%elem_of_nil|done].
  - pose proof Hwk as [Hg Hf _ _ Hw1 _ _ Hp Hpk _]. destruct IH as (IH1 & IH2 & IH3).
    + by apply missed_good.
    + destruct Hf as [_ Hf]. destruct b; simpl; congruence.
    + assert (waiters (missed b k1) l = ts) as Hw2 by by destruct b.
      rewrite Hw2 in IH1, IH2. rewrite Hw. simpl. split_and!; [done| |].
      * intros u [->|Hu]%elem_of_cons; [|by apply IH2]. apply IH3. destruct b; by apply Hp.
      * intros u Hu. apply IH3. destruct b; by apply Hpk.
Qed.

(** Other event lists are as before. *)
Lemma wakes_others l n k k' l' : wakes l n k k' → l' ≠ l → is_event_list l' = true → has_list (k_lists k) l' →
  waiters k' l' = waiters k l'.
Proof.
  induction 1 as [k|n k Hw|n k t ts b k1 k' Hw Hwk _ IH]; [done..|]. intros Hne Hev Hl.
  rewrite IH; [|done|done|].
  - rewrite <- (wk_others _ _ _ _ _ _ _ Hwk l') by done. by destruct b.
  - apply (missed_frame b), (wk_frame _ _ _ _ _ _ _ Hwk). done.
Qed.

Lemma wp_missed (b : bool) k O reg (Q : unit → qsys → Prop) :
  Q tt (mkQsys (missed b k) O reg) → wp (when b then ker vTaskMissedYield) Q (mkQsys k O reg).
Proof. intros HQ. destruct b; [by apply wp_ker, wp_modify|by apply wp_ret]. Qed.

Section q.
Context (O : gmap Z Queue_t) (reg : list QueueRegistryItem_t) (q : Z) (x : Queue_t).

Lemma wp_unlock_tx n k (Q : unit → qsys → Prop) :
  pxQueueSetContainer x = 0 → kgood idle k → has_list (k_lists k) (WaitRecvL q) →
  (∀ k', wakes (WaitRecvL q) n k k' → Q tt (mkQsys k' (<[q := x]> O) reg)) →
  wp (unlock_tx q n) Q (mkQsys k (<[q := x]> O) reg).
Proof.
  intros Hset. revert k. induction n as [|n IH]; intros k Hk Hl HQ; simpl; [by apply wp_ret, HQ, wakes_zero|].
  apply wp_bind, wp_get_front. rewrite Hset. simpl. apply wp_bind, (wp_wake_first idle); [done..|].
  intros [b|] k1 Hw.
  - destruct Hw as (t & ts & Hw & Hwk). apply wp_bind, wp_missed, IH.
    + by apply missed_good, Hwk.
    + pose proof (wk_frame _ _ _ _ _ _ _ Hwk) as [Hf _]. destruct b; by apply Hf.
    + intros k' Hk'. apply HQ. by eapply wakes_one.
  - destruct Hw as [Hw ->]. by apply wp_ret, HQ, wakes_empty.
Qed.
Lemma wp_unlock_rx n k (Q : unit → qsys → Prop) :
  kgood idle k → has_list (k_lists k) (WaitSendL q) →
  (∀ k', wakes (WaitSendL q) n k k' → Q tt (mkQsys k' (<[q := x]> O) reg)) →
  wp (unlock_rx q n) Q (mkQsys k (<[q := x]> O) reg).
Proof.
  revert k. induction n as [|n IH]; intros k Hk Hl HQ; simpl; [by apply wp_ret, HQ, wakes_zero|].
  apply wp_bind, (wp_wake_first idle); [done..|].
  intros [b|] k1 Hw.
  - destruct Hw as (t & ts & Hw & Hwk). apply wp_bind, wp_missed, IH.
    + by apply missed_good, Hwk.
    + pose proof (wk_frame _ _ _ _ _ _ _ Hwk) as [Hf _]. destruct b; by apply Hf.
    + intros k' Hk'. apply HQ. by eapply wakes_one.
  - destruct Hw as [Hw ->]. by apply wp_ret, HQ, wakes_empty.
Qed.

Context (k : kernel).
Abbreviation st := (mkQsys k (<[q := x]> O) reg).

Lemma wp_unlockTx (Q : unit → qsys → Prop) :
  qgood idle st →
  (∀ k', wakes (WaitRecvL q) (Z.to_nat (cTxLock x)) k k' → Q tt (mkQsys k' (<[q := with_tx queueUNLOCKED x]> O) reg)) →
  wp (unlockTx q) Q st.
Proof.
  intros Hg HQ. pose proof (qgood_queue _ _ _ _ _ _ Hg) as Hq.
  unfold unlockTx. apply wp_bind, wp_get_front, wp_bind, wp_unlock_tx; [apply Hq|apply Hg|apply Hq|].
  intros k' Hk'. apply wp_set_front. by apply HQ.
Qed.
Lemma wp_unlockRx (Q : unit → qsys → Prop) :
  qgood idle st →
  (∀ k', wakes (WaitSendL q) (Z.to_nat (cRxLock x)) k k' → Q tt (mkQsys k' (<[q := with_rx queueUNLOCKED x]> O) reg)) →
  wp (unlockRx q) Q st.
Proof.
  intros Hg HQ. pose proof (qgood_queue _ _ _ _ _ _ Hg) as Hq.
  unfold unlockRx. apply wp_bind, wp_get_front, wp_bind, wp_unlock_rx; [apply Hg|apply Hq|].
  intros k' Hk'. apply wp_set_front. by apply HQ.
Qed.

(** The queue with both counts running. *)
Definition locked_queue : Queue_t :=
  let x1 := if cRxLock x =? queueUNLOCKED then with_rx queueLOCKED_UNMODIFIED x else x in
  if cTxLock x1 =? queueUNLOCKED then with_tx queueLOCKED_UNMODIFIED x1 else x1.
Lemma wp_prvLockQueue (Q : unit → qsys → Prop) :
  Q tt (mkQsys k (<[q := locked_queue]> O) reg) → wp (prvLockQueue q) Q st.
Proof.
  intros HQ. unfold prvLockQueue. apply wp_bind, wp_get_front, wp_bind, set_if_front, wp_bind, wp_get_front.
  by apply set_if_front.
Qed.
Lemma wp_prvIsQueueEmpty (Q : bool → qsys → Prop) : Q (uxMessagesWaiting x =? 0) st → wp (prvIsQueueEmpty q) Q st.
Proof. intros HQ. by apply wp_bind, wp_get_front, wp_ret. Qed.
Lemma wp_prvIsQueueFull (Q : bool → qsys → Prop) :
  Q (uxMessagesWaiting x =? uxLength x) st → wp (prvIsQueueFull q) Q st.
Proof. intros HQ. by apply wp_bind, wp_get_front, wp_bind, wp_get_front, wp_ret. Qed.
End q.

Lemma locked_queue_same x : same_queue x (locked_queue x) ∧ messages (locked_queue x) = messages x.
Proof. unfold locked_queue. destruct (cRxLock x =? _); simpl; destruct (_ =? queueUNLOCKED); by split; [split|]. Qed.
Lemma locked_queue_wf x : queue_wf x → queue_wf (locked_queue x).
Proof.
  intros Hwf. unfold locked_queue. unfold queueLOCKED_UNMODIFIED.
  destruct (cRxLock x =? _); simpl; destruct (_ =? queueUNLOCKED); repeat (apply with_tx_wf || apply with_rx_wf); done.
Qed.
End locking.
