(* ===== verification/QueueMachine.v ===== *)
(** * Tasks and interrupts over the queues

    The machine of [Prog] for the functions of queue.c: any number of tasks call
    the blocking functions, interrupts send, give and receive, the tick and the
    context switch come between any two steps.  No step fails, and the messages
    of the queues change as those of bounded lists do. *)
From S2P Require Import Prelude KList Tasks TasksInv TasksOps TasksMachine TasksWaiters.
From S2P Require Import TasksFrame TasksBlind TasksDetach Prog Queue QueueData QueueOps.
From Stdlib Require Import ZifyBool.

(** ** The abstract queues: bounded lists *)
Record aqueue := mkA { aq_capacity : Z; aq_messages : list (list Z) }.
Definition abs_queue (x : Queue_t) : aqueue := mkA (uxLength x) (messages x).
Definition abs (s : qsys) : gmap Z aqueue := abs_queue <$> q_objs s.

Inductive astep (a : gmap Z aqueue) : gmap Z aqueue → Prop :=
| a_quiet : astep a a
| a_send q c ms pos m : a !! q = Some (mkA c ms) →
    Z.of_nat (length ms) < c ∨ is_overwrite pos = true ∧ c = 1 →
    astep a (<[q := mkA c (send_messages pos m ms)]> a)
| a_receive q c m ms : a !! q = Some (mkA c (m :: ms)) → astep a (<[q := mkA c ms]> a).

Lemma abs_front k O reg q x : abs (mkQsys k (<[q := x]> O) reg) = <[q := abs_queue x]> (abs_queue <$> O).
Proof. unfold abs. simpl. by rewrite fmap_insert. Qed.
Lemma abs_update k k' O reg q x x' : abs_queue x' = abs_queue x →
  abs (mkQsys k' (<[q := x']> O) reg) = abs (mkQsys k (<[q := x]> O) reg).
Proof. intros He. by rewrite !abs_front, He. Qed.
Lemma abs_queue_same x x' : same_queue x x' → messages x' = messages x → abs_queue x' = abs_queue x.
Proof. intros [_ Hl _ _] Hm. unfold abs_queue. by rewrite Hl, Hm. Qed.

Section steps.
Context (k k' : kernel) (O : gmap Z Queue_t) (reg : list QueueRegistryItem_t) (q : Z) (x x' : Queue_t).
Context (Hwf : queue_wf x) (Hsame : same_queue x x').
Abbreviation aold := (abs (mkQsys k (<[q := x]> O) reg)).
Abbreviation anew := (abs (mkQsys k' (<[q := x']> O) reg)).

Lemma anew_insert : anew = <[q := mkA (uxLength x) (messages x')]> aold.
Proof. rewrite !abs_front, insert_insert_eq. unfold abs_queue. by rewrite (sq_length _ _ Hsame). Qed.
Lemma aold_lookup : aold !! q = Some (mkA (uxLength x) (messages x)).
Proof. rewrite abs_front. by rewrite lookup_insert_eq. Qed.
Lemma astep_quiet : messages x' = messages x → astep aold anew.
Proof. intros Hm. rewrite (abs_update k k' O reg q x x'); [constructor|by apply abs_queue_same]. Qed.
Lemma astep_sent pos m : has_room x pos = true → overwrite_ok x pos →
  messages x' = send_messages pos m (messages x) → astep aold anew.
Proof.
  intros Hr Hov Hm. rewrite anew_insert, Hm. apply a_send; [apply aold_lookup|].
  destruct (room_may_send x pos Hov Hr) as [[? ?]|(? & ? & ?)]; [left|by right].
  rewrite length_messages. pose proof (qw_count _ Hwf). lia.
Qed.
Lemma astep_received bs : messages x = bs :: messages x' → astep aold anew.
Proof. intros Hm. rewrite anew_insert. eapply a_receive. rewrite aold_lookup, Hm. done. Qed.
End steps.

(** ** The machine *)
Definition runs (t : Z) (s : qsys) : Prop :=
  pxCurrentTCB (q_kernel s) = Some t ∧ pendsv (q_kernel s) = false.

(** The functions a task calls. *)
Inductive qcall :=
| CSend (q : Z) (item : option (list Z)) (ticks : Z) (pos : copy_position)
| CReceive (q : Z) (buffer : bool) (ticks : Z)
| CPeek (q : Z) (buffer : bool) (ticks : Z)
| CTake (q : Z) (ticks : Z)
| CYield.
Definition code (c : qcall) : QP unit :=
  match c with
  | CSend q item ticks pos => let! _ := xQueueGenericSend q item ticks pos in Ret tt
  | CReceive q buffer ticks => let! _ := xQueueReceive q buffer ticks in Ret tt
  | CPeek q buffer ticks => let! _ := xQueuePeek q buffer ticks in Ret tt
  | CTake q ticks => let! _ := xQueueSemaphoreTake q ticks in Ret tt
  | CYield => Atomic (ker portYIELD_WITHIN_API)
  end.

(** The interrupts: the tick, the context switch, and handlers of devices that
    end in [portYIELD_FROM_ISR( xHigherPriorityTaskWoken )]. *)
Inductive qirq :=
| ITick
| IPendSV
| ISend (q : Z) (item : option (list Z)) (pos : copy_position)
| IGive (q : Z)
| IReceive (q : Z) (buffer : bool).
Definition yield_from_isr {A} (m : QM (A * option bool)) : QM unit :=
  let* (_, w) := m in when (match w with Some true => true | _ => false end) then ker portYIELD_WITHIN_API.
Definition irq (i : qirq) : QM unit :=
  match i with
  | ITick => ker xPortSysTickHandler
  | IPendSV => ker xPortPendSVHandler
  | ISend q item pos => yield_from_isr (xQueueGenericSendFromISR q item (Some false) pos)
  | IGive q => yield_from_isr (xQueueGiveFromISR q (Some false))
  | IReceive q buffer => yield_from_isr (xQueueReceiveFromISR q buffer (Some false))
  end.

(** The rules of the API: the queue exists, the buffer is as large as an item, a
    semaphore has items of size 0, [xQueueOverwrite] is for queues of one
    message, and the idle task does not block. *)
Definition of_queue (s : qsys) (q : Z) (F : Queue_t → Prop) : Prop := ∃ x, q_objs s !! q = Some x ∧ F x.
Definition send_ok (item : option (list Z)) (pos : copy_position) (x : Queue_t) : Prop :=
  item_ok x item = true ∧ overwrite_ok x pos.
Definition receive_ok (buffer : bool) (x : Queue_t) : Prop := buffer || (uxItemSize x =? 0) = true.
Definition semaphore (x : Queue_t) : Prop := uxItemSize x = 0.
Definition may_wait (idle t ticks : Z) : Prop := 0 ≤ ticks < MAX32 ∧ (ticks ≠ 0 → t ≠ idle).
#[export] Instance may_wait_dec idle t n : Decision (may_wait idle t n).
Proof. unfold may_wait. apply _. Defined.
Definition call_enabled (idle t : Z) (c : qcall) (s : qsys) : Prop :=
  match c with
  | CSend q item ticks pos => of_queue s q (send_ok item pos) ∧ may_wait idle t ticks
  | CReceive q buffer ticks | CPeek q buffer ticks => of_queue s q (receive_ok buffer) ∧ may_wait idle t ticks
  | CTake q ticks => of_queue s q semaphore ∧ may_wait idle t ticks
  | CYield => True
  end.
Definition irq_enabled (i : qirq) (s : qsys) : Prop :=
  match i with
  | ITick => True
  | IPendSV => pendsv (q_kernel s) = true
  | ISend q item pos => of_queue s q (send_ok item pos)
  | IGive q => of_queue s q semaphore
  | IReceive q buffer => of_queue s q (receive_ok buffer)
  end.

(** ** What the steps of the others leave task [t] *)
Definition same_queues (s s' : qsys) : Prop :=
  ∀ q x, q_objs s !! q = Some x → ∃ x', q_objs s' !! q = Some x' ∧ same_queue x x'.
Record env (t : Z) (s s' : qsys) : Prop := {
  en_queues : same_queues s s';
  en_abs : astep (abs s) (abs s');
  en_locked : pxCurrentTCB (q_kernel s) = Some t → uxSchedulerSuspended (q_kernel s) = 1 →
    pxCurrentTCB (q_kernel s') = Some t ∧ uxSchedulerSuspended (q_kernel s') = 1 ∧
    (ready (q_kernel s) t = true → ready (q_kernel s') t = true);
  en_running : pxCurrentTCB (q_kernel s') = Some t →
    (uxSchedulerSuspended (q_kernel s') = 0 ∧ ready (q_kernel s') t = true) ∨
    (pxCurrentTCB (q_kernel s) = Some t ∧
     uxSchedulerSuspended (q_kernel s') = uxSchedulerSuspended (q_kernel s) ∧
     (ready (q_kernel s) t = true → ready (q_kernel s') t = true) ∧
     (pendsv (q_kernel s) = true → uxSchedulerSuspended (q_kernel s) = 0 → pendsv (q_kernel s') = true))
}.
Lemma env_refl t s : env t s s.
Proof. split; [|constructor|done|by right]. intros q x Hq. by exists x. Qed.

(** A step of a task leaves it the running one. *)
Definition own_step (s s' : qsys) : Prop :=
  pxCurrentTCB (q_kernel s') = pxCurrentTCB (q_kernel s) ∧ same_queues s s' ∧ astep (abs s) (abs s').
(** A step of an interrupt other than the context switch. *)
Lemma env_irq t s s' : evolves s s' → astep (abs s) (abs s') → env t s s'.
Proof.
  intros [[Hf Hs] Hr Hq] Ha. split; [done|done| |].
  - rewrite (fr_current _ _ Hf), Hs. intros ??. split_and!; [done|done|apply Hr].
  - rewrite (fr_current _ _ Hf), Hs. intros ?. right. split_and!; [done|done|apply Hr|].
    intros ? _. by apply (fr_pendsv _ _ Hf).
Qed.

(** ** The interrupts keep the rules *)
Section machine.
Context (idle : Z).
Abbreviation qsafe := (safe runs (qgood idle) env).

Lemma yielded_evolves b k O reg : evolves (mkQsys k O reg) (mkQsys (yielded b k) O reg).
Proof. destruct (yielded_frame b k) as [Hf Hr]. split; [exact Hf|exact Hr|]. intros q x Hq. by exists x. Qed.
Lemma wp_yield_from_isr {A} (m : QM (A * option bool)) s :
  wp m (λ _ s', qgood idle s' ∧ evolves s s' ∧ astep (abs s) (abs s')) s →
  wp (yield_from_isr m) (λ _ s', qgood idle s' ∧ ∀ t, env t s s') s.
Proof.
  intros Hm. unfold yield_from_isr. apply wp_bind. eapply wp_mono; [exact Hm|]. intros [a w] [k O reg] (Hg & He & Ha).
  apply wp_yield_ker. pose proof (yielded_evolves (match w with Some true => true | _ => false end) k O reg) as He'.
  split.
  - destruct Hg as [Hk Hs Hr Hn HQ]. destruct (ev_frame _ _ He') as [Hf Hsu]. simpl in *.
    split; simpl; [by apply yielded_good|by rewrite Hsu|by rewrite (fr_running _ _ Hf)|by rewrite (fr_number _ _ Hf)|].
    intros q x Hq. by apply (queue_ok_frame k); [|apply HQ].
  - intros t. apply env_irq; [by etrans|done].
Qed.

(** A queue has changed as [x'] and the kernel as [k']. *)
Lemma step_update k k' O reg q x x' :
  qgood idle (mkQsys k (<[q := x]> O) reg) → kgood idle k' → frame k k' → kept_ready k k' →
  same_queue x x' → queue_wf x' →
  qgood idle (mkQsys k' (<[q := x']> O) reg) ∧ evolves (mkQsys k (<[q := x]> O) reg) (mkQsys k' (<[q := x']> O) reg).
Proof. intros. split; [by eapply qgood_update|by apply evolves_update]. Qed.

Lemma isr_after_step k O reg q x x1 l count lock p p' s' :
  qgood idle (mkQsys k (<[q := x]> O) reg) → updated x x1 →
  (∀ c, same_queue x1 (count c x1)) → (∀ c, -1 ≤ c ≤ 127 → queue_wf x1 → queue_wf (count c x1)) →
  (∀ c, messages (count c x1) = messages x1) → lock ≤ 127 →
  isr_after idle k O reg q l lock count p x1 p' s' →
  ∃ k' x', s' = mkQsys k' (<[q := x']> O) reg ∧ qgood idle s' ∧ evolves (mkQsys k (<[q := x]> O) reg) s' ∧
    same_queue x x' ∧ messages x' = messages x1.
Proof.
  intros Hg [Hwf1 Hsame1 _ _] Hc Hcwf Hcm Hlock Ha. pose proof (qg_tasks _ _ Hg) as Hn. simpl in Hn.
  destruct Ha as [w k' _ Hw|Hl].
  - destruct (woken_first_frame _ _ _ _ _ Hw) as [Hf Hr].
    exists k', x1. split; [done|].
    destruct (step_update k k' O reg q x x1) as [? ?]; try done.
    apply (woken_first_good idle k l w); [apply Hg|done].
  - set (x' := if lock <? uxCurrentNumberOfTasks k then count (lock + 1) x1 else x1).
    assert (same_queue x1 x' ∧ queue_wf x' ∧ messages x' = messages x1) as (Hs & Hwf & Hm).
    { unfold x'. destruct (Z.ltb_spec lock (uxCurrentNumberOfTasks k)); [|done].
      split_and!; [done|apply Hcwf; [lia|done]|done]. }
    exists k, x'. split; [done|]. destruct (step_update k k O reg q x x') as [? ?]; try done; [apply Hg|by etrans|].
    split_and!; [done..| |done]. by etrans.
Qed.

Lemma isr_tx_step k O reg q x x1 p p' s' :
  qgood idle (mkQsys k (<[q := x]> O) reg) → updated x x1 →
  isr_after idle k O reg q (WaitRecvL q) (cTxLock x) with_tx p x1 p' s' →
  ∃ k' x', s' = mkQsys k' (<[q := x']> O) reg ∧ qgood idle s' ∧ evolves (mkQsys k (<[q := x]> O) reg) s' ∧
    same_queue x x' ∧ messages x' = messages x1.
Proof.
  intros Hg Hup Ha. pose proof (qo_wf _ _ _ (qgood_queue _ _ _ _ _ _ Hg)) as Hwf.
  eapply (isr_after_step k O reg q x x1); [exact Hg|exact Hup|..|exact Ha]; [by intros c; split| |reflexivity|apply Hwf].
  intros c Hc ?. by apply with_tx_wf.
Qed.
Lemma isr_rx_step k O reg q x x1 p p' s' :
  qgood idle (mkQsys k (<[q := x]> O) reg) → updated x x1 →
  isr_after idle k O reg q (WaitSendL q) (cRxLock x) with_rx p x1 p' s' →
  ∃ k' x', s' = mkQsys k' (<[q := x']> O) reg ∧ qgood idle s' ∧ evolves (mkQsys k (<[q := x]> O) reg) s' ∧
    same_queue x x' ∧ messages x' = messages x1.
Proof.
  intros Hg Hup Ha. pose proof (qo_wf _ _ _ (qgood_queue _ _ _ _ _ _ Hg)) as Hwf.
  eapply (isr_after_step k O reg q x x1); [exact Hg|exact Hup|..|exact Ha]; [by intros c; split| |reflexivity|apply Hwf].
  intros c Hc ?. by apply with_rx_wf.
Qed.

Lemma irqs_safe i s : qgood idle s → irq_enabled i s → wp (irq i) (λ _ s', qgood idle s' ∧ ∀ t, env t s s') s.
Proof.
  intros Hg He. destruct i as [| |q item pos|q|q buffer]; simpl in *.
  - (* the tick *)
    destruct s as [k O reg]. apply wp_ker. eapply (wp_mono _ (λ r k', (kgood idle k' ∧ kept_ready k k') ∧ frame k k')).
    { apply wp_frame; [auto with keeps|]. by apply kg_tick, Hg. }
    intros _ k' ((Hk & Hr) & Hf). assert (evolves (mkQsys k O reg) (mkQsys k' O reg)) as Hev.
    { split; [done|done|]. intros q x Hq. by exists x. }
    split; [|intros t; apply env_irq; [done|constructor]]. destruct Hg as [_ Hs Hru Hn HQ], Hf as [Hf Hsu]. simpl in *.
    split; simpl; [done|by rewrite Hsu|by rewrite (fr_running _ _ Hf)|by rewrite (fr_number _ _ Hf)|].
    intros q x Hq. by apply (queue_ok_frame k); [|apply HQ].
  - (* the context switch *)
    destruct s as [k O reg]. apply wp_ker. eapply wp_mono; [apply kg_switch, Hg|].
    intros _ k' (Hk & Hr & Hsu & _ & Hru & Hn & Hl & Hc). destruct Hg as [_ Hs Hru0 Hn0 HQ]. simpl in *.
    split; [split; simpl; [done|by rewrite Hsu|by rewrite Hru|by rewrite Hn|]|].
    { intros q x Hq. destruct (HQ q x Hq). split; try done; by apply Hl. }
    intros t. split; simpl; [intros q x Hq; by exists x|constructor| |].
    + intros Hct H1. destruct (Z.eqb_spec (uxSchedulerSuspended k) 0); [lia|]. split_and!; [congruence|congruence|apply Hr].
    + intros Hct. destruct (Z.eqb_spec (uxSchedulerSuspended k) 0) as [Hz|Hnz].
      * destruct Hc as (c & Hc & Hrc). left. split; [congruence|]. by simplify_eq.
      * right. split_and!; [congruence|done|apply Hr|done].
  - destruct He as (x & Hx & Hitem & Hov). rewrite (state_front s q x Hx) in Hg |- *.
    pose proof (qgood_queue _ _ _ _ _ _ Hg) as Hq.
    apply wp_yield_from_isr, (wp_xQueueGenericSendFromISR idle); [done..| |].
    + intros x1 p' s' Hr Hup Hm Ha. eapply isr_tx_step in Ha as (k' & x' & -> & ? & ? & Hs & Hm'); [|exact Hg|exact Hup].
      split_and!; [done|done|]. eapply astep_sent; [apply Hq|done..|]. by rewrite Hm', Hm.
    + intros _. split_and!; [done|done|constructor].
  - destruct He as (x & Hx & H0). unfold semaphore in H0. rewrite (state_front s q x Hx) in Hg |- *.
    pose proof (qgood_queue _ _ _ _ _ _ Hg) as Hq.
    apply wp_yield_from_isr, (wp_xQueueGiveFromISR idle); [done..| |].
    + intros x1 p' s' Hr Hup Hm Ha. eapply isr_tx_step in Ha as (k' & x' & -> & ? & ? & Hs & Hm'); [|exact Hg|exact Hup].
      split_and!; [done|done|]. eapply (astep_sent _ _ _ _ _ x x' (qo_wf _ _ _ Hq) Hs queueSEND_TO_BACK []); [|done|].
      * unfold has_room. by rewrite (proj2 (Z.ltb_lt _ _) Hr).
      * by rewrite Hm', Hm.
    + intros _. split_and!; [done|done|constructor].
  - destruct He as (x & Hx & Hb). rewrite (state_front s q x Hx) in Hg |- *.
    pose proof (qgood_queue _ _ _ _ _ _ Hg) as Hq.
    apply wp_yield_from_isr, (wp_xQueueReceiveFromISR idle); [done..| |].
    + intros bs x1 p' s' Hr [Hup Hm] Ha. eapply isr_rx_step in Ha as (k' & x' & -> & ? & ? & Hs & Hm'); [|exact Hg|exact Hup].
      split_and!; [done|done|]. eapply (astep_received _ _ _ _ _ x x' Hs bs). by rewrite Hm', Hm.
    + intros _. split_and!; [done|done|constructor].
Qed.

(** ** The tasks keep them *)

(** Task [t] is in no function: when it runs, the scheduler is not suspended and
    it is ready, unless a switch is pending. *)
Definition home (t : Z) (s : qsys) : Prop :=
  pxCurrentTCB (q_kernel s) = Some t → uxSchedulerSuspended (q_kernel s) = 0 ∧
    (pendsv (q_kernel s) = true ∨ ready (q_kernel s) t = true).

(** What is fixed when a queue is created. *)
Class Fixed (F : Queue_t → Prop) : Prop := fixed : ∀ x x', same_queue x x' → F x → F x'.

Section task.
Context (t q : Z) (F : Queue_t → Prop) `{HF : !Fixed F}.

(** The points of a function on queue [q]: running, about to yield, in the
    scheduler lock, and there after the task has blocked itself. *)
Definition at_run (s : qsys) : Prop := home t s ∧ of_queue s q F.
Definition at_yield (s : qsys) : Prop :=
  (pxCurrentTCB (q_kernel s) = Some t → uxSchedulerSuspended (q_kernel s) = 0) ∧ of_queue s q F.
Definition at_blocked (s : qsys) : Prop :=
  pxCurrentTCB (q_kernel s) = Some t ∧ uxSchedulerSuspended (q_kernel s) = 1 ∧ of_queue s q F.
Definition at_lock (s : qsys) : Prop := at_blocked s ∧ ready (q_kernel s) t = true.

Lemma of_queue_same s s' : same_queues s s' → of_queue s q F → of_queue s' q F.
Proof. intros Hs (x & (x' & Hx' & Hsame)%Hs & Hx). exists x'. split; [done|by eapply fixed]. Qed.

Lemma stable_home u : stable (qgood idle) env u (home u).
Proof.
  intros s s' _ _ He Hh Hc. destruct (en_running _ _ _ He Hc) as [[? ?]|(Hc0 & Hsu & Hr & Hp)]; [auto|].
  destruct (Hh Hc0) as [Hs [?|?]]; (split; [congruence|]); [left|right]; auto.
Qed.
Lemma stable_run : stable (qgood idle) env t at_run.
Proof.
  intros s s' Hg Hg' He [Hh Hq]. split; [exact (stable_home t s s' Hg Hg' He Hh)|].
  eapply of_queue_same; [by eapply en_queues|done].
Qed.
Lemma stable_yield : stable (qgood idle) env t at_yield.
Proof.
  intros s s' _ _ He [Hh Hq]. split; [|eapply of_queue_same; [by eapply en_queues|done]]. intros Hc.
  destruct (en_running _ _ _ He Hc) as [[? ?]|(Hc0 & Hsu & Hr & Hp)]; [done|]. rewrite Hsu. auto.
Qed.
Lemma stable_blocked : stable (qgood idle) env t at_blocked.
Proof.
  intros s s' _ _ He (Hc & Hs & Hq). destruct (en_locked _ _ _ He Hc Hs) as (? & ? & _).
  split_and!; [done..|]. eapply of_queue_same; [by eapply en_queues|done].
Qed.
Lemma stable_lock : stable (qgood idle) env t at_lock.
Proof.
  intros s s' Hg Hg' He [Hb Hr]. split; [exact (stable_blocked s s' Hg Hg' He Hb)|]. destruct Hb as (Hc & Hs & _).
  destruct (en_locked _ _ _ He Hc Hs) as (_ & _ & H). auto.
Qed.

(** *** Steps *)
Lemma safe_atomic {A} (m : QM A) P Q :
  (∀ s, qgood idle s → runs t s → P s → wp m (λ a s', qgood idle s' ∧ own_step s s' ∧ Q a s') s) →
  qsafe t (Atomic m) P Q.
Proof.
  intros Hm s Hg Hr HP. eapply wp_mono; [by apply Hm|]. intros a s' (Hg' & (Hc & Hq & Ha) & HQ).
  split; [|done]. split; [done|]. intros u Hne. destruct Hr as [Hrun _].
  split; [done|done|intros ?; congruence|intros ?; congruence].
Qed.
Lemma evolves_own s s' : evolves s s' → astep (abs s) (abs s') → own_step s s'.
Proof. intros [[Hf _] _ Hq] Ha. split; [apply (fr_current _ _ Hf)|by split]. Qed.
Lemma evolves_blocked s s' : evolves s s' → at_blocked s → at_blocked s'.
Proof.
  intros [[Hf Hs] _ Hq] (Hc & Hsu & Ho). split_and!; [by rewrite (fr_current _ _ Hf)|by rewrite Hs|by eapply of_queue_same].
Qed.
Lemma evolves_lock s s' : evolves s s' → at_lock s → at_lock s'.
Proof. intros He [Hb Hr]. split; [by eapply evolves_blocked|]. by apply (ev_kept _ _ He). Qed.
Lemma evolves_run s s' : evolves s s' → at_run s → at_run s'.
Proof.
  intros [[Hf Hs] Hr Hq] [Hh Ho]. split; [|by eapply of_queue_same]. unfold home. rewrite (fr_current _ _ Hf), Hs.
  intros Hc. destruct (Hh Hc) as [? [?|?]]; split; [done|left; by apply (fr_pendsv _ _ Hf)|done|right; by apply Hr].
Qed.
Lemma run_ready s : runs t s → at_run s → uxSchedulerSuspended (q_kernel s) = 0 ∧ ready (q_kernel s) t = true.
Proof. intros [Hc Hp] [Hh _]. destruct (Hh Hc) as [? [?|?]]; [congruence|done]. Qed.

(** A step that changes nothing the others see. *)
Lemma safe_quiet {A} (m : QM A) (P : qsys → Prop) (R : A → Prop) :
  (∀ s s', evolves s s' → P s → P s') →
  (∀ s, qgood idle s → runs t s → P s → wp m (λ a s', qgood idle s' ∧ evolves s s' ∧ abs s' = abs s ∧ R a) s) →
  qsafe t (Atomic m) P (λ a s, P s ∧ R a).
Proof.
  intros HP Hm. apply safe_atomic. intros s Hg Hr Hs. eapply wp_mono; [by apply Hm|].
  intros a s' (? & ? & Ha & ?). split_and!; [done| |by eapply HP|done].
  apply evolves_own; [done|]. rewrite Ha. constructor.
Qed.

Lemma stable_pure (P : qsys → Prop) (R : Prop) :
  stable (qgood idle) env t P → stable (qgood idle) env t (λ s, P s ∧ R).
Proof. intros HP s s' Hg Hg' He [Hs ?]. split; [exact (HP s s' Hg Hg' He Hs)|done]. Qed.
Lemma safe_bind {A B} (p : QP A) (f : A → QP B) P R Q :
  (∀ a, stable (qgood idle) env t (R a)) → qsafe t p P R → (∀ a, qsafe t (f a) (R a) Q) →
  qsafe t (Bind p f) P Q.
Proof. intros HR Hp Hf. by exists R. Qed.

(** *** The scheduler lock *)

(** The kernel has changed, the queues have not. *)
Lemma ker_step k k' O reg :
  qgood idle (mkQsys k O reg) → kgood idle k' → frame0 k k' → 0 ≤ uxSchedulerSuspended k' ≤ 1 →
  qgood idle (mkQsys k' O reg) ∧ own_step (mkQsys k O reg) (mkQsys k' O reg).
Proof.
  intros [_ Hs Hr Hn HQ] Hk' Hf Hs'. split.
  - split; simpl; [done..|by rewrite (fr_running _ _ Hf)|by rewrite (fr_number _ _ Hf)|].
    intros q' x Hx. by apply (queue_ok_frame k); [|apply HQ].
  - split_and!; [apply (fr_current _ _ Hf)|intros q' x Hx; by exists x|constructor].
Qed.
Lemma ker_evolves k k' O reg :
  qgood idle (mkQsys k O reg) → kgood idle k' → frame k k' → kept_ready k k' →
  qgood idle (mkQsys k' O reg) ∧ evolves (mkQsys k O reg) (mkQsys k' O reg).
Proof.
  intros Hg Hk' Hf Hr. split.
  - apply (ker_step k); [done|done|apply Hf|]. destruct Hf as [_ Hf]. rewrite Hf. apply Hg.
  - split; [done|done|]. intros q' x Hx. by exists x.
Qed.

Lemma safe_suspend : qsafe t (Atomic (ker vTaskSuspendAll)) at_run (λ _, at_lock).
Proof.
  apply safe_atomic. intros [k O reg] Hg Hr HP. pose proof (run_ready _ Hr HP) as [Hs Hrd].
  apply wp_ker. eapply (wp_mono _ (λ _ k', (kgood idle k' ∧ kept_ready k k' ∧ uxSchedulerSuspended k' = 1) ∧ frame0 k k')).
  { apply wp_frame0; [auto with keeps|]. by apply kg_suspend; [apply Hg|]. }
  intros _ k' ((Hk & Hkept & Hs') & Hf). destruct (ker_step k k' O reg) as [? ?]; [done|done|done|lia|].
  split_and!; [done..|]. destruct HP as [_ Hq], Hr as [Hc _]. split; [|by apply Hkept].
  split_and!; [by rewrite <- Hc; apply (fr_current _ _ Hf)|done|done].
Qed.
Lemma safe_resume : qsafe t (Atomic (ker xTaskResumeAll)) at_lock (λ _, at_run).
Proof.
  apply safe_atomic. intros [k O reg] Hg Hr [(Hc & Hs & Hq) Hrd].
  apply wp_ker. eapply wp_mono; [by apply kg_resume; [apply Hg|]|].
  intros b k' (Hk & Hkept & Hs' & _ & _ & _ & Hf & _). destruct (ker_step k k' O reg) as [? ?]; [done|done|done|lia|].
  split_and!; [done..|]. split; [|done]. intros _. split; [done|right; by apply Hkept].
Qed.
Lemma safe_resume_blocked :
  qsafe t (Atomic (ker xTaskResumeAll)) at_blocked (λ b, if b then at_run else at_yield).
Proof.
  apply safe_atomic. intros [k O reg] Hg Hr (Hc & Hs & Hq).
  apply wp_ker. eapply wp_mono; [by apply kg_resume; [apply Hg|]|].
  intros b k' (Hk & Hkept & Hs' & _ & Hb & _ & Hf & _). destruct (ker_step k k' O reg) as [? ?]; [done|done|done|lia|].
  split_and!; [done..|]. destruct b; (split; [|done]); intros _; [|done]. split; [done|left; by apply Hb].
Qed.
Lemma safe_portYIELD (P : qsys → Prop) : (∀ s, P s → at_yield s) →
  qsafe t (Atomic (ker portYIELD_WITHIN_API)) P (λ _, at_run).
Proof.
  intros HP. apply safe_atomic. intros [k O reg] Hg Hr [Hs Hq]%HP. apply wp_ker, wp_modify.
  destruct (ker_step k (pend k) O reg) as [? ?]; [done|by apply kgood_pend'; apply Hg|apply frame_pend|apply Hg|].
  split_and!; [done..|]. split; [|done]. intros Hc. split; [apply Hs; by destruct Hr|by left].
Qed.

(** *** The queue lock *)
Lemma of_front s : of_queue s q F → ∃ k O reg x, s = mkQsys k (<[q := x]> O) reg ∧ F x.
Proof. intros (x & Hx & HFx). exists (q_kernel s), (q_objs s), (xQueueRegistry s), x. split; [by apply state_front|done]. Qed.
Lemma safe_on_queue {A} (m : QM A) (P : qsys → Prop) (R : A → Prop) :
  (∀ s s', evolves s s' → P s → P s') → (∀ s, P s → of_queue s q F) →
  (∀ k O reg x, qgood idle (mkQsys k (<[q := x]> O) reg) → F x → pxCurrentTCB k = Some t → 
     P (mkQsys k (<[q := x]> O) reg) →
     wp m (λ a s', ∃ k' x', s' = mkQsys k' (<[q := x']> O) reg ∧ kgood idle k' ∧ frame k k' ∧ kept_ready k k' ∧
       same_queue x x' ∧ queue_wf x' ∧ messages x' = messages x ∧ R a) (mkQsys k (<[q := x]> O) reg)) →
  qsafe t (Atomic m) P (λ a s, P s ∧ R a).
Proof.
  intros HP Hof Hm. apply safe_quiet; [done|]. intros s Hg Hr HPs.
  destruct (of_front s (Hof s HPs)) as (k & O & reg & x & -> & HFx).
  eapply wp_mono; [by apply Hm, HPs; [..|apply Hr]|]. intros a s' (k' & x' & -> & Hk & Hf & Hkept & Hsame & Hwf & Hms & HR).
  destruct (step_update k k' O reg q x x') as [? ?]; [done..|]. split_and!; [done|done| |done].
  symmetry. apply abs_update. symmetry. by apply abs_queue_same.
Qed.

(** The points that an evolving queue does not leave. *)
Class Point (P : qsys → Prop) : Prop := {
  pt_stable : stable (qgood idle) env t P;
  pt_evolves s s' : evolves s s' → P s → P s';
  pt_queue s : P s → of_queue s q F
}.
#[export] Instance point_run : Point at_run.
Proof. split; [apply stable_run|apply evolves_run|by intros s [_ ?]]. Qed.
#[export] Instance point_lock : Point at_lock.
Proof. split; [apply stable_lock|apply evolves_lock|by intros s [(_ & _ & ?) _]]. Qed.
#[export] Instance point_blocked : Point at_blocked.
Proof. split; [apply stable_blocked|apply evolves_blocked|by intros s (_ & _ & ?)]. Qed.

Lemma safe_drop {A} (p : QP A) P : qsafe t p P (λ _ s, P s ∧ True) → qsafe t p P (λ _, P).
Proof. apply safe_post. by intros a s _ [? _]. Qed.
Lemma safe_prvLockQueue `{Point P} : qsafe t (Atomic (prvLockQueue q)) P (λ _, P).
Proof.
  apply safe_drop.
  apply safe_on_queue; [apply pt_evolves|apply pt_queue|]. intros k O reg x Hg _ _ _. apply wp_prvLockQueue.
  destruct (locked_queue_same x) as [Hs Hm]. pose proof (qgood_queue _ _ _ _ _ _ Hg) as Hq.
  exists k, (locked_queue x). split_and!; try done; [apply Hg|apply locked_queue_wf, Hq].
Qed.
Lemma safe_unlockTx `{Point P} : qsafe t (Atomic (unlockTx q)) P (λ _, P).
Proof.
  apply safe_drop.
  apply safe_on_queue; [apply pt_evolves|apply pt_queue|]. intros k O reg x Hg _ _ _.
  apply (wp_unlockTx idle); [done|]. intros k' Hw. pose proof (qgood_queue _ _ _ _ _ _ Hg) as Hq.
  destruct (wakes_good _ _ _ _ _ Hw (qg_kernel _ _ Hg)) as (? & ? & ?).
  exists k', (with_tx queueUNLOCKED x). split_and!; try done. apply with_tx_wf; [apply Hq|done].
Qed.
Lemma safe_unlockRx `{Point P} : qsafe t (Atomic (unlockRx q)) P (λ _, P).
Proof.
  apply safe_drop.
  apply safe_on_queue; [apply pt_evolves|apply pt_queue|]. intros k O reg x Hg _ _ _.
  apply (wp_unlockRx idle); [done|]. intros k' Hw. pose proof (qgood_queue _ _ _ _ _ _ Hg) as Hq.
  destruct (wakes_good _ _ _ _ _ Hw (qg_kernel _ _ Hg)) as (? & ? & ?).
  exists k', (with_rx queueUNLOCKED x). split_and!; try done. apply with_rx_wf; [apply Hq|done].
Qed.
Lemma safe_unlock `{Point P} : qsafe t (prvUnlockQueue q) P (λ _, P).
Proof. apply (safe_bind _ _ _ (λ _, P)); [intros _; apply pt_stable|apply safe_unlockTx|intros _; apply safe_unlockRx]. Qed.
Lemma safe_empty `{Point P} : qsafe t (Atomic (prvIsQueueEmpty q)) P (λ _, P).
Proof.
  apply safe_drop.
  apply safe_on_queue; [apply pt_evolves|apply pt_queue|]. intros k O reg x Hg _ _ _. apply wp_prvIsQueueEmpty.
  pose proof (qgood_queue _ _ _ _ _ _ Hg) as Hq. exists k, x. split_and!; try done; [apply Hg|apply Hq].
Qed.
Lemma safe_full `{Point P} : qsafe t (Atomic (prvIsQueueFull q)) P (λ _, P).
Proof.
  apply safe_drop.
  apply safe_on_queue; [apply pt_evolves|apply pt_queue|]. intros k O reg x Hg _ _ _. apply wp_prvIsQueueFull.
  pose proof (qgood_queue _ _ _ _ _ _ Hg) as Hq. exists k, x. split_and!; try done; [apply Hg|apply Hq].
Qed.
Lemma safe_check_timeout o n : 0 ≤ n < MAX32 →
  qsafe t (Atomic (ker (xTaskCheckForTimeOut o n))) at_lock
    (λ '(e, _, n') s, at_lock s ∧ (0 ≤ n' < MAX32 ∧ (e = false → 0 < n'))).
Proof.
  intros Hn. pose proof (safe_quiet (ker (xTaskCheckForTimeOut o n)) at_lock
    (λ '(e, _, n'), 0 ≤ n' < MAX32 ∧ (e = false → 0 < n')) evolves_lock) as Hq.
  eapply safe_post; [|apply Hq]; [by intros [[e o'] n'] s|].
  intros [k O reg] Hg Hr HP. apply wp_ker, (kg_check_timeout idle); [apply Hg|done|].
  intros e o' n' k' Hk' Hf Hkept _ _ H1 H2. destruct (ker_evolves k k' O reg) as [? ?]; [done..|].
  split; [done|split; [done|split; [reflexivity|by split]]].
Qed.
Lemma safe_place l n : l = WaitSendL q ∨ l = WaitRecvL q → t ≠ idle → 0 < n < MAX32 →
  qsafe t (Atomic (ker (vTaskPlaceOnEventList l n))) at_lock (λ _, at_blocked).
Proof.
  intros Hl Hne Hn. apply safe_atomic. intros [k O reg] Hg Hr [(Hc & Hs & Hq) Hrd]. apply wp_ker.
  assert (has_list (k_lists k) l) as HL.
  { destruct Hq as (x & Hx & _). pose proof (qg_queues _ _ Hg _ _ Hx) as [].  by destruct Hl as [-> | ->]. }
  eapply wp_mono; [by apply (kg_place idle k t l n); [apply Hg|..|destruct Hl as [-> | ->]|]|].
  intros _ k' [Hk' [Hf Hs'] _ _ _]. destruct (ker_step k k' O reg) as [? ?]; [done|done|done|rewrite Hs'; apply Hg|].
  split_and!; [done..|]. split; [exact (eq_trans (fr_current _ _ Hf) Hc)|split; [exact (eq_trans Hs' Hs)|exact Hq]].
Qed.

(** *** The end of a turn *)
Lemma safe_unlock_and_resume : qsafe t (unlock_and_resume q) at_lock (λ _, at_run).
Proof.
  apply (safe_bind _ _ _ (λ _, at_lock)); [intros _; apply stable_lock|apply safe_unlock|]. intros _.
  apply (safe_bind _ _ _ (λ _, at_run)); [intros _; apply stable_run|apply safe_resume|]. by intros _ s _ ?.
Qed.
Lemma safe_unlock_and_block : qsafe t (unlock_and_block q) at_blocked (λ _, at_run).
Proof.
  apply (safe_bind _ _ _ (λ _, at_blocked)); [intros _; apply stable_blocked|apply safe_unlock|]. intros _.
  apply (safe_bind _ _ _ (λ b : bool, if b then at_run else at_yield)); [|apply safe_resume_blocked|].
  - intros []; [apply stable_run|apply stable_yield].
  - intros []; [by intros s _ ?|by apply safe_portYIELD].
Qed.

(** *** The critical sections *)
Lemma safe_try {A} (m : QM (TimeOut_t + A)) (n : Z) :
  (∀ k O reg x, qgood idle (mkQsys k (<[q := x]> O) reg) → F x →
     wp m (λ r s', qgood idle s' ∧ evolves (mkQsys k (<[q := x]> O) reg) s' ∧
       astep (abs (mkQsys k (<[q := x]> O) reg)) (abs s') ∧ (match r with inl _ => n ≠ 0 | inr _ => True end))
       (mkQsys k (<[q := x]> O) reg)) →
  qsafe t (Atomic m) at_run (λ r s, at_run s ∧ match r with inl _ => n ≠ 0 | inr _ => True end).
Proof.
  intros Hm. apply safe_atomic. intros s Hg Hr HP. destruct (of_front s (pt_queue s HP)) as (k & O & reg & x & -> & HFx).
  eapply wp_mono; [by apply Hm|]. intros r s' (? & He & Ha & Hn). split_and!; [done|by apply evolves_own| |done].
  by eapply evolves_run.
Qed.

(** The assertions at the head of a function. *)
Definition running (k : kernel) : Prop := xSchedulerRunning k = true ∧ uxSchedulerSuspended k = 0.
Lemma wp_assert_may_block k O reg n (Q : unit → qsys → Prop) :
  running k → Q tt (mkQsys k O reg) → wp (assert_may_block n) Q (mkQsys k O reg).
Proof.
  intros [Hru Hs] HQ. unfold assert_may_block. apply wp_bind, wp_ker. unfold xTaskGetSchedulerState.
  apply wp_bind, wp_getM. rewrite Hru, Hs. by apply wp_ret, wp_assert.
Qed.
Lemma safe_asserts (m : QM unit) :
  (∀ k O reg x, qgood idle (mkQsys k (<[q := x]> O) reg) → F x → running k →
     wp m (λ _ s', s' = mkQsys k (<[q := x]> O) reg) (mkQsys k (<[q := x]> O) reg)) →
  qsafe t (Atomic m) at_run (λ _, at_run).
Proof.
  intros Hm. apply safe_atomic. intros s Hg Hr HP. destruct (of_front s (pt_queue s HP)) as (k & O & reg & x & -> & HFx).
  destruct (run_ready _ Hr HP) as [Hs _]. simpl in Hs. pose proof (qg_running _ _ Hg) as Hru. simpl in Hru.
  eapply wp_mono; [by apply Hm|]. intros _ s' ->. split_and!; [done| |done].
  apply evolves_own; [done|constructor].
Qed.
Lemma wp_assert_handle k O reg x (Q : unit → qsys → Prop) :
  qgood idle (mkQsys k (<[q := x]> O) reg) → Q tt (mkQsys k (<[q := x]> O) reg) →
  wp (assert_handle q) Q (mkQsys k (<[q := x]> O) reg).
Proof.
  intros Hg HQ. apply wp_assert; [|done]. pose proof (qo_handle _ _ _ (qgood_queue _ _ _ _ _ _ Hg)).
  by destruct (Z.eqb_spec q 0).
Qed.
Lemma wp_assert_buffer k O reg x b (Q : unit → qsys → Prop) :
  b || (uxItemSize x =? 0) = true → Q tt (mkQsys k (<[q := x]> O) reg) →
  wp (assert_buffer q b) Q (mkQsys k (<[q := x]> O) reg).
Proof.
  intros Hb HQ. apply wp_bind, wp_get_front, wp_assert; [|done]. destruct b; [done|]. simpl in *. by rewrite Hb.
Qed.

(** A point of the program between two parts. *)
Lemma safe_seq {A B} P R (p : QP A) (f : A → QP B) Q : Point R →
  qsafe t p P (λ _, R) → (∀ a, qsafe t (f a) R Q) → qsafe t (Bind p f) P Q.
Proof. intros HR Hp Hf. apply (safe_bind _ _ _ (λ _, R)); [intros _; apply pt_stable|done|done]. Qed.
Lemma safe_ret {A} (a : A) (P : qsys → Prop) (Q : A → qsys → Prop) : (∀ s, P s → Q a s) → qsafe t (Ret a) P Q.
Proof. intros HQ s _ Hs. by apply HQ. Qed.
(** The scheduler and queue locks taken and the time checked. *)
Lemma safe_locked {B} (o : TimeOut_t) (n : Z) (f : bool * TimeOut_t * Z → QP B) Q :
  0 ≤ n < MAX32 →
  (∀ e o' n', 0 ≤ n' < MAX32 → (e = false → 0 < n') → qsafe t (f (e, o', n')) at_lock Q) →
  qsafe t (Atomic (ker vTaskSuspendAll) ;! Atomic (prvLockQueue q) ;!
           Bind (Atomic (ker (xTaskCheckForTimeOut o n))) f) at_run Q.
Proof.
  intros Hn Hf. apply (safe_seq _ at_lock); [apply _|apply safe_suspend|intros _].
  apply (safe_seq _ at_lock); [apply _|apply safe_prvLockQueue|intros _].
  eapply safe_bind; [|by apply safe_check_timeout|].
  - intros [[e o'] n']. apply stable_pure, stable_lock.
  - intros [[e o'] n']. apply safe_pure; [apply _|]. intros [? ?]. by apply Hf.
Qed.
(** Waiting on the list and going round again. *)
Lemma safe_wait {B} l n (r : B) (Q : B → qsys → Prop) :
  l = WaitSendL q ∨ l = WaitRecvL q → t ≠ idle → 0 < n < MAX32 → (∀ s, at_run s → Q r s) →
  qsafe t (Atomic (ker (vTaskPlaceOnEventList l n)) ;! unlock_and_block q ;! Ret r) at_lock Q.
Proof.
  intros Hl Hne Hn HQ. apply (safe_seq _ at_blocked); [apply _|by apply safe_place|intros _].
  apply (safe_seq _ at_run); [apply _|apply safe_unlock_and_block|intros _]. by apply safe_ret.
Qed.
Lemma safe_again {B} (r : B) (Q : B → qsys → Prop) :
  (∀ s, at_run s → Q r s) → qsafe t (unlock_and_resume q ;! Ret r) at_lock Q.
Proof.
  intros HQ. apply (safe_seq _ at_run); [apply _|apply safe_unlock_and_resume|intros _]. by apply safe_ret.
Qed.
(** A loop with a condition on its variables. *)
Lemma safe_loop {A V} (J : V → Prop) `{∀ v, Decision (J v)} (body : V → QP (V + A)) v Q :
  J v → (∀ s, at_run s → ∀ a, Q a s) →
  (∀ v, J v → qsafe t (body v) at_run
     (λ r s, at_run s ∧ match r with inl v => J v | inr _ => True end)) →
  qsafe t (Loop body v) at_run Q.
Proof.
  intros Hv HQ Hb. exists (λ v s, at_run s ∧ J v). split_and!.
  - intros v'. apply stable_pure, stable_run.
  - by intros s _ ?.
  - intros v'. apply safe_pure; [done|]. intros Hv'.
    eapply safe_post; [|by apply Hb]. intros [v1|a] s _ [? ?]; [done|by apply HQ].
Qed.
End task.

(** ** The functions *)
#[export] Instance send_ok_fixed item pos : Fixed (send_ok item pos).
Proof. intros x x' [Hs Hl _ _] [H1 H2]. unfold send_ok, item_ok, overwrite_ok in *. by rewrite Hs, Hl. Qed.
#[export] Instance receive_ok_fixed buffer : Fixed (receive_ok buffer).
Proof. intros x x' [Hs _ _ _]. unfold receive_ok. by rewrite Hs. Qed.
#[export] Instance semaphore_fixed  : Fixed (semaphore).
Proof. intros x x' [Hs _ _ _]. unfold semaphore. by rewrite Hs. Qed.

(** A message has gone in or out and a waiter has been woken. *)
Lemma try_step k O reg q x x' l w k' :
  qgood idle (mkQsys k (<[q := x]> O) reg) → updated x x' → woken_yield idle k l w k' →
  astep (abs (mkQsys k (<[q := x]> O) reg)) (abs (mkQsys k' (<[q := x']> O) reg)) →
  qgood idle (mkQsys k' (<[q := x']> O) reg) ∧
  evolves (mkQsys k (<[q := x]> O) reg) (mkQsys k' (<[q := x']> O) reg) ∧
  astep (abs (mkQsys k (<[q := x]> O) reg)) (abs (mkQsys k' (<[q := x']> O) reg)) ∧ True.
Proof.
  intros Hg [Hwf Hs _ _] Hw Ha. destruct (woken_yield_good _ _ _ _ _ (qg_kernel _ _ Hg) Hw) as (? & ? & ?).
  destruct (step_update k k' O reg q x x') as [? ?]; [done..|]. done.
Qed.
Lemma try_none k O reg q x (P : Prop) :
  qgood idle (mkQsys k (<[q := x]> O) reg) → P →
  qgood idle (mkQsys k (<[q := x]> O) reg) ∧
  evolves (mkQsys k (<[q := x]> O) reg) (mkQsys k (<[q := x]> O) reg) ∧
  astep (abs (mkQsys k (<[q := x]> O) reg)) (abs (mkQsys k (<[q := x]> O) reg)) ∧ P.
Proof. intros Hg HP. split_and!; [done|done|constructor|done]. Qed.

Lemma safe_send t q item n pos : may_wait idle t n →
  qsafe t (xQueueGenericSend q item n pos) (at_run t q (send_ok item pos)) (λ _, at_run t q (send_ok item pos)).
Proof.
  intros Hn. set (F := send_ok item pos). assert (Fixed F) as HF by apply _.
  apply (safe_seq t q F _ (at_run t q F)); [apply _| |intros _].
  { apply (safe_asserts t q F). intros k O reg x Hg [Hi Hov] Hru.
    apply wp_bind, wp_assert_handle; [done|]. apply wp_bind, wp_assert_buffer.
    { unfold item_ok in Hi. destruct (uxItemSize x =? 0); [by rewrite orb_true_r|]. by destruct item. }
    apply wp_bind, wp_bind, wp_get_front, wp_assert.
    { unfold overwrite_ok in Hov. destruct (is_overwrite pos); [|done]. destruct Hov as [-> _]; done. }
    by apply wp_assert_may_block. }
  apply (safe_loop t q F (λ v, may_wait idle t v.2)); [done|by auto|].
  clear n Hn. intros [to n] Hn.
  eapply safe_bind; [|apply (safe_try t q F _ n)|].
  - intros r. apply stable_pure, stable_run, _.
  - intros k O reg x Hg [Hi Hov]. pose proof (qgood_queue _ _ _ _ _ _ Hg) as Hq.
    apply (wp_send_try idle); [done..| | |].
    + intros x' w k' Hr Hup Hm Hw. eapply try_step; [done..|]. by eapply astep_sent; [apply Hq|apply Hup|done..].
    + intros _ _. by apply try_none.
    + intros _ Hne to' _. by apply try_none.
  - intros [to'|b]; simpl; [|intros s _ [? _]; done]. apply safe_pure; [apply _|]. intros Hne.
    apply safe_locked; [apply _|apply Hn|]. intros e o n' Hn' Hpos. destruct Hn as [_ Ht].
    destruct e; simpl.
    + apply safe_again; [apply _|]. by intros s ?.
    + apply (safe_seq t q F _ (at_lock t q F)); [apply _|by apply (safe_full t q F)|].
      intros [].
      * apply safe_wait; [apply _|by left|auto|split; [auto|lia]|]. intros s ?. split; [done|]. by split; [|auto].
      * apply safe_again; [apply _|]. intros s ?. split; [done|]. by split; [|auto].
Qed.

Lemma safe_receive_loop t q F `{!Fixed F} try n : may_wait idle t n →
  (∀ to n k O reg x, qgood idle (mkQsys k (<[q := x]> O) reg) → F x →
     wp (try to n) (λ r s', qgood idle s' ∧ evolves (mkQsys k (<[q := x]> O) reg) s' ∧
       astep (abs (mkQsys k (<[q := x]> O) reg)) (abs s') ∧ (match r with inl _ => n ≠ 0 | inr _ => True end))
       (mkQsys k (<[q := x]> O) reg)) →
  qsafe t (Loop (receive_loop q try) (None, n)) (at_run t q F) (λ _, at_run t q F).
Proof.
  intros Hn Htry. apply (safe_loop t q F (λ v, may_wait idle t v.2)); [done|by auto|].
  clear n Hn. intros [to n] Hn.
  eapply safe_bind; [|apply (safe_try t q F _ n)|].
  - intros r. apply stable_pure, stable_run, _.
  - by apply Htry.
  - intros [to'|b]; simpl; [|intros s _ [? _]; done]. apply safe_pure; [apply _|]. intros Hne.
    apply safe_locked; [apply _|apply Hn|]. intros e o n' Hn' Hpos. destruct Hn as [_ Ht].
    destruct e; simpl.
    + apply (safe_seq t q F _ (at_run t q F)); [apply _|by apply (safe_unlock_and_resume t q F)|intros _].
      apply (safe_seq t q F _ (at_run t q F)); [apply _|by apply (safe_empty t q F)|].
      intros []; apply safe_ret; intros s ?; (split; [done|]); [done|]. by split; [|auto].
    + apply (safe_seq t q F _ (at_lock t q F)); [apply _|by apply (safe_empty t q F)|].
      intros [].
      * apply safe_wait; [apply _|by right|auto|split; [auto|lia]|]. intros s ?. split; [done|]. by split; [|auto].
      * apply safe_again; [apply _|]. intros s ?. split; [done|]. by split; [|auto].
Qed.

Lemma receive_ok_assert q b k O reg x n :
  qgood idle (mkQsys k (<[q := x]> O) reg) → receive_ok b x → running k →
  wp (assert_handle q ;> assert_buffer q b ;> assert_may_block n)
    (λ _ s', s' = mkQsys k (<[q := x]> O) reg) (mkQsys k (<[q := x]> O) reg).
Proof.
  intros Hg Hb Hru. apply wp_bind, wp_assert_handle; [done|]. apply wp_bind, wp_assert_buffer; [done|].
  by apply wp_assert_may_block.
Qed.

Lemma safe_receive t q b n : may_wait idle t n →
  qsafe t (xQueueReceive q b n) (at_run t q (receive_ok b)) (λ _, at_run t q (receive_ok b)).
Proof.
  intros Hn. apply (safe_seq t q (receive_ok b) _ (at_run t q (receive_ok b))); [apply _| |intros _].
  { apply (safe_asserts t q (receive_ok b)). intros. by apply receive_ok_assert. }
  apply safe_receive_loop; [apply _|done|]. clear n Hn. intros to n k O reg x Hg Hb.
  apply (wp_receive_try idle); [done| | |].
  - intros bs x' w k' _ [Hup Hm] Hw. eapply try_step; [done..|]. eapply astep_received; [apply Hup|done].
  - intros _ _. by apply try_none.
  - intros _ Hne to' _. by apply try_none.
Qed.
Lemma safe_peek t q b n : may_wait idle t n →
  qsafe t (xQueuePeek q b n) (at_run t q (receive_ok b)) (λ _, at_run t q (receive_ok b)).
Proof.
  intros Hn. apply (safe_seq t q (receive_ok b) _ (at_run t q (receive_ok b))); [apply _| |intros _].
  { apply (safe_asserts t q (receive_ok b)). intros. by apply receive_ok_assert. }
  apply safe_receive_loop; [apply _|done|]. clear n Hn. intros to n k O reg x Hg Hb.
  pose proof (qgood_queue _ _ _ _ _ _ Hg) as Hq. apply (wp_peek_try idle); [done| | |].
  - intros bs ms w k' _ Hw. eapply try_step; [done| |done|]; [by split; [apply Hq|..]|].
    rewrite (abs_update k k' O reg q x x); [constructor|done].
  - intros _ _. by apply try_none.
  - intros _ Hne to' _. by apply try_none.
Qed.

(** A semaphore is not a mutex: no priority is inherited. *)
Lemma safe_type t q P `{!Point t q semaphore P} :
  qsafe t (Atomic (q_get q uxQueueType)) P (λ h s, P s ∧ (h =? queueQUEUE_IS_MUTEX) = false).
Proof.
  apply (safe_on_queue t q semaphore); [apply (pt_evolves t q semaphore)|apply (pt_queue t q semaphore)|]. intros k O reg x Hg H0 _ _. apply wp_get_front.
  pose proof (qgood_queue _ _ _ _ _ _ Hg) as Hq. exists k, x. split_and!; try done; [apply Hg|apply Hq|].
  pose proof (qo_plain _ _ _ Hq) as Hm. unfold is_mutex in Hm. unfold semaphore in H0. by rewrite H0 in Hm.
Qed.
Lemma safe_take t q n : may_wait idle t n →
  qsafe t (xQueueSemaphoreTake q n) (at_run t q semaphore) (λ _, at_run t q semaphore).
Proof.
  intros Hn.
  apply (safe_seq t q semaphore _ (at_run t q semaphore)); [apply _| |intros _].
  { apply (safe_asserts t q semaphore). intros k O reg x Hg H0 Hru.
    apply wp_bind, wp_assert_handle; [done|]. apply wp_bind, wp_bind, wp_get_front, wp_assert; [by rewrite H0|].
    by apply wp_assert_may_block. }
  apply (safe_loop t q semaphore (λ v, may_wait idle t v.1.2 ∧ v.2 = false)); [done|by auto|].
  clear n Hn. intros [[to n] inh] [Hn Hi]. simpl in Hn, Hi. subst inh.
  eapply safe_bind; [|apply (safe_try t q semaphore _ n)|].
  - intros r. apply stable_pure, stable_run, _.
  - intros k O reg x Hg H0. apply (wp_take_try idle); [done..| | |].
    + intros x' w k' _ [Hup Hm] Hw. eapply try_step; [done..|]. eapply astep_received; [apply Hup|done].
    + intros _ _. by apply try_none.
    + intros _ Hne to' _. by apply try_none.
  - intros [to'|b]; simpl; [|intros s _ [? _]; done]. apply safe_pure; [apply _|]. intros Hne.
    apply safe_locked; [apply _|apply Hn|]. intros e o n' Hn' Hpos. destruct Hn as [_ Ht].
    destruct e; simpl.
    + apply (safe_seq t q semaphore _ (at_run t q semaphore)); [apply _|by apply (safe_unlock_and_resume t q semaphore)|intros _].
      apply (safe_seq t q semaphore _ (at_run t q semaphore)); [apply _|by apply (safe_empty t q semaphore)|].
      intros [].
      * apply (safe_seq t q semaphore _ (at_run t q semaphore)); [apply _|by apply safe_ret|intros _]. by apply safe_ret.
      * apply safe_ret. intros s ?. split; [done|]. split; [|done]. by split; [|auto].
    + apply (safe_seq t q semaphore _ (at_lock t q semaphore)); [apply _|by apply (safe_empty t q semaphore)|].
      intros [].
      * eapply safe_bind; [|by apply (safe_type t q (at_lock t q semaphore))|]; [intros h; apply stable_pure, stable_lock, _|].
        intros h. apply safe_pure; [apply _|]. intros ->.
        apply (safe_bind t _ _ _ (λ inh s, at_lock t q semaphore s ∧ inh = false));
          [intros inh; apply stable_pure, stable_lock, _|by apply safe_ret|]. intros inh.
        apply safe_pure; [apply _|]. intros ->.
        apply safe_wait; [apply _|by right|auto|split; [auto|lia]|]. intros s ?. split; [done|]. split; [|done]. by split; [|auto].
      * apply safe_again; [apply _|]. intros s ?. split; [done|]. split; [|done]. by split; [|auto].
Qed.
(** ** Every run *)
Lemma safe_home {A} t q F (p : QP A) P `{!Fixed F} :
  qsafe t p P (λ _, at_run t q F) → qsafe t (let! _ := p in Ret tt) P (λ _, home t).
Proof.
  intros Hp. apply (safe_bind t _ _ _ (λ _, at_run t q F)); [intros _; apply stable_run, _|done|intros _].
  by apply safe_ret; intros s [? _].
Qed.
Lemma calls_safe t c s : qgood idle s → runs t s → home t s → call_enabled idle t c s →
  ∃ P, stable (qgood idle) env t P ∧ P s ∧ qsafe t (code c) P (λ _, home t).
Proof.
  intros Hg Hr Hh He. destruct c as [q item n pos|q b n|q b n|q n|]; simpl in *.
  - destruct He as [Hq Hn]. exists (at_run t q (send_ok item pos)). split_and!; [apply stable_run, _|done|].
    apply (safe_home t q (send_ok item pos)); [apply _|by apply safe_send].
  - destruct He as [Hq Hn]. exists (at_run t q (receive_ok b)). split_and!; [apply stable_run, _|done|].
    apply (safe_home t q (receive_ok b)); [apply _|by apply safe_receive].
  - destruct He as [Hq Hn]. exists (at_run t q (receive_ok b)). split_and!; [apply stable_run, _|done|].
    apply (safe_home t q (receive_ok b)); [apply _|by apply safe_peek].
  - destruct He as [Hq Hn]. exists (at_run t q semaphore). split_and!; [apply stable_run, _|done|].
    apply (safe_home t q semaphore); [apply _|by apply safe_take].
  - exists (home t). split_and!; [apply stable_home|done|]. apply safe_atomic. intros [k O reg] Hg' [Hc Hp] Hh'.
    apply wp_ker, wp_modify. destruct (ker_step k (pend k) O reg) as [? ?];
      [done|by apply kgood_pend', Hg'|apply frame_pend|apply Hg'|].
    split_and!; [done..|]. intros Hc'. destruct (Hh' Hc) as [? _]. split; [done|by left].
Qed.

Definition qstep : conf (S := qsys) → conf → Prop := mstep runs irq irq_enabled code (call_enabled idle).
Definition queue_conf_ok : conf → Prop := conf_ok runs (qgood idle) env home.

Lemma queue_machine c c' : queue_conf_ok c → rtc qstep c c' →
  queue_conf_ok c' ∧ no_failure runs irq irq_enabled c'.
Proof.
  apply machine_safe; [apply env_refl|apply stable_home|apply calls_safe|apply irqs_safe].
Qed.
Lemma queue_machine_astep c c' : queue_conf_ok c → qstep c c' → astep (abs (c_state c)) (abs (c_state c')).
Proof.
  intros Hok Hs. destruct (conf_ok_step_env runs irq irq_enabled code (call_enabled idle) (qgood idle) env home
    env_refl stable_home irqs_safe c c' Hok Hs) as (u & He).
  by eapply en_abs.
Qed.
End machine.
