(* ===== verification/QueueCalls.v ===== *)
(** * Whole calls of the queue functions

    What a call does when nothing interrupts it: the calls that find room or a
    message, or may not wait, return at once; the others block their task. *)
From S2P Require Import Prelude KList Tasks TasksInv TasksTick TasksOps TasksMachine TasksWaiters.
From S2P Require Import TasksFrame TasksBlind TasksDetach Prog Queue QueueData QueueOps QueueMachine.
From Stdlib Require Import ZifyBool.

Section calls.
Context (idle : Z).

(** The kernel after the first waiter of a list, if any, has been woken by a
    task: a switch is requested when the waiter beats the caller. *)
Definition woken_by (k : kernel) (l : lid) (k' : kernel) : Prop :=
  match waiters k l with
  | [] => k' = k
  | t :: ts => waiters k' l = ts ∧ ready k' t = true ∧
      (pendsv k' = true ↔ pendsv k = true ∨ prio_above_current k t)
  end.
Lemma woken_yield_by k l w k' : uxSchedulerSuspended k = 0 → woken_yield idle k l w k' → woken_by k l k'.
Proof.
  intros Hs (o & k1 & Hw & _ & ->). unfold woken_by. destruct o as [b|].
  - destruct Hw as (t & ts & -> & Hwk). pose proof (wk_ready _ _ _ _ _ _ _ Hwk Hs) as Hr.
    pose proof (wk_waiters _ _ _ _ _ _ _ Hwk) as Hws. pose proof (wk_beats _ _ _ _ _ _ _ Hwk) as Hb.
    pose proof (wk_pendsv _ _ _ _ _ _ _ Hwk) as Hp. destruct b; simpl.
    + split_and!; [exact Hws|exact Hr|]. split; [|done]. intros _. right. by apply Hb.
    + split_and!; [exact Hws|exact Hr|]. rewrite Hp. split; [by left|]. intros [?|Ha%Hb]; [done|congruence].
  - destruct Hw as [-> ->]. done.
Qed.

(** What waking the first waiter leaves alone. *)
Lemma woken_yield_same k l w k' : woken_yield idle k l w k' → k_tcbs k' = k_tcbs k ∧ xTickCount k' = xTickCount k ∧
  ∀ u, head (waiters k l) ≠ Some u → state_in k' u = state_in k u ∧ event_in k' u = event_in k u.
Proof.
  intros (o & k1 & Hw & _ & ->). destruct o as [b|].
  - destruct Hw as (t & ts & -> & Hwk). pose proof (wk_tcbs _ _ _ _ _ _ _ Hwk). pose proof (wk_tick _ _ _ _ _ _ _ Hwk).
    pose proof (wk_same _ _ _ _ _ _ _ Hwk) as Hs.
    destruct b; simpl; (split_and!; [done..|]); intros u Hu; apply Hs; congruence.
  - by destruct Hw as [-> ->].
Qed.
Lemma woken_yield_none k l w k' : woken_yield idle k l w k' → waiters k l = [] → k' = k.
Proof. intros (o & k1 & Hw & _ & ->) He. destruct o as [b|]; [destruct Hw as (? & ? & ? & _); congruence|by destruct Hw as [_ ->]]. Qed.

Section call.
Context (k : kernel) (O : gmap Z Queue_t) (reg : list QueueRegistryItem_t) (q : Z) (x : Queue_t).
Abbreviation st := (mkQsys k (<[q := x]> O) reg).
Context (Hg : qgood idle st) (Hs : uxSchedulerSuspended k = 0).

Lemma in_running : running k.
Proof. split; [apply (qg_running _ _ Hg)|done]. Qed.

(** A loop that leaves in its first turn. *)
Lemma wp_iter_exit {S A B} fuel (body : B → M S (B + A)) b (Q : A → S → Prop) s :
  (0 < fuel)%nat → wp (body b) (λ r s', match r with inr a => Q a s' | inl _ => False end) s →
  wp (iterM fuel body b) Q s.
Proof.
  intros Hf Hb. destruct fuel as [|fuel]; [lia|]. simpl. apply wp_bind. eapply wp_mono; [exact Hb|].
  by intros [b'|a] s' ?.
Qed.
Lemma wp_send_call fuel item pos n (Q : bool → qsys → Prop) :
  (0 < fuel)%nat → send_ok item pos x → has_room x pos = true ∨ n = 0 →
  (∀ x' w k', has_room x pos = true → updated x x' → messages x' = send_messages pos (payload x item) (messages x) →
     woken_yield idle k (WaitRecvL q) w k' → Q true (mkQsys k' (<[q := x']> O) reg)) →
  (has_room x pos = false → Q false st) →
  wp (exec fuel (xQueueGenericSend q item n pos)) Q st.
Proof.
  intros Hf [Hi Hov] Hroom Hsent Hfull. simpl. apply wp_bind, wp_bind, (wp_assert_handle idle); [done|].
  apply wp_bind, wp_assert_buffer.
  { unfold item_ok in Hi. destruct (uxItemSize x =? 0); [by rewrite orb_true_r|]. by destruct item. }
  apply wp_bind, wp_bind, wp_get_front, wp_assert.
  { unfold overwrite_ok in Hov. destruct (is_overwrite pos); [|done]. destruct Hov as [-> _]; done. }
  apply wp_assert_may_block; [apply in_running|]. apply wp_iter_exit; [done|]. simpl.
  apply wp_bind, (wp_send_try idle); [done..| | |].
  - intros. apply wp_ret. by eapply Hsent.
  - intros. by apply wp_ret, Hfull.
  - intros Hr Hn t _. destruct Hroom; congruence.
Qed.
Lemma wp_receive_call fuel b n (Q : option (list Z) → qsys → Prop) :
  (0 < fuel)%nat → receive_ok b x → 0 < uxMessagesWaiting x ∨ n = 0 →
  (∀ bs x' w k', received x bs x' → woken_yield idle k (WaitSendL q) w k' →
     Q (Some bs) (mkQsys k' (<[q := x']> O) reg)) →
  (uxMessagesWaiting x = 0 → Q None st) →
  wp (exec fuel (xQueueReceive q b n)) Q st.
Proof.
  intros Hf Hb Hm Hgot Hempty. simpl. apply wp_bind.
  eapply wp_mono; [apply (receive_ok_assert idle); [done|done|apply in_running]|]. intros _ s' ->.
  apply wp_iter_exit; [done|]. simpl. apply wp_bind, (wp_receive_try idle); [done| | |].
  - intros. apply wp_ret. by eapply Hgot.
  - intros. by apply wp_ret, Hempty.
  - intros Hr Hn t _. lia.
Qed.
Lemma wp_peek_call fuel b n (Q : option (list Z) → qsys → Prop) :
  (0 < fuel)%nat → receive_ok b x → 0 < uxMessagesWaiting x ∨ n = 0 →
  (∀ bs ms w k', messages x = bs :: ms → woken_yield idle k (WaitRecvL q) w k' →
     Q (Some bs) (mkQsys k' (<[q := x]> O) reg)) →
  (uxMessagesWaiting x = 0 → Q None st) →
  wp (exec fuel (xQueuePeek q b n)) Q st.
Proof.
  intros Hf Hb Hm Hgot Hempty. simpl. apply wp_bind.
  eapply wp_mono; [apply (receive_ok_assert idle); [done|done|apply in_running]|]. intros _ s' ->.
  apply wp_iter_exit; [done|]. simpl. apply wp_bind, (wp_peek_try idle); [done| | |].
  - intros. apply wp_ret. by eapply Hgot.
  - intros. by apply wp_ret, Hempty.
  - intros Hr Hn t _. lia.
Qed.
Lemma wp_take_call fuel n (Q : bool → qsys → Prop) :
  (0 < fuel)%nat → uxItemSize x = 0 → 0 < uxMessagesWaiting x ∨ n = 0 →
  (∀ x' w k', 0 < uxMessagesWaiting x → received x [] x' → woken_yield idle k (WaitSendL q) w k' →
     Q true (mkQsys k' (<[q := x']> O) reg)) →
  (uxMessagesWaiting x = 0 → Q false st) →
  wp (exec fuel (xQueueSemaphoreTake q n)) Q st.
Proof.
  intros Hf H0 Hm Hgot Hempty. cbn [exec xQueueSemaphoreTake]. apply wp_bind, wp_bind, (wp_assert_handle idle); [done|].
  apply wp_bind, wp_bind, wp_get_front, wp_assert; [by rewrite H0|].
  apply wp_assert_may_block; [apply in_running|]. apply wp_iter_exit; [done|]. simpl.
  apply wp_bind, (wp_take_try idle); [done|done| | |].
  - intros. apply wp_ret. by eapply Hgot.
  - intros. by apply wp_ret, Hempty.
  - intros Hr Hn t _. lia.
Qed.
(** *** Blocking *)

(** The running task waits on [l], the queue is unlocked and its messages are as
    they were, and a switch is pending. *)
Record waits_on (c : Z) (l : lid) (s' : qsys) : Prop := {
  wo_good : qgood idle s';
  wo_in : event_in (q_kernel s') c = Some l;
  wo_blocked : ready (q_kernel s') c = false;
  wo_resumed : uxSchedulerSuspended (q_kernel s') = 0;
  wo_switch : pendsv (q_kernel s') = true;
  wo_queue : ∃ x', q_objs s' !! q = Some x' ∧ messages x' = messages x ∧
    cRxLock x' = queueUNLOCKED ∧ cTxLock x' = queueUNLOCKED
}.

Context (c : Z) (Hc : pxCurrentTCB k = Some c) (Hr : ready k c = true) (Hpt : xPendedTicks k = 0).
Context (Hrx : cRxLock x = queueUNLOCKED) (Htx : cTxLock x = queueUNLOCKED).

Lemma wakes_none l k1 k2 : wakes idle l 0 k1 k2 → k2 = k1.
Proof. by inversion 1. Qed.
Lemma locked_counts : cTxLock (locked_queue x) = 0 ∧ cRxLock (with_tx queueUNLOCKED (locked_queue x)) = 0.
Proof. unfold locked_queue. rewrite Hrx, Z.eqb_refl. simpl. by rewrite Htx. Qed.

(** In the scheduler lock with the queue locked. *)
Record inside (k1 : kernel) : Prop := {
  in_good : qgood idle (mkQsys k1 (<[q := locked_queue x]> O) reg);
  in_current : pxCurrentTCB k1 = Some c;
  in_ready : ready k1 c = true;
  in_susp : uxSchedulerSuspended k1 = 1;
  in_pended : xPendedTicks k1 = 0
}.

Lemma wp_unlock_and_block k1 l :
  qgood idle (mkQsys k1 (<[q := locked_queue x]> O) reg) → uxSchedulerSuspended k1 = 1 → xPendedTicks k1 = 0 →
  event_in k1 c = Some l → ready k1 c = false → l ≠ PendingReadyL →
  wp (exec 0 (unlock_and_block q)) (λ _, waits_on c l) (mkQsys k1 (<[q := locked_queue x]> O) reg).
Proof.
  intros Hg1 Hs1 Hp1 Hev Hb Hl. destruct locked_counts as [Hct Hcr]. simpl.
  apply wp_bind, wp_bind, (wp_unlockTx idle); [done|]. rewrite Hct. intros k2 ->%wakes_none.
  pose proof (qgood_queue _ _ _ _ _ _ Hg1) as Hq1.
  destruct (step_update idle k1 k1 O reg q (locked_queue x) (with_tx queueUNLOCKED (locked_queue x))) as [Hg2 _];
    [done|apply Hg1|done|done|by split|apply with_tx_wf; [apply Hq1|done]|].
  apply (wp_unlockRx idle); [done|]. rewrite Hcr. intros k2 ->%wakes_none.
  pose proof (qgood_queue _ _ _ _ _ _ Hg2) as Hq2. set (x2 := with_rx queueUNLOCKED _).
  destruct (step_update idle k1 k1 O reg q (with_tx queueUNLOCKED (locked_queue x)) x2) as [Hg3 _];
    [done|apply Hg1|done|done|by split|apply with_rx_wf; [apply Hq2|done]|].
  apply wp_bind, wp_ker. eapply wp_mono; [by apply (kg_resume idle); [apply Hg1|]|].
  intros b k2 (Hk2 & Hkept & Hs2 & _ & Hby & _ & Hf & Hkeep).
  destruct (Hkeep Hp1 c l Hev Hl) as [Hev2 Hr2].
  destruct (ker_step idle k1 k2 (<[q := x2]> O) reg) as [Hg4 _]; [done|done|done|lia|].
  assert (∀ b', (b' = true → pendsv k2 = true) → waits_on c l (mkQsys (yielded (negb b') k2) (<[q := x2]> O) reg)) as Hend.
  { intros b' Hb'. split; simpl.
    - destruct (ker_step idle k2 (yielded (negb b') k2) (<[q := x2]> O) reg) as [Hg5 _]; [done| | | |done].
      + by apply yielded_good.
      + apply yielded_frame.
      + destruct (yielded_frame (negb b') k2) as [[_ ->] _]. lia.
    - by destruct b'.
    - destruct b'; simpl; [by rewrite Hr2|exact (eq_trans Hr2 Hb)].
    - destruct (yielded_frame (negb b') k2) as [[_ ->] _]. done.
    - destruct b'; [by apply Hb'|done].
    - exists x2. rewrite lookup_insert_eq. split_and!; [done|apply locked_queue_same|done|done]. }
  destruct b; [apply wp_ret, (Hend true Hby)|]. apply wp_ker, wp_modify, (Hend false). done.
Qed.

Lemma reach_wait {B} k1 l n (r : B) :
  inside k1 → c ≠ idle → l = WaitSendL q ∨ l = WaitRecvL q → 0 < n < MAX32 →
  reach (Atomic (ker (vTaskPlaceOnEventList l n)) ;! unlock_and_block q ;! Ret r)
    (mkQsys k1 (<[q := locked_queue x]> O) reg) (waits_on c l).
Proof.
  intros [Hg1 Hc1 Hr1 Hs1 Hp1] Hne Hl Hn. apply (reach_seq 0). simpl. apply wp_ker.
  pose proof (qgood_queue _ _ _ _ _ _ Hg1) as [].
  eapply wp_mono; [by apply (kg_place idle k1 c l n); [apply Hg1|..|destruct Hl as [-> | ->]|destruct Hl as [-> | ->]|]|].
  intros _ k2 [Hk2 [Hf Hs2] Hev Hb Hpe]. apply reach_bind, (reach_exec 0), wp_unlock_and_block; try done.
  - destruct (ker_step idle k1 k2 (<[q := locked_queue x]> O) reg) as [? _]; [done|done|done|lia|done].
  - congruence.
  - congruence.
  - by destruct Hl as [-> | ->].
Qed.

(** A time-out that starts now has not passed. *)
Lemma wp_check_now k1 n (Q : bool * TimeOut_t * Z → kernel → Prop) :
  xTickCount k1 = xTickCount k → xNumOfOverflows k1 = xNumOfOverflows k → pxCurrentTCB k1 = Some c →
  (ucDelayAborted <$> k_tcbs k1 !! c) = Some false → 0 < n < MAX32 →
  (∀ o', Q (false, o', n) k1) →
  wp (xTaskCheckForTimeOut (mkTimeOut (xNumOfOverflows k) (xTickCount k)) n) Q k1.
Proof.
  intros Ht Ho Hc1 Ha Hn HQ. destruct (k_tcbs k1 !! c) as [y|] eqn:Hy; [|done]. injection Ha as Ha.
  unfold xTaskCheckForTimeOut, critical. apply wp_bind, wp_getM, wp_bind. eapply wp_current; [exact Hc1|].
  apply wp_bind. eapply wp_tcb_get; [exact Hy|]. rewrite Ha. simpl. rewrite Ht, Ho, Z.eqb_refl, Z.sub_diag. simpl.
  change (wrap32 0) with 0. unfold portMAX_DELAY. destruct (Z.eqb_spec n 4294967295); [by apply wp_ret|].
  rewrite (proj2 (Z.ltb_lt 0 n)) by lia. apply wp_bind, wp_gets, wp_ret.
  rewrite Z.sub_0_r, wrap32_small; [done|]. unfold u32. lia.
Qed.

(** From the head of the first turn to the decision to wait. *)
Context (Habort : (ucDelayAborted <$> k_tcbs k !! c) = Some false).
Lemma reach_inside {B} n (f : bool * TimeOut_t * Z → QP B) (Q : qsys → Prop) : 0 < n < MAX32 →
  (∀ k1 o', inside k1 → reach (f (false, o', n)) (mkQsys k1 (<[q := locked_queue x]> O) reg) Q) →
  reach (Atomic (ker vTaskSuspendAll) ;! Atomic (prvLockQueue q) ;!
         Bind (Atomic (ker (xTaskCheckForTimeOut (mkTimeOut (xNumOfOverflows k) (xTickCount k)) n))) f) st Q.
Proof.
  intros Hn Hf. apply (reach_seq 0). simpl. apply wp_ker.
  eapply (wp_mono _ (λ _ k1, (kgood idle k1 ∧ kept_ready k k1 ∧ uxSchedulerSuspended k1 = 1) ∧
    k1 = k <| uxSchedulerSuspended := wrap32 (uxSchedulerSuspended k + 1) |>)).
  { apply wp_conj; [by apply kg_suspend; [apply Hg|]|]. by apply wp_modify. }
  intros _ k1 ((Hk1 & Hkept1 & Hs1) & Heq). apply (reach_seq 0). simpl. apply wp_prvLockQueue.
  assert (frame0 k k1) as Hf1 by (rewrite Heq; by split).
  destruct (locked_queue_same x) as [Hsame _]. pose proof (qgood_queue _ _ _ _ _ _ Hg) as Hq.
  destruct (ker_step idle k k1 (<[q := x]> O) reg) as [Hg1 _]; [done|done|done|lia|].
  destruct (step_update idle k1 k1 O reg q x (locked_queue x)) as [Hg2 _];
    [done|done|done|done|done|apply locked_queue_wf, Hq|].
  apply (reach_seq 0). simpl. apply wp_ker, wp_check_now; try (by rewrite Heq); [done|].
  intros o'. apply Hf. split; [done| |auto|done|]; by rewrite Heq.
Qed.

Lemma reach_send_waits item pos n :
  send_ok item pos x → has_room x pos = false → 0 < n < MAX32 → c ≠ idle →
  reach (xQueueGenericSend q item n pos) st (waits_on c (WaitSendL q)).
Proof.
  intros [Hi Hov] Hroom Hn Hne. apply (reach_seq 0). simpl.
  apply wp_bind, (wp_assert_handle idle); [done|]. apply wp_bind, wp_assert_buffer.
  { unfold item_ok in Hi. destruct (uxItemSize x =? 0); [by rewrite orb_true_r|]. by destruct item. }
  apply wp_bind, wp_bind, wp_get_front, wp_assert.
  { unfold overwrite_ok in Hov. destruct (is_overwrite pos); [|done]. destruct Hov as [-> _]; done. }
  apply wp_assert_may_block; [apply in_running; by eauto|]. apply reach_loop, (reach_seq 0). simpl.
  apply (wp_send_try idle); [done..|congruence|lia|]. intros _ _ to ->. apply reach_inside; [done|].
  intros k1 o' Hin. simpl. apply (reach_seq 0). simpl. apply wp_prvIsQueueFull.
  destruct (locked_queue_same x) as [[_ Hl _ _] Hm]. apply (f_equal length) in Hm. rewrite !length_messages in Hm.
  pose proof (qw_count _ (qo_wf _ _ _ (qgood_queue _ _ _ _ _ _ Hg))).
  assert (uxMessagesWaiting (locked_queue x) = uxMessagesWaiting x) as ->.
  { unfold locked_queue. destruct (cRxLock x =? _); simpl; by destruct (_ =? queueUNLOCKED). }
  unfold has_room in Hroom. rewrite Hl, (proj2 (Z.eqb_eq _ _)) by lia.
  apply reach_wait; [done|done|by left|done].
Qed.
Lemma reach_receive_waits b n :
  receive_ok b x → uxMessagesWaiting x = 0 → 0 < n < MAX32 → c ≠ idle →
  reach (xQueueReceive q b n) st (waits_on c (WaitRecvL q)).
Proof.
  intros Hb H0 Hn Hne. apply (reach_seq 0). simpl.
  eapply wp_mono; [apply (receive_ok_assert idle); [done|done|by eapply in_running]|]. intros _ s' ->.
  apply reach_loop, (reach_seq 0). simpl.
  apply (wp_receive_try idle); [done|lia|lia|]. intros _ _ to ->. apply reach_inside; [done|].
  intros k1 o' Hin. simpl. apply (reach_seq 0). simpl. apply wp_prvIsQueueEmpty.
  assert (uxMessagesWaiting (locked_queue x) = uxMessagesWaiting x) as ->.
  { unfold locked_queue. destruct (cRxLock x =? _); simpl; by destruct (_ =? queueUNLOCKED). }
  rewrite H0. simpl. apply reach_wait; [done|done|by right|done].
Qed.
End call.
(** ** Unlocking *)

(** Both lists' waiters, as many as messages came or went while the queue was
    locked, are ready once the scheduler is resumed. *)
Lemma wp_unlock_and_resume k O reg q x :
  qgood idle (mkQsys k (<[q := x]> O) reg) → uxSchedulerSuspended k = 1 →
  wp (exec 0 (unlock_and_resume q)) (λ _ s', qgood idle s' ∧ uxSchedulerSuspended (q_kernel s') = 0 ∧
    (∀ t, t ∈ take (Z.to_nat (cTxLock x)) (waiters k (WaitRecvL q)) ++
              take (Z.to_nat (cRxLock x)) (waiters k (WaitSendL q)) → ready (q_kernel s') t = true) ∧
    ∃ k', s' = mkQsys k' (<[q := with_rx queueUNLOCKED (with_tx queueUNLOCKED x)]> O) reg)
    (mkQsys k (<[q := x]> O) reg).
Proof.
  intros Hg Hs. pose proof (qgood_queue _ _ _ _ _ _ Hg) as Hq. simpl.
  apply wp_bind, wp_bind, (wp_unlockTx idle); [done|]. intros k1 Hw1.
  destruct (wakes_good _ _ _ _ _ Hw1 (qg_kernel _ _ Hg)) as (Hk1 & Hf1 & Hr1).
  destruct (wakes_first _ _ _ _ _ Hw1 (qg_kernel _ _ Hg)) as (_ & Hp1 & _); [simpl; lia|].
  destruct (step_update idle k k1 O reg q x (with_tx queueUNLOCKED x)) as [Hg1 _];
    [done|done|done|done|by split|apply with_tx_wf; [apply Hq|done]|].
  pose proof (qgood_queue _ _ _ _ _ _ Hg1) as Hq1.
  apply (wp_unlockRx idle); [done|]. intros k2 Hw2.
  destruct (wakes_good _ _ _ _ _ Hw2 Hk1) as (Hk2 & Hf2 & Hr2).
  destruct (wakes_first _ _ _ _ _ Hw2 Hk1) as (_ & Hp2 & Hkeep); [rewrite (fr_susp _ _ Hf1); lia|].
  rewrite (wakes_others _ _ _ _ _ (WaitSendL q) Hw1) in Hp2 by (done || apply Hq).
  set (x2 := with_rx queueUNLOCKED (with_tx queueUNLOCKED x)).
  destruct (step_update idle k1 k2 O reg q (with_tx queueUNLOCKED x) x2) as [Hg2 _];
    [done|done|done|done|by split|apply with_rx_wf; [apply Hq1|done]|].
  apply wp_bind, wp_ker. eapply wp_mono.
  { apply (kg_resume idle); [done|]. rewrite (fr_susp _ _ Hf2), (fr_susp _ _ Hf1). done. }
  intros b k3 (Hk3 & _ & Hs3 & _ & _ & Hpend & Hf3 & _). apply wp_ret.
  destruct (ker_step idle k2 k3 (<[q := x2]> O) reg) as [Hg3 _]; [done|done|done|lia|].
  split_and!; [done|done| |by exists k3]. intros t [Ht|Ht]%elem_of_app; apply Hpend; auto.
Qed.

(** Interrupts send to a locked queue. *)
Fixpoint isr_burst (q : Z) (items : list (list Z)) : QM unit :=
  match items with
  | [] => retM tt
  | item :: items =>
      let* _ := xQueueGenericSendFromISR q (Some item) None queueSEND_TO_BACK in isr_burst q items
  end.
Lemma wp_isr_burst k O reg q items : ∀ x,
  qgood idle (mkQsys k (<[q := x]> O) reg) → 0 ≤ cTxLock x ≤ uxCurrentNumberOfTasks k →
  (∀ i, i ∈ items → item_ok x (Some i) = true) →
  uxMessagesWaiting x + Z.of_nat (length items) ≤ uxLength x →
  wp (isr_burst q items) (λ _ s', ∃ x', s' = mkQsys k (<[q := x']> O) reg ∧ qgood idle s' ∧
    messages x' = messages x ++ (payload x ∘ Some <$> items) ∧ cRxLock x' = cRxLock x ∧
    cTxLock x' = Z.min (cTxLock x + Z.of_nat (length items)) (uxCurrentNumberOfTasks k))
    (mkQsys k (<[q := x]> O) reg).
Proof.
  induction items as [|item items IH]; intros x Hg Hlock Hitems Hroom; cbn [isr_burst].
  - apply wp_ret. exists x. rewrite app_nil_r. split_and!; [done|done|done|done|simpl; lia].
  - simpl length in Hroom. pose proof (qgood_queue _ _ _ _ _ _ Hg) as Hq. apply wp_bind.
    assert (has_room x queueSEND_TO_BACK = true) as Hr by (unfold has_room; apply orb_true_iff; left; lia).
    apply (wp_xQueueGenericSendFromISR idle); [done|apply Hitems; by left|done| |congruence].
    intros x1 p' s' _ Hup Hm Ha. pose proof (qg_tasks _ _ Hg) as Hn. simpl in Hn.
    inversion Ha as [w k' Hu Hw|Hl Hp Hst]; [unfold queueUNLOCKED in Hu; lia|]. clear Ha. subst p'.
    set (x2 := if cTxLock x <? uxCurrentNumberOfTasks k then with_tx (cTxLock x + 1) x1 else x1).
    assert (same_queue x1 x2 ∧ queue_wf x2 ∧ messages x2 = messages x1 ∧ cRxLock x2 = cRxLock x1 ∧
      cTxLock x2 = Z.min (cTxLock x + 1) (uxCurrentNumberOfTasks k)) as (Hs2 & Hwf2 & Hm2 & Hrx2 & Htx2).
    { pose proof (up_wf _ _ Hup). pose proof (up_tx _ _ Hup). unfold x2.
      destruct (Z.ltb_spec (cTxLock x) (uxCurrentNumberOfTasks k)).
      - split_and!; [by split|apply with_tx_wf; [done|lia]|done|done|simpl; lia].
      - split_and!; try done. lia. }
    assert (same_queue x x2) as Hsame by (etrans; [apply Hup|done]).
    assert (uxMessagesWaiting x2 = uxMessagesWaiting x + 1) as Hn2.
    { pose proof (length_messages x2) as He. rewrite Hm2, Hm in He. simpl in He.
      rewrite length_app, length_messages in He. simpl in He.
      pose proof (qw_count _ Hwf2). pose proof (qw_count _ (qo_wf _ _ _ Hq)). lia. }
    destruct (step_update idle k k O reg q x x2) as [Hg2 _]; [done|apply Hg|done|done|done|done|].
    assert (∀ i, payload x2 i = payload x i) as Hpay.
    { intros i. unfold payload. by rewrite (sq_size _ _ Hsame). }
    eapply wp_mono; [apply (IH x2 Hg2)|].
    + lia.
    + intros i Hi. unfold item_ok. rewrite (sq_size _ _ Hsame). apply Hitems. by right.
    + rewrite (sq_length _ _ Hsame). lia.
    + intros _ s2 (x3 & -> & Hg3 & Hm3 & Hrx3 & Htx3). exists x3. split_and!; [done|done| | |].
      * rewrite Hm3, Hm2, Hm. simpl. rewrite <- app_assoc. simpl. do 2 f_equal.
        apply list_fmap_ext. intros j i _. apply Hpay.
      * rewrite Hrx3, Hrx2. apply Hup.
      * rewrite Htx3, Htx2. simpl length. lia.
Qed.

(** ** Sending and receiving many messages *)
Fixpoint send_all (q : Z) (items : list (list Z)) : QP (list bool) :=
  match items with
  | [] => Ret []
  | item :: items =>
      let! b := xQueueGenericSend q (Some item) 0 queueSEND_TO_BACK in
      let! bs := send_all q items in Ret (b :: bs)
  end.
Fixpoint receive_all (q : Z) (n : nat) : QP (list (option (list Z))) :=
  match n with
  | O => Ret []
  | S n =>
      let! m := xQueueReceive q true 0 in
      let! ms := receive_all q n in Ret (m :: ms)
  end.

Lemma wp_send_all q reg items : ∀ k O x,
  qgood idle (mkQsys k (<[q := x]> O) reg) → uxSchedulerSuspended k = 0 →
  (∀ i, i ∈ items → item_ok x (Some i) = true) →
  uxMessagesWaiting x + Z.of_nat (length items) ≤ uxLength x →
  wp (exec 1 (send_all q items)) (λ bs s', bs = replicate (length items) true ∧ ∃ k' x',
    s' = mkQsys k' (<[q := x']> O) reg ∧ qgood idle s' ∧ uxSchedulerSuspended k' = 0 ∧ same_queue x x' ∧
    messages x' = messages x ++ (payload x ∘ Some <$> items))
    (mkQsys k (<[q := x]> O) reg).
Proof.
  induction items as [|item items IH]; intros k O x Hg Hs Hitems Hroom.
  - apply wp_ret. split; [done|]. exists k, x. rewrite app_nil_r. by split_and!.
  - simpl length in *. cbn [send_all exec].
    assert (has_room x queueSEND_TO_BACK = true) as Hr by (unfold has_room; apply orb_true_iff; left; lia).
    apply wp_bind, wp_send_call; [done|done|lia|by split; [apply Hitems; left|]|by left| |congruence].
    intros x1 w k1 _ Hup Hm Hw. destruct (woken_yield_good _ _ _ _ _ (qg_kernel _ _ Hg) Hw) as (Hk1 & Hf1 & Hr1).
    destruct (step_update idle k k1 O reg q x x1) as [Hg1 _]; [done|done|done|done|apply Hup|apply Hup|].
    assert (uxMessagesWaiting x1 = uxMessagesWaiting x + 1) as Hn1.
    { pose proof (length_messages x1) as He. rewrite Hm in He. simpl in He.
      rewrite length_app, length_messages in He. simpl in He. pose proof (qgood_queue _ _ _ _ _ _ Hg) as Hq.
      pose proof (qw_count _ (up_wf _ _ Hup)). pose proof (qw_count _ (qo_wf _ _ _ Hq)). lia. }
    pose proof (up_same _ _ Hup) as Hsame. apply wp_bind. eapply wp_mono; [apply (IH k1 O x1 Hg1)|].
    + by rewrite (fr_susp _ _ Hf1).
    + intros i Hi. unfold item_ok. rewrite (sq_size _ _ Hsame). apply Hitems. by right.
    + rewrite (sq_length _ _ Hsame). lia.
    + intros bs s' (-> & k2 & x2 & -> & Hg2 & Hs2 & Hsame2 & Hm2). apply wp_ret. split; [done|].
      exists k2, x2. split_and!; [done|done|done|by etrans|]. rewrite Hm2, Hm. simpl. rewrite <- app_assoc. simpl.
      do 2 f_equal. apply list_fmap_ext. intros j i _. simpl. unfold payload. by rewrite (sq_size _ _ Hsame).
Qed.
Lemma wp_receive_all q reg ms : ∀ k O x,
  qgood idle (mkQsys k (<[q := x]> O) reg) → uxSchedulerSuspended k = 0 → messages x = ms →
  wp (exec 1 (receive_all q (length ms))) (λ rs s', rs = Some <$> ms ∧ ∃ k' x',
    s' = mkQsys k' (<[q := x']> O) reg ∧ qgood idle s' ∧ messages x' = [])
    (mkQsys k (<[q := x]> O) reg).
Proof.
  induction ms as [|m ms IH]; intros k O x Hg Hs Hms.
  - apply wp_ret. split; [done|]. by exists k, x.
  - cbn [length receive_all exec]. pose proof (length_messages x) as Hl. rewrite Hms in Hl. simpl in Hl.
    apply wp_bind, wp_receive_call; [done|done|lia|done|left; lia| |lia].
    intros bs x1 w k1 [Hup Hm] Hw. destruct (woken_yield_good _ _ _ _ _ (qg_kernel _ _ Hg) Hw) as (Hk1 & Hf1 & Hr1).
    destruct (step_update idle k k1 O reg q x x1) as [Hg1 _]; [done|done|done|done|apply Hup|apply Hup|].
    rewrite Hms in Hm. injection Hm as -> Hm1.
    apply wp_bind. eapply wp_mono; [apply (IH k1 O x1 Hg1)|].
    + by rewrite (fr_susp _ _ Hf1).
    + done.
    + intros rs s' (-> & Hex). by apply wp_ret.
Qed.
End calls.
