(* ===== verification/SchedLock.v ===== *)
(** * The scheduler lock, as its clients see it

    [vTaskSuspendAll] and [xTaskResumeAll] (tasks.c) are how a component keeps
    other tasks out while it changes its own data: the allocator of heap_4.c is
    written against this interface.  The first class has the two operations on
    some scheduler state, the second what they promise. *)
From S2P Require Import Prelude.

Class SchedulerLock (S : Type) := {
  suspendAll : M S unit;
  resumeAll : M S bool
}.
#[global] Hint Mode SchedulerLock ! : typeclass_instances.

(** From an [unlocked] state (one in which a task may suspend the scheduler)
    suspending succeeds and leads to a [locked] one, from which resuming
    succeeds and leads back.  Locks nest, so a state can be both. *)
Class SchedulerLockSpec (S : Type) `{SchedulerLock S} := {
  unlocked : S → Prop;
  locked : S → Prop;
  suspendAll_spec s : unlocked s → wp suspendAll (λ _, locked) s;
  resumeAll_spec s : locked s → wp resumeAll (λ _, unlocked) s
}.
#[global] Hint Mode SchedulerLockSpec ! - : typeclass_instances.

(** ** A component with its own data beside the scheduler *)
Record guarded (S T : Type) := mkGuarded {
  g_sched : S;
  g_data : T
}.
Arguments mkGuarded {_ _} _ _.
Arguments g_sched {_ _} _.
Arguments g_data {_ _} _.
#[global] Instance eta_guarded S T : Eta (guarded S T) := λ g, mkGuarded (g_sched g) (g_data g).

Section guarded.
Context {S T : Type} `{SchedulerLockSpec S}.

Definition on_sched {A} (m : M S A) : M (guarded S T) A :=
  zoom g_sched (λ s g, mkGuarded s (g_data g)) m.
Definition on_data {A} (m : M T A) : M (guarded S T) A :=
  zoom g_data (λ t g, mkGuarded (g_sched g) t) m.

(** A section of code between [vTaskSuspendAll] and [xTaskResumeAll]: it meets
    the specification that its body has on the component's data alone. *)
Definition with_lock {A} (m : M T A) : M (guarded S T) A :=
  on_sched suspendAll ;>
  let* a := on_data m in
  let* _ := on_sched resumeAll in
  retM a.

Lemma wp_on_data {A} (m : M T A) Q g :
  wp m (λ a t, Q a (mkGuarded (g_sched g) t)) (g_data g) → wp (on_data m) Q g.
Proof. intros Hm. by apply wp_zoom. Qed.

Lemma wp_with_lock {A} (m : M T A) (Q : A → T → Prop) g :
  unlocked (g_sched g) → wp m Q (g_data g) →
  wp (with_lock m) (λ a g', unlocked (g_sched g') ∧ Q a (g_data g')) g.
Proof.
  intros Hu Hm. apply wp_bind, wp_zoom. eapply wp_mono; [by apply suspendAll_spec|].
  intros [] s Hl. apply wp_bind, wp_on_data. eapply wp_mono; [exact Hm|].
  intros a t HQ. apply wp_bind, wp_zoom. eapply wp_mono; [by apply resumeAll_spec|].
  intros ? s' Hu'. by apply wp_ret.
Qed.

(** What goes wrong in the body goes wrong in the section. *)
Lemma with_lock_assert {A} (m : M T A) g :
  unlocked (g_sched g) → m (g_data g) = RAssert → with_lock m g = RAssert.
Proof.
  intros Hu Hm. destruct (wp_ok _ _ _ (suspendAll_spec _ Hu)) as ([] & s & Hs & _).
  unfold with_lock, bindM, on_sched, on_data, zoom. rewrite Hs. simpl. by rewrite Hm.
Qed.
End guarded.
