(* ===== verification/KernelLock.v ===== *)
(** * The kernel implements the scheduler lock

    [vTaskSuspendAll] and [xTaskResumeAll] of tasks.c meet the interface of
    [SchedLock]: before the kernel has tasks they only count, afterwards they
    keep the scheduler's invariant. *)
From S2P Require Import Prelude SchedLock KList KListSpec Tasks TasksView TasksInv.
From S2P Require Import TasksOps TasksMachine.

(** Before the first task is created *)
Definition no_tasks (k : kernel) : Prop := uxCurrentNumberOfTasks k = 0 ∧ 0 ≤ uxSchedulerSuspended k.

#[export] Instance kernel_lock : SchedulerLock kernel := {|
  suspendAll := vTaskSuspendAll;
  resumeAll := xTaskResumeAll
|}.

Section lock.
Context (idle : Z).

Definition kernel_unlocked (k : kernel) : Prop :=
  (no_tasks k ∨ kernel_ok idle k) ∧ uxSchedulerSuspended k + 1 < MAX32.
Definition kernel_locked (k : kernel) : Prop :=
  (no_tasks k ∨ kernel_ok idle k) ∧ 0 < uxSchedulerSuspended k < MAX32.

Lemma kernel_suspend k : kernel_unlocked k → wp vTaskSuspendAll (λ _, kernel_locked) k.
Proof.
  intros [[[Hn Hs]|[v Hk]] Hm].
  - apply wp_modify. assert (wrap32 (uxSchedulerSuspended k + 1) = uxSchedulerSuspended k + 1) as Hw.
    { apply wrap32_small. unfold u32. lia. }
    split; [left; split; simpl; [done|lia]|]. simpl. rewrite Hw. lia.
  - apply (wp_vTaskSuspendAll idle k v); [done|done|]. intros k' Hk' ->.
    pose proof (is_u32 _ _ _ (ki_susp _ _ _ (ko_inv _ _ _ Hk))) as Hu. unfold u32 in Hu.
    split; [right; by exists v|]. simpl. lia.
Qed.
Lemma kernel_resume k : kernel_locked k → wp xTaskResumeAll (λ _, kernel_unlocked) k.
Proof.
  intros [[[Hn Hs]|[v Hk]] Hm].
  - unfold xTaskResumeAll, critical. apply wp_bind, wp_getM, wp_bind, wp_assert.
    { apply negb_true_iff, Z.eqb_neq. lia. }
    apply wp_bind, wp_modify, wp_bind, wp_getM. simpl. rewrite Hn, andb_false_r. apply wp_ret.
    assert (wrap32 (uxSchedulerSuspended k - 1) = uxSchedulerSuspended k - 1) as Hw.
    { apply wrap32_small. unfold u32. lia. }
    split; [left; split; simpl; [done|lia]|]. simpl. lia.
  - eapply wp_mono; [apply (wp_xTaskResumeAll_ok idle k v Hk); lia|].
    intros b k' (v' & Hk' & Hs & _). split; [right; by exists v'|]. lia.
Qed.

Definition kernel_lock_spec : SchedulerLockSpec kernel := {|
  unlocked := kernel_unlocked;
  locked := kernel_locked;
  suspendAll_spec := kernel_suspend;
  resumeAll_spec := kernel_resume
|}.
End lock.
