(* ===== verification/Heap4.v ===== *)
(** * The allocator (src/FreeRTOS/Source/portable/MemMang/heap_4.c)

    First-fit allocation from one static array with coalescing of free
    neighbours.  The model is at byte level: a block header is eight bytes of
    the array itself, a pointer is a 32-bit address, and reading or writing
    outside the array and [xStart] faults.  Where the linker puts the two is a
    parameter ([HeapLayout]). *)
From S2P Require Import Prelude SchedLock.

(** ** Constants and macros *)
Definition configTOTAL_HEAP_SIZE : Z := 100 * 1024.
Definition portBYTE_ALIGNMENT : Z := 8.
Definition portBYTE_ALIGNMENT_MASK : Z := 7.
(** [sizeof( BlockLink_t )]: a pointer and a [size_t]. *)
Definition sizeof_BlockLink_t : Z := 8.
Definition xHeapStructSize : Z :=
  Z.land (wrap32 (sizeof_BlockLink_t + (portBYTE_ALIGNMENT - 1))) (wrap32 (Z.lnot portBYTE_ALIGNMENT_MASK)).
Definition heapMINIMUM_BLOCK_SIZE : Z := wrap32 (Z.shiftl xHeapStructSize 1).
Definition heapBITS_PER_BYTE : Z := 8.
Definition heapSIZE_MAX : Z := wrap32 (Z.lnot 0).
Definition heapMULTIPLY_WILL_OVERFLOW (a b : Z) : bool := (0 <? a) && (heapSIZE_MAX / a <? b).
Definition heapADD_WILL_OVERFLOW (a b : Z) : bool := wrap32 (heapSIZE_MAX - b) <? a.
Definition heapSUBTRACT_WILL_UNDERFLOW (a b : Z) : bool := a <? b.
Definition heapBLOCK_ALLOCATED_BITMASK : Z := Z.shiftl 1 (4 * heapBITS_PER_BYTE - 1).
Definition heapBLOCK_SIZE_IS_VALID (xBlockSize : Z) : bool :=
  Z.land xBlockSize heapBLOCK_ALLOCATED_BITMASK =? 0.

(** ** State *)

(** Addresses of the objects the linker places. *)
Class HeapLayout := {
  ucHeap : Z;
  xStart : Z
}.
(** Both are in the address space, and apart. *)
Class HeapLayoutOk `{HeapLayout} : Prop := {
  ucHeap_range : 0 < ucHeap ∧ ucHeap + configTOTAL_HEAP_SIZE < MAX32;
  xStart_range : 0 < xStart ∧ xStart + sizeof_BlockLink_t < MAX32;
  xStart_apart : xStart + sizeof_BlockLink_t ≤ ucHeap ∨ ucHeap + configTOTAL_HEAP_SIZE ≤ xStart
}.

(** The bytes of [ucHeap] and [xStart] (static objects: zero until written) and
    the other variables of heap_4.c; [NULL] is 0. *)
Record heap := mkHeap {
  h_mem : gmap Z Z;
  pxEnd : Z;
  xFreeBytesRemaining : Z;
  xMinimumEverFreeBytesRemaining : Z;
  xNumberOfSuccessfulAllocations : Z;
  xNumberOfSuccessfulFrees : Z
}.
#[global] Instance eta_heap : Eta heap := λ h,
  mkHeap (h_mem h) (pxEnd h) (xFreeBytesRemaining h) (xMinimumEverFreeBytesRemaining h)
    (xNumberOfSuccessfulAllocations h) (xNumberOfSuccessfulFrees h).

(** The state of the static objects before the first call. *)
Definition zero_heap : heap := mkHeap ∅ 0 0 0 0 0.

Abbreviation H := (M heap).

(** ** Memory *)
Definition peek (m : gmap Z Z) (a : Z) : Z := default 0 (m !! a).
(** The 32-bit little-endian word at [a]. *)
Definition word (m : gmap Z Z) (a : Z) : Z :=
  peek m a + 256 * (peek m (a + 1) + 256 * (peek m (a + 2) + 256 * peek m (a + 3))).
Definition put_word (a v : Z) (m : gmap Z Z) : gmap Z Z :=
  <[a := v mod 256]> (<[a + 1 := v / 256 mod 256]>
    (<[a + 2 := v / 65536 mod 256]> (<[a + 3 := v / 16777216 mod 256]> m))).

Section heap4.
Context `{HeapLayout}.

Definition in_heap (a n : Z) : bool := (ucHeap <=? a) && (a + n <=? ucHeap + configTOTAL_HEAP_SIZE).
Definition in_start (a n : Z) : bool := (xStart <=? a) && (a + n <=? xStart + sizeof_BlockLink_t).
Definition valid_addr (a n : Z) : bool := in_heap a n || in_start a n.

Definition load32 (a : Z) : H Z := λ h,
  if valid_addr a 4 then ROk (word (h_mem h) a, h) else RFault.
Definition store32 (a v : Z) : H unit := λ h,
  if valid_addr a 4 then ROk (tt, h <| h_mem ::= put_word a v |>) else RFault.

(** The fields of a [BlockLink_t] *)
Definition get_pxNextFreeBlock (p : Z) : H Z := load32 p.
Definition set_pxNextFreeBlock (p v : Z) : H unit := store32 p v.
Definition get_xBlockSize (p : Z) : H Z := load32 (p + 4).
Definition set_xBlockSize (p v : Z) : H unit := store32 (p + 4) v.

Definition heapBLOCK_IS_ALLOCATED (pxBlock : Z) : H bool :=
  let* s := get_xBlockSize pxBlock in
  retM (negb (Z.land s heapBLOCK_ALLOCATED_BITMASK =? 0)).
Definition heapALLOCATE_BLOCK (pxBlock : Z) : H unit :=
  let* s := get_xBlockSize pxBlock in
  set_xBlockSize pxBlock (Z.lor s heapBLOCK_ALLOCATED_BITMASK).
Definition heapFREE_BLOCK (pxBlock : Z) : H unit :=
  let* s := get_xBlockSize pxBlock in
  set_xBlockSize pxBlock (Z.land s (wrap32 (Z.lnot heapBLOCK_ALLOCATED_BITMASK))).
Definition heapVALIDATE_BLOCK_POINTER (pxBlock : Z) : H unit :=
  configASSERT ((ucHeap <=? pxBlock) && (pxBlock <=? ucHeap + configTOTAL_HEAP_SIZE - 1)).

(** Turns of a loop along the free list: more than the array has room for headers. *)
Definition list_fuel : nat := Z.to_nat (configTOTAL_HEAP_SIZE / sizeof_BlockLink_t + 2).

(** ** Initialisation *)
Definition prvHeapInit : H unit :=
  let '(uxStartAddress, xTotalHeapSize) :=
    if negb (Z.land ucHeap portBYTE_ALIGNMENT_MASK =? 0) then
      let b := Z.land (wrap32 (ucHeap + (portBYTE_ALIGNMENT - 1))) (wrap32 (Z.lnot portBYTE_ALIGNMENT_MASK)) in
      (b, wrap32 (configTOTAL_HEAP_SIZE - wrap32 (b - ucHeap)))
    else (ucHeap, configTOTAL_HEAP_SIZE) in
  set_pxNextFreeBlock xStart uxStartAddress ;>
  set_xBlockSize xStart 0 ;>
  let uxEndAddress :=
    Z.land (wrap32 (wrap32 (uxStartAddress + xTotalHeapSize) - xHeapStructSize))
      (wrap32 (Z.lnot portBYTE_ALIGNMENT_MASK)) in
  modify (λ h, h <| pxEnd := uxEndAddress |>) ;>
  set_xBlockSize uxEndAddress 0 ;>
  set_pxNextFreeBlock uxEndAddress 0 ;>
  let pxFirstFreeBlock := uxStartAddress in
  set_xBlockSize pxFirstFreeBlock (wrap32 (uxEndAddress - pxFirstFreeBlock)) ;>
  set_pxNextFreeBlock pxFirstFreeBlock uxEndAddress ;>
  let* n := get_xBlockSize pxFirstFreeBlock in
  modify (λ h, h <| xMinimumEverFreeBytesRemaining := n |> <| xFreeBytesRemaining := n |>).

(** ** Allocation *)

(** The size with room for the header, rounded up; 0 when that overflows. *)
Definition malloc_size (xWantedSize : Z) : Z :=
  if 0 <? xWantedSize then
    if negb (heapADD_WILL_OVERFLOW xWantedSize xHeapStructSize) then
      let n := wrap32 (xWantedSize + xHeapStructSize) in
      if negb (Z.land n portBYTE_ALIGNMENT_MASK =? 0) then
        let xAdditionalRequiredSize := portBYTE_ALIGNMENT - Z.land n portBYTE_ALIGNMENT_MASK in
        if negb (heapADD_WILL_OVERFLOW n xAdditionalRequiredSize) then wrap32 (n + xAdditionalRequiredSize)
        else 0
      else n
    else 0
  else xWantedSize.

(** One turn of the search: the loop's variables are the previous and the
    present block. *)
Definition search_one (xWantedSize : Z) (pp : Z * Z) : H (Z * Z + Z * Z) :=
  let '(pxPreviousBlock, pxBlock) := pp in
  let* s := get_xBlockSize pxBlock in
  if s <? xWantedSize then
    let* n := get_pxNextFreeBlock pxBlock in
    if negb (n =? 0) then
      heapVALIDATE_BLOCK_POINTER n ;>
      retM (inl (pxBlock, n))
    else retM (inr (pxPreviousBlock, pxBlock))
  else retM (inr (pxPreviousBlock, pxBlock)).

(** The block is accounted for and marked as allocated. *)
Definition claim_block (pxBlock : Z) : H unit :=
  let* s := get_xBlockSize pxBlock in
  modify (λ h, h <| xFreeBytesRemaining ::= λ n, wrap32 (n - s) |>) ;>
  (let* h := getM in
   when xFreeBytesRemaining h <? xMinimumEverFreeBytesRemaining h then
     modify (λ h, h <| xMinimumEverFreeBytesRemaining := xFreeBytesRemaining h |>)) ;>
  heapALLOCATE_BLOCK pxBlock ;>
  set_pxNextFreeBlock pxBlock 0 ;>
  modify (λ h, h <| xNumberOfSuccessfulAllocations ::= λ n, wrap32 (n + 1) |>).

(** The block found is taken off the free list and split if it is large. *)
Definition take_block (xWantedSize pxPreviousBlock pxBlock : Z) : H Z :=
  let* p := get_pxNextFreeBlock pxPreviousBlock in
  let pvReturn := wrap32 (p + xHeapStructSize) in
  heapVALIDATE_BLOCK_POINTER pvReturn ;>
  let* n := get_pxNextFreeBlock pxBlock in
  set_pxNextFreeBlock pxPreviousBlock n ;>
  let* s := get_xBlockSize pxBlock in
  configASSERT (negb (heapSUBTRACT_WILL_UNDERFLOW s xWantedSize)) ;>
  (when heapMINIMUM_BLOCK_SIZE <? wrap32 (s - xWantedSize) then
     let pxNewBlockLink := wrap32 (pxBlock + xWantedSize) in
     configASSERT (Z.land pxNewBlockLink portBYTE_ALIGNMENT_MASK =? 0) ;>
     set_xBlockSize pxNewBlockLink (wrap32 (s - xWantedSize)) ;>
     set_xBlockSize pxBlock xWantedSize ;>
     let* n := get_pxNextFreeBlock pxPreviousBlock in
     set_pxNextFreeBlock pxNewBlockLink n ;>
     set_pxNextFreeBlock pxPreviousBlock pxNewBlockLink) ;>
  claim_block pxBlock ;>
  retM pvReturn.

(** What [pvPortMalloc] does with the scheduler suspended. *)
Definition malloc_locked (xWantedSize : Z) : H Z :=
  let* h := getM in
  (when pxEnd h =? 0 then prvHeapInit) ;>
  if heapBLOCK_SIZE_IS_VALID xWantedSize then
    let* h := getM in
    if (0 <? xWantedSize) && (xWantedSize <=? xFreeBytesRemaining h) then
      let* pxBlock := get_pxNextFreeBlock xStart in
      heapVALIDATE_BLOCK_POINTER pxBlock ;>
      let* (pxPreviousBlock, pxBlock) := iterM list_fuel (search_one xWantedSize) (xStart, pxBlock) in
      if negb (pxBlock =? pxEnd h) then take_block xWantedSize pxPreviousBlock pxBlock
      else retM 0
    else retM 0
  else retM 0.

(** ** Deallocation *)

(** The loop that finds the place of a block in the address-ordered list. *)
Definition insert_one (pxBlockToInsert : Z) (pxIterator : Z) : H (Z + Z) :=
  let* n := get_pxNextFreeBlock pxIterator in
  retM (if n <? pxBlockToInsert then inl n else inr pxIterator).

(** Do the block and the one it is inserted after make a contiguous block of
    memory?  The answer is the block to insert from here on. *)
Definition merge_previous (pxIterator pxBlockToInsert : Z) : H Z :=
  let* si := get_xBlockSize pxIterator in
  if wrap32 (pxIterator + si) =? pxBlockToInsert then
    let* si := get_xBlockSize pxIterator in
    let* sb := get_xBlockSize pxBlockToInsert in
    set_xBlockSize pxIterator (wrap32 (si + sb)) ;>
    retM pxIterator
  else retM pxBlockToInsert.

(** And the block and the one it is inserted before? *)
Definition merge_next (pxIterator pxBlockToInsert : Z) : H unit :=
  let* sb := get_xBlockSize pxBlockToInsert in
  let* n := get_pxNextFreeBlock pxIterator in
  if wrap32 (pxBlockToInsert + sb) =? n then
    let* h := getM in
    if negb (n =? pxEnd h) then
      let* sn := get_xBlockSize n in
      set_xBlockSize pxBlockToInsert (wrap32 (sb + sn)) ;>
      let* nn := get_pxNextFreeBlock n in
      set_pxNextFreeBlock pxBlockToInsert nn
    else set_pxNextFreeBlock pxBlockToInsert (pxEnd h)
  else set_pxNextFreeBlock pxBlockToInsert n.

Definition prvInsertBlockIntoFreeList (pxBlockToInsert : Z) : H unit :=
  let* pxIterator := iterM list_fuel (insert_one pxBlockToInsert) xStart in
  (when negb (pxIterator =? xStart) then heapVALIDATE_BLOCK_POINTER pxIterator) ;>
  let* pxBlockToInsert := merge_previous pxIterator pxBlockToInsert in
  merge_next pxIterator pxBlockToInsert ;>
  when negb (pxIterator =? pxBlockToInsert) then set_pxNextFreeBlock pxIterator pxBlockToInsert.

(** What [vPortFree] does before and while the scheduler is suspended. *)
Definition free_checks (pxLink : Z) : H bool :=
  heapVALIDATE_BLOCK_POINTER pxLink ;>
  let* b := heapBLOCK_IS_ALLOCATED pxLink in
  configASSERT b ;>
  let* n := get_pxNextFreeBlock pxLink in
  configASSERT (n =? 0) ;>
  if b then
    if n =? 0 then heapFREE_BLOCK pxLink ;> retM true else retM false
  else retM false.
Definition free_locked (pxLink : Z) : H unit :=
  let* s := get_xBlockSize pxLink in
  modify (λ h, h <| xFreeBytesRemaining ::= λ n, wrap32 (n + s) |>) ;>
  prvInsertBlockIntoFreeList pxLink ;>
  modify (λ h, h <| xNumberOfSuccessfulFrees ::= λ n, wrap32 (n + 1) |>).

(** ** Statistics *)
Record HeapStats_t := mkHeapStats {
  xAvailableHeapSpaceInBytes : Z;
  xSizeOfLargestFreeBlockInBytes : Z;
  xSizeOfSmallestFreeBlockInBytes : Z;
  xNumberOfFreeBlocks : Z;
  hs_xMinimumEverFreeBytesRemaining : Z;
  hs_xNumberOfSuccessfulAllocations : Z;
  hs_xNumberOfSuccessfulFrees : Z
}.

(** One turn of the loop: the block, the number of blocks, the largest and the
    smallest size so far. *)
Definition stats_one (b : Z * Z * Z * Z) : H (Z * Z * Z * Z + Z * Z * Z) :=
  let '(pxBlock, xBlocks, xMaxSize, xMinSize) := b in
  let* h := getM in
  if negb (pxBlock =? pxEnd h) then
    let* s := get_xBlockSize pxBlock in
    let* n := get_pxNextFreeBlock pxBlock in
    retM (inl (n, wrap32 (xBlocks + 1), if xMaxSize <? s then s else xMaxSize,
               if s <? xMinSize then s else xMinSize))
  else retM (inr (xBlocks, xMaxSize, xMinSize)).
Definition stats_locked : H (Z * Z * Z) :=
  let* pxBlock := get_pxNextFreeBlock xStart in
  if negb (pxBlock =? 0) then iterM list_fuel stats_one (pxBlock, 0, 0, heapSIZE_MAX)
  else retM (0, 0, heapSIZE_MAX).

Definition xPortGetFreeHeapSize : H Z := gets xFreeBytesRemaining.
Definition xPortGetMinimumEverFreeHeapSize : H Z := gets xMinimumEverFreeBytesRemaining.
Definition xPortResetHeapMinimumEverFreeHeapSize : H unit :=
  modify (λ h, h <| xMinimumEverFreeBytesRemaining := xFreeBytesRemaining h |>).
Definition vPortHeapResetState : H unit :=
  modify (λ h, h <| pxEnd := 0 |> <| xFreeBytesRemaining := 0 |> <| xMinimumEverFreeBytesRemaining := 0 |>
                 <| xNumberOfSuccessfulAllocations := 0 |> <| xNumberOfSuccessfulFrees := 0 |>).

(** [memset( pv, 0, n )], byte by byte *)
Fixpoint memset0 (n : nat) (pv : Z) : H unit :=
  match n with
  | O => retM tt
  | S n => λ h, if in_heap pv 1 then memset0 n (pv + 1) (h <| h_mem ::= <[pv := 0]> |>) else RFault
  end.

(** ** The functions of the allocator, under the scheduler lock *)
Section locked.
Context {S : Type} `{SchedulerLock S}.

(** main.c: the hook disables the interrupts and does not return. *)
Definition vApplicationMallocFailedHook : M (guarded S heap) unit := haltM.

Definition pvPortMalloc (xWantedSize : Z) : M (guarded S heap) Z :=
  let* pvReturn := with_lock (malloc_locked (malloc_size xWantedSize)) in
  (when pvReturn =? 0 then vApplicationMallocFailedHook) ;>
  configASSERT (Z.land pvReturn portBYTE_ALIGNMENT_MASK =? 0) ;>
  retM pvReturn.

Definition vPortFree (pv : Z) : M (guarded S heap) unit :=
  when negb (pv =? 0) then
    let pxLink := wrap32 (pv - xHeapStructSize) in
    let* b := on_data (free_checks pxLink) in
    when b then with_lock (free_locked pxLink).

Definition pvPortCalloc (xNum xSize : Z) : M (guarded S heap) Z :=
  if negb (heapMULTIPLY_WILL_OVERFLOW xNum xSize) then
    let* pv := pvPortMalloc (wrap32 (xNum * xSize)) in
    (when negb (pv =? 0) then on_data (memset0 (Z.to_nat (xNum * xSize)) pv)) ;>
    retM pv
  else retM 0.

Definition vPortGetHeapStats : M (guarded S heap) HeapStats_t :=
  let* (xBlocks, xMaxSize, xMinSize) := with_lock stats_locked in
  let* g := getM in
  let h := g_data g in
  retM (mkHeapStats (xFreeBytesRemaining h) xMaxSize xMinSize xBlocks (xMinimumEverFreeBytesRemaining h)
          (xNumberOfSuccessfulAllocations h) (xNumberOfSuccessfulFrees h)).
End locked.
End heap4.
