(* ===== verification/Heap4Spec.v ===== *)
(** * The heap as a row of blocks

    The array is a row of blocks, free or allocated, that tile it from the first
    aligned address to the end marker.  [tiles_rep] says that the headers in
    memory describe such a row, with the free blocks linked in address order;
    [first_fit] and [release] are the allocator on rows. *)
From S2P Require Import Prelude SchedLock Heap4.

(** ** Words in memory *)
Lemma peek_put_word a v m x : peek (put_word a v m) x =
  if decide (a ≤ x < a + 4) then v / 256 ^ (x - a) mod 256 else peek m x.
Proof.
  unfold peek, put_word. destruct (decide (a ≤ x < a + 4)) as [Hx|Hx].
  - destruct (decide (x = a)) as [->|]; [rewrite lookup_insert_eq, Z.sub_diag; simpl; by rewrite Z.div_1_r|].
    rewrite lookup_insert_ne by done.
    destruct (decide (x = a + 1)) as [->|]; [by rewrite lookup_insert_eq; replace (a + 1 - a) with 1 by lia|].
    rewrite lookup_insert_ne by done.
    destruct (decide (x = a + 2)) as [->|]; [by rewrite lookup_insert_eq; replace (a + 2 - a) with 2 by lia|].
    rewrite lookup_insert_ne by done. assert (x = a + 3) as -> by lia.
    rewrite lookup_insert_eq. by replace (a + 3 - a) with 3 by lia.
  - by rewrite !lookup_insert_ne by lia.
Qed.
Lemma peek_put_word_ne a v m x : x < a ∨ a + 4 ≤ x → peek (put_word a v m) x = peek m x.
Proof. intros ?. rewrite peek_put_word. rewrite decide_False by lia. done. Qed.

Lemma word_ext m m' a : (∀ x, a ≤ x < a + 4 → peek m' x = peek m x) → word m' a = word m a.
Proof. intros Hx. unfold word. by rewrite !Hx by lia. Qed.
Lemma word_put_same a v m : u32 v → word (put_word a v m) a = v.
Proof.
  intros Hv. unfold word. rewrite !peek_put_word, !decide_True by lia.
  replace (a - a) with 0 by lia. replace (a + 1 - a) with 1 by lia. replace (a + 2 - a) with 2 by lia.
  replace (a + 3 - a) with 3 by lia. change (256 ^ 0) with 1. change (256 ^ 1) with 256.
  change (256 ^ 2) with 65536. change (256 ^ 3) with 16777216.
  unfold u32, MAX32 in Hv. rewrite Z.div_1_r. Z.to_euclidean_division_equations. lia.
Qed.
Lemma word_put_ne a v m b : b + 4 ≤ a ∨ a + 4 ≤ b → word (put_word a v m) b = word m b.
Proof. intros ?. apply word_ext. intros x ?. apply peek_put_word_ne. lia. Qed.

(** Alignment and the allocation bit as arithmetic *)
Lemma land_mask x : Z.land x portBYTE_ALIGNMENT_MASK = x mod 8.
Proof. apply (Z.land_ones x 3). lia. Qed.
Lemma land_align x : u32 x → Z.land x (wrap32 (Z.lnot portBYTE_ALIGNMENT_MASK)) = x - x mod 8.
Proof.
  intros Hx. change (wrap32 (Z.lnot portBYTE_ALIGNMENT_MASK)) with (Z.land (Z.ones 32) (Z.lnot 7)).
  rewrite Z.land_assoc, Z.land_ones by lia. rewrite Z.mod_small by (unfold u32, MAX32 in Hx; lia).
  change (Z.land x (Z.lnot 7)) with (Z.ldiff x (Z.ones 3)). rewrite Z.ldiff_ones_r by lia.
  rewrite Z.shiftl_mul_pow2, Z.shiftr_div_pow2 by lia. change (2 ^ 3) with 8. pose proof (Z.div_mod x 8). lia.
Qed.
Definition BIT31 : Z := 2147483648.
Lemma land_bit31_small s : 0 ≤ s < BIT31 → Z.land s heapBLOCK_ALLOCATED_BITMASK = 0.
Proof.
  intros Hs. change heapBLOCK_ALLOCATED_BITMASK with (2 ^ 31). apply Z.bits_inj'. intros n Hn.
  rewrite Z.land_spec, Z.bits_0, Z.pow2_bits_eqb by lia. destruct (Z.eqb_spec 31 n) as [<-|]; [|by rewrite andb_false_r].
  rewrite Z.bits_above_log2; [done|lia|]. destruct (decide (s = 0)) as [->|]; [done|].
  apply Z.log2_lt_pow2; unfold BIT31 in Hs; lia.
Qed.
Lemma lor_bit31 s : 0 ≤ s < BIT31 → Z.lor s heapBLOCK_ALLOCATED_BITMASK = s + BIT31.
Proof.
  intros Hs. pose proof (land_bit31_small s Hs) as Hl. change BIT31 with heapBLOCK_ALLOCATED_BITMASK.
  symmetry. rewrite <- Z.lxor_lor by done. by apply Z.add_nocarry_lxor.
Qed.
Lemma land_bit31 s : 0 ≤ s < BIT31 → Z.land (s + BIT31) heapBLOCK_ALLOCATED_BITMASK = BIT31.
Proof.
  intros Hs. rewrite <- lor_bit31 by done. rewrite Z.land_lor_distr_l, land_bit31_small by done. done.
Qed.
Lemma land_not_bit31 s : 0 ≤ s < BIT31 →
  Z.land (s + BIT31) (wrap32 (Z.lnot heapBLOCK_ALLOCATED_BITMASK)) = s.
Proof.
  intros Hs. rewrite <- lor_bit31 by done. rewrite Z.land_lor_distr_l.
  change (wrap32 (Z.lnot heapBLOCK_ALLOCATED_BITMASK)) with (Z.ones 31).
  change (Z.land heapBLOCK_ALLOCATED_BITMASK (Z.ones 31)) with 0. rewrite Z.lor_0_r, Z.land_ones by lia.
  apply Z.mod_small. unfold BIT31 in Hs. lia.
Qed.
Lemma size_valid s : 0 ≤ s < BIT31 → heapBLOCK_SIZE_IS_VALID s = true.
Proof. intros. unfold heapBLOCK_SIZE_IS_VALID. by rewrite land_bit31_small. Qed.

(** ** Rows of blocks *)

(** A block: its size with the header, and whether it is allocated. *)
Definition tile : Type := Z * bool.
Fixpoint tsum (ts : list tile) : Z := match ts with [] => 0 | t :: ts => t.1 + tsum ts end.
Fixpoint free_sum (ts : list tile) : Z :=
  match ts with [] => 0 | (s, u) :: ts => (if u then 0 else s) + free_sum ts end.

(** The first free block of a row that starts at [a], or [e]. *)
Fixpoint first_free (e a : Z) (ts : list tile) : Z :=
  match ts with
  | [] => e
  | (s, u) :: ts => if u then first_free e (a + s) ts else a
  end.
(** The last free block of a row, or [p]. *)
Fixpoint last_free (p a : Z) (ts : list tile) : Z :=
  match ts with
  | [] => p
  | (s, u) :: ts => last_free (if u then p else a) (a + s) ts
  end.

Definition tile_ok (t : tile) : Prop := 16 ≤ t.1 ∧ t.1 mod 8 = 0.
(** No two free blocks side by side *)
Fixpoint compact (ts : list tile) : Prop :=
  match ts with
  | [] => True
  | t :: ts => (t.2 = false → match ts with t' :: _ => t'.2 = true | [] => True end) ∧ compact ts
  end.

(** *** The allocator on rows *)
Definition split_tile (w s : Z) : list tile :=
  if 16 <? s - w then [(w, true); (s - w, false)] else [(s, true)].
(** The offset of the block and the new row *)
Fixpoint first_fit (w : Z) (ts : list tile) : option (Z * list tile) :=
  match ts with
  | [] => None
  | (s, u) :: ts =>
      if negb u && (w <=? s) then Some (0, split_tile w s ++ ts)
      else match first_fit w ts with
           | Some (o, ts') => Some (s + o, (s, u) :: ts')
           | None => None
           end
  end.

(** A free block put before a row, merged with the first one if that is free *)
Definition cons_free (s : Z) (ts : list tile) : list tile :=
  match ts with
  | (s', false) :: ts' => (s + s', false) :: ts'
  | _ => (s, false) :: ts
  end.
(** Frees the allocated block at offset [o]. *)
Fixpoint release (o : Z) (ts : list tile) : option (list tile) :=
  match ts with
  | [] => None
  | (s, u) :: ts =>
      if o =? 0 then if u then Some (cons_free s ts) else None
      else if o <? s then None
      else match release (o - s) ts with
           | Some r => Some (if u then (s, true) :: r else cons_free s r)
           | None => None
           end
  end.

Lemma tsum_app ts1 ts2 : tsum (ts1 ++ ts2) = tsum ts1 + tsum ts2.
Proof. induction ts1 as [|t ts1 IH]; simpl; lia. Qed.
Lemma free_sum_app ts1 ts2 : free_sum (ts1 ++ ts2) = free_sum ts1 + free_sum ts2.
Proof. induction ts1 as [|[s u] ts1 IH]; simpl; lia. Qed.
Lemma tsum_nonneg ts : Forall tile_ok ts → 0 ≤ tsum ts.
Proof. induction 1 as [|t ts [? _] _ IH]; simpl; lia. Qed.
Lemma free_sum_bounds ts : Forall tile_ok ts → 0 ≤ free_sum ts ≤ tsum ts.
Proof. induction 1 as [|[s u] ts [? _] _ IH]; simpl in *; [lia|destruct u; lia]. Qed.
Lemma tsum_aligned ts : Forall tile_ok ts → tsum ts mod 8 = 0.
Proof.
  induction 1 as [|t ts [_ Ht] _ IH]; [done|]. simpl. rewrite Z.add_mod, Ht, IH by done. done.
Qed.
Lemma tsum_length ts : Forall tile_ok ts → 16 * Z.of_nat (length ts) ≤ tsum ts.
Proof. induction 1 as [|t ts [? _] _ IH]; cbn [length tsum]; lia. Qed.

Lemma first_free_app e a ts1 ts2 :
  first_free e a (ts1 ++ ts2) = first_free (first_free e (a + tsum ts1) ts2) a ts1.
Proof.
  revert a. induction ts1 as [|[s u] ts1 IH]; intros a; simpl; [by rewrite Z.add_0_r|].
  rewrite IH. destruct u; [|done]. do 2 f_equal. simpl. lia.
Qed.
Lemma last_free_app p a ts1 ts2 : last_free p a (ts1 ++ ts2) = last_free (last_free p a ts1) (a + tsum ts1) ts2.
Proof.
  revert p a. induction ts1 as [|[s u] ts1 IH]; intros p a; simpl; [by rewrite Z.add_0_r|].
  rewrite IH. f_equal. lia.
Qed.
Lemma first_free_range e a ts : Forall tile_ok ts →
  first_free e a ts = e ∧ (∀ e', first_free e' a ts = e') ∨
  a ≤ first_free e a ts ∧ first_free e a ts + 16 ≤ a + tsum ts ∧ (∀ e', first_free e' a ts = first_free e a ts).
Proof.
  intros Hts. revert a. induction Hts as [|[s u] ts [Hs _] Hts IH]; intros a; simpl in *; [by left|].
  pose proof (tsum_nonneg ts Hts). destruct u; [|right; split_and!; [lia..|done]].
  destruct (IH (a + s)) as [[H1 H2]|(H1 & H2 & H3)]; [left|right]; split_and!; try done; lia.
Qed.
Lemma last_free_range p a ts : Forall tile_ok ts →
  last_free p a ts = p ∨ a ≤ last_free p a ts ∧ last_free p a ts + 16 ≤ a + tsum ts.
Proof.
  intros Hts. revert p a. induction Hts as [|[s u] ts [Hs _] Hts IH]; intros p a; simpl in *; [by left|].
  pose proof (tsum_nonneg ts Hts). destruct (IH (if u then p else a) (a + s)) as [->|?]; [|lia].
  destruct u; [by left|right; lia].
Qed.

(** *** Compactness and the row operations *)
Lemma compact_app ts1 ts2 : compact (ts1 ++ ts2) → compact ts1 ∧ compact ts2.
Proof.
  induction ts1 as [|t ts1 IH]; simpl; [done|]. intros [Ht Hc%IH]. destruct Hc as [Hc1 Hc2].
  split_and!; [|done..]. intros Hf. specialize (Ht Hf). by destruct ts1.
Qed.
Lemma compact_used s ts : compact ts → compact ((s, true) :: ts).
Proof. by split. Qed.
Lemma compact_app_used ts1 s ts2 : compact ts1 → compact ts2 → compact (ts1 ++ (s, true) :: ts2).
Proof.
  intros H1 H2. induction ts1 as [|t ts1 IH]; simpl; [by split|]. destruct H1 as [Ht H1]. split; [|by apply IH].
  intros Hf. specialize (Ht Hf). by destruct ts1.
Qed.
Lemma compact_cons_free s ts : compact ts → compact (cons_free s ts).
Proof. destruct ts as [|[s' []] ts]; [done|by split|]. intros [H1 H2]. by split. Qed.

(** A block that a request of [w] bytes cannot use *)
Definition unfit (w : Z) (t : tile) : Prop := t.2 = true ∨ t.1 < w.
Lemma first_fit_some w ts1 s ts2 :
  Forall (unfit w) ts1 → w ≤ s →
  first_fit w (ts1 ++ (s, false) :: ts2) = Some (tsum ts1, ts1 ++ split_tile w s ++ ts2).
Proof.
  intros Hts Hw. induction Hts as [|[s' u] ts1 Hu Hts IH]; simpl.
  - by destruct (Z.leb_spec w s); [|lia].
  - rewrite IH. destruct Hu as [Hu|Hu]; simpl in Hu; [by rewrite Hu|].
    destruct (Z.leb_spec w s'); [lia|]. by rewrite andb_false_r.
Qed.
Lemma first_fit_none w ts : Forall (unfit w) ts → first_fit w ts = None.
Proof.
  induction 1 as [|[s u] ts Hu _ IH]; [done|]. simpl. rewrite IH.
  destruct Hu as [Hu|Hu]; simpl in Hu; [by rewrite Hu|]. destruct (Z.leb_spec w s); [lia|].
  by rewrite andb_false_r.
Qed.
Lemma first_fit_inv w ts o ts' : first_fit w ts = Some (o, ts') →
  ∃ ts1 s ts2, ts = ts1 ++ (s, false) :: ts2 ∧ Forall (unfit w) ts1 ∧ w ≤ s ∧
    o = tsum ts1 ∧ ts' = ts1 ++ split_tile w s ++ ts2.
Proof.
  revert o ts'. induction ts as [|[s u] ts IH]; intros o ts'; simpl; [done|].
  destruct (negb u && (w <=? s)) eqn:Hb.
  - apply andb_true_iff in Hb as [->%negb_true_iff Hw%Z.leb_le]. intros [= <- <-].
    by exists [], s, ts.
  - destruct (first_fit w ts) as [[o1 ts1']|] eqn:Hf; [|done]. intros [= <- <-].
    destruct (IH _ _ eq_refl) as (ts1 & s1 & ts2 & -> & Hu & Hw & -> & ->).
    exists ((s, u) :: ts1), s1, ts2. split_and!; try done. constructor; [|done].
    apply andb_false_iff in Hb as [Hb%negb_false_iff|Hb%Z.leb_gt]; [by left|by right].
Qed.
(** A request larger than the free space fails. *)
Lemma first_fit_free_sum w ts o ts' : Forall tile_ok ts → first_fit w ts = Some (o, ts') → w ≤ free_sum ts.
Proof.
  intros Hok Hf. destruct (first_fit_inv _ _ _ _ Hf) as (ts1 & s & ts2 & -> & _ & Hw & _).
  apply Forall_app in Hok as [H1 H2]. apply Forall_cons in H2 as [_ H2]. rewrite free_sum_app. simpl.
  pose proof (free_sum_bounds _ H1). pose proof (free_sum_bounds _ H2). lia.
Qed.

Lemma snoc_cases (ts : list tile) : ts = [] ∨ (∃ ts' s, ts = ts' ++ [(s, true)]) ∨ ∃ ts' s, ts = ts' ++ [(s, false)].
Proof. destruct ts as [|[s []] ts' _] using rev_ind; eauto 10. Qed.

(** A free block at the head of [r] joins the last block of [ts1] if that is free. *)
Fixpoint join (ts1 r : list tile) : list tile :=
  match ts1 with
  | [] => r
  | t :: ts1 =>
      match ts1 with
      | [] => if t.2 then t :: r else cons_free t.1 r
      | _ => t :: join ts1 r
      end
  end.
Lemma join_used ts1 s r : join (ts1 ++ [(s, true)]) r = ts1 ++ (s, true) :: r.
Proof. induction ts1 as [|t ts1 IH]; [done|]. simpl. rewrite IH. by destruct ts1. Qed.
Lemma join_free ts1 s0 s r : join (ts1 ++ [(s0, false)]) ((s, false) :: r) = ts1 ++ (s0 + s, false) :: r.
Proof. induction ts1 as [|t ts1 IH]; [done|]. simpl. rewrite IH. by destruct ts1. Qed.

Lemma cons_free_add s0 s ts s' ts' :
  cons_free (s0 + s) ts = (s', false) :: ts' → cons_free s ts = (s' - s0, false) :: ts'.
Proof. destruct ts as [|[s1 []] ts]; intros [= <- <-]; simpl; do 2 f_equal; lia. Qed.

Lemma release_some ts1 s ts2 : Forall tile_ok ts1 → compact ts1 →
  release (tsum ts1) (ts1 ++ (s, true) :: ts2) = Some (join ts1 (cons_free s ts2)).
Proof.
  intros Hok. induction Hok as [|[s0 u] ts1 [Hs _] Hok IH]; intros Hc; [done|].
  destruct Hc as [Ht Hc]. cbn [tsum app release fst] in *. pose proof (tsum_nonneg _ Hok).
  destruct (Z.eqb_spec (s0 + tsum ts1) 0); [lia|]. destruct (Z.ltb_spec (s0 + tsum ts1) s0); [lia|].
  replace (s0 + tsum ts1 - s0) with (tsum ts1) by lia. rewrite (IH Hc). f_equal.
  destruct u; simpl; [by destruct ts1|]. destruct ts1 as [|[s1 u1] ts1]; [done|].
  specialize (Ht eq_refl). simpl in Ht. subst u1. by destruct ts1.
Qed.
Lemma release_inv o ts ts' : Forall tile_ok ts → release o ts = Some ts' →
  ∃ ts1 s ts2, ts = ts1 ++ (s, true) :: ts2 ∧ o = tsum ts1.
Proof.
  intros Hok. revert o ts'. induction Hok as [|[s u] ts [Hs _] Hok IH]; intros o ts'; simpl; [done|].
  destruct (Z.eqb_spec o 0) as [->|]; [destruct u; [|done]; intros _; by exists [], s, ts|].
  destruct (Z.ltb_spec o s); [done|]. destruct (release (o - s) ts) as [r|] eqn:Hr; [|done]. intros _.
  destruct (IH _ _ Hr) as (ts1 & s1 & ts2 & -> & Ho). exists ((s, u) :: ts1), s1, ts2.
  split; [done|]. simpl. lia.
Qed.

Lemma join_compact ts1 r : compact ts1 → compact r → compact (join ts1 r).
Proof.
  induction ts1 as [|[s0 u] ts1 IH]; intros [Ht H1] Hr || intros _ Hr; [done|]. simpl.
  destruct ts1 as [|t1 ts1].
  - destruct u; [by apply compact_used|by apply compact_cons_free].
  - specialize (IH H1 Hr). split; [|done]. intros Hf. specialize (Ht Hf). destruct t1 as [s1 u1].
    simpl in Ht. subst u1. by destruct ts1.
Qed.
Lemma tsum_cons_free s ts : tsum (cons_free s ts) = s + tsum ts.
Proof. destruct ts as [|[s' []] ts]; simpl; lia. Qed.
Lemma tsum_join ts1 r : tsum (join ts1 r) = tsum ts1 + tsum r.
Proof.
  induction ts1 as [|[s0 u] ts1 IH]; [simpl; lia|]. simpl. destruct ts1 as [|t1 ts1]; simpl in *; [|lia].
  destruct u; [simpl; lia|]. rewrite tsum_cons_free. lia.
Qed.
Lemma free_sum_cons_free s ts : free_sum (cons_free s ts) = s + free_sum ts.
Proof. destruct ts as [|[s' []] ts]; simpl; lia. Qed.
Lemma free_sum_join ts1 r : free_sum (join ts1 r) = free_sum ts1 + free_sum r.
Proof.
  induction ts1 as [|[s0 u] ts1 IH]; [simpl; lia|]. simpl. destruct ts1 as [|t1 ts1]; simpl in *; [|lia].
  destruct u; [simpl; lia|]. rewrite free_sum_cons_free. lia.
Qed.
Lemma cons_free_ok s ts : tile_ok (s, false) → Forall tile_ok ts → Forall tile_ok (cons_free s ts).
Proof.
  intros [Hs1 Hs2] Hts. destruct Hts as [|[s' u] ts [H1 H2] Hts]; simpl in *; [by constructor|].
  destruct u; [by repeat constructor|]. constructor; [|done]. split; simpl; [lia|].
  rewrite Z.add_mod, Hs2, H2; done.
Qed.
Lemma join_ok ts1 r : Forall tile_ok ts1 → Forall tile_ok r → Forall tile_ok (join ts1 r).
Proof.
  intros H1 Hr. induction H1 as [|[s0 u] ts1 Hs H1 IH]; [done|]. simpl. destruct ts1 as [|t1 ts1].
  - destruct u; [by constructor|by apply cons_free_ok].
  - by constructor.
Qed.

(** Releasing keeps the row in order: blocks of good sizes, none lost, and no
    two free blocks left side by side. *)
Lemma release_ok ts o ts' : Forall tile_ok ts → compact ts → release o ts = Some ts' →
  Forall tile_ok ts' ∧ compact ts' ∧ tsum ts' = tsum ts.
Proof.
  intros Hok Hc Hr. destruct (release_inv _ _ _ Hok Hr) as (ts1 & s & ts2 & -> & ->).
  apply Forall_app in Hok as [H1 H2]. apply Forall_cons in H2 as [Hs H2].
  apply compact_app in Hc as [Hc1 [_ Hc2]]. rewrite release_some in Hr by done. simplify_eq.
  split_and!.
  - apply join_ok; [done|]. by apply cons_free_ok.
  - apply join_compact; [done|]. by apply compact_cons_free.
  - rewrite tsum_join, tsum_cons_free, tsum_app. simpl. lia.
Qed.
Lemma first_fit_ok w ts o ts' : Forall tile_ok ts → compact ts → 16 ≤ w → w mod 8 = 0 →
  first_fit w ts = Some (o, ts') → Forall tile_ok ts' ∧ compact ts' ∧ tsum ts' = tsum ts.
Proof.
  intros Hok Hc Hw1 Hw2 Hf. destruct (first_fit_inv _ _ _ _ Hf) as (ts1 & s & ts2 & -> & _ & Hw & -> & ->).
  apply Forall_app in Hok as [H1 H2]. apply Forall_cons in H2 as [[Hs1 Hs2] H2]. simpl in Hs1, Hs2.
  apply compact_app in Hc as [Hc1 [Hn Hc2]]. unfold split_tile. destruct (Z.ltb_spec 16 (s - w)); simpl; split_and!.
  - apply Forall_app. split; [done|]. constructor; [done|]. constructor; [|done]. split; simpl; [lia|].
    rewrite Zminus_mod, Hs2, Hw2. done.
  - apply compact_app_used; [done|]. by split.
  - rewrite !tsum_app. simpl. lia.
  - apply Forall_app. split; [done|]. by constructor.
  - by apply compact_app_used.
  - rewrite !tsum_app. simpl. lia.
Qed.
