(* ===== verification/Heap4Rep.v ===== *)
(** * Rows of blocks in memory

    How block headers in memory describe a row of blocks, and what a write does
    to that. *)
From S2P Require Import Prelude SchedLock Heap4 Heap4Spec.

(** The headers of a row at [a] whose last free block links to [e] *)
Fixpoint tiles_rep (m : gmap Z Z) (e a : Z) (ts : list tile) : Prop :=
  match ts with
  | [] => True
  | (s, u) :: ts =>
      word m a = (if u then 0 else first_free e (a + s) ts) ∧
      word m (a + 4) = (if u then s + BIT31 else s) ∧
      tiles_rep m e (a + s) ts
  end.

(** Where the headers and the contents of the allocated blocks are *)
Fixpoint header_byte (a : Z) (ts : list tile) (x : Z) : Prop :=
  match ts with
  | [] => False
  | (s, _) :: ts => a ≤ x < a + 8 ∨ header_byte (a + s) ts x
  end.
Fixpoint payload_byte (a : Z) (ts : list tile) (x : Z) : Prop :=
  match ts with
  | [] => False
  | (s, u) :: ts => (u = true ∧ a + 8 ≤ x < a + s) ∨ payload_byte (a + s) ts x
  end.

Lemma header_byte_range a ts x : Forall tile_ok ts → header_byte a ts x → a ≤ x < a + tsum ts.
Proof.
  intros Hts. revert a. induction Hts as [|[s u] ts [Hs _] Hts IH]; intros a; simpl in *; [done|].
  pose proof (tsum_nonneg _ Hts). intros [?|Hx%IH]; lia.
Qed.
Lemma payload_byte_range a ts x : Forall tile_ok ts → payload_byte a ts x → a ≤ x < a + tsum ts.
Proof.
  intros Hts. revert a. induction Hts as [|[s u] ts [Hs _] Hts IH]; intros a; simpl in *; [done|].
  pose proof (tsum_nonneg _ Hts). intros [[_ ?]|Hx%IH]; lia.
Qed.
Lemma payload_byte_app a ts1 ts2 x :
  payload_byte a (ts1 ++ ts2) x ↔ payload_byte a ts1 x ∨ payload_byte (a + tsum ts1) ts2 x.
Proof.
  revert a. induction ts1 as [|[s u] ts1 IH]; intros a; simpl; [rewrite Z.add_0_r; tauto|].
  rewrite IH. replace (a + s + tsum ts1) with (a + (s + tsum ts1)) by lia. tauto.
Qed.
Lemma payload_header a ts x : Forall tile_ok ts → payload_byte a ts x → ¬ header_byte a ts x.
Proof.
  intros Hts. revert a. induction Hts as [|[s u] ts [Hs _] Hts IH]; intros a; simpl in *; [done|].
  intros [[_ ?]|Hp] [?|Hh].
  - lia.
  - pose proof (header_byte_range _ _ _ Hts Hh). lia.
  - pose proof (payload_byte_range _ _ _ Hts Hp). lia.
  - by apply (IH (a + s)).
Qed.

(** *** Frames *)
Lemma tiles_rep_ext m m' e a ts :
  (∀ x, header_byte a ts x → peek m' x = peek m x) → tiles_rep m e a ts → tiles_rep m' e a ts.
Proof.
  revert a. induction ts as [|[s u] ts IH]; intros a Hx; simpl; [done|]. intros (Hn & Hs & Hr).
  split_and!.
  - rewrite <- Hn. apply word_ext. intros x ?. apply Hx. left. lia.
  - rewrite <- Hs. apply word_ext. intros x ?. apply Hx. left. lia.
  - apply IH; [|done]. intros x ?. apply Hx. by right.
Qed.
Lemma tiles_rep_frame m e a ts b v : Forall tile_ok ts → b + 4 ≤ a ∨ a + tsum ts ≤ b →
  tiles_rep m e a ts → tiles_rep (put_word b v m) e a ts.
Proof.
  intros Hts Hb. apply tiles_rep_ext. intros x Hx%header_byte_range; [|done]. apply peek_put_word_ne. lia.
Qed.
Lemma tiles_rep_app m e a ts1 ts2 :
  tiles_rep m e a (ts1 ++ ts2) ↔
  tiles_rep m (first_free e (a + tsum ts1) ts2) a ts1 ∧ tiles_rep m e (a + tsum ts1) ts2.
Proof.
  revert a. induction ts1 as [|[s u] ts1 IH]; intros a; simpl; [rewrite Z.add_0_r; tauto|].
  rewrite IH, first_free_app. replace (a + s + tsum ts1) with (a + (s + tsum ts1)) by lia. tauto.
Qed.

(** *** The chain of free blocks: a node [p] outside the row that links to the
    row's first free block, and the row *)
Lemma relink m e e' p a ts :
  Forall tile_ok ts → p + 8 ≤ a ∨ a + tsum ts ≤ p → u32 e' →
  word m p = first_free e a ts → tiles_rep m e a ts →
  word (put_word (last_free p a ts) e' m) p = first_free e' a ts ∧
  tiles_rep (put_word (last_free p a ts) e' m) e' a ts.
Proof.
  intros Hts. revert p a. induction Hts as [|[s u] ts Ht Hts IH]; intros p a Hp He' Hw Hr; simpl in *.
  { split; [|done]. by apply word_put_same. }
  destruct Ht as [Hs _]. simpl in Hs. pose proof (tsum_nonneg _ Hts). destruct Hr as (Hn & Hsz & Hr).
  assert (last_free (if u then p else a) (a + s) ts = (if u then p else a) ∨
    a + s ≤ last_free (if u then p else a) (a + s) ts ∧
    last_free (if u then p else a) (a + s) ts + 16 ≤ a + s + tsum ts) as Hlast by by apply last_free_range.
  destruct u.
  - destruct (IH p (a + s)) as [Hw' Hr']; [lia|done..|]. split_and!; [done| | |done].
    + rewrite word_put_ne by lia. done.
    + rewrite word_put_ne by lia. done.
  - destruct (IH a (a + s)) as [Hw' Hr']; [lia|done..|]. split_and!; [|done| |done].
    + rewrite word_put_ne by lia. done.
    + rewrite word_put_ne by lia. done.
Qed.
Lemma last_free_next m e p a ts :
  word m p = first_free e a ts → tiles_rep m e a ts → word m (last_free p a ts) = e.
Proof.
  revert p a. induction ts as [|[s u] ts IH]; intros p a; simpl; [done|]. intros Hp (Hn & _ & Hr).
  apply IH; [|done]. by destruct u.
Qed.
Lemma last_free_size m e p a ts : Forall tile_ok ts → tiles_rep m e a ts →
  last_free p a ts = p ∨
  a ≤ last_free p a ts ∧ 16 ≤ word m (last_free p a ts + 4) ∧
    last_free p a ts + word m (last_free p a ts + 4) ≤ a + tsum ts.
Proof.
  intros Hts. revert p a. induction Hts as [|[s u] ts [Hs _] Hts IH]; intros p a; simpl in *; [by left|].
  intros (_ & Hsz & Hr). pose proof (tsum_nonneg _ Hts).
  destruct (IH (if u then p else a) (a + s) Hr) as [->|?]; [|right; lia].
  destruct u; [by left|right]. rewrite Hsz. lia.
Qed.
(** The links never point into the contents of an allocated block. *)
Lemma last_free_payload p a ts x : Forall tile_ok ts → payload_byte a ts x →
  last_free p a ts = p ∨ ¬ (last_free p a ts ≤ x < last_free p a ts + 8).
Proof.
  intros Hts. revert p a. induction Hts as [|[s u] ts [Hs _] Hts IH]; intros p a; simpl in *; [done|].
  intros [[-> Hx]|Hx].
  - destruct (last_free_range p (a + s) ts Hts) as [?|?]; [by left|right; lia].
  - destruct (IH (if u then p else a) (a + s) Hx) as [->|?]; [|by right].
    destruct u; [by left|right]. pose proof (payload_byte_range _ _ _ Hts Hx). lia.
Qed.
