(* ===== verification/Heap4Ops.v ===== *)
(** * The allocator implements the row operations *)
From S2P Require Import Prelude SchedLock Heap4 Heap4Spec Heap4Rep.

Lemma list_fuel_enough n : Z.of_nat n < 12802 → (n < list_fuel)%nat.
Proof. unfold list_fuel. change (configTOTAL_HEAP_SIZE / sizeof_BlockLink_t + 2) with 12802. lia. Qed.
#[global] Opaque list_fuel.

(** ** The invariant *)
Section heap4.
Context `{HLok : HeapLayoutOk}.

(** The first aligned address, and the address of the end marker *)
Definition heap_start : Z := (ucHeap + 7) / 8 * 8.
Definition heap_end : Z := (ucHeap + configTOTAL_HEAP_SIZE - 8) / 8 * 8.
(** The row of an empty heap *)
Definition init_tiles : list tile := [(heap_end - heap_start, false)].

Lemma heap_bounds : 0 < ucHeap ∧ ucHeap ≤ heap_start < ucHeap + 8 ∧ heap_start mod 8 = 0 ∧
  ucHeap + configTOTAL_HEAP_SIZE - 16 < heap_end ≤ ucHeap + configTOTAL_HEAP_SIZE - 8 ∧ heap_end mod 8 = 0 ∧
  ucHeap + configTOTAL_HEAP_SIZE < MAX32.
Proof.
  pose proof ucHeap_range. unfold heap_start, heap_end. rewrite !Z.mod_mul by lia.
  pose proof (Z.div_mod (ucHeap + 7) 8 ltac:(lia)). pose proof (Z.mod_pos_bound (ucHeap + 7) 8 ltac:(lia)).
  pose proof (Z.div_mod (ucHeap + configTOTAL_HEAP_SIZE - 8) 8 ltac:(lia)).
  pose proof (Z.mod_pos_bound (ucHeap + configTOTAL_HEAP_SIZE - 8) 8 ltac:(lia)). lia.
Qed.

Lemma heap_start_end : heap_start + 100000 < heap_end.
Proof. pose proof heap_bounds. unfold configTOTAL_HEAP_SIZE in *. lia. Qed.

(** The chain of free blocks through the front part of the row *)
Definition chain (m : gmap Z Z) (e : Z) (ts : list tile) : Prop :=
  word m xStart = first_free e heap_start ts ∧ word m (xStart + 4) = 0 ∧ tiles_rep m e heap_start ts.

Record heap_rep (h : heap) (ts : list tile) : Prop := {
  hr_end : pxEnd h = heap_end;
  hr_chain : chain (h_mem h) heap_end ts;
  hr_marker : word (h_mem h) heap_end = 0 ∧ word (h_mem h) (heap_end + 4) = 0;
  hr_ok : Forall tile_ok ts;
  hr_sum : heap_start + tsum ts = heap_end;
  hr_compact : compact ts;
  hr_free : xFreeBytesRemaining h = free_sum ts;
  hr_min : 0 ≤ xMinimumEverFreeBytesRemaining h ≤ free_sum ts
}.
(** Before the first allocation nothing is set up. *)
Definition heap_inv (h : heap) (ts : list tile) : Prop :=
  (pxEnd h = 0 ∧ ts = init_tiles) ∨ heap_rep h ts.

(** ** Memory accesses *)
(** A pointer to a header *)
Definition node (p : Z) : Prop := p = xStart ∨ heap_start ≤ p ≤ heap_end.
Lemma node_valid p : node p → valid_addr p 4 = true ∧ valid_addr (p + 4) 4 = true.
Proof.
  pose proof heap_bounds. unfold node, valid_addr, in_heap, in_start, sizeof_BlockLink_t.
  rewrite !orb_true_iff, !andb_true_iff, !Z.leb_le. lia.
Qed.
Lemma wp_load32 a Q h : valid_addr a 4 = true → Q (word (h_mem h) a) h → wp (load32 a) Q h.
Proof. intros Hv HQ. unfold wp, load32. by rewrite Hv. Qed.
Lemma wp_store32 a v Q h : valid_addr a 4 = true → Q tt (h <| h_mem ::= put_word a v |>) → wp (store32 a v) Q h.
Proof. intros Hv HQ. unfold wp, store32. by rewrite Hv. Qed.
Lemma wp_get_link p Q h : node p → Q (word (h_mem h) p) h → wp (get_pxNextFreeBlock p) Q h.
Proof. intros [Hv _]%node_valid. by apply wp_load32. Qed.
Lemma wp_get_size p Q h : node p → Q (word (h_mem h) (p + 4)) h → wp (get_xBlockSize p) Q h.
Proof. intros [_ Hv]%node_valid. by apply wp_load32. Qed.
Lemma wp_set_link p v Q h : node p → Q tt (h <| h_mem ::= put_word p v |>) → wp (set_pxNextFreeBlock p v) Q h.
Proof. intros [Hv _]%node_valid. by apply wp_store32. Qed.
Lemma wp_set_size p v Q h : node p → Q tt (h <| h_mem ::= put_word (p + 4) v |>) → wp (set_xBlockSize p v) Q h.
Proof. intros [_ Hv]%node_valid. by apply wp_store32. Qed.
Lemma wp_validate p (Q : unit → heap → Prop) h : ucHeap ≤ p ≤ ucHeap + configTOTAL_HEAP_SIZE - 1 →
  Q tt h → wp (heapVALIDATE_BLOCK_POINTER p) Q h.
Proof.
  intros Hp HQ. apply wp_assert; [|done]. apply andb_true_iff. rewrite !Z.leb_le. lia.
Qed.

(** Kept facts about a chain under writes elsewhere *)
Lemma chain_frame m e ts a v : Forall tile_ok ts → heap_start + tsum ts ≤ a → a + 4 ≤ heap_end + 8 →
  chain m e ts → chain (put_word a v m) e ts.
Proof.
  intros Hok Ha Hb (H1 & H2 & H3). pose proof heap_bounds. pose proof xStart_apart. pose proof (tsum_nonneg _ Hok).
  unfold sizeof_BlockLink_t in *. split_and!.
  - rewrite word_put_ne by lia. done.
  - rewrite word_put_ne by lia. done.
  - apply tiles_rep_frame; [done|lia|done].
Qed.
Lemma chain_node ts : Forall tile_ok ts → heap_start + tsum ts ≤ heap_end →
  node (last_free xStart heap_start ts).
Proof. intros Hok Hs. destruct (last_free_range xStart heap_start ts Hok) as [->|?]; [by left|right; lia]. Qed.
Lemma chain_relink m e e' ts : Forall tile_ok ts → heap_start + tsum ts ≤ heap_end → u32 e' →
  chain m e ts → chain (put_word (last_free xStart heap_start ts) e' m) e' ts.
Proof.
  intros Hok Hs He' (H1 & H2 & H3). pose proof heap_bounds. pose proof xStart_apart. unfold sizeof_BlockLink_t in *.
  destruct (relink m e e' xStart heap_start ts) as [Hw Hr]; [done|lia|done..|]. split_and!; [done| |done].
  rewrite word_put_ne; [done|]. pose proof (last_free_range xStart heap_start ts Hok). lia.
Qed.
Lemma chain_next m e ts : chain m e ts → word m (last_free xStart heap_start ts) = e.
Proof. intros (H1 & _ & H3). by eapply last_free_next. Qed.
(** The header of the last free block lies apart from everything behind the row. *)
Lemma chain_apart ts : Forall tile_ok ts → heap_start + tsum ts ≤ heap_end →
  let p := last_free xStart heap_start ts in
  p + 8 ≤ heap_start + tsum ts ∨ heap_end + 8 ≤ p.
Proof.
  intros Hok Hs p. pose proof heap_bounds. pose proof xStart_apart. pose proof (tsum_nonneg _ Hok).
  unfold sizeof_BlockLink_t in *. pose proof (last_free_range xStart heap_start ts Hok). subst p. lia.
Qed.
(** The contents of the allocated blocks of a row, and its links *)
Lemma chain_payload ts x : Forall tile_ok ts → heap_start + tsum ts ≤ heap_end → payload_byte heap_start ts x →
  let p := last_free xStart heap_start ts in x < p ∨ p + 8 ≤ x.
Proof.
  intros Hok Hs Hx p. pose proof heap_bounds. pose proof xStart_apart.
  unfold sizeof_BlockLink_t in *. pose proof (payload_byte_range _ _ _ Hok Hx).
  destruct (last_free_payload xStart heap_start ts x Hok Hx) as [Hp|Hp]; subst p; lia.
Qed.

(** A row around one block *)
Record around (m : gmap Z Z) (ts1 : list tile) (e s : Z) (ts2 : list tile) : Prop := {
  ar_chain : chain m e ts1;
  ar_ok1 : Forall tile_ok ts1;
  ar_ok2 : Forall tile_ok ts2;
  ar_sum : heap_start + tsum ts1 + s + tsum ts2 = heap_end;
  ar_rest : tiles_rep m heap_end (heap_start + tsum ts1 + s) ts2;
  ar_marker : word m heap_end = 0 ∧ word m (heap_end + 4) = 0
}.
Lemma around_rep h ts1 s u ts2 : heap_rep h (ts1 ++ (s, u) :: ts2) →
  around (h_mem h) ts1 (first_free heap_end (heap_start + tsum ts1) ((s, u) :: ts2)) s ts2 ∧
  word (h_mem h) (heap_start + tsum ts1) =
    (if u then 0 else first_free heap_end (heap_start + tsum ts1 + s) ts2) ∧
  word (h_mem h) (heap_start + tsum ts1 + 4) = (if u then s + BIT31 else s) ∧
  tile_ok (s, u) ∧ compact ts1 ∧ compact ts2.
Proof.
  intros [He (Hc1 & Hc2 & Hc3) Hm Hok Hsum Hc _ _]. apply Forall_app in Hok as [Hok1 Hok2].
  apply Forall_cons in Hok2 as [Hs Hok2]. apply compact_app in Hc as [Hcp1 [_ Hcp2]].
  rewrite tsum_app in Hsum. simpl in Hsum. apply tiles_rep_app in Hc3 as [Hr1 (Hr2 & Hr3 & Hr4)].
  split_and!; try done. constructor; try done; [|lia]. split_and!; [|done|done].
  by rewrite first_free_app in Hc1.
Qed.

(** Writes to the block, behind the front part and before the rest, and the
    write that links the front part *)
Lemma around_write m ts1 e s ts2 a v : around m ts1 e s ts2 →
  heap_start + tsum ts1 ≤ a → a + 4 ≤ heap_start + tsum ts1 + s → around (put_word a v m) ts1 e s ts2.
Proof.
  intros [Hch Hok1 Hok2 Hsum Hrest Hm] Ha Hb. pose proof (tsum_nonneg _ Hok2). constructor; try done.
  - apply chain_frame; [done|lia..|done].
  - apply tiles_rep_frame; [done|lia|done].
  - rewrite !word_put_ne by lia. done.
Qed.
Lemma around_link m ts1 e s ts2 e' : around m ts1 e s ts2 → 0 ≤ s → u32 e' →
  around (put_word (last_free xStart heap_start ts1) e' m) ts1 e' s ts2.
Proof.
  intros [Hch Hok1 Hok2 Hsum Hrest Hm] Hs He'. pose proof (tsum_nonneg _ Hok2). pose proof (tsum_nonneg _ Hok1).
  pose proof (chain_apart ts1 Hok1 ltac:(lia)) as Hp. simpl in Hp. constructor; try done.
  - eapply chain_relink; [done|lia|done..].
  - apply tiles_rep_frame; [done|lia|done].
  - rewrite !word_put_ne by lia. done.
Qed.

(** The block of size [s] becomes one of size [w] and a free one. *)
Lemma around_split m ts1 e s w ts2 : around m ts1 e s ts2 → tile_ok (s - w, false) →
  word m (heap_start + tsum ts1 + w) = first_free heap_end (heap_start + tsum ts1 + s) ts2 →
  word m (heap_start + tsum ts1 + w + 4) = s - w → around m ts1 e w ((s - w, false) :: ts2).
Proof.
  intros [Hch Hok1 Hok2 Hsum Hrest Hm] Ht H1 H2. constructor; try done.
  - by constructor.
  - simpl. lia.
  - simpl. replace (heap_start + tsum ts1 + w + (s - w)) with (heap_start + tsum ts1 + s) by lia. done.
Qed.

(** ** Initialisation *)
Lemma init_tiles_ok : Forall tile_ok init_tiles ∧ compact init_tiles ∧ heap_start + tsum init_tiles = heap_end ∧
  free_sum init_tiles = heap_end - heap_start.
Proof.
  pose proof heap_bounds as (_ & ? & Hs & ? & He & _). unfold configTOTAL_HEAP_SIZE in *. simpl. split_and!; [|done|done|lia..].
  constructor; [|done]. split; simpl; [lia|]. rewrite Zminus_mod, Hs, He. done.
Qed.

Lemma init_addresses :
  (if negb (Z.land ucHeap portBYTE_ALIGNMENT_MASK =? 0) then
     let b := Z.land (wrap32 (ucHeap + (portBYTE_ALIGNMENT - 1))) (wrap32 (Z.lnot portBYTE_ALIGNMENT_MASK)) in
     (b, wrap32 (configTOTAL_HEAP_SIZE - wrap32 (b - ucHeap)))
   else (ucHeap, configTOTAL_HEAP_SIZE)) = (heap_start, ucHeap + configTOTAL_HEAP_SIZE - heap_start).
Proof.
  pose proof heap_bounds as (? & Hs & Hm & _ & _ & Hb). unfold heap_start in *.
  unfold portBYTE_ALIGNMENT, configTOTAL_HEAP_SIZE in *.
  pose proof (Z.div_mod (ucHeap + 7) 8 ltac:(lia)) as Hd. rewrite land_mask.
  destruct (Z.eqb_spec (ucHeap mod 8) 0) as [Ha0|Ha0]; simpl.
  - assert ((ucHeap + 7) / 8 * 8 = ucHeap) as ->; [|f_equal; lia].
    pose proof (Z.div_mod ucHeap 8 ltac:(lia)). Z.to_euclidean_division_equations. lia.
  - rewrite (wrap32_small (ucHeap + 7)) by (unfold u32; lia).
    rewrite land_align by (unfold u32; lia).
    assert (ucHeap + 7 - (ucHeap + 7) mod 8 = (ucHeap + 7) / 8 * 8) as -> by lia.
    rewrite !wrap32_small by (unfold u32, MAX32 in *; rewrite ?wrap32_small by (unfold u32, MAX32 in *; lia); lia).
    f_equal. lia.
Qed.

Lemma wp_prvHeapInit h :
  wp prvHeapInit (λ _ h', heap_rep h' init_tiles ∧
    xFreeBytesRemaining h' = heap_end - heap_start ∧ xMinimumEverFreeBytesRemaining h' = heap_end - heap_start ∧
    xNumberOfSuccessfulAllocations h' = xNumberOfSuccessfulAllocations h ∧
    xNumberOfSuccessfulFrees h' = xNumberOfSuccessfulFrees h) h.
Proof.
  pose proof heap_bounds as (? & Hs & Hm & He & Hme & Hb). pose proof xStart_apart. pose proof xStart_range.
  unfold sizeof_BlockLink_t in *.
  assert (heap_end - heap_start > 100000) as Hbig by (unfold configTOTAL_HEAP_SIZE in *; lia).
  unfold prvHeapInit. pose proof init_addresses as Hi. cbv zeta in *. rewrite Hi.
  assert (Z.land (wrap32 (wrap32 (heap_start + (ucHeap + configTOTAL_HEAP_SIZE - heap_start)) - xHeapStructSize))
      (wrap32 (Z.lnot portBYTE_ALIGNMENT_MASK)) = heap_end) as ->.
  { change xHeapStructSize with 8. replace (heap_start + (ucHeap + configTOTAL_HEAP_SIZE - heap_start))
      with (ucHeap + configTOTAL_HEAP_SIZE) by lia.
    rewrite !wrap32_small by (unfold u32; rewrite ?wrap32_small by (unfold u32; lia); lia).
    rewrite land_align by (unfold u32; lia). unfold heap_end.
    pose proof (Z.div_mod (ucHeap + configTOTAL_HEAP_SIZE - 8) 8 ltac:(lia)). lia. }
  assert (node xStart ∧ node heap_start ∧ node heap_end) as (? & ? & ?) by (unfold node; lia).
  apply wp_bind, wp_set_link; [done|]. apply wp_bind, wp_set_size; [done|]. apply wp_bind, wp_modify.
  apply wp_bind, wp_set_size; [done|]. apply wp_bind, wp_set_link; [done|].
  apply wp_bind, wp_set_size; [done|]. apply wp_bind, wp_set_link; [done|].
  apply wp_bind, wp_get_size; [done|]. apply wp_modify.
  rewrite (wrap32_small (heap_end - heap_start)) by (unfold u32, MAX32 in *; lia).
  simpl. rewrite word_put_ne by lia. rewrite word_put_same by (unfold u32, MAX32 in *; lia).
  destruct init_tiles_ok as (Hok & Hc & Hsum & Hfs). split; [|done]. constructor; simpl; try done.
  - split_and!; simpl.
    + rewrite 5!word_put_ne by lia. apply word_put_same. unfold u32, MAX32 in *; lia.
    + rewrite 4!word_put_ne by lia. by apply word_put_same.
    + split_and!; [| |done].
      * apply word_put_same. unfold u32, MAX32 in *; lia.
      * rewrite word_put_ne by lia. apply word_put_same. unfold u32, MAX32 in *; lia.
  - split.
    + rewrite 2!word_put_ne by lia. by apply word_put_same.
    + rewrite 3!word_put_ne by lia. by apply word_put_same.
  - lia.
Qed.

(** ** The search *)
Lemma wp_search w ts : ∀ fuel prev a h,
  Forall tile_ok ts → heap_start ≤ a → a + tsum ts = heap_end → tiles_rep (h_mem h) heap_end a ts →
  word (h_mem h) heap_end = 0 → word (h_mem h) (heap_end + 4) = 0 → 0 < w → (length ts < fuel)%nat →
  wp (iterM fuel (search_one w) (prev, first_free heap_end a ts)) (λ r h', h' = h ∧
    ((∃ ts1 s ts2, ts = ts1 ++ (s, false) :: ts2 ∧ Forall (unfit w) ts1 ∧ w ≤ s ∧
        r = (last_free prev a ts1, a + tsum ts1)) ∨
     (Forall (unfit w) ts ∧ r.2 = heap_end))) h.
Proof.
  pose proof heap_bounds as (? & ? & _ & ? & _ & ?). pose proof heap_start_end.
  induction ts as [|[s u] ts IH]; intros fuel prev a h Hok Ha Hsum Hrep Hm1 Hm2 Hw Hf; simpl in Hf.
  - destruct fuel as [|fuel]; [lia|]. simpl. apply wp_bind, wp_bind, wp_get_size; [unfold node; lia|].
    rewrite Hm2. destruct (Z.ltb_spec 0 w); [|lia]. apply wp_bind, wp_get_link; [unfold node; lia|].
    rewrite Hm1. simpl. apply wp_ret, wp_ret. split; [done|]. by right.
  - apply Forall_cons in Hok as [[Hs _] Hok]. simpl in Hs, Hsum. pose proof (tsum_nonneg _ Hok).
    destruct Hrep as (Hn & Hsz & Hrep).
    assert (∀ r, ((∃ ts1 s0 ts2, ts = ts1 ++ (s0, false) :: ts2 ∧ Forall (unfit w) ts1 ∧ w ≤ s0 ∧
        r = (last_free (if u then prev else a) (a + s) ts1, a + s + tsum ts1)) ∨ (Forall (unfit w) ts ∧ r.2 = heap_end)) →
        unfit w (s, u) →
        ((∃ ts1 s0 ts2, (s, u) :: ts = ts1 ++ (s0, false) :: ts2 ∧ Forall (unfit w) ts1 ∧ w ≤ s0 ∧
        r = (last_free prev a ts1, a + tsum ts1)) ∨ (Forall (unfit w) ((s, u) :: ts) ∧ r.2 = heap_end))) as Hstep.
    { intros r [(ts1 & s0 & ts2 & -> & Hu & Hw0 & ->)|[Hu Hr]] Hus.
      - left. exists ((s, u) :: ts1), s0, ts2. split_and!; [done|by constructor|done|]. simpl. f_equal. lia.
      - right. split; [by constructor|done]. }
    destruct u; simpl in *.
    { eapply wp_mono; [apply (IH fuel prev (a + s) h); (done || lia)|]. intros r h' [-> Hr]. split; [done|].
      apply Hstep; [done|by left]. }
    destruct fuel as [|fuel]; [lia|]. simpl. apply wp_bind, wp_bind, wp_get_size; [unfold node; lia|].
    rewrite Hsz. destruct (Z.ltb_spec s w).
    + apply wp_bind, wp_get_link; [unfold node; lia|]. rewrite Hn.
      assert (ucHeap ≤ first_free heap_end (a + s) ts ≤ heap_end) as Hrange.
      { destruct (first_free_range heap_end (a + s) ts Hok) as [[-> _]|(? & ? & _)]; lia. }
      destruct (Z.eqb_spec (first_free heap_end (a + s) ts) 0); [lia|]. simpl.
      apply wp_bind, wp_validate; [unfold configTOTAL_HEAP_SIZE in *; lia|]. apply wp_ret.
      eapply wp_mono; [apply (IH fuel a (a + s) h); (done || lia)|]. intros r h' [-> Hr]. split; [done|].
      apply Hstep; [done|by right].
    + apply wp_ret, wp_ret. split; [done|]. left. exists [], s, ts. split_and!; [done..|]. simpl. f_equal. lia.
Qed.

(** ** Taking a block *)

(** The contents of the blocks allocated in [h] are the same in [h']. *)
Definition same_payload (ts : list tile) (h h' : heap) : Prop :=
  ∀ x, payload_byte heap_start ts x → peek (h_mem h') x = peek (h_mem h) x.

Lemma payload_around ts1 s u ts2 x :
  Forall tile_ok ts1 → Forall tile_ok ts2 → heap_start + tsum ts1 + s + tsum ts2 = heap_end → 0 ≤ s →
  payload_byte heap_start (ts1 ++ (s, u) :: ts2) x →
  let p := last_free xStart heap_start ts1 in
  let b := heap_start + tsum ts1 in
  (x < p ∨ p + 8 ≤ x) ∧ (x < b ∨ b + s ≤ x ∨ u = true ∧ b + 8 ≤ x).
Proof.
  intros Hok1 Hok2 Hsum Hs Hx p b. pose proof (tsum_nonneg _ Hok2). pose proof (chain_apart ts1 Hok1 ltac:(lia)) as Hp.
  pose proof (tsum_nonneg _ Hok1).
  apply payload_byte_app in Hx as [Hx|[[-> Hx]|Hx]].
  - pose proof (chain_payload _ _ Hok1 ltac:(lia) Hx). pose proof (payload_byte_range _ _ _ Hok1 Hx).
    subst p b. simpl in *. lia.
  - subst p b. simpl in *. split; [lia|]. right. right. split; [done|lia].
  - pose proof (payload_byte_range _ _ _ Hok2 Hx). subst p b. simpl in *. lia.
Qed.

(** Accounting and marking a block that is off the list, in front of a row [rest] *)
Lemma wp_claim_block ts1 s rest h :
  around (h_mem h) ts1 (first_free heap_end (heap_start + tsum ts1 + s) rest) s rest →
  pxEnd h = heap_end → word (h_mem h) (heap_start + tsum ts1 + 4) = s →
  tile_ok (s, true) → compact ts1 → compact rest →
  xFreeBytesRemaining h = free_sum ts1 + s + free_sum rest →
  0 ≤ xMinimumEverFreeBytesRemaining h →
  wp (claim_block (heap_start + tsum ts1)) (λ _ h',
    heap_rep h' (ts1 ++ (s, true) :: rest) ∧
    (∀ x, x < heap_start + tsum ts1 ∨ heap_start + tsum ts1 + 8 ≤ x → peek (h_mem h') x = peek (h_mem h) x) ∧
    xMinimumEverFreeBytesRemaining h' = Z.min (xMinimumEverFreeBytesRemaining h) (xFreeBytesRemaining h') ∧
    xNumberOfSuccessfulAllocations h' = wrap32 (xNumberOfSuccessfulAllocations h + 1) ∧
    xNumberOfSuccessfulFrees h' = xNumberOfSuccessfulFrees h) h.
Proof.
  intros Har He Hsz [Hs1 Hs2] Hc1 Hc2 Hfree Hmin. simpl in Hs1, Hs2. pose proof Har as [_ Hok1 Hok2 Hsum _ _].
  set (b := heap_start + tsum ts1) in *.
  pose proof (tsum_nonneg _ Hok1). pose proof (tsum_nonneg _ Hok2). pose proof heap_bounds as (? & ? & _ & ? & _ & ?).
  pose proof (free_sum_bounds _ Hok1). pose proof (free_sum_bounds _ Hok2).
  assert (heap_end < BIT31 + heap_start) as Hbit by (unfold BIT31, configTOTAL_HEAP_SIZE in *; lia).
  assert (node b) as Hnb by (unfold node; lia).
  unfold claim_block. apply wp_bind, wp_get_size; [done|]. rewrite Hsz. apply wp_bind, wp_modify. apply wp_bind.
  set (h1 := h <| xFreeBytesRemaining ::= λ n, wrap32 (n - s) |>).
  assert (xFreeBytesRemaining h1 = free_sum ts1 + free_sum rest) as Hfree1.
  { simpl. rewrite Hfree, wrap32_small by (unfold u32; lia). lia. }
  apply (wp_mono _ (λ _ h2, h2 = h1 <| xMinimumEverFreeBytesRemaining :=
      Z.min (xMinimumEverFreeBytesRemaining h) (free_sum ts1 + free_sum rest) |>)).
  { apply wp_bind, wp_getM. rewrite Hfree1. simpl.
    destruct (Z.ltb_spec (free_sum ts1 + free_sum rest) (xMinimumEverFreeBytesRemaining h)).
    - apply wp_modify. rewrite Hfree1. by rewrite Z.min_r by lia.
    - apply wp_ret. rewrite Z.min_l by lia. by destruct h. }
  intros _ h2 ->. unfold heapALLOCATE_BLOCK. apply wp_bind, wp_bind, wp_get_size; [done|]. simpl. rewrite Hsz.
  rewrite lor_bit31 by lia. apply wp_set_size; [done|]. apply wp_bind, wp_set_link; [done|]. apply wp_modify.
  simpl. simpl in Hfree1. split_and!; [|intros x Hx; rewrite !peek_put_word_ne by lia; done| |done..].
  - set (m' := put_word b 0 (put_word (b + 4) (s + BIT31) (h_mem h))).
    assert (around m' ts1 (first_free heap_end (b + s) rest) s rest) as [(Hw1 & Hw2 & Hr1) _ _ _ Hr2 Hmk].
    { apply around_write; [|lia..]. apply around_write; [done|lia..]. }
    constructor; simpl; try done.
    + split_and!.
      * rewrite first_free_app. exact Hw1.
      * done.
      * apply tiles_rep_app. split; [exact Hr1|]. simpl. fold b. split_and!; [| |done]; subst m'.
        -- by rewrite word_put_same.
        -- rewrite word_put_ne by lia. rewrite word_put_same; [done|]. unfold u32, BIT31, MAX32 in *; lia.
    + apply Forall_app. split; [done|]. by constructor.
    + rewrite tsum_app. simpl. lia.
    + by apply compact_app_used.
    + rewrite free_sum_app. simpl. rewrite Hfree1. lia.
    + rewrite free_sum_app. simpl. lia.
  - by rewrite Hfree1.
Qed.

Lemma wp_take_block w ts1 s ts2 h :
  heap_rep h (ts1 ++ (s, false) :: ts2) → 16 ≤ w → w mod 8 = 0 → w ≤ s →
  wp (take_block w (last_free xStart heap_start ts1) (heap_start + tsum ts1)) (λ p h',
    p = heap_start + tsum ts1 + 8 ∧ heap_rep h' (ts1 ++ split_tile w s ++ ts2) ∧
    same_payload (ts1 ++ (s, false) :: ts2) h h' ∧
    xMinimumEverFreeBytesRemaining h' = Z.min (xMinimumEverFreeBytesRemaining h) (xFreeBytesRemaining h') ∧
    xNumberOfSuccessfulAllocations h' = wrap32 (xNumberOfSuccessfulAllocations h + 1) ∧
    xNumberOfSuccessfulFrees h' = xNumberOfSuccessfulFrees h) h.
Proof.
  intros Hrep Hw1 Hw2 Hws. destruct (around_rep _ _ _ _ _ Hrep) as (Har & Hn & Hsz & [Hs1 Hs2] & Hcp1 & Hcp2).
  simpl in Har, Hs1, Hs2. pose proof Har as [Hch Hok1 Hok2 Hsum Hrest Hm].
  set (b := heap_start + tsum ts1) in *. set (p := last_free xStart heap_start ts1) in *.
  set (nx := first_free heap_end (b + s) ts2) in *. set (m := h_mem h) in *.
  pose proof (tsum_nonneg _ Hok1). pose proof (tsum_nonneg _ Hok2). pose proof heap_bounds as (? & ? & Hal & ? & Hale & ?).
  pose proof (chain_apart ts1 Hok1 ltac:(lia)) as Hp. fold p b in Hp. simpl in Hp.
  assert (node p) as Hnp by (apply chain_node; [done|lia]). assert (node b) as Hnb by (unfold node; lia).
  assert (u32 nx) as Hunx.
  { unfold u32. destruct (first_free_range heap_end (b + s) ts2 Hok2) as [[Hf _]|(? & ? & _)]; subst nx; lia. }
  pose proof (hr_free _ _ Hrep) as Hfree. pose proof (hr_min _ _ Hrep) as Hmin. rewrite free_sum_app in Hfree, Hmin.
  simpl in Hfree, Hmin. pose proof (free_sum_bounds _ Hok1). pose proof (free_sum_bounds _ Hok2).
  unfold take_block. change xHeapStructSize with 8.
  assert (word m p = b) as Hpn by exact (chain_next _ _ _ Hch).
  apply wp_bind, wp_get_link; [done|]. fold m. rewrite Hpn.
  rewrite (wrap32_small (b + 8)) by (unfold u32; lia).
  apply wp_bind, wp_validate; [lia|]. apply wp_bind, wp_get_link; [done|]. fold m. rewrite Hn.
  apply wp_bind, wp_set_link; [done|]. apply wp_bind, wp_get_size; [done|]. simpl. fold m.
  rewrite word_put_ne by lia. rewrite Hsz.
  apply wp_bind, wp_assert; [unfold heapSUBTRACT_WILL_UNDERFLOW; destruct (Z.ltb_spec s w); [lia|done]|].
  rewrite (wrap32_small (s - w)) by (unfold u32; lia). change heapMINIMUM_BLOCK_SIZE with 16. unfold split_tile.
  assert (around (put_word p nx m) ts1 nx s ts2) as Har1 by (eapply around_link; [exact Har|lia|done]).
  destruct (Z.ltb_spec 16 (s - w)) as [Hlarge|Hsmall]; apply wp_bind.
  - rewrite (wrap32_small (b + w)) by (unfold u32; lia).
    assert (node (b + w)) by (unfold node; lia).
    apply wp_bind, wp_assert.
    { rewrite land_mask. apply Z.eqb_eq. subst b. pose proof (tsum_aligned _ Hok1) as Ht.
      rewrite Z.add_mod, (Z.add_mod heap_start), Hal, Ht, Hw2 by lia. done. }
    apply wp_bind, wp_set_size; [done|]. apply wp_bind, wp_set_size; [done|]. apply wp_bind, wp_get_link; [done|].
    simpl. fold m. rewrite 2!word_put_ne by lia. rewrite word_put_same by done.
    apply wp_bind, wp_set_link; [done|]. apply wp_set_link; [done|]. simpl.
    set (m0 := put_word (b + w) nx (put_word (b + 4) w (put_word (b + w + 4) (s - w) (put_word p nx m)))).
    assert (around m0 ts1 nx s ts2) as Har0 by (do 3 (apply around_write; [|lia..]); done).
    apply (around_link _ _ _ _ _ (b + w)) in Har0; [|lia|unfold u32; lia]. fold p in Har0.
    apply (around_split _ _ _ _ w) in Har0; fold b.
    + apply wp_bind. eapply wp_mono.
      { apply (wp_claim_block ts1 w ((s - w, false) :: ts2)); simpl; fold b.
        - exact Har0.
        - apply Hrep.
        - rewrite word_put_ne by lia. subst m0. rewrite word_put_ne by lia. apply word_put_same. unfold u32; lia.
        - split; simpl; lia.
        - done.
        - split; [|done]. intros _. pose proof (hr_compact _ _ Hrep) as [_ [Hc _]]%compact_app. by apply Hc.
        - lia.
        - apply Hmin. }
      simpl. fold b. intros _ h' (Hrep' & Hfr & Hmin' & Hcnt & Hcnt'). apply wp_ret. split_and!; try done.
      intros x Hx. destruct (payload_around ts1 s false ts2 x) as [Hx1 Hx2]; [done..|lia|done|].
      fold p b in Hx1, Hx2. rewrite Hfr by lia. subst m0. rewrite !peek_put_word_ne by lia. done.
    + split; simpl; [lia|]. rewrite Zminus_mod, Hs2, Hw2. done.
    + fold b. rewrite word_put_ne by lia. subst m0. by rewrite word_put_same.
    + fold b. rewrite word_put_ne by lia. subst m0. rewrite 2!word_put_ne by lia. apply word_put_same. unfold u32; lia.
  - apply wp_ret. apply wp_bind. eapply wp_mono.
    { apply (wp_claim_block ts1 s ts2); simpl; fold b; fold m.
      - exact Har1.
      - apply Hrep.
      - by rewrite word_put_ne by lia.
      - split; simpl; lia.
      - done.
      - done.
      - lia.
      - apply Hmin. }
    simpl. fold b m. intros _ h' (Hrep' & Hfr & Hmin' & Hcnt & Hcnt'). apply wp_ret. split_and!; try done.
    intros x Hx. destruct (payload_around ts1 s false ts2 x) as [Hx1 Hx2]; [done..|lia|done|].
    fold p b in Hx1, Hx2. rewrite Hfr by lia. rewrite peek_put_word_ne by lia. done.
Qed.

(** ** Allocating *)

(** The fewest free bytes so far, as it will be counted from now on *)
Definition min_ever (h : heap) (ts : list tile) : Z :=
  if pxEnd h =? 0 then free_sum ts else xMinimumEverFreeBytesRemaining h.

Lemma wp_ensure_init h ts :
  heap_inv h ts →
  wp (when pxEnd h =? 0 then prvHeapInit) (λ _ h', heap_rep h' ts ∧ same_payload ts h h' ∧
    xMinimumEverFreeBytesRemaining h' = min_ever h ts ∧
    xNumberOfSuccessfulAllocations h' = xNumberOfSuccessfulAllocations h ∧
    xNumberOfSuccessfulFrees h' = xNumberOfSuccessfulFrees h) h.
Proof.
  pose proof heap_bounds. pose proof heap_start_end. unfold min_ever. intros [[He ->]|Hrep].
  - rewrite He. simpl. eapply wp_mono; [apply wp_prvHeapInit|]. intros _ h' (? & Hf & Hm & ? & ?).
    split_and!; [done| |simpl; lia|done..]. intros x. simpl. intros [[? _]|[]]. done.
  - pose proof (hr_end _ _ Hrep) as ->. destruct (Z.eqb_spec heap_end 0); [lia|]. by apply wp_ret.
Qed.

Lemma wp_malloc_locked w h ts :
  heap_inv h ts → w = 0 ∨ 16 ≤ w ∧ w mod 8 = 0 → w < MAX32 →
  wp (malloc_locked w) (λ p h',
    match (if 0 <? w then first_fit w ts else None) with
    | Some (o, ts') => p = heap_start + o + 8 ∧ heap_rep h' ts' ∧ same_payload ts h h' ∧
        xMinimumEverFreeBytesRemaining h' = Z.min (min_ever h ts) (free_sum ts') ∧
        xNumberOfSuccessfulAllocations h' = wrap32 (xNumberOfSuccessfulAllocations h + 1) ∧
        xNumberOfSuccessfulFrees h' = xNumberOfSuccessfulFrees h
    | None => p = 0 ∧ heap_rep h' ts ∧ same_payload ts h h' ∧
        xMinimumEverFreeBytesRemaining h' = min_ever h ts ∧
        xNumberOfSuccessfulAllocations h' = xNumberOfSuccessfulAllocations h ∧
        xNumberOfSuccessfulFrees h' = xNumberOfSuccessfulFrees h
    end) h.
Proof.
  intros Hinv Hw Hmax. apply wp_bind, wp_getM, wp_bind. eapply wp_mono; [by apply wp_ensure_init|].
  intros _ h1 (Hrep & Hpay & Hmin & Hal & Hfr). pose proof heap_bounds as (? & ? & _ & ? & _ & ?). pose proof heap_start_end.
  pose proof Hrep as [He (Hc1 & Hc2 & Hc3) [Hm1 Hm2] Hok Hsum Hc Hfree _].
  pose proof (free_sum_bounds _ Hok) as Hfb.
  destruct (heapBLOCK_SIZE_IS_VALID w) eqn:Hv.
  2:{ assert (first_fit w ts = None) as Hnone.
      { destruct (first_fit w ts) as [[o ts']|] eqn:Hf; [|done]. apply first_fit_free_sum in Hf; [|done].
        rewrite size_valid in Hv; [done|]. unfold BIT31, configTOTAL_HEAP_SIZE in *. lia. }
      rewrite Hnone. apply wp_ret. by destruct (0 <? w). }
  apply wp_bind, wp_getM. destruct (Z.ltb_spec 0 w); [|by apply wp_ret].
  rewrite Hfree. destruct (Z.leb_spec w (free_sum ts)) as [Hle|Hgt]; simpl.
  2:{ destruct (first_fit w ts) as [[o ts']|] eqn:Hf; [|by apply wp_ret].
      apply first_fit_free_sum in Hf; [lia|done]. }
  assert (16 ≤ w ∧ w mod 8 = 0) as [Hw1 Hw2] by lia.
  apply wp_bind, wp_get_link; [by left|]. rewrite Hc1.
  assert (heap_start ≤ first_free heap_end heap_start ts ≤ heap_end) as Hfirst.
  { destruct (first_free_range heap_end heap_start ts Hok) as [[-> _]|(? & ? & _)]; lia. }
  apply wp_bind, wp_validate; [lia|]. apply wp_bind. eapply wp_mono.
  { apply (wp_search w ts); [exact Hok|lia|exact Hsum|exact Hc3|exact Hm1|exact Hm2|lia|].
    apply list_fuel_enough. pose proof (tsum_length _ Hok). unfold configTOTAL_HEAP_SIZE in *. lia. }
  intros [p b] h2 [-> Hres]. rewrite He.
  destruct Hres as [(ts1 & s & ts2 & -> & Hu & Hws & Hpb)|[Hu Hb]].
  - injection Hpb as -> ->. rewrite first_fit_some by done.
    apply Forall_app in Hok as [Hok1 Hok2]. apply Forall_cons in Hok2 as [[Hs _] Hok2]. simpl in Hs.
    rewrite tsum_app in Hsum. simpl in Hsum. pose proof (tsum_nonneg _ Hok2).
    destruct (Z.eqb_spec (heap_start + tsum ts1) heap_end); [lia|]. simpl.
    eapply wp_mono; [by apply (wp_take_block w ts1 s ts2)|].
    intros p' h' (-> & Hrep' & Hpay' & Hmin' & Hal' & Hfr'). split_and!; [done..| | | |].
    + intros x Hx. by rewrite Hpay', Hpay.
    + rewrite Hmin', Hmin. by rewrite (hr_free _ _ Hrep').
    + by rewrite Hal', Hal.
    + by rewrite Hfr', Hfr.
  - simpl in Hb. subst b. rewrite Z.eqb_refl. simpl. rewrite first_fit_none by done. by apply wp_ret.
Qed.

(** ** Freeing *)

Lemma wp_insert_walk b e ts : ∀ fuel it a h,
  Forall tile_ok ts → heap_start ≤ a → a + tsum ts = b → b ≤ heap_end → b ≤ e → node it →
  word (h_mem h) it = first_free e a ts → tiles_rep (h_mem h) e a ts → (length ts < fuel)%nat →
  wp (iterM fuel (insert_one b) it) (λ r h', h' = h ∧ r = last_free it a ts) h.
Proof.
  induction ts as [|[s u] ts IH]; intros fuel it a h Hok Ha Hsum Hb He Hit Hw Hrep Hf; simpl in Hf.
  - destruct fuel as [|fuel]; [lia|]. simpl in *. apply wp_bind, wp_bind, wp_get_link; [done|].
    rewrite Hw. apply wp_ret. destruct (Z.ltb_spec e b); [lia|]. by apply wp_ret.
  - apply Forall_cons in Hok as [[Hs _] Hok]. simpl in Hs, Hsum. pose proof (tsum_nonneg _ Hok).
    destruct Hrep as (Hn & _ & Hrep). destruct u; simpl in *.
    { apply IH; (done || lia). }
    destruct fuel as [|fuel]; [lia|]. simpl. apply wp_bind, wp_bind, wp_get_link; [done|].
    rewrite Hw. apply wp_ret. destruct (Z.ltb_spec a b); [|lia].
    apply IH; (done || lia || idtac). right. lia.
Qed.

(** Joining the block [c], in front of the row [ts2], with the first block of
    that row: [it] links to the row's first free block. *)
Lemma wp_merge_next it pre e s ts2 h :
  around (h_mem h) pre e s ts2 → pxEnd h = heap_end → 16 ≤ s → node it →
  let c := heap_start + tsum pre in
  word (h_mem h) it = first_free heap_end (c + s) ts2 → word (h_mem h) (c + 4) = s →
  wp (merge_next it c) (λ _ h', ∃ s' ts3 m', cons_free s ts2 = (s', false) :: ts3 ∧
    h' = h <| h_mem := m' |> ∧ around m' pre e s' ts3 ∧ s ≤ s' ∧
    word m' c = first_free heap_end (c + s') ts3 ∧ word m' (c + 4) = s' ∧
    ∀ x, x < c ∨ c + 8 ≤ x → peek m' x = peek (h_mem h) x) h.
Proof.
  intros Har He Hs Hit c Hw Hsz. pose proof Har as [Hch Hok1 Hok2 Hsum Hrest Hm].
  pose proof (tsum_nonneg _ Hok1). pose proof (tsum_nonneg _ Hok2). pose proof heap_bounds as (? & ? & _ & ? & _ & ?).
  assert (node c) as Hnc by (unfold node; subst c; lia). fold c in Hsum, Hrest.
  unfold merge_next. apply wp_bind, wp_get_size; [done|]. rewrite Hsz. apply wp_bind, wp_get_link; [done|]. rewrite Hw.
  rewrite (wrap32_small (c + s)) by (unfold u32; lia).
  assert (∀ n, n = first_free heap_end (c + s) ts2 → cons_free s ts2 = (s, false) :: ts2 →
    wp (set_pxNextFreeBlock c n) (λ _ h', ∃ s' ts3 m', cons_free s ts2 = (s', false) :: ts3 ∧
    h' = h <| h_mem := m' |> ∧ around m' pre e s' ts3 ∧ s ≤ s' ∧
    word m' c = first_free heap_end (c + s') ts3 ∧ word m' (c + 4) = s' ∧
    ∀ x, x < c ∨ c + 8 ≤ x → peek m' x = peek (h_mem h) x) h) as Hplain.
  { intros n -> Hcf. apply wp_set_link; [done|]. eexists s, ts2, _. split; [done|]. split; [by destruct h|].
    simpl. split_and!; [apply around_write; [done|subst c; lia..]|lia| | |].
    - apply word_put_same. unfold u32. destruct (first_free_range heap_end (c + s) ts2 Hok2) as [[-> _]|(? & ? & _)]; lia.
    - by rewrite word_put_ne by lia.
    - intros x Hx. by rewrite peek_put_word_ne by lia. }
  destruct ts2 as [|[s2 u2] ts3]; simpl in Hw |- *.
  - simpl in Hsum. destruct (Z.eqb_spec (c + s) heap_end); [|lia]. apply wp_bind, wp_getM. rewrite He, Z.eqb_refl.
    simpl. by apply Hplain.
  - apply Forall_cons in Hok2 as [[Hs2 Hs2'] Hok3]. simpl in Hs2, Hs2', Hsum. pose proof (tsum_nonneg _ Hok3).
    destruct Hrest as (Hn2 & Hsz2 & Hrest). destruct u2.
    + destruct (Z.eqb_spec (c + s) (first_free heap_end (c + s + s2) ts3)) as [Heq|Hne].
      { destruct (first_free_range heap_end (c + s + s2) ts3 Hok3) as [[Hf _]|(? & ? & _)]; lia. }
      by apply Hplain.
    + rewrite Z.eqb_refl. apply wp_bind, wp_getM. rewrite He.
      destruct (Z.eqb_spec (c + s) heap_end); [lia|]. simpl. assert (node (c + s)) by (unfold node; lia).
      apply wp_bind, wp_get_size; [done|]. rewrite Hsz2, (wrap32_small (s + s2)) by (unfold u32; lia).
      apply wp_bind, wp_set_size; [done|]. apply wp_bind, wp_get_link; [done|]. simpl. rewrite word_put_ne by lia. rewrite Hn2.
      apply wp_set_link; [done|]. eexists (s + s2), ts3, _. split; [done|]. split; [by destruct h|]. simpl.
      split_and!; [|lia| | |].
      * do 2 (apply around_write; [|subst c; lia..]). constructor; (done || lia || idtac).
        fold c. replace (c + (s + s2)) with (c + s + s2) by lia. done.
      * replace (c + (s + s2)) with (c + s + s2) by lia. apply word_put_same. unfold u32.
        destruct (first_free_range heap_end (c + s + s2) ts3 Hok3) as [[-> _]|(? & ? & _)]; lia.
      * rewrite word_put_ne by lia. apply word_put_same. unfold u32; lia.
      * intros x Hx. by rewrite !peek_put_word_ne by lia.
Qed.

(** The rows before and after a released block make up a good heap again. *)
Lemma around_heap_rep h ts1 s ts2 :
  around (h_mem h) ts1 (heap_start + tsum ts1) s ts2 → pxEnd h = heap_end →
  word (h_mem h) (heap_start + tsum ts1) = first_free heap_end (heap_start + tsum ts1 + s) ts2 →
  word (h_mem h) (heap_start + tsum ts1 + 4) = s →
  Forall tile_ok (ts1 ++ (s, false) :: ts2) → compact (ts1 ++ (s, false) :: ts2) →
  xFreeBytesRemaining h = free_sum (ts1 ++ (s, false) :: ts2) →
  0 ≤ xMinimumEverFreeBytesRemaining h ≤ xFreeBytesRemaining h → heap_rep h (ts1 ++ (s, false) :: ts2).
Proof.
  intros [(H1 & H2 & H3) Hok1 Hok2 Hsum Hrest Hm] He Hw Hsz Hok Hc Hf Hmin. constructor; (done || lia || idtac).
  - split_and!; [|done|].
    + rewrite first_free_app. exact H1.
    + apply tiles_rep_app. by split.
  - rewrite tsum_app. simpl. lia.
Qed.

(** The memory after [prvInsertBlockIntoFreeList], whatever the counters *)
Lemma wp_insert_block h ts1 s ts2 :
  around (h_mem h) ts1 (first_free heap_end (heap_start + tsum ts1 + s) ts2) s ts2 → pxEnd h = heap_end →
  word (h_mem h) (heap_start + tsum ts1 + 4) = s → tile_ok (s, true) → compact ts1 → compact ts2 →
  xFreeBytesRemaining h = free_sum ts1 + s + free_sum ts2 →
  0 ≤ xMinimumEverFreeBytesRemaining h ≤ xFreeBytesRemaining h →
  wp (prvInsertBlockIntoFreeList (heap_start + tsum ts1)) (λ _ h', ∃ m',
    h' = h <| h_mem := m' |> ∧ heap_rep h' (join ts1 (cons_free s ts2)) ∧
    0 ≤ word m' (heap_start + tsum ts1 + 4) < BIT31 ∧
    let p := last_free xStart heap_start ts1 in
    ∀ x, (x < heap_start + tsum ts1 ∨ heap_start + tsum ts1 + 8 ≤ x) → (x < p ∨ p + 8 ≤ x) →
      peek m' x = peek (h_mem h) x) h.
Proof.
  intros Har He Hsz [Hs Hs'] Hc1 Hc2 Hfree Hmin. simpl in Hs, Hs'. pose proof Har as [Hch Hok1 Hok2 Hsum Hrest Hm].
  pose proof (tsum_nonneg _ Hok1). pose proof (tsum_nonneg _ Hok2). pose proof heap_bounds as (? & ? & _ & ? & _ & ?).
  assert (heap_end < BIT31 + heap_start) as Hbit by (unfold BIT31, configTOTAL_HEAP_SIZE in *; lia).
  set (b := heap_start + tsum ts1) in *. set (p := last_free xStart heap_start ts1) in *.
  set (e := first_free heap_end (b + s) ts2) in *. set (m := h_mem h) in *.
  assert (b ≤ e) as Hbe by (destruct (first_free_range heap_end (b + s) ts2 Hok2) as [[Hf _]|(? & ? & _)]; subst e; lia).
  pose proof (chain_apart ts1 Hok1 ltac:(lia)) as Hp. fold p b in Hp. simpl in Hp.
  assert (node p) as Hnp by (apply chain_node; [done|lia]). assert (node b) as Hnb by (unfold node; lia).
  pose proof Hch as (Hw1 & Hw2 & Hrep1). pose proof xStart_apart. pose proof xStart_range. unfold sizeof_BlockLink_t in *.
  assert (Forall tile_ok (join ts1 (cons_free s ts2)) ∧ compact (join ts1 (cons_free s ts2)) ∧
    free_sum (join ts1 (cons_free s ts2)) = free_sum ts1 + s + free_sum ts2) as (Hok' & Hc' & Hf').
  { split_and!; [apply join_ok; [done|by apply cons_free_ok]|apply join_compact; [done|by apply compact_cons_free]|].
    rewrite free_sum_join, free_sum_cons_free. lia. }
  unfold prvInsertBlockIntoFreeList. apply wp_bind. eapply wp_mono.
  { apply (wp_insert_walk b e ts1 _ xStart heap_start); [done|lia|done|lia|done|by left|done..|].
    apply list_fuel_enough. pose proof (tsum_length _ Hok1). unfold configTOTAL_HEAP_SIZE in *. lia. }
  intros it h0 [-> ->]. fold p. apply wp_bind.
  apply (wp_mono _ (λ _ h', h' = h)).
  { destruct (Z.eqb_spec p xStart); simpl; [by apply wp_ret|]. apply wp_validate; [|done].
    destruct Hnp; [done|]. unfold node in *. lia. }
  intros _ h0 ->. apply wp_bind. unfold merge_previous. apply wp_bind, wp_get_size; [done|]. fold m.
  assert (word m p = e) as Hpn by exact (chain_next _ _ _ Hch).
  (* nothing to join in front: the block keeps its address *)
  assert (join ts1 (cons_free s ts2) = ts1 ++ cons_free s ts2 → wrap32 (p + word m (p + 4)) ≠ b →
    wp (let* c := (if wrap32 (p + word m (p + 4)) =? b then
        let* si := get_xBlockSize p in let* sb := get_xBlockSize b in
        set_xBlockSize p (wrap32 (si + sb)) ;> retM p else retM b) in
      merge_next p c ;> when negb (p =? c) then set_pxNextFreeBlock p c)
    (λ _ h', ∃ m', h' = h <| h_mem := m' |> ∧ heap_rep h' (join ts1 (cons_free s ts2)) ∧
      0 ≤ word m' (b + 4) < BIT31 ∧ ∀ x, (x < b ∨ b + 8 ≤ x) → (x < p ∨ p + 8 ≤ x) → peek m' x = peek m x) h) as Happart.
  { intros Hjoin Hne. apply wp_bind. destruct (Z.eqb_spec (wrap32 (p + word m (p + 4))) b); [done|]. apply wp_ret.
    apply wp_bind. eapply wp_mono; [by apply (wp_merge_next p ts1 e s ts2 h)|].
    intros _ h1 (s' & ts3 & m1 & Hcf & -> & Har1 & Hss & Hn1 & Hs1 & Hpk). fold b in Hn1, Hs1, Hpk.
    destruct (Z.eqb_spec p b); [lia|]. simpl. apply wp_set_link; [done|].
    eexists. split; [by destruct h|]. simpl. rewrite Hjoin, Hcf in Hok', Hc', Hf' |- *. split_and!.
    - apply around_heap_rep; simpl; fold b; try done.
      + eapply around_link; [exact Har1|lia|unfold u32; lia].
      + rewrite word_put_ne by lia. done.
      + rewrite word_put_ne by lia. done.
      + lia.
    - rewrite word_put_ne by lia. lia.
    - rewrite word_put_ne by lia. pose proof Har1 as [_ _ Hok3 Hsum3 _ _]. pose proof (tsum_nonneg _ Hok3). lia.
    - intros x Hx1 Hx2. rewrite peek_put_word_ne by lia. apply Hpk. lia. }
  destruct (snoc_cases ts1) as [Hts|[(ts0 & s0 & Hts)|(ts0 & s0 & Hts)]].
  - assert (p = xStart) as Hpx by (subst p; by rewrite Hts).
    apply wp_bind_inv. eapply wp_mono; [apply Happart|intros ? ? Hx; exact Hx].
    + by rewrite Hts.
    + rewrite Hpx, Hw2. rewrite wrap32_small by (unfold u32; lia). lia.
  - apply wp_bind_inv. eapply wp_mono; [apply Happart|intros ? ? Hx; exact Hx].
    + by rewrite Hts, join_used, <- app_assoc.
    + subst ts1. apply Forall_app in Hok1 as [Hok0 [[Ht _] _]%Forall_cons]. simpl in Ht.
      apply tiles_rep_app in Hrep1 as [Hrep0 _]. subst p b. rewrite tsum_app in *. simpl in *.
      rewrite last_free_app in *. simpl in *.
      destruct (last_free_size _ _ xStart _ _ Hok0 Hrep0) as [Hpx|Hpx].
      * rewrite Hpx, Hw2 in *. rewrite wrap32_small by (unfold u32; lia). lia.
      * rewrite wrap32_small by (unfold u32; lia). lia.
  - clear Happart. subst ts1. pose proof Hok1 as Hok1'. apply Forall_app in Hok1 as [Hok0 [[Ht _] _]%Forall_cons]. simpl in Ht.
    pose proof (tsum_nonneg _ Hok0). apply compact_app in Hc1 as [Hc0 _].
    assert (p = heap_start + tsum ts0) as Hp0 by (subst p; by rewrite last_free_app).
    pose proof Hrep1 as [Hrep0 (_ & Hs0 & _)]%tiles_rep_app. rewrite first_free_app in Hw1. simpl in Hrep0, Hw1.
    rewrite <- Hp0 in Hrep0, Hs0, Hw1. assert (b = p + s0) as Hb by (subst b p; rewrite tsum_app in *; simpl in *; lia).
    rewrite Hs0, (wrap32_small (p + s0)) by (unfold u32; lia). rewrite Hb, Z.eqb_refl.
    apply wp_bind, wp_get_size; [done|]. fold m. rewrite Hs0. apply wp_bind, wp_get_size; [by rewrite <- Hb|]. fold m.
    rewrite <- Hb, Hsz. rewrite (wrap32_small (s0 + s)) by (unfold u32; lia).
    apply wp_bind, wp_set_size; [done|]. apply wp_ret, wp_bind.
    eapply wp_mono.
    { rewrite Hp0 at 2. apply (wp_merge_next p ts0 p (s0 + s) ts2); simpl; fold m; rewrite <- ?Hp0; (done || lia || idtac).
      - apply around_write; [|rewrite <- ?Hp0; lia..]. constructor; rewrite <- ?Hp0; try done; [lia|].
        by replace (p + (s0 + s)) with (b + s) by lia.
      - rewrite word_put_ne by lia. rewrite Hpn. by replace (p + (s0 + s)) with (b + s) by lia.
      - apply word_put_same. unfold u32; lia. }
    intros _ h1 (s' & ts3 & m1 & Hcf & -> & Har1 & Hss & Hn1 & Hs1 & Hpk). simpl in Hpk. rewrite <- Hp0 in Hn1, Hs1, Hpk.
    rewrite Z.eqb_refl. simpl. apply wp_ret. eexists. split; [by destruct h|]. split_and!.
    + apply cons_free_add in Hcf. rewrite Hcf, join_free in Hok', Hc', Hf' |- *.
      replace (s0 + (s' - s0)) with s' in * by lia.
      apply around_heap_rep; simpl; rewrite <- ?Hp0; try done; try lia. rewrite Hfree. symmetry. exact Hf'.
    + rewrite (word_ext (put_word (p + 4) (s0 + s) m)) by (intros x ?; apply Hpk; lia).
      rewrite word_put_ne by lia. lia.
    + rewrite (word_ext (put_word (p + 4) (s0 + s) m)) by (intros x ?; apply Hpk; lia).
      rewrite word_put_ne by lia. lia.
    + intros x Hx1 Hx2. rewrite Hpk by lia. apply peek_put_word_ne. lia.
Qed.

Lemma wp_free_locked h ts1 s ts2 :
  around (h_mem h) ts1 (first_free heap_end (heap_start + tsum ts1 + s) ts2) s ts2 → pxEnd h = heap_end →
  word (h_mem h) (heap_start + tsum ts1 + 4) = s → tile_ok (s, true) → compact ts1 → compact ts2 →
  xFreeBytesRemaining h = free_sum ts1 + free_sum ts2 →
  0 ≤ xMinimumEverFreeBytesRemaining h ≤ xFreeBytesRemaining h →
  wp (free_locked (heap_start + tsum ts1)) (λ _ h', heap_rep h' (join ts1 (cons_free s ts2)) ∧
    xMinimumEverFreeBytesRemaining h' = xMinimumEverFreeBytesRemaining h ∧
    xNumberOfSuccessfulAllocations h' = xNumberOfSuccessfulAllocations h ∧
    xNumberOfSuccessfulFrees h' = wrap32 (xNumberOfSuccessfulFrees h + 1) ∧
    0 ≤ word (h_mem h') (heap_start + tsum ts1 + 4) < BIT31 ∧
    let p := last_free xStart heap_start ts1 in
    ∀ x, (x < heap_start + tsum ts1 ∨ heap_start + tsum ts1 + 8 ≤ x) → (x < p ∨ p + 8 ≤ x) →
      peek (h_mem h') x = peek (h_mem h) x) h.
Proof.
  intros Har He Hsz Hs Hc1 Hc2 Hfree Hmin. pose proof Har as [_ Hok1 Hok2 Hsum _ _]. pose proof Hs as [Hs1 _]. simpl in Hs1.
  pose proof (tsum_nonneg _ Hok1). pose proof (tsum_nonneg _ Hok2). pose proof heap_bounds as (? & ? & _ & ? & _ & ?).
  pose proof (free_sum_bounds _ Hok1). pose proof (free_sum_bounds _ Hok2).
  unfold free_locked. apply wp_bind, wp_get_size; [unfold node; lia|]. rewrite Hsz. apply wp_bind, wp_modify, wp_bind.
  assert (wrap32 (xFreeBytesRemaining h + s) = free_sum ts1 + s + free_sum ts2) as Hf1.
  { rewrite Hfree, wrap32_small by (unfold u32; lia). lia. }
  eapply wp_mono.
  { apply (wp_insert_block (h <| xFreeBytesRemaining ::= λ n, wrap32 (n + s) |>) ts1 s ts2); simpl; (done || lia). }
  intros _ h1 (m' & -> & Hrep & [Hbit1 Hbit2] & Hpk). apply wp_modify. simpl in *. split_and!; try done.
  destruct Hrep as [? ? ? ? ? ? ? ?]. by constructor.
Qed.

(** The checks of [vPortFree] on a block that is allocated *)
Lemma wp_free_checks h ts1 s ts2 : heap_rep h (ts1 ++ (s, true) :: ts2) →
  wp (free_checks (heap_start + tsum ts1)) (λ r h', r = true ∧
    h' = h <| h_mem ::= put_word (heap_start + tsum ts1 + 4) s |>) h.
Proof.
  intros Hrep. destruct (around_rep _ _ _ _ _ Hrep) as (Har & Hn & Hsz & [Hs1 Hs2] & _ & _). simpl in Hs1, Hs2.
  pose proof Har as [_ Hok1 Hok2 Hsum _ _]. pose proof (tsum_nonneg _ Hok1). pose proof (tsum_nonneg _ Hok2).
  pose proof heap_bounds as (? & ? & _ & ? & _ & ?).
  assert (0 ≤ s < BIT31) by (unfold BIT31, configTOTAL_HEAP_SIZE in *; lia).
  assert (node (heap_start + tsum ts1)) by (unfold node; lia).
  unfold free_checks. apply wp_bind, wp_validate; [lia|]. apply wp_bind, wp_bind, wp_get_size; [done|].
  rewrite Hsz, land_bit31 by done. apply wp_ret, wp_bind, wp_assert; [done|]. apply wp_bind, wp_get_link; [done|].
  rewrite Hn. apply wp_bind, wp_assert; [done|]. simpl. apply wp_bind, wp_bind, wp_get_size; [done|].
  rewrite Hsz, land_not_bit31 by done. apply wp_set_size; [done|]. by apply wp_ret.
Qed.
(** They stop on a block that is free or has been. *)
Lemma free_checks_assert h a : node a → 0 ≤ word (h_mem h) (a + 4) < BIT31 → free_checks a h = RAssert.
Proof.
  intros Hn Hw. destruct (node_valid _ Hn) as [_ Hv].
  unfold free_checks, heapVALIDATE_BLOCK_POINTER, heapBLOCK_IS_ALLOCATED, get_xBlockSize, configASSERT, bindM, load32.
  destruct (_ && _); [|done]. rewrite Hv. simpl. by rewrite land_bit31_small.
Qed.
End heap4.
