(* ===== verification/Heap4Calls.v ===== *)
(** * The functions of the allocator

    Allocation and deallocation as row operations, under any scheduler lock that
    meets its specification; and the allocator as its clients see it, a map of
    independent buffers. *)
From S2P Require Import Prelude SchedLock Heap4 Heap4Spec Heap4Rep Heap4Ops.

(** ** The blocks of a row that are allocated: pointer and size *)
Fixpoint owns (a : Z) (ts : list tile) (p s : Z) : Prop :=
  match ts with
  | [] => False
  | (s0, u) :: ts => (u = true ∧ p = a + 8 ∧ s = s0) ∨ owns (a + s0) ts p s
  end.

Lemma owns_app a ts1 ts2 p s : owns a (ts1 ++ ts2) p s ↔ owns a ts1 p s ∨ owns (a + tsum ts1) ts2 p s.
Proof.
  revert a. induction ts1 as [|[s0 u] ts1 IH]; intros a; simpl; [rewrite Z.add_0_r; tauto|].
  rewrite IH. replace (a + s0 + tsum ts1) with (a + (s0 + tsum ts1)) by lia. tauto.
Qed.
Lemma owns_cons_free a s0 ts p s : owns a (cons_free s0 ts) p s ↔ owns (a + s0) ts p s.
Proof.
  assert (∀ b : bool, (b = true → False) → (b = true ∧ p = a + 8 ∧ s = s0) → False) by naive_solver.
  destruct ts as [|[s1 []] ts]; simpl; [naive_solver|naive_solver|].
  replace (a + (s0 + s1)) with (a + s0 + s1) by lia. naive_solver.
Qed.
Lemma owns_join a ts1 r p s : owns a (join ts1 r) p s ↔ owns a ts1 p s ∨ owns (a + tsum ts1) r p s.
Proof.
  revert a. induction ts1 as [|[s0 u] ts1 IH]; intros a; simpl; [rewrite Z.add_0_r; tauto|].
  destruct ts1 as [|t1 ts1]; simpl in *.
  - rewrite Z.add_0_r. destruct u; simpl; [tauto|]. rewrite owns_cons_free. naive_solver.
  - rewrite IH. replace (a + s0 + (t1.1 + tsum ts1)) with (a + (s0 + (t1.1 + tsum ts1))) by lia. tauto.
Qed.
Lemma owns_range a ts p s : Forall tile_ok ts → owns a ts p s →
  a + 8 ≤ p ∧ p - 8 + s ≤ a + tsum ts ∧ tile_ok (s, true) ∧ (p - a) mod 8 = 0.
Proof.
  intros Hok. revert a. induction Hok as [|[s0 u] ts [Hs Hm] Hok IH]; intros a; simpl in *; [done|].
  pose proof (tsum_nonneg _ Hok). intros [(_ & -> & ->)|Ho%IH].
  - split_and!; [lia|lia|done|]. by replace (a + 8 - a) with 8 by lia.
  - destruct Ho as (? & ? & Ht & Ha). split_and!; [lia|lia|done|].
    replace (p - a) with (p - (a + s0) + s0) by lia. rewrite Z.add_mod, Ha, Hm; done.
Qed.
(** Different allocated blocks do not overlap. *)
Lemma owns_disjoint a ts p s q t : Forall tile_ok ts → owns a ts p s → owns a ts q t →
  p = q ∧ s = t ∨ p - 8 + s ≤ q - 8 ∨ q - 8 + t ≤ p - 8.
Proof.
  intros Hok. revert a. induction Hok as [|[s0 u] ts [Hs Hm] Hok IH]; intros a; simpl in *; [done|].
  intros [(_ & -> & ->)|Hp] [(_ & -> & ->)|Hq].
  - by left.
  - pose proof (owns_range _ _ _ _ Hok Hq). right. lia.
  - pose proof (owns_range _ _ _ _ Hok Hp). right. lia.
  - by eapply IH.
Qed.
Lemma payload_owns a ts x : payload_byte a ts x ↔ ∃ p s, owns a ts p s ∧ p ≤ x < p - 8 + s.
Proof.
  revert a. induction ts as [|[s0 u] ts IH]; intros a; simpl; [naive_solver|]. rewrite IH. split.
  - intros [[-> Hx]|(p & s & Ho & Hx)]; [|by eauto]. exists (a + 8), s0. split; [by left|lia].
  - intros (p & s & [(-> & -> & ->)|Ho] & Hx); [|by eauto]. left. split; [done|lia].
Qed.
Lemma owns_split a ts p s : owns a ts p s → ∃ ts1 ts2, ts = ts1 ++ (s, true) :: ts2 ∧ p = a + tsum ts1 + 8.
Proof.
  revert a. induction ts as [|[s0 u] ts IH]; intros a; simpl; [done|]. intros [(-> & -> & ->)|Ho].
  - exists [], ts. split; [done|]. simpl. lia.
  - destruct (IH _ Ho) as (ts1 & ts2 & -> & ->). exists ((s0, u) :: ts1), ts2. split; [done|]. simpl. lia.
Qed.
Lemma first_fit_owns w a ts o ts' : first_fit w ts = Some (o, ts') →
  ∃ n, w ≤ n ∧ ∀ p s, owns a ts' p s ↔ owns a ts p s ∨ (p = a + o + 8 ∧ s = n).
Proof.
  intros Hf. destruct (first_fit_inv _ _ _ _ Hf) as (ts1 & s0 & ts2 & -> & _ & Hw & -> & ->). unfold split_tile.
  destruct (Z.ltb_spec 16 (s0 - w)); [exists w|exists s0]; (split; [lia|]); intros p s; rewrite !owns_app; simpl.
  - replace (a + tsum ts1 + (w + (s0 - w + 0))) with (a + tsum ts1 + s0) by lia. naive_solver.
  - rewrite Z.add_0_r. naive_solver.
Qed.
Lemma release_owns a ts1 s ts2 p n : Forall tile_ok (ts1 ++ (s, true) :: ts2) →
  owns a (join ts1 (cons_free s ts2)) p n ↔ owns a (ts1 ++ (s, true) :: ts2) p n ∧ p ≠ a + tsum ts1 + 8.
Proof.
  intros [Hok1 [[Hs _] Hok2]%Forall_cons]%Forall_app. simpl in Hs. rewrite owns_join, owns_cons_free, owns_app. simpl. split.
  - intros [Ho|Ho]; (split; [tauto|]).
    + pose proof (owns_range _ _ _ _ Hok1 Ho) as (? & ? & [? _] & _). simpl in *. lia.
    + pose proof (owns_range _ _ _ _ Hok2 Ho). lia.
  - naive_solver.
Qed.

(** ** The size of the block for a request *)
Definition block_size (n : Z) : Z := (n + 15) / 8 * 8.
Lemma block_size_bounds n : n + 8 ≤ block_size n < n + 16 ∧ block_size n mod 8 = 0.
Proof.
  unfold block_size. rewrite Z.mod_mul by lia. pose proof (Z.div_mod (n + 15) 8 ltac:(lia)).
  pose proof (Z.mod_pos_bound (n + 15) 8 ltac:(lia)). lia.
Qed.
Lemma block_size_min n : 0 < n → 16 ≤ block_size n.
Proof. pose proof (block_size_bounds n). intros ?. Z.to_euclidean_division_equations. lia. Qed.
Lemma malloc_size_eq n : u32 n →
  malloc_size n = if (0 <? n) && (block_size n <? MAX32) then block_size n else 0.
Proof.
  unfold u32. intros Hn. pose proof (block_size_bounds n) as [Hb Hm]. unfold malloc_size.
  destruct (Z.ltb_spec 0 n); simpl; [|lia]. unfold heapADD_WILL_OVERFLOW.
  change heapSIZE_MAX with 4294967295. change xHeapStructSize with 8. change portBYTE_ALIGNMENT with 8.
  change (wrap32 (4294967295 - 8)) with 4294967287. unfold MAX32 in *.
  destruct (Z.ltb_spec 4294967287 n); simpl.
  { destruct (Z.ltb_spec (block_size n) 4294967296); [lia|done]. }
  rewrite (wrap32_small (n + 8)) by (unfold u32, MAX32; lia). rewrite land_mask.
  pose proof (Z.div_mod (n + 8) 8 ltac:(lia)). pose proof (Z.mod_pos_bound (n + 8) 8 ltac:(lia)).
  assert (block_size n = if (n + 8) mod 8 =? 0 then n + 8 else n + 8 + (8 - (n + 8) mod 8)) as Hbs.
  { unfold block_size in *. destruct (Z.eqb_spec ((n + 8) mod 8) 0); Z.to_euclidean_division_equations; lia. }
  destruct (Z.eqb_spec ((n + 8) mod 8) 0); simpl.
  { destruct (Z.ltb_spec (block_size n) 4294967296); lia. }
  rewrite (wrap32_small (4294967295 - _)) by (unfold u32, MAX32; lia).
  destruct (Z.ltb_spec (4294967295 - (8 - (n + 8) mod 8)) (n + 8)); simpl.
  - destruct (Z.ltb_spec (block_size n) 4294967296); lia.
  - destruct (Z.ltb_spec (block_size n) 4294967296); [|lia]. rewrite wrap32_small by (unfold u32, MAX32; lia). lia.
Qed.

Section heap4.
Context `{HLok : HeapLayoutOk} {S : Type} `{HS : SchedulerLockSpec S}.
Implicit Types (g : guarded S heap).

(** Numbers of bytes of the payload of the allocated blocks *)
Lemma same_payload_owns ts h h' p s : same_payload ts h h' → owns heap_start ts p s →
  ∀ i, 0 ≤ i < s - 8 → peek (h_mem h') (p + i) = peek (h_mem h) (p + i).
Proof. intros Hp Ho i Hi. apply Hp, payload_owns. exists p, s. split; [done|lia]. Qed.

(** ** Allocation *)
Lemma wp_pvPortMalloc n g ts o ts' :
  unlocked (g_sched g) → heap_inv (g_data g) ts → 0 < n < MAX32 →
  first_fit (block_size n) ts = Some (o, ts') →
  wp (pvPortMalloc n) (λ p g', p = heap_start + o + 8 ∧ unlocked (g_sched g') ∧ heap_rep (g_data g') ts' ∧
    same_payload ts (g_data g) (g_data g') ∧
    xMinimumEverFreeBytesRemaining (g_data g') = Z.min (min_ever (g_data g) ts) (free_sum ts') ∧
    xNumberOfSuccessfulAllocations (g_data g') = wrap32 (xNumberOfSuccessfulAllocations (g_data g) + 1) ∧
    xNumberOfSuccessfulFrees (g_data g') = xNumberOfSuccessfulFrees (g_data g)) g.
Proof.
  intros Hu Hinv Hn Hf. pose proof (block_size_bounds n) as [Hb1 Hb2]. pose proof (block_size_min n) as Hb3.
  pose proof heap_bounds as (? & ? & Hal & ? & _ & ?). pose proof heap_start_end.
  assert (Forall tile_ok ts ∧ heap_start + tsum ts = heap_end) as [Hok Hsum].
  { destruct Hinv as [[_ ->]|Hrep]; [split; apply init_tiles_ok|split; apply Hrep]. }
  assert (block_size n < MAX32) as Hlt.
  { pose proof (first_fit_free_sum _ _ _ _ Hok Hf). pose proof (free_sum_bounds _ Hok). lia. }
  assert (malloc_size n = block_size n) as Hms.
  { rewrite malloc_size_eq by (unfold u32; lia). destruct (Z.ltb_spec 0 n), (Z.ltb_spec (block_size n) MAX32); (done || lia). }
  unfold pvPortMalloc. rewrite Hms. apply wp_bind. eapply wp_mono.
  { apply wp_with_lock; [exact Hu|]. apply (wp_malloc_locked (block_size n) _ ts); [done|right; split; [lia|done]|done]. }
  simpl. destruct (Z.ltb_spec 0 (block_size n)); [|lia]. rewrite Hf. intros p g' (Hu' & -> & Hrep & Hpay & Hmin & Hcnt & Hcnt').
  destruct (first_fit_inv _ _ _ _ Hf) as (ts1 & s & ts2 & -> & _ & Hws & -> & _).
  apply Forall_app in Hok as [Hok1 _]. pose proof (tsum_nonneg _ Hok1). pose proof (tsum_aligned _ Hok1) as Ht.
  destruct (Z.eqb_spec (heap_start + tsum ts1 + 8) 0); [lia|]. apply wp_bind, wp_ret, wp_bind, wp_assert.
  { rewrite land_mask. apply Z.eqb_eq. rewrite Z.add_mod, (Z.add_mod heap_start), Hal, Ht by lia. done. }
  apply wp_ret. by split_and!.
Qed.

Lemma pvPortMalloc_halts n g ts :
  unlocked (g_sched g) → heap_inv (g_data g) ts → 0 ≤ n < MAX32 →
  n = 0 ∨ first_fit (block_size n) ts = None → pvPortMalloc n g = RHalt.
Proof.
  intros Hu Hinv Hn Hf. pose proof (block_size_bounds n) as [Hb1 Hb2]. pose proof (block_size_min n) as Hb3.
  assert (wp (with_lock (malloc_locked (malloc_size n))) (λ p _, p = 0) g) as Hw.
  { eapply wp_mono; [apply wp_with_lock; [exact Hu|]; apply (wp_malloc_locked _ _ ts); [done|..]|].
    - rewrite malloc_size_eq by (unfold u32; lia). destruct (_ && _) eqn:Hc; [|by left]. right.
      apply andb_true_iff in Hc as [?%Z.ltb_lt _]. split; [lia|done].
    - rewrite malloc_size_eq by (unfold u32; lia). destruct (_ && _) eqn:Hc; [|unfold MAX32; lia].
      by apply andb_true_iff in Hc as [_ ?%Z.ltb_lt].
    - rewrite malloc_size_eq by (unfold u32; lia). destruct (_ && _) eqn:Hc.
      + apply andb_true_iff in Hc as [?%Z.ltb_lt _]. destruct Hf as [->|Hf]; [lia|]. rewrite Hf.
        destruct (0 <? block_size n); by intros p g' (_ & ? & _).
      + simpl. by intros p g' (_ & ? & _). }
  unfold pvPortMalloc, bindM. unfold wp in Hw. destruct (with_lock _ g) as [[p g']| | | |]; [|done..].
  by subst p.
Qed.

(** ** Deallocation *)
Lemma wp_vPortFree g ts1 s ts2 :
  unlocked (g_sched g) → heap_rep (g_data g) (ts1 ++ (s, true) :: ts2) →
  wp (vPortFree (heap_start + tsum ts1 + 8)) (λ _ g', unlocked (g_sched g') ∧
    heap_rep (g_data g') (join ts1 (cons_free s ts2)) ∧
    same_payload (join ts1 (cons_free s ts2)) (g_data g) (g_data g') ∧
    xMinimumEverFreeBytesRemaining (g_data g') = xMinimumEverFreeBytesRemaining (g_data g) ∧
    xNumberOfSuccessfulAllocations (g_data g') = xNumberOfSuccessfulAllocations (g_data g) ∧
    xNumberOfSuccessfulFrees (g_data g') = wrap32 (xNumberOfSuccessfulFrees (g_data g) + 1) ∧
    0 ≤ word (h_mem (g_data g')) (heap_start + tsum ts1 + 4) < BIT31) g.
Proof.
  intros Hu Hrep. destruct (around_rep _ _ _ _ _ Hrep) as (Har & Hn & Hsz & Hs & Hc1 & Hc2).
  pose proof Hs as [Hs1 Hs2]. simpl in Har, Hs1, Hs2. pose proof Har as [_ Hok1 Hok2 Hsum _ _].
  pose proof (tsum_nonneg _ Hok1). pose proof (tsum_nonneg _ Hok2).
  pose proof heap_bounds as (? & ? & _ & ? & _ & ?). set (b := heap_start + tsum ts1) in *.
  pose proof (hr_free _ _ Hrep) as Hfree. pose proof (hr_min _ _ Hrep) as Hmin. rewrite free_sum_app in Hfree, Hmin.
  simpl in Hfree, Hmin. unfold vPortFree. destruct (Z.eqb_spec (b + 8) 0); [lia|]. simpl.
  change xHeapStructSize with 8. rewrite wrap32_small by (unfold u32; lia). replace (b + 8 - 8) with b by lia.
  apply wp_bind, wp_on_data. eapply wp_mono; [by apply (wp_free_checks _ ts1 s ts2)|]. intros r h1 [-> ->]. fold b.
  eapply wp_mono.
  { apply wp_with_lock; [exact Hu|]. simpl. apply (wp_free_locked _ ts1 s ts2); simpl; fold b; try done.
    - apply around_write; [done|subst b; lia..].
    - apply Hrep.
    - apply word_put_same. unfold u32; lia.
    - lia. }
  simpl. fold b. intros _ g' (Hu' & Hrep' & Hm & Ha & Hf & Hbit & Hpk). split_and!; try done; try lia.
  intros x Hx. rewrite payload_owns in Hx. destruct Hx as (p & k & Ho & Hx).
  apply owns_join in Ho. rewrite owns_cons_free in Ho. fold b in Ho.
  assert (payload_byte heap_start (ts1 ++ (s, true) :: ts2) x) as Hp.
  { apply payload_owns. exists p, k. split; [|lia]. apply owns_app. simpl. fold b. tauto. }
  assert (x < b ∨ b + s ≤ x) as Hout.
  { destruct Ho as [Ho|Ho]; [pose proof (owns_range _ _ _ _ Hok1 Ho)|pose proof (owns_range _ _ _ _ Hok2 Ho)]; subst b; lia. }
  destruct (payload_around ts1 s true ts2 x) as [Hx1 _]; [done..|lia|done|].
  rewrite Hpk by lia. apply peek_put_word_ne. lia.
Qed.

Lemma vPortFree_asserts g p :
  node (p - 8) → 8 < p < MAX32 → 0 ≤ word (h_mem (g_data g)) (p - 4) < BIT31 → vPortFree p g = RAssert.
Proof.
  intros Hn Hp Hw. unfold vPortFree. destruct (Z.eqb_spec p 0); [lia|]. simpl. change xHeapStructSize with 8.
  rewrite wrap32_small by (unfold u32; lia). unfold bindM, on_data, zoom.
  rewrite free_checks_assert; [done|done|]. by replace (p - 8 + 4) with (p - 4) by lia.
Qed.
End heap4.
