(* ===== verification/Heap4Client.v ===== *)
(** * The allocator as its clients see it

    Independent buffers: what a client wrote to a buffer it holds is there until
    it writes again, whatever is allocated, freed or written elsewhere. *)
From S2P Require Import Prelude SchedLock Heap4 Heap4Spec Heap4Rep Heap4Ops Heap4Calls.

(** The buffers that are out: address and contents *)
Abbreviation buffers := (gmap Z (list Z)).

Definition bytes_at (m : gmap Z Z) (p n : Z) : list Z := (λ i, peek m (p + i)) <$> seqZ 0 n.
Definition set_byte (x v : Z) (h : heap) : heap := h <| h_mem ::= <[x := v]> |>.

Lemma peek_insert m x v y : peek (<[x := v]> m) y = if decide (x = y) then v else peek m y.
Proof.
  unfold peek. destruct (decide (x = y)) as [->|]; [by rewrite lookup_insert_eq|by rewrite lookup_insert_ne].
Qed.
Lemma bytes_at_lookup m p n i b : bytes_at m p n !! i = Some b → peek m (p + Z.of_nat i) = b.
Proof.
  unfold bytes_at. rewrite list_lookup_fmap. intros (j & Hj & ->)%fmap_Some. apply lookup_seqZ in Hj as [-> ?].
  f_equal.
Qed.
Lemma bytes_at_length m p n : 0 ≤ n → Z.of_nat (length (bytes_at m p n)) = n.
Proof. intros. unfold bytes_at. rewrite length_fmap, length_seqZ. lia. Qed.

Section heap4.
Context `{HLok : HeapLayoutOk} {S : Type} `{HS : SchedulerLockSpec S}.
Implicit Types (g : guarded S heap) (live : buffers).

Inductive client_step : guarded S heap * buffers → guarded S heap * buffers → Prop :=
| step_malloc g live n p g' :
    0 < n < MAX32 → pvPortMalloc n g = ROk (p, g') →
    client_step (g, live) (g', <[p := bytes_at (h_mem (g_data g')) p n]> live)
| step_free g live p bs g' :
    live !! p = Some bs → vPortFree p g = ROk (tt, g') → client_step (g, live) (g', delete p live)
| step_write g live p bs i v :
    live !! p = Some bs → (i < length bs)%nat →
    client_step (g, live)
      (mkGuarded (g_sched g) (set_byte (p + Z.of_nat i) v (g_data g)), <[p := <[i := v]> bs]> live)
| step_elsewhere g live s :
    unlocked s → client_step (g, live) (mkGuarded s (g_data g), live).

(** The buffers are allocated blocks with these contents, and the only ones. *)
Record buffer_view (ts : list tile) (h : heap) (live : buffers) : Prop := {
  bv_block p bs : live !! p = Some bs → ∃ s, owns heap_start ts p s ∧ Z.of_nat (length bs) + 8 ≤ s ∧
    ∀ i b, bs !! i = Some b → peek (h_mem h) (p + Z.of_nat i) = b;
  bv_only p s : owns heap_start ts p s → is_Some (live !! p)
}.
Definition client_inv (gl : guarded S heap * buffers) : Prop :=
  unlocked (g_sched gl.1) ∧ ∃ ts, heap_inv (g_data gl.1) ts ∧ buffer_view ts (g_data gl.1) gl.2.

(** A write to the contents of an allocated block disturbs nothing else. *)
Lemma heap_inv_write h ts x v : heap_inv h ts → payload_byte heap_start ts x → heap_inv (set_byte x v h) ts.
Proof.
  intros [[He ->]|[He (Hc1 & Hc2 & Hc3) [Hm1 Hm2] Hok Hsum Hc Hf Hm]] Hx; [by left|right].
  pose proof (payload_byte_range _ _ _ Hok Hx). pose proof xStart_apart. pose proof heap_bounds.
  unfold sizeof_BlockLink_t in *.
  assert (∀ a, x < a ∨ a + 4 ≤ x → word (h_mem (set_byte x v h)) a = word (h_mem h) a) as Hw.
  { intros a Ha. apply word_ext. intros y Hy. simpl. rewrite peek_insert. by rewrite decide_False by lia. }
  constructor; try done.
  - split_and!; [rewrite Hw by lia; done|rewrite Hw by lia; done|].
    apply (tiles_rep_ext (h_mem h)); [|done]. intros y Hy. simpl. rewrite peek_insert.
    rewrite decide_False; [done|]. intros ->. by apply (payload_header _ _ _ Hok Hx).
  - by rewrite !Hw by lia.
Qed.

Lemma heap_inv_tiles h ts : heap_inv h ts → Forall tile_ok ts ∧ heap_start + tsum ts = heap_end.
Proof. intros [[_ ->]|Hrep]; [split; apply init_tiles_ok|split; apply Hrep]. Qed.
Lemma heap_inv_owned h ts p s : heap_inv h ts → owns heap_start ts p s → heap_rep h ts.
Proof.
  intros [[_ ->]|Hrep]; [|done]. simpl. intros [[? _]|[]]. done.
Qed.

Lemma buffer_view_same ts h h' live : buffer_view ts h live → same_payload ts h h' → buffer_view ts h' live.
Proof.
  intros [Hb Ho] Hp. constructor; [|done]. intros p bs Hl. destruct (Hb p bs Hl) as (s & Hs & Hlen & Hby).
  exists s. split_and!; [done..|]. intros i b Hi. rewrite <- (Hby i b Hi).
  apply (same_payload_owns _ _ _ _ _ Hp Hs). apply lookup_lt_Some in Hi. lia.
Qed.

(** A request ends in a new buffer or in the malloc-failed hook. *)
Lemma malloc_outcome n g live : client_inv (g, live) → 0 ≤ n < MAX32 →
  pvPortMalloc n g = RHalt ∨ ∃ p g', 0 < n ∧ pvPortMalloc n g = ROk (p, g').
Proof.
  intros (Hu & ts & Hinv & _) Hn. simpl in *. destruct (decide (n = 0)) as [->|].
  { left. apply (pvPortMalloc_halts 0 g ts); [done..|by left]. }
  destruct (first_fit (block_size n) ts) as [[o ts']|] eqn:Hf.
  - right. destruct (wp_ok _ _ _ (wp_pvPortMalloc n g ts o ts' Hu Hinv ltac:(lia) Hf)) as (p & g' & Hrun & _).
    exists p, g'. split; [lia|done].
  - left. apply (pvPortMalloc_halts n g ts); [done..|by right].
Qed.

(** What each call does to the view *)
Lemma malloc_view n g g' p live : client_inv (g, live) → 0 < n < MAX32 → pvPortMalloc n g = ROk (p, g') →
  live !! p = None ∧ client_inv (g', <[p := bytes_at (h_mem (g_data g')) p n]> live).
Proof.
  intros (Hu & ts & Hinv & Hbv) Hn Hrun. simpl in *. destruct (heap_inv_tiles _ _ Hinv) as [Hok Hsum].
  destruct (first_fit (block_size n) ts) as [[o ts']|] eqn:Hf.
  2:{ rewrite (pvPortMalloc_halts n g ts) in Hrun; [done|done|done|lia|by right]. }
  pose proof (wp_run _ _ _ _ _ (wp_pvPortMalloc n g ts o ts' Hu Hinv Hn Hf) Hrun) as (-> & Hu' & Hrep & Hpay & _).
  pose proof (block_size_bounds n) as [Hb1 Hb2].
  destruct (first_fit_owns _ heap_start _ _ _ Hf) as (k & Hk & Ho).
  set (p := heap_start + o + 8) in *.
  assert (owns heap_start ts' p k) as Hop by (apply Ho; by right).
  assert (∀ s, ¬ owns heap_start ts p s) as Hnew.
  { intros s Hs. destruct (first_fit_inv _ _ _ _ Hf) as (ts1 & s1 & ts2 & -> & _ & _ & -> & _).
    apply Forall_app in Hok as [Hok1 [[? _] Hok2]%Forall_cons]. simpl in *.
    apply owns_app in Hs as [Hs|[[? _]|Hs]]; [|done|].
    - pose proof (owns_range _ _ _ _ Hok1 Hs) as (? & ? & [? _] & _). simpl in *. subst p. lia.
    - pose proof (owns_range _ _ _ _ Hok2 Hs). subst p. lia. }
  assert (live !! p = None) as Hl.
  { destruct (live !! p) as [bs|] eqn:Hl; [|done]. destruct (bv_block _ _ _ Hbv _ _ Hl) as (s & Hs & _).
    by destruct (Hnew s). }
  split; [done|]. split; [done|]. exists ts'. split; [by right|]. simpl. constructor.
  - intros q bs. destruct (decide (q = p)) as [->|Hne].
    + rewrite lookup_insert_eq. intros [= <-]. exists k. rewrite bytes_at_length by lia.
      split_and!; [done|lia|]. intros i b. apply bytes_at_lookup.
    + rewrite lookup_insert_ne by done. intros Hq.
      destruct (bv_block _ _ _ (buffer_view_same _ _ _ _ Hbv Hpay) _ _ Hq) as (s & Hs & Hrest).
      exists s. split; [apply Ho; by left|done].
  - intros q s [Hq|[-> ->]]%Ho; [|by rewrite lookup_insert_eq].
    destruct (decide (q = p)) as [->|]; [by rewrite lookup_insert_eq|]. rewrite lookup_insert_ne by done.
    by eapply bv_only.
Qed.

Lemma free_view g live p bs : client_inv (g, live) → live !! p = Some bs →
  wp (vPortFree p) (λ _ g', client_inv (g', delete p live)) g.
Proof.
  intros (Hu & ts & Hinv & Hbv) Hl. simpl in *. destruct (bv_block _ _ _ Hbv _ _ Hl) as (s & Hs & _).
  pose proof (heap_inv_owned _ _ _ _ Hinv Hs) as Hrep. destruct (owns_split _ _ _ _ Hs) as (ts1 & ts2 & -> & ->).
  pose proof (hr_ok _ _ Hrep) as Hok.
  eapply wp_mono; [by apply (wp_vPortFree g ts1 s ts2)|]. intros _ g' (Hu' & Hrep' & Hpay & _).
  split; [done|]. eexists. split; [by right|]. simpl. constructor.
  - intros q bs' [Hne Hq]%lookup_delete_Some. destruct (bv_block _ _ _ Hbv _ _ Hq) as (k & Hk & Hlen & Hby).
    assert (owns heap_start (join ts1 (cons_free s ts2)) q k) as Hk' by by apply release_owns.
    exists k. split_and!; [done..|]. intros i b Hi. rewrite <- (Hby i b Hi).
    apply (same_payload_owns _ _ _ _ _ Hpay Hk'). apply lookup_lt_Some in Hi. lia.
  - intros q k [Hq Hne]%release_owns; [|done]. rewrite lookup_delete_ne by done. by eapply bv_only.
Qed.

(** The room of a buffer given back is there for the next request. *)
Lemma cons_free_room s ts : ∃ s', (s', false) ∈ cons_free s ts ∧ (Forall tile_ok ts → s ≤ s').
Proof.
  destruct ts as [|[s2 []] ts]; [exists s|exists s|exists (s + s2)]; (split; [by left|]); [done|done|].
  intros [[Hs _] _]%Forall_cons. simpl in Hs. lia.
Qed.
Lemma join_room s ts1 ts2 : Forall tile_ok (ts1 ++ ts2) → ∃ s', (s', false) ∈ join ts1 (cons_free s ts2) ∧ s ≤ s'.
Proof.
  intros [Hok1 Hok2]%Forall_app. destruct (cons_free_room s ts2) as (s2 & Hin & Hle). specialize (Hle Hok2).
  induction ts1 as [|[s1 u] ts1 IH]; simpl; [by exists s2|]. apply Forall_cons in Hok1 as [[Hs _] Hok1]. specialize (IH Hok1).
  destruct ts1 as [|t ts1].
  - destruct u; [exists s2; split; [by right|done]|]. simpl in Hs.
    destruct ts2 as [|[s3 []] ts2]; simpl in *; eexists; (split; [by left|]); [lia..|].
    apply Forall_cons in Hok2 as [[? _] _]. simpl in *. lia.
  - destruct IH as (s' & ? & ?). exists s'. split; [by right|done].
Qed.
Lemma first_fit_room w s ts : (s, false) ∈ ts → w ≤ s → is_Some (first_fit w ts).
Proof.
  induction ts as [|[s' u] ts IH]; [by intros ?%not_elem_of_nil|]. intros [[= <- <-]|Hin]%elem_of_cons Hle; simpl.
  - by destruct (Z.leb_spec w s); [|lia].
  - destruct (negb u && (w <=? s')); [done|]. destruct (IH Hin Hle) as [[o ts'] ->]. done.
Qed.
Lemma free_then_malloc g live p bs : client_inv (g, live) → live !! p = Some bs →
  ∃ g', vPortFree p g = ROk (tt, g') ∧ (bs ≠ [] → ∃ q g'', pvPortMalloc (Z.of_nat (length bs)) g' = ROk (q, g'')).
Proof.
  intros (Hu & ts & Hinv & Hbv) Hl. simpl in *. destruct (bv_block _ _ _ Hbv _ _ Hl) as (s & Hs & Hlen & _).
  pose proof (heap_inv_owned _ _ _ _ Hinv Hs) as Hrep. pose proof (hr_ok _ _ Hrep) as Hok.
  pose proof (owns_range _ _ _ _ Hok Hs) as Hrange. destruct (owns_split _ _ _ _ Hs) as (ts1 & ts2 & -> & ->).
  pose proof (hr_sum _ _ Hrep) as Hsum. pose proof heap_bounds as (? & ? & _ & ? & _ & ?).
  destruct (wp_ok _ _ _ (wp_vPortFree g ts1 s ts2 Hu Hrep)) as ([] & g' & Hrun & Hu' & Hrep' & _).
  exists g'. split; [done|]. intros Hne. assert (0 < Z.of_nat (length bs)) by (destruct bs; [done|simpl; lia]).
  assert (Forall tile_ok (ts1 ++ ts2)) as Hok'.
  { apply Forall_app in Hok as [? [_ ?]%Forall_cons]. by apply Forall_app. }
  destruct (join_room s ts1 ts2 Hok') as (s' & Hin & Hle).
  assert (s mod 8 = 0) as Hs8 by (apply Forall_app in Hok as [_ [[_ ?] _]%Forall_cons]; done).
  assert (block_size (Z.of_nat (length bs)) ≤ s) as Hbs.
  { unfold block_size. clear -Hlen Hs8. set (l := Z.of_nat _) in *. clearbody l.
    pose proof (Z.div_mod s 8 ltac:(done)). assert ((l + 15) / 8 < s / 8 + 1); [|lia].
    apply Z.div_lt_upper_bound; lia. }
  destruct (first_fit_room (block_size (Z.of_nat (length bs))) s' _ Hin (Z.le_trans _ _ _ Hbs Hle)) as [[o ts'] Hf].
  assert (Z.of_nat (length bs) < MAX32) by lia.
  destruct (wp_ok _ _ _ (wp_pvPortMalloc (Z.of_nat (length bs)) g' _ o ts' Hu' (or_intror Hrep') ltac:(lia) Hf)) as (q & g'' & Hq & _).
  by exists q, g''.
Qed.

Lemma write_view g live p bs i v : client_inv (g, live) → live !! p = Some bs → (i < length bs)%nat →
  client_inv (mkGuarded (g_sched g) (set_byte (p + Z.of_nat i) v (g_data g)), <[p := <[i := v]> bs]> live).
Proof.
  intros (Hu & ts & Hinv & Hbv) Hl Hi. simpl in *. destruct (bv_block _ _ _ Hbv _ _ Hl) as (s & Hs & Hlen & Hby).
  destruct (heap_inv_tiles _ _ Hinv) as [Hok _].
  split; [done|]. exists ts. simpl. split.
  { apply heap_inv_write; [done|]. apply payload_owns. exists p, s. split; [done|lia]. }
  constructor.
  - intros q bs'. destruct (decide (q = p)) as [->|Hne].
    + rewrite lookup_insert_eq. intros [= <-]. exists s. rewrite length_insert. split_and!; [done..|].
      intros j b. simpl. rewrite peek_insert. destruct (decide (i = j)) as [<-|Hij].
      * rewrite list_lookup_insert_eq by done. intros [= <-]. by rewrite decide_True.
      * rewrite list_lookup_insert_ne by done. intros Hj. rewrite decide_False by lia. by apply Hby.
    + rewrite lookup_insert_ne by done. intros Hq. destruct (bv_block _ _ _ Hbv _ _ Hq) as (k & Hk & Hlen' & Hby').
      exists k. split_and!; [done..|]. intros j b Hj. simpl. rewrite peek_insert.
      pose proof (lookup_lt_Some _ _ _ Hj). destruct (owns_disjoint _ _ _ _ _ _ Hok Hs Hk) as [[? _]|?]; [done|].
      rewrite decide_False by lia. by apply Hby'.
  - intros q k Hq. destruct (decide (q = p)) as [->|]; [by rewrite lookup_insert_eq|].
    rewrite lookup_insert_ne by done. by eapply bv_only.
Qed.

Lemma client_inv_step gl gl' : client_inv gl → client_step gl gl' → client_inv gl'.
Proof.
  intros Hinv Hstep. destruct Hstep as [g live n p g' Hn Hrun|g live p bs g' Hl Hrun|g live p bs i v Hl Hi|g live s Hs].
  - by eapply malloc_view.
  - by apply (wp_run _ _ _ _ _ (free_view g live p bs Hinv Hl) Hrun).
  - by apply write_view.
  - destruct Hinv as (_ & ts & Hinv & Hbv). split; [done|]. by exists ts.
Qed.
Lemma client_inv_steps gl gl' : client_inv gl → rtc client_step gl gl' → client_inv gl'.
Proof. intros Hinv Hsteps. induction Hsteps as [|gl gl1 gl' Hs _ IH]; [done|]. apply IH. by eapply client_inv_step. Qed.
Lemma client_inv_init s : unlocked s → client_inv (mkGuarded s zero_heap, ∅).
Proof.
  intros Hs. split; [done|]. exists init_tiles. split; [by left|]. constructor; simpl.
  - intros p bs. by rewrite lookup_empty.
  - intros p k [[? _]|[]]. done.
Qed.

(** ** Zeroing a new buffer *)
Lemma wp_memset0 n : ∀ i g live p bs,
  client_inv (g, live) → live !! p = Some bs → (i + n = length bs)%nat →
  wp (on_data (memset0 n (p + Z.of_nat i))) (λ _ g', client_inv (g', <[p := take i bs ++ replicate n 0]> live)) g.
Proof.
  induction n as [|n IH]; intros i g live p bs Hinv Hl Hlen.
  - apply wp_ret. replace i with (length bs) by lia. rewrite take_ge, app_nil_r by done. rewrite insert_id by done.
    by destruct g.
  - pose proof Hinv as (_ & ts & Hi & Hbv). simpl in Hi, Hbv. destruct (bv_block _ _ _ Hbv _ _ Hl) as (s & Hs & Hsz & _).
    destruct (heap_inv_tiles _ _ Hi) as [Hok Hsum]. pose proof (owns_range _ _ _ _ Hok Hs) as (? & ? & _ & _).
    pose proof heap_bounds as (? & ? & _ & ? & _ & ?).
    assert (in_heap (p + Z.of_nat i) 1 = true) as Hin by (unfold in_heap; rewrite andb_true_iff, !Z.leb_le; lia).
    pose proof (write_view g live p bs i 0 Hinv Hl ltac:(lia)) as Hinv1. simpl.
    unfold wp, on_data, zoom in *. simpl. rewrite Hin.
    specialize (IH (Datatypes.S i) _ _ p (<[i := 0]> bs) Hinv1 (lookup_insert_eq _ _ _)). simpl in IH.
    rewrite length_insert in IH. specialize (IH ltac:(lia)). rewrite insert_insert_eq in IH.
    replace (p + Z.of_nat (Datatypes.S i)) with (p + Z.of_nat i + 1) in IH by lia.
    fold (set_byte (p + Z.of_nat i) 0 (g_data g)).
    destruct (memset0 n (p + Z.of_nat i + 1) (set_byte (p + Z.of_nat i) 0 (g_data g))) as [[[] h']| | | |]; [|done..].
    replace (take i bs ++ 0 :: replicate n 0) with (take (Datatypes.S i) (<[i := 0]> bs) ++ replicate n 0); [done|].
    rewrite (take_S_r _ _ 0) by (apply list_lookup_insert_eq; lia). rewrite take_insert_ge by lia. by rewrite <- app_assoc.
Qed.

(** ** The statistics of a row *)
Definition free_sizes (ts : list tile) : list Z := (filter (λ t : tile, t.2 = false) ts).*1.

Lemma free_sizes_cons s u ts : free_sizes ((s, u) :: ts) = if u then free_sizes ts else s :: free_sizes ts.
Proof. unfold free_sizes. rewrite filter_cons. by destruct u. Qed.

Lemma wp_stats_walk h ts : ∀ fuel a n mx mn,
  pxEnd h = heap_end → Forall tile_ok ts → heap_start ≤ a → a + tsum ts = heap_end →
  tiles_rep (h_mem h) heap_end a ts → 0 ≤ n → n + Z.of_nat (length ts) < MAX32 → (length ts < fuel)%nat →
  wp (iterM fuel stats_one (first_free heap_end a ts, n, mx, mn)) (λ r h', h' = h ∧
    r = (n + Z.of_nat (length (free_sizes ts)), foldl Z.max mx (free_sizes ts), foldl Z.min mn (free_sizes ts))) h.
Proof.
  induction ts as [|[s u] ts IH]; intros fuel a n mx mn He Hok Ha Hsum Hrep Hn Hmax Hf; simpl in Hf.
  - destruct fuel as [|fuel]; [lia|]. simpl. apply wp_bind, wp_bind, wp_getM. rewrite He, Z.eqb_refl. simpl.
    apply wp_ret, wp_ret. split; [done|]. by rewrite Z.add_0_r.
  - apply Forall_cons in Hok as [[Hs _] Hok]. cbn [fst snd tsum length] in *. pose proof (tsum_nonneg _ Hok).
    destruct Hrep as (Hn1 & Hsz & Hrep). rewrite free_sizes_cons. destruct u; cbn [first_free].
    { apply IH; (done || lia). }
    destruct fuel as [|fuel]; [lia|]. simpl. apply wp_bind, wp_bind, wp_getM. rewrite He.
    destruct (Z.eqb_spec a heap_end); [lia|]. simpl.
    apply wp_bind, wp_get_size; [unfold node; lia|]. apply wp_bind, wp_get_link; [unfold node; lia|]. rewrite Hn1, Hsz.
    apply wp_ret. rewrite (wrap32_small (n + 1)) by (unfold u32; lia).
    replace (if mx <? s then s else mx) with (Z.max mx s) by (destruct (Z.ltb_spec mx s); lia).
    replace (if s <? mn then s else mn) with (Z.min mn s) by (destruct (Z.ltb_spec s mn); lia).
    eapply wp_mono; [apply (IH fuel (a + s) (n + 1)); (done || lia)|].
    intros r h' [-> ->]. split; [done|]. do 2 f_equal. lia.
Qed.
End heap4.
