(* ===== verification/HeapProps.v ===== *)
(** * Properties of the allocator

    The theorems about heap_4.c, and witnesses in which the scheduler lock is the
    kernel's. *)
From S2P Require Import Prelude SchedLock Tasks TasksOps TasksMachine TasksCheck KernelLock.
From S2P Require Import Heap4 Heap4Spec Heap4Rep Heap4Ops Heap4Calls Heap4Client.

Section props.
Context `{HLok : HeapLayoutOk} {S : Type} `{HS : SchedulerLockSpec S}.
Implicit Types (g : guarded S heap).

(** C20: the allocator implements independent buffers.  From the start-up state,
    after any sequence of successful [pvPortMalloc] calls, [vPortFree] calls of
    buffers that are out, writes by the holders of buffers, and anything that
    happens to the scheduler meanwhile: every buffer that is out lies in the
    array, aligned to 8 bytes, apart from every other one, and holds what its
    holder last wrote to it (or what [pvPortMalloc] left there); freeing it
    succeeds, and a request as long as the freed buffer then succeeds; and any
    request either succeeds with a new address or ends in the malloc-failed hook,
    never in a failed assertion or a bad access. *)
Theorem heap_refines_buffers s0 g live :
  unlocked s0 → rtc client_step (mkGuarded s0 zero_heap, ∅) (g, live) →
  (∀ p bs, live !! p = Some bs →
     p mod 8 = 0 ∧ ucHeap ≤ p - 8 ∧ p + Z.of_nat (length bs) ≤ ucHeap + configTOTAL_HEAP_SIZE ∧
     (∀ i b, bs !! i = Some b → peek (h_mem (g_data g)) (p + Z.of_nat i) = b) ∧
     (∀ q bs', live !! q = Some bs' → p ≠ q → p + Z.of_nat (length bs) ≤ q - 8 ∨ q + Z.of_nat (length bs') ≤ p - 8) ∧
     ∃ g', vPortFree p g = ROk (tt, g') ∧
       (bs ≠ [] → ∃ q g'', pvPortMalloc (Z.of_nat (length bs)) g' = ROk (q, g''))) ∧
  (∀ n, 0 < n < MAX32 → pvPortMalloc n g = RHalt ∨
     ∃ p g', pvPortMalloc n g = ROk (p, g') ∧ live !! p = None).
Proof.
  intros Hs Hsteps. pose proof (client_inv_steps _ _ (client_inv_init s0 Hs) Hsteps) as Hinv.
  pose proof Hinv as (Hu & ts & Hi & Hbv). simpl in *. destruct (heap_inv_tiles _ _ Hi) as [Hok Hsum].
  pose proof heap_bounds as (? & ? & Hal & ? & _ & ?). split.
  - intros p bs Hl. destruct (bv_block _ _ _ Hbv _ _ Hl) as (s & Ho & Hlen & Hby).
    pose proof (owns_range _ _ _ _ Hok Ho) as (? & ? & _ & Ha). split_and!; [|lia|lia|done| |].
    + replace p with (p - heap_start + heap_start) by lia. rewrite Z.add_mod, Ha, Hal; done.
    + intros q bs' Hq Hne. destruct (bv_block _ _ _ Hbv _ _ Hq) as (s' & Ho' & Hlen' & _).
      destruct (owns_disjoint _ _ _ _ _ _ Hok Ho Ho') as [[? _]|?]; [done|lia].
    + by apply (free_then_malloc g live).
  - intros n Hn. destruct (malloc_outcome n g live Hinv ltac:(lia)) as [?|(p & g' & _ & Hrun)]; [by left|].
    right. exists p, g'. split; [done|]. by apply (malloc_view n g g' p live).
Qed.

(** C21: [pvPortMalloc] is first fit.  On a heap whose row of blocks is [ts], a
    request of [n] bytes takes the first free block, in address order, that has
    room for them and the header, splits it if more than 16 bytes would be left,
    counts the allocation and the lowest level of free space, and touches no
    allocated block; if no block has room, or [n] is 0, the malloc-failed hook
    stops the system: [NULL] is never returned. *)
Theorem pvPortMalloc_first_fit g ts n :
  unlocked (g_sched g) → heap_inv (g_data g) ts → 0 ≤ n < MAX32 →
  match (if 0 <? n then first_fit (block_size n) ts else None) with
  | None => pvPortMalloc n g = RHalt
  | Some (o, ts') =>
      wp (pvPortMalloc n) (λ p g', p = heap_start + o + 8 ∧ heap_rep (g_data g') ts' ∧
        same_payload ts (g_data g) (g_data g') ∧
        xMinimumEverFreeBytesRemaining (g_data g') = Z.min (min_ever (g_data g) ts) (free_sum ts') ∧
        xNumberOfSuccessfulAllocations (g_data g') = wrap32 (xNumberOfSuccessfulAllocations (g_data g) + 1)) g
  end.
Proof.
  intros Hu Hinv Hn. destruct (Z.ltb_spec 0 n).
  - destruct (first_fit (block_size n) ts) as [[o ts']|] eqn:Hf.
    + eapply wp_mono; [apply (wp_pvPortMalloc n g ts o ts' Hu Hinv); [lia|done]|].
      intros p g' (-> & _ & ? & ? & ? & ? & _). by split_and!.
    + apply (pvPortMalloc_halts n g ts); [done..|by right].
  - apply (pvPortMalloc_halts n g ts); [done..|left; lia].
Qed.

(** C22: [vPortFree] gives the block back and joins it with the free blocks
    beside it: the row becomes [release] of it, in which no two free blocks are
    neighbours; the free space grows by exactly the block; other allocated
    blocks keep their contents. *)
Theorem vPortFree_coalesces g ts p s :
  unlocked (g_sched g) → heap_rep (g_data g) ts → owns heap_start ts p s →
  ∃ ts', release (p - 8 - heap_start) ts = Some ts' ∧ compact ts' ∧ tsum ts' = tsum ts ∧
    free_sum ts' = free_sum ts + s ∧
    wp (vPortFree p) (λ _ g', heap_rep (g_data g') ts' ∧ same_payload ts' (g_data g) (g_data g') ∧
      xFreeBytesRemaining (g_data g') = xFreeBytesRemaining (g_data g) + s ∧
      xNumberOfSuccessfulFrees (g_data g') = wrap32 (xNumberOfSuccessfulFrees (g_data g) + 1)) g.
Proof.
  intros Hu Hrep Ho. destruct (owns_split _ _ _ _ Ho) as (ts1 & ts2 & -> & ->).
  pose proof (hr_ok _ _ Hrep) as Hok. pose proof (hr_compact _ _ Hrep) as Hc.
  pose proof Hok as [Hok1 _]%Forall_app. pose proof Hc as [Hc1 _]%compact_app.
  replace (heap_start + tsum ts1 + 8 - 8 - heap_start) with (tsum ts1) by lia.
  pose proof (release_some ts1 s ts2 Hok1 Hc1) as Hr. destruct (release_ok _ _ _ Hok Hc Hr) as (_ & Hc' & Hsum').
  assert (free_sum (join ts1 (cons_free s ts2)) = free_sum (ts1 ++ (s, true) :: ts2) + s) as Hf.
  { rewrite free_sum_join, free_sum_cons_free, free_sum_app. simpl. lia. }
  eexists. split_and!; [done..|]. eapply wp_mono; [by apply (wp_vPortFree g ts1 s ts2)|].
  intros _ g' (_ & Hrep' & Hpay & _ & _ & Hcnt & _). split_and!; [done..| |done].
  by rewrite (hr_free _ _ Hrep'), (hr_free _ _ Hrep), Hf.
Qed.

(** C23: nothing leaks.  When every buffer has been given back, in whatever order
    and with whatever happened before, the whole array is one free block again:
    a request for all of it succeeds and gets the first address. *)
Theorem heap_full_again s0 g :
  unlocked s0 → rtc client_step (mkGuarded s0 zero_heap, ∅) (g, ∅) →
  wp (pvPortMalloc (heap_end - heap_start - 8)) (λ p _, p = heap_start + 8) g.
Proof.
  intros Hs Hsteps. pose proof (client_inv_steps _ _ (client_inv_init s0 Hs) Hsteps) as (Hu & ts & Hi & Hbv).
  simpl in *. pose proof heap_bounds as (? & ? & Hal & ? & Hale & ?). pose proof heap_start_end.
  assert (ts = init_tiles) as ->.
  { destruct Hi as [[_ ->]|Hrep]; [done|]. pose proof (hr_compact _ _ Hrep) as Hc. pose proof (hr_sum _ _ Hrep) as Hsum.
    assert (∀ p s, ¬ owns heap_start ts p s) as Hno.
    { intros p s Ho. destruct (bv_only _ _ _ Hbv _ _ Ho) as [bs Hl]. by rewrite lookup_empty in Hl. }
    destruct ts as [|[s u] ts]; simpl in Hsum; [lia|]. destruct u.
    { destruct (Hno (heap_start + 8) s). by left. }
    destruct ts as [|[s2 u2] ts]; simpl in *; [unfold init_tiles; do 3 f_equal; lia|].
    destruct Hc as [Hc _]. specialize (Hc eq_refl). simpl in Hc. subst u2.
    destruct (Hno (heap_start + s + 8) s2). right. by left. }
  assert (block_size (heap_end - heap_start - 8) = heap_end - heap_start) as Hb.
  { unfold block_size. Z.to_euclidean_division_equations. lia. }
  eapply wp_mono; [apply (wp_pvPortMalloc _ g init_tiles 0 [(heap_end - heap_start, true)] Hu Hi); [lia|]|].
  - rewrite Hb. simpl. rewrite Z.leb_refl. unfold split_tile. destruct (Z.ltb_spec 16 (heap_end - heap_start - (heap_end - heap_start))); [lia|done].
  - intros p g' (-> & _). lia.
Qed.

(** Freeing a buffer a second time is caught.  The first call succeeds and
    gives the [s] bytes of the block back; the second one, of the same pointer,
    passes the check of the address and stops at the assertion on the allocation
    bit, which the first call has cleared, also when the block has been merged
    into its neighbours. *)
Theorem vPortFree_double_free g ts p s :
  unlocked (g_sched g) → heap_rep (g_data g) ts → owns heap_start ts p s →
  heapBLOCK_IS_ALLOCATED (p - 8) (g_data g) = ROk (true, g_data g) ∧
  wp (vPortFree p) (λ _ g', xFreeBytesRemaining (g_data g') = xFreeBytesRemaining (g_data g) + s ∧
    heapVALIDATE_BLOCK_POINTER (p - 8) (g_data g') = ROk (tt, g_data g') ∧
    heapBLOCK_IS_ALLOCATED (p - 8) (g_data g') = ROk (false, g_data g') ∧
    vPortFree p g' = RAssert) g.
Proof.
  intros Hu Hrep Ho. destruct (owns_split _ _ _ _ Ho) as (ts1 & ts2 & -> & ->).
  pose proof (hr_ok _ _ Hrep) as Hok. pose proof (owns_range _ _ _ _ Hok Ho) as (? & ? & [? _] & _).
  pose proof (hr_sum _ _ Hrep). pose proof heap_bounds as (? & ? & _ & ? & _ & ?). simpl in *.
  destruct (around_rep _ _ _ _ _ Hrep) as (_ & _ & Hsz & _ & _ & _).
  replace (heap_start + tsum ts1 + 8 - 8) with (heap_start + tsum ts1) by lia.
  assert (node (heap_start + tsum ts1)) as Hn by (right; lia).
  assert (∀ h b, 0 ≤ word (h_mem h) (heap_start + tsum ts1 + 4) - (if b : bool then BIT31 else 0) < BIT31 →
    heapBLOCK_IS_ALLOCATED (heap_start + tsum ts1) h = ROk (b, h)) as Hbit.
  { intros h b Hb. enough (wp (heapBLOCK_IS_ALLOCATED (heap_start + tsum ts1)) (λ r h', r = b ∧ h' = h) h) as Hw.
    { destruct (wp_ok _ _ _ Hw) as (r & h' & Hr & -> & ->). exact Hr. }
    unfold heapBLOCK_IS_ALLOCATED. apply wp_bind, wp_get_size; [done|]. apply wp_ret. split; [|done].
    destruct b; [|by rewrite land_bit31_small by lia].
    replace (word (h_mem h) (heap_start + tsum ts1 + 4)) with ((word (h_mem h) (heap_start + tsum ts1 + 4) - BIT31) + BIT31) by lia.
    by rewrite land_bit31 by lia. }
  assert (0 ≤ s < BIT31) by (unfold BIT31, configTOTAL_HEAP_SIZE in *; lia).
  split; [apply Hbit; rewrite Hsz; lia|].
  eapply wp_mono; [by apply (wp_vPortFree g ts1 s ts2)|]. intros [] g' (_ & Hrep' & _ & _ & _ & _ & Hclear).
  split_and!.
  - rewrite (hr_free _ _ Hrep'), (hr_free _ _ Hrep), free_sum_join, free_sum_cons_free, free_sum_app. simpl. lia.
  - enough (wp (heapVALIDATE_BLOCK_POINTER (heap_start + tsum ts1)) (λ _ h', h' = g_data g') (g_data g')) as Hw.
    { destruct (wp_ok _ _ _ Hw) as ([] & h' & Hr & ->). exact Hr. }
    apply wp_validate; [lia|done].
  - apply Hbit. lia.
  - apply vPortFree_asserts.
    + by replace (heap_start + tsum ts1 + 8 - 8) with (heap_start + tsum ts1) by lia.
    + lia.
    + by replace (heap_start + tsum ts1 + 8 - 4) with (heap_start + tsum ts1 + 4) by lia.
Qed.

(** [pvPortCalloc] refuses a product that does not fit 32 bits, without
    touching the heap; otherwise, if there is room, it returns a new buffer of
    that many bytes, all zero. *)
Theorem pvPortCalloc_zeroes g live num size :
  client_inv (g, live) → u32 num → u32 size →
  if MAX32 <=? num * size then pvPortCalloc num size g = ROk (0, g)
  else pvPortCalloc num size g = RHalt ∨
    wp (pvPortCalloc num size) (λ p g', live !! p = None ∧
      client_inv (g', <[p := replicate (Z.to_nat (num * size)) 0]> live)) g.
Proof.
  unfold u32, MAX32. intros Hinv Hnum Hsize. unfold pvPortCalloc, heapMULTIPLY_WILL_OVERFLOW. change heapSIZE_MAX with 4294967295.
  assert ((0 <? num) && (4294967295 / num <? size) = (4294967296 <=? num * size)) as ->.
  { apply eq_true_iff_eq. rewrite andb_true_iff, !Z.ltb_lt, Z.leb_le. split.
    - intros [? Hd]. pose proof (Z.mul_succ_div_gt 4294967295 num ltac:(lia)). nia.
    - intros Hp. assert (0 < num) by nia. split; [done|]. apply Z.div_lt_upper_bound; [done|]. lia. }
  destruct (Z.leb_spec 4294967296 (num * size)); simpl; [done|].
  rewrite wrap32_small by (unfold u32, MAX32; nia). set (n := num * size) in *. assert (0 ≤ n) by (subst n; nia).
  destruct (malloc_outcome n g live Hinv ltac:(unfold MAX32; lia)) as [Hrun|(p & g1 & Hn0 & Hrun)].
  { left. unfold bindM. by rewrite Hrun. }
  right. destruct (malloc_view n g g1 p live Hinv ltac:(unfold MAX32; lia) Hrun) as [Hl Hinv1].
  apply wp_bind. eapply wp_intro; [exact Hrun|]. set (bs := bytes_at _ _ _) in Hinv1.
  assert (Z.of_nat (length bs) = n) as Hlen by by apply bytes_at_length.
  destruct (Z.eqb_spec p 0) as [->|Hp0]; simpl.
  { destruct Hinv1 as (_ & ts1 & Hi1 & Hbv1). destruct (bv_block _ _ _ Hbv1 0 bs (lookup_insert_eq _ _ _)) as (s & Ho & _).
    destruct (heap_inv_tiles _ _ Hi1) as [Hok1 _]. pose proof (owns_range _ _ _ _ Hok1 Ho). pose proof heap_bounds. lia. }
  apply wp_bind. eapply wp_mono.
  { pose proof (wp_memset0 (Z.to_nat n) 0 g1 _ p bs Hinv1 (lookup_insert_eq _ _ _) ltac:(lia)) as Hm.
    rewrite Z.add_0_r in Hm. exact Hm. }
  intros ? g2 Hinv2. rewrite insert_insert_eq in Hinv2. simpl in Hinv2. by apply wp_ret.
Qed.

(** [vPortGetHeapStats] reports the number of free blocks, the sizes of the
    largest and smallest one, and the free space, as they are. *)
Theorem vPortGetHeapStats_exact g ts :
  unlocked (g_sched g) → heap_rep (g_data g) ts →
  wp vPortGetHeapStats (λ st g', g_data g' = g_data g ∧
    xNumberOfFreeBlocks st = Z.of_nat (length (free_sizes ts)) ∧
    xSizeOfLargestFreeBlockInBytes st = foldl Z.max 0 (free_sizes ts) ∧
    xSizeOfSmallestFreeBlockInBytes st = foldl Z.min heapSIZE_MAX (free_sizes ts) ∧
    xAvailableHeapSpaceInBytes st = free_sum ts) g.
Proof.
  intros Hu Hrep. pose proof Hrep as [He (Hc1 & _ & Hc3) _ Hok Hsum _ Hf _].
  pose proof heap_bounds as (? & ? & _ & ? & _ & ?). pose proof (tsum_length _ Hok).
  unfold vPortGetHeapStats. apply wp_bind. eapply wp_mono.
  { apply (wp_with_lock _ (λ r h', h' = g_data g ∧ r = (Z.of_nat (length (free_sizes ts)), foldl Z.max 0 (free_sizes ts),
      foldl Z.min heapSIZE_MAX (free_sizes ts)))); [done|].
    unfold stats_locked. apply wp_bind, wp_get_link; [by left|]. rewrite Hc1.
    assert (first_free heap_end heap_start ts ≠ 0).
    { pose proof heap_start_end. destruct (first_free_range heap_end heap_start ts Hok) as [[-> _]|(? & ? & _)]; lia. }
    destruct (Z.eqb_spec (first_free heap_end heap_start ts) 0); [done|]. simpl.
    apply (wp_stats_walk _ ts _ heap_start 0); try (done || lia).
    apply list_fuel_enough. unfold configTOTAL_HEAP_SIZE in *. lia. }
  intros [[n mx] mn] g' (Hu' & Hd & [= -> -> ->]). apply wp_bind, wp_getM, wp_ret. rewrite Hd. by split_and!.
Qed.
End props.

(** ** Witnesses: the scheduler lock is the kernel's, with four tasks running *)

#[local] Instance ex_layout : HeapLayout := {| ucHeap := 536870916; xStart := 536870904 |}.
#[local] Instance ex_layout_ok : HeapLayoutOk.
Proof. split; [by_eval|by_eval|left; by_eval]. Qed.
#[local] Existing Instance kernel_lock.
#[local] Instance ex_lock : SchedulerLockSpec kernel := kernel_lock_spec 1.

Definition ex_heap : guarded kernel heap := mkGuarded ex_boot zero_heap.
Lemma ex_unlocked : unlocked ex_boot.
Proof. split; [right; apply kernel_check_ok, ex_boot_ok|by_eval]. Qed.
#[local] Opaque ex_boot.
Lemma ex_start : heap_inv (g_data ex_heap) init_tiles.
Proof. by left. Qed.

Lemma ex_heap_unlocked : unlocked (g_sched ex_heap).
Proof. exact ex_unlocked. Qed.

(** The heap after requests of 100 and 24 bytes *)
Definition ex_used : guarded kernel heap :=
  final (let* _ := pvPortMalloc 100 in pvPortMalloc 24) ex_heap.
Definition ex_row : list tile := [(112, true); (32, true); (102240, false)].
Lemma ex_used_rep : unlocked (g_sched ex_used) ∧ heap_rep (g_data ex_used) ex_row.
Proof.
  assert (wp (let* _ := pvPortMalloc 100 in pvPortMalloc 24)
    (λ _ g, unlocked (g_sched g) ∧ heap_rep (g_data g) ex_row) ex_heap) as Hw.
  { apply wp_bind. eapply wp_mono.
    { apply (wp_pvPortMalloc 100 ex_heap init_tiles 0 [(112, true); (102272, false)] ex_heap_unlocked ex_start); by_eval. }
    intros ? g (_ & Hu & Hrep & _). eapply wp_mono.
    { apply (wp_pvPortMalloc 24 g _ 112 ex_row Hu (or_intror Hrep)); by_eval. }
    by intros ? g' (_ & ? & ? & _). }
  exact (wp_final _ _ _ Hw).
Qed.

(** Requests of 50 and 20 bytes, a byte written to the first buffer, and the second
    one given back; then the first one given back as well. *)
Definition ex_g1 : guarded kernel heap := final (pvPortMalloc 50) ex_heap.
Definition ex_g2 : guarded kernel heap := mkGuarded (g_sched ex_g1) (set_byte (536870928 + Z.of_nat 0) 42 (g_data ex_g1)).
Definition ex_g3 : guarded kernel heap := final (pvPortMalloc 20) ex_g2.
Definition ex_g4 : guarded kernel heap := final (vPortFree 536870992) ex_g3.
Definition ex_g5 : guarded kernel heap := final (vPortFree 536870928) ex_g4.
Definition ex_bytes : list Z := <[0%nat := 42]> (bytes_at (h_mem (g_data ex_g1)) 536870928 50).
Lemma ex_heap_runs : pvPortMalloc 50 ex_heap = ROk (536870928, ex_g1) ∧ pvPortMalloc 20 ex_g2 = ROk (536870992, ex_g3) ∧
  vPortFree 536870992 ex_g3 = ROk (tt, ex_g4) ∧ vPortFree 536870928 ex_g4 = ROk (tt, ex_g5).
Proof. split_and!; by_eval. Qed.
Lemma ex_bytes_shape : length ex_bytes = 50%nat ∧ ex_bytes !! 0%nat = Some 42.
Proof. by_eval. Qed.
Lemma ex_run : rtc client_step (ex_heap, ∅) (ex_g4, {[536870928 := ex_bytes]}).
Proof.
  destruct ex_heap_runs as (H1 & H2 & H3 & _).
  pose proof (step_malloc ex_heap ∅ 50 536870928 ex_g1 ltac:(by_eval) H1) as S1.
  pose proof (step_write ex_g1 _ 536870928 (bytes_at (h_mem (g_data ex_g1)) 536870928 50) 0 42 (lookup_insert_eq ∅ _ _)
    ltac:(apply (bool_decide_unpack _); by_eval)) as S2.
  rewrite insert_insert_eq in S2. fold ex_g2 ex_bytes in S2.
  pose proof (step_malloc ex_g2 {[536870928 := ex_bytes]} 20 536870992 ex_g3 ltac:(by_eval) H2) as S3.
  pose proof (step_free ex_g3 _ 536870992 _ ex_g4 (lookup_insert_eq {[536870928 := ex_bytes]} _ (bytes_at (h_mem (g_data ex_g3)) 536870992 20)) H3) as S4.
  rewrite delete_insert_id in S4 by (by rewrite lookup_singleton_ne).
  exact (rtc_l _ _ _ _ S1 (rtc_l _ _ _ _ S2 (rtc_l _ _ _ _ S3 (rtc_once _ _ S4)))).
Qed.
Lemma ex_run_all : rtc client_step (ex_heap, ∅) (ex_g5, ∅).
Proof.
  eapply rtc_r; [exact ex_run|]. destruct ex_heap_runs as (_ & _ & _ & H4).
  pose proof (step_free ex_g4 {[536870928 := ex_bytes]} 536870928 ex_bytes ex_g5 (lookup_singleton_eq _ _) H4) as Hs.
  by rewrite delete_singleton_eq in Hs.
Qed.

Lemma heap_refines_buffers_witness : peek (h_mem (g_data ex_g4)) 536870928 = 42 ∧
  (∃ g', vPortFree 536870928 ex_g4 = ROk (tt, g') ∧ ∃ q g'', pvPortMalloc 50 g' = ROk (q, g'')) ∧
  (pvPortMalloc 200000 ex_g4 = RHalt ∨ ∃ p g', pvPortMalloc 200000 ex_g4 = ROk (p, g') ∧ ({[536870928 := ex_bytes]} : buffers) !! p = None).
Proof.
  destruct (heap_refines_buffers ex_boot ex_g4 _ ex_unlocked ex_run) as [Hb Hm].
  destruct (Hb 536870928 ex_bytes (lookup_singleton_eq _ _)) as (_ & _ & _ & Hby & _ & g' & Hf & Hagain).
  destruct ex_bytes_shape as [Hlen H0]. split; [exact (Hby 0%nat 42 H0)|]. split.
  - exists g'. split; [exact Hf|]. rewrite Hlen in Hagain. apply Hagain. intros He. by rewrite He in Hlen.
  - apply Hm. by_eval.
Defined.

Lemma pvPortMalloc_first_fit_witness :
  wp (pvPortMalloc 100) (λ p g', p = 536871072 ∧
    heap_rep (g_data g') [(112, true); (32, true); (112, true); (102128, false)]) ex_used.
Proof.
  destruct ex_used_rep as [Hu Hrep].
  pose proof (pvPortMalloc_first_fit ex_used ex_row 100 Hu (or_intror Hrep) ltac:(by_eval)) as Hw.
  replace (if 0 <? 100 then first_fit (block_size 100) ex_row else None) with
    (Some (144, [(112, true); (32, true); (112, true); (102128, false)])) in Hw by by_eval.
  eapply wp_mono; [exact Hw|]. intros p g' (-> & Hrep' & _). split; [by_eval|exact Hrep'].
Defined.

Lemma vPortFree_coalesces_witness :
  wp (vPortFree 536871040) (λ _ g', heap_rep (g_data g') [(112, true); (102272, false)]) ex_used.
Proof.
  destruct ex_used_rep as [Hu Hrep].
  destruct (vPortFree_coalesces ex_used ex_row 536871040 32 Hu Hrep) as (ts' & Hr & _ & _ & _ & Hw).
  { right. left. split_and!; by_eval. }
  assert (Some ts' = Some [(112, true); (102272, false)]) as [= ->] by (rewrite <- Hr; by_eval).
  eapply wp_mono; [exact Hw|]. intros ? g' (Hrep' & _). exact Hrep'.
Defined.

Lemma heap_full_again_witness : xNumberOfSuccessfulFrees (g_data ex_g5) = 2 ∧
  wp (pvPortMalloc (heap_end - heap_start - 8)) (λ p _, p = heap_start + 8) ex_g5.
Proof. split; [by_eval|]. exact (heap_full_again ex_boot ex_g5 ex_unlocked ex_run_all). Defined.

Lemma vPortFree_double_free_witness : wp (vPortFree 536871040) (λ _ g', vPortFree 536871040 g' = RAssert) ex_used.
Proof.
  destruct ex_used_rep as [Hu Hrep].
  destruct (vPortFree_double_free ex_used ex_row 536871040 32 Hu Hrep) as [_ Hw].
  { right. left. split_and!; by_eval. }
  eapply wp_mono; [exact Hw|]. intros [] g' (_ & _ & _ & Ha). exact Ha.
Defined.

Lemma pvPortCalloc_zeroes_witness : pvPortCalloc 65536 65536 ex_heap = ROk (0, ex_heap).
Proof.
  pose proof (pvPortCalloc_zeroes ex_heap ∅ 65536 65536 (client_inv_init ex_boot ex_unlocked)
    ltac:(by_eval) ltac:(by_eval)) as Hw.
  replace (MAX32 <=? 65536 * 65536) with true in Hw by by_eval. exact Hw.
Defined.

Lemma vPortGetHeapStats_exact_witness :
  wp vPortGetHeapStats (λ st _, xNumberOfFreeBlocks st = 1 ∧ xAvailableHeapSpaceInBytes st = 102240) ex_used.
Proof.
  destruct ex_used_rep as [Hu Hrep].
  eapply wp_mono; [exact (vPortGetHeapStats_exact ex_used ex_row Hu Hrep)|].
  intros st g' (_ & -> & _ & _ & ->). split; by_eval.
Defined.
