(* ===== verification/QueueMgmt.v ===== *)
(** * Creating, resetting and naming queues, and queue sets (queue.c)

    A new queue is made of memory the caller provides or [pvPortMalloc]
    allocates: the functions that create one take, besides the addresses, what
    that memory contains ([raw], the [Queue_t] object; [area], the storage). *)
From S2P Require Import Prelude KList Tasks Prog Queue SchedLock Heap4.

(** ** Reset *)
Definition xQueueGenericReset (xQueue : Z) (xNewQueue : bool) : QM bool :=
  assert_handle xQueue ;>
  let* len := q_get xQueue uxLength in
  let* size := q_get xQueue uxItemSize in
  let* xReturn :=
    (if (1 <=? len) && (size <=? SIZE_MAX / len) then
       q_set xQueue (λ x, x <| pcTail := wrap32 (pcHead x + wrap32 (uxLength x * uxItemSize x)) |>) ;>
       q_set xQueue (λ x, x <| uxMessagesWaiting := 0 |>) ;>
       q_set xQueue (λ x, x <| pcWriteTo := pcHead x |>) ;>
       q_set xQueue (λ x, x <| pcReadFrom := wrap32 (pcHead x + wrap32 ((uxLength x - 1) * uxItemSize x)) |>) ;>
       q_set xQueue (λ x, x <| cRxLock := queueUNLOCKED |>) ;>
       q_set xQueue (λ x, x <| cTxLock := queueUNLOCKED |>) ;>
       (if negb xNewQueue then
          let* _ := wake_and_yield (WaitSendL xQueue) in retM tt
        else
          ker (kl (vListInitialise (WaitSendL xQueue))) ;>
          ker (kl (vListInitialise (WaitRecvL xQueue)))) ;>
       retM true
     else retM false) in
  configASSERT xReturn ;>
  retM xReturn.

(** ** Creation *)
Definition prvInitialiseNewQueue (len size pucQueueStorage : Z) (area : list Z) (type pxNewQueue : Z) : QM unit :=
  (if size =? 0 then q_set pxNewQueue (λ x, x <| pcHead := pxNewQueue |> <| q_storage := [] |>)
   else q_set pxNewQueue (λ x, x <| pcHead := pucQueueStorage |> <| q_storage := area |>)) ;>
  q_set pxNewQueue (λ x, x <| uxLength := len |>) ;>
  q_set pxNewQueue (λ x, x <| uxItemSize := size |>) ;>
  let* _ := xQueueGenericReset pxNewQueue true in
  q_set pxNewQueue (λ x, x <| ucQueueType := type |>) ;>
  q_set pxNewQueue (λ x, x <| pxQueueSetContainer := 0 |>).

(** The memory at an address becomes a [Queue_t]. *)
Definition place_object (a : Z) (raw : Queue_t) : QM unit := modify (λ s, s <| q_objs ::= <[a := raw]> |>).

Definition xQueueGenericCreateStatic (uxQueueLength uxItemSize0 pucQueueStorage : Z) (area : list Z)
    (pxStaticQueue : Z) (raw : Queue_t) (type : Z) : QM Z :=
  configASSERT (negb (pxStaticQueue =? 0)) ;>
  if (0 <? uxQueueLength)
     && negb (negb (pucQueueStorage =? 0) && (uxItemSize0 =? 0))
     && negb ((pucQueueStorage =? 0) && negb (uxItemSize0 =? 0)) then
    place_object pxStaticQueue raw ;>
    q_set pxStaticQueue (λ x, x <| q_ucStaticallyAllocated := 1 |>) ;>
    prvInitialiseNewQueue uxQueueLength uxItemSize0 pucQueueStorage area type pxStaticQueue ;>
    retM pxStaticQueue
  else configASSERT false ;> retM 0.

Definition prvInitialiseMutex (pxNewQueue : Z) : QP unit :=
  if negb (pxNewQueue =? 0) then
    Atomic (q_set pxNewQueue (λ x, x <| xMutexHolder := 0 |> <| uxQueueType := queueQUEUE_IS_MUTEX |>
                                     <| uxRecursiveCallCount := 0 |>)) ;!
    let! _ := xQueueGenericSend pxNewQueue None 0 queueSEND_TO_BACK in Ret tt
  else Ret tt.

Definition xQueueCreateMutexStatic (type pxStaticQueue : Z) (raw : Queue_t) : QP Z :=
  let! q := Atomic (xQueueGenericCreateStatic 1 0 0 [] pxStaticQueue raw type) in
  prvInitialiseMutex q ;!
  Ret q.

Definition xQueueCreateCountingSemaphoreStatic (uxMaxCount uxInitialCount pxStaticQueue : Z) (raw : Queue_t) : QM Z :=
  if negb (uxMaxCount =? 0) && (uxInitialCount <=? uxMaxCount) then
    let* q := xQueueGenericCreateStatic uxMaxCount queueSEMAPHORE_QUEUE_ITEM_LENGTH 0 [] pxStaticQueue raw
                queueQUEUE_TYPE_COUNTING_SEMAPHORE in
    (when negb (q =? 0) then q_set q (λ x, x <| uxMessagesWaiting := uxInitialCount |>)) ;>
    retM q
  else configASSERT false ;> retM 0.

(** *** From the heap *)
#[export] Instance queue_lock : SchedulerLock qsys := {|
  suspendAll := ker vTaskSuspendAll;
  resumeAll := ker xTaskResumeAll
|}.
Abbreviation QHM := (M (guarded qsys heap)).
Abbreviation QHP := (prog (guarded qsys heap)).
Definition onP {A} (p : QP A) : QHP A := zoomP g_sched (λ s g, mkGuarded s (g_data g)) p.

Section heap.
Context `{HeapLayout}.

(** The bytes of a heap block, read as a [Queue_t] ([uxQueueNumber] is the only
    field that no creation function sets) and as a storage area. *)
Definition bytes_at (m : gmap Z Z) (a : Z) (n : nat) : list Z := (λ i, peek m (a + Z.of_nat i)) <$> seq 0 n.
Definition raw_queue (m : gmap Z Z) (a : Z) : Queue_t :=
  mkQueue (word m a) (word m (a + 4)) (word m (a + 8)) (word m (a + 12)) (word m (a + 56)) (word m (a + 60))
    (word m (a + 64)) (wrap_int8 (peek m (a + 68))) (wrap_int8 (peek m (a + 69))) (peek m (a + 70))
    (word m (a + 72)) (word m (a + 76)) (peek m (a + 80)) [].

Definition xQueueGenericCreate (uxQueueLength uxItemSize0 type : Z) : QHM Z :=
  if (0 <? uxQueueLength)
     && (uxItemSize0 <=? SIZE_MAX / uxQueueLength)
     && (wrap32 (uxQueueLength * uxItemSize0) <=? SIZE_MAX - sizeof_Queue_t) then
    let xQueueSizeInBytes := wrap32 (uxQueueLength * uxItemSize0) in
    let* pxNewQueue := pvPortMalloc (wrap32 (sizeof_Queue_t + xQueueSizeInBytes)) in
    (when negb (pxNewQueue =? 0) then
       let* g := getM in
       let m := h_mem (g_data g) in
       let pucQueueStorage := wrap32 (pxNewQueue + sizeof_Queue_t) in
       on_sched (
         place_object pxNewQueue (raw_queue m pxNewQueue) ;>
         q_set pxNewQueue (λ x, x <| q_ucStaticallyAllocated := 0 |>) ;>
         prvInitialiseNewQueue uxQueueLength uxItemSize0 pucQueueStorage
           (bytes_at m pucQueueStorage (Z.to_nat xQueueSizeInBytes)) type pxNewQueue)) ;>
    retM pxNewQueue
  else configASSERT false ;> retM 0.

Definition xQueueCreateMutex (type : Z) : QHP Z :=
  let! q := Atomic (xQueueGenericCreate 1 0 type) in
  onP (prvInitialiseMutex q) ;!
  Ret q.

Definition xQueueCreateCountingSemaphore (uxMaxCount uxInitialCount : Z) : QHM Z :=
  if negb (uxMaxCount =? 0) && (uxInitialCount <=? uxMaxCount) then
    let* q := xQueueGenericCreate uxMaxCount queueSEMAPHORE_QUEUE_ITEM_LENGTH queueQUEUE_TYPE_COUNTING_SEMAPHORE in
    (when negb (q =? 0) then on_sched (q_set q (λ x, x <| uxMessagesWaiting := uxInitialCount |>))) ;>
    retM q
  else configASSERT false ;> retM 0.

Definition xQueueCreateSet (uxEventQueueLength : Z) : QHM Z :=
  xQueueGenericCreate uxEventQueueLength sizeof_Queue_ptr queueQUEUE_TYPE_SET.
End heap.

Definition xQueueCreateSetStatic (uxEventQueueLength pucQueueStorage : Z) (area : list Z)
    (pxStaticQueue : Z) (raw : Queue_t) : QM Z :=
  xQueueGenericCreateStatic uxEventQueueLength sizeof_Queue_ptr pucQueueStorage area pxStaticQueue raw
    queueQUEUE_TYPE_SET.

(** [*ppucQueueStorage] and [*ppxStaticQueue], or [pdFALSE] *)
Definition xQueueGenericGetStaticBuffers (xQueue : Z) : QM (option (Z * Z)) :=
  assert_handle xQueue ;>
  q_get xQueue (λ x, if q_ucStaticallyAllocated x =? 1 then Some (pcHead x, xQueue) else None).

(** ** The registry *)

(** The entry to write: the one of the queue, else the first free one. *)
Fixpoint registry_slot (xQueue : Z) (rs : list QueueRegistryItem_t) (ux : nat) (pxEntryToWrite : option nat) : option nat :=
  match rs with
  | [] => pxEntryToWrite
  | r :: rs =>
      if xHandle r =? xQueue then Some ux
      else if bool_decide (pxEntryToWrite = None) && bool_decide (pcQueueName r = None)
      then registry_slot xQueue rs (S ux) (Some ux)
      else registry_slot xQueue rs (S ux) pxEntryToWrite
  end.
Definition vQueueAddToRegistry (xQueue : Z) (name : option string) : QM unit :=
  assert_handle xQueue ;>
  let* s := getM in
  let pxEntryToWrite := if given name then registry_slot xQueue (xQueueRegistry s) 0 None else None in
  match pxEntryToWrite with
  | Some ux => modify (λ s, s <| xQueueRegistry ::= <[ux := mkRegistryItem name xQueue]> |>)
  | None => retM tt
  end.
Fixpoint registry_name (xQueue : Z) (rs : list QueueRegistryItem_t) : option string :=
  match rs with
  | [] => None
  | r :: rs => if xHandle r =? xQueue then pcQueueName r else registry_name xQueue rs
  end.
Definition pcQueueGetName (xQueue : Z) : QM (option string) :=
  assert_handle xQueue ;> gets (λ s, registry_name xQueue (xQueueRegistry s)).
Fixpoint registry_remove (xQueue : Z) (rs : list QueueRegistryItem_t) : list QueueRegistryItem_t :=
  match rs with
  | [] => []
  | r :: rs => if xHandle r =? xQueue then mkRegistryItem None 0 :: rs else r :: registry_remove xQueue rs
  end.
Definition vQueueUnregisterQueue (xQueue : Z) : QM unit :=
  assert_handle xQueue ;> modify (λ s, s <| xQueueRegistry ::= registry_remove xQueue |>).

(** A dynamically allocated queue goes back to the heap; the object is gone. *)
Definition vQueueDelete `{HeapLayout} (xQueue : Z) : QHM unit :=
  on_sched (assert_handle xQueue ;> vQueueUnregisterQueue xQueue) ;>
  let* st := on_sched (q_get xQueue q_ucStaticallyAllocated) in
  when st =? 0 then
    (vPortFree xQueue ;>
     on_sched (modify (λ s, s <| q_objs ::= delete xQueue |>))).

(** ** Queue sets *)
Definition xQueueAddToSet (xQueueOrSemaphore xQueueSet : Z) : QM bool :=
  let* c := q_get xQueueOrSemaphore pxQueueSetContainer in
  if negb (c =? 0) then retM false
  else
    let* n := q_get xQueueOrSemaphore uxMessagesWaiting in
    if negb (n =? 0) then retM false
    else q_set xQueueOrSemaphore (λ x, x <| pxQueueSetContainer := xQueueSet |>) ;> retM true.
Definition xQueueRemoveFromSet (xQueueOrSemaphore xQueueSet : Z) : QP bool :=
  let! c := Atomic (q_get xQueueOrSemaphore pxQueueSetContainer) in
  if negb (c =? xQueueSet) then Ret false
  else
    let! n := Atomic (q_get xQueueOrSemaphore uxMessagesWaiting) in
    if negb (n =? 0) then Ret false
    else
      Atomic (q_set xQueueOrSemaphore (λ x, x <| pxQueueSetContainer := 0 |>)) ;!
      Ret true.
Definition xQueueSelectFromSet (xQueueSet xTicksToWait : Z) : QP Z :=
  let! r := xQueueReceive xQueueSet true xTicksToWait in
  Ret (from_option ptr_of_bytes 0 r).
Definition xQueueSelectFromSetFromISR (xQueueSet : Z) : QM Z :=
  let* (r, _) := xQueueReceiveFromISR xQueueSet true None in
  retM (from_option ptr_of_bytes 0 r).

(** ** For the timer task: called with the scheduler suspended *)
Definition vQueueWaitForMessageRestricted (xQueue xTicksToWait : Z) (xWaitIndefinitely : bool) : QP unit :=
  Atomic (prvLockQueue xQueue) ;!
  let! n := Atomic (q_get xQueue uxMessagesWaiting) in
  (if n =? 0 then
     Atomic (ker (vTaskPlaceOnEventListRestricted (WaitRecvL xQueue) xTicksToWait xWaitIndefinitely))
   else Ret tt) ;!
  prvUnlockQueue xQueue.

(** ** queue.h and semphr.h *)
Definition xQueueSendToFront q item ticks : QP bool := xQueueGenericSend q item ticks queueSEND_TO_FRONT.
Definition xQueueSendToBack q item ticks : QP bool := xQueueGenericSend q item ticks queueSEND_TO_BACK.
Definition xQueueSend q item ticks : QP bool := xQueueGenericSend q item ticks queueSEND_TO_BACK.
Definition xQueueOverwrite q item : QP bool := xQueueGenericSend q item 0 queueOVERWRITE.
Definition xQueueSendFromISR q item woken : QM (bool * option bool) :=
  xQueueGenericSendFromISR q item woken queueSEND_TO_BACK.
Definition xQueueReset (q : Z) : QM bool := xQueueGenericReset q false.
Definition xSemaphoreTake (q ticks : Z) : QP bool := xQueueSemaphoreTake q ticks.
Definition xSemaphoreGive (q : Z) : QP bool := xQueueGenericSend q None 0 queueSEND_TO_BACK.
Definition xSemaphoreTakeRecursive (q ticks : Z) : QP bool := xQueueTakeMutexRecursive q ticks.
Definition xSemaphoreGiveRecursive (q : Z) : QP bool := xQueueGiveMutexRecursive q.
Definition xSemaphoreGiveFromISR (q : Z) (woken : option bool) : QM (bool * option bool) := xQueueGiveFromISR q woken.
Definition xSemaphoreTakeFromISR (q : Z) (woken : option bool) : QM (option (list Z) * option bool) :=
  xQueueReceiveFromISR q false woken.
