(* ===== verification/QueueExample.v ===== *)
(** * A concrete system with queues

    The tasks of [TasksCheck] with the queue 7 (two messages of two bytes) and
    the counting semaphore 8, made by the creation functions before the kernel
    starts: what the witnesses about queues run on. *)
From S2P Require Import Prelude KList KListSpec Tasks TasksView TasksInv TasksOps TasksCreate TasksMachine TasksTrace TasksCheck.
From S2P Require Import TasksWaiters TasksFrame TasksBlind TasksDetach Prog Queue QueueData QueueOps QueueMachine QueueCalls.
From S2P Require Import SchedLock Heap4 QueueMgmt.
From Stdlib Require Import ZifyBool.

(** ** Checking the invariant of a concrete state *)
Definition detached_check (k : kernel) : bool :=
  bool_decide (map_Forall (λ t (_ : TCB_t), ready k t = true → event_in k t = None) (k_tcbs k)).
Lemma kgood_check idle k : kernel_check idle k = true → detached_check k = true → kgood idle k.
Proof.
  intros Hk%kernel_check_sound Hd%bool_decide_eq_true. pose proof (ko_inv _ _ _ Hk) as Hinv.
  exists (view_of k). split; [by apply kok_ksafe|]. intros t p Hp.
  destruct (in_list_tcb (ki_rep _ _ _ Hinv) _ _ Hp) as [x Hx]. simpl in Hx.
  apply (event_in_none k (view_of k) Hinv), (Hd t x Hx). by eapply ready_any.
Qed.

(** Queues without messages, with a storage area or as semaphores. *)
Lemma empty_queue_wf x :
  0 < uxLength x < MAX32 → 0 < uxItemSize x → uxMessagesWaiting x = 0 →
  -1 ≤ cRxLock x ≤ 127 → -1 ≤ cTxLock x ≤ 127 → Z.of_nat (length (q_storage x)) = uxLength x * uxItemSize x →
  uxItemSize x ≤ pcHead x → pcHead x + uxLength x * uxItemSize x + uxItemSize x < MAX32 →
  pcTail x = pcHead x + uxLength x * uxItemSize x → pcWriteTo x = pcHead x →
  pcReadFrom x = pcHead x + (uxLength x - 1) * uxItemSize x → queue_wf x.
Proof.
  intros Hl Hs Hm Hr Ht Ha Hh1 Hh2 Htl Hw Hrd. split; try done; [lia| |].
  - destruct (Z.eqb_spec (uxItemSize x) 0); [lia|]. exists (uxLength x - 1), 0. split; try done.
    + split; [lia|done].
    + split; lia.
    + rewrite Hm. replace (uxLength x - 1 + 1 + 0) with (uxLength x) by lia. by apply Z.mod_same; lia.
  - unfold is_mutex. by destruct (Z.eqb_spec (uxItemSize x) 0); [lia|].
Qed.

Definition raw : Queue_t := mkQueue 0 0 0 0 0 0 0 0 0 0 0 0 0 [].
Definition ok_state {S A} (s0 : S) (m : M S A) : S := final m s0.
Definition ex_queues : qsys :=
  final (let* _ := xQueueGenericCreateStatic 2 2 1000 [0; 0; 0; 0] 7 raw queueQUEUE_TYPE_BASE in
         let* _ := xQueueCreateCountingSemaphoreStatic 3 0 8 raw in
         ker (createTasks ex_tasks) ;> ker startKernel) (mkQsys zero_kernel ∅ (replicate 10 (mkRegistryItem None 0))).
Example ex_queues_run : (pxCurrentTCB (q_kernel ex_queues), (abs ex_queues) !! 7, (abs ex_queues) !! 8) =
  (Some 4, Some (mkA 2 []), Some (mkA 3 [])).
Proof. by vm_compute. Qed.

(** The two queues as they are made. *)
Definition made (q : Z) : Queue_t := default raw (q_objs ex_queues !! q).
Lemma ex_objs : q_objs ex_queues = <[7 := made 7]> (<[8 := made 8]> ∅).
Proof. by vm_compute. Qed.
Lemma ex_made_ok q : q = 7 ∨ q = 8 → queue_ok (q_kernel ex_queues) q (made q).
Proof.
  intros [-> | ->].
  - split; [apply empty_queue_wf; by vm_compute|done|by_eval|by_eval|by vm_compute|by vm_compute].
  - split; [|done|by_eval|by_eval|by vm_compute|by vm_compute]. split; by vm_compute.
Qed.
Lemma ex_queues_good : qgood 1 ex_queues.
Proof.
  split; [apply kgood_check; by vm_compute|by vm_compute|by vm_compute|by vm_compute|].
  rewrite ex_objs. intros q x Hq. apply lookup_insert_Some in Hq as [[<- <-]|[_ Hq]]; [apply ex_made_ok; auto|].
  apply lookup_insert_Some in Hq as [[<- <-]|[_ Hq]]; [apply ex_made_ok; auto|done].
Qed.
Lemma ex_queues_home t : home t ex_queues.
Proof.
  intros Hc. assert (pxCurrentTCB (q_kernel ex_queues) = Some 4) as H4 by by vm_compute.
  rewrite H4 in Hc. injection Hc as <-. split; [by vm_compute|right; by vm_compute].
Qed.
Lemma ex_runs : runs 4 ex_queues.
Proof. by vm_compute. Qed.

(** A message in the queue 7. *)
Definition ex_one : qsys := final (exec 1 (send_all 7 [[1; 2]])) ex_queues.
Lemma ex_queues_front : ex_queues = mkQsys (q_kernel ex_queues) (<[7 := made 7]> (<[8 := made 8]> ∅)) (xQueueRegistry ex_queues).
Proof. rewrite <- ex_objs. by destruct ex_queues. Qed.
Lemma ex_one_good : qgood 1 ex_one.
Proof.
  apply (wp_final (exec 1 (send_all 7 [[1; 2]])) (qgood 1) ex_queues). pose proof ex_queues_good as Hg.
  rewrite ex_queues_front in Hg |- *. eapply wp_mono.
  { apply (wp_send_all 1); [exact Hg|vm_compute; reflexivity| |vm_compute; discriminate].
    intros i [-> |Hi]%elem_of_cons; [vm_compute; reflexivity|by apply elem_of_nil in Hi]. }
  by intros bs s' (_ & k' & x' & -> & ? & _).
Qed.
(** Task 4 waits for a message, and task 2 holds the queue 7 locked. *)
Definition ex_locked : qsys :=
  final (ker vTaskSuspendAll ;> ker (vTaskPlaceOnEventList (WaitRecvL 7) 10) ;>
         let* _ := ker xTaskResumeAll in
         ker portYIELD_WITHIN_API ;> ker xPortPendSVHandler ;> ker vTaskSuspendAll ;> prvLockQueue 7) ex_queues.
Example ex_locked_run : (pxCurrentTCB (q_kernel ex_locked), waiters (q_kernel ex_locked) (WaitRecvL 7),
  cTxLock <$> q_objs ex_locked !! 7) = (Some 2, [4], Some 0).
Proof. by vm_compute. Qed.
Lemma ex_locked_objs : q_objs ex_locked = <[7 := locked_queue (made 7)]> (<[8 := made 8]> ∅).
Proof. by vm_compute. Qed.
Lemma ex_locked_good : qgood 1 ex_locked.
Proof.
  split; [apply kgood_check; by vm_compute|by vm_compute|by vm_compute|by vm_compute|].
  rewrite ex_locked_objs. intros q x Hq. apply lookup_insert_Some in Hq as [[<- <-]|[_ Hq]].
  - destruct (ex_made_ok 7) as [Hwf _ _ _ _ _]; [auto|].
    split; [by apply locked_queue_wf|done|by_eval|by_eval|by vm_compute|by vm_compute].
  - apply lookup_insert_Some in Hq as [[<- <-]|[_ Hq]]; [|done].
    destruct (ex_made_ok 8) as [Hwf _ _ _ _ _]; [auto|]. split; [done|done|by_eval|by_eval|by vm_compute|by vm_compute].
Qed.

(** A task goes on with its function until a switch is pending. *)
Fixpoint go {A} (fuel : nat) (p : QP A) (s : qsys) : QP A * qsys :=
  match fuel with
  | O => (p, s)
  | S fuel =>
      if pendsv (q_kernel s) then (p, s)
      else match step p s with ROk (p', s') => go fuel p' s' | _ => (p, s) end
  end.
Definition call {A} (p : QP A) (s : qsys) : qsys := snd (go 100 p s).
Definition kernel_op {A} (m : K A) (s : qsys) : qsys := final (ker m) s.
Definition switch : qsys → qsys := kernel_op xPortPendSVHandler.
Fixpoint pass (n : nat) (s : qsys) : qsys := match n with O => s | S n => pass n (kernel_op xPortSysTickHandler s) end.
Definition empty_sys : qsys := mkQsys zero_kernel ∅ (replicate 10 (mkRegistryItem None 0)).

(** ** A queue set misses messages

    Four tasks; the queue 7 of six messages in the set 9.  While a task holds the
    queue locked an interrupt sends six messages.  The lock count stops at the
    number of tasks, but unlocking notifies the set once per count: the set gets
    four handles for six messages, and two of them no [xQueueSelectFromSet] reports. *)
Definition set_locked : qsys :=
  final (let* _ := xQueueGenericCreateStatic 6 1 1000 (replicate 6 0) 7 raw queueQUEUE_TYPE_BASE in
         let* _ := xQueueCreateSetStatic 6 2000 (replicate 24 0) 9 raw in
         let* _ := xQueueAddToSet 7 9 in
         ker (createTasks ex_tasks) ;> ker startKernel ;> ker vTaskSuspendAll ;> prvLockQueue 7) empty_sys.
Fixpoint isr_sends (n : nat) : QM unit :=
  match n with
  | O => retM tt
  | S n => let* _ := xQueueGenericSendFromISR 7 (Some [Z.of_nat n]) None queueSEND_TO_BACK in isr_sends n
  end.
Definition set_after : qsys :=
  final (isr_sends 6 ;> exec 0 (unlock_and_resume 7)) set_locked.
Example queue_set_misses_messages :
  (uxMessagesWaiting <$> q_objs set_after !! 7, uxMessagesWaiting <$> q_objs set_after !! 9) = (Some 6, Some 4).
Proof. by_eval. Qed.

(** ** A mutex is given and a better task keeps waiting

    Tasks 2 (priority 1), 3 (priority 3), 4 (priority 5) and 5 (priority 0), the
    mutexes 7 and 8.  Task 2 takes both; 5 waits for 8; 4 waits for 7 and lets 2
    inherit its priority, then gives up, which leaves 2 its priority because it
    holds two mutexes.  When 2 gives 7 and then 8 back it falls to its own
    priority; the switch this needs is left out because somebody waited for 8. *)
Definition mutex_tasks : list (Z * Z * Z) := [(1, 101, 0); (2, 102, 1); (3, 103, 3); (4, 104, 5); (5, 105, 0)].
Definition mutex_boot : qsys :=
  final (exec 1 (xQueueCreateMutexStatic queueQUEUE_TYPE_MUTEX 7 raw) ;>
         exec 1 (xQueueCreateMutexStatic queueQUEUE_TYPE_MUTEX 8 raw) ;>
         ker (createTasks mutex_tasks) ;> ker startKernel) empty_sys.
Definition who (s : qsys) : option Z := pxCurrentTCB (q_kernel s).
Definition give (q : Z) : QP bool := xQueueGenericSend q None 0 queueSEND_TO_BACK.
Definition prio_of (s : qsys) (t : Z) : option Z := uxPriority <$> k_tcbs (q_kernel s) !! t.

(** 4 and 3 sleep five ticks, 2 takes both mutexes and sleeps two, 5 waits for 8. *)
Definition m1 : qsys := switch (kernel_op (vTaskDelay 5) (switch (kernel_op (vTaskDelay 5) mutex_boot))).
Definition m2 : qsys := switch (pass 1 (switch (kernel_op (vTaskDelay 2) (call (xSemaphoreTake 8 0) (call (xSemaphoreTake 7 0) m1))))).
Definition m3 : qsys := switch (pass 1 (switch (call (xSemaphoreTake 8 100) m2))).
(** At tick 5 task 4 runs and waits three ticks for 7; nobody gives it. *)
Definition m4 : qsys := switch (pass 3 m3).
Definition take7 : QP bool * qsys := go 100 (xSemaphoreTake 7 3) m4.
Definition m5 : qsys := switch (pass 3 (switch take7.2)).
Definition m6 : qsys := (go 100 take7.1 m5).2.
(** Task 4 sleeps and task 2 gives both mutexes back. *)
Definition m7 : qsys := switch (kernel_op (vTaskDelay 100) m6).
Definition m8 : qsys := call (give 8) (call (give 7) m7).

Example mutex_holder_keeps_inherited : (who m7, prio_of m7 2, ready (q_kernel m7) 3) = (Some 2, Some 5, true).
Proof. by_eval. Qed.
Example mutex_give_without_switch :
  (who m8, prio_of m8 2, prio_of m8 3, ready (q_kernel m8) 3, settled (q_kernel m8)) = (Some 2, Some 1, Some 3, true, true).
Proof. by_eval. Qed.

(** ** Overwriting a queue whose messages have no bytes

    A binary semaphore is a queue of one message of size 0.  [xQueueOverwrite] on it
    counts a message more each time: the "overwritten" one is not taken away. *)
Definition overwritten : qsys :=
  final (let* _ := xQueueGenericCreateStatic 1 0 0 [] 7 raw queueQUEUE_TYPE_BINARY_SEMAPHORE in
         ker (createTasks ex_tasks) ;> ker startKernel ;>
         (let* _ := exec 1 (xQueueOverwrite 7 None) in let* _ := exec 1 (xQueueOverwrite 7 None) in retM tt)) empty_sys.
Example overwrite_exceeds_length :
  (uxLength <$> q_objs overwritten !! 7, uxMessagesWaiting <$> q_objs overwritten !! 7) = (Some 1, Some 2).
Proof. by_eval. Qed.
