(* ===== verification/QueueProps.v ===== *)
(** * Properties of queues and semaphores

    That no interleaving of tasks and interrupts goes wrong and that the
    messages behave as bounded lists in each; what a call does to the messages
    and to the tasks that wait; that no wake-up is lost while a queue is locked. *)
From S2P Require Import Prelude KList Tasks TasksInv TasksTick TasksOps TasksCreate TasksMachine TasksWaiters TasksCheck.
From S2P Require Import TasksFrame TasksBlind TasksDetach Prog Queue QueueData QueueOps QueueMachine QueueCalls.
From S2P Require Import SchedLock Heap4 QueueMgmt QueueExample.
From Stdlib Require Import ZifyBool.

Section props.
Context (idle : Z).

(** C28: any number of tasks send, receive, peek, take and yield, with any
    interrupts between any two steps of theirs (the tick, the context switch,
    and handlers that send, give and receive): from a good state no step fails an
    assertion, follows a bad pointer or overruns a buffer, the invariant of the
    scheduler and of every queue holds, and each step changes the messages of the
    queues as an operation of a bounded list does. *)
Theorem queue_machine_safe s c :
  qgood idle s → (∀ t, home t s) → rtc (qstep idle) (mkConf s ∅) c →
  qgood idle (c_state c) ∧ no_failure runs irq irq_enabled c ∧
  ∀ c', qstep idle c c' → astep (abs (c_state c)) (abs (c_state c')).
Proof.
  intros Hg Hh Hr. destruct (queue_machine idle (mkConf s ∅) c) as [Hok Hnf]; [|done|].
  - split; [done|]. intros t. simpl. rewrite lookup_empty. apply Hh.
  - split_and!; [apply Hok|done|]. intros c' Hs. by eapply queue_machine_astep.
Qed.

(** C29: a call of [xQueueGenericSend] that finds room copies the message to its
    place and readies the first task that waits for one, asking for a switch when
    that task beats the caller; without room and time to wait it answers
    [errQUEUE_FULL] and changes nothing. *)
Theorem xQueueGenericSend_exact s q x item n pos :
  qgood idle s → uxSchedulerSuspended (q_kernel s) = 0 → q_objs s !! q = Some x →
  send_ok item pos x → has_room x pos = true ∨ n = 0 →
  wp (exec 1 (xQueueGenericSend q item n pos)) (λ r s', r = has_room x pos ∧ qgood idle s' ∧
    if has_room x pos then
      (∃ x', q_objs s' = <[q := x']> (q_objs s) ∧ same_queue x x' ∧
        messages x' = send_messages pos (payload x item) (messages x)) ∧
      woken_by (q_kernel s) (WaitRecvL q) (q_kernel s')
    else s' = s) s.
Proof.
  intros Hg Hs Hx Hok Hr. rewrite (state_front s q x Hx) in Hg |- *.
  apply (wp_send_call idle); [done|done|lia|done|done| |].
  - intros x' w k' -> Hup Hm Hw. destruct (woken_yield_good _ _ _ _ _ (qg_kernel _ _ Hg) Hw) as (? & ? & ?).
    split_and!; [done| | |by eapply woken_yield_by].
    + destruct (step_update idle (q_kernel s) k' (q_objs s) (xQueueRegistry s) q x x') as [? _]; [done|done|done|done|apply Hup|apply Hup|done].
    + exists x'. simpl. rewrite insert_insert_eq. split_and!; [done|apply Hup|done].
  - by intros ->.
Qed.

(** C30: [xQueueReceive] hands over the message at the front and readies the first
    task that waits for room; [xQueuePeek] hands it over and leaves it, readying
    the next task that waits for a message.  From an empty queue both answer
    [errQUEUE_EMPTY] at once when they may not wait. *)
Theorem xQueueReceive_exact s q x b n :
  qgood idle s → uxSchedulerSuspended (q_kernel s) = 0 → q_objs s !! q = Some x →
  receive_ok b x → messages x ≠ [] ∨ n = 0 →
  wp (exec 1 (xQueueReceive q b n)) (λ r s',
    match messages x with
    | [] => r = None ∧ s' = s
    | m :: ms => r = Some m ∧
        (∃ x', q_objs s' = <[q := x']> (q_objs s) ∧ same_queue x x' ∧ messages x' = ms) ∧
        woken_by (q_kernel s) (WaitSendL q) (q_kernel s')
    end) s ∧
  wp (exec 1 (xQueuePeek q b n)) (λ r s',
    match messages x with
    | [] => r = None ∧ s' = s
    | m :: ms => r = Some m ∧ q_objs s' = q_objs s ∧
        woken_by (q_kernel s) (WaitRecvL q) (q_kernel s')
    end) s.
Proof.
  intros Hg Hs Hx Hok Hr. pose proof (length_messages x) as Hl.
  rewrite (state_front s q x Hx) in Hg |- *.
  pose proof (qw_count _ (qo_wf _ _ _ (qgood_queue _ _ _ _ _ _ Hg))) as Hc.
  assert (0 < uxMessagesWaiting x ∨ n = 0) as Hr'.
  { destruct Hr as [Hne|]; [left|by right]. destruct (messages x); [done|]. simpl in Hl. lia. }
  assert (uxMessagesWaiting x = 0 → messages x = []) as H0.
  { intros Hz. rewrite Hz in Hl. by destruct (messages x). }
  split.
  - apply (wp_receive_call idle); [done|done|lia|done|done| |].
    + intros bs x' w k' [Hup ->] Hw. split_and!; [done| |by eapply woken_yield_by].
      exists x'. simpl. rewrite insert_insert_eq. split_and!; [done|apply Hup|done].
    + intros ->%H0. done.
  - apply (wp_peek_call idle); [done|done|lia|done|done| |].
    + intros bs ms w k' -> Hw. split_and!; [done|done|by eapply woken_yield_by].
    + intros ->%H0. done.
Qed.

(** C31: a task that sends to a full queue, or receives from an empty one, and may
    wait ends, if nothing interrupts it, blocked on the list of the queue's
    senders or receivers, with the queue unlocked, the scheduler running and a
    switch pending; the messages are as before. *)
Theorem queue_call_blocks s q x c item pos b n :
  qgood idle s → uxSchedulerSuspended (q_kernel s) = 0 → xPendedTicks (q_kernel s) = 0 →
  q_objs s !! q = Some x → cRxLock x = queueUNLOCKED → cTxLock x = queueUNLOCKED →
  pxCurrentTCB (q_kernel s) = Some c → ready (q_kernel s) c = true → c ≠ idle →
  (ucDelayAborted <$> k_tcbs (q_kernel s) !! c) = Some false → 0 < n < MAX32 →
  (send_ok item pos x → has_room x pos = false →
     reach (xQueueGenericSend q item n pos) s (waits_on idle q x c (WaitSendL q))) ∧
  (receive_ok b x → messages x = [] →
     reach (xQueueReceive q b n) s (waits_on idle q x c (WaitRecvL q))).
Proof.
  intros Hg Hs Hp Hx Hrx Htx Hc Hr Hne Ha Hn. pose proof (length_messages x) as Hl.
  rewrite (state_front s q x Hx) in Hg |- *.
  pose proof (qw_count _ (qo_wf _ _ _ (qgood_queue _ _ _ _ _ _ Hg))) as Hcnt. split.
  - intros Hok Hroom. by apply reach_send_waits.
  - intros Hok Hm. apply reach_receive_waits; try done. rewrite Hm in Hl. simpl in Hl. lia.
Qed.

(** C32: no wake-up is lost.  Messages that interrupts send while a task holds the
    queue locked (the scheduler suspended, its waiters out of reach) are counted,
    up to the number of tasks, and unlocking readies that many of the tasks that
    wait for a message. *)
Theorem locked_sends_wake s q x items :
  qgood idle s → uxSchedulerSuspended (q_kernel s) = 1 → q_objs s !! q = Some x →
  0 ≤ cTxLock x ≤ uxCurrentNumberOfTasks (q_kernel s) →
  (∀ i, i ∈ items → item_ok x (Some i) = true) →
  uxMessagesWaiting x + Z.of_nat (length items) ≤ uxLength x →
  wp (isr_burst q items ;> exec 0 (unlock_and_resume q)) (λ _ s',
    (∀ t, t ∈ take (Z.to_nat (Z.min (cTxLock x + Z.of_nat (length items)) (uxCurrentNumberOfTasks (q_kernel s))))
                   (waiters (q_kernel s) (WaitRecvL q)) → ready (q_kernel s') t = true) ∧
    qgood idle s' ∧ uxSchedulerSuspended (q_kernel s') = 0 ∧
    ∃ x', q_objs s' !! q = Some x' ∧ messages x' = messages x ++ (payload x ∘ Some <$> items) ∧
      cTxLock x' = queueUNLOCKED ∧ cRxLock x' = queueUNLOCKED) s.
Proof.
  intros Hg Hs Hx Hlock Hitems Hroom. rewrite (state_front s q x Hx) in Hg |- *. apply wp_bind.
  eapply wp_mono; [by apply wp_isr_burst|]. intros _ s' (x1 & -> & Hg1 & Hm & _ & Htx).
  eapply wp_mono; [by apply wp_unlock_and_resume|]. intros _ s' (Hg' & Hs' & Hready & k' & ->).
  split_and!; [|done|done|].
  - intros t Ht. apply Hready, elem_of_app. left. by rewrite Htx.
  - eexists. simpl. rewrite lookup_insert_eq. by split_and!.
Qed.

(** C33: messages come out as they went in: after sending any messages that fit
    into an empty queue, as many calls of [xQueueReceive] return them in order and
    leave the queue empty. *)
Theorem queue_round_trip s q x items :
  qgood idle s → uxSchedulerSuspended (q_kernel s) = 0 → q_objs s !! q = Some x → messages x = [] →
  (∀ i, i ∈ items → Z.of_nat (length i) = uxItemSize x) → Z.of_nat (length items) ≤ uxLength x →
  wp (exec 1 (send_all q items ;! receive_all q (length items))) (λ rs s',
    rs = Some <$> items ∧ ∃ x', q_objs s' !! q = Some x' ∧ messages x' = []) s.
Proof.
  intros Hg Hs Hx Hm Hitems Hroom. pose proof (length_messages x) as Hl. rewrite Hm in Hl. simpl in Hl.
  rewrite (state_front s q x Hx) in Hg |- *.
  pose proof (qw_count _ (qo_wf _ _ _ (qgood_queue _ _ _ _ _ _ Hg))) as Hcnt. cbn [exec].
  apply wp_bind. eapply wp_mono; [apply (wp_send_all idle); [done|done| |lia]|].
  { intros i Hi. unfold item_ok. rewrite (Hitems i Hi), Z.leb_refl. apply orb_true_r. }
  intros bs s' (_ & k' & x' & -> & Hg' & Hs' & Hsame & Hm'). rewrite Hm in Hm'. simpl in Hm'.
  assert ((payload x ∘ Some <$> items) = items) as Hpay.
  { rewrite <- (list_fmap_id items) at 2. apply list_fmap_ext. intros j i Hi. unfold payload. simpl.
    rewrite take_ge; [done|]. apply list_elem_of_lookup_2, Hitems in Hi. lia. }
  rewrite Hpay in Hm'. eapply wp_mono; [by apply (wp_receive_all idle)|].
  intros rs s' (-> & k2 & x2 & -> & _ & Hm2). split; [done|]. exists x2. simpl. by rewrite lookup_insert_eq.
Qed.
End props.

(** ** Witnesses *)
Lemma queue_machine_safe_witness :
  qstep 1 (mkConf ex_queues ∅) (mkConf ex_queues {[ 4 := code (CReceive 7 true 10) ]}) ∧
  no_failure runs irq irq_enabled (mkConf ex_queues {[ 4 := code (CReceive 7 true 10) ]}).
Proof.
  assert (qstep 1 (mkConf ex_queues ∅) (mkConf ex_queues {[ 4 := code (CReceive 7 true 10) ]})) as Hs.
  { apply (ms_call _ _ _ _ _ 4 (CReceive 7 true 10) (mkConf ex_queues ∅)); [apply ex_runs|done|].
    split; [|by split]. exists (made 7). by split; vm_compute. }
  split; [exact Hs|]. apply (queue_machine_safe 1 ex_queues _ ex_queues_good ex_queues_home). by apply rtc_once.
Defined.
Lemma xQueueGenericSend_exact_witness :
  wp (exec 1 (xQueueGenericSend 7 (Some [1; 2]) 0 queueSEND_TO_BACK)) (λ r s', r = true ∧
    messages <$> q_objs s' !! 7 = Some [[1; 2]]) ex_queues.
Proof.
  eapply wp_mono.
  { apply (xQueueGenericSend_exact 1 ex_queues 7 (made 7) (Some [1; 2]) 0 queueSEND_TO_BACK ex_queues_good);
      [by_eval|by_eval|by split; vm_compute|by right]. }
  intros r s'. replace (has_room (made 7) queueSEND_TO_BACK) with true by by_eval.
  intros (Hr & _ & (x' & Ho & _ & Hm) & _). split; [exact Hr|].
  rewrite Ho, lookup_insert_eq. simpl. rewrite Hm. by_eval.
Defined.
Lemma xQueueReceive_exact_witness :
  wp (exec 1 (xQueueReceive 7 true 0)) (λ r s', r = Some [1; 2] ∧ messages <$> q_objs s' !! 7 = Some []) ex_one.
Proof.
  assert (messages (default raw (q_objs ex_one !! 7)) = [[1; 2]]) as Hm by by_eval.
  destruct (xQueueReceive_exact 1 ex_one 7 (default raw (q_objs ex_one !! 7)) true 0 ex_one_good) as [Hw _];
    [by_eval|by_eval|by_eval|by right|]. rewrite Hm in Hw. eapply wp_mono; [exact Hw|].
  intros r s'. intros (-> & (x' & Ho & _ & Hm') & _). split; [done|].
  rewrite Ho, lookup_insert_eq. simpl. by rewrite Hm'.
Defined.
Lemma queue_call_blocks_witness :
  reach (xQueueReceive 7 true 10) ex_queues (λ s', event_in (q_kernel s') 4 = Some (WaitRecvL 7) ∧ pendsv (q_kernel s') = true).
Proof.
  destruct (queue_call_blocks 1 ex_queues 7 (made 7) 4 None queueSEND_TO_BACK true 10 ex_queues_good) as [_ H];
    [by_eval..|].
  destruct H as (p' & s' & Hs & Hw); [by_eval|by_eval|]. exists p', s'. split; [exact Hs|].
  split; [apply Hw|apply Hw].
Defined.
Lemma locked_sends_wake_witness :
  wp (isr_burst 7 [[1; 2]] ;> exec 0 (unlock_and_resume 7)) (λ _ s', ready (q_kernel s') 4 = true) ex_locked.
Proof.
  eapply wp_mono.
  { apply (locked_sends_wake 1 ex_locked 7 (locked_queue (made 7)) [[1; 2]] ex_locked_good);
      [by_eval|by_eval|by split; vm_compute| |by_eval].
    intros i [-> |Hi]%elem_of_cons; [by_eval|by apply elem_of_nil in Hi]. }
  intros _ s' (Hr & _). apply Hr. replace (waiters (q_kernel ex_locked) (WaitRecvL 7)) with [4] by by_eval.
  replace (Z.to_nat _) with 1%nat by by_eval. by left.
Defined.
Lemma queue_round_trip_witness :
  wp (exec 1 (send_all 7 [[1; 2]; [3; 4]] ;! receive_all 7 2)) (λ rs _, rs = [Some [1; 2]; Some [3; 4]]) ex_queues.
Proof.
  eapply wp_mono.
  { apply (queue_round_trip 1 ex_queues 7 (made 7) [[1; 2]; [3; 4]] ex_queues_good);
      [by_eval|by_eval|by_eval| |by_eval].
    intros i [-> |[-> |Hi]%elem_of_cons]%elem_of_cons; [by_eval..|by apply elem_of_nil in Hi]. }
  by intros rs s' (-> & _).
Defined.
