(* ===== verification/TaskNotify.v ===== *)
(** * Task notifications (tasks.c)

    Each task has an array of notification values with a state each: not
    waiting, waiting, received.  A task waits for its own notification without
    any event list; whoever notifies it readies it.  Functions that block are
    programs ([KP]) of the kernel's atomic steps. *)
From S2P Require Import Prelude KList Tasks Prog.

Abbreviation KP := (prog kernel).

(** ** Access to the arrays of a task *)
Definition notify_value (pxTCB ux : Z) : K Z := tcb_get pxTCB (λ x, nth (Z.to_nat ux) (ulNotifiedValue x) 0).
Definition notify_state (pxTCB ux : Z) : K Z := tcb_get pxTCB (λ x, nth (Z.to_nat ux) (ucNotifyState x) 0).
Definition set_notify_value (pxTCB ux : Z) (f : Z → Z) : K unit :=
  tcb_set pxTCB (λ x, x <| ulNotifiedValue ::= alter f (Z.to_nat ux) |>).
Definition set_notify_state (pxTCB ux st : Z) : K unit :=
  tcb_set pxTCB (λ x, x <| ucNotifyState ::= alter (λ _, st) (Z.to_nat ux) |>).
Definition assert_index (ux : Z) : K unit := configASSERT (ux <? configTASK_NOTIFICATION_ARRAY_ENTRIES).
(** [v & ~m] of two [uint32_t] *)
Definition and_not (v m : Z) : Z := Z.land v (wrap32 (Z.lnot m)).

(** ** Waiting *)

(** The part that suspends the scheduler: [check] is the critical section that
    decides whether to block, and marks the task as waiting. *)
Definition notify_block (check : K bool) (xTicksToWait : Z) : KP unit :=
  Atomic vTaskSuspendAll ;!
  let! xShouldBlock := Atomic (critical check) in
  (if xShouldBlock then Atomic (prvAddCurrentTaskToDelayedList xTicksToWait true) else Ret tt) ;!
  let! xAlreadyYielded := Atomic xTaskResumeAll in
  if xShouldBlock && negb xAlreadyYielded then Atomic portYIELD_WITHIN_API else Ret tt.

Definition take_check (ux : Z) : K bool :=
  let* cur := current in
  let* v := notify_value cur ux in
  if v =? 0 then set_notify_state cur ux taskWAITING_NOTIFICATION ;> retM true else retM false.
(** The critical section at the end of [ulTaskGenericNotifyTake]. *)
Definition take_finish (ux : Z) (xClearCountOnExit : bool) : K Z :=
  let* cur := current in
  let* ulReturn := notify_value cur ux in
  (when negb (ulReturn =? 0) then
     set_notify_value cur ux (λ _, if xClearCountOnExit then 0 else wrap32 (ulReturn - 1))) ;>
  set_notify_state cur ux taskNOT_WAITING_NOTIFICATION ;>
  retM ulReturn.

Definition ulTaskGenericNotifyTake (uxIndexToWaitOn : Z) (xClearCountOnExit : bool) (xTicksToWait : Z) : KP Z :=
  Atomic (assert_index uxIndexToWaitOn) ;!
  let! v := Atomic (let* cur := current in notify_value cur uxIndexToWaitOn) in
  (if (v =? 0) && (0 <? xTicksToWait) then notify_block (take_check uxIndexToWaitOn) xTicksToWait else Ret tt) ;!
  Atomic (critical (take_finish uxIndexToWaitOn xClearCountOnExit)).

Definition wait_check (ux ulBitsToClearOnEntry : Z) : K bool :=
  let* cur := current in
  let* st := notify_state cur ux in
  if negb (st =? taskNOTIFICATION_RECEIVED) then
    set_notify_value cur ux (λ v, and_not v ulBitsToClearOnEntry) ;>
    set_notify_state cur ux taskWAITING_NOTIFICATION ;>
    retM true
  else retM false.
(** The critical section at the end of [xTaskGenericNotifyWait]: [xReturn] and what
    is written to [*pulNotificationValue] where that is not [NULL]. *)
Definition wait_finish (ux ulBitsToClearOnExit : Z) : K (bool * Z) :=
  let* cur := current in
  let* v := notify_value cur ux in
  let* st := notify_state cur ux in
  let* xReturn :=
    (if negb (st =? taskNOTIFICATION_RECEIVED) then retM false
     else set_notify_value cur ux (λ v, and_not v ulBitsToClearOnExit) ;> retM true) in
  set_notify_state cur ux taskNOT_WAITING_NOTIFICATION ;>
  retM (xReturn, v).

Definition xTaskGenericNotifyWait (uxIndexToWaitOn ulBitsToClearOnEntry ulBitsToClearOnExit xTicksToWait : Z) : KP (bool * Z) :=
  Atomic (assert_index uxIndexToWaitOn) ;!
  let! st := Atomic (let* cur := current in notify_state cur uxIndexToWaitOn) in
  (if negb (st =? taskNOTIFICATION_RECEIVED) && (0 <? xTicksToWait)
   then notify_block (wait_check uxIndexToWaitOn ulBitsToClearOnEntry) xTicksToWait else Ret tt) ;!
  Atomic (critical (wait_finish uxIndexToWaitOn ulBitsToClearOnExit)).

(** ** Notifying *)

(** The [switch] over the action: answers [xReturn].  The default case asserts that
    the tick count is 0. *)
Definition notify_action (pxTCB ux ulValue : Z) (eAction : eNotifyAction) (ucOriginalNotifyState : Z) : K bool :=
  match eAction with
  | eSetBits => set_notify_value pxTCB ux (λ v, Z.lor v ulValue) ;> retM true
  | eIncrement => set_notify_value pxTCB ux (λ v, wrap32 (v + 1)) ;> retM true
  | eSetValueWithOverwrite => set_notify_value pxTCB ux (λ _, ulValue) ;> retM true
  | eSetValueWithoutOverwrite =>
      if negb (ucOriginalNotifyState =? taskNOTIFICATION_RECEIVED)
      then set_notify_value pxTCB ux (λ _, ulValue) ;> retM true else retM false
  | eNoAction => retM true
  | eOtherAction => let* k := getM in configASSERT (xTickCount k =? 0) ;> retM true
  end.
(** [configASSERT( listLIST_ITEM_CONTAINER( &( pxTCB->xEventListItem ) ) == NULL )] *)
Definition assert_no_event_list (pxTCB : Z) : K unit :=
  let* c := kl (listLIST_ITEM_CONTAINER (EventItem pxTCB)) in
  configASSERT (bool_decide (c = None)).

(** Answers [xReturn] and what is written to [*pulPreviousNotificationValue]. *)
Definition xTaskGenericNotify (xTaskToNotify : option Z) (uxIndexToNotify ulValue : Z) (eAction : eNotifyAction) : K (bool * Z) :=
  assert_index uxIndexToNotify ;>
  configASSERT (bool_decide (is_Some xTaskToNotify)) ;>
  let* pxTCB := derefM xTaskToNotify in
  critical (
    let* ulPrevious := notify_value pxTCB uxIndexToNotify in
    let* ucOriginalNotifyState := notify_state pxTCB uxIndexToNotify in
    set_notify_state pxTCB uxIndexToNotify taskNOTIFICATION_RECEIVED ;>
    let* xReturn := notify_action pxTCB uxIndexToNotify ulValue eAction ucOriginalNotifyState in
    (when ucOriginalNotifyState =? taskWAITING_NOTIFICATION then
       kl (listREMOVE_ITEM (StateItem pxTCB)) ;>
       prvAddTaskToReadyList pxTCB ;>
       assert_no_event_list pxTCB ;>
       taskYIELD_ANY_CORE_IF_USING_PREEMPTION pxTCB) ;>
    retM (xReturn, ulPrevious)).

(** How an interrupt readies the notified task: answers the flag
    [*pxHigherPriorityTaskWoken]. *)
Definition notify_ready_from_isr (pxTCB : Z) (pxHigherPriorityTaskWoken : option bool) : K (option bool) :=
  assert_no_event_list pxTCB ;>
  let* k := getM in
  (if uxSchedulerSuspended k =? 0 then
     kl (listREMOVE_ITEM (StateItem pxTCB)) ;>
     prvAddTaskToReadyList pxTCB
   else kl (listINSERT_END PendingReadyL (EventItem pxTCB))) ;>
  let* b := preempts pxTCB in
  if b then setYieldPending ;> retM ((λ _, true) <$> pxHigherPriorityTaskWoken)
  else retM pxHigherPriorityTaskWoken.

Definition xTaskGenericNotifyFromISR (xTaskToNotify : option Z) (uxIndexToNotify ulValue : Z) (eAction : eNotifyAction)
    (pxHigherPriorityTaskWoken : option bool) : K (bool * Z * option bool) :=
  configASSERT (bool_decide (is_Some xTaskToNotify)) ;>
  assert_index uxIndexToNotify ;>
  let* pxTCB := derefM xTaskToNotify in
  let* ulPrevious := notify_value pxTCB uxIndexToNotify in
  let* ucOriginalNotifyState := notify_state pxTCB uxIndexToNotify in
  set_notify_state pxTCB uxIndexToNotify taskNOTIFICATION_RECEIVED ;>
  let* xReturn := notify_action pxTCB uxIndexToNotify ulValue eAction ucOriginalNotifyState in
  let* woken :=
    (if ucOriginalNotifyState =? taskWAITING_NOTIFICATION
     then notify_ready_from_isr pxTCB pxHigherPriorityTaskWoken else retM pxHigherPriorityTaskWoken) in
  retM (xReturn, ulPrevious, woken).

Definition vTaskGenericNotifyGiveFromISR (xTaskToNotify : option Z) (uxIndexToNotify : Z)
    (pxHigherPriorityTaskWoken : option bool) : K (option bool) :=
  configASSERT (bool_decide (is_Some xTaskToNotify)) ;>
  assert_index uxIndexToNotify ;>
  let* pxTCB := derefM xTaskToNotify in
  let* ucOriginalNotifyState := notify_state pxTCB uxIndexToNotify in
  set_notify_state pxTCB uxIndexToNotify taskNOTIFICATION_RECEIVED ;>
  set_notify_value pxTCB uxIndexToNotify (λ v, wrap32 (v + 1)) ;>
  if ucOriginalNotifyState =? taskWAITING_NOTIFICATION
  then notify_ready_from_isr pxTCB pxHigherPriorityTaskWoken else retM pxHigherPriorityTaskWoken.

(** ** Clearing *)
Definition task_or_current (xTask : option Z) : K Z :=
  let* h := prvGetTCBFromHandle xTask in
  configASSERT (bool_decide (is_Some h)) ;> derefM h.
Definition xTaskGenericNotifyStateClear (xTask : option Z) (uxIndexToClear : Z) : K bool :=
  assert_index uxIndexToClear ;>
  let* pxTCB := task_or_current xTask in
  critical (
    let* st := notify_state pxTCB uxIndexToClear in
    if st =? taskNOTIFICATION_RECEIVED
    then set_notify_state pxTCB uxIndexToClear taskNOT_WAITING_NOTIFICATION ;> retM true else retM false).
Definition ulTaskGenericNotifyValueClear (xTask : option Z) (uxIndexToClear ulBitsToClear : Z) : K Z :=
  assert_index uxIndexToClear ;>
  let* pxTCB := task_or_current xTask in
  critical (
    let* ulReturn := notify_value pxTCB uxIndexToClear in
    set_notify_value pxTCB uxIndexToClear (λ v, and_not v ulBitsToClear) ;>
    retM ulReturn).
