(* ===== verification/NotifyOps.v ===== *)
(** * What a notification does

    The arrays of notification values and states; the invariant of the scheduler
    while no task waits for an event other than a notification; a notification
    sent by a task or an interrupt changes one entry, and readies the task that
    waits for it. *)
From S2P Require Import Prelude KList KListSpec KListProps Tasks TasksView TasksInv TasksTick TasksBlock TasksResume TasksOps.
From S2P Require Import TasksEvents TasksMachine TasksWaiters TasksFrame TasksBlind TasksDetach Prog TaskNotify.
From Stdlib Require Import ZifyBool.

(** ** The arrays *)
Definition entries : nat := Z.to_nat configTASK_NOTIFICATION_ARRAY_ENTRIES.
(** Task [t] waits, or has decided to, for its entry [n]. *)
Definition waiting (k : kernel) (t : Z) (n : nat) : Prop :=
  ∃ vs st, notes k t = Some (vs, st) ∧ st !! n = Some taskWAITING_NOTIFICATION.
(** The kernel with other arrays of task [t]. *)
Definition noted (t : Z) (vs st : list Z) (k : kernel) : kernel :=
  k <| k_tcbs ::= alter (λ x, x <| ulNotifiedValue := vs |> <| ucNotifyState := st |>) t |>.

Lemma notes_tcb k t vs st : notes k t = Some (vs, st) ↔
  ∃ x, k_tcbs k !! t = Some x ∧ ulNotifiedValue x = vs ∧ ucNotifyState x = st.
Proof. unfold notes. destruct (k_tcbs k !! t) as [x|]; naive_solver. Qed.
Lemma notes_noted k t vs st u :
  notes (noted t vs st k) u = if decide (u = t) then (λ _, (vs, st)) <$> notes k t else notes k u.
Proof.
  unfold notes, noted. simpl. case_decide as Hu; [subst u; rewrite lookup_alter_eq|by rewrite lookup_alter_ne].
  by destruct (k_tcbs k !! t).
Qed.
Lemma noted_insert k t x vs st : k_tcbs k !! t = Some x →
  noted t vs st k = k <| k_tcbs ::= <[t := x <| ulNotifiedValue := vs |> <| ucNotifyState := st |>]> |>.
Proof.
  intros Hx. unfold noted, set_field. f_equal. apply map_eq. intros u. destruct (decide (t = u)) as [<-|].
  - by rewrite lookup_alter_eq, lookup_insert_eq, Hx.
  - by rewrite lookup_alter_ne, lookup_insert_ne.
Qed.
Lemma noted_twice k t vs st vs' st' : noted t vs' st' (noted t vs st k) = noted t vs' st' k.
Proof.
  unfold noted, set_field. simpl. f_equal. apply map_eq. intros u. destruct (decide (t = u)) as [<-|].
  - rewrite !lookup_alter_eq. by destruct (k_tcbs k !! t).
  - by rewrite !lookup_alter_ne.
Qed.
Lemma noted_same k t vs st : notes k t = Some (vs, st) → noted t vs st k = k.
Proof.
  intros (x & Hx & <- & <-)%notes_tcb. rewrite (noted_insert _ _ _ _ _ Hx). destruct k as [? T]. unfold set_field. simpl in *. f_equal.
  apply insert_id. rewrite Hx. by destruct x.
Qed.

(** *** Access to the arrays *)
Section access.
Context (k : kernel) (t : Z) (vs st : list Z) (Hn : notes k t = Some (vs, st)).

Lemma wp_notify_value ux (Q : Z → kernel → Prop) : Q (nth (Z.to_nat ux) vs 0) k → wp (notify_value t ux) Q k.
Proof. destruct (proj1 (notes_tcb _ _ _ _) Hn) as (x & Hx & <- & <-). intros HQ. by eapply wp_tcb_get. Qed.
Lemma wp_notify_state ux (Q : Z → kernel → Prop) : Q (nth (Z.to_nat ux) st 0) k → wp (notify_state t ux) Q k.
Proof. destruct (proj1 (notes_tcb _ _ _ _) Hn) as (x & Hx & <- & <-). intros HQ. by eapply wp_tcb_get. Qed.
Lemma wp_set_notify_value ux f (Q : unit → kernel → Prop) :
  Q tt (noted t (alter f (Z.to_nat ux) vs) st k) → wp (set_notify_value t ux f) Q k.
Proof.
  destruct (proj1 (notes_tcb _ _ _ _) Hn) as (x & Hx & <- & <-). intros HQ. eapply wp_tcb_set; [exact Hx|].
  rewrite (noted_insert _ _ _ _ _ Hx) in HQ. replace (x <| ulNotifiedValue ::= alter f (Z.to_nat ux) |>)
    with (x <| ulNotifiedValue := alter f (Z.to_nat ux) (ulNotifiedValue x) |> <| ucNotifyState := ucNotifyState x |>); [done|].
  by destruct x.
Qed.
Lemma wp_set_notify_state ux z (Q : unit → kernel → Prop) :
  Q tt (noted t vs (alter (λ _, z) (Z.to_nat ux) st) k) → wp (set_notify_state t ux z) Q k.
Proof.
  destruct (proj1 (notes_tcb _ _ _ _) Hn) as (x & Hx & <- & <-). intros HQ. eapply wp_tcb_set; [exact Hx|].
  rewrite (noted_insert _ _ _ _ _ Hx) in HQ. replace (x <| ucNotifyState ::= alter (λ _, z) (Z.to_nat ux) |>)
    with (x <| ulNotifiedValue := ulNotifiedValue x |> <| ucNotifyState := alter (λ _, z) (Z.to_nat ux) (ucNotifyState x) |>); [done|].
  by destruct x.
Qed.
End access.
Lemma alter_at {A} (f : A → A) n (l : list A) x : l !! n = Some x → alter f n l = <[n := f x]> l.
Proof.
  revert n. induction l as [|y l IH]; intros [|n]; simpl; intros Hx; simplify_eq; [done|]. f_equal. by apply IH.
Qed.

(** ** The scheduler's invariant here: nobody waits for an event *)
Definition only_pending (v : lview) : Prop := ∀ t l, in_list v (EventItem t) l → l = PendingReadyL.
#[export] Instance side_only_pending : Side only_pending.
Proof.
  split.
  - intros T ts v v' Hv Hw t l Hl. apply Hw in Hl. simpl in Hl. case_decide; [by destruct Hl|]. by eapply Hv.
  - intros v v' Hv Hs t l Hl%Hs. by eapply Hv.
Qed.

Section notify.
Context (idle : Z).
Abbreviation ngood := (sgood idle only_pending).

Lemma ngood_no_event k t : ngood k → uxSchedulerSuspended k = 0 → event_in k t = None.
Proof.
  intros (v & [Hinv _]%ksafe_kinv & Hp) Hs. apply (event_in_none k v Hinv). intros l Hl. pose proof (Hp _ _ Hl) as ->.
  apply in_list_vitems in Hl. rewrite (is_zero _ _ _ (ki_susp _ _ _ Hinv) Hs) in Hl. by apply not_elem_of_nil in Hl.
Qed.
Lemma ngood_event k t l : ngood k → event_in k t = Some l → l = PendingReadyL.
Proof. intros (v & [Hinv _]%ksafe_kinv & Hp) Hl%(event_in_iff k v Hinv). by eapply Hp. Qed.

(** *** Other notes *)
Lemma ready_noted k t vs st u : ready (noted t vs st k) u = ready k u.
Proof.
  unfold ready, prio, noted. simpl. destruct (decide (t = u)) as [<-|]; [|by rewrite lookup_alter_ne].
  rewrite lookup_alter_eq. by destruct (k_tcbs k !! t).
Qed.
Lemma above_noted k t vs st u : prio_above_current (noted t vs st k) u ↔ prio_above_current k u.
Proof.
  assert (∀ w, uxPriority <$> k_tcbs (noted t vs st k) !! w = uxPriority <$> k_tcbs k !! w) as He.
  { intros w. unfold noted. simpl. destruct (decide (t = w)) as [<-|]; [|by rewrite lookup_alter_ne].
    rewrite lookup_alter_eq. by destruct (k_tcbs k !! t). }
  assert (∀ K, prio_above_current K u ↔ ∃ c p q, pxCurrentTCB K = Some c ∧
    uxPriority <$> k_tcbs K !! c = Some p ∧ uxPriority <$> k_tcbs K !! u = Some q ∧ p < q) as Hp.
  { intros K. unfold prio_above_current. setoid_rewrite fmap_Some. naive_solver. }
  rewrite !Hp. by setoid_rewrite He.
Qed.
Lemma ngood_noted k t vs st : ngood k → ngood (noted t vs st k).
Proof.
  intros (v & [Hinv Hi]%ksafe_kinv & Hp). apply (sgood_intro _ _ _ v); [|done|done].
  destruct (k_tcbs k !! t) as [x|] eqn:Hx.
  - rewrite (noted_insert _ _ _ _ _ Hx). eapply kinv_tcb; [exact Hinv|exact Hx|done|].
    pose proof (ki_prio _ _ _ Hinv _ _ Hx) as Hpr. simpl in Hpr |- *. lia.
  - replace (noted t vs st k) with k; [done|]. unfold noted, set_field. destruct k as [? T]. simpl in *. f_equal.
    apply map_eq. intros u. destruct (decide (t = u)) as [<-|]; [by rewrite lookup_alter_eq, Hx|by rewrite lookup_alter_ne].
Qed.
Lemma kinv_pend_noted k t vs st : pxCurrentTCB (noted t vs st k) = pxCurrentTCB k ∧
  uxSchedulerSuspended (noted t vs st k) = uxSchedulerSuspended k ∧ pendsv (noted t vs st k) = pendsv k ∧
  ∀ u, event_in (noted t vs st k) u = event_in k u.
Proof. by split_and!. Qed.

(** *** Readying the notified task *)
(** Task [t] has been readied, or is to be when the scheduler is resumed. *)
Record roused (k : kernel) (t : Z) (k' : kernel) : Prop := {
  rz_good : ngood k';
  rz_frame : frame k k';
  rz_kept : kept_ready k k';
  rz_ready : ready k' t = true ∧ event_in k' t = event_in k t ∨
    uxSchedulerSuspended k ≠ 0 ∧ event_in k' t = Some PendingReadyL;
  rz_others u : u ≠ t → event_in k' u = event_in k u ∧ state_in k' u = state_in k u;
  rz_tcbs : k_tcbs k' = k_tcbs k;
  rz_tick : xTickCount k' = xTickCount k
}.

Lemma wp_ready_notified k t x : ngood k → k_tcbs k !! t = Some x → 
  wp (kl (listREMOVE_ITEM (StateItem t)) ;> prvAddTaskToReadyList t)
    (λ _ k', roused k t k' ∧ ready k' t = true ∧ ∀ u, event_in k' u = event_in k u) k.
Proof.
  intros (v & Hk & Hp) Hx.
  eapply (wp_mono _ (λ _ k', (ngood (pend k') ∧ kept_ready k (pend k') ∧ ready (pend k') t = true ∧
    k_tcbs (pend k') = k_tcbs k ∧ xTickCount (pend k') = xTickCount k ∧ (∀ u, event_in (pend k') u = event_in k u) ∧
    ∀ u, u ≠ t → state_in (pend k') u = state_in k u) ∧ frame k k')).
  { apply wp_frame; [intros; solve_keeps|]. apply (wp_ksafe k (kl (listREMOVE_ITEM (StateItem t)) ;> prvAddTaskToReadyList t)
      (λ _ k', ngood k' ∧ kept_ready k k' ∧ ready k' t = true ∧ k_tcbs k' = k_tcbs k ∧ xTickCount k' = xTickCount k ∧
        (∀ u, event_in k' u = event_in k u) ∧ ∀ u, u ≠ t → state_in k' u = state_in k u)).
    { solve_blind. }
    pose proof (ko_inv _ _ _ Hk) as Hinv. eapply (wp_ready_task idle (pend k) v t x); [exact Hk|exact Hx| |].
    { intros l R Hl HR. eapply wp_remove_cases; [exact Hinv|exact Hl|exact HR]. }
    intros k' v' Hinv' -> (s & top & Heq) Hi _.
    assert (is_Some (rings v !! ReadyL (uxPriority x))) as HR.
    { apply list_ready; [apply Hinv|]. pose proof (ki_prio _ _ _ Hinv _ _ Hx). simpl in *. lia. }
    destruct (krep_vrem _ _ _ (StateItem t) (ki_rep _ _ _ Hinv)) as [s1 Hk1].
    pose proof (λ i l, in_list_vready _ _ _ _ t (uxPriority x) i l (ki_rep _ _ _ Hinv) Hk1 HR) as Hmem.
    assert (∀ u l, in_list (vready t (uxPriority x) v) (EventItem u) l ↔ in_list v (EventItem u) l) as Hev.
    { intros u l. rewrite Hmem. naive_solver. }
    split_and!.
    - apply (sgood_intro _ _ _ (vready t (uxPriority x) v)); [done|done|]. intros u l Hl%Hev. by eapply Hp.
    - eapply (views_kept_ready (pend k)); [exact Hinv|exact Hinv'|]. intros u p Hu.
      destruct (decide (u = t)) as [->|Hne]; [exists (uxPriority x); apply Hmem; by left|].
      exists p. apply Hmem. right. split; [done|congruence].
    - destruct (ready_any k' _ Hinv' t (uxPriority x)) as [? _]; [|done]. apply Hmem. by left.
    - by rewrite Heq.
    - by rewrite Heq.
    - intros u. apply option_eq. intros l. pose proof (event_in_iff k' _ Hinv' u l) as E1.
      pose proof (event_in_iff (pend k) v Hinv u l) as E2. rewrite E1, Hev. symmetry. exact E2.
    - intros u Hne. apply option_eq. intros l. pose proof (state_in_iff k' _ Hinv' u l) as E1.
      pose proof (state_in_iff (pend k) v Hinv u l) as E2. rewrite E1, Hmem.
      transitivity (in_list v (StateItem u) l); [naive_solver|symmetry; exact E2]. }
  intros _ k' (([w Hg] & Hkr & Hr & HT & Htk & He & Hst) & Hf). split; [split|]; [by exists w|done|done|by left; split; [|apply He]| |done|done|by split_and!].
  intros u Hne. split; [apply He|by apply Hst].
Qed.

Lemma wp_no_event_list k t x (Q : unit → kernel → Prop) :
  ngood k → k_tcbs k !! t = Some x → event_in k t = None → Q tt k → wp (assert_no_event_list t) Q k.
Proof.
  intros (v & [Hinv _]%ksafe_kinv & _) Hx He HQ. unfold assert_no_event_list. apply wp_bind, wp_kl.
  eapply ws_container; [apply Hinv|simpl; eauto|]. intros c Hc.
  replace (k <| k_lists := k_lists k |>) with k by by destruct k.
  apply wp_assert; [|done]. apply bool_decide_eq_true. destruct c as [l|]; [|done].
  pose proof (proj1 (Hc l) eq_refl) as Hl. apply (event_in_iff k v Hinv) in Hl. congruence.
Qed.
Lemma roused_yield k t k' k2 : roused k t k' → k_lists k2 = k_lists k' → k_tcbs k2 = k_tcbs k' → xTickCount k2 = xTickCount k' →
  frame k' k2 → ngood k2 → roused k t k2.
Proof.
  intros [Hg Hf Hkr Hr Ho HT0 Htk0] HL HT Htk Hf2 Hg2.
  assert (∀ u, ready k2 u = ready k' u) as Hrd by (intros u; unfold ready, prio, state_in; by rewrite HL, HT).
  assert (∀ u, event_in k2 u = event_in k' u) as Hev by (intros u; unfold event_in; by rewrite HL).
  split; [done|by etrans| | | |congruence|congruence].
  - intros u Hu. rewrite Hrd. by apply Hkr.
  - by rewrite Hrd, Hev.
  - intros u Hu. rewrite Hev. unfold state_in. rewrite HL. by apply Ho.
Qed.
Lemma ngood_pendsv k b : ngood k → ngood (k <| pendsv := b |>).
Proof. intros (v & [Hinv Hi]%ksafe_kinv & Hp). apply (sgood_intro _ _ _ v); [by apply kinv_pendsv|done|done]. Qed.
Lemma ngood_yield k : ngood k → ngood (k <| xYieldPendings := true |>).
Proof. intros (v & [Hinv Hi]%ksafe_kinv & Hp). apply (sgood_intro _ _ _ v); [by apply kinv_yield|done|done]. Qed.

(** From a task *)
Lemma wp_rouse k t x : ngood k → k_tcbs k !! t = Some x → event_in k t = None →
  wp (kl (listREMOVE_ITEM (StateItem t)) ;> prvAddTaskToReadyList t ;> assert_no_event_list t ;>
      taskYIELD_ANY_CORE_IF_USING_PREEMPTION t) (λ _ k', roused k t k' ∧ ready k' t = true ∧
        (pendsv k' = true ↔ pendsv k = true ∨ prio_above_current k t)) k.
Proof.
  intros Hg Hx He. apply (wp_bind_assoc _ (λ _, prvAddTaskToReadyList t)), wp_bind.
  eapply wp_mono; [apply (wp_pendsv (kl (listREMOVE_ITEM (StateItem t)) ;> prvAddTaskToReadyList t)); [intros; solve_blind|by apply (wp_ready_notified k t x)]|].
  intros _ k' ((Hz & Hr & Hev) & Hpd). pose proof (rz_tcbs _ _ _ Hz) as HT.
  assert (k_tcbs k' !! t = Some x) as Hx' by by rewrite HT.
  apply wp_bind. apply (wp_no_event_list k' t x); [apply Hz|done|by rewrite Hev|].
  destruct (rz_good _ _ _ Hz) as (v' & [Hinv' _]%ksafe_kinv & _).
  assert (prio_above_current k' t ↔ prio_above_current k t) as Hab.
  { unfold prio_above_current. by rewrite HT, (fr_current _ _ (fr_frame0 _ _ (rz_frame _ _ _ Hz))). }
  apply (wp_taskYIELD_ANY k' v' t x); [done|done| |].
  - intros Ha. split_and!; [|done|]; [|split; [|done]; intros _; right; by apply Hab].
    eapply roused_yield; [exact Hz|done|done|done|split; [by split|done]|apply ngood_pendsv, Hz].
  - intros Hna. split_and!; [exact Hz|done|]. rewrite Hpd. split; [by left|]. intros [?|Ha]; [done|]. destruct Hna. by apply Hab.
Qed.

(** From an interrupt *)
Lemma wp_pend_notified k t x : ngood k → k_tcbs k !! t = Some x → event_in k t = None → uxSchedulerSuspended k ≠ 0 →
  wp (kl (listINSERT_END PendingReadyL (EventItem t))) (λ _ k', roused k t k' ∧
    event_in k' t = Some PendingReadyL ∧ pendsv k' = pendsv k) k.
Proof.
  intros (v & [Hinv Hi]%ksafe_kinv & Hp) Hx He Hs.
  assert (wp (kl (listINSERT_END PendingReadyL (EventItem t))) (λ _ k',
    (∃ s, k' = k <| k_lists := s |> ∧ krep s (k_tcbs k) (vend PendingReadyL (EventItem t) v)) ∧ frame k k') k) as Hw.
  { apply wp_frame; [intros; solve_keeps|]. apply wp_kl.
    eapply ws_listINSERT_END; [apply Hinv|by apply (event_in_none k v Hinv)|simpl; eauto| |intros s Hk; by exists s].
    apply list_fixed; [apply Hinv|set_solver]. }
  eapply wp_mono; [exact Hw|]. intros _ k' ((s & -> & Hk) & Hf).
  assert (is_Some (rings v !! PendingReadyL)) as HR by (apply list_fixed; [apply Hinv|set_solver]).
  pose proof (λ j l, in_list_vend (ki_rep _ _ _ Hinv) (EventItem t) j PendingReadyL l HR) as Hmem.
  assert (kinv (k <| k_lists := s |>) (vend PendingReadyL (EventItem t) v)) as Hinv' by (by apply kinv_enter_event).
  assert (∀ u l, event_in (k <| k_lists := s |>) u = Some l ↔ (u = t ∧ l = PendingReadyL) ∨ event_in k u = Some l) as Hev.
  { intros u l. rewrite (event_in_iff _ _ Hinv' u l), (event_in_iff _ _ Hinv u l), Hmem. naive_solver. }
  assert (event_in (k <| k_lists := s |>) t = Some PendingReadyL) as Het by (apply Hev; by left).
  split_and!; [|done|done]. split; [|done| |by right| |done|done].
  - apply (sgood_intro _ _ _ (vend PendingReadyL (EventItem t) v)); [done| |].
    + destruct Hi as [p Hl]. exists p. apply Hmem. by right.
    + intros u l [[_ ->]|Hl]%Hmem; [done|by eapply Hp].
  - eapply views_kept_ready; [exact Hinv|exact Hinv'|]. intros u p Hl. exists p. apply Hmem. by right.
  - intros u Hne. split; apply option_eq; intros l; [rewrite Hev; naive_solver|].
    rewrite (state_in_iff _ _ Hinv' u l), (state_in_iff _ _ Hinv u l), Hmem. naive_solver.
Qed.
Lemma wp_rouse_from_isr k t x w : ngood k → k_tcbs k !! t = Some x → event_in k t = None →
  wp (notify_ready_from_isr t w) (λ w' k', roused k t k' ∧
    (uxSchedulerSuspended k = 0 → ready k' t = true) ∧
    (uxSchedulerSuspended k ≠ 0 → event_in k' t = Some PendingReadyL) ∧
    (w' = Some true ↔ w = Some true ∨ is_Some w ∧ prio_above_current k t) ∧ pendsv k' = pendsv k) k.
Proof.
  intros Hg Hx He. unfold notify_ready_from_isr. apply wp_bind. apply (wp_no_event_list k t x); [done..|].
  apply wp_bind, wp_getM, wp_bind.
  apply (wp_mono _ (λ _ k', roused k t k' ∧
    (uxSchedulerSuspended k = 0 → ready k' t = true) ∧
    (uxSchedulerSuspended k ≠ 0 → event_in k' t = Some PendingReadyL) ∧ pendsv k' = pendsv k)).
  { destruct (Z.eqb_spec (uxSchedulerSuspended k) 0) as [Hz|Hnz].
    - eapply wp_mono; [apply (wp_pendsv (kl (listREMOVE_ITEM (StateItem t)) ;> prvAddTaskToReadyList t)); [intros; solve_blind|by apply (wp_ready_notified k t x)]|].
      intros _ k' ((Hr & Hrd & _) & Hpd). by split_and!.
    - eapply wp_mono; [by apply (wp_pend_notified k t x)|]. intros _ k' (? & ? & ?). by split_and!. }
  intros _ k' (Hz & Hr0 & Hr1 & Hpd). pose proof (rz_tcbs _ _ _ Hz) as HT. assert (k_tcbs k' !! t = Some x) as Hx' by by rewrite HT.
  destruct (rz_good _ _ _ Hz) as (v' & [Hinv' _]%ksafe_kinv & _).
  assert (prio_above_current k' t ↔ prio_above_current k t) as Hab.
  { unfold prio_above_current. by rewrite HT, (fr_current _ _ (fr_frame0 _ _ (rz_frame _ _ _ Hz))). }
  apply wp_bind. eapply (wp_preempts_iff k' v' t x); [done|done|]. intros b Hb. rewrite Hab in Hb. destruct b.
  - apply wp_bind, wp_setYieldPending, wp_ret. split_and!; try done.
    + eapply roused_yield; [exact Hz|done|done|done|split; [by split|done]|apply ngood_yield, Hz].
    + destruct w as [b|]; simpl; [|naive_solver]. split; [|done]. intros _. right. split; [done|by apply Hb].
  - apply wp_ret. split_and!; try done. split; [by left|]. intros [?|[_ ?%Hb]]; done.
Qed.

(** ** Notifying *)
(** What the action makes of the value, [received] telling whether a notification
    is there already; and whether the call succeeds. *)
Definition new_value (eAction : eNotifyAction) (received : bool) (ulValue old : Z) : Z :=
  match eAction with
  | eSetBits => Z.lor old ulValue
  | eIncrement => wrap32 (old + 1)
  | eSetValueWithOverwrite => ulValue
  | eSetValueWithoutOverwrite => if received then old else ulValue
  | eNoAction | eOtherAction => old
  end.
Definition notify_succeeds (eAction : eNotifyAction) (received : bool) : bool :=
  match eAction with eSetValueWithoutOverwrite => negb received | _ => true end.

(** Entry [n] of task [t], in state [s0], has been notified and is [new]. *)
Record notified (k : kernel) (t : Z) (vs st : list Z) (n : nat) (new s0 : Z) (k' : kernel) : Prop := {
  nd_good : ngood k';
  nd_notes u : notes k' u = if decide (u = t) then Some (<[n := new]> vs, <[n := taskNOTIFICATION_RECEIVED]> st) else notes k u;
  nd_kept : kept_ready k k';
  nd_current : pxCurrentTCB k' = pxCurrentTCB k;
  nd_susp : uxSchedulerSuspended k' = uxSchedulerSuspended k;
  nd_pendsv : pendsv k = true → pendsv k' = true;
  nd_woken : s0 = taskWAITING_NOTIFICATION →
    ready k' t = true ∧ event_in k' t = event_in k t ∨ uxSchedulerSuspended k ≠ 0 ∧ event_in k' t = Some PendingReadyL;
  nd_quiet : s0 ≠ taskWAITING_NOTIFICATION → event_in k' t = event_in k t;
  nd_others u : u ≠ t → event_in k' u = event_in k u;
  nd_states u : u ≠ t ∨ s0 ≠ taskWAITING_NOTIFICATION → state_in k' u = state_in k u;
  nd_tcbs : k_tcbs k' = k_tcbs (noted t (<[n := new]> vs) (<[n := taskNOTIFICATION_RECEIVED]> st) k);
  nd_tick : xTickCount k' = xTickCount k
}.

Section one.
Context (k : kernel) (t : Z) (vs st : list Z) (ux old s0 : Z).
Context (Hg : ngood k) (Hn : notes k t = Some (vs, st)) (Hux : ux < configTASK_NOTIFICATION_ARRAY_ENTRIES).
Abbreviation n := (Z.to_nat ux).
Context (Hv : vs !! n = Some old) (Hs : st !! n = Some s0) (Hw : waiting k t n → event_in k t = None).

Lemma noted_notes vs' st' : notes (noted t vs' st' k) t = Some (vs', st').
Proof. rewrite notes_noted, decide_True, Hn by done. done. Qed.
Lemma kept_noted vs' st' : kept_ready k (noted t vs' st' k).
Proof. intros u Hu. by rewrite ready_noted. Qed.

(** The entry alone changes. *)
Lemma notified_noted new : s0 ≠ taskWAITING_NOTIFICATION →
  notified k t vs st n new s0 (noted t (<[n := new]> vs) (<[n := taskNOTIFICATION_RECEIVED]> st) k).
Proof.
  intros Hne. split; try done; [by apply ngood_noted| |apply kept_noted].
  intros u. rewrite notes_noted. case_decide; [by rewrite Hn|done].
Qed.
Lemma notified_roused new k' :
  roused (noted t (<[n := new]> vs) (<[n := taskNOTIFICATION_RECEIVED]> st) k) t k' → s0 = taskWAITING_NOTIFICATION →
  notified k t vs st n new s0 k'.
Proof.
  intros [Hg' [Hf Hsu] Hkr Hr Ho HT Htk] He. split; [done| | | |done| |done|done| | |done|done].
  - intros u. rewrite (fr_notes _ _ Hf), notes_noted. case_decide; [by rewrite Hn|done].
  - etrans; [apply kept_noted|exact Hkr].
  - by rewrite (fr_current _ _ Hf).
  - intros Hp. by apply (fr_pendsv _ _ Hf).
  - intros u Hu. by apply Ho.
  - intros u [Hu|?]; [by apply Ho|done].
Qed.

Lemma wp_notify_action v ea st' (Q : bool → kernel → Prop) : ea ≠ eOtherAction →
  Q (notify_succeeds ea (s0 =? taskNOTIFICATION_RECEIVED))
    (noted t (<[n := new_value ea (s0 =? taskNOTIFICATION_RECEIVED) v old]> vs) st' k) →
  wp (notify_action t ux v ea s0) Q (noted t vs st' k).
Proof.
  intros Hea HQ. pose proof (noted_notes vs st') as Hn'. pose proof (alter_at (A := Z)) as Ha.
  assert (∀ f r, Q r (noted t (<[n := f old]> vs) st' k) → wp (set_notify_value t ux f ;> retM r) Q (noted t vs st' k)) as Hset.
  { intros f r Hr. apply wp_bind. eapply wp_set_notify_value; [exact Hn'|]. apply wp_ret. by rewrite (Ha _ _ _ _ Hv), noted_twice. }
  assert (∀ r, Q r (noted t (<[n := old]> vs) st' k) → wp (retM r) Q (noted t vs st' k)) as Hret.
  { intros r Hr. apply wp_ret. by rewrite list_insert_id in Hr. }
  destruct ea; simpl in *; try (by apply Hset || by apply Hret); [|done].
  destruct (s0 =? taskNOTIFICATION_RECEIVED); [by apply Hret|by apply Hset].
Qed.

(** The notification from a task, and its answer. *)
Lemma wp_xTaskGenericNotify v ea : ea ≠ eOtherAction →
  wp (xTaskGenericNotify (Some t) ux v ea) (λ r k',
    r = (notify_succeeds ea (s0 =? taskNOTIFICATION_RECEIVED), old) ∧
    notified k t vs st n (new_value ea (s0 =? taskNOTIFICATION_RECEIVED) v old) s0 k' ∧
    (s0 = taskWAITING_NOTIFICATION → ready k' t = true ∧ (pendsv k' = true ↔ pendsv k = true ∨ prio_above_current k t)) ∧
    (s0 ≠ taskWAITING_NOTIFICATION → pendsv k' = pendsv k)) k.
Proof.
  intros Hea. unfold xTaskGenericNotify, critical. apply wp_bind, wp_assert; [by apply Z.ltb_lt|].
  apply wp_bind, wp_assert; [done|]. apply wp_bind. eapply wp_deref; [done|].
  apply wp_bind. eapply wp_notify_value; [exact Hn|]. apply wp_bind. eapply wp_notify_state; [exact Hn|].
  rewrite (nth_lookup_Some _ _ _ _ Hv), (nth_lookup_Some _ _ _ _ Hs).
  apply wp_bind. eapply wp_set_notify_state; [exact Hn|]. rewrite (alter_at _ _ _ _ Hs).
  apply wp_bind. apply wp_notify_action; [done|].
  set (k1 := noted t (<[n := new_value ea (s0 =? taskNOTIFICATION_RECEIVED) v old]> vs) (<[n := taskNOTIFICATION_RECEIVED]> st) k).
  apply wp_bind. destruct (Z.eqb_spec s0 taskWAITING_NOTIFICATION) as [He|Hne]; simpl.
  - assert (event_in k t = None) as Hev by (apply Hw; exists vs, st; by rewrite <- He).
    destruct (proj1 (notes_tcb _ _ _ _) (noted_notes (<[n := new_value ea (s0 =? taskNOTIFICATION_RECEIVED) v old]> vs) (<[n := taskNOTIFICATION_RECEIVED]> st))) as (x1 & Hx1 & _).
    eapply wp_mono; [apply (wp_rouse k1 t x1); [by apply ngood_noted|exact Hx1|exact Hev]|].
    intros _ k' (Hz & Hr & Hp). apply wp_ret. split_and!; [done|by apply notified_roused| |done].
    intros _. split; [done|]. rewrite Hp. unfold k1. by rewrite above_noted.
  - apply wp_ret, wp_ret. split_and!; [done|by apply notified_noted|done|done].
Qed.

(** The notifications from an interrupt. *)
Definition roused_by_isr (k' : kernel) : Prop := s0 = taskWAITING_NOTIFICATION →
  (uxSchedulerSuspended k = 0 → ready k' t = true) ∧
  (uxSchedulerSuspended k ≠ 0 → event_in k' t = Some PendingReadyL).
Lemma notify_ready_part v' w :
  let k1 := noted t (<[n := v']> vs) (<[n := taskNOTIFICATION_RECEIVED]> st) k in
  wp (if s0 =? taskWAITING_NOTIFICATION then notify_ready_from_isr t w else retM w)
    (λ w' k', notified k t vs st n v' s0 k' ∧ pendsv k' = pendsv k ∧ roused_by_isr k' ∧
      (w' = Some true ↔ w = Some true ∨ is_Some w ∧ s0 = taskWAITING_NOTIFICATION ∧ prio_above_current k t)) k1.
Proof.
  intros k1. destruct (Z.eqb_spec s0 taskWAITING_NOTIFICATION) as [He|Hne].
  - assert (event_in k t = None) as Hev by (apply Hw; exists vs, st; by rewrite <- He).
    destruct (proj1 (notes_tcb _ _ _ _) (noted_notes (<[n := v']> vs) (<[n := taskNOTIFICATION_RECEIVED]> st))) as (x1 & Hx1 & _).
    eapply wp_mono; [apply (wp_rouse_from_isr k1 t x1 w); [by apply ngood_noted|exact Hx1|exact Hev]|].
    intros w' k' (Hz & Hr0 & Hr1 & Hww & Hp). split_and!; [by apply notified_roused|by rewrite Hp|by intros _|].
    rewrite Hww. unfold k1. rewrite above_noted. naive_solver.
  - apply wp_ret. split_and!; [by apply notified_noted|done|done|]. naive_solver.
Qed.
Lemma wp_xTaskGenericNotifyFromISR v ea w : ea ≠ eOtherAction →
  wp (xTaskGenericNotifyFromISR (Some t) ux v ea w) (λ r k',
    r.1 = (notify_succeeds ea (s0 =? taskNOTIFICATION_RECEIVED), old) ∧
    notified k t vs st n (new_value ea (s0 =? taskNOTIFICATION_RECEIVED) v old) s0 k' ∧ pendsv k' = pendsv k ∧
    roused_by_isr k' ∧ (r.2 = Some true ↔ w = Some true ∨ is_Some w ∧ s0 = taskWAITING_NOTIFICATION ∧ prio_above_current k t)) k.
Proof.
  intros Hea. unfold xTaskGenericNotifyFromISR. apply wp_bind, wp_assert; [done|].
  apply wp_bind, wp_assert; [by apply Z.ltb_lt|]. apply wp_bind. eapply wp_deref; [done|].
  apply wp_bind. eapply wp_notify_value; [exact Hn|]. apply wp_bind. eapply wp_notify_state; [exact Hn|].
  rewrite (nth_lookup_Some _ _ _ _ Hv), (nth_lookup_Some _ _ _ _ Hs).
  apply wp_bind. eapply wp_set_notify_state; [exact Hn|]. rewrite (alter_at _ _ _ _ Hs).
  apply wp_bind. apply wp_notify_action; [done|]. apply wp_bind.
  eapply wp_mono; [apply notify_ready_part|]. intros w' k' (? & ? & ? & ?). by apply wp_ret.
Qed.
Lemma wp_vTaskGenericNotifyGiveFromISR w :
  wp (vTaskGenericNotifyGiveFromISR (Some t) ux w) (λ w' k',
    notified k t vs st n (wrap32 (old + 1)) s0 k' ∧ pendsv k' = pendsv k ∧
    roused_by_isr k' ∧ (w' = Some true ↔ w = Some true ∨ is_Some w ∧ s0 = taskWAITING_NOTIFICATION ∧ prio_above_current k t)) k.
Proof.
  unfold vTaskGenericNotifyGiveFromISR. apply wp_bind, wp_assert; [done|].
  apply wp_bind, wp_assert; [by apply Z.ltb_lt|]. apply wp_bind. eapply wp_deref; [done|].
  apply wp_bind. eapply wp_notify_state; [exact Hn|]. rewrite (nth_lookup_Some _ _ _ _ Hs).
  apply wp_bind. eapply wp_set_notify_state; [exact Hn|]. rewrite (alter_at _ _ _ _ Hs).
  apply wp_bind. eapply wp_set_notify_value; [apply noted_notes|]. rewrite (alter_at _ _ _ _ Hv), noted_twice.
  apply notify_ready_part.
Qed.
End one.
End notify.
