(* ===== verification/NotifyMachine.v ===== *)
(** * Tasks and interrupts that notify each other

    The machine of [Prog] for the task notifications: any number of tasks wait
    for their own notifications with or without a time-out and notify others,
    interrupts notify, the tick and the context switch come between any two
    steps.  The invariant of every run has the fact that no wake-up is lost: a
    task that is not ready, nor about to be readied, waits for an entry that
    nothing has come to. *)
From S2P Require Import Prelude KList KListSpec KListProps Tasks TasksView TasksInv TasksTick TasksBlock TasksResume TasksOps.
From S2P Require Import TasksEvents TasksMachine TasksWaiters TasksFrame TasksBlind TasksDetach Prog TaskNotify NotifyOps.
From Stdlib Require Import ZifyBool.

(** ** The abstract state: the values of each task *)
Definition abs (k : kernel) : gmap Z (list Z) := ulNotifiedValue <$> k_tcbs k.
(** A notification comes in; a count is taken; bits are cleared. *)
Inductive nstep (a : gmap Z (list Z)) : gmap Z (list Z) → Prop :=
| n_quiet : nstep a a
| n_notify t vs n old eAction received v : a !! t = Some vs → vs !! n = Some old →
    nstep a (<[t := <[n := new_value eAction received v old]> vs]> a)
| n_take t vs n old (clear : bool) : a !! t = Some vs → vs !! n = Some old → old ≠ 0 →
    nstep a (<[t := <[n := if clear then 0 else wrap32 (old - 1)]> vs]> a)
| n_clear t vs n old m : a !! t = Some vs → vs !! n = Some old →
    nstep a (<[t := <[n := and_not old m]> vs]> a).

Lemma abs_notes k t : abs k !! t = fst <$> notes k t.
Proof. unfold abs, notes. rewrite lookup_fmap. by destruct (k_tcbs k !! t). Qed.
Lemma abs_same k k' : (∀ t, notes k' t = notes k t) → abs k' = abs k.
Proof. intros He. apply map_eq. intros t. by rewrite !abs_notes, He. Qed.
Lemma abs_changed k k' t vs st : (∀ u, notes k' u = if decide (u = t) then Some (vs, st) else notes k u) →
  abs k' = <[t := vs]> (abs k).
Proof.
  intros He. apply map_eq. intros u. rewrite abs_notes, He. case_decide as Hu.
  - subst u. by rewrite lookup_insert_eq.
  - by rewrite lookup_insert_ne, abs_notes.
Qed.

(** ** The machine *)
Definition nruns (t : Z) (k : kernel) : Prop := pxCurrentTCB k = Some t ∧ pendsv k = false.

Inductive ncall :=
| NTake (ux : Z) (clear : bool) (ticks : Z)
| NWait (ux entry exit ticks : Z)
| NNotify (t ux v : Z) (eAction : eNotifyAction)
| NYield.
Definition ncode (c : ncall) : KP unit :=
  match c with
  | NTake ux clear ticks => let! _ := ulTaskGenericNotifyTake ux clear ticks in Ret tt
  | NWait ux entry exit ticks => let! _ := xTaskGenericNotifyWait ux entry exit ticks in Ret tt
  | NNotify t ux v eAction => let! _ := Atomic (xTaskGenericNotify (Some t) ux v eAction) in Ret tt
  | NYield => Atomic portYIELD_WITHIN_API
  end.
(** The handlers end in [portYIELD_FROM_ISR( xHigherPriorityTaskWoken )]. *)
Inductive nirq :=
| NTick
| NPendSV
| NNotifyISR (t ux v : Z) (eAction : eNotifyAction)
| NGiveISR (t ux : Z).
Definition yield_if (w : option bool) : K unit :=
  when (match w with Some true => true | _ => false end) then portYIELD_WITHIN_API.
Definition nhandler (i : nirq) : K unit :=
  match i with
  | NTick => xPortSysTickHandler
  | NPendSV => xPortPendSVHandler
  | NNotifyISR t ux v eAction =>
      let* (_, w) := xTaskGenericNotifyFromISR (Some t) ux v eAction (Some false) in yield_if w
  | NGiveISR t ux => let* w := vTaskGenericNotifyGiveFromISR (Some t) ux (Some false) in yield_if w
  end.

(** The rules of the API: the task and the entry exist, the action is one of the
    documented ones, and the idle task does not block. *)
Definition entry_ok (ux : Z) : Prop := 0 ≤ ux < configTASK_NOTIFICATION_ARRAY_ENTRIES.
Definition target_ok (t ux : Z) (eAction : eNotifyAction) (k : kernel) : Prop :=
  is_Some (notes k t) ∧ entry_ok ux ∧ eAction ≠ eOtherAction.
Definition may_wait (idle t ticks : Z) : Prop := 0 ≤ ticks < MAX32 ∧ (ticks ≠ 0 → t ≠ idle).
Definition ncall_enabled (idle t : Z) (c : ncall) (k : kernel) : Prop :=
  match c with
  | NTake ux _ ticks | NWait ux _ _ ticks => entry_ok ux ∧ may_wait idle t ticks
  | NNotify u ux _ eAction => target_ok u ux eAction k
  | NYield => True
  end.
Definition nirq_enabled (i : nirq) (k : kernel) : Prop :=
  match i with
  | NTick => True
  | NPendSV => pendsv k = true
  | NNotifyISR t ux _ eAction => target_ok t ux eAction k
  | NGiveISR t ux => target_ok t ux eIncrement k
  end.

(** ** Invariant and interference *)
Section machine.
Context (idle : Z).
Abbreviation ngood := (sgood idle only_pending).

Record ninv (k : kernel) : Prop := {
  nv_good : ngood k;
  nv_susp : 0 ≤ uxSchedulerSuspended k ≤ 1;
  nv_size t vs st : notes k t = Some (vs, st) → length vs = entries ∧ length st = entries;
  nv_single t n m : waiting k t n → waiting k t m → n = m;
  nv_quiet t n : waiting k t n → event_in k t = None;
  nv_blocked t : is_Some (notes k t) → ready k t = false → event_in k t = Some PendingReadyL ∨ ∃ n, waiting k t n
}.
(** While task [t] holds the scheduler lock. *)
Record nlocked (t : Z) (k k' : kernel) : Prop := {
  nl_pending : event_in k t = Some PendingReadyL → event_in k' t = Some PendingReadyL;
  nl_waiting n : waiting k t n → waiting k' t n ∨ event_in k' t = Some PendingReadyL;
  nl_none : (∀ n, ¬ waiting k t n) → event_in k t = None → event_in k' t = None
}.
Record nenv (t : Z) (k k' : kernel) : Prop := {
  ne_kernel : kenv t k k';
  ne_tasks u : is_Some (notes k u) → is_Some (notes k' u);
  ne_waiting n : waiting k' t n → waiting k t n;
  ne_locked : pxCurrentTCB k = Some t → uxSchedulerSuspended k = 1 → nlocked t k k';
  ne_abs : nstep (abs k) (abs k')
}.
Abbreviation nsafe := (safe nruns ninv nenv).

Lemma nlocked_refl t k : nlocked t k k.
Proof. split; auto. Qed.
Lemma nenv_refl t k : nenv t k k.
Proof. split; [apply kenv_refl|done|done|intros _ _; apply nlocked_refl|constructor]. Qed.

(** The entries are as they were. *)
Lemma waiting_same k k' : (∀ t, notes k' t = notes k t) → ∀ t n, waiting k' t n ↔ waiting k t n.
Proof. intros He t n. unfold waiting. by rewrite He. Qed.
(** A step that leaves the entries alone. *)
Lemma ninv_quiet k k' : ninv k → ngood k' → (∀ t, notes k' t = notes k t) → 0 ≤ uxSchedulerSuspended k' ≤ 1 →
  (∀ t, event_in k t = None → event_in k' t = None) →
  (∀ t, is_Some (notes k t) → ready k' t = false → event_in k' t = Some PendingReadyL ∨ ∃ n, waiting k t n) → ninv k'.
Proof.
  intros [_ _ Hz H1 Hq _] Hg Hn Hs He Hb. pose proof (waiting_same k k' Hn) as Hw. split; [done|done| | | |].
  - intros t vs st. rewrite Hn. apply Hz.
  - intros t n m Hwn%Hw Hwm%Hw. by eapply H1.
  - intros t n Hwn%Hw. by eapply He, Hq.
  - intros t. rewrite Hn. intros Ht Hr. destruct (Hb t Ht Hr) as [?|[n Hwn]]; [by left|right]. exists n. by apply Hw.
Qed.
(** One that no item moves for, other than to a ready list. *)
Lemma ninv_kept k k' : ninv k → ngood k' → (∀ t, notes k' t = notes k t) →
  uxSchedulerSuspended k' = uxSchedulerSuspended k → kept_ready k k' → (∀ t, event_in k' t = event_in k t) →
  ninv k' ∧ ∀ t, kenv t k k' → nenv t k k'.
Proof.
  intros Hi Hg Hn Hs Hr He. pose proof (waiting_same k k' Hn) as Hw. split.
  - apply (ninv_quiet k); [done..|rewrite Hs; apply Hi|intros t; by rewrite He|].
    intros t Ht Hb. rewrite He. apply Hi; [done|]. destruct (ready k t) eqn:Hrt; [|done]. rewrite Hr in Hb by done. done.
  - intros t Hk. split; [done|intros u; by rewrite Hn|intros n; apply Hw| |rewrite (abs_same k k' Hn); constructor].
    intros _ _. split; rewrite ?He; [done|intros n ?; left; by apply Hw|done].
Qed.

(** ** The interrupts *)
Lemma wp_tick_events k : ngood k → wp xPortSysTickHandler
  (λ _ k', (ngood k' ∧ kept_ready k k') ∧ frame k k' ∧ ∀ t, event_in k' t = event_in k t) k.
Proof.
  intros Hg. destruct (decide (uxSchedulerSuspended k = 0)) as [Hz|Hnz].
  - eapply wp_mono; [apply wp_frame; [auto with keeps|]; by apply (sg_tick idle only_pending)|].
    intros _ k' [[Hg' Hr] Hf]. split_and!; [done|done|done|]. intros t.
    rewrite (ngood_no_event idle k t Hg Hz). apply (ngood_no_event idle); [done|]. by rewrite (fr_susp _ _ Hf).
  - assert (wp xPortSysTickHandler (λ _ k', k_lists k' = k_lists k) k) as Hl.
    { unfold xPortSysTickHandler, xTaskIncrementTick. apply wp_bind, wp_bind, wp_getM.
      destruct (Z.eqb_spec (uxSchedulerSuspended k) 0); [done|]. by apply wp_bind, wp_modify, wp_bind, wp_ret, wp_ret, wp_ret. }
    destruct (wp_ok _ _ _ Hl) as ([] & k' & Hrun & HL).
    assert (wp xPortSysTickHandler (λ _ k', (ngood k' ∧ kept_ready k k') ∧ frame k k') k) as Hw.
    { apply wp_frame; [auto with keeps|]. by apply (sg_tick idle only_pending). }
    eapply wp_intro; [exact Hrun|]. eapply wp_run in Hw; [|exact Hrun]. destruct Hw as [? ?]. split_and!; [apply H|apply H|done|].
    intros t. unfold event_in. by rewrite HL.
Qed.
Lemma n_tick k : ninv k → wp xPortSysTickHandler (λ _ k', ninv k' ∧ ∀ t, nenv t k k') k.
Proof.
  intros Hi. eapply wp_mono; [by apply wp_tick_events, Hi|]. intros _ k' ((Hg & Hr) & Hf & He).
  destruct (ninv_kept k k') as [Hi' Hn]; [done|done|apply Hf|apply Hf|done|done|]. split; [done|].
  intros t. by apply Hn, kenv_irq.
Qed.
Lemma n_switch k : ninv k → wp xPortPendSVHandler (λ _ k', ninv k' ∧ ∀ t, nenv t k k') k.
Proof.
  intros Hi. eapply wp_mono; [by apply (sg_switch idle only_pending), Hi|].
  intros _ k' (Hg & Hr & Hs & HT & _ & _ & _ & He & Hc).
  destruct (ninv_kept k k') as [Hi' Hn]; [done|done|intros t; unfold notes; by rewrite HT|done|done|done|].
  split; [done|]. intros t. by apply Hn, kenv_switch.
Qed.

(** ** A notification *)
Section notified.
Context (k : kernel) (t : Z) (vs st : list Z) (n : nat) (old new s0 : Z) (k' : kernel).
Context (Hi : ninv k) (Hn : notes k t = Some (vs, st)) (Hv : vs !! n = Some old) (Hs : st !! n = Some s0).
Context (Hd : notified idle k t vs st n new s0 k').

Lemma waiting_entry : waiting k t n ↔ s0 = taskWAITING_NOTIFICATION.
Proof. split; [intros (? & ? & ? & ?); congruence|]. intros He. exists vs, st. by rewrite <- He. Qed.
Lemma waiting_notified u m : waiting k' u m ↔ waiting k u m ∧ ¬ (u = t ∧ m = n).
Proof.
  unfold waiting. rewrite (nd_notes _ _ _ _ _ _ _ _ _ Hd). case_decide as Hu; [subst u|naive_solver].
  split.
  - intros (? & ? & ? & Hm). simplify_eq. destruct (decide (m = n)) as [->|Hne].
    + rewrite list_lookup_insert_eq in Hm; [done|]. by eapply lookup_lt_Some.
    + rewrite list_lookup_insert_ne in Hm by done. split; [by exists vs, st|]. by intros [_ ?].
  - intros [(? & ? & ? & Hm) Hne]. simplify_eq. eexists _, _. split; [done|].
    rewrite list_lookup_insert_ne; [done|]. intros <-. by apply Hne.
Qed.
(** The entry is not the one the task waits for. *)
Lemma event_kept m : waiting k t m → m ≠ n → event_in k' t = event_in k t.
Proof.
  intros Hm Hne. apply (nd_quiet _ _ _ _ _ _ _ _ _ Hd). intros Hw%waiting_entry. apply Hne. by eapply (nv_single _ Hi).
Qed.
Lemma pending_kept u : event_in k u = Some PendingReadyL → event_in k' u = Some PendingReadyL.
Proof.
  intros He. destruct (decide (u = t)) as [->|Hne]; [|by rewrite (nd_others _ _ _ _ _ _ _ _ _ Hd)].
  rewrite (nd_quiet _ _ _ _ _ _ _ _ _ Hd); [done|]. intros Hw%waiting_entry. apply (nv_quiet _ Hi) in Hw. congruence.
Qed.

Lemma ninv_notified : ninv k'.
Proof.
  split; [apply Hd|rewrite (nd_susp _ _ _ _ _ _ _ _ _ Hd); apply Hi| | | |].
  - intros u vs' st'. rewrite (nd_notes _ _ _ _ _ _ _ _ _ Hd). case_decide; [|apply Hi]. intros [= <- <-].
    rewrite !length_insert. by eapply Hi.
  - intros u m1 m2 [? _]%waiting_notified [? _]%waiting_notified. by eapply Hi.
  - intros u m [Hw Hne]%waiting_notified. destruct (decide (u = t)) as [->|Hu].
    + rewrite (event_kept m); [by eapply Hi|done|]. intros ->. by apply Hne.
    + rewrite (nd_others _ _ _ _ _ _ _ _ _ Hd) by done. by eapply Hi.
  - intros u Hu Hr. assert (is_Some (notes k u)) as Hu0.
    { rewrite (nd_notes _ _ _ _ _ _ _ _ _ Hd) in Hu. case_decide; [subst u; by rewrite Hn|done]. }
    assert (ready k u = false) as Hr0.
    { destruct (ready k u) eqn:Hru; [|done]. apply (nd_kept _ _ _ _ _ _ _ _ _ Hd) in Hru. congruence. }
    destruct (nv_blocked _ Hi u Hu0 Hr0) as [He|[m Hm]]; [left; by apply pending_kept|].
    destruct (decide (u = t ∧ m = n)) as [[-> ->]|Hne].
    + left. apply waiting_entry in Hm. destruct (nd_woken _ _ _ _ _ _ _ _ _ Hd Hm) as [[? _]|[_ ?]]; [congruence|done].
    + right. exists m. by apply waiting_notified.
Qed.

Lemma nenv_notified u : kenv u k k' → nstep (abs k) (<[t := <[n := new]> vs]> (abs k)) →
  (pxCurrentTCB k = Some u → uxSchedulerSuspended k = 1 → u = t → s0 = taskWAITING_NOTIFICATION → event_in k' t = Some PendingReadyL) →
  nenv u k k'.
Proof.
  intros Hk Hst Hl. split; [done| | | |].
  - intros w. rewrite (nd_notes _ _ _ _ _ _ _ _ _ Hd). case_decide; [done|done].
  - by intros m [? _]%waiting_notified.
  - intros Hc H1. split; [apply pending_kept| |].
    + intros m Hm. destruct (decide (u = t ∧ m = n)) as [[-> ->]|Hne].
      * right. apply Hl; [done..|by apply waiting_entry].
      * left. by apply waiting_notified.
    + intros Hno He. destruct (decide (u = t)) as [->|Hne]; [|by rewrite (nd_others _ _ _ _ _ _ _ _ _ Hd)].
      rewrite (nd_quiet _ _ _ _ _ _ _ _ _ Hd); [done|]. intros Hw%waiting_entry. by eapply Hno.
  - erewrite (abs_changed k k' t); [exact Hst|]. apply Hd.
Qed.
Lemma nstep_notified ea r v : new = new_value ea r v old → nstep (abs k) (<[t := <[n := new]> vs]> (abs k)).
Proof. intros ->. apply n_notify; [by rewrite abs_notes, Hn|done]. Qed.
End notified.

(** The entry a call is about. *)
Lemma target k t ux ea : ninv k → target_ok t ux ea k → ∃ vs st old s0, notes k t = Some (vs, st) ∧
  vs !! Z.to_nat ux = Some old ∧ st !! Z.to_nat ux = Some s0 ∧ ux < configTASK_NOTIFICATION_ARRAY_ENTRIES ∧
  ea ≠ eOtherAction ∧ (waiting k t (Z.to_nat ux) → event_in k t = None).
Proof.
  intros Hi ([[vs st] Hn] & Hux & Hea). destruct (nv_size _ Hi _ _ _ Hn) as [Hlv Hls]. unfold entry_ok, entries in *.
  destruct (lookup_lt_is_Some_2 vs (Z.to_nat ux)) as [old Hv]; [lia|].
  destruct (lookup_lt_is_Some_2 st (Z.to_nat ux)) as [s0 Hs]; [lia|].
  exists vs, st, old, s0. split_and!; [done..|lia|done|apply Hi].
Qed.
(** The end of a handler. *)
Lemma wp_yield_if w k k' :
  ninv k' → (∀ t, nenv t k k') → wp (yield_if w) (λ _ k2, ninv k2 ∧ ∀ t, nenv t k k2) k'.
Proof.
  intros Hi He. unfold yield_if. destruct (match w with Some true => true | _ => false end); [|by apply wp_ret].
  apply wp_portYIELD. destruct (ninv_kept k' (k' <| pendsv := true |>)) as [Hi2 Hn]; [done|apply ngood_pendsv, Hi|done|done|by intros u|done|].
  split; [done|]. intros t. destruct (He t) as [Hk Ht Hw Hl Ha].
  split; [|exact Ht|exact Hw|intros H1 H2; destruct (Hl H1 H2); by split|exact Ha].
  destruct Hk as [H1 H2]. split; [exact H1|]. intros Hc. destruct (H2 Hc) as [?|(? & ? & ? & ?)]; [by left|right]. by split_and!.
Qed.
Lemma kenv_notified k t vs st n new s0 k' u : notified idle k t vs st n new s0 k' → kenv u k k'.
Proof.
  intros [_ _ Hr Hc Hs Hp _ _ _ _ _ _]. split; rewrite Hc, Hs.
  - intros ??. split_and!; [done|done|apply Hr].
  - intros ?. right. split_and!; [done|done|apply Hr|auto].
Qed.
Lemma n_notified_isr k t ux vs st old new s0 k' ea r v :
  ninv k → notes k t = Some (vs, st) → vs !! Z.to_nat ux = Some old → st !! Z.to_nat ux = Some s0 →
  notified idle k t vs st (Z.to_nat ux) new s0 k' → roused_by_isr k t s0 k' → new = new_value ea r v old →
  ninv k' ∧ ∀ u, nenv u k k'.
Proof.
  intros Hi Hn Hv Hs Hd Hr He. split; [by eapply ninv_notified|]. intros u.
  eapply nenv_notified; [done..|by eapply kenv_notified|by eapply nstep_notified|].
  intros _ Hsu _ Hw. apply Hr; [done|]. by rewrite Hsu.
Qed.
Lemma n_irqs i k : ninv k → nirq_enabled i k → wp (nhandler i) (λ _ k', ninv k' ∧ ∀ t, nenv t k k') k.
Proof.
  intros Hi. destruct i as [| |t ux v ea|t ux]; simpl; [intros _; by apply n_tick|intros _; by apply n_switch| |].
  - intros (vs & st & old & s0 & Hn & Hv & Hs & Hux & Hea & Hw)%target; [|done]. apply wp_bind.
    eapply wp_mono; [by apply (wp_xTaskGenericNotifyFromISR idle k t vs st ux old s0); [apply Hi|..]|].
    intros [r w] k' (_ & Hd & _ & Hr & _). apply (wp_yield_if w k k'); by eapply n_notified_isr.
  - intros (vs & st & old & s0 & Hn & Hv & Hs & Hux & Hea & Hw)%target; [|done]. apply wp_bind.
    eapply wp_mono; [by apply (wp_vTaskGenericNotifyGiveFromISR idle k t vs st ux old s0); [apply Hi|..]|].
    intros w k' (Hd & _ & Hr & _). apply (wp_yield_if w k k'); by eapply (n_notified_isr k t ux vs st old _ s0 k' eIncrement false 0).
Qed.

(** ** The points of a task between its steps *)
Section task.
Context (t : Z).

Definition waits_at_most (n : nat) (k : kernel) : Prop := ∀ m, m ≠ n → ¬ waiting k t m.
Definition p_home (k : kernel) : Prop := khome t k ∧ ∀ n, ¬ waiting k t n.
(** In the scheduler lock, before and after the decision to wait; out of the ready
    list; out of the lock; and at the end of the call. *)
Definition p_lock (k : kernel) : Prop := klocked t k ∧ (∀ n, ¬ waiting k t n) ∧ event_in k t = None.
Definition p_wait (n : nat) (k : kernel) : Prop :=
  klocked t k ∧ waits_at_most n k ∧ (waiting k t n ∨ event_in k t = Some PendingReadyL).
Definition p_blocked (n : nat) (k : kernel) : Prop :=
  (pxCurrentTCB k = Some t ∧ uxSchedulerSuspended k = 1) ∧ waits_at_most n k.
Definition p_yield (n : nat) (k : kernel) : Prop :=
  (pxCurrentTCB k = Some t → uxSchedulerSuspended k = 0) ∧ waits_at_most n k.
Definition p_done (n : nat) (k : kernel) : Prop := khome t k ∧ waits_at_most n k.
Abbreviation nstable := (stable ninv nenv t).

Lemma most_stable n k k' : nenv t k k' → waits_at_most n k → waits_at_most n k'.
Proof. intros He Hw m Hne Hm%(ne_waiting _ _ _ He). by eapply Hw. Qed.
Lemma n_stable_home : nstable p_home.
Proof.
  intros k k' _ _ He [Hh Hw]. split; [by eapply khome_stable; [apply He|]|]. intros n Hn%(ne_waiting _ _ _ He). by eapply Hw.
Qed.
Lemma n_stable_lock : nstable p_lock.
Proof.
  intros k k' _ _ He (Hl & Hw & Hev). pose proof Hl as (Hc & Hs & _). split_and!.
  - by eapply klocked_stable; [apply He|].
  - intros n Hn%(ne_waiting _ _ _ He). by eapply Hw.
  - by apply (ne_locked _ _ _ He Hc Hs).
Qed.
Lemma n_stable_wait n : nstable (p_wait n).
Proof.
  intros k k' _ _ He (Hl & Hw & Hor). pose proof Hl as (Hc & Hs & _). destruct (ne_locked _ _ _ He Hc Hs) as [Hp Hn _].
  split_and!; [by eapply klocked_stable; [apply He|]|by eapply most_stable|]. destruct Hor as [Hn'|?]; [by apply Hn|right; by apply Hp].
Qed.
Lemma n_stable_blocked n : nstable (p_blocked n).
Proof.
  intros k k' _ _ He ([Hc Hs] & Hw). destruct (ke_locked _ _ _ (ne_kernel _ _ _ He) Hc Hs) as (? & ? & _).
  split; [by split|by eapply most_stable].
Qed.
Lemma n_stable_yield n : nstable (p_yield n).
Proof.
  intros k k' _ _ He [Hs Hw]. split; [|by eapply most_stable]. intros Hc'.
  destruct (ke_running _ _ _ (ne_kernel _ _ _ He) Hc') as [[? _]|(Hc & Hsu & _)]; [done|]. rewrite Hsu. auto.
Qed.
Lemma n_stable_done n : nstable (p_done n).
Proof. intros k k' _ _ He [Hh Hw]. split; [by eapply khome_stable; [apply He|]|by eapply most_stable]. Qed.

(** *** Steps *)
(** A step of [t] as the others see it. *)
Record own (k k' : kernel) : Prop := {
  ow_current : pxCurrentTCB k' = pxCurrentTCB k;
  ow_tasks u : is_Some (notes k u) → is_Some (notes k' u);
  ow_waiting u n : u ≠ t → waiting k' u n → waiting k u n;
  ow_abs : nstep (abs k) (abs k')
}.
Lemma own_quiet k k' : pxCurrentTCB k' = pxCurrentTCB k → (∀ u, notes k' u = notes k u) → own k k'.
Proof.
  intros Hc Hn. split; [done|intros u; by rewrite Hn|intros u n _; by apply waiting_same|].
  rewrite (abs_same k k' Hn). constructor.
Qed.
Lemma n_atomic {A} (m : K A) P Q :
  (∀ k, ninv k → pxCurrentTCB k = Some t → pendsv k = false → P k →
     wp m (λ a k', ninv k' ∧ own k k' ∧ Q a k') k) → nsafe t (Atomic m) P Q.
Proof.
  intros Hm k Hi [Hc Hp] HP. eapply wp_mono; [by apply Hm|]. intros a k' (Hi' & Ho & HQ). split; [|done].
  split; [done|]. intros u Hu. assert (pxCurrentTCB k' = Some t) as Hc' by (by rewrite (ow_current _ _ Ho)).
  split; [by apply (kenv_own _ t)|apply Ho|intros n; by apply Ho|congruence|apply Ho].
Qed.
Lemma n_read {A} (m : K A) P : (∀ k, ninv k → pxCurrentTCB k = Some t → wp m (λ _ k', k' = k) k) →
  nsafe t (Atomic m) P (λ _, P).
Proof.
  intros Hm. apply n_atomic. intros k Hi Hc Hp HP. eapply wp_mono; [by apply Hm|]. intros a k' ->.
  split_and!; [done|by apply own_quiet|done].
Qed.
Lemma n_bind {A B} (p : KP A) (f : A → KP B) P R Q :
  (∀ a, nstable (R a)) → nsafe t p P R → (∀ a, nsafe t (f a) (R a) Q) → nsafe t (Bind p f) P Q.
Proof. intros HR Hp Hf. by exists R. Qed.
Lemma n_seq {A B} (p : KP A) (f : A → KP B) P R Q :
  nstable R → nsafe t p P (λ _, R) → (∀ a, nsafe t (f a) R Q) → nsafe t (Bind p f) P Q.
Proof. intros HR Hp Hf. by apply (n_bind _ _ _ (λ _, R)). Qed.
Lemma n_ret {A} (a : A) (P : kernel → Prop) (Q : A → kernel → Prop) : (∀ k, P k → Q a k) → nsafe t (Ret a) P Q.
Proof. intros HQ k _ Hk. by apply HQ. Qed.

Lemma own_notes k : ninv k → pxCurrentTCB k = Some t → ∃ vs st, notes k t = Some (vs, st) ∧ length vs = entries ∧ length st = entries.
Proof.
  intros Hi Hc. destruct (sgood_current _ _ _ (nv_good _ Hi)) as (c & y & Hc' & Hy).
  assert (c = t) as -> by congruence. exists (ulNotifiedValue y), (ucNotifyState y).
  assert (notes k t = Some (ulNotifiedValue y, ucNotifyState y)) as Hn by (unfold notes; by rewrite Hy).
  split; [done|]. by eapply Hi.
Qed.

(** *** The scheduler lock *)
Lemma n_suspend : nsafe t (Atomic vTaskSuspendAll) p_home (λ _, p_lock).
Proof.
  apply n_atomic. intros k Hi Hc Hp [Hh Hw]. destruct (Hh Hc) as [Hs [?|Hr]]; [congruence|].
  assert (wp vTaskSuspendAll (λ _ k', ngood k' ∧ kept_ready k k' ∧ uxSchedulerSuspended k' = 1) k) as (Hg & Hkr & Hs')
    by (by apply (sg_suspend idle only_pending); [apply Hi|]).
  apply wp_modify. set (k' := k <| uxSchedulerSuspended ::= λ n, wrap32 (n + 1) |>) in *.
  split_and!.
  - apply (ninv_quiet k); [done|done|done|lia|done|]. intros u Hu Hb. by apply (nv_blocked _ Hi).
  - by apply own_quiet.
  - split; [split_and!; [exact Hc|exact Hs'|exact Hr]|split; [exact Hw|]].
    apply (ngood_no_event idle k t); [apply Hi|done].
Qed.
Lemma ninv_resumed k k' (b : bool) : ninv k → ngood k' → kept_ready k k' → uxSchedulerSuspended k' = 0 →
  (∀ u, event_in k u = Some PendingReadyL → ready k' u = true) → (∀ u, notes k' u = notes k u) → ninv k'.
Proof.
  intros Hi Hg Hr Hs Hpr Hn. apply (ninv_quiet k); [done|done|done|lia| |].
  - intros u _. by apply (ngood_no_event idle).
  - intros u Hu Hb. destruct (nv_blocked _ Hi u Hu) as [He|?]; [|apply Hpr in He; congruence|by right].
    destruct (ready k u) eqn:Hru; [|done]. rewrite Hr in Hb by done. done.
Qed.
Lemma n_resume (P : kernel → Prop) (Q : bool → kernel → Prop) :
  (∀ k, P k → pxCurrentTCB k = Some t ∧ uxSchedulerSuspended k = 1) →
  (∀ k b k', P k → pxCurrentTCB k' = Some t → uxSchedulerSuspended k' = 0 → kept_ready k k' →
     (b = true → pendsv k' = true) → (∀ u n, waiting k' u n ↔ waiting k u n) → Q b k') →
  nsafe t (Atomic xTaskResumeAll) P Q.
Proof.
  intros HP HQ. apply n_atomic. intros k Hi Hc Hp Hk. destruct (HP k Hk) as [_ Hs].
  eapply wp_mono; [by apply (sg_resume idle only_pending); [apply Hi|]|].
  intros b k' (Hg & Hkr & Hs' & HT & Hb & Hpr & Hf & _).
  assert (∀ u, notes k' u = notes k u) as Hn by apply Hf.
  split_and!; [by apply (ninv_resumed k)|apply own_quiet; [apply Hf|done]|].
  eapply HQ; [done|by rewrite (fr_current _ _ Hf)|done|done|done|by apply waiting_same].
Qed.

(** *** Leaving the ready list *)
Lemma n_block n ticks : t ≠ idle → 0 < ticks < MAX32 →
  nsafe t (Atomic (prvAddCurrentTaskToDelayedList ticks true)) (p_wait n) (λ _, p_blocked n).
Proof.
  intros Hne Ht. apply n_atomic. intros k Hi Hc _ ((_ & Hs & Hr) & Hw & Hor).
  destruct (nv_good _ Hi) as (v & [Hinv Hidle]%ksafe_kinv & Hp).
  destruct (ready_tcb _ _ Hr) as [y Hy]. pose proof (proj1 (ready_iff k v Hinv t y Hy) Hr) as Hin.
  assert (wp (prvAddCurrentTaskToDelayedList ticks true)
    (λ _ k', kinv k' (blocked_view k t ticks true v) ∧ frame k k') k) as Hwp.
  { apply wp_frame; [auto with keeps|]. eapply wp_mono; [by apply (wp_prvAddCurrentTaskToDelayedList k v t y)|]. by intros _ k' [? _]. }
  eapply wp_mono; [exact Hwp|]. intros _ k' [Hinv' Hf].
  assert (∀ u l, in_list (blocked_view k t ticks true v) (EventItem u) l ↔ in_list v (EventItem u) l) as Hev.
  { intros u l. rewrite !in_list_vitems. destruct (state_list l) eqn:Hst.
    - split; intros Hl%in_list_vitems; [apply (il_kind _ (ki_lists _ _ _ Hinv')) in Hl|apply (il_kind _ (ki_lists _ _ _ Hinv)) in Hl]; simpl in Hl; congruence.
    - by rewrite blocked_event_items. }
  assert (∀ u, event_in k' u = event_in k u) as He.
  { intros u. apply option_eq. intros l. rewrite (event_in_iff _ _ Hinv' u l), (event_in_iff _ _ Hinv u l). apply Hev. }
  assert (∀ u, u ≠ t → ready k u = true → ready k' u = true) as Hkr.
  { intros u Hu Hru. destruct (ready_tcb _ _ Hru) as [x Hx]. apply (ready_iff k v Hinv u x Hx) in Hru.
    eapply ready_any; [exact Hinv'|]. by apply (blocked_ready k v t ticks true u _ Hinv). }
  pose proof (waiting_same k k' (fr_notes _ _ (fr_frame0 _ _ Hf))) as Hwk.
  split_and!.
  - apply (ninv_quiet k); [done| |apply Hf|rewrite (fr_susp _ _ Hf); lia|intros u; by rewrite He|].
    + apply (sgood_intro _ _ _ (blocked_view k t ticks true v)); [done| |].
      * destruct Hidle as [p Hl]. exists p. by apply blocked_ready.
      * intros u l Hl%Hev. by eapply Hp.
    + intros u Hu Hb. rewrite He. destruct (decide (u = t)) as [->|Hut].
      * destruct Hor as [?|?]; [right; by exists n|by left].
      * apply (nv_blocked _ Hi); [done|]. destruct (ready k u) eqn:Hru; [|done]. by rewrite Hkr in Hb.
  - apply own_quiet; apply Hf.
  - split; [split; [by rewrite (fr_current _ _ (fr_frame0 _ _ Hf))|by rewrite (fr_susp _ _ Hf)]|].
    intros m Hm Hwm%Hwk. by eapply Hw.
Qed.
Lemma n_yield (P : kernel → Prop) n : (∀ k, P k → p_yield n k) →
  nsafe t (Atomic portYIELD_WITHIN_API) P (λ _, p_done n).
Proof.
  intros HP. apply n_atomic. intros k Hi Hc _ Hk. destruct (HP k Hk) as [Hs Hw]. apply wp_portYIELD.
  split_and!; [|by apply own_quiet|].
  - destruct (ninv_kept k (k <| pendsv := true |>)) as [? _]; [done|apply ngood_pendsv, Hi|done|done|by intros u|done|done].
  - split; [|exact Hw]. intros _. split; [by apply Hs|by left].
Qed.

(** *** The task's own entries *)
(** It changes them while it is ready; entry [n] alone may come to be waited for. *)
Lemma ninv_own k vs st vs' st' n : ninv k → notes k t = Some (vs, st) → length vs' = entries → length st' = entries →
  ready k t = true → (∀ m, st' !! m = Some taskWAITING_NOTIFICATION → m = n ∧ event_in k t = None) →
  ninv (noted t vs' st' k).
Proof.
  intros Hi Hn Hv Hs Hr Hw.
  assert (∀ u m, waiting (noted t vs' st' k) u m → u = t ∧ st' !! m = Some taskWAITING_NOTIFICATION ∨ u ≠ t ∧ waiting k u m) as Hwk.
  { intros u m (a & c & He & Hm). rewrite notes_noted, Hn in He. case_decide; [left|right].
    - simpl in He. by simplify_eq.
    - split; [done|]. by exists a, c. }
  split; [by apply ngood_noted, Hi|apply Hi| | | |].
  - intros u a c. rewrite notes_noted, Hn. case_decide; [|apply Hi]. simpl. intros [= <- <-]. by split.
  - intros u m1 m2 [[-> H1]|[Hu H1]]%Hwk [[? H2]|[? H2]]%Hwk; [|done|done|by eapply Hi].
    apply Hw in H1 as [-> _]. by apply Hw in H2 as [-> _].
  - intros u m [[-> H1]|[Hu H1]]%Hwk; [by eapply Hw|by eapply Hi].
  - intros u Hu. rewrite ready_noted. intros Hb. assert (u ≠ t) as Hut by (intros ->; congruence).
    rewrite notes_noted, decide_False in Hu by done. destruct (nv_blocked _ Hi u Hu Hb) as [?|[m Hm]]; [by left|right].
    exists m. destruct Hm as (a & c & ? & ?). exists a, c. by rewrite notes_noted, decide_False.
Qed.
Lemma own_noted k vs st vs' st' : notes k t = Some (vs, st) → nstep (abs k) (<[t := vs']> (abs k)) → own k (noted t vs' st' k).
Proof.
  intros Hn Hst. split; [done| | |].
  - intros u. rewrite notes_noted. case_decide; [subst u; by rewrite Hn|done].
  - intros u m Hu (a & c & He & Hm). rewrite notes_noted, decide_False in He by done. by exists a, c.
  - rewrite (abs_changed k (noted t vs' st' k) t vs' st'); [exact Hst|]. intros u. rewrite notes_noted. case_decide; [by rewrite Hn|done].
Qed.

(** The decision to block: entry [n] is marked unless there is no need. *)
Definition decides (n : nat) (check : K bool) : Prop :=
  nsafe t (Atomic (critical check)) p_lock (λ b, if b then p_wait n else p_lock).
(** The step that changes the entry [ux] in the lock. *)
Lemma n_decide ux (check : K bool) :
  entry_ok ux →
  (∀ k vs st old s0, ninv k → pxCurrentTCB k = Some t → notes k t = Some (vs, st) →
     vs !! Z.to_nat ux = Some old → st !! Z.to_nat ux = Some s0 →
     wp check (λ b k', if b
       then ∃ new, k' = noted t (<[Z.to_nat ux := new]> vs) (<[Z.to_nat ux := taskWAITING_NOTIFICATION]> st) k ∧
         nstep (abs k) (<[t := <[Z.to_nat ux := new]> vs]> (abs k))
       else k' = k) k) →
  decides (Z.to_nat ux) check.
Proof.
  intros Hux Hm. set (n := Z.to_nat ux) in *. apply n_atomic. intros k Hi Hc _ (Hl & Hw & Hev).
  destruct (own_notes k Hi Hc) as (vs & st & Hn & Hlv & Hls). pose proof Hl as (_ & Hs & Hr).
  destruct (lookup_lt_is_Some_2 vs n) as [old Hv]; [unfold n, entry_ok, entries in *; lia|].
  destruct (lookup_lt_is_Some_2 st n) as [s0 Hst]; [unfold n, entry_ok, entries in *; lia|].
  unfold critical. eapply wp_mono; [by apply (Hm k vs st old s0)|]. intros [] k'.
  - intros (new & -> & Hstep). split_and!.
    + apply (ninv_own k vs st _ _ n); [done|done|by rewrite length_insert|by rewrite length_insert|done|].
      intros m Hmm. split; [|done]. destruct (decide (m = n)) as [|Hne]; [done|].
      rewrite list_lookup_insert_ne in Hmm by done. destruct (Hw m). by exists vs, st.
    + by eapply own_noted.
    + split; [destruct Hl as (? & ? & ?); split; [done|split; [done|by rewrite ready_noted]]|split].
      * intros m Hne (a & c & He & Hmm). rewrite notes_noted, decide_True, Hn in He by done. simpl in He. simplify_eq.
        rewrite list_lookup_insert_ne in Hmm by done. destruct (Hw m). by exists vs, st.
      * left. exists (<[n := new]> vs), (<[n := taskWAITING_NOTIFICATION]> st). rewrite notes_noted, decide_True, Hn by done.
        split; [done|]. apply list_lookup_insert_eq. by eapply lookup_lt_Some.
  - intros ->. split; [done|split; [by apply own_quiet|by split]].
Qed.

Lemma n_notify_block n check ticks : t ≠ idle → 0 < ticks < MAX32 → decides n check →
  nsafe t (notify_block check ticks) p_home (λ _, p_done n).
Proof.
  intros Hne Ht Hd. apply (n_seq _ _ _ p_lock); [apply n_stable_lock|apply n_suspend|intros _].
  apply (n_bind _ _ _ (λ b : bool, if b then p_wait n else p_lock)); [intros []; [apply n_stable_wait|apply n_stable_lock]|exact Hd|].
  intros [].
  - apply (n_seq _ _ _ (p_blocked n)); [apply n_stable_blocked|by apply n_block|intros _].
    apply (n_bind _ _ _ (λ b : bool, if b then p_done n else p_yield n)); [intros []; [apply n_stable_done|apply n_stable_yield]| |].
    + apply n_resume; [by intros k [? _]|]. intros k b k' [_ Hw] Hc Hs Hr Hb Hwk.
      assert (waits_at_most n k') as Hw' by (intros m Hm Hwm%Hwk; by eapply Hw).
      destruct b; (split; [|done]); intros _; [split; [done|left; by apply Hb]|done].
    + intros []; simpl; [by apply n_ret|by apply n_yield].
  - apply (n_seq _ _ _ p_lock); [apply n_stable_lock|by apply n_ret|intros _].
    apply (n_bind _ _ _ (λ _, p_done n)); [intros _; apply n_stable_done| |by intros b; apply n_ret].
    apply n_resume; [by intros k [(? & ? & _) _]|]. intros k b k' ((_ & _ & Hrd) & Hw & _) Hc Hs Hr Hb Hwk.
    split; [|intros m _ Hwm%Hwk; by eapply Hw]. intros _. split; [done|right; by apply Hr].
Qed.

(** The end of a call: the entry is no longer waited for. *)
Lemma n_finish {A} ux (m : K A) : entry_ok ux →
  (∀ k vs st old s0, ninv k → pxCurrentTCB k = Some t → notes k t = Some (vs, st) →
     vs !! Z.to_nat ux = Some old → st !! Z.to_nat ux = Some s0 →
     wp m (λ _ k', ∃ new, k' = noted t (<[Z.to_nat ux := new]> vs) (<[Z.to_nat ux := taskNOT_WAITING_NOTIFICATION]> st) k ∧
       nstep (abs k) (<[t := <[Z.to_nat ux := new]> vs]> (abs k))) k) →
  nsafe t (Atomic (critical m)) (p_done (Z.to_nat ux)) (λ _, p_home).
Proof.
  intros Hux Hm. set (n := Z.to_nat ux) in *. apply n_atomic. intros k Hi Hc Hp (Hh & Hw).
  destruct (Hh Hc) as [Hs [?|Hr]]; [congruence|].
  destruct (own_notes k Hi Hc) as (vs & st & Hn & Hlv & Hls).
  destruct (lookup_lt_is_Some_2 vs n) as [old Hv]; [unfold n, entry_ok, entries in *; lia|].
  destruct (lookup_lt_is_Some_2 st n) as [s0 Hst]; [unfold n, entry_ok, entries in *; lia|].
  unfold critical. eapply wp_mono; [by apply (Hm k vs st old s0)|]. intros _ k' (new & -> & Hstep).
  assert (∀ j, <[n := taskNOT_WAITING_NOTIFICATION]> st !! j ≠ Some taskWAITING_NOTIFICATION) as Hno.
  { intros j Hj. destruct (decide (j = n)) as [->|Hne].
    - rewrite list_lookup_insert_eq in Hj; [done|]. by eapply lookup_lt_Some.
    - rewrite list_lookup_insert_ne in Hj by done. destruct (Hw j Hne). by exists vs, st. }
  split_and!.
  - apply (ninv_own k vs st _ _ n); [done|done|by rewrite length_insert|by rewrite length_insert|done|]. by intros j Hj%Hno.
  - by eapply own_noted.
  - split.
    + intros _. split; [done|right]. by rewrite ready_noted.
    + intros j (a & c & He & Hj). rewrite notes_noted, decide_True, Hn in He by done. simpl in He. simplify_eq. by eapply Hno.
Qed.

Lemma wp_take_check ux k vs st old : notes k t = Some (vs, st) → pxCurrentTCB k = Some t → vs !! Z.to_nat ux = Some old →
  is_Some (st !! Z.to_nat ux) →
  wp (take_check ux) (λ b k', if b
    then ∃ new, k' = noted t (<[Z.to_nat ux := new]> vs) (<[Z.to_nat ux := taskWAITING_NOTIFICATION]> st) k ∧
      nstep (abs k) (<[t := <[Z.to_nat ux := new]> vs]> (abs k))
    else k' = k) k.
Proof.
  intros Hn Hc Hv [s0 Hs]. unfold take_check. apply wp_bind. eapply wp_current; [exact Hc|].
  apply wp_bind. eapply wp_notify_value; [exact Hn|]. rewrite (nth_lookup_Some _ _ _ _ Hv).
  destruct (Z.eqb_spec old 0) as [->|Hne]; [|by apply wp_ret].
  apply wp_bind. eapply wp_set_notify_state; [exact Hn|]. rewrite (alter_at _ _ _ _ Hs). apply wp_ret.
  exists 0. rewrite (list_insert_id vs) by done. split; [done|]. rewrite insert_id by (by rewrite abs_notes, Hn). constructor.
Qed.
Lemma wp_take_finish ux clear k vs st old : notes k t = Some (vs, st) → pxCurrentTCB k = Some t → vs !! Z.to_nat ux = Some old →
  is_Some (st !! Z.to_nat ux) →
  wp (take_finish ux clear) (λ r k', r = old ∧ k' = noted t
    (<[Z.to_nat ux := if old =? 0 then 0 else if clear then 0 else wrap32 (old - 1)]> vs)
    (<[Z.to_nat ux := taskNOT_WAITING_NOTIFICATION]> st) k) k.
Proof.
  intros Hn Hc Hv [s0 Hs]. unfold take_finish. apply wp_bind. eapply wp_current; [exact Hc|].
  apply wp_bind. eapply wp_notify_value; [exact Hn|]. rewrite (nth_lookup_Some _ _ _ _ Hv). apply wp_bind.
  set (new := if old =? 0 then 0 else if clear then 0 else wrap32 (old - 1)).
  apply (wp_mono _ (λ _ k', k' = noted t (<[Z.to_nat ux := new]> vs) st k)).
  - unfold new. destruct (Z.eqb_spec old 0) as [->|Hne]; simpl.
    + apply wp_ret. by rewrite list_insert_id, noted_same.
    + eapply wp_set_notify_value; [exact Hn|]. by rewrite (alter_at _ _ _ _ Hv).
  - intros _ k' ->. apply wp_bind. eapply wp_set_notify_state.
    { rewrite notes_noted, decide_True, Hn by done. done. }
    rewrite (alter_at _ _ _ _ Hs), noted_twice. by apply wp_ret.
Qed.
Lemma wp_wait_check ux m k vs st old s0 : notes k t = Some (vs, st) → pxCurrentTCB k = Some t → vs !! Z.to_nat ux = Some old →
  st !! Z.to_nat ux = Some s0 →
  wp (wait_check ux m) (λ b k', b = negb (s0 =? taskNOTIFICATION_RECEIVED) ∧ k' = if b
    then noted t (<[Z.to_nat ux := and_not old m]> vs) (<[Z.to_nat ux := taskWAITING_NOTIFICATION]> st) k else k) k.
Proof.
  intros Hn Hc Hv Hs. unfold wait_check. apply wp_bind. eapply wp_current; [exact Hc|].
  apply wp_bind. eapply wp_notify_state; [exact Hn|]. rewrite (nth_lookup_Some _ _ _ _ Hs).
  destruct (s0 =? taskNOTIFICATION_RECEIVED); simpl; [by apply wp_ret|].
  apply wp_bind. eapply wp_set_notify_value; [exact Hn|]. rewrite (alter_at _ _ _ _ Hv).
  apply wp_bind. eapply wp_set_notify_state; [rewrite notes_noted, decide_True, Hn by done; done|].
  rewrite (alter_at _ _ _ _ Hs), noted_twice. by apply wp_ret.
Qed.
Lemma wp_wait_finish ux m k vs st old s0 : notes k t = Some (vs, st) → pxCurrentTCB k = Some t → vs !! Z.to_nat ux = Some old →
  st !! Z.to_nat ux = Some s0 →
  wp (wait_finish ux m) (λ r k', r = (s0 =? taskNOTIFICATION_RECEIVED, old) ∧ k' = noted t
    (<[Z.to_nat ux := if s0 =? taskNOTIFICATION_RECEIVED then and_not old m else old]> vs)
    (<[Z.to_nat ux := taskNOT_WAITING_NOTIFICATION]> st) k) k.
Proof.
  intros Hn Hc Hv Hs. unfold wait_finish. apply wp_bind. eapply wp_current; [exact Hc|].
  apply wp_bind. eapply wp_notify_value; [exact Hn|]. rewrite (nth_lookup_Some _ _ _ _ Hv).
  apply wp_bind. eapply wp_notify_state; [exact Hn|]. rewrite (nth_lookup_Some _ _ _ _ Hs). apply wp_bind.
  apply (wp_mono _ (λ b k', b = (s0 =? taskNOTIFICATION_RECEIVED) ∧
    k' = noted t (<[Z.to_nat ux := if s0 =? taskNOTIFICATION_RECEIVED then and_not old m else old]> vs) st k)).
  - destruct (s0 =? taskNOTIFICATION_RECEIVED); simpl.
    + apply wp_bind. eapply wp_set_notify_value; [exact Hn|]. rewrite (alter_at _ _ _ _ Hv). by apply wp_ret.
    + apply wp_ret. by rewrite list_insert_id, noted_same.
  - intros b k' [-> ->]. apply wp_bind. eapply wp_set_notify_state.
    { rewrite notes_noted, decide_True, Hn by done. done. }
    rewrite (alter_at _ _ _ _ Hs), noted_twice. by apply wp_ret.
Qed.

Lemma nstep_same k vs st : notes k t = Some (vs, st) → nstep (abs k) (<[t := vs]> (abs k)).
Proof. intros Hn. rewrite insert_id by (by rewrite abs_notes, Hn). constructor. Qed.

(** *** The calls *)
Lemma n_assert_index ux P : entry_ok ux → nsafe t (Atomic (assert_index ux)) P (λ _, P).
Proof. intros Hux. apply n_read. intros k _ _. apply wp_assert; [apply Z.ltb_lt, Hux|done]. Qed.
Lemma n_look {A} (f : Z → K A) P :
  (∀ k vs st, notes k t = Some (vs, st) → wp (f t) (λ _ k', k' = k) k) →
  nsafe t (Atomic (let* cur := current in f cur)) P (λ _, P).
Proof.
  intros Hf. apply n_read. intros k Hi Hc. apply wp_bind. eapply wp_current; [exact Hc|].
  destruct (own_notes k Hi Hc) as (vs & st & Hn & _). by eapply Hf.
Qed.
Lemma n_call {A B} ux ticks (look : Z → K A) (cond : A → bool) (check : K bool) (finish : K B) :
  entry_ok ux → may_wait idle t ticks →
  (∀ k vs st, notes k t = Some (vs, st) → wp (look t) (λ _ k', k' = k) k) →
  decides (Z.to_nat ux) check →
  nsafe t (Atomic (critical finish)) (p_done (Z.to_nat ux)) (λ _, p_home) →
  nsafe t (Atomic (assert_index ux) ;!
    let! a := Atomic (let* cur := current in look cur) in
    (if cond a && (0 <? ticks) then notify_block check ticks else Ret tt) ;!
    Atomic (critical finish)) p_home (λ _, p_home).
Proof.
  intros Hux [Ht Hne] Hlook Hd Hf.
  apply (n_seq _ _ _ p_home); [apply n_stable_home|by apply n_assert_index|intros _].
  apply (n_seq _ _ _ p_home); [apply n_stable_home|by apply n_look|intros a].
  apply (n_seq _ _ _ (p_done (Z.to_nat ux))); [apply n_stable_done| |by intros _].
  destruct (cond a); simpl; [destruct (Z.ltb_spec 0 ticks)|]; [|apply n_ret; intros k [? ?]; split; [done|by intros m _]..].
  apply n_notify_block; [apply Hne|..|done]; lia.
Qed.
Lemma safe_ntake ux clear ticks : entry_ok ux → may_wait idle t ticks →
  nsafe t (ulTaskGenericNotifyTake ux clear ticks) p_home (λ _, p_home).
Proof.
  intros Hux Hw. apply (n_call ux ticks (λ c, notify_value c ux) (λ v, v =? 0)); [done|done| | |].
  - intros k vs st Hn. by eapply wp_notify_value.
  - apply n_decide; [done|]. intros k vs st old s0 _ Hc Hn Hv Hs. eapply wp_take_check; [done..|by exists s0].
  - apply n_finish; [done|]. intros k vs st old s0 _ Hc Hn Hv Hs.
    eapply wp_mono; [eapply wp_take_finish; [exact Hn|done|exact Hv|by exists s0]|]. intros r k' [_ ->]. eexists. split; [done|].
    destruct (Z.eqb_spec old 0) as [->|Hne].
    + rewrite (list_insert_id vs) by done. by eapply nstep_same.
    + apply (n_take _ t vs _ old); [by rewrite abs_notes, Hn|done|done].
Qed.
Lemma safe_nwait ux entry exit ticks : entry_ok ux → may_wait idle t ticks →
  nsafe t (xTaskGenericNotifyWait ux entry exit ticks) p_home (λ _, p_home).
Proof.
  intros Hux Hw.
  apply (n_call ux ticks (λ c, notify_state c ux) (λ st, negb (st =? taskNOTIFICATION_RECEIVED))); [done|done| | |].
  - intros k vs st Hn. by eapply wp_notify_state.
  - apply n_decide; [done|]. intros k vs st old s0 _ Hc Hn Hv Hs.
    eapply wp_mono; [by eapply wp_wait_check|]. intros [] k' [_ ->]; [|done]. eexists. split; [done|].
    apply n_clear; [by rewrite abs_notes, Hn|done].
  - apply n_finish; [done|]. intros k vs st old s0 _ Hc Hn Hv Hs.
    eapply wp_mono; [by eapply wp_wait_finish|]. intros r k' [_ ->]. eexists. split; [done|].
    destruct (s0 =? taskNOTIFICATION_RECEIVED).
    + apply n_clear; [by rewrite abs_notes, Hn|done].
    + rewrite (list_insert_id vs) by done. by eapply nstep_same.
Qed.
Lemma safe_nnotify u ux v ea : entry_ok ux → ea ≠ eOtherAction →
  nsafe t (Atomic (xTaskGenericNotify (Some u) ux v ea)) (λ k, p_home k ∧ is_Some (notes k u)) (λ _, p_home).
Proof.
  intros Hux Hea. apply n_atomic. intros k Hi Hc Hp ([Hh Hno] & Hu).
  destruct (target k u ux ea Hi) as (vs & st & old & s0 & Hn & Hv & Hs & Hlt & _ & Hw); [by split|].
  eapply wp_mono; [by apply (wp_xTaskGenericNotify idle k u vs st ux old s0); [apply Hi|..]|].
  intros r k' (_ & Hd & _). pose proof (waiting_notified k u vs st _ _ s0 k' Hn Hs Hd) as Hwk.
  split_and!; [by eapply ninv_notified| |].
  - split; [apply Hd| |intros w m _ Hm; by apply Hwk|].
    + intros w. rewrite (nd_notes _ _ _ _ _ _ _ _ _ Hd). by case_decide.
    + erewrite (abs_changed k k' u); [|apply Hd]. by eapply (nstep_notified k u vs st).
  - split; [|intros m [? _]%Hwk; by eapply Hno]. eapply khome_stable; [by eapply kenv_notified|done].
Qed.
End task.

(** ** Every run *)
Lemma n_calls t c k : ninv k → nruns t k → p_home t k → ncall_enabled idle t c k →
  ∃ P, stable ninv nenv t P ∧ P k ∧ nsafe t (ncode c) P (λ _, p_home t).
Proof.
  intros Hi Hr Hh He. pose proof (n_stable_home t) as Hst.
  assert (∀ A (p : KP A), nsafe t p (p_home t) (λ _, p_home t) → nsafe t (let! _ := p in Ret tt) (p_home t) (λ _, p_home t)) as Hret.
  { intros A p Hp. apply (n_seq t _ _ _ (p_home t)); [done|done|intros _; by apply n_ret]. }
  destruct c as [ux clear n|ux entry exit n|u ux v ea|]; simpl in *.
  - destruct He. exists (p_home t). split_and!; [done..|by apply Hret, safe_ntake].
  - destruct He. exists (p_home t). split_and!; [done..|by apply Hret, safe_nwait].
  - destruct He as (Hu & Hux & Hea). exists (λ k, p_home t k ∧ is_Some (notes k u)). split_and!; [|done..|].
    + intros k1 k2 H1 H2 He [? ?]. split; [exact (Hst k1 k2 H1 H2 He ltac:(assumption))|by eapply (ne_tasks t k1 k2 He)].
    + apply (n_seq t _ _ _ (p_home t)); [done|by apply safe_nnotify|intros _; by apply n_ret].
  - exists (p_home t). split_and!; [done..|]. apply n_atomic. intros k1 Hi1 Hc1 Hp1 [Hh1 Hw1]. apply wp_portYIELD.
    destruct (ninv_kept k1 (k1 <| pendsv := true |>)) as [? _]; [done|apply ngood_pendsv, Hi1|done|done|by intros u|done|].
    split_and!; [done|by apply own_quiet|]. split; [|exact Hw1]. intros _. destruct (Hh1 Hc1) as [? _]. split; [done|by left].
Qed.

Definition notify_step : conf (S := kernel) → conf → Prop := mstep nruns nhandler nirq_enabled ncode (ncall_enabled idle).
Definition notify_conf_ok : conf → Prop := conf_ok nruns ninv nenv p_home.
Lemma notify_machine c c' : notify_conf_ok c → rtc notify_step c c' →
  notify_conf_ok c' ∧ no_failure nruns nhandler nirq_enabled c'.
Proof. apply machine_safe; [apply nenv_refl|apply n_stable_home|apply n_calls|intros i s; apply n_irqs]. Qed.
Lemma notify_machine_nstep c c' : notify_conf_ok c → notify_step c c' → nstep (abs (c_state c)) (abs (c_state c')).
Proof.
  intros Hok Hs. destruct (conf_ok_step_env nruns nhandler nirq_enabled ncode (ncall_enabled idle) ninv nenv p_home
    nenv_refl n_stable_home (λ i s, n_irqs i s) c c' Hok Hs) as (u & He). by eapply ne_abs.
Qed.
End machine.
