(* ===== verification/NotifyProps.v ===== *)
(** * Properties of task notifications

    That no interleaving of tasks and interrupts that notify each other goes
    wrong and no wake-up is lost; what one notification does. *)
From S2P Require Import Prelude KList Tasks TasksView TasksInv TasksTick TasksOps TasksEvents TasksMachine TasksCheck TasksWaiters.
From S2P Require Import TasksFrame TasksBlind TasksDetach Prog TaskNotify NotifyOps NotifyMachine.
From Stdlib Require Import ZifyBool.

Section props.
Context (idle : Z).
Abbreviation ngood := (sgood idle only_pending).



(** Entry [ux] of task [t] has the value [old] and the state [s0]. *)
Definition entry (k : kernel) (t ux old s0 : Z) : Prop := ∃ vs st, notes k t = Some (vs, st) ∧
  vs !! Z.to_nat ux = Some old ∧ st !! Z.to_nat ux = Some s0.

Section exact.
Context (k : kernel) (t ux old s0 : Z).
Context (Hg : ngood k) (He : entry k t ux old s0) (Hux : 0 ≤ ux < configTASK_NOTIFICATION_ARRAY_ENTRIES).
Context (Hw : s0 = taskWAITING_NOTIFICATION → event_in k t = None).


End exact.

(** [ulTaskGenericNotifyTake] and [xTaskGenericNotifyWait], when there is something
    to take or no time to wait, answer the value at once; the first one empties or
    decrements the count, the second one clears the bits it is told to if there
    was a notification; the entry is no longer waited for. *)
Theorem notification_taken k c ux old s0 clear entry_bits exit_bits ticks :
  pxCurrentTCB k = Some c → entry k c ux old s0 → entry_ok ux →
  (old ≠ 0 ∨ ticks = 0 → wp (exec 1 (ulTaskGenericNotifyTake ux clear ticks)) (λ r k', r = old ∧ ∃ vs st,
     notes k c = Some (vs, st) ∧ k' = noted c (<[Z.to_nat ux := if old =? 0 then 0 else if clear then 0 else wrap32 (old - 1)]> vs)
       (<[Z.to_nat ux := taskNOT_WAITING_NOTIFICATION]> st) k) k) ∧
  (s0 = taskNOTIFICATION_RECEIVED ∨ ticks = 0 →
   wp (exec 1 (xTaskGenericNotifyWait ux entry_bits exit_bits ticks)) (λ r k', r = (s0 =? taskNOTIFICATION_RECEIVED, old) ∧
     ∃ vs st, notes k c = Some (vs, st) ∧
       k' = noted c (<[Z.to_nat ux := if s0 =? taskNOTIFICATION_RECEIVED then and_not old exit_bits else old]> vs)
         (<[Z.to_nat ux := taskNOT_WAITING_NOTIFICATION]> st) k) k).
Proof.
  intros Hc (vs & st & Hn & Hv & Hs) Hux. split; intros Hor.
  - unfold ulTaskGenericNotifyTake. apply wp_exec_bind, wp_exec_atomic, wp_assert; [apply Z.ltb_lt, Hux|].
    apply wp_exec_bind, wp_exec_atomic, wp_bind. eapply wp_current; [exact Hc|]. eapply wp_notify_value; [exact Hn|].
    rewrite (nth_lookup_Some _ _ _ _ Hv).
    assert ((old =? 0) && (0 <? ticks) = false) as -> by (apply andb_false_iff; destruct Hor; [left|right]; lia).
    apply wp_exec_bind, wp_exec_ret, wp_exec_atomic. unfold critical.
    eapply wp_mono; [by eapply wp_take_finish|]. intros r k' [-> ->]. split; [done|]. by exists vs, st.
  - unfold xTaskGenericNotifyWait. apply wp_exec_bind, wp_exec_atomic, wp_assert; [apply Z.ltb_lt, Hux|].
    apply wp_exec_bind, wp_exec_atomic, wp_bind. eapply wp_current; [exact Hc|]. eapply wp_notify_state; [exact Hn|].
    rewrite (nth_lookup_Some _ _ _ _ Hs).
    assert (negb (s0 =? taskNOTIFICATION_RECEIVED) && (0 <? ticks) = false) as ->.
    { apply andb_false_iff. destruct Hor as [->|]; [by left|right; lia]. }
    apply wp_exec_bind, wp_exec_ret, wp_exec_atomic. unfold critical.
    eapply wp_mono; [by eapply wp_wait_finish|]. intros r k' [-> ->]. split; [done|]. by exists vs, st.
Qed.
End props.

(** ** Witnesses: the four tasks of [ex_boot], of which task 4 runs *)


(** *** Playing a script *)
#[export] Instance action_eq_dec : EqDecision eNotifyAction.
Proof. solve_decision. Defined.
#[export] Instance target_dec t ux ea k : Decision (target_ok t ux ea k).
Proof. unfold target_ok, entry_ok. apply _. Defined.
#[export] Instance ncall_dec idle t c k : Decision (ncall_enabled idle t c k).
Proof. destruct c; unfold ncall_enabled, entry_ok, may_wait; apply _. Defined.
#[export] Instance nirq_dec i k : Decision (nirq_enabled i k).
Proof. destruct i; unfold nirq_enabled; apply _. Defined.




