(* ===== verification/TaskLife.v ===== *)
(** * Creating and deleting tasks (tasks.c)

    A task made by [xTaskCreate] has its stack and its TCB on the heap; who
    deletes another task frees them at once, a task that deletes itself leaves
    that to the idle task.  The functions work on any state that has the kernel
    as a part, beside a heap: the kernel alone, or with the queues. *)
From S2P Require Import Prelude KList Tasks Prog Queue SchedLock KernelLock Heap4 QueueMgmt.

(** A state with the kernel in it. *)
Class KernelIn (S : Type) := kernel_part : ∀ {A}, K A → M S A.
#[global] Hint Mode KernelIn ! : typeclass_instances.
#[export] Instance kernel_in_kernel : KernelIn kernel := λ A m, m.
#[export] Instance kernel_in_qsys : KernelIn qsys := λ A m, ker m.

(** [sizeof( TCB_t )] and [sizeof( StackType_t )] of the 32-bit target *)
Definition sizeof_TCB_t : Z := 100.
Definition sizeof_StackType_t : Z := 4.
Definition tskDYNAMICALLY_ALLOCATED_STACK_AND_TCB : Z := 0.
Definition tskSTATICALLY_ALLOCATED_STACK_ONLY : Z := 1.
Definition tskSTATICALLY_ALLOCATED_STACK_AND_TCB : Z := 2.

(** ** In memory the caller provides *)
Definition prvCreateStaticTask (uxPriority0 puxStackBuffer pxTaskBuffer : Z) : K (option Z) :=
  configASSERT (negb (puxStackBuffer =? 0)) ;>
  configASSERT (negb (pxTaskBuffer =? 0)) ;>
  if negb (pxTaskBuffer =? 0) && negb (puxStackBuffer =? 0) then
    memsetTCB pxTaskBuffer puxStackBuffer tskSTATICALLY_ALLOCATED_STACK_AND_TCB ;>
    prvInitialiseNewTask uxPriority0 pxTaskBuffer ;>
    retM (Some pxTaskBuffer)
  else retM None.
(** The handle of the new task. *)
Definition xTaskCreateStatic (uxPriority0 puxStackBuffer pxTaskBuffer : Z) : K (option Z) :=
  let* pxNewTCB := prvCreateStaticTask uxPriority0 puxStackBuffer pxTaskBuffer in
  match pxNewTCB with
  | Some t => prvAddNewTaskToReadyList t ;> retM (Some t)
  | None => retM None
  end.

Section heap.
Context {S : Type} `{KernelIn S} `{SchedulerLock S} `{HeapLayout}.
Abbreviation HM := (M (guarded S heap)).
Abbreviation HP := (prog (guarded S heap)).
Definition on_kernel {A} (m : K A) : HM A := on_sched (kernel_part m).

(** ** On the heap *)
(** [pxNewTCB], or [NULL] *)
Definition prvCreateTask (uxStackDepth uxPriority0 : Z) : HM Z :=
  let* pxStack := pvPortMalloc (wrap32 (uxStackDepth * sizeof_StackType_t)) in
  let* pxNewTCB :=
    (if negb (pxStack =? 0) then
       let* pxNewTCB := pvPortMalloc sizeof_TCB_t in
       (if negb (pxNewTCB =? 0)
        then on_kernel (memsetTCB pxNewTCB pxStack tskDYNAMICALLY_ALLOCATED_STACK_AND_TCB)
        else vPortFree pxStack) ;>
       retM pxNewTCB
     else retM 0) in
  (when negb (pxNewTCB =? 0) then on_kernel (prvInitialiseNewTask uxPriority0 pxNewTCB)) ;>
  retM pxNewTCB.

(** The handle of the new task; [None] when it could not be made. *)
Definition xTaskCreate (uxStackDepth uxPriority0 : Z) : HM (option Z) :=
  let* pxNewTCB := prvCreateTask uxStackDepth uxPriority0 in
  if negb (pxNewTCB =? 0) then on_kernel (prvAddNewTaskToReadyList pxNewTCB) ;> retM (Some pxNewTCB)
  else retM None.

(** ** Deletion *)

(** The object is gone. *)
Definition forget_task (t : Z) : K unit :=
  modify (λ k, k <| k_tcbs ::= delete t |>
    <| k_lists ::= λ s, s <| ls_items ::= λ m, delete (EventItem t) (delete (StateItem t) m) |> |>).

Definition prvDeleteTCB (pxTCB : Z) : HM unit :=
  let* st := on_kernel (tcb_get pxTCB ucStaticallyAllocated) in
  if st =? tskDYNAMICALLY_ALLOCATED_STACK_AND_TCB then
    let* stack := on_kernel (tcb_get pxTCB pxStack) in
    vPortFree stack ;>
    vPortFree pxTCB ;>
    on_kernel (forget_task pxTCB)
  else if st =? tskSTATICALLY_ALLOCATED_STACK_ONLY then
    vPortFree pxTCB ;>
    on_kernel (forget_task pxTCB)
  else configASSERT (st =? tskSTATICALLY_ALLOCATED_STACK_AND_TCB).

(** The critical section of [vTaskDelete]: answers [pxTCB] and
    [xDeleteTCBInIdleTask]. *)
Definition delete_unlink (xTaskToDelete : option Z) : K (Z * bool) :=
  let* h := prvGetTCBFromHandle xTaskToDelete in
  configASSERT (bool_decide (is_Some h)) ;>
  let* pxTCB := derefM h in
  let* n := kl (uxListRemove (StateItem pxTCB)) in
  (when n =? 0 then let* p := tcb_get pxTCB uxPriority in taskRESET_READY_PRIORITY p) ;>
  let* c := kl (listLIST_ITEM_CONTAINER (EventItem pxTCB)) in
  (when bool_decide (is_Some c) then let* _ := kl (uxListRemove (EventItem pxTCB)) in retM tt) ;>
  modify (λ k, k <| uxTaskNumber ::= λ n, wrap32 (n + 1) |>) ;>
  let* k := getM in
  let xTaskIsRunningOrYielding := bool_decide (pxCurrentTCB k = Some pxTCB) in
  if xSchedulerRunning k && xTaskIsRunningOrYielding then
    kl (vListInsertEnd TerminationL (StateItem pxTCB)) ;>
    modify (λ k, k <| uxDeletedTasksWaitingCleanUp ::= λ n, wrap32 (n + 1) |>) ;>
    retM (pxTCB, true)
  else
    modify (λ k, k <| uxCurrentNumberOfTasks ::= λ n, wrap32 (n - 1) |>) ;>
    prvResetNextTaskUnblockTime ;>
    retM (pxTCB, false).
Definition delete_yield (pxTCB : Z) : K unit :=
  let* k := getM in
  when xSchedulerRunning k then
    (when bool_decide (pxCurrentTCB k = Some pxTCB) then
       configASSERT (uxSchedulerSuspended k =? 0) ;>
       portYIELD_WITHIN_API).

Definition vTaskDelete (xTaskToDelete : option Z) : HP unit :=
  let! (pxTCB, xDeleteTCBInIdleTask) := Atomic (on_kernel (critical (delete_unlink xTaskToDelete))) in
  (if negb xDeleteTCBInIdleTask then Atomic (prvDeleteTCB pxTCB) else Ret tt) ;!
  Atomic (on_kernel (delete_yield pxTCB)).

(** *** In the idle task *)

(** The critical section of [prvCheckTasksWaitingTermination]. *)
Definition take_terminated : K Z :=
  let* pxTCB := kl (listGET_OWNER_OF_HEAD_ENTRY TerminationL) in
  let* _ := kl (uxListRemove (StateItem pxTCB)) in
  modify (λ k, k <| uxCurrentNumberOfTasks ::= λ n, wrap32 (n - 1) |>) ;>
  modify (λ k, k <| uxDeletedTasksWaitingCleanUp ::= λ n, wrap32 (n - 1) |>) ;>
  retM pxTCB.
Definition prvCheckTasksWaitingTermination : HP unit :=
  Loop (λ _ : unit,
    let! n := Atomic (on_kernel (gets uxDeletedTasksWaitingCleanUp)) in
    if 0 <? n then
      let! pxTCB := Atomic (on_kernel (critical take_terminated)) in
      Atomic (prvDeleteTCB pxTCB) ;!
      Ret (inl tt)
    else Ret (inr tt)) tt.
(** One turn of the endless loop of [prvIdleTask]: there is no idle hook, and the
    idle task does not yield to others of its priority. *)
Definition prvIdleTask_turn : HP unit := prvCheckTasksWaitingTermination.
End heap.
Arguments on_kernel {S _ A} m.
