(* ===== verification/TaskDelete.v ===== *)
(** * Deleting tasks: rules

    What the critical section of [vTaskDelete] does when a running task deletes
    itself: the scheduler's invariant is kept, and the task waits for the idle
    task to free it. *)
From S2P Require Import Prelude KList KListSpec KListProps Tasks TasksView TasksInv TasksTick TasksBlock TasksSuspend TasksOps TasksMachine.
From S2P Require Import TasksFrame TasksBlind TasksDetach Prog Queue SchedLock KernelLock Heap4 QueueMgmt TaskLife.

Section delete.
Context (idle : Z).

(** The running task [c] is among those that wait for termination. *)
Record terminated (k : kernel) (c : Z) (k' : kernel) : Prop := {
  tm_good : kgood idle k';
  tm_frame : frame k k';
  tm_in : state_in k' c = Some TerminationL;
  tm_gone : ready k' c = false;
  tm_waiting : uxDeletedTasksWaitingCleanUp k' = wrap32 (uxDeletedTasksWaitingCleanUp k + 1);
  tm_tcbs : k_tcbs k' = k_tcbs k;
  tm_tick : xTickCount k' = xTickCount k;
  tm_same t : t ≠ c → state_in k' t = state_in k t ∧ event_in k' t = event_in k t
}.

Lemma rep_has_list s m l : rep s m → is_Some (m !! l) → has_list s l.
Proof.
  intros Hrep [r Hr]. pose proof (rl_count _ _ _ (rep_lists _ _ Hrep _ _ Hr)) as Hc. unfold countOf in Hc.
  unfold has_list. destruct (ls_lists s !! l); [by eexists|done].
Qed.
Lemma kgood_list_inv k v l : kinv k v → has_list (k_lists k) l → is_Some (rings v !! l).
Proof. intros Hinv [x Hl]. by eapply (rep_dom _ _ (kr_rep _ _ _ (ki_rep _ _ _ Hinv))). Qed.

Lemma wp_delete_self k c : kgood idle k → pxCurrentTCB k = Some c → ready k c = true → c ≠ idle →
  xSchedulerRunning k = true →
  wp (critical (delete_unlink None)) (λ r k', r = (c, true) ∧ terminated k c k') k.
Proof.
  intros (v & Hk & Hd) Hc Hr Hne Hrun. destruct (ready_detached idle k v c Hk Hd Hr) as (Hno & y & Hy & Hin).
  apply ksafe_kinv in Hk as [Hinv [p Hp]]. unfold critical, delete_unlink, prvGetTCBFromHandle.
  apply wp_bind, wp_gets. rewrite Hc. apply wp_bind, wp_assert; [done|]. apply wp_bind, wp_ret.
  apply wp_bind, wp_kl. eapply ws_uxListRemove; [apply Hinv|exact Hin|]. intros s1 n Hk1 Hn.
  apply wp_bind. eapply wp_reset_after_leave; [exact Hinv|exact Hy|exact Hin|exact Hk1|exact Hn|].
  intros top Hhole. apply wp_bind, wp_kl. simpl. eapply ws_container; [exact Hk1|simpl; eauto|]. intros ce Hce.
  destruct ce as [l|].
  { pose proof (proj1 (Hce l) eq_refl) as [Hl _]%(in_list_vrem (ki_rep _ _ _ Hinv)). by destruct (Hno l). }
  simpl. apply wp_bind, wp_ret, wp_bind, wp_modify, wp_bind, wp_getM. simpl. rewrite Hrun, Hc, bool_decide_true by done.
  simpl. apply wp_bind, wp_kl. simpl. eapply ws_vListInsertEnd; [exact Hk1|apply (vrem_none (ki_rep _ _ _ Hinv))|simpl; eauto| |].
  { apply list_fixed; [apply Hhole|set_solver]. }
  intros s3 Hk3. apply wp_bind, wp_modify, wp_ret. split; [done|].
  set (v' := vend TerminationL (StateItem c) (vrem (StateItem c) v)) in *.
  match goal with |- terminated _ _ ?kk => set (k' := kk) end.
  assert (is_Some (rings (vrem (StateItem c) v) !! TerminationL)) as HT by (apply list_fixed; [apply Hhole|set_solver]).
  assert (kinv k' v') as Hinv'.
  { assert (kinv_from (xTickCount k) (k <| k_lists := s1 |> <| uxTopReadyPriority := top |> <| k_lists := s3 |>) v') as H1.
    { apply kinv_enter_other; [done|by right|done]. }
    by destruct H1. }
  assert (∀ i l, in_list v' i l ↔ (i = StateItem c ∧ l = TerminationL) ∨ (in_list v i l ∧ i ≠ StateItem c)) as Hv'.
  { intros i l. unfold v'. rewrite (in_list_vend Hk1) by done. by rewrite (in_list_vrem (ki_rep _ _ _ Hinv)). }
  split.
  - apply (kgood_intro idle k' v' Hinv').
    + exists p. apply Hv'. right. split; [done|congruence].
    + apply (detached_sub v); [done| |].
      * intros t q [[_ ?]|[Hq _]]%Hv'; [done|eauto].
      * intros t l [[? _]|[Hl _]]%Hv'; done.
  - split; [|done]. split; try done. intros l Hl. apply (kgood_list_inv k v) in Hl; [|done].
    apply (rep_has_list _ _ _ (kr_rep _ _ _ (ki_rep _ _ _ Hinv'))). by apply vend_list, vrem_list.
  - apply (state_in_iff k' v' Hinv'). apply Hv'. by left.
  - apply not_true_iff_false. intros Hr'. apply (ready_iff k' v' Hinv' c y Hy) in Hr'.
    apply Hv' in Hr' as [[_ ?]|[_ ?]]; done.
  - done.
  - done.
  - done.
  - intros t Ht. split; apply option_eq; intros l.
    + rewrite (state_in_iff k' v' Hinv'), (state_in_iff k v Hinv), Hv'. naive_solver.
    + rewrite (event_in_iff k' v' Hinv'), (event_in_iff k v Hinv), Hv'. naive_solver.
Qed.
End delete.
