(* ===== verification/EventGroups.v ===== *)
(** * Event groups (src/FreeRTOS/Source/event_groups.c)

    An event group is a word of 24 event bits and a list of the tasks that wait
    for some of them; the list is one of the kernel's ([EventGroupL]).  What a
    waiter wants is kept, with control bits, in the value of its event item.  As
    in [Queue], a definition in the monad [EM] is code that runs in one go, one
    of type [EP] a function that can block. *)
From S2P Require Import Prelude KList Tasks Prog SchedLock Heap4.

(** ** State *)

(** [xTasksWaitingForBits] is the kernel's list [EventGroupL] of the object's address. *)
Record EventGroup_t := mkEventGroup {
  uxEventBits : Z;
  uxEventGroupNumber : Z;
  eg_ucStaticallyAllocated : Z
}.
#[global] Instance eta_EventGroup : Eta EventGroup_t := λ g,
  mkEventGroup (uxEventBits g) (uxEventGroupNumber g) (eg_ucStaticallyAllocated g).

(** The kernel and the event groups by address. *)
Record esys := mkEsys {
  e_kernel : kernel;
  e_groups : gmap Z EventGroup_t
}.
#[global] Instance eta_esys : Eta esys := λ s, mkEsys (e_kernel s) (e_groups s).

Abbreviation EM := (M esys).
Abbreviation EP := (prog esys).

(** ** Constants *)
Definition eventCLEAR_EVENTS_ON_EXIT_BIT : Z := 16777216.
Definition eventUNBLOCKED_DUE_TO_BIT_SET : Z := 33554432.
Definition eventWAIT_FOR_ALL_BITS : Z := 67108864.
Definition eventEVENT_BITS_CONTROL_BYTES : Z := 4278190080.
(** [sizeof( EventGroup_t )] of the 32-bit target *)
Definition sizeof_EventGroup_t : Z := 32.

(** [x & ~m] of two [EventBits_t] *)
Definition without_bits (x m : Z) : Z := Z.land x (wrap32 (Z.lnot m)).

(** ** Access to the state *)
Definition eker {A} (m : K A) : EM A := zoom e_kernel (λ k s, s <| e_kernel := k |>) m.
Definition e_get {A} (e : Z) (f : EventGroup_t → A) : EM A :=
  let* s := getM in derefM (f <$> e_groups s !! e).
Definition e_set (e : Z) (f : EventGroup_t → EventGroup_t) : EM unit :=
  let* s := getM in
  match e_groups s !! e with
  | None => faultM
  | Some g => modify (λ s, s <| e_groups ::= <[e := f g]> |>)
  end.
(** [configASSERT( xEventGroup )] and the assertions on the bits of a call *)
Definition assert_group (e : Z) : EM unit := configASSERT (negb (e =? 0)).
Definition assert_no_control (bits : Z) : EM unit :=
  configASSERT (Z.land bits eventEVENT_BITS_CONTROL_BYTES =? 0).
Definition e_assert_may_block (xTicksToWait : Z) : EM unit :=
  let* st := eker xTaskGetSchedulerState in
  configASSERT (negb (match st with taskSCHEDULER_SUSPENDED => true | _ => false end && negb (xTicksToWait =? 0))).

(** ** Creation *)
Definition new_group (xEventGroup ucStatic : Z) (raw : EventGroup_t) : EM unit :=
  modify (λ s, s <| e_groups ::= <[xEventGroup := raw]> |>) ;>
  e_set xEventGroup (λ g, g <| uxEventBits := 0 |>) ;>
  eker (kl (vListInitialise (EventGroupL xEventGroup))) ;>
  e_set xEventGroup (λ g, g <| eg_ucStaticallyAllocated := ucStatic |>).

(** [raw] is what the memory of the object holds. *)
Definition xEventGroupCreateStatic (pxEventGroupBuffer : Z) (raw : EventGroup_t) : EM Z :=
  assert_group pxEventGroupBuffer ;>
  (when negb (pxEventGroupBuffer =? 0) then new_group pxEventGroupBuffer 1 raw) ;>
  retM pxEventGroupBuffer.

#[export] Instance group_lock : SchedulerLock esys := {|
  suspendAll := eker vTaskSuspendAll;
  resumeAll := eker xTaskResumeAll
|}.
Abbreviation EHM := (M (guarded esys heap)).

(** The memory of a heap block read as an [EventGroup_t]: [uxEventGroupNumber] is
    the only field that [xEventGroupCreate] does not set. *)
Definition raw_group (m : gmap Z Z) (a : Z) : EventGroup_t := mkEventGroup (word m a) (word m (a + 24)) (peek m (a + 28)).

Definition xEventGroupCreate `{HeapLayout} : EHM Z :=
  let* pxEventBits := pvPortMalloc sizeof_EventGroup_t in
  (when negb (pxEventBits =? 0) then
     let* g := getM in
     on_sched (new_group pxEventBits 0 (raw_group (h_mem (g_data g)) pxEventBits))) ;>
  retM pxEventBits.

(** ** Setting and clearing bits *)

(** Is the condition met that a task waits for? *)
Definition prvTestWaitCondition (uxCurrentEventBits uxBitsToWaitFor : Z) (xWaitForAllBits : bool) : bool :=
  if negb xWaitForAllBits then negb (Z.land uxCurrentEventBits uxBitsToWaitFor =? 0)
  else Z.land uxCurrentEventBits uxBitsToWaitFor =? uxBitsToWaitFor.

(** One turn of the loop of [xEventGroupSetBits] over the waiters, with its local
    variables [pxListItem] and [uxBitsToClear]. *)
Definition set_bits_one (e : Z) : option (ptr (I:=item) (L:=lid)) * Z →
    EM ((option (ptr (I:=item) (L:=lid)) * Z) + Z) :=
  λ '(pxListItem, uxBitsToClear),
  if bool_decide (pxListItem = Some (PEnd (EventGroupL e))) then retM (inr uxBitsToClear)
  else
    let* pxNext := eker (kl (get_next pxListItem)) in
    let* uxBitsWaitedFor := eker (kl (get_value pxListItem)) in
    let uxControlBits := Z.land uxBitsWaitedFor eventEVENT_BITS_CONTROL_BYTES in
    let uxBitsWaitedFor := without_bits uxBitsWaitedFor eventEVENT_BITS_CONTROL_BYTES in
    let* bits := e_get e uxEventBits in
    let xMatchFound :=
      if Z.land uxControlBits eventWAIT_FOR_ALL_BITS =? 0 then negb (Z.land uxBitsWaitedFor bits =? 0)
      else Z.land uxBitsWaitedFor bits =? uxBitsWaitedFor in
    if xMatchFound then
      let uxBitsToClear :=
        if negb (Z.land uxControlBits eventCLEAR_EVENTS_ON_EXIT_BIT =? 0)
        then Z.lor uxBitsToClear uxBitsWaitedFor else uxBitsToClear in
      (match pxListItem with
       | Some (PItem i) => eker (vTaskRemoveFromUnorderedEventList i (Z.lor bits eventUNBLOCKED_DUE_TO_BIT_SET))
       | _ => faultM
       end) ;>
      retM (inl (pxNext, uxBitsToClear))
    else retM (inl (pxNext, uxBitsToClear)).

(** The code between [vTaskSuspendAll] and [xTaskResumeAll]; one turn of the loop
    per waiter, and one more. *)
Definition set_bits_locked (e uxBitsToSet : Z) : EM Z :=
  let* pxListItem := eker (kl (get_next (Some (PEnd (EventGroupL e))))) in
  e_set e (λ g, g <| uxEventBits ::= λ b, Z.lor b uxBitsToSet |>) ;>
  let* n := eker (kl (listCURRENT_LIST_LENGTH (EventGroupL e))) in
  let* uxBitsToClear := iterM (S (Z.to_nat n)) (set_bits_one e) (pxListItem, 0) in
  e_set e (λ g, g <| uxEventBits ::= λ b, without_bits b uxBitsToClear |>) ;>
  e_get e uxEventBits.

Definition xEventGroupSetBits (xEventGroup uxBitsToSet : Z) : EP Z :=
  Atomic (assert_group xEventGroup ;> assert_no_control uxBitsToSet) ;!
  Atomic (eker vTaskSuspendAll) ;!
  let! uxReturnBits := Atomic (set_bits_locked xEventGroup uxBitsToSet) in
  let! _ := Atomic (eker xTaskResumeAll) in
  Ret uxReturnBits.

Definition xEventGroupClearBits (xEventGroup uxBitsToClear : Z) : EM Z :=
  assert_group xEventGroup ;>
  assert_no_control uxBitsToClear ;>
  let* uxReturn := e_get xEventGroup uxEventBits in
  e_set xEventGroup (λ g, g <| uxEventBits ::= λ b, without_bits b uxBitsToClear |>) ;>
  retM uxReturn.
Definition xEventGroupGetBits (xEventGroup : Z) : EM Z := xEventGroupClearBits xEventGroup 0.
Definition xEventGroupGetBitsFromISR (xEventGroup : Z) : EM Z := e_get xEventGroup uxEventBits.

(** The functions the timer task runs for an interrupt *)
Definition vEventGroupSetBitsCallback (pvEventGroup ulBitsToSet : Z) : EP unit :=
  let! _ := xEventGroupSetBits pvEventGroup ulBitsToSet in Ret tt.
Definition vEventGroupClearBitsCallback (pvEventGroup ulBitsToClear : Z) : EM unit :=
  let* _ := xEventGroupClearBits pvEventGroup ulBitsToClear in retM tt.

(** ** Waiting *)

(** What both waiting functions do after they have blocked: the bits that woke
    the task, or, after a time-out, the bits now, of which [clear] may take some. *)
Definition after_block (e : Z) (xAlreadyYielded : bool) (clear : Z → bool) (uxBitsToWaitFor : Z) : EP Z :=
  (if negb xAlreadyYielded then Atomic (eker portYIELD_WITHIN_API) else Ret tt) ;!
  let! uxReturn := Atomic (eker uxTaskResetEventItemValue) in
  let! uxReturn :=
    (if Z.land uxReturn eventUNBLOCKED_DUE_TO_BIT_SET =? 0 then
       Atomic (
         let* uxReturn := e_get e uxEventBits in
         (when clear uxReturn then e_set e (λ g, g <| uxEventBits ::= λ b, without_bits b uxBitsToWaitFor |>)) ;>
         retM uxReturn)
     else Ret uxReturn) in
  Ret (without_bits uxReturn eventEVENT_BITS_CONTROL_BYTES).

(** The code between [vTaskSuspendAll] and [xTaskResumeAll] of
    [xEventGroupWaitBits]: answers [uxReturn] and [xTicksToWait]. *)
Definition wait_bits_locked (e uxBitsToWaitFor : Z) (xClearOnExit xWaitForAllBits : bool) (xTicksToWait : Z) : EM (Z * Z) :=
  let* uxCurrentEventBits := e_get e uxEventBits in
  if prvTestWaitCondition uxCurrentEventBits uxBitsToWaitFor xWaitForAllBits then
    (when xClearOnExit then e_set e (λ g, g <| uxEventBits ::= λ b, without_bits b uxBitsToWaitFor |>)) ;>
    retM (uxCurrentEventBits, 0)
  else if xTicksToWait =? 0 then retM (uxCurrentEventBits, xTicksToWait)
  else
    let uxControlBits := if xClearOnExit then eventCLEAR_EVENTS_ON_EXIT_BIT else 0 in
    let uxControlBits := if xWaitForAllBits then Z.lor uxControlBits eventWAIT_FOR_ALL_BITS else uxControlBits in
    eker (vTaskPlaceOnUnorderedEventList (EventGroupL e) (Z.lor uxBitsToWaitFor uxControlBits) xTicksToWait) ;>
    retM (0, xTicksToWait).

Definition xEventGroupWaitBits (xEventGroup uxBitsToWaitFor : Z) (xClearOnExit xWaitForAllBits : bool)
    (xTicksToWait : Z) : EP Z :=
  Atomic (
    assert_group xEventGroup ;>
    assert_no_control uxBitsToWaitFor ;>
    configASSERT (negb (uxBitsToWaitFor =? 0)) ;>
    e_assert_may_block xTicksToWait) ;!
  Atomic (eker vTaskSuspendAll) ;!
  let! (uxReturn, xTicksToWait) :=
    Atomic (wait_bits_locked xEventGroup uxBitsToWaitFor xClearOnExit xWaitForAllBits xTicksToWait) in
  let! xAlreadyYielded := Atomic (eker xTaskResumeAll) in
  if negb (xTicksToWait =? 0) then
    after_block xEventGroup xAlreadyYielded
      (λ b, prvTestWaitCondition b uxBitsToWaitFor xWaitForAllBits && xClearOnExit) uxBitsToWaitFor
  else Ret uxReturn.

(** [xEventGroupSync] from the nested call of [xEventGroupSetBits] on. *)
Definition sync_locked (e uxOriginalBitValue uxBitsToSet uxBitsToWaitFor xTicksToWait : Z) : EM (Z * Z) :=
  if Z.land (Z.lor uxOriginalBitValue uxBitsToSet) uxBitsToWaitFor =? uxBitsToWaitFor then
    e_set e (λ g, g <| uxEventBits ::= λ b, without_bits b uxBitsToWaitFor |>) ;>
    retM (Z.lor uxOriginalBitValue uxBitsToSet, 0)
  else if negb (xTicksToWait =? 0) then
    eker (vTaskPlaceOnUnorderedEventList (EventGroupL e)
      (Z.lor uxBitsToWaitFor (Z.lor eventCLEAR_EVENTS_ON_EXIT_BIT eventWAIT_FOR_ALL_BITS)) xTicksToWait) ;>
    retM (0, xTicksToWait)
  else
    let* uxReturn := e_get e uxEventBits in
    retM (uxReturn, xTicksToWait).

Definition xEventGroupSync (xEventGroup uxBitsToSet uxBitsToWaitFor xTicksToWait : Z) : EP Z :=
  Atomic (
    assert_no_control uxBitsToWaitFor ;>
    configASSERT (negb (uxBitsToWaitFor =? 0)) ;>
    e_assert_may_block xTicksToWait) ;!
  Atomic (eker vTaskSuspendAll) ;!
  let! uxOriginalBitValue := Atomic (e_get xEventGroup uxEventBits) in
  let! _ := xEventGroupSetBits xEventGroup uxBitsToSet in
  let! (uxReturn, xTicksToWait) :=
    Atomic (sync_locked xEventGroup uxOriginalBitValue uxBitsToSet uxBitsToWaitFor xTicksToWait) in
  let! xAlreadyYielded := Atomic (eker xTaskResumeAll) in
  if negb (xTicksToWait =? 0) then
    after_block xEventGroup xAlreadyYielded
      (λ b, Z.land b uxBitsToWaitFor =? uxBitsToWaitFor) uxBitsToWaitFor
  else Ret uxReturn.

(** ** Deletion *)

(** One turn of the loop that readies the waiters. *)
Definition delete_one (e : Z) (_ : unit) : EM (unit + unit) :=
  let* n := eker (kl (listCURRENT_LIST_LENGTH (EventGroupL e))) in
  if 0 <? n then
    let* first := eker (kl (get_next (Some (PEnd (EventGroupL e))))) in
    configASSERT (negb (bool_decide (first = Some (PEnd (EventGroupL e))))) ;>
    (match first with
     | Some (PItem i) => eker (vTaskRemoveFromUnorderedEventList i eventUNBLOCKED_DUE_TO_BIT_SET)
     | _ => faultM
     end) ;>
    retM (inl tt)
  else retM (inr tt).

Definition vEventGroupDelete `{HeapLayout} (xEventGroup : Z) : EHM unit :=
  on_sched (
    assert_group xEventGroup ;>
    eker vTaskSuspendAll ;>
    (let* n := eker (kl (listCURRENT_LIST_LENGTH (EventGroupL xEventGroup))) in
     iterM (S (Z.to_nat n)) (delete_one xEventGroup) tt) ;>
    let* _ := eker xTaskResumeAll in retM tt) ;>
  let* st := on_sched (e_get xEventGroup eg_ucStaticallyAllocated) in
  when st =? 0 then
    (vPortFree xEventGroup ;>
     on_sched (modify (λ s, s <| e_groups ::= delete xEventGroup |>))).

(** [*ppxEventGroupBuffer], or [pdFALSE] *)
Definition xEventGroupGetStaticBuffer (xEventGroup : Z) : EM (option Z) :=
  assert_group xEventGroup ;>
  e_get xEventGroup (λ g, if eg_ucStaticallyAllocated g =? 1 then Some xEventGroup else None).

(** ** Trace facility *)
Definition uxEventGroupGetNumber (xEventGroup : Z) : EM Z :=
  if xEventGroup =? 0 then retM 0 else e_get xEventGroup uxEventGroupNumber.
Definition vEventGroupSetNumber (xEventGroup n : Z) : EM unit :=
  e_set xEventGroup (λ g, g <| uxEventGroupNumber := n |>).
