(* ===== verification/EventGroupOps.v ===== *)
(** * What the operations of event groups do

    The loop of [xEventGroupSetBits] along the waiters, waiting, and giving up,
    in terms of the scheduler's view: who is readied, who stays, and what the
    event items hold. *)
From S2P Require Import Prelude KList KListSpec KListProps Tasks TasksView TasksInv TasksTick.
From S2P Require Import TasksSwitch TasksBlock TasksResume TasksDelay TasksOps TasksEvents TasksMachine TasksCheck.
From S2P Require Import TasksWaiters Prog SchedLock Heap4 EventGroups.
From Stdlib Require Import ZifyBool.

(** ** What a waiter's event value says *)
Definition wanted (value : Z) : Z := without_bits value eventEVENT_BITS_CONTROL_BYTES.
Definition wants_all (value : Z) : bool := Z.testbit value 26.
Definition clears_on_exit (value : Z) : bool := Z.testbit value 24.
(** The bits satisfy the waiter. *)
Definition met (bits value : Z) : bool := prvTestWaitCondition bits (wanted value) (wants_all value).
(** The bits that the waiters with these values take away when they go. *)
Definition taken (values : list Z) : Z :=
  foldr (λ value, Z.lor (if clears_on_exit value then wanted value else 0)) 0 values.

Lemma land_pow2_eqb x n : 0 ≤ n → (Z.land x (2 ^ n) =? 0) = negb (Z.testbit x n).
Proof.
  intros Hn. destruct (Z.testbit x n) eqn:Hb; simpl.
  - apply Z.eqb_neq. intros H0. assert (Z.testbit (Z.land x (2 ^ n)) n = true) as Ht.
    { rewrite Z.land_spec, Hb, Z.pow2_bits_true by done. done. }
    rewrite H0, Z.testbit_0_l in Ht. done.
  - apply Z.eqb_eq, Z.bits_inj'. intros m Hm. rewrite Z.land_spec, Z.testbit_0_l, Z.pow2_bits_eqb by done.
    destruct (Z.eqb_spec n m) as [<-|]; [by rewrite Hb|by rewrite andb_false_r].
Qed.
Lemma control_bit x n : 24 ≤ n < 32 →
  (Z.land (Z.land x eventEVENT_BITS_CONTROL_BYTES) (2 ^ n) =? 0) = negb (Z.testbit x n).
Proof.
  intros Hn. rewrite land_pow2_eqb by lia. f_equal. rewrite Z.land_spec.
  replace (Z.testbit eventEVENT_BITS_CONTROL_BYTES n) with true; [by rewrite andb_true_r|].
  assert (n = 24 ∨ n = 25 ∨ n = 26 ∨ n = 27 ∨ n = 28 ∨ n = 29 ∨ n = 30 ∨ n = 31) as Hc by lia.
  by destruct Hc as [->|[->|[->|[->|[->|[->|[->| ->]]]]]]].
Qed.

(** The condition the loop computes is the one the waiter asked for. *)
Lemma match_found bits value :
  (if Z.land (Z.land value eventEVENT_BITS_CONTROL_BYTES) eventWAIT_FOR_ALL_BITS =? 0
   then negb (Z.land (wanted value) bits =? 0) else Z.land (wanted value) bits =? wanted value) = met bits value.
Proof.
  unfold met, prvTestWaitCondition, wants_all.
  change eventWAIT_FOR_ALL_BITS with (2 ^ 26). rewrite control_bit by lia.
  rewrite (Z.land_comm bits). done.
Qed.

(** ** Walking along a list *)
Lemma prev_of_nil l : prev_of (I:=item) (L:=lid) l [] = PEnd l.
Proof. done. Qed.
Lemma ws_get_next s T v l (l1 l2 : list item) (Q : option ptr → store → Prop) :
  krep s T v → is_Some (rings v !! l) → vitems v l = l1 ++ l2 →
  Q (Some (next_of l l2)) s → wp (get_next (Some (prev_of l l1))) Q s.
Proof.
  intros Hk [r Hr] Hi HQ. unfold vitems in Hi. rewrite Hr in Hi. simpl in Hi.
  pose proof (ring_link s (rings v) l r (kr_rep _ _ _ Hk) Hr l1 l2 Hi) as [Hn _].
  apply wp_get_next; [by eapply nextOf_present|]. by rewrite Hn.
Qed.
Lemma ws_get_value s T v i (Q : Z → store → Prop) :
  krep s T v → is_Some (T !! itask i) → Q (vals v i) s → wp (get_value (Some (PItem i))) Q s.
Proof.
  intros Hk HT HQ. eapply wp_get_value; [|exact HQ].
  rewrite <- (kr_vals _ _ _ Hk) by done. apply present_value. by apply Hk.
Qed.

(** *** Rules for the state *)
Lemma wp_eker {A} (m : K A) (Q : A → esys → Prop) s :
  wp m (λ a k, Q a (mkEsys k (e_groups s))) (e_kernel s) → wp (eker m) Q s.
Proof. intros Hm. by apply (wp_zoom e_kernel). Qed.
Lemma wp_e_get {A} e (f : EventGroup_t → A) g (Q : A → esys → Prop) s :
  e_groups s !! e = Some g → Q (f g) s → wp (e_get e f) Q s.
Proof. intros Hg HQ. unfold e_get. apply wp_bind, wp_getM. rewrite Hg. by eapply wp_deref. Qed.
Lemma wp_e_set e f g (Q : unit → esys → Prop) s :
  e_groups s !! e = Some g → Q tt (mkEsys (e_kernel s) (<[e := f g]> (e_groups s))) → wp (e_set e f) Q s.
Proof. intros Hg HQ. unfold e_set. apply wp_bind, wp_getM. rewrite Hg. by apply wp_modify. Qed.

(** ** Readying waiters *)
Section ops.
Context (idle : Z).

(** The item value of a waiter readied by the bits. *)
Definition woken_value (bits : Z) : Z :=
  Z.lor (Z.lor bits eventUNBLOCKED_DUE_TO_BIT_SET) taskEVENT_LIST_ITEM_VALUE_IN_USE.

(** The waiters [ts] have been readied, with [z] in their event items. *)
Record readied (k : kernel) (v : lview) (ts : list Z) (z : Z) (k' : kernel) (v' : lview) : Prop := {
  rd_ok : kok idle k' v';
  rd_woken : woken (k_tcbs k) ts v v';
  rd_vals : ∀ t, vals v' (EventItem t) = if decide (t ∈ ts) then z else vals v (EventItem t);
  rd_state : ∃ s top y, k' = k <| xYieldPendings := y |> <| k_lists := s |> <| uxTopReadyPriority := top |> ∧
    (y = true ↔ xYieldPendings k = true ∨ ∃ t, t ∈ ts ∧ prio_above_current k t)
}.

Lemma readied_nil k v z : kok idle k v → readied k v [] z k v.
Proof.
  intros Hk. split; [done|apply woken_nil| |].
  - intros t. by rewrite decide_False by apply not_elem_of_nil.
  - exists (k_lists k), (uxTopReadyPriority k), (xYieldPendings k). split; [by destruct k|].
    split; [by left|]. intros [?|(t & Ht & _)]; [done|]. by apply not_elem_of_nil in Ht.
Qed.
Lemma readied_kernel k v ts z k' v' : readied k v ts z k' v' →
  k_tcbs k' = k_tcbs k ∧ uxSchedulerSuspended k' = uxSchedulerSuspended k ∧ xPendedTicks k' = xPendedTicks k ∧
  pxCurrentTCB k' = pxCurrentTCB k ∧ pendsv k' = pendsv k.
Proof. intros [_ _ _ (s & top & y & -> & _)]. by split_and!. Qed.

Lemma removed_items k v susp t p l : kinv k v → event_list v l →
  vitems (removed_view susp t p v) l = filter (.≠ EventItem t) (vitems v l).
Proof.
  intros Hinv (Hst & Hnp & HL). pose proof (vitems_vrem (ki_rep _ _ _ Hinv) (EventItem t) l) as Hrem.
  unfold removed_view, vready. destruct (susp =? 0).
  - rewrite vitems_vend_ne by (intros <-; done). rewrite vitems_vrem_none; [done|].
    rewrite Hrem. intros [_ Hi]%list_elem_of_filter.
    apply in_list_vitems, (il_kind _ (ki_lists _ _ _ Hinv)) in Hi. simpl in Hi. congruence.
  - by rewrite vitems_vend_ne by done.
Qed.
Lemma removed_list susp t p v l : is_Some (rings (removed_view susp t p v) !! l) ↔ is_Some (rings v !! l).
Proof. unfold removed_view, vready. destruct (susp =? 0); by rewrite !vend_list, !vrem_list. Qed.

(** One more waiter is readied. *)
Lemma wp_ready_waiter k0 v0 ds z k v t l bits (Q : unit → kernel → Prop) :
  readied k0 v0 ds z k v → z = Z.lor bits taskEVENT_LIST_ITEM_VALUE_IN_USE → u32 z →
  event_list v l → in_list v (EventItem t) l → uxSchedulerSuspended k ≠ 0 →
  (∀ k' v', readied k0 v0 (ds ++ [t]) z k' v' → event_list v' l →
     vitems v' l = filter (.≠ EventItem t) (vitems v l) → Q tt k') →
  wp (vTaskRemoveFromUnorderedEventList (EventItem t) bits) Q k.
Proof.
  intros Hrd Hz Hu Hl Hin Hs HQ. pose proof (ko_inv _ _ _ (rd_ok _ _ _ _ _ _ Hrd)) as Hinv.
  destruct (in_list_tcb (ki_rep _ _ _ Hinv) _ _ Hin) as [x Hx]. simpl in Hx.
  eapply wp_mono.
  { apply (wp_vTaskRemoveFromUnorderedEventList idle k v t x l bits); [apply Hrd|done..|by rewrite <- Hz]. }
  rewrite <- Hz. intros [] k' [Hok (s & top & y & Hk' & Hy)].
  set (v1 := vval (EventItem t) z v) in *.
  assert (is_Some (rings v !! ReadyL (uxPriority x))) as HR.
  { apply list_ready; [apply Hinv|]. pose proof (ki_prio _ _ _ Hinv _ _ Hx). simpl in *. lia. }
  assert (is_Some (rings v !! PendingReadyL)) as HP by (apply list_fixed; [apply Hinv|set_solver]).
  destruct (readied_kernel _ _ _ _ _ _ Hrd) as (HT & Hsu & _ & Hcur & _).
  apply (HQ _ (removed_view 0 t (uxPriority x) v1)).
  - split.
    + exact Hok.
    + apply (woken_snoc _ _ _ _ v); [apply Hrd|]. intros i l'.
      change (in_list (removed_view 0 t (uxPriority x) v1) i l') with (in_list (removed_view 0 t (uxPriority x) v) i l').
      rewrite (in_list_removed _ _ _ 0 t _ i l' (ki_rep _ _ _ Hinv) HR HP). simpl.
      destruct (decide (itask i ∈ [t])) as [Hi%list_elem_of_singleton|Hi].
      * rewrite <- HT, Hi. split; [intros [[-> ->]|[_ ?]]; [|done]|].
        -- split; [done|]. by exists x.
        -- intros [Hst (x' & Hx' & ->)]. simplify_eq. left. by destruct i; simplify_eq/=.
      * rewrite list_elem_of_singleton in Hi. split; [intros [[-> _]|[? _]]; [done|done]|by right].
    + intros u. change (vals (removed_view 0 t (uxPriority x) v1) (EventItem u)) with (vals v1 (EventItem u)).
      unfold v1. simpl. destruct (decide (u = t)) as [->|Hne].
      * rewrite fn_lookup_insert, decide_True; [done|]. apply elem_of_app. right. by left.
      * rewrite fn_lookup_insert_ne by congruence. rewrite (rd_vals _ _ _ _ _ _ Hrd).
        apply decide_ext. rewrite elem_of_app, list_elem_of_singleton. naive_solver.
    + destruct (rd_state _ _ _ _ _ _ Hrd) as (s0 & top0 & y0 & Hk & Hy0). exists s, top, y.
      split; [by rewrite Hk', Hk|]. rewrite Hy, Hk. simpl. rewrite Hy0.
      setoid_rewrite elem_of_app. setoid_rewrite list_elem_of_singleton.
      assert (prio_above_current k t ↔ prio_above_current k0 t) as Hab.
      { unfold prio_above_current. by rewrite HT, Hcur. }
      rewrite <- Hk, Hab. naive_solver.
  - destruct Hl as (? & ? & HL). split_and!; [done..|]. by rewrite removed_list.
  - pose proof (removed_items k v 0 t (uxPriority x) l Hinv Hl) as He. exact He.
Qed.

Lemma filter_out_mid (us rem : list Z) t : NoDup (EventItem <$> us ++ t :: rem) →
  filter (.≠ EventItem t) (EventItem <$> us ++ t :: rem) = EventItem <$> us ++ rem.
Proof.
  intros Hnd. rewrite (filter_waiters (λ u, u ≠ t) (λ i, i ≠ EventItem t)) by naive_solver. f_equal.
  apply NoDup_fmap_1 in Hnd. apply NoDup_app in Hnd as (_ & Hno & [Ht _]%NoDup_cons).
  rewrite filter_app, filter_cons_False by naive_solver. f_equal; apply filter_all.
  - intros u Hu ->. eapply Hno; [exact Hu|by left].
  - by intros u Hu ->.
Qed.

Section set_bits.
Context (e : Z) (g : EventGroup_t) (gs : gmap Z EventGroup_t) (k0 : kernel) (v0 : lview) (z : Z).
Context (Hg : gs !! e = Some g) (Hz : z = woken_value (uxEventBits g)) (Hu : u32 z).
Abbreviation L := (EventGroupL e).
Abbreviation sat := (λ t, met (uxEventBits g) (vals v0 (EventItem t)) = true).
Abbreviation unsat := (λ t, met (uxEventBits g) (vals v0 (EventItem t)) = false).
Abbreviation values := (λ ts, vals v0 ∘ EventItem <$> ts).

Lemma still_waits ds k v t : readied k0 v0 ds z k v → in_list v (EventItem t) L → vals v (EventItem t) = vals v0 (EventItem t).
Proof.
  intros Hrd Hin. rewrite (rd_vals _ _ _ _ _ _ Hrd), decide_False; [done|]. intros Ht.
  apply (rd_woken _ _ _ _ _ _ Hrd) in Hin. simpl in Hin. rewrite decide_True in Hin by done. by destruct Hin.
Qed.

Lemma taken_app vs1 vs2 : taken (vs1 ++ vs2) = Z.lor (taken vs1) (taken vs2).
Proof. induction vs1 as [|v1 vs1 IH]; simpl; [by rewrite Z.lor_0_l|]. by rewrite IH, Z.lor_assoc. Qed.

(** One turn: the waiter [t] between the passed-over ones and the remaining ones. *)
Lemma wp_set_bits_one ds us t rem k v clear (Q : (option ptr * Z) + Z → esys → Prop) :
  readied k0 v0 ds z k v → event_list v L → vitems v L = EventItem <$> us ++ t :: rem →
  uxSchedulerSuspended k ≠ 0 →
  (∀ k' v' (b : bool), b = met (uxEventBits g) (vals v0 (EventItem t)) →
     readied k0 v0 (if b then ds ++ [t] else ds) z k' v' → event_list v' L →
     vitems v' L = EventItem <$> (if b then us else us ++ [t]) ++ rem → uxSchedulerSuspended k' ≠ 0 →
     Q (inl (Some (next_of L (EventItem <$> rem)), if b then Z.lor clear (taken (values [t])) else clear)) (mkEsys k' gs)) →
  wp (set_bits_one e (Some (PItem (EventItem t)), clear)) Q (mkEsys k gs).
Proof.
  intros Hrd Hl Hv Hs HQ. pose proof (ko_inv _ _ _ (rd_ok _ _ _ _ _ _ Hrd)) as Hinv.
  assert (in_list v (EventItem t) L) as Hin.
  { apply in_list_vitems. rewrite Hv. apply list_elem_of_fmap_2, elem_of_app. right. by left. }
  pose proof (still_waits _ _ _ _ Hrd Hin) as Hval.
  unfold set_bits_one. rewrite bool_decide_eq_false_2 by done.
  apply wp_bind, wp_eker, wp_kl. pose proof Hv as Hv2. rewrite fmap_app, fmap_cons, cons_middle, app_assoc in Hv2.
  rewrite <- (prev_of_snoc L (EventItem t) (EventItem <$> us)).
  eapply ws_get_next; [apply Hinv|apply Hl|exact Hv2|].
  replace (k <| k_lists := k_lists k |>) with k by by destruct k.
  apply wp_bind, wp_eker, wp_kl. rewrite prev_of_snoc. eapply ws_get_value; [apply Hinv|by eapply (in_list_tcb (ki_rep _ _ _ Hinv))|].
  replace (k <| k_lists := k_lists k |>) with k by by destruct k. rewrite Hval.
  apply wp_bind. eapply wp_e_get; [exact Hg|].
  change (without_bits (vals v0 (EventItem t)) eventEVENT_BITS_CONTROL_BYTES) with (wanted (vals v0 (EventItem t))).
  rewrite match_found. destruct (met (uxEventBits g) (vals v0 (EventItem t))) eqn:Hm.
  - apply wp_bind, wp_eker. eapply wp_ready_waiter; [exact Hrd|exact Hz|exact Hu|exact Hl|exact Hin|exact Hs|].
    intros k' v' Hrd' Hl' Hv'. apply wp_ret. rewrite Hv in Hv'. rewrite filter_out_mid in Hv'.
    2: { rewrite <- Hv. by eapply event_list_nodup. }
    change eventCLEAR_EVENTS_ON_EXIT_BIT with (2 ^ 24). rewrite control_bit, negb_involutive by lia.
    replace (if Z.testbit _ 24 then _ else clear) with (if true then Z.lor clear (taken (values [t])) else clear).
    2: { cbn -[Z.testbit Z.lor]. rewrite Z.lor_0_r. unfold clears_on_exit. destruct (Z.testbit _ 24); [done|by rewrite Z.lor_0_r]. }
    apply (HQ k' v' true); [done|done|done|done|].
    destruct (readied_kernel _ _ _ _ _ _ Hrd') as (_ & -> & _). by destruct (readied_kernel _ _ _ _ _ _ Hrd) as (_ & <- & _).
  - apply wp_ret. apply (HQ k v false); [done|done|done| |done]. by rewrite <- app_assoc.
Qed.

Lemma wp_set_bits_loop rem : ∀ fuel ds us k v clear,
  (length rem < fuel)%nat → readied k0 v0 ds z k v → event_list v L → vitems v L = EventItem <$> us ++ rem →
  uxSchedulerSuspended k ≠ 0 →
  wp (iterM fuel (set_bits_one e) (Some (next_of L (EventItem <$> rem)), clear)) (λ c s', ∃ k' v',
    s' = mkEsys k' gs ∧ readied k0 v0 (ds ++ filter sat rem) z k' v' ∧ event_list v' L ∧
    vitems v' L = EventItem <$> us ++ filter unsat rem ∧ c = Z.lor clear (taken (values (filter sat rem)))) (mkEsys k gs).
Proof.
  induction rem as [|t rem IH]; intros [|fuel] ds us k v clear Hf Hrd Hl Hv Hs; simpl in Hf; try lia; simpl iterM.
  - apply wp_bind. unfold set_bits_one. simpl. rewrite bool_decide_eq_true_2 by done. apply wp_ret, wp_ret.
    exists k, v. rewrite !filter_nil, !app_nil_r. simpl. rewrite Z.lor_0_r. split_and!; [done..| |done]. by rewrite Hv, app_nil_r.
  - apply wp_bind. rewrite next_of_cons. eapply wp_set_bits_one; [exact Hrd|exact Hl|exact Hv|exact Hs|].
    intros k' v' b Hb Hrd' Hl' Hv' Hs'. eapply wp_mono; [apply (IH fuel _ _ _ _ _ ltac:(lia) Hrd' Hl' Hv' Hs')|].
    intros c s' (k2 & v2 & -> & Hrd2 & Hl2 & Hv2 & ->). exists k2, v2. rewrite !filter_cons.
    destruct b; rewrite <- Hb.
    + rewrite decide_True, (decide_False (P:=true = false)) by done. rewrite <- app_assoc in Hrd2.
      split_and!; [done..|]. rewrite <- Z.lor_assoc. cbn -[Z.lor Z.testbit filter]. by rewrite Z.lor_0_r.
    + rewrite decide_False, (decide_True (P:=false = false)) by done. rewrite <- app_assoc in Hv2. by split_and!.
Qed.
End set_bits.

Lemma wp_set_bits_locked e g gs k v bits ts :
  gs !! e = Some g → kok idle k v → event_list v (EventGroupL e) → vitems v (EventGroupL e) = EventItem <$> ts →
  uxSchedulerSuspended k ≠ 0 → u32 (woken_value (Z.lor (uxEventBits g) bits)) →
  wp (set_bits_locked e bits) (λ r s', ∃ k' v', let B := Z.lor (uxEventBits g) bits in
    let woken := filter (λ t, met B (vals v (EventItem t)) = true) ts in
    readied k v woken (woken_value B) k' v' ∧ event_list v' (EventGroupL e) ∧
    vitems v' (EventGroupL e) = EventItem <$> filter (λ t, met B (vals v (EventItem t)) = false) ts ∧
    r = without_bits B (taken (vals v ∘ EventItem <$> woken)) ∧
    s' = mkEsys k' (<[e := g <| uxEventBits := r |>]> gs)) (mkEsys k gs).
Proof.
  intros Hg Hk Hl Hv Hs Hu. pose proof (ko_inv _ _ _ Hk) as Hinv. unfold set_bits_locked.
  apply wp_bind, wp_eker, wp_kl. rewrite <- prev_of_nil.
  eapply ws_get_next; [apply Hinv|apply Hl|exact Hv|].
  replace (k <| k_lists := k_lists k |>) with k by by destruct k.
  apply wp_bind. eapply wp_e_set; [exact Hg|]. apply wp_bind, wp_eker, wp_kl. eapply ws_len; [apply Hinv|apply Hl|].
  replace (k <| k_lists := k_lists k |>) with k by by destruct k.
  set (g' := g <| uxEventBits := Z.lor (uxEventBits g) bits |>).
  apply wp_bind. eapply wp_mono.
  { apply (wp_set_bits_loop e g' (<[e := g']> gs) k v (woken_value (uxEventBits g')) ltac:(apply lookup_insert_eq) eq_refl Hu ts _ [] [] k v 0);
      [|by apply readied_nil|done|done|done]. rewrite Hv, length_fmap. lia. }
  intros c s' (k' & v' & -> & Hrd & Hl' & Hv' & ->). apply wp_bind.
  eapply wp_e_set; [apply lookup_insert_eq|]. eapply wp_e_get; [apply lookup_insert_eq|].
  exists k', v'. split_and!; [exact Hrd|done|exact Hv'|by rewrite Z.lor_0_l|].
  simpl. rewrite insert_insert_eq. done.
Qed.

(** *** Resuming when nothing has happened meanwhile *)
Lemma wp_resume_quiet k v (Q : bool → kernel → Prop) :
  kok idle k v → uxSchedulerSuspended k = 1 → xPendedTicks k = 0 → vitems v PendingReadyL = [] →
  (∀ k', k' = k <| uxSchedulerSuspended := 0 |> <| pendsv := pendsv k || xYieldPendings k |> → kok idle k' v →
     Q (xYieldPendings k) k') → wp xTaskResumeAll Q k.
Proof.
  intros Hk Hs Hp Hv HQ. pose proof (ko_inv _ _ _ Hk) as Hinv.
  unfold xTaskResumeAll, critical. apply wp_bind, wp_getM, wp_bind, wp_assert; [by rewrite Hs|].
  apply wp_bind, wp_modify, wp_bind, wp_getM. simpl. rewrite Hs. change (wrap32 (1 - 1) =? 0) with true.
  pose proof (ki_count _ _ _ Hinv) as Hc. rewrite (proj2 (Z.ltb_lt 0 (uxCurrentNumberOfTasks k)) Hc). simpl.
  assert (krep (k_lists k) (k_tcbs k) v) as Hrep by apply Hinv.
  assert (is_Some (rings v !! PendingReadyL)) as HP by (apply list_fixed; [apply Hinv|set_solver]).
  replace (k <| uxSchedulerSuspended ::= λ n, wrap32 (n - 1) |>) with (k <| uxSchedulerSuspended := 0 |>)
    by (unfold set_field; simpl; by rewrite Hs).
  apply wp_bind. unfold move_pending. apply wp_bind, wp_kl. eapply ws_len; [exact Hrep|exact HP|]. simpl.
  rewrite Hv. simpl. apply wp_bind. unfold move_pending_one. apply wp_bind, wp_kl.
  eapply ws_is_empty; [exact Hrep|exact HP|]. rewrite Hv. simpl. apply wp_ret, wp_ret, wp_bind.
  rewrite bool_decide_eq_false_2 by (by intros [? ?]). apply wp_ret, wp_bind, wp_getM. simpl. rewrite Hp. simpl.
  apply wp_bind, wp_ret, wp_bind, wp_getM. simpl.
  assert (kok idle (k <| uxSchedulerSuspended := 0 |> <| pendsv := pendsv k || xYieldPendings k |>) v) as Hk'.
  { destruct Hk as [Hi Hsch Hid]. split; [|destruct Hsch as [Hsch|[Hsch|Hsch]]|exact Hid].
    - apply (kinv_pendsv (xTickCount k) (k <| uxSchedulerSuspended := 0 |>)).
      change (kinv (k <| uxSchedulerSuspended := 0 |>) v).
      apply kinv_resumed; [|done|done]. destruct Hi as [? ? ? ? ? ? [] ? ?]. by split.
    - left. simpl. by rewrite Hsch.
    - left. simpl. by rewrite Hsch, orb_true_r.
    - right. by right. }
  destruct (xYieldPendings k) eqn:Hy.
  - apply wp_bind, wp_modify, wp_ret. refine (eq_ind _ (Q true) (HQ _ eq_refl Hk') _ _).
    destruct k; simpl in *. subst. by rewrite orb_true_r.
  - apply wp_ret. refine (eq_ind _ (Q false) (HQ _ eq_refl Hk') _ _).
    destruct k; simpl in *. subst. by rewrite orb_false_r.
Qed.

Lemma readied_pending k v ts z k' v' : readied k v ts z k' v' → vitems v PendingReadyL = [] → vitems v' PendingReadyL = [].
Proof.
  intros Hrd Hv. destruct (vitems v' PendingReadyL) as [|i xs] eqn:Hv'; [done|].
  assert (in_list v' i PendingReadyL) as Hin by (apply in_list_vitems; rewrite Hv'; by left).
  apply (rd_woken _ _ _ _ _ _ Hrd) in Hin. case_decide; [by destruct Hin as (_ & x & _ & ?)|].
  apply in_list_vitems in Hin. rewrite Hv in Hin. by apply not_elem_of_nil in Hin.
Qed.
End ops.
