(* ===== verification/EventProps.v ===== *)
(** * The properties of event groups *)
From S2P Require Import Prelude KList KListSpec KListProps Tasks TasksView TasksInv TasksTick.
From S2P Require Import TasksBlock TasksResume TasksOps TasksEvents TasksMachine TasksTrace TasksCheck.
From S2P Require Import TasksCreate TasksWaiters TasksFrame TasksBlind TasksDetach Prog SchedLock Heap4 EventGroups EventGroupOps.
From Stdlib Require Import ZifyBool.

#[local] Arguments Z.testbit : simpl never.
#[local] Arguments Z.lor : simpl never.
#[local] Arguments Z.land : simpl never.

Section props.
Context (idle : Z).

(** An event group whose bits and whose call's bits leave the control byte free. *)
Definition event_bits (bits : Z) : Prop := 0 ≤ bits < 16777216.
Lemma lor_bound a b n : 0 ≤ n → 0 ≤ a < 2 ^ n → 0 ≤ b < 2 ^ n → 0 ≤ Z.lor a b < 2 ^ n.
Proof.
  intros Hn Ha Hb. split; [apply Z.lor_nonneg; lia|].
  destruct (decide (Z.lor a b = 0)) as [->|Hnz]; [lia|].
  assert (0 < Z.lor a b) by (pose proof (proj2 (Z.lor_nonneg a b)); lia).
  apply Z.log2_lt_pow2; [done|]. rewrite Z.log2_lor by lia.
  assert (∀ x, 0 ≤ x < 2 ^ n → Z.log2 x < n ∨ x = 0) as Hx.
  { intros x Hx. destruct (decide (x = 0)); [by right|left]. apply Z.log2_lt_pow2; lia. }
  assert (n ≠ 0 ∨ n = 0) as [?| ->] by lia; [|simpl in *; assert (a = 0) by lia; assert (b = 0) by lia; by subst].
  destruct (Hx a Ha) as [?| ->]; destruct (Hx b Hb) as [?| ->]; simpl; lia.
Qed.
Lemma event_bits_lor a b : event_bits a → event_bits b → event_bits (Z.lor a b).
Proof. apply (lor_bound a b 24). lia. Qed.
Lemma woken_value_u32 bits : event_bits bits → u32 (woken_value bits).
Proof.
  intros Hb. unfold event_bits in Hb. unfold u32, MAX32.
  apply (lor_bound _ _ 32); [lia| |unfold taskEVENT_LIST_ITEM_VALUE_IN_USE; lia].
  apply (lor_bound _ _ 32); unfold eventUNBLOCKED_DUE_TO_BIT_SET; lia.
Qed.
Lemma no_control bits : event_bits bits → Z.land bits eventEVENT_BITS_CONTROL_BYTES = 0.
Proof.
  intros [Hb1 Hb2]. apply Z.bits_inj'. intros n Hn. rewrite Z.land_spec, Z.testbit_0_l.
  destruct (decide (n < 24)) as [Hl|Hl].
  - replace (Z.testbit eventEVENT_BITS_CONTROL_BYTES n) with false; [by rewrite andb_false_r|].
    change eventEVENT_BITS_CONTROL_BYTES with (Z.shiftl 255 24). by rewrite Z.shiftl_spec_low.
  - replace (Z.testbit bits n) with false; [done|]. symmetry.
    destruct (decide (bits = 0)) as [->|]; [by rewrite Z.testbit_0_l|].
    apply Z.bits_above_log2; [done|]. assert (Z.log2 bits < 24); [|lia]. apply (Z.log2_lt_pow2 bits 24); lia.
Qed.

(** The state of a task on the event list, from the view. *)
Lemma has_event_list k v e : kinv k v → has_list (k_lists k) (EventGroupL e) → event_list v (EventGroupL e).
Proof.
  intros Hinv [x Hx]. split_and!; [done|done|]. by eapply (rep_dom _ _ (kr_rep _ _ _ (ki_rep _ _ _ Hinv))).
Qed.

Lemma filter_ext_in {A} (P Q : A → Prop) `{∀ x, Decision (P x)} `{∀ x, Decision (Q x)} (xs : list A) :
  (∀ x, x ∈ xs → P x ↔ Q x) → filter P xs = filter Q xs.
Proof.
  induction xs as [|x xs IH]; intros HPQ; [done|]. rewrite !filter_cons, IH by (intros y ?; apply HPQ; by right).
  pose proof (HPQ x ltac:(by left)). do 2 case_decide; tauto.
Qed.

(** Who is ready, and with what value, after [ts] have been readied. *)
Lemma readied_observed k v ts z k' v' t : kinv k v → readied idle k v ts z k' v' → is_Some (k_tcbs k !! t) →
  if decide (t ∈ ts) then ready k' t = true ∧ event_value k' t = z
  else ready k' t = ready k t ∧ event_value k' t = event_value k t.
Proof.
  intros Hinv Hrd [x Hx]. pose proof (ko_inv _ _ _ (rd_ok _ _ _ _ _ _ _ Hrd)) as Hinv'.
  destruct (readied_kernel _ _ _ _ _ _ _ Hrd) as (HT & _).
  assert (k_tcbs k' !! t = Some x) as Hx' by by rewrite HT.
  rewrite (value_view k' v') by (done || by eexists). rewrite (value_view k v) by (done || by eexists).
  rewrite (rd_vals _ _ _ _ _ _ _ Hrd). pose proof (rd_woken _ _ _ _ _ _ _ Hrd (StateItem t)) as Hw. simpl in Hw.
  case_decide; (split; [|done]).
  - apply (ready_iff k' v' Hinv' t x Hx'), Hw. split; [done|]. by exists x.
  - apply eq_iff_eq_true. by rewrite (ready_iff k' v' Hinv' t x Hx'), (ready_iff k v Hinv t x Hx), Hw.
Qed.

(** C34: [xEventGroupSetBits] readies exactly the waiting tasks whose condition the
    new bits meet, hands them the bits, takes the bits they clear on exit away in
    the end, leaves the others waiting in their order, and asks for a switch when
    one of the readied tasks beats the caller. *)
Theorem xEventGroupSetBits_exact k gs e g bits :
  kernel_ok idle k → uxSchedulerSuspended k = 0 → xPendedTicks k = 0 →
  has_list (k_lists k) (EventGroupL e) → e ≠ 0 → gs !! e = Some g →
  event_bits (uxEventBits g) → event_bits bits →
  wp (exec 0 (xEventGroupSetBits e bits)) (λ r s',
    let k' := e_kernel s' in
    let B := Z.lor (uxEventBits g) bits in
    let ts := waiters k (EventGroupL e) in
    let woken := filter (λ t, met B (event_value k t) = true) ts in
    r = without_bits B (taken (event_value k <$> woken)) ∧
    e_groups s' = <[e := g <| uxEventBits := r |>]> gs ∧
    waiters k' (EventGroupL e) = filter (λ t, met B (event_value k t) = false) ts ∧
    (∀ t, is_Some (k_tcbs k !! t) → if decide (t ∈ woken)
       then ready k' t = true ∧ event_value k' t = woken_value B
       else ready k' t = ready k t ∧ event_value k' t = event_value k t) ∧
    (pendsv k' = true ↔ pendsv k = true ∨ xYieldPendings k = true ∨ ∃ t, t ∈ woken ∧ prio_above_current k t) ∧
    kernel_ok idle k' ∧ uxSchedulerSuspended k' = 0) (mkEsys k gs).
Proof.
  intros [v Hk] Hs Hp HL He Hg Hbg Hb. pose proof (ko_inv _ _ _ Hk) as Hinv.
  pose proof (has_event_list k v e Hinv HL) as Hl. pose proof (waiters_view k v _ Hinv Hl) as Hw.
  set (ts := waiters k (EventGroupL e)) in *.
  assert (event_value k <$> ts = vals v ∘ EventItem <$> ts) as Hvals.
  { apply list_fmap_ext. intros n t Ht. apply value_view; [done|]. eapply waiter_tcb; [done|done|]. by eapply list_elem_of_lookup_2. }
  assert (∀ t, t ∈ ts → event_value k t = vals v (EventItem t)) as Hval.
  { intros t Ht. apply value_view; [done|]. by eapply waiter_tcb. }
  unfold xEventGroupSetBits. cbn [exec]. apply wp_bind, wp_bind, wp_assert; [by apply negb_true_iff, Z.eqb_neq|].
  apply wp_assert; [by apply Z.eqb_eq, no_control|].
  apply wp_bind, wp_eker. apply (wp_vTaskSuspendAll idle k v); [done|by rewrite Hs|]. intros k1 Hk1 Heq1. simpl.
  assert (uxSchedulerSuspended k1 = 1) as Hs1 by (rewrite Heq1; simpl; by rewrite Hs).
  apply wp_bind. eapply wp_mono.
  { apply (wp_set_bits_locked idle e g gs k1 v bits ts); [done|done|done|by rewrite Hw|by rewrite Hs1|].
    by apply woken_value_u32, event_bits_lor. }
  intros r s' (k2 & v2 & Hrd & Hl2 & Hv2 & Hr & ->).
  apply wp_bind. eapply (wp_eker xTaskResumeAll). simpl.
  destruct (readied_kernel _ _ _ _ _ _ _ Hrd) as (HT & Hsu & Hpe & Hcur & Hpd).
  apply (wp_resume_quiet idle k2 v2); [apply Hrd|by rewrite Hsu|by rewrite Hpe, Heq1| |].
  { eapply readied_pending; [exact Hrd|]. apply (is_zero _ _ _ (ki_susp _ _ _ Hinv)), Hs. }
  intros k3 Heq3 Hk3. apply wp_ret. simpl.
  assert (∀ b, filter (λ t, met (Z.lor (uxEventBits g) bits) (event_value k t) = b) ts =
    filter (λ t, met (Z.lor (uxEventBits g) bits) (vals v (EventItem t)) = b) ts) as Hf.
  { intros b. apply filter_ext_in. intros t Ht. by rewrite (Hval t Ht). }
  rewrite !Hf in *. set (woken := filter _ ts) in *.
  assert (readied idle k1 v woken (woken_value (Z.lor (uxEventBits g) bits)) k2 v2) as Hrd' by exact Hrd.
  assert (event_value k <$> woken = vals v ∘ EventItem <$> woken) as Hv'.
  { apply list_fmap_ext. intros n t Ht. apply Hval. apply list_elem_of_lookup_2 in Ht. by apply list_elem_of_filter in Ht as [_ ?]. }
  split_and!.
  - by rewrite Hr, Hv'.
  - done.
  - by apply (waiters_eq k3 v2); [apply Hk3|..].
  - intros t Ht. pose proof (readied_observed k1 v _ _ k2 v2 t (ko_inv _ _ _ Hk1) Hrd') as Ho.
    rewrite Heq3. rewrite Heq1 in Ho. exact (Ho Ht).
  - rewrite Heq3. simpl. destruct (rd_state _ _ _ _ _ _ _ Hrd') as (s & top & y & Heq2 & Hy).
    rewrite orb_true_iff, Heq2. simpl. rewrite Hy, Heq1. simpl. done.
  - by exists v2.
  - by rewrite Heq3.
Qed.

(** *** The control byte *)
Lemma event_bits_testbit bits n : event_bits bits → 24 ≤ n → Z.testbit bits n = false.
Proof.
  intros Hb Hn. destruct (decide (bits = 0)) as [->|]; [by rewrite Z.testbit_0_l|].
  unfold event_bits in Hb. apply Z.bits_above_log2; [lia|].
  assert (Z.log2 bits < 24); [apply (Z.log2_lt_pow2 bits 24); lia|lia].
Qed.
Lemma without_control x : without_bits x eventEVENT_BITS_CONTROL_BYTES = x mod 16777216.
Proof.
  unfold without_bits. change (wrap32 (Z.lnot eventEVENT_BITS_CONTROL_BYTES)) with (Z.ones 24).
  by rewrite Z.land_ones.
Qed.
Lemma event_bits_mod bits : event_bits bits → bits mod 16777216 = bits.
Proof. apply Z.mod_small. Qed.
Lemma control_split bits c : event_bits bits → 0 ≤ c →
  wanted (Z.lor bits (Z.shiftl c 24)) = bits ∧ ∀ n, 0 ≤ n → Z.testbit (Z.lor bits (Z.shiftl c 24)) (24 + n) = Z.testbit c n.
Proof.
  intros Hb Hc. split.
  - unfold wanted. rewrite without_control. change 16777216 with (2 ^ 24). rewrite <- Z.land_ones, Z.land_lor_distr_l by done.
    rewrite (Z.land_ones bits), Z.mod_small by done. rewrite Z.land_ones, Z.shiftl_mul_pow2, Z.mod_mul by done.
    apply Z.lor_0_r.
  - intros n Hn. rewrite Z.lor_spec, event_bits_testbit by (done || lia). simpl.
    rewrite Z.shiftl_spec by lia. f_equal. lia.
Qed.
Lemma wanted_woken bits : event_bits bits → wanted (woken_value bits) = bits ∧ Z.testbit (woken_value bits) 25 = true.
Proof.
  intros Hb. unfold woken_value. rewrite <- Z.lor_assoc.
  change (Z.lor eventUNBLOCKED_DUE_TO_BIT_SET taskEVENT_LIST_ITEM_VALUE_IN_USE) with (Z.shiftl 130 24).
  destruct (control_split bits 130 Hb ltac:(lia)) as [Hw Ht]. split; [done|]. exact (Ht 1 ltac:(lia)).
Qed.

(** The value of the event item of a task that waits. *)
Definition control (clear all : bool) : Z := (if clear then 1 else 0) + (if all then 4 else 0).
Definition waiting_value (want : Z) (clear all : bool) : Z := Z.lor want (Z.shiftl (control clear all + 128) 24).
Lemma waiting_value_eq want (clear all : bool) :
  let c1 := if clear then eventCLEAR_EVENTS_ON_EXIT_BIT else 0 in
  let c2 := if all then Z.lor c1 eventWAIT_FOR_ALL_BITS else c1 in
  Z.lor (Z.lor want c2) taskEVENT_LIST_ITEM_VALUE_IN_USE = waiting_value want clear all.
Proof. simpl. unfold waiting_value. rewrite <- Z.lor_assoc. f_equal. by destruct clear, all. Qed.
Lemma waiting_value_spec want clear all : event_bits want →
  let v := waiting_value want clear all in
  wanted v = want ∧ clears_on_exit v = clear ∧ wants_all v = all ∧ Z.testbit v 25 = false.
Proof.
  intros Hb. assert (0 ≤ control clear all + 128) as Hc by (unfold control; destruct clear, all; lia).
  destruct (control_split want _ Hb Hc) as [Hw Ht].
  split_and!; [exact Hw|etrans; [exact (Ht 0 ltac:(lia))|]|etrans; [exact (Ht 2 ltac:(lia))|]|etrans; [exact (Ht 1 ltac:(lia))|]];
    by destruct clear, all.
Qed.

(** *** Waiting *)
(** What is left of the call once the task runs again: the bits it was woken with,
    or, after a time-out, the bits there are now. *)
Lemma wp_after_block k gs e g c want clear : kernel_ok idle k → pxCurrentTCB k = Some c → gs !! e = Some g →
  let v := event_value k c in
  wp (exec 0 (after_block e true clear want)) (λ r s',
    (Z.testbit v 25 = true → r = wanted v ∧ e_groups s' = gs) ∧
    (Z.testbit v 25 = false → r = wanted (uxEventBits g) ∧
       e_groups s' = if clear (uxEventBits g) then <[e := g <| uxEventBits := without_bits (uxEventBits g) want |>]> gs else gs))
    (mkEsys k gs).
Proof.
  intros [v Hk] Hc Hg w. pose proof (ko_inv _ _ _ Hk) as Hinv.
  destruct (ki_current _ _ _ Hinv) as [y Hy]. rewrite Hc in Hy. simpl in Hy.
  unfold after_block. cbn [exec]. simpl exec. apply wp_bind, wp_ret, wp_bind, wp_eker. unfold uxTaskResetEventItemValue.
  apply wp_bind. eapply wp_current; [exact Hc|]. simpl. apply wp_bind, wp_kl.
  eapply ws_value; [apply Hinv|exact (ex_intro _ y Hy)|]. rewrite <- (value_view k v) by (done || exact (ex_intro _ y Hy)). fold w.
  replace (k <| k_lists := k_lists k |>) with k by by destruct k.
  apply wp_bind. eapply wp_tcb_get; [exact Hy|]. apply wp_bind, wp_kl.
  eapply ws_setval; [apply Hinv|exact (ex_intro _ y Hy)|apply wrap32_u32|]. intros s _. apply wp_ret. simpl. apply wp_bind.
  change eventUNBLOCKED_DUE_TO_BIT_SET with (2 ^ 25). rewrite land_pow2_eqb by done.
  destruct (Z.testbit w 25) eqn:Hb; simpl exec.
  - apply wp_ret, wp_ret. (split; intros ?; [by split|done]).
  - apply wp_bind. eapply wp_e_get; [exact Hg|]. apply wp_bind.
    destruct (clear (uxEventBits g)); [eapply wp_e_set; [exact Hg|]|apply wp_ret]; apply wp_ret, wp_ret; (split; intros ?; [done|by split]).
Qed.

(** The start of the call: the assertions hold and the scheduler is suspended. *)
Lemma wait_asserts k gs e want n (Q : unit → esys → Prop) :
  uxSchedulerSuspended k = 0 → e ≠ 0 → event_bits want → want ≠ 0 → Q tt (mkEsys k gs) →
  wp (assert_group e ;> assert_no_control want ;> configASSERT (negb (want =? 0)) ;> e_assert_may_block n) Q (mkEsys k gs).
Proof.
  intros Hs He Hw Hw0 HQ. apply wp_bind, wp_assert; [by apply negb_true_iff, Z.eqb_neq|].
  apply wp_bind, wp_assert; [by apply Z.eqb_eq, no_control|].
  apply wp_bind, wp_assert; [by apply negb_true_iff, Z.eqb_neq|].
  unfold e_assert_may_block. apply wp_bind, wp_eker, wp_bind, wp_getM. simpl.
  destruct (xSchedulerRunning k); simpl; rewrite ?Hs; apply wp_ret, wp_assert; done.
Qed.
Lemma suspend_resume k v (Q : unit → kernel → Prop) : kok idle k v → uxSchedulerSuspended k = 0 →
  (∀ k1, k1 = k <| uxSchedulerSuspended := 1 |> → kok idle k1 v → vitems v PendingReadyL = [] → Q tt k1) →
  wp vTaskSuspendAll Q k.
Proof.
  intros Hk Hs HQ. apply (wp_vTaskSuspendAll idle k v); [done|by rewrite Hs|]. intros k1 Hk1 Heq. rewrite Hs in Heq.
  apply HQ; [exact Heq|done|]. by apply (is_zero _ _ _ (ki_susp _ _ _ (ko_inv _ _ _ Hk))).
Qed.
Lemma back_from_lock k v (Q : bool → kernel → Prop) : kok idle (k <| uxSchedulerSuspended := 1 |>) v →
  uxSchedulerSuspended k = 0 → xPendedTicks k = 0 → vitems v PendingReadyL = [] →
  Q (xYieldPendings k) (k <| pendsv := pendsv k || xYieldPendings k |>) →
  wp xTaskResumeAll Q (k <| uxSchedulerSuspended := 1 |>).
Proof.
  intros Hk Hs Hp Hv HQ. apply (wp_resume_quiet idle _ v); [done..|]. intros k' -> _.
  refine (eq_ind _ (Q (xYieldPendings k)) HQ _ _). destruct k. simpl in *. by subst.
Qed.

(** The running task waits for an event group's bits. *)
Lemma blocked_vals k c n indef v t : vals (blocked_view k c n indef v) (EventItem t) = vals v (EventItem t).
Proof.
  unfold blocked_view. destruct ((n =? portMAX_DELAY) && indef); [done|].
  destruct (wake_time k n <? xTickCount k); simpl; by rewrite fn_lookup_insert_ne.
Qed.
Lemma wp_wait_on k v c e bits n : kok idle k v → event_list v (EventGroupL e) → uxSchedulerSuspended k = 1 →
  pxCurrentTCB k = Some c → ready k c = true → c ≠ idle → event_in k c = None → 0 < n < MAX32 → u32 bits →
  wp (vTaskPlaceOnUnorderedEventList (EventGroupL e) bits n) (λ _ k', (∃ v', kok idle k' v' ∧
    vitems v' PendingReadyL = vitems v PendingReadyL) ∧ uxSchedulerSuspended k' = 1 ∧ xPendedTicks k' = xPendedTicks k ∧
    event_in k' c = Some (EventGroupL e) ∧ ready k' c = false ∧
    event_value k' c = Z.lor bits taskEVENT_LIST_ITEM_VALUE_IN_USE) k.
Proof.
  intros Hk Hl Hs Hc Hr Hci Hev Hn Hu. pose proof (ko_inv _ _ _ Hk) as Hinv.
  destruct (ready_tcb _ _ Hr) as [y Hy]. pose proof (proj1 (ready_iff k v Hinv c y Hy) Hr) as Hin.
  apply (event_in_none k v Hinv) in Hev.
  eapply wp_mono; [by apply (wp_vTaskPlaceOnUnorderedEventList idle k v c y _ bits n); [..|rewrite Hs|]|].
  intros _ k' (s & Hk' & Hinv1 & s' & top & next & Heq). pose proof (ko_inv _ _ _ Hk') as Hinv'.
  set (w := vend _ _ _) in *. change (blocked_view k) with (blocked_view (k <| k_lists := s |>)) in *.
  assert (k_tcbs k' !! c = Some (y <| ucDelayAborted := false |>)) as Hy' by (rewrite Heq; simpl; apply lookup_insert_eq).
  assert (is_Some (k_tcbs k' !! c)) as HT' by by eexists.
  split_and!; [|by rewrite Heq|by rewrite Heq| | |].
  - eexists. split; [exact Hk'|]. rewrite (blocked_event_items _ _ _ _ _ PendingReadyL Hinv1 eq_refl). unfold w.
    by rewrite vitems_vend_ne by done.
  - apply (event_in_iff k' _ Hinv'), in_list_vitems. rewrite (blocked_event_items _ _ _ _ _ (EventGroupL e) Hinv1 eq_refl).
    apply in_list_vitems, vend_in. apply Hl.
  - apply not_true_iff_false. intros Hr'. apply (ready_iff k' _ Hinv' c _ Hy') in Hr'.
    by apply (blocked_ready _ _ c n true c _ Hinv1) in Hr' as [_ ?].
  - rewrite (value_view k' _ _ Hinv' HT'), blocked_vals. unfold w. simpl. by rewrite fn_lookup_insert.
Qed.
Lemma u32_control want c : event_bits want → 0 ≤ c < 256 → u32 (Z.lor want (Z.shiftl c 24)).
Proof.
  intros Hb Hc. unfold event_bits in Hb. apply (lor_bound _ _ 32); [lia|lia|]. rewrite Z.shiftl_mul_pow2 by done. lia.
Qed.

(** The call, once its task [c] runs again: it was woken with [bits], or its time
    has run out. *)
Definition resumes (e c want : Z) (clear all : bool) (p : EP Z) : Prop :=
  ∀ k gs g, kernel_ok idle k → pxCurrentTCB k = Some c → gs !! e = Some g →
    wp (exec 0 p) (λ r s',
      (∀ bits, event_bits bits → event_value k c = woken_value bits → r = bits ∧ e_groups s' = gs) ∧
      (Z.testbit (event_value k c) 25 = false → r = wanted (uxEventBits g) ∧
         e_groups s' = if prvTestWaitCondition (uxEventBits g) want all && clear
           then <[e := g <| uxEventBits := without_bits (uxEventBits g) want |>]> gs else gs)) (mkEsys k gs).

(** The task [c] waits, [p] being what is left of its call. *)
Definition waits_for_bits (e c want : Z) (clear all : bool) (gs : gmap Z EventGroup_t) (p : EP Z) (s : esys) : Prop :=
  e_groups s = gs ∧ event_in (e_kernel s) c = Some (EventGroupL e) ∧ ready (e_kernel s) c = false ∧
  event_value (e_kernel s) c = waiting_value want clear all ∧
  pendsv (e_kernel s) = true ∧ kernel_ok idle (e_kernel s) ∧ resumes e c want clear all p.

Lemma after_block_resumes e c want clear all :
  resumes e c want clear all (after_block e true (λ b, prvTestWaitCondition b want all && clear) want).
Proof.
  intros k gs g Hk Hc Hg. eapply wp_mono; [by apply (wp_after_block k gs e g c want)|].
  intros r s' [Hset Hout]. split; [|exact Hout]. intros bits Hb Hval. rewrite Hval in Hset.
  destruct (wanted_woken bits Hb) as [Hwb Ht]. rewrite Hwb in Hset. by apply Hset.
Qed.
(** The scheduler is resumed and the switch asked for. *)
Lemma leave_waiting k v gs e c want clear all n : kok idle k v → uxSchedulerSuspended k = 1 → xPendedTicks k = 0 →
  vitems v PendingReadyL = [] → event_in k c = Some (EventGroupL e) → ready k c = false →
  event_value k c = waiting_value want clear all → 0 < n →
  comes_to (let! xAlreadyYielded := Atomic (eker xTaskResumeAll) in
    if negb (n =? 0) then after_block e xAlreadyYielded (λ b, prvTestWaitCondition b want all && clear) want
    else Ret 0) (mkEsys k gs) (waits_for_bits e c want clear all gs).
Proof.
  intros Hk Hs Hp Hv Hin Hr Hval Hn. eapply (comes_seq 0). cbn [exec]. apply wp_eker. simpl.
  apply (wp_resume_quiet idle k v); [done..|]. intros k3 Heq3 Hk3.
  destruct (Z.eqb_spec n 0) as [|_]; [lia|]. cbn [negb].
  assert (∀ k4, k_lists k4 = k_lists k → k_tcbs k4 = k_tcbs k → kok idle k4 v → pendsv k4 = true →
    waits_for_bits e c want clear all gs (after_block e true (λ b, prvTestWaitCondition b want all && clear) want) (mkEsys k4 gs)) as Hw.
  { intros k4 Hl4 Ht4 Hk4 Hp4. unfold waits_for_bits, event_in, ready, event_value, prio, state_in in *. simpl.
    rewrite Hl4, ?Ht4. split_and!; [done..|by exists v|apply after_block_resumes]. }
  destruct (xYieldPendings k) eqn:Hy.
  - apply comes_here, Hw; [by rewrite Heq3..|done|]. rewrite Heq3. simpl. apply orb_true_r.
  - eexists _, _. split; [econstructor; [reflexivity|constructor]|].
    apply Hw; [by rewrite Heq3..|by apply kok_pendsv|done].
Qed.

(** C35: [xEventGroupWaitBits] answers at once when its condition is met or it may
    not wait, taking the bits if it is to clear them.  Otherwise the caller ends
    up in the list of the event group's waiters, with its condition in its event
    item and a switch pending; when it runs again it answers the bits it was woken
    with, or after a time-out the bits there are then, taken if they meet its
    condition after all and it is to clear them. *)
Theorem xEventGroupWaitBits_exact k gs e g c want clear all n :
  kernel_ok idle k → uxSchedulerSuspended k = 0 → xPendedTicks k = 0 →
  has_list (k_lists k) (EventGroupL e) → e ≠ 0 → gs !! e = Some g →
  event_bits want → want ≠ 0 → 0 ≤ n < MAX32 →
  pxCurrentTCB k = Some c → ready k c = true → c ≠ idle → event_in k c = None →
  let s := mkEsys k gs in
  let p := xEventGroupWaitBits e want clear all n in
  let now := prvTestWaitCondition (uxEventBits g) want all in
  (now = true ∨ n = 0 → wp (exec 0 p) (λ r s', r = uxEventBits g ∧
     e_kernel s' = k <| pendsv := pendsv k || xYieldPendings k |> ∧
     e_groups s' = if now && clear then <[e := g <| uxEventBits := without_bits (uxEventBits g) want |>]> gs else gs) s) ∧
  (now = false → 0 < n → comes_to p s (waits_for_bits e c want clear all gs)).
Proof.
  intros [v Hk] Hs Hp HL He Hg Hw Hw0 Hn Hc Hr Hci Hev s p now. pose proof (ko_inv _ _ _ Hk) as Hinv.
  split.
  - intros Hnow. unfold p, xEventGroupWaitBits. cbn [exec]. apply wp_bind, wait_asserts; [done..|].
    apply wp_bind, wp_eker, (suspend_resume k v); [done..|]. intros k1 Heq1 Hk1 Hpend. simpl.
    apply wp_bind. unfold wait_bits_locked. apply wp_bind. eapply wp_e_get; [exact Hg|]. fold now.
    assert (∀ gs', wp (exec 0 (let! xAlreadyYielded := Atomic (eker xTaskResumeAll) in Ret (uxEventBits g)))
      (λ r s', r = uxEventBits g ∧ e_kernel s' = k <| pendsv := pendsv k || xYieldPendings k |> ∧ e_groups s' = gs')
      (mkEsys k1 gs')) as Hend.
    { intros gs'. cbn [exec]. apply wp_bind, wp_eker. subst k1. simpl. by apply (back_from_lock k v). }
    destruct now.
    + apply wp_bind. destruct clear; [eapply wp_e_set; [exact Hg|]|apply wp_ret]; apply wp_ret; apply Hend.
    + destruct Hnow as [?| ->]; [done|]. simpl. apply wp_ret, Hend.
  - intros Hnow Hn0. subst s p. eapply (comes_seq 0). cbn [exec]. apply wait_asserts; [done..|].
    eapply (comes_seq 0). cbn [exec]. apply wp_eker, (suspend_resume k v); [done..|]. intros k1 Heq1 Hk1 Hpend. simpl.
    eapply (comes_seq 0). cbn [exec]. unfold wait_bits_locked. apply wp_bind. eapply wp_e_get; [exact Hg|].
    fold now. rewrite Hnow. destruct (Z.eqb_spec n 0) as [|_]; [lia|].
    apply wp_bind, wp_eker. simpl.
    set (ctl := if all then Z.lor (if clear then eventCLEAR_EVENTS_ON_EXIT_BIT else 0) eventWAIT_FOR_ALL_BITS
                else if clear then eventCLEAR_EVENTS_ON_EXIT_BIT else 0).
    assert (u32 (Z.lor want ctl)) as Hu.
    { replace ctl with (Z.shiftl (control clear all) 24) by (unfold ctl; by destruct all, clear).
      apply u32_control; [done|]. unfold control. destruct clear, all; lia. }
    eapply wp_mono.
    { apply (wp_wait_on k1 v c e (Z.lor want ctl) n); [done|by eapply has_event_list|by rewrite Heq1..|done|by rewrite Heq1|lia|done]. }
    intros _ k2 ((v2 & Hk2 & Hv2) & Hs2 & Hp2 & Hin2 & Hr2 & Hval2). apply wp_ret.
    apply (leave_waiting k2 v2); [done|done|by rewrite Hp2, Heq1|by rewrite Hv2|done|done| |done].
    etrans; [exact Hval2|apply (waiting_value_eq want clear all)].
Qed.
End props.

(** ** Concrete instances *)
Definition ex_groups : esys :=
  final (let* _ := xEventGroupCreateStatic 20 (mkEventGroup 7 0 0) in
         eker (createTasks ex_tasks) ;> eker startKernel) (mkEsys zero_kernel ∅).
Definition ex_kernel : kernel := e_kernel ex_groups.
Definition ex_group : EventGroup_t := mkEventGroup 0 0 1.
Example ex_groups_run : ex_groups = mkEsys ex_kernel {[20 := ex_group]} ∧ pxCurrentTCB ex_kernel = Some 4.
Proof. by_eval. Qed.
Lemma ex_kernel_ok : kernel_ok 1 ex_kernel.
Proof. apply kernel_check_ok. by vm_compute. Qed.

(** Task 4 waits for the bits 0 and 2 and clears them, task 2 for bit 1 or 3. *)
Definition wait_and_switch (want : Z) (clear all : bool) : EM unit :=
  eker vTaskSuspendAll ;>
  let* _ := wait_bits_locked 20 want clear all 100 in
  let* _ := eker xTaskResumeAll in
  eker portYIELD_WITHIN_API ;> eker xPortPendSVHandler.
Definition ex_waiting : kernel := e_kernel (final (wait_and_switch 5 true true ;> wait_and_switch 10 false false) ex_groups).
Example ex_waiting_run : (pxCurrentTCB ex_waiting, waiters ex_waiting (EventGroupL 20)) = (Some 3, [4; 2]).
Proof. by_eval. Qed.
Lemma ex_event_waiting_ok : kernel_ok 1 ex_waiting.
Proof. apply kernel_check_ok. by vm_compute. Qed.

Lemma xEventGroupSetBits_exact_witness :
  wp (exec 0 (xEventGroupSetBits 20 5)) (λ r s', r = 0 ∧ waiters (e_kernel s') (EventGroupL 20) = [2] ∧
    pendsv (e_kernel s') = true ∧ ready (e_kernel s') 4 = true ∧ event_value (e_kernel s') 4 = woken_value 5)
    (mkEsys ex_waiting {[20 := ex_group]}).
Proof.
  eapply wp_mono.
  { apply (xEventGroupSetBits_exact 1 ex_waiting {[20 := ex_group]} 20 ex_group 5 ex_event_waiting_ok);
      [by_eval|by_eval|by eexists; vm_compute|lia|by_eval|by_eval|by_eval]. }
  intros r s' (Hr & _ & Hw & Ht & Hp & _). split_and!.
  - rewrite Hr. clear. by_eval.
  - rewrite Hw. clear. by_eval.
  - apply Hp. right. right. exists 4. clear. split; [|by_eval]. by apply (bool_decide_unpack _); vm_compute.
  - assert (is_Some (k_tcbs ex_waiting !! 4)) as H4 by (clear; eexists; by vm_compute).
    specialize (Ht 4 H4). rewrite decide_True in Ht; [apply Ht|]. clear. by apply (bool_decide_unpack _); vm_compute.
  - assert (is_Some (k_tcbs ex_waiting !! 4)) as H4 by (clear; eexists; by vm_compute).
    specialize (Ht 4 H4). rewrite decide_True in Ht; [apply Ht|]. clear. by apply (bool_decide_unpack _); vm_compute.
Defined.
Lemma xEventGroupWaitBits_exact_witness :
  comes_to (xEventGroupWaitBits 20 5 true true 100) (mkEsys ex_kernel {[20 := ex_group]})
    (waits_for_bits 1 20 4 5 true true {[20 := ex_group]}).
Proof.
  destruct (xEventGroupWaitBits_exact 1 ex_kernel {[20 := ex_group]} 20 ex_group 4 5 true true 100 ex_kernel_ok) as [_ H];
    [by_eval|by_eval|by eexists; vm_compute|lia|by_eval|by_eval|lia|by_eval|by_eval|by_eval|lia|by_eval|].
  apply H; [by_eval|lia].
Defined.
