(* ===== verification/PosixShim.v ===== *)
(** * The POSIX layer (src/FreeRTOS/Demo/CORTEX_MPS2_QEMU_IAR_GCC/posix_shim.c)

    Threads, mutexes, semaphores and sleeps of POSIX over the kernel: a thread is
    a task, a record on the heap that the list [g_thread_list] links, and a
    binary semaphore for whoever joins it.  [NULL] is 0; the [int] a function
    returns is 0 or -1. *)
From S2P Require Import Prelude KList Tasks Prog Queue SchedLock Heap4 QueueMgmt TaskLife.

(** ** State *)
Record posix_thread_t := mkThread {
  pt_xTask : Z;
  pt_start_routine : Z;
  pt_arg : Z;
  pt_retval : Z;
  pt_join_sem : Z;
  pt_detached : Z;
  pt_next : Z
}.
#[global] Instance eta_thread : Eta posix_thread_t := λ t,
  mkThread (pt_xTask t) (pt_start_routine t) (pt_arg t) (pt_retval t) (pt_join_sem t) (pt_detached t) (pt_next t).

(** The kernel with the queues and the heap, the thread records by address, and
    the head of the list. *)
Record psys := mkPsys {
  p_sys : guarded qsys heap;
  p_threads : gmap Z posix_thread_t;
  g_thread_list : Z
}.
#[global] Instance eta_psys : Eta psys := λ s, mkPsys (p_sys s) (p_threads s) (g_thread_list s).

Abbreviation PM := (M psys).
Abbreviation PP := (prog psys).

(** [sizeof( posix_thread_t )] of the 32-bit target *)
Definition sizeof_posix_thread_t : Z := 28.

(** ** Access to the state *)
Definition sys {A} (m : QHM A) : PM A := zoom p_sys (λ g s, s <| p_sys := g |>) m.
Definition sysP {A} (p : QHP A) : PP A := zoomP p_sys (λ g s, s <| p_sys := g |>) p.
Definition p_ker {A} (m : K A) : PM A := sys (on_kernel m).
Definition t_get {A} (t : Z) (f : posix_thread_t → A) : PM A :=
  let* s := getM in derefM (f <$> p_threads s !! t).
Definition t_set (t : Z) (f : posix_thread_t → posix_thread_t) : PM unit :=
  let* s := getM in
  match p_threads s !! t with
  | None => faultM
  | Some x => modify (λ s, s <| p_threads ::= <[t := f x]> |>)
  end.

(** ** The list of threads *)
Definition add_thread (t : Z) : PM unit :=
  let* s := getM in
  t_set t (λ x, x <| pt_next := g_thread_list s |>) ;>
  modify (λ s, s <| g_thread_list := t |>).

(** Turns of a loop along the list: one per record, and one more. *)
Definition threads_fuel (s : psys) : nat := S (size (p_threads s)).

Definition find_one (xTask curr : Z) : PM (Z + Z) :=
  if curr =? 0 then retM (inr curr)
  else
    let* x := t_get curr pt_xTask in
    if x =? xTask then retM (inr curr)
    else let* next := t_get curr pt_next in retM (inl next).
Definition find_thread (xTask : Z) : PM Z :=
  let* s := getM in iterM (threads_fuel s) (find_one xTask) (g_thread_list s).

(** [curr], the address of a link: of [g_thread_list], or of the field [next] of a
    record; [*curr] as an expression and as a target. *)
Definition get_link (curr : option Z) : PM Z :=
  match curr with None => gets g_thread_list | Some a => t_get a pt_next end.
Definition set_link (curr : option Z) (v : Z) : PM unit :=
  match curr with
  | None => modify (λ s, s <| g_thread_list := v |>)
  | Some a => t_set a (λ x, x <| pt_next := v |>)
  end.
Definition remove_one (t : Z) (curr : option Z) : PM (option Z + unit) :=
  let* p := get_link curr in
  if p =? 0 then retM (inr tt)
  else if p =? t then
    let* next := t_get t pt_next in
    set_link curr next ;>
    retM (inr tt)
  else retM (inl (Some p)).
Definition remove_thread (t : Z) : PM unit :=
  let* s := getM in iterM (threads_fuel s) (remove_one t) None.

Section posix.
Context `{HeapLayout}.

(** ** Threads *)

(** The memory of a heap block read as a [posix_thread_t]. *)
Definition raw_thread (m : gmap Z Z) (a : Z) : posix_thread_t :=
  mkThread (word m a) (word m (a + 4)) (word m (a + 8)) (word m (a + 12)) (word m (a + 16)) (word m (a + 20)) (word m (a + 24)).
Definition place_thread (t : Z) : PM unit :=
  modify (λ s, s <| p_threads ::= <[t := raw_thread (h_mem (g_data (p_sys s))) t]> |>).
Definition xSemaphoreCreateBinary : QHM Z :=
  xQueueGenericCreate 1 queueSEMAPHORE_QUEUE_ITEM_LENGTH queueQUEUE_TYPE_BINARY_SEMAPHORE.
(** [vSemaphoreDelete] *)
Definition vSemaphoreDelete (q : Z) : QHM unit := vQueueDelete q.
(** [vPortFree( t )]: the record is gone. *)
Definition free_thread (t : Z) : PM unit :=
  sys (vPortFree t) ;> modify (λ s, s <| p_threads ::= delete t |>).

(** Answers the code and what is written to [*thread]. *)
Definition pthread_create (thread start_routine arg : Z) : PP (Z * option Z) :=
  if (thread =? 0) || (start_routine =? 0) then Ret (-1, None)
  else
    let! t := Atomic (sys (pvPortMalloc sizeof_posix_thread_t)) in
    if t =? 0 then Ret (-1, None)
    else
      Atomic (
        place_thread t ;>
        t_set t (λ x, x <| pt_start_routine := start_routine |>) ;>
        t_set t (λ x, x <| pt_arg := arg |>) ;>
        t_set t (λ x, x <| pt_retval := 0 |>) ;>
        t_set t (λ x, x <| pt_detached := 0 |>)) ;!
      let! q := Atomic (sys xSemaphoreCreateBinary) in
      Atomic (t_set t (λ x, x <| pt_join_sem := q |>)) ;!
      if q =? 0 then Atomic (free_thread t) ;! Ret (-1, None)
      else
        Atomic (p_ker vTaskSuspendAll) ;!
        let! result := Atomic (
          let* h := sys (xTaskCreate 1024 (tskIDLE_PRIORITY + 1)) in
          (match h with Some h => t_set t (λ x, x <| pt_xTask := h |>) | None => retM tt end) ;>
          retM h) in
        match result with
        | None =>
            let! _ := Atomic (p_ker xTaskResumeAll) in
            Atomic (sys (vSemaphoreDelete q)) ;!
            Atomic (free_thread t) ;!
            Ret (-1, None)
        | Some _ =>
            Atomic (add_thread t) ;!
            let! _ := Atomic (p_ker xTaskResumeAll) in
            Ret (0, Some t)
        end.

(** Answers the code and what is written to [*retval] where that is not [NULL]. *)
Definition pthread_join (thread : Z) : PP (Z * option Z) :=
  if thread =? 0 then Ret (-1, None)
  else
    let! q := Atomic (t_get thread pt_join_sem) in
    let! taken := sysP (onP (xSemaphoreTake q portMAX_DELAY)) in
    if negb taken then Ret (-1, None)
    else
      let! retval := Atomic (t_get thread pt_retval) in
      Atomic (remove_thread thread) ;!
      let! q := Atomic (t_get thread pt_join_sem) in
      Atomic (sys (vSemaphoreDelete q)) ;!
      Atomic (free_thread thread) ;!
      Ret (0, Some retval).

(** [while( 1 );] *)
Definition spin : PP unit := Loop (λ _, Ret (inl tt)) tt.

Definition pthread_exit (retval : Z) : PP unit :=
  let! h := Atomic (p_ker xTaskGetCurrentTaskHandle) in
  let! t := Atomic (find_thread (handle_of h)) in
  (if negb (t =? 0) then
     Atomic (t_set t (λ x, x <| pt_retval := retval |>)) ;!
     let! d := Atomic (t_get t pt_detached) in
     if negb (d =? 0) then
       Atomic (remove_thread t) ;!
       let! q := Atomic (t_get t pt_join_sem) in
       Atomic (sys (vSemaphoreDelete q)) ;!
       Atomic (free_thread t)
     else
       let! q := Atomic (t_get t pt_join_sem) in
       let! _ := sysP (onP (xSemaphoreGive q)) in
       Ret tt
   else Ret tt) ;!
  sysP (vTaskDelete None) ;!
  spin.

(** The entry function of every thread's task; [routine] runs the application's
    function at an address with its argument. *)
Definition posix_thread_wrapper (routine : Z → Z → PP Z) (pvParameters : Z) : PP unit :=
  let! start := Atomic (t_get pvParameters pt_start_routine) in
  let! arg := Atomic (t_get pvParameters pt_arg) in
  let! retval := routine start arg in
  pthread_exit retval.

Definition pthread_detach (thread : Z) : PP Z :=
  if thread =? 0 then Ret (-1)
  else Atomic (t_set thread (λ x, x <| pt_detached := 1 |>)) ;! Ret 0.
Definition pthread_self : PP Z :=
  let! h := Atomic (p_ker xTaskGetCurrentTaskHandle) in
  Atomic (find_thread (handle_of h)).

(** ** Mutexes and semaphores

    The variable a function works on is given by its contents, [None] where the
    caller passes [NULL]; the functions that write it answer the new contents. *)
Definition pthread_mutex_init (mutex : option Z) : PP (Z * option Z) :=
  match mutex with
  | None => Ret (-1, None)
  | Some old =>
      let! xMutex := sysP (xQueueCreateMutex queueQUEUE_TYPE_MUTEX) in
      if xMutex =? 0 then Ret (-1, Some old) else Ret (0, Some xMutex)
  end.
Definition pthread_mutex_lock (mutex : option Z) : PP Z :=
  match mutex with
  | None => Ret (-1)
  | Some xMutex =>
      if xMutex =? 0 then Ret (-1)
      else let! b := sysP (onP (xSemaphoreTake xMutex portMAX_DELAY)) in Ret (if b then 0 else -1)
  end.
Definition pthread_mutex_unlock (mutex : option Z) : PP Z :=
  match mutex with
  | None => Ret (-1)
  | Some xMutex =>
      if xMutex =? 0 then Ret (-1)
      else let! b := sysP (onP (xSemaphoreGive xMutex)) in Ret (if b then 0 else -1)
  end.
Definition pthread_mutex_destroy (mutex : option Z) : PP (Z * option Z) :=
  match mutex with
  | None => Ret (-1, None)
  | Some xMutex =>
      if negb (xMutex =? 0) then Atomic (sys (vSemaphoreDelete xMutex)) ;! Ret (0, Some 0)
      else Ret (0, Some xMutex)
  end.

Definition sem_init (sem : option Z) (value : Z) : PP (Z * option Z) :=
  match sem with
  | None => Ret (-1, None)
  | Some old =>
      let! xSem := Atomic (sys (xQueueCreateCountingSemaphore 65535 value)) in
      if xSem =? 0 then Ret (-1, Some old) else Ret (0, Some xSem)
  end.
Definition sem_wait (sem : option Z) : PP Z :=
  match sem with
  | None => Ret (-1)
  | Some xSem =>
      if xSem =? 0 then Ret (-1)
      else let! b := sysP (onP (xSemaphoreTake xSem portMAX_DELAY)) in Ret (if b then 0 else -1)
  end.
Definition sem_post (sem : option Z) : PP Z :=
  match sem with
  | None => Ret (-1)
  | Some xSem =>
      if xSem =? 0 then Ret (-1)
      else let! b := sysP (onP (xSemaphoreGive xSem)) in Ret (if b then 0 else -1)
  end.
Definition sem_destroy (sem : option Z) : PP (Z * option Z) :=
  match sem with
  | None => Ret (-1, None)
  | Some xSem =>
      if negb (xSem =? 0) then Atomic (sys (vSemaphoreDelete xSem)) ;! Ret (0, Some 0)
      else Ret (0, Some xSem)
  end.

(** ** Time *)
(** [pdMS_TO_TICKS] computes in 64 bits. *)
Definition pdMS_TO_TICKS (xTimeInMs : Z) : Z := wrap32 ((xTimeInMs * configTICK_RATE_HZ) mod 2 ^ 64 / 1000).
(** [unsigned long] has 32 bits. *)
Definition sleep (seconds : Z) : PM Z :=
  p_ker (vTaskDelay (pdMS_TO_TICKS (wrap32 (seconds * 1000)))) ;> retM 0.
Definition usleep (useconds : Z) : PM Z :=
  let ticks := pdMS_TO_TICKS (useconds / 1000) in
  let ticks := if (ticks =? 0) && (0 <? useconds) then 1 else ticks in
  p_ker (vTaskDelay ticks) ;> retM 0.
End posix.
