(* ===== verification/PosixOps.v ===== *)
(** * The operations of the POSIX layer: rules

    The list of threads as a sequence of records, and the rules for the parts of
    the state. *)
From S2P Require Import Prelude KList Tasks Prog Queue SchedLock Heap4 QueueMgmt TaskLife PosixShim.
From Stdlib Require Import ZifyBool.

(** ** Rules for the state *)
Lemma wp_t_get {A} t x (f : posix_thread_t → A) (Q : A → psys → Prop) s :
  p_threads s !! t = Some x → Q (f x) s → wp (t_get t f) Q s.
Proof. intros Hx HQ. unfold t_get. apply wp_bind, wp_getM. rewrite Hx. by eapply wp_deref. Qed.
Definition with_threads (f : gmap Z posix_thread_t → gmap Z posix_thread_t) (s : psys) : psys :=
  mkPsys (p_sys s) (f (p_threads s)) (g_thread_list s).
Lemma wp_t_set t x f (Q : unit → psys → Prop) s :
  p_threads s !! t = Some x → Q tt (with_threads <[t := f x]> s) → wp (t_set t f) Q s.
Proof. intros Hx HQ. unfold t_set. apply wp_bind, wp_getM. rewrite Hx. by apply wp_modify. Qed.
Lemma wp_sys {A} (m : QHM A) (Q : A → psys → Prop) s :
  wp m (λ a g, Q a (mkPsys g (p_threads s) (g_thread_list s))) (p_sys s) → wp (sys m) Q s.
Proof. intros Hm. by apply (wp_zoom p_sys). Qed.

(** ** The list *)

(** From the head [h] on the records [ts] are linked. *)
Fixpoint chain (m : gmap Z posix_thread_t) (h : Z) (ts : list Z) : Prop :=
  match ts with
  | [] => h = 0
  | t :: ts => h = t ∧ t ≠ 0 ∧ ∃ x, m !! t = Some x ∧ chain m (pt_next x) ts
  end.
(** The list of the threads in a state. *)
Definition threads (s : psys) (ts : list Z) : Prop := chain (p_threads s) (g_thread_list s) ts ∧ NoDup ts.
(** The records but for their links. *)
Definition unlinked (x : posix_thread_t) : posix_thread_t := x <| pt_next := 0 |>.
Definition same_records (s s' : psys) : Prop :=
  p_sys s' = p_sys s ∧ unlinked <$> p_threads s' = unlinked <$> p_threads s.

Lemma same_records_refl s : same_records s s.
Proof. done. Qed.
Lemma chain_insert m h ts t x : t ∉ ts → chain m h ts → chain (<[t := x]> m) h ts.
Proof.
  revert h. induction ts as [|u ts IH]; intros h; [done|]. simpl. rewrite not_elem_of_cons.
  intros [Hne Hn] (-> & Hu & y & Hy & Hc). split_and!; [done..|]. exists y.
  rewrite lookup_insert_ne by done. split; [done|]. by apply IH.
Qed.
Lemma chain_records m h ts t : chain m h ts → t ∈ ts → is_Some (m !! t) ∧ t ≠ 0.
Proof.
  revert h. induction ts as [|u ts IH]; intros h; simpl; [by intros _ ?%not_elem_of_nil|].
  intros (-> & Hu & y & Hy & Hc) [->|Ht]%elem_of_cons; [by eauto|by eapply IH].
Qed.
Lemma chain_length s ts : threads s ts → (length ts < threads_fuel s)%nat.
Proof.
  intros [Hc Hnd]. unfold threads_fuel. rewrite <- size_dom.
  rewrite <- (size_list_to_set (C:=gset Z) ts) by done.
  assert (list_to_set (C:=gset Z) ts ⊆ dom (p_threads s)); [|pose proof (subseteq_size _ _ H); lia].
  intros t Ht%elem_of_list_to_set. apply elem_of_dom. by eapply chain_records.
Qed.

Lemma unlinked_insert (m : gmap Z posix_thread_t) t x y : m !! t = Some x → unlinked y = unlinked x → unlinked <$> <[t := y]> m = unlinked <$> m.
Proof. intros Hx Hy. rewrite fmap_insert, Hy. apply insert_id. by rewrite lookup_fmap, Hx. Qed.

(** *** Prepending *)
Lemma wp_add_thread s ts t x : threads s ts → t ∉ ts → t ≠ 0 → p_threads s !! t = Some x →
  wp (add_thread t) (λ _ s', threads s' (t :: ts) ∧ same_records s s') s.
Proof.
  intros [Hc Hnd] Hn Ht Hx. unfold add_thread. apply wp_bind, wp_getM, wp_bind.
  eapply wp_t_set; [exact Hx|]. apply wp_modify. split; [split|split].
  - simpl. split_and!; [done..|]. eexists. split; [apply lookup_insert_eq|]. by apply chain_insert.
  - by apply NoDup_cons.
  - done.
  - simpl. by apply (unlinked_insert _ _ x).
Qed.

(** *** Searching *)
Definition task_is (s : psys) (h t : Z) : bool := bool_decide (pt_xTask <$> p_threads s !! t = Some h).
Definition first_thread (s : psys) (h : Z) (ts : list Z) : Z := default 0 (head (filter (λ t, task_is s h t = true) ts)).

Lemma wp_find_loop s h ts : ∀ fuel c, chain (p_threads s) c ts → (length ts < fuel)%nat →
  wp (iterM fuel (find_one h) c) (λ r s', r = first_thread s h ts ∧ s' = s) s.
Proof.
  induction ts as [|t ts IH]; intros [|fuel] c Hc Hf; simpl in Hf; try lia; cbn [iterM]; apply wp_bind.
  - simpl in Hc. subst c. by apply wp_ret.
  - destruct Hc as (-> & Ht & x & Hx & Hc). unfold find_one. destruct (Z.eqb_spec t 0); [done|].
    apply wp_bind. eapply wp_t_get; [exact Hx|]. unfold first_thread. rewrite filter_cons.
    simpl. destruct (Z.eqb_spec (pt_xTask x) h) as [Heq|Hne].
    + rewrite decide_True by (unfold task_is; rewrite Hx; simpl; apply bool_decide_eq_true; congruence).
      apply wp_ret. by apply wp_ret.
    + rewrite decide_False by (unfold task_is; rewrite Hx; simpl; rewrite bool_decide_eq_true; congruence).
      apply wp_bind. eapply wp_t_get; [exact Hx|]. apply wp_ret. apply IH; [done|lia].
Qed.
Lemma wp_find_thread s h ts : threads s ts → wp (find_thread h) (λ r s', r = first_thread s h ts ∧ s' = s) s.
Proof. intros Hts. unfold find_thread. apply wp_bind, wp_getM, wp_find_loop; [apply Hts|by apply chain_length]. Qed.

(** *** Unlinking *)

(** The head of what follows the records [pre]. *)
Definition link_value (s : psys) (curr : option Z) : option Z :=
  match curr with None => Some (g_thread_list s) | Some a => pt_next <$> p_threads s !! a end.
Lemma wp_thread_link curr c (Q : Z → psys → Prop) s : link_value s curr = Some c → Q c s → wp (get_link curr) Q s.
Proof.
  unfold get_link, link_value. destruct curr as [a|].
  - intros (x & Hm & Hx)%fmap_Some HQ. subst c. by eapply wp_t_get.
  - intros [= <-] HQ. by apply wp_gets.
Qed.
Lemma chain_link m h pre rest : chain m h (pre ++ rest) →
  ∃ c, match last pre with None => Some h | Some a => pt_next <$> m !! a end = Some c ∧ chain m c rest.
Proof.
  induction pre as [|a pre _] using rev_ind; simpl; [by eauto|].
  rewrite last_snoc, <- app_assoc. simpl. revert h. induction pre as [|b pre IH]; intros h; simpl.
  - intros (-> & Ha & x & -> & Hc). by eauto.
  - intros (-> & Hb & x & Hx & Hc). by eapply IH.
Qed.
Lemma threads_relink m h pre a t rest x y : NoDup (pre ++ a :: t :: rest) → m !! a = Some x → m !! t = Some y →
  chain m h (pre ++ a :: t :: rest) → chain (<[a := x <| pt_next := pt_next y |>]> m) h (pre ++ a :: rest).
Proof.
  intros Hnd Hx Hy. revert h. induction pre as [|b pre IH]; intros h; simpl.
  - intros (-> & Ha & x' & Hx' & _ & Ht & y' & Hy' & Hc). split_and!; [done..|]. eexists.
    split; [apply lookup_insert_eq|]. simplify_eq. simpl in *.
    apply chain_insert; [|done]. by apply NoDup_cons in Hnd as [?%not_elem_of_cons _]; tauto.
  - simpl in Hnd. apply NoDup_cons in Hnd as [Hb Hnd]. intros (-> & Hb0 & z & Hz & Hc). split_and!; [done..|].
    exists z. rewrite lookup_insert_ne by set_solver. split; [done|]. by apply IH.
Qed.

Lemma filter_same t (l : list Z) : t ∉ l → filter (λ u, u ≠ t) l = l.
Proof. intros Ht. induction l as [|u l IH]; [done|]. rewrite filter_cons_True by set_solver. f_equal. apply IH. set_solver. Qed.
Lemma wp_remove_loop s t rest : ∀ fuel pre, threads s (pre ++ rest) → t ∉ pre → (length rest < fuel)%nat →
  wp (iterM fuel (remove_one t) (last pre))
     (λ _ s', threads s' (filter (λ u, u ≠ t) (pre ++ rest)) ∧ same_records s s') s.
Proof.
  induction rest as [|u rest IH]; intros [|fuel] pre [Hc Hnd] Ht Hf; simpl in Hf; try lia; cbn [iterM]; apply wp_bind;
    destruct (chain_link _ _ _ _ Hc) as (c & Hl & Hr); unfold remove_one; apply wp_bind;
    (eapply wp_thread_link; [exact Hl|]).
  - simpl in Hr. subst c. apply wp_ret. apply wp_ret. rewrite app_nil_r in *. rewrite filter_same by done.
    split; [by split|apply same_records_refl].
  - destruct Hr as (-> & Hu & y & Hy & Hr). destruct (Z.eqb_spec u 0); [done|].
    destruct (Z.eqb_spec u t) as [->|Hne].
    + apply wp_bind. eapply wp_t_get; [exact Hy|].
      assert (Ht' : t ∉ rest) by (apply NoDup_app in Hnd as (_ & _ & [? _]%NoDup_cons); done).
      assert (Hfl : filter (λ u, u ≠ t) (pre ++ t :: rest) = pre ++ rest).
      { rewrite filter_app, filter_cons_False by tauto. by rewrite !filter_same. }
      assert (Hnd' : NoDup (pre ++ rest)).
      { rewrite <- Hfl. by apply NoDup_filter. }
      rewrite Hfl. apply wp_bind. destruct pre as [|a pre _] using rev_ind.
      * simpl. apply wp_modify. apply wp_ret. apply wp_ret. split; [by split|done].
      * rewrite last_snoc in *. simpl in Hl. apply fmap_Some in Hl as (x & Hx & _). simpl.
        eapply wp_t_set; [exact Hx|]. apply wp_ret. apply wp_ret. rewrite <- app_assoc in *. simpl in *.
        split; [split; simpl; [|done]|split; [done|]].
        -- by eapply (threads_relink _ _ _ _ t).
        -- simpl. by apply (unlinked_insert _ _ x).
    + apply wp_ret. replace (pre ++ u :: rest) with ((pre ++ [u]) ++ rest) in * by by rewrite <- app_assoc.
      rewrite <- (last_snoc u pre). apply IH; [by split|set_solver|lia].
Qed.
Lemma wp_remove_thread s t ts : threads s ts →
  wp (remove_thread t) (λ _ s', threads s' (filter (λ u, u ≠ t) ts) ∧ same_records s s') s.
Proof.
  intros Hts. unfold remove_thread. apply wp_bind, wp_getM.
  apply (wp_remove_loop _ _ _ _ []); [done|by apply not_elem_of_nil|by apply chain_length].
Qed.

(** *** A record that is gone *)
Lemma chain_delete m h ts t : t ∉ ts → chain m h ts → chain (delete t m) h ts.
Proof.
  revert h. induction ts as [|u ts IH]; intros h; [done|]. simpl. rewrite not_elem_of_cons.
  intros [Hne Hn] (-> & Hu & y & Hy & Hc). split_and!; [done..|]. exists y.
  rewrite lookup_delete_ne by done. split; [done|]. by apply IH.
Qed.
Lemma threads_delete s s' ts t : threads s ts → t ∉ ts → p_threads s' = delete t (p_threads s) →
  g_thread_list s' = g_thread_list s → threads s' ts.
Proof. intros [Hc Hnd] Ht Hm Hh. split; [|done]. rewrite Hm, Hh. by apply chain_delete. Qed.
Lemma chain_ext m m' h ts : (∀ t, pt_next <$> m' !! t = pt_next <$> m !! t) → chain m h ts → chain m' h ts.
Proof.
  intros He. revert h. induction ts as [|u ts IH]; intros h; [done|]. simpl.
  intros (-> & Hu & y & Hy & Hc). split_and!; [done..|]. specialize (He u). rewrite Hy in He. simpl in He.
  apply fmap_Some in He as (y' & Hy' & Hn). exists y'. split; [done|]. rewrite <- Hn. by apply IH.
Qed.
(** A record changes but for its link. *)
Lemma threads_insert s s' ts t x y : threads s ts → p_threads s !! t = Some x → pt_next y = pt_next x →
  p_threads s' = <[t := y]> (p_threads s) → g_thread_list s' = g_thread_list s → threads s' ts.
Proof.
  intros [Hc Hnd] Hx Hy Hm Hh. split; [|done]. rewrite Hm, Hh. eapply chain_ext; [|exact Hc]. intros u.
  destruct (decide (t = u)) as [<-|]; [by rewrite lookup_insert_eq, Hx; simpl; rewrite Hy|by rewrite lookup_insert_ne].
Qed.
(** The record's fields but the link are the same. *)
Lemma same_record s s' t x : same_records s s' → p_threads s !! t = Some x → ∃ y, p_threads s' !! t = Some y ∧ unlinked y = unlinked x.
Proof.
  intros [_ Hm] Hx. pose proof (f_equal (.!! t) Hm) as He. simpl in He. rewrite !lookup_fmap, Hx in He. simpl in He.
  apply fmap_Some in He as (y & Hy & Hn). by exists y.
Qed.
