(* ===== verification/PosixCalls.v ===== *)
(** * The calls of the POSIX layer: rules

    The scheduler lock of a system with queues, for the heap; the end of a
    thread's task; and what of the layer's state each call leaves alone. *)
From S2P Require Import Prelude KList KListSpec Tasks TasksView TasksInv TasksOps TasksMachine TasksFrame TasksBlind TasksDetach Prog Queue QueueData QueueOps.
From S2P Require Import QueueMachine QueueCalls SchedLock KernelLock Heap4 Heap4Spec Heap4Rep Heap4Ops Heap4Calls Heap4Client QueueMgmt.
From S2P Require Import TaskLife TaskDelete PosixShim PosixOps.
From Stdlib Require Import ZifyBool.

(** ** Programs of a part of the state *)
Lemma wp_onP {A} fuel (p : QP A) (Q : A → guarded qsys heap → Prop) g :
  wp (exec fuel p) (λ a s, Q a (mkGuarded s (g_data g))) (g_sched g) → wp (exec fuel (onP p)) Q g.
Proof. apply (wp_exec_zoomP g_sched (λ s g, mkGuarded s (g_data g))); [done..|]. by intros []. Qed.
Lemma wp_sysP {A} fuel (p : QHP A) (Q : A → psys → Prop) s :
  wp (exec fuel p) (λ a g, Q a (mkPsys g (p_threads s) (g_thread_list s))) (p_sys s) → wp (exec fuel (sysP p)) Q s.
Proof. intros Hw. apply (wp_exec_zoomP p_sys (λ g s, s <| p_sys := g |>)); [done|done|by intros []|exact Hw]. Qed.
Lemma wp_on_sched {S T A} (m : M S A) (Q : A → guarded S T → Prop) g :
  wp m (λ a s, Q a (mkGuarded s (g_data g))) (g_sched g) → wp (on_sched m) Q g.
Proof. intros Hm. by apply (wp_zoom g_sched). Qed.
Lemma wp_on_qkernel {A} (m : K A) (Q : A → guarded qsys heap → Prop) g :
  wp m (λ a k, Q a (mkGuarded (mkQsys k (q_objs (g_sched g)) (xQueueRegistry (g_sched g))) (g_data g))) (q_kernel (g_sched g)) →
  wp (on_kernel m) Q g.
Proof. intros Hm. apply wp_on_sched. change (kernel_part m) with (ker m). apply (wp_zoom q_kernel). exact Hm. Qed.
Abbreviation the_kernel s := (q_kernel (g_sched (p_sys s))).
Definition with_kernel (k : kernel) (s : psys) : psys :=
  mkPsys (mkGuarded (mkQsys k (q_objs (g_sched (p_sys s))) (xQueueRegistry (g_sched (p_sys s)))) (g_data (p_sys s)))
    (p_threads s) (g_thread_list s).
Lemma wp_p_ker {A} (m : K A) (Q : A → psys → Prop) s :
  wp m (λ a k, Q a (with_kernel k s)) (the_kernel s) → wp (p_ker m) Q s.
Proof. intros Hm. by apply wp_sys, wp_on_qkernel. Qed.
Lemma with_kernel_id s : with_kernel (the_kernel s) s = s.
Proof. by destruct s as [[[] ]]. Qed.

Section calls.
Context (idle : Z).

(** ** The scheduler lock, while nothing is pending

    No tick and no switch is pended: what is done between [vTaskSuspendAll] and
    [xTaskResumeAll] then leaves the kernel exactly as it was. *)
Record still (s : qsys) : Prop := {
  st_good : qgood idle s;
  st_susp : uxSchedulerSuspended (q_kernel s) = 0;
  st_ticks : xPendedTicks (q_kernel s) = 0;
  st_yield : xYieldPendings (q_kernel s) = false
}.
Definition still_at (σ s : qsys) : Prop := s = σ ∧ still σ.
Definition still_locked (σ s : qsys) : Prop :=
  s = σ <| q_kernel ::= λ k, k <| uxSchedulerSuspended := 1 |> |> ∧ still σ.

Lemma still_suspend σ s : still_at σ s → wp suspendAll (λ _, still_locked σ) s.
Proof.
  intros [-> Hst]. change (wp (ker vTaskSuspendAll) (λ _, still_locked σ) σ). apply (wp_zoom q_kernel), wp_modify.
  split; [|done]. pose proof (st_susp _ Hst) as Hs. destruct σ as [k O reg]. simpl in *. unfold set_field. simpl. by rewrite Hs.
Qed.
Lemma resume_nothing k : kgood idle k → uxSchedulerSuspended k = 0 → xPendedTicks k = 0 → xYieldPendings k = false →
  xTaskResumeAll (k <| uxSchedulerSuspended := 1 |>) = ROk (false, k).
Proof.
  intros (v & [Hinv _]%ksafe_kinv & _) Hs Hp Hy.
  enough (wp xTaskResumeAll (λ b k', b = false ∧ k' = k) (k <| uxSchedulerSuspended := 1 |>)) as Hw.
  { destruct (wp_ok _ _ _ Hw) as (b & k' & Hrun & -> & ->). exact Hrun. }
  unfold xTaskResumeAll, critical. apply wp_bind, wp_getM, wp_bind, wp_assert; [done|]. apply wp_bind, wp_modify.
  assert ((k <| uxSchedulerSuspended := 1 |>) <| uxSchedulerSuspended ::= λ n, wrap32 (n - 1) |> = k) as ->.
  { clear -Hs. destruct k. unfold set_field. simpl in *. by rewrite Hs. }
  apply wp_bind, wp_getM. rewrite Hs. simpl. destruct (0 <? uxCurrentNumberOfTasks k); [|by apply wp_ret].
  apply wp_bind, (wp_mono _ (λ o k', o = None ∧ k' = k)).
  - unfold move_pending. apply wp_bind, wp_kl. eapply ws_len; [apply Hinv|apply list_fixed; [apply Hinv|set_solver]|].
    replace (k <| k_lists := k_lists k |>) with k by by destruct k. cbn [iterM]. apply wp_bind. unfold move_pending_one.
    apply wp_bind, wp_kl. eapply ws_is_empty; [apply Hinv|apply list_fixed; [apply Hinv|set_solver]|].
    rewrite (is_zero _ _ _ (ki_susp _ _ _ Hinv) Hs), bool_decide_true by done. apply wp_ret, wp_ret.
    split; [done|by destruct k].
  - intros o k' [-> ->]. apply wp_bind, wp_ret, wp_bind, wp_getM. simpl. rewrite Hp. apply wp_bind, wp_ret, wp_bind, wp_getM.
    rewrite Hy. by apply wp_ret.
Qed.
Lemma still_resume σ s : still_locked σ s → wp resumeAll (λ _, still_at σ) s.
Proof.
  intros [-> Hst]. change (wp (ker xTaskResumeAll) (λ _, still_at σ) (σ <| q_kernel ::= λ k, k <| uxSchedulerSuspended := 1 |> |>)).
  apply (wp_zoom q_kernel). eapply wp_intro; [apply resume_nothing; apply Hst|].
  split; [by destruct σ|done].
Qed.
Definition still_lock_spec (σ : qsys) : SchedulerLockSpec qsys := {|
  unlocked := still_at σ;
  locked := still_locked σ;
  suspendAll_spec := still_suspend σ;
  resumeAll_spec := still_resume σ
|}.

(** ** The running task deletes itself *)
Lemma terminated_pend k c k' : terminated idle k c k' → terminated idle k c (k' <| pendsv := true |>).
Proof.
  intros [Hg Hf Hi Hr Hn HT Ht Ho]. split; [by apply (kgood_pend' idle)| |done..].
  etrans; [exact Hf|]. by split; [split|].
Qed.
Lemma wp_delete_yield k c (Q : unit → kernel → Prop) : xSchedulerRunning k = true → pxCurrentTCB k = Some c →
  uxSchedulerSuspended k = 0 → Q tt (k <| pendsv := true |>) → wp (delete_yield c) Q k.
Proof.
  intros Hr Hc Hs HQ. unfold delete_yield. apply wp_bind, wp_getM. rewrite Hr, Hc, bool_decide_true by done.
  simpl. apply wp_bind, wp_assert; [by rewrite Hs|]. by apply wp_portYIELD.
Qed.
Section heap.
Context `{HLok : HeapLayoutOk}.

(** *** Memory and queues together

    The blocks that are out are [live], and the kernel and the queues are [σ],
    with nothing pending. *)
Definition holds (σ : qsys) (live : buffers) (g : guarded qsys heap) : Prop :=
  client_inv (HS := still_lock_spec σ) (g, live).
Lemma holds_still σ live g : holds σ live g → g_sched g = σ ∧ still σ.
Proof. by intros [Hu _]. Qed.
Lemma holds_sched σ σ' live g : holds σ live g → still σ' → holds σ' live (mkGuarded σ' (g_data g)).
Proof. intros [_ Hi] Hu. by split. Qed.
Lemma qgood_delete s q : qgood idle s → qgood idle (s <| q_objs ::= delete q |>).
Proof.
  intros [Hk Hs Hr Hn HQ]. split; [done..|]. intros q' x Hx. simpl in Hx. apply lookup_delete_Some in Hx as [_ Hx]. by apply (HQ q').
Qed.
(** What deleting the queue [q] leaves. *)
Definition without_queue (q : Z) (s : qsys) : qsys :=
  s <| xQueueRegistry ::= registry_remove q |> <| q_objs ::= delete q |>.
Lemma still_without q s : still s → still (without_queue q s).
Proof. intros [Hg Hs Ht Hy]. split; [|done..]. apply (qgood_delete (s <| xQueueRegistry ::= registry_remove q |>)). by destruct Hg. Qed.
Lemma wp_vSemaphoreDelete σ live g q x bs : holds σ live g → q_objs σ !! q = Some x → q_ucStaticallyAllocated x = 0 →
  live !! q = Some bs → wp (vSemaphoreDelete q) (λ _ g', holds (without_queue q σ) (delete q live) g') g.
Proof.
  intros Hh Hx Hst Hl. destruct (holds_still _ _ _ Hh) as [Hgs Hs].
  assert (q ≠ 0) as Hq by (by apply (qo_handle _ _ _ (qg_queues _ _ (st_good _ Hs) _ _ Hx))).
  apply (proj2 (Z.eqb_neq _ _)) in Hq. unfold vSemaphoreDelete, vQueueDelete.
  apply wp_bind, wp_on_sched, wp_bind, wp_assert; [by rewrite Hq|]. apply wp_bind, wp_assert; [by rewrite Hq|]. apply wp_modify.
  rewrite Hgs. set (s1 := σ <| xQueueRegistry ::= registry_remove q |>).
  assert (still s1) as Hs1 by (destruct Hs as [[] ? ? ?]; by split).
  apply wp_bind, wp_on_sched. unfold q_get. apply wp_bind, wp_getM. simpl.
  eapply wp_deref; [by rewrite Hx|]. rewrite Hst. simpl. apply wp_bind.
  eapply wp_mono; [apply (free_view (HS := still_lock_spec s1) _ live q bs); [|done]|].
  { exact (holds_sched _ _ _ _ Hh Hs1). }
  intros [] g' Hg'. apply wp_on_sched, wp_modify. destruct (holds_still _ _ _ Hg') as [-> _].
  apply (holds_sched s1 _ _ _ Hg'). by apply still_without.
Qed.
Lemma wp_free_thread σ live s t bs : holds σ live (p_sys s) → live !! t = Some bs →
  wp (free_thread t) (λ _ s', holds σ (delete t live) (p_sys s') ∧
    p_threads s' = delete t (p_threads s) ∧ g_thread_list s' = g_thread_list s) s.
Proof.
  intros Hh Hl. unfold free_thread. apply wp_bind, wp_sys.
  eapply wp_mono; [by apply (free_view (HS := still_lock_spec σ) _ live t bs)|]. intros [] g' Hg'. by apply wp_modify.
Qed.

(** *** The task's end *)
Lemma wp_vTaskDelete_self g c : let k := q_kernel (g_sched g) in
  kgood idle k → pxCurrentTCB k = Some c → ready k c = true → c ≠ idle → xSchedulerRunning k = true → uxSchedulerSuspended k = 0 →
  wp (exec 1 (vTaskDelete (S := qsys) None)) (λ _ g', ∃ k', terminated idle k c k' ∧ pendsv k' = true ∧
    g' = mkGuarded (mkQsys k' (q_objs (g_sched g)) (xQueueRegistry (g_sched g))) (g_data g)) g.
Proof.
  intros k Hk Hc Hr Hne Hrun Hs. cbn [exec vTaskDelete]. apply wp_bind, wp_on_qkernel. fold k.
  eapply wp_mono; [by apply (wp_delete_self idle k c)|]. intros r k1 [-> Ht]. cbn [exec]. apply wp_bind, wp_ret, wp_on_qkernel.
  pose proof (tm_frame _ _ _ _ Ht) as [Hf Hsu]. simpl.
  apply (wp_delete_yield k1 c); [by rewrite (fr_running _ _ Hf)|by rewrite (fr_current _ _ Hf)|by rewrite Hsu|].
  eexists. split; [by apply terminated_pend|by split].
Qed.
End heap.
End calls.
