(* ===== verification/PosixProps.v ===== *)
(** * Properties of the POSIX layer

    The list of threads as a sequence; how a thread ends and who joins it gets its
    result and reclaims its memory; how long a sleep lasts. *)
From S2P Require Import Prelude KList Tasks TasksView TasksInv TasksTick TasksSwitch TasksBlock TasksResume TasksDelay TasksOps TasksTime.
From S2P Require Import TasksCreate TasksMachine TasksTrace TasksCheck TasksProps TasksWaiters TasksFrame TasksBlind TasksDetach Prog.
From S2P Require Import Queue QueueData QueueOps QueueMachine QueueCalls SchedLock KernelLock Heap4 Heap4Spec Heap4Rep Heap4Ops Heap4Calls Heap4Client.
From S2P Require Import QueueMgmt QueueExample HeapProps TaskLife TaskDelete PosixShim PosixOps PosixCalls.
From Stdlib Require Import ZifyBool.
#[local] Opaque exec.

(** C36: the loops along the list of threads end, and do what a list of the threads
    would: [add_thread] puts a new thread in front, [find_thread] answers the first
    thread that runs as the given task (or [NULL]), [remove_thread] takes the
    thread out wherever it is; nothing but the links of the records changes. *)
Theorem thread_list_operations s ts t :
  threads s ts →
  (∀ x, t ∉ ts → t ≠ 0 → p_threads s !! t = Some x →
     wp (add_thread t) (λ _ s', threads s' (t :: ts) ∧ same_records s s') s) ∧
  (∀ h, wp (find_thread h) (λ r s', r = first_thread s h ts ∧ s' = s) s) ∧
  wp (remove_thread t) (λ _ s', threads s' (filter (λ u, u ≠ t) ts) ∧ same_records s s') s.
Proof.
  intros Hts. split_and!.
  - intros x ???. by eapply wp_add_thread.
  - intros h. by apply wp_find_thread.
  - by apply wp_remove_thread.
Qed.

Section sleep.
Context (idle : Z).

(** [n] ticks asleep: with [n] positive the running task is ready again exactly
    when that many ticks have happened, else it only gives the processor away. *)
Definition sleeps_for (n : Z) (s s' : psys) : Prop :=
  p_threads s' = p_threads s ∧ g_thread_list s' = g_thread_list s ∧ q_objs (g_sched (p_sys s')) = q_objs (g_sched (p_sys s)) ∧
  pendsv (the_kernel s') = true ∧
  (n = 0 → the_kernel s' = (the_kernel s) <| pendsv := true |>) ∧
  (0 < n → ∀ tr, wp (interrupts tr) (λ _ k2,
     ready k2 (cur (the_kernel s)) = bool_decide (n ≤ xPendedTicks (the_kernel s) + count_ticks tr)) (the_kernel s')).

Lemma wp_sleep_ticks s n : let k := the_kernel s in
  kernel_ok idle k → may_block idle k = true → event_in k (cur k) = None → 0 ≤ n < MAX32 →
  wp (p_ker (vTaskDelay n) ;> retM 0) (λ r s', r = 0 ∧ sleeps_for n s s') s.
Proof.
  intros k [v Hk] Hm Hev Hn. destruct (may_block_cur idle k v Hk Hm) as (y & Hcur & Hne & Hs).
  apply (event_in_none k v (ko_inv _ _ _ Hk)) in Hev. apply wp_bind, wp_p_ker. fold k.
  destruct (Z.eqb_spec n 0) as [->|Hn0].
  - unfold vTaskDelay. simpl. apply wp_bind, wp_ret, wp_portYIELD, wp_ret. split; [done|]. by split_and!.
  - eapply wp_mono; [apply (wp_vTaskDelay_exact idle k v (cur k) y n Hk Hcur Hne Hs); [lia|done]|].
    intros _ k1 (v1 & Hk1 & Hp1 & Hs1 & Hsl). apply wp_ret. split; [done|]. split_and!; try done.
    intros _ tr. eapply wp_mono; [by apply (sleeping_trace idle k1 v1 (cur k) y _ Hk1 Hs1 Hsl tr)|].
    intros [] k2 Hr. fold k. rewrite Hr. apply bool_decide_ext. lia.
Qed.

Lemma pdMS_TO_TICKS_small ms : 0 ≤ ms < 2 ^ 32 → pdMS_TO_TICKS ms = ms.
Proof.
  intros Hms. unfold pdMS_TO_TICKS, configTICK_RATE_HZ. rewrite Z.mod_small by lia.
  rewrite Z.div_mul by lia. apply wrap32_small. unfold u32, MAX32. lia.
Qed.

(** [sleep( seconds )] sleeps for a thousand ticks (of a millisecond) a second, as
    long as the product fits 32 bits, and [usleep( useconds )] of whole
    milliseconds for a tick each; both count what the tick interrupts count, for
    whatever interrupts follow, and only give the processor away when asked for no
    time. *)
Theorem sleep_exact s n : let k := the_kernel s in
  kernel_ok idle k → may_block idle k = true → event_in k (cur k) = None → 0 ≤ n → n * 1000 < MAX32 →
  wp (sleep n) (λ r s', r = 0 ∧ sleeps_for (n * 1000) s s') s ∧
  wp (usleep (n * 1000)) (λ r s', r = 0 ∧ sleeps_for n s s') s.
Proof.
  intros k Hk Hm Hev Hn Hlt. unfold MAX32 in Hlt. split.
  - unfold sleep. rewrite wrap32_small by (unfold u32, MAX32; lia).
    rewrite pdMS_TO_TICKS_small by lia. apply wp_sleep_ticks; [done..|]. unfold MAX32. lia.
  - unfold usleep. rewrite Z.div_mul by lia. rewrite pdMS_TO_TICKS_small by lia.
    replace (if (n =? 0) && (0 <? n * 1000) then 1 else n) with n.
    2: { destruct (Z.eqb_spec n 0) as [->|]; done. }
    apply wp_sleep_ticks; [done..|]. unfold MAX32. lia.
Qed.
(** Longer sleeps wrap, and a fraction of a millisecond is dropped. *)
Lemma sleep_wraps s : sleep 4294968 s = (p_ker (vTaskDelay 704) ;> retM 0) s.
Proof. unfold sleep. by replace (pdMS_TO_TICKS (wrap32 (4294968 * 1000))) with 704 by by vm_compute. Qed.
Lemma usleep_rounds_down s : usleep 1999 s = (p_ker (vTaskDelay 1) ;> retM 0) s.
Proof.
  unfold usleep. by replace (let t := pdMS_TO_TICKS (1999 / 1000) in if (t =? 0) && (0 <? 1999) then 1 else t) with 1 by by vm_compute.
Qed.
End sleep.

Section threads.
Context (idle : Z) `{HLok : HeapLayoutOk}.

(** The running task [c] may call functions of the kernel. *)
Definition at_work (g : qsys) (c : Z) : Prop :=
  qgood idle g ∧ uxSchedulerSuspended (q_kernel g) = 0 ∧ pxCurrentTCB (q_kernel g) = Some c ∧
  ready (q_kernel g) c = true ∧ c ≠ idle.

(** C37: a thread that ends, and is not detached, leaves its result in its record,
    gives the semaphore its joiner waits for (readying the joiner) and deletes its
    task: run without interruption, it comes to the endless loop after
    [vTaskDelete], with the task among those that the idle task frees and a switch
    pending.  Every other task stays in the lists it was in, the joiner apart; no
    control block and no other queue or thread record changes, nor the queue
    registry, the tick count and the data of the heap. *)
Theorem pthread_exit_hands_over s c ts t r x rv :
  let g := g_sched (p_sys s) in
  at_work g c → threads s ts → first_thread s c ts = t → t ≠ 0 → p_threads s !! t = Some r → pt_detached r = 0 →
  q_objs g !! pt_join_sem r = Some x → semaphore x → uxMessagesWaiting x < uxLength x →
  comes_to (pthread_exit rv) s (λ p s', p = spin ∧
    p_threads s' = <[t := r <| pt_retval := rv |>]> (p_threads s) ∧ threads s' ts ∧ g_data (p_sys s') = g_data (p_sys s) ∧
    (∃ x', q_objs (g_sched (p_sys s')) = <[pt_join_sem r := x']> (q_objs g) ∧ same_queue x x' ∧
       messages x' = messages x ++ [[]]) ∧
    (∃ k1, woken_by (the_kernel s) (WaitRecvL (pt_join_sem r)) k1 ∧ terminated idle k1 c (the_kernel s')) ∧
    pendsv (the_kernel s') = true ∧ xQueueRegistry (g_sched (p_sys s')) = xQueueRegistry g ∧
    k_tcbs (the_kernel s') = k_tcbs (the_kernel s) ∧ xTickCount (the_kernel s') = xTickCount (the_kernel s) ∧
    (∀ u, u ≠ c → head (waiters (the_kernel s) (WaitRecvL (pt_join_sem r))) ≠ Some u →
       state_in (the_kernel s') u = state_in (the_kernel s) u ∧ event_in (the_kernel s') u = event_in (the_kernel s) u)).
Proof.
  intros g (Hg & Hs & Hc & Hrd & Hne) Hts Hft Ht Hr Hdet Hx Hsem Hroom. unfold pthread_exit.
  apply (comes_seq 1), wp_exec_atomic, wp_p_ker. unfold xTaskGetCurrentTaskHandle. apply wp_gets.
  rewrite with_kernel_id. unfold handle_of. fold g. rewrite Hc. simpl.
  apply (comes_seq 1), wp_exec_atomic. eapply wp_mono; [by apply (wp_find_thread s c ts)|]. intros ? ? [-> ->]. rewrite Hft.
  rewrite (proj2 (Z.eqb_neq t 0) Ht). apply (comes_seq 1). cbn [negb]. apply wp_exec_bind, wp_exec_atomic.
  eapply wp_t_set; [exact Hr|]. apply wp_exec_bind, wp_exec_atomic. eapply wp_t_get; [apply lookup_insert_eq|].
  simpl. rewrite Hdet. simpl.
  apply wp_exec_bind, wp_exec_atomic. eapply wp_t_get; [apply lookup_insert_eq|]. simpl. apply wp_exec_bind, wp_sysP, wp_onP. simpl.
  fold g. pose proof (state_front g _ x Hx) as Hfront. unfold xSemaphoreGive. rewrite Hfront in Hg |- *.
  assert (has_room x queueSEND_TO_BACK = true) as Hro by (unfold has_room; apply orb_true_iff; left; lia).
  apply (wp_send_call idle); [done|done|lia| |by left| |congruence].
  { split; [|done]. unfold item_ok. by rewrite Hsem. }
  intros x' w k1 _ Hup Hm Hw. destruct (woken_yield_good _ _ _ _ _ (qg_kernel _ _ Hg) Hw) as (Hk1 & Hf1 & Hr1).
  apply wp_exec_ret, (comes_seq 1), wp_sysP. pose proof Hf1 as [Hf0 Hsu].
  eapply wp_mono.
  { apply (wp_vTaskDelete_self idle _ c); simpl; [done| |by apply Hr1|done| |].
    - by rewrite (fr_current _ _ Hf0).
    - rewrite (fr_running _ _ Hf0). apply (qg_running _ _ Hg).
    - by rewrite Hsu. }
  intros [] g' (k' & Hterm & Hpend & ->). apply comes_here. simpl.
  destruct (woken_yield_same _ _ _ _ _ Hw) as (HT & Htk & Hsame).
  split_and!; [done..| | | | |done|done| | |].
  - eapply (threads_insert s _ ts t r); [done|done| |reflexivity|reflexivity]. done.
  - done.
  - exists x'. rewrite insert_insert_eq. split_and!; [done|apply Hup|].
    rewrite Hm. unfold payload. rewrite Hsem. done.
  - exists k1. split; [|done]. by eapply woken_yield_by.
  - by rewrite (tm_tcbs _ _ _ _ Hterm).
  - by rewrite (tm_tick _ _ _ _ Hterm).
  - intros u Hu Hh. destruct (tm_same _ _ _ _ Hterm u Hu) as [-> ->]. by apply Hsame.
Qed.

(** C38: a thread joins one that has ended, run without interruption and with no
    tick or switch pending: [pthread_join] answers 0 and the thread's result; the
    thread is out of the list, the others are in it as they were, and its record
    and its semaphore are gone, their blocks back in the heap, where all other
    blocks keep their contents.  Of the kernel, the other queues and the queue
    registry nothing changes but that the semaphore's entry in the registry is
    cleared. *)
Theorem pthread_join_reclaims s live ts t r x bs bs' : let g := g_sched (p_sys s) in
  holds idle g live (p_sys s) → threads s ts → t ∈ ts → p_threads s !! t = Some r →
  q_objs g !! pt_join_sem r = Some x → semaphore x → 0 < uxMessagesWaiting x → q_ucStaticallyAllocated x = 0 →
  waiters (q_kernel g) (WaitSendL (pt_join_sem r)) = [] →
  live !! t = Some bs → live !! pt_join_sem r = Some bs' → t ≠ pt_join_sem r →
  wp (exec 1 (pthread_join t)) (λ res s', res = (0, Some (pt_retval r)) ∧
    threads s' (filter (λ u, u ≠ t) ts) ∧
    unlinked <$> p_threads s' = delete t (unlinked <$> p_threads s) ∧
    g_sched (p_sys s') = without_queue (pt_join_sem r) g ∧
    holds idle (without_queue (pt_join_sem r) g) (delete t (delete (pt_join_sem r) live)) (p_sys s')) s.
Proof.
  intros g Hh Hts Ht Hr Hx Hsem Hmsg Hst Hnw Hl Hl' Hne. destruct (holds_still _ _ _ _ Hh) as [_ Hstill].
  pose proof (st_good _ _ Hstill) as Hg.
  assert (t ≠ 0) as Ht0 by (destruct Hts as [Hc _]; by apply (chain_records _ _ _ _ Hc)).
  unfold pthread_join. rewrite (proj2 (Z.eqb_neq t 0) Ht0). apply wp_exec_bind, wp_exec_atomic. eapply wp_t_get; [exact Hr|].
  apply wp_exec_bind, wp_sysP, wp_onP. set (q := pt_join_sem r) in *. fold g.
  pose proof (state_front g q x Hx) as Hfront. unfold xSemaphoreTake.
  assert (qgood idle (mkQsys (q_kernel g) (<[q := x]> (q_objs g)) (xQueueRegistry g))) as Hg' by by rewrite <- Hfront.
  rewrite Hfront. apply (wp_take_call idle); [done|apply Hstill|lia|done|by left| |lia].
  intros x' w k1 _ [Hup Hms] Hw. rewrite (woken_yield_none _ _ _ _ _ Hw Hnw); clear Hw.
  destruct (step_update idle (q_kernel g) (q_kernel g) (q_objs g) (xQueueRegistry g) q x x') as [Hg1 _];
    [done|apply Hg|done|by intros ?|apply Hup|apply Hup|].
  set (g1 := mkQsys (q_kernel g) (<[q := x']> (q_objs g)) (xQueueRegistry g)) in *.
  assert (still idle g1) as Hst1 by (split; [exact Hg1|apply Hstill..]).
  cbn [negb]. apply wp_exec_bind, wp_exec_atomic. eapply wp_t_get; [exact Hr|]. apply wp_exec_bind, wp_exec_atomic.
  set (s1 := mkPsys _ _ _).
  assert (threads s1 ts) as Hts1 by exact Hts.
  eapply wp_mono; [by apply (wp_remove_thread s1 t ts)|]. intros [] s2 [Hts2 Hsame].
  destruct (same_record _ _ _ _ Hsame Hr) as (r2 & Hr2 & Hun). destruct Hsame as [Hsys Hrecs].
  assert (pt_join_sem r2 = q) as Hq2 by (by injection Hun).
  apply wp_exec_bind, wp_exec_atomic. eapply wp_t_get; [exact Hr2|]. rewrite Hq2.
  assert (holds idle g1 live (p_sys s2)) as Hh2.
  { rewrite Hsys. by apply (holds_sched idle g _ live (p_sys s)). }
  apply wp_exec_bind, wp_exec_atomic, wp_sys. eapply wp_mono.
  { eapply (wp_vSemaphoreDelete idle _ _ _ q); [exact Hh2|apply lookup_insert_eq| |exact Hl'].
    rewrite (sq_static _ _ (up_same _ _ Hup)). done. }
  intros [] g3 Hh3. apply wp_exec_bind, wp_exec_atomic. eapply wp_mono.
  { eapply (wp_free_thread idle); [exact Hh3|]. by rewrite lookup_delete_ne. }
  assert (without_queue q g1 = without_queue q g) as Hwo.
  { unfold g1, without_queue, set_field. simpl. by rewrite delete_insert_eq. }
  rewrite Hwo in Hh3 |- *.
  intros [] s4 (Hh4 & Hm4 & Hhead4). apply wp_exec_ret. split; [done|]. split_and!.
  - eapply (threads_delete s2); [done| |exact Hm4|exact Hhead4]. by intros [? _]%list_elem_of_filter.
  - rewrite Hm4. simpl. rewrite fmap_delete, Hrecs. done.
  - rewrite <- Hfront. by destruct (holds_still _ _ _ _ Hh4).
  - by rewrite <- Hfront.
Qed.
End threads.

(** ** Witnesses

    Task 4 runs; the record of a thread is at 536870928, and at 536870968, the
    next block of the heap, the binary semaphore [n] of its joiner. *)
#[local] Existing Instance ex_layout.
#[local] Existing Instance ex_layout_ok.
#[local] Transparent exec.

Definition ex_join : Z := 536870968.
Definition ex_thread : Z := 536870928.
Definition ex_qsys (n : Z) : qsys :=
  final (let* _ := xQueueCreateCountingSemaphoreStatic 1 n ex_join raw in
         q_set ex_join (λ x, x <| q_ucStaticallyAllocated := 0 |>) ;>
         ker (createTasks ex_tasks) ;> ker startKernel) (mkQsys zero_kernel ∅ (replicate 10 (mkRegistryItem None 0))).
Definition ex_sem (n : Z) : Queue_t := default raw (q_objs (ex_qsys n) !! ex_join).
Definition ex_memory (n : Z) : guarded qsys heap :=
  final (let* _ := pvPortMalloc sizeof_posix_thread_t in pvPortMalloc sizeof_Queue_t) (mkGuarded (ex_qsys n) zero_heap).
Definition ex_record (task : Z) : posix_thread_t := mkThread task 1 0 7 ex_join 0 0.
Definition ex_posix (n task : Z) : psys := mkPsys (ex_memory n) {[ ex_thread := ex_record task ]} ex_thread.

Lemma ex_qsys_good n : n = 0 ∨ n = 1 → qgood 1 (ex_qsys n).
Proof.
  intros [-> | ->].
  - split; [apply kgood_check; by vm_compute|by vm_compute|by vm_compute|by vm_compute|].
    replace (q_objs (ex_qsys 0)) with (<[ex_join := ex_sem 0]> (∅ : gmap Z Queue_t)) by by_eval.
    intros q x Hq. apply lookup_insert_Some in Hq as [[<- <-]|[_ Hq]]; [|done].
    split; [|by_eval|by_eval|by_eval|by_eval|by_eval]. split; by vm_compute.
  - split; [apply kgood_check; by vm_compute|by vm_compute|by vm_compute|by vm_compute|].
    replace (q_objs (ex_qsys 1)) with (<[ex_join := ex_sem 1]> (∅ : gmap Z Queue_t)) by by_eval.
    intros q x Hq. apply lookup_insert_Some in Hq as [[<- <-]|[_ Hq]]; [|done].
    split; [|by_eval|by_eval|by_eval|by_eval|by_eval]. split; by vm_compute.
Qed.
Lemma ex_memory_sched n : n = 0 ∨ n = 1 → g_sched (ex_memory n) = ex_qsys n.
Proof. intros [-> | ->]; by_eval. Qed.
Lemma ex_still n : n = 0 ∨ n = 1 → still 1 (ex_qsys n).
Proof. intros Hn. split; [by apply ex_qsys_good|by destruct Hn as [-> | ->]; vm_compute..]. Qed.
Lemma ex_holds n : n = 0 ∨ n = 1 → ∃ live bs bs', holds 1 (ex_qsys n) live (ex_memory n) ∧
  live !! ex_thread = Some bs ∧ live !! ex_join = Some bs'.
Proof.
  intros Hn. pose proof (ex_still n Hn) as Hs.
  assert (holds 1 (ex_qsys n) ∅ (mkGuarded (ex_qsys n) zero_heap)) as H0.
  { by apply (client_inv_init (HS := still_lock_spec 1 (ex_qsys n))). }
  set (g0 := mkGuarded (ex_qsys n) zero_heap) in *. set (g1 := final (pvPortMalloc sizeof_posix_thread_t) g0).
  assert (pvPortMalloc sizeof_posix_thread_t g0 = ROk (ex_thread, g1)) as H1.
  { subst g1 g0. destruct Hn as [-> | ->]; by_eval. }
  assert (pvPortMalloc sizeof_Queue_t g1 = ROk (ex_join, ex_memory n)) as H2.
  { subst g1 g0. destruct Hn as [-> | ->]; by_eval. }
  assert (0 < sizeof_posix_thread_t < MAX32 ∧ 0 < sizeof_Queue_t < MAX32) as [Hs1 Hs2] by by_eval.
  clearbody g0 g1.
  destruct (malloc_view (HS := still_lock_spec 1 (ex_qsys n)) _ _ _ _ _ H0 Hs1 H1) as [_ Hi1].
  destruct (malloc_view (HS := still_lock_spec 1 (ex_qsys n)) _ _ _ _ _ Hi1 Hs2 H2) as [_ Hi2].
  eexists _, _, _. split; [exact Hi2|]. split; [|apply lookup_insert_eq].
  rewrite lookup_insert_ne by done. apply lookup_insert_eq.
Qed.
Lemma ex_threads n task : threads (ex_posix n task) [ex_thread].
Proof.
  split; [|by apply NoDup_singleton]. split_and!; [done|done|]. exists (ex_record task).
  split; [apply lookup_insert_eq|done].
Qed.

Lemma thread_list_operations_witness :
  wp (remove_thread ex_thread) (λ _ s', threads s' []) (ex_posix 0 4).
Proof.
  destruct (thread_list_operations (ex_posix 0 4) [ex_thread] ex_thread (ex_threads 0 4)) as (_ & _ & Hw).
  eapply wp_mono; [exact Hw|]. intros _ s' [Hts _]. exact Hts.
Defined.
Lemma ex_at_work : at_work 1 (g_sched (p_sys (ex_posix 0 4))) 4.
Proof.
  change (g_sched (p_sys (ex_posix 0 4))) with (g_sched (ex_memory 0)). rewrite ex_memory_sched by by left.
  split; [|by_eval]. apply ex_qsys_good. by left.
Qed.
Lemma pthread_exit_hands_over_witness :
  comes_to (pthread_exit 42) (ex_posix 0 4) (λ p s', p = spin ∧ pt_retval <$> p_threads s' !! ex_thread = Some 42 ∧
    pendsv (the_kernel s') = true).
Proof.
  destruct (pthread_exit_hands_over 1 (ex_posix 0 4) 4 [ex_thread] ex_thread (ex_record 4) (ex_sem 0) 42 ex_at_work
    (ex_threads 0 4)) as (p & s' & Hsteps & Hp & Hm & _ & _ & _ & _ & Hpend & _); [by_eval..|].
  exists p, s'. split; [exact Hsteps|]. split; [exact Hp|]. split; [|exact Hpend]. rewrite Hm. by_eval.
Defined.
Lemma ex_posix_sched : g_sched (p_sys (ex_posix 1 2)) = ex_qsys 1.
Proof. exact (ex_memory_sched 1 (or_intror eq_refl)). Qed.
Lemma ex_joinable : q_objs (ex_qsys 1) !! pt_join_sem (ex_record 2) = Some (ex_sem 1) ∧ semaphore (ex_sem 1) ∧
  0 < uxMessagesWaiting (ex_sem 1) ∧ q_ucStaticallyAllocated (ex_sem 1) = 0 ∧
  waiters (q_kernel (ex_qsys 1)) (WaitSendL (pt_join_sem (ex_record 2))) = [].
Proof. split_and!; by_eval. Qed.
Lemma pthread_join_reclaims_witness :
  wp (exec 1 (pthread_join ex_thread)) (λ res s', res = (0, Some 7) ∧ threads s' [] ∧
    g_sched (p_sys s') = without_queue ex_join (ex_qsys 1)) (ex_posix 1 2).
Proof.
  destruct (ex_holds 1 (or_intror eq_refl)) as (live & bs & bs' & Hh & Hl & Hl'). destruct ex_joinable as (H1 & H2 & H3 & H4 & H5).
  pose proof (pthread_join_reclaims 1 (ex_posix 1 2) live [ex_thread] ex_thread (ex_record 2) (ex_sem 1) bs bs') as Hw.
  cbv zeta in Hw. rewrite ex_posix_sched in Hw.
  eapply wp_mono.
  { apply (Hw Hh (ex_threads 1 2)); [by left|by_eval|exact H1|exact H2|exact H3|exact H4|exact H5|exact Hl|exact Hl'|by_eval]. }
  intros res s' (Hres & Hts & _ & Hg & _). split; [exact Hres|]. split; [exact Hts|exact Hg].
Defined.
