(* ===== verification/StreamBuffer.v ===== *)
(** * Stream and message buffers (src/FreeRTOS/Source/stream_buffer.c)

    A ring of bytes between one writer and one reader, each a task or an
    interrupt: [xHead] is where the writer goes on and [xTail] where the reader
    does, and each of them is written by one side only.  Most of the code runs
    without any lock, so that a definition of type [SP] has a step ([Atomic]) for
    every access to a field the other side writes and for every [memcpy]; what
    interrupts are masked for, or what an interrupt runs, is in the monad [SM]. *)
From S2P Require Import Prelude KList Tasks Prog Queue TaskNotify SchedLock Heap4.

(** ** State *)

(** [sb_bytes]: the storage at [pucBuffer]. *)
Record StreamBuffer_t := mkStreamBuffer {
  xTail : Z;
  xHead : Z;
  xLength : Z;
  xTriggerLevelBytes : Z;
  xTaskWaitingToReceive : Z;
  xTaskWaitingToSend : Z;
  pucBuffer : Z;
  ucFlags : Z;
  uxStreamBufferNumber : Z;
  uxNotificationIndex : Z;
  sb_bytes : list Z
}.
#[global] Instance eta_StreamBuffer : Eta StreamBuffer_t := λ b,
  mkStreamBuffer (xTail b) (xHead b) (xLength b) (xTriggerLevelBytes b) (xTaskWaitingToReceive b)
    (xTaskWaitingToSend b) (pucBuffer b) (ucFlags b) (uxStreamBufferNumber b) (uxNotificationIndex b) (sb_bytes b).

(** The kernel and the stream buffers by address. *)
Record ssys := mkSsys {
  s_kernel : kernel;
  s_bufs : gmap Z StreamBuffer_t
}.
#[global] Instance eta_ssys : Eta ssys := λ s, mkSsys (s_kernel s) (s_bufs s).

Abbreviation SM := (M ssys).
Abbreviation SP := (prog ssys).

(** ** Constants *)
Inductive StreamBufferType := sbTYPE_STREAM_BUFFER | sbTYPE_MESSAGE_BUFFER | sbTYPE_STREAM_BATCHING_BUFFER.
Definition sbBYTES_TO_STORE_MESSAGE_LENGTH : Z := 4.
Definition sbFLAGS_IS_MESSAGE_BUFFER : Z := 1.
Definition sbFLAGS_IS_STATICALLY_ALLOCATED : Z := 2.
Definition sbFLAGS_IS_BATCHING_BUFFER : Z := 4.
Definition STREAM_BUFFER_BUFFER_WRITE_VALUE : Z := 85.
Definition tskDEFAULT_INDEX_TO_NOTIFY : Z := 0.
(** [sizeof( StreamBuffer_t )] of the 32-bit target *)
Definition sizeof_StreamBuffer_t : Z := 40.

Definition is_message_buffer (x : StreamBuffer_t) : bool := negb (Z.land (ucFlags x) sbFLAGS_IS_MESSAGE_BUFFER =? 0).
Definition is_batching_buffer (x : StreamBuffer_t) : bool := negb (Z.land (ucFlags x) sbFLAGS_IS_BATCHING_BUFFER =? 0).
Definition is_static_buffer (x : StreamBuffer_t) : bool := negb (Z.land (ucFlags x) sbFLAGS_IS_STATICALLY_ALLOCATED =? 0).

(** ** Access to the state *)
Definition sker {A} (m : K A) : SM A := zoom s_kernel (λ k s, s <| s_kernel := k |>) m.
Definition skerP {A} (p : KP A) : SP A := zoomP s_kernel (λ k s, s <| s_kernel := k |>) p.
Definition sb_get {A} (b : Z) (f : StreamBuffer_t → A) : SM A :=
  let* s := getM in derefM (f <$> s_bufs s !! b).
Definition sb_set (b : Z) (f : StreamBuffer_t → StreamBuffer_t) : SM unit :=
  let* s := getM in
  match s_bufs s !! b with
  | None => faultM
  | Some x => modify (λ s, s <| s_bufs ::= <[b := f x]> |>)
  end.
Definition assert_buffer_handle (b : Z) : SM unit := configASSERT (negb (b =? 0)).
(** [memcpy] into and out of the storage; a copy that leaves it, or that reads
    past the end of the data, is a fault. *)
Definition copy_in (b at_ : Z) (data : list Z) (n : Z) : SM unit :=
  let* bytes := sb_get b sb_bytes in
  if (0 <=? at_) && (at_ + n <=? Z.of_nat (length bytes)) && (n <=? Z.of_nat (length data)) then
    sb_set b (λ x, x <| sb_bytes := list_inserts (Z.to_nat at_) (take (Z.to_nat n) data) bytes |>)
  else faultM.
Definition copy_out (b at_ n : Z) : SM (list Z) :=
  let* bytes := sb_get b sb_bytes in
  if (0 <=? at_) && (at_ + n <=? Z.of_nat (length bytes)) then retM (take (Z.to_nat n) (drop (Z.to_nat at_) bytes))
  else faultM.

(** A function that nothing interrupts; the loop below leaves in its first turn. *)
Definition in_one_go {A} (p : SP A) : SM A := exec 1 p.

(** ** Creation, deletion, reset *)
Definition prvInitialiseNewStreamBuffer (pxStreamBuffer pucBuffer0 xBufferSizeBytes xTriggerLevelBytes0 ucFlags0 : Z) : SM unit :=
  modify (λ s, s <| s_bufs ::= <[pxStreamBuffer :=
    mkStreamBuffer 0 0 xBufferSizeBytes xTriggerLevelBytes0 0 0 pucBuffer0 ucFlags0 0 tskDEFAULT_INDEX_TO_NOTIFY
      (replicate (Z.to_nat xBufferSizeBytes) STREAM_BUFFER_BUFFER_WRITE_VALUE)]> |>).

#[export] Instance stream_lock : SchedulerLock ssys := {|
  suspendAll := sker vTaskSuspendAll;
  resumeAll := sker xTaskResumeAll
|}.
Abbreviation SHM := (M (guarded ssys heap)).

Definition xStreamBufferGenericCreate `{HeapLayout} (xBufferSizeBytes xTriggerLevel : Z) (xStreamBufferType : StreamBufferType) : SHM Z :=
  let* flags :=
    match xStreamBufferType with
    | sbTYPE_MESSAGE_BUFFER =>
        configASSERT (sbBYTES_TO_STORE_MESSAGE_LENGTH <? xBufferSizeBytes) ;> retM sbFLAGS_IS_MESSAGE_BUFFER
    | sbTYPE_STREAM_BATCHING_BUFFER => configASSERT (0 <? xBufferSizeBytes) ;> retM sbFLAGS_IS_BATCHING_BUFFER
    | sbTYPE_STREAM_BUFFER => configASSERT (0 <? xBufferSizeBytes) ;> retM 0
    end in
  configASSERT (xTriggerLevel <=? xBufferSizeBytes) ;>
  let xTriggerLevel := if xTriggerLevel =? 0 then 1 else xTriggerLevel in
  if xBufferSizeBytes <? wrap32 (xBufferSizeBytes + 1 + sizeof_StreamBuffer_t) then
    let xBufferSizeBytes := wrap32 (xBufferSizeBytes + 1) in
    let* pvAllocatedMemory := pvPortMalloc (wrap32 (xBufferSizeBytes + sizeof_StreamBuffer_t)) in
    (when negb (pvAllocatedMemory =? 0) then
       on_sched (prvInitialiseNewStreamBuffer pvAllocatedMemory (wrap32 (pvAllocatedMemory + sizeof_StreamBuffer_t))
                   xBufferSizeBytes xTriggerLevel flags)) ;>
    retM pvAllocatedMemory
  else retM 0.

Definition xStreamBufferGenericCreateStatic (xBufferSizeBytes xTriggerLevel : Z) (xStreamBufferType : StreamBufferType)
    (pucStreamBufferStorageArea pxStaticStreamBuffer : Z) : SM Z :=
  configASSERT (negb (pucStreamBufferStorageArea =? 0)) ;>
  configASSERT (negb (pxStaticStreamBuffer =? 0)) ;>
  configASSERT (xTriggerLevel <=? xBufferSizeBytes) ;>
  let xTriggerLevel := if xTriggerLevel =? 0 then 1 else xTriggerLevel in
  let* flags :=
    match xStreamBufferType with
    | sbTYPE_MESSAGE_BUFFER =>
        configASSERT (sbBYTES_TO_STORE_MESSAGE_LENGTH <? xBufferSizeBytes) ;>
        retM (Z.lor sbFLAGS_IS_MESSAGE_BUFFER sbFLAGS_IS_STATICALLY_ALLOCATED)
    | sbTYPE_STREAM_BATCHING_BUFFER =>
        configASSERT (0 <? xBufferSizeBytes) ;>
        retM (Z.lor sbFLAGS_IS_BATCHING_BUFFER sbFLAGS_IS_STATICALLY_ALLOCATED)
    | sbTYPE_STREAM_BUFFER => retM sbFLAGS_IS_STATICALLY_ALLOCATED
    end in
  if negb (pucStreamBufferStorageArea =? 0) && negb (pxStaticStreamBuffer =? 0) then
    prvInitialiseNewStreamBuffer pxStaticStreamBuffer pucStreamBufferStorageArea xBufferSizeBytes xTriggerLevel flags ;>
    sb_set pxStaticStreamBuffer (λ x, x <| ucFlags ::= λ f, Z.lor f sbFLAGS_IS_STATICALLY_ALLOCATED |>) ;>
    retM pxStaticStreamBuffer
  else retM 0.

(** The two addresses, or [pdFALSE] *)
Definition xStreamBufferGetStaticBuffers (b : Z) : SM (option (Z * Z)) :=
  assert_buffer_handle b ;>
  let* x := sb_get b id in
  retM (if is_static_buffer x then Some (pucBuffer x, b) else None).

(** A buffer from the heap is gone; one in given memory is scrubbed. *)
Definition vStreamBufferDelete `{HeapLayout} (b : Z) : SHM unit :=
  on_sched (assert_buffer_handle b) ;>
  let* x := on_sched (sb_get b id) in
  if negb (is_static_buffer x) then
    vPortFree b ;> on_sched (modify (λ s, s <| s_bufs ::= delete b |>))
  else on_sched (sb_set b (λ _, mkStreamBuffer 0 0 0 0 0 0 0 0 0 0 [])).

(** The critical section of the two functions that reset. *)
Definition reset_buffer (b : Z) : SM bool :=
  let* uxNumber := sb_get b uxStreamBufferNumber in
  let* x := sb_get b id in
  if (xTaskWaitingToReceive x =? 0) && (xTaskWaitingToSend x =? 0) then
    prvInitialiseNewStreamBuffer b (pucBuffer x) (xLength x) (xTriggerLevelBytes x) (ucFlags x) ;>
    sb_set b (λ x, x <| uxStreamBufferNumber := uxNumber |>) ;>
    retM true
  else retM false.
Definition xStreamBufferReset (b : Z) : SM bool := assert_buffer_handle b ;> reset_buffer b.
Definition xStreamBufferResetFromISR (b : Z) : SM bool := assert_buffer_handle b ;> reset_buffer b.

Definition xStreamBufferSetTriggerLevel (b xTriggerLevel : Z) : SM bool :=
  assert_buffer_handle b ;>
  let xTriggerLevel := if xTriggerLevel =? 0 then 1 else xTriggerLevel in
  let* len := sb_get b xLength in
  if xTriggerLevel <? len then sb_set b (λ x, x <| xTriggerLevelBytes := xTriggerLevel |>) ;> retM true
  else retM false.

(** ** How full the buffer is *)
Definition xStreamBufferSpacesAvailable (b : Z) : SP Z :=
  Atomic (assert_buffer_handle b) ;!
  let! (len, xSpace) := Loop (λ _ : unit,
    let! xOriginalTail := Atomic (sb_get b xTail) in
    let! (len, tail) := Atomic (sb_get b (λ x, (xLength x, xTail x))) in
    let! head := Atomic (sb_get b xHead) in
    let xSpace := wrap32 (wrap32 (len + tail) - head) in
    let! tail := Atomic (sb_get b xTail) in
    if negb (xOriginalTail =? tail) then Ret (inl tt) else Ret (inr (len, xSpace))) tt in
  let xSpace := wrap32 (xSpace - 1) in
  Ret (if len <=? xSpace then wrap32 (xSpace - len) else xSpace).

Definition prvBytesInBuffer (b : Z) : SP Z :=
  let! (len, head) := Atomic (sb_get b (λ x, (xLength x, xHead x))) in
  let! tail := Atomic (sb_get b xTail) in
  let xCount := wrap32 (wrap32 (len + head) - tail) in
  Ret (if len <=? xCount then wrap32 (xCount - len) else xCount).
Definition xStreamBufferBytesAvailable (b : Z) : SP Z :=
  Atomic (assert_buffer_handle b) ;! prvBytesInBuffer b.

Definition xStreamBufferIsEmpty (b : Z) : SP bool :=
  Atomic (assert_buffer_handle b) ;!
  let! tail := Atomic (sb_get b xTail) in
  let! head := Atomic (sb_get b xHead) in
  Ret (head =? tail).
Definition xStreamBufferIsFull (b : Z) : SP bool :=
  let! n := Atomic (
    assert_buffer_handle b ;>
    let* x := sb_get b id in
    retM (if is_message_buffer x then sbBYTES_TO_STORE_MESSAGE_LENGTH else 0)) in
  let! space := xStreamBufferSpacesAvailable b in
  Ret (space <=? n).

(** ** Bytes in and out *)

(** Answers where the next byte goes. *)
Definition prvWriteBytesToBuffer (b : Z) (pucData : list Z) (xCount xHead0 : Z) : SP Z :=
  let! (len, xFirstLength) := Atomic (
    configASSERT (0 <? xCount) ;>
    let* len := sb_get b xLength in
    let xFirstLength := Z.min (wrap32 (len - xHead0)) xCount in
    configASSERT (wrap32 (xHead0 + xFirstLength) <=? len) ;>
    copy_in b xHead0 pucData xFirstLength ;>
    retM (len, xFirstLength)) in
  (if xFirstLength <? xCount then
     Atomic (
       configASSERT (wrap32 (xCount - xFirstLength) <=? len) ;>
       copy_in b 0 (drop (Z.to_nat xFirstLength) pucData) (wrap32 (xCount - xFirstLength)))
   else Ret tt) ;!
  let xHead0 := wrap32 (xHead0 + xCount) in
  Ret (if len <=? xHead0 then wrap32 (xHead0 - len) else xHead0).

(** Answers the bytes and where the next one is. *)
Definition prvReadBytesFromBuffer (b xCount xTail0 : Z) : SP (list Z * Z) :=
  let! (len, xFirstLength, first) := Atomic (
    configASSERT (negb (xCount =? 0)) ;>
    let* len := sb_get b xLength in
    let xFirstLength := Z.min (wrap32 (len - xTail0)) xCount in
    configASSERT (xFirstLength <=? xCount) ;>
    configASSERT (wrap32 (xTail0 + xFirstLength) <=? len) ;>
    let* first := copy_out b xTail0 xFirstLength in
    retM (len, xFirstLength, first)) in
  let! rest :=
    (if xFirstLength <? xCount then Atomic (copy_out b 0 (wrap32 (xCount - xFirstLength))) else Ret []) in
  let xTail0 := wrap32 (xTail0 + xCount) in
  Ret (first ++ rest, if len <=? xTail0 then wrap32 (xTail0 - len) else xTail0).

(** The bytes of a [size_t], the lowest first *)
Definition size_bytes (n : Z) : list Z := (λ i, n / 2 ^ (8 * i) mod 256) <$> [0; 1; 2; 3].
Definition size_of_bytes (bs : list Z) : Z := foldr (λ byte n, byte + 256 * n) 0 bs.

Definition prvWriteMessageToBuffer (b : Z) (pvTxData : list Z) (xDataLengthBytes xSpace xRequiredSpace : Z) : SP Z :=
  let! (xNextHead, message) := Atomic (sb_get b (λ x, (xHead x, is_message_buffer x))) in
  let! (xDataLengthBytes, xNextHead) :=
    (if message then
       let xMessageLength := wrap32 xDataLengthBytes in
       Atomic (configASSERT (xMessageLength =? xDataLengthBytes)) ;!
       if xRequiredSpace <=? xSpace then
         let! xNextHead := prvWriteBytesToBuffer b (size_bytes xMessageLength) sbBYTES_TO_STORE_MESSAGE_LENGTH xNextHead in
         Ret (xDataLengthBytes, xNextHead)
       else Ret (0, xNextHead)
     else Ret (Z.min xDataLengthBytes xSpace, xNextHead)) in
  (if negb (xDataLengthBytes =? 0) then
     let! head := prvWriteBytesToBuffer b pvTxData xDataLengthBytes xNextHead in
     Atomic (sb_set b (λ x, x <| xHead := head |>))
   else Ret tt) ;!
  Ret xDataLengthBytes.

Definition prvReadMessageFromBuffer (b xBufferLengthBytes xBytesAvailable : Z) : SP (list Z) :=
  let! (xNextTail, message) := Atomic (sb_get b (λ x, (xTail x, is_message_buffer x))) in
  let! (xNextMessageLength, xNextTail, xBytesAvailable) :=
    (if message then
       let! (bs, xNextTail) := prvReadBytesFromBuffer b sbBYTES_TO_STORE_MESSAGE_LENGTH xNextTail in
       let xNextMessageLength := size_of_bytes bs in
       let xBytesAvailable := wrap32 (xBytesAvailable - sbBYTES_TO_STORE_MESSAGE_LENGTH) in
       Ret (if xBufferLengthBytes <? xNextMessageLength then 0 else xNextMessageLength, xNextTail, xBytesAvailable)
     else Ret (xBufferLengthBytes, xNextTail, xBytesAvailable)) in
  let xCount := Z.min xNextMessageLength xBytesAvailable in
  if negb (xCount =? 0) then
    let! (bs, tail) := prvReadBytesFromBuffer b xCount xNextTail in
    Atomic (sb_set b (λ x, x <| xTail := tail |>)) ;!
    Ret bs
  else Ret [].

(** ** Telling the other side *)

(** [sbSEND_COMPLETED] and [sbRECEIVE_COMPLETED]: [who] is the field with the task
    to notify, [clear] empties it. *)
Definition notify_waiting (b : Z) (who : StreamBuffer_t → Z) (clear : StreamBuffer_t → StreamBuffer_t) : SP unit :=
  Atomic (sker vTaskSuspendAll) ;!
  let! waiting := Atomic (sb_get b who) in
  (if negb (waiting =? 0) then
     let! (waiting, ux) := Atomic (sb_get b (λ x, (who x, uxNotificationIndex x))) in
     let! _ := Atomic (sker (xTaskGenericNotify (task_of waiting) ux 0 eNoAction)) in
     Atomic (sb_set b clear)
   else Ret tt) ;!
  let! _ := Atomic (sker xTaskResumeAll) in
  Ret tt.
Definition clear_receiver (x : StreamBuffer_t) : StreamBuffer_t := x <| xTaskWaitingToReceive := 0 |>.
Definition clear_sender (x : StreamBuffer_t) : StreamBuffer_t := x <| xTaskWaitingToSend := 0 |>.
Definition sbSEND_COMPLETED (b : Z) : SP unit := notify_waiting b xTaskWaitingToReceive clear_receiver.
Definition sbRECEIVE_COMPLETED (b : Z) : SP unit := notify_waiting b xTaskWaitingToSend clear_sender.

(** The same from an interrupt: was there a task, and the flag
    [*pxHigherPriorityTaskWoken]. *)
Definition notify_waiting_from_isr (b : Z) (who : StreamBuffer_t → Z) (clear : StreamBuffer_t → StreamBuffer_t)
    (pxHigherPriorityTaskWoken : option bool) : SM (bool * option bool) :=
  let* waiting := sb_get b who in
  if negb (waiting =? 0) then
    let* ux := sb_get b uxNotificationIndex in
    let* r := sker (xTaskGenericNotifyFromISR (task_of waiting) ux 0 eNoAction pxHigherPriorityTaskWoken) in
    sb_set b clear ;>
    retM (true, r.2)
  else retM (false, pxHigherPriorityTaskWoken).
Definition sbSEND_COMPLETE_FROM_ISR (b : Z) (woken : option bool) : SM (option bool) :=
  let* r := notify_waiting_from_isr b xTaskWaitingToReceive clear_receiver woken in retM r.2.
Definition sbRECEIVE_COMPLETED_FROM_ISR (b : Z) (woken : option bool) : SM (option bool) :=
  let* r := notify_waiting_from_isr b xTaskWaitingToSend clear_sender woken in retM r.2.
Definition xStreamBufferSendCompletedFromISR (b : Z) (woken : option bool) : SM (bool * option bool) :=
  assert_buffer_handle b ;> notify_waiting_from_isr b xTaskWaitingToReceive clear_receiver woken.
Definition xStreamBufferReceiveCompletedFromISR (b : Z) (woken : option bool) : SM (bool * option bool) :=
  assert_buffer_handle b ;> notify_waiting_from_isr b xTaskWaitingToSend clear_sender woken.

(** ** Sending *)

(** The critical section of [xStreamBufferSend]: answers [xSpace], and whether the
    task is now noted as waiting. *)
Definition send_wait_check (b xRequiredSpace : Z) : SM (Z * bool) :=
  let* xSpace := in_one_go (xStreamBufferSpacesAvailable b) in
  if xSpace <? xRequiredSpace then
    let* ux := sb_get b uxNotificationIndex in
    let* _ := sker (xTaskGenericNotifyStateClear None ux) in
    let* w := sb_get b xTaskWaitingToSend in
    configASSERT (w =? 0) ;>
    let* h := sker xTaskGetCurrentTaskHandle in
    sb_set b (λ x, x <| xTaskWaitingToSend := handle_of h |>) ;>
    retM (xSpace, true)
  else retM (xSpace, false).
(** The loop that waits for space: the last [xSpace] seen. *)
Definition send_wait (b xRequiredSpace xTicksToWait : Z) : SP Z :=
  let! xTimeOut := Atomic (sker vTaskSetTimeOutState) in
  Loop (λ '(xTimeOut, xTicksToWait),
    let! (xSpace, wait) := Atomic (send_wait_check b xRequiredSpace) in
    if wait then
      let! ux := Atomic (sb_get b uxNotificationIndex) in
      let! _ := skerP (xTaskGenericNotifyWait ux 0 0 xTicksToWait) in
      Atomic (sb_set b clear_sender) ;!
      let! (expired, xTimeOut, xTicksToWait) := Atomic (sker (xTaskCheckForTimeOut xTimeOut xTicksToWait)) in
      if negb expired then Ret (inl (xTimeOut, xTicksToWait)) else Ret (inr xSpace)
    else Ret (inr xSpace)) (xTimeOut, xTicksToWait).

(** [pvTxData], [None] for [NULL], has [xDataLengthBytes] bytes.  What of the
    arguments becomes [xRequiredSpace] and [xTicksToWait]. *)
Definition send_arguments (b : Z) (pvTxData : option (list Z)) (xDataLengthBytes xTicksToWait : Z) : SM (Z * Z) :=
  configASSERT (bool_decide (is_Some pvTxData)) ;>
  assert_buffer_handle b ;>
  let* x := sb_get b id in
  let xMaxReportedSpace := wrap32 (xLength x - 1) in
  if is_message_buffer x then
    let xRequiredSpace := wrap32 (xDataLengthBytes + sbBYTES_TO_STORE_MESSAGE_LENGTH) in
    configASSERT (xDataLengthBytes <? xRequiredSpace) ;>
    retM (xRequiredSpace, if xMaxReportedSpace <? xRequiredSpace then 0 else xTicksToWait)
  else retM (if xMaxReportedSpace <? xDataLengthBytes then xMaxReportedSpace else xDataLengthBytes, xTicksToWait).

Definition xStreamBufferSend (xStreamBuffer : Z) (pvTxData : option (list Z)) (xDataLengthBytes xTicksToWait : Z) : SP Z :=
  let! (xRequiredSpace, xTicksToWait) := Atomic (send_arguments xStreamBuffer pvTxData xDataLengthBytes xTicksToWait) in
  let! xSpace := (if negb (xTicksToWait =? 0) then send_wait xStreamBuffer xRequiredSpace xTicksToWait else Ret 0) in
  let! xSpace := (if xSpace =? 0 then xStreamBufferSpacesAvailable xStreamBuffer else Ret xSpace) in
  let! xReturn := prvWriteMessageToBuffer xStreamBuffer (default [] pvTxData) xDataLengthBytes xSpace xRequiredSpace in
  (if 0 <? xReturn then
     let! n := prvBytesInBuffer xStreamBuffer in
     let! level := Atomic (sb_get xStreamBuffer xTriggerLevelBytes) in
     if level <=? n then sbSEND_COMPLETED xStreamBuffer else Ret tt
   else Ret tt) ;!
  Ret xReturn.

Definition xStreamBufferSendFromISR (xStreamBuffer : Z) (pvTxData : option (list Z)) (xDataLengthBytes : Z)
    (pxHigherPriorityTaskWoken : option bool) : SM (Z * option bool) :=
  configASSERT (bool_decide (is_Some pvTxData)) ;>
  assert_buffer_handle xStreamBuffer ;>
  let* x := sb_get xStreamBuffer id in
  let* xRequiredSpace :=
    (if is_message_buffer x then
       let xRequiredSpace := wrap32 (xDataLengthBytes + sbBYTES_TO_STORE_MESSAGE_LENGTH) in
       configASSERT (xDataLengthBytes <? xRequiredSpace) ;> retM xRequiredSpace
     else retM xDataLengthBytes) in
  let* xSpace := in_one_go (xStreamBufferSpacesAvailable xStreamBuffer) in
  let* xReturn := in_one_go (prvWriteMessageToBuffer xStreamBuffer (default [] pvTxData) xDataLengthBytes xSpace xRequiredSpace) in
  let* woken :=
    (if 0 <? xReturn then
       let* n := in_one_go (prvBytesInBuffer xStreamBuffer) in
       let* level := sb_get xStreamBuffer xTriggerLevelBytes in
       if level <=? n then sbSEND_COMPLETE_FROM_ISR xStreamBuffer pxHigherPriorityTaskWoken else retM pxHigherPriorityTaskWoken
     else retM pxHigherPriorityTaskWoken) in
  retM (xReturn, woken).

(** ** Receiving *)

(** The critical section of [xStreamBufferReceive]: answers [xBytesAvailable]. *)
Definition receive_wait_check (b xBytesToStoreMessageLength : Z) : SM Z :=
  let* xBytesAvailable := in_one_go (prvBytesInBuffer b) in
  (when xBytesAvailable <=? xBytesToStoreMessageLength then
     let* ux := sb_get b uxNotificationIndex in
     let* _ := sker (xTaskGenericNotifyStateClear None ux) in
     let* w := sb_get b xTaskWaitingToReceive in
     configASSERT (w =? 0) ;>
     let* h := sker xTaskGetCurrentTaskHandle in
     sb_set b (λ x, x <| xTaskWaitingToReceive := handle_of h |>)) ;>
  retM xBytesAvailable.
Definition receive_wait (b xBytesToStoreMessageLength xTicksToWait : Z) : SP Z :=
  let! xBytesAvailable := Atomic (receive_wait_check b xBytesToStoreMessageLength) in
  if xBytesAvailable <=? xBytesToStoreMessageLength then
    let! ux := Atomic (sb_get b uxNotificationIndex) in
    let! _ := skerP (xTaskGenericNotifyWait ux 0 0 xTicksToWait) in
    Atomic (sb_set b clear_receiver) ;!
    prvBytesInBuffer b
  else Ret xBytesAvailable.

(** [rx]: [pvRxData] is not [NULL].  Answers the bytes received. *)
Definition xStreamBufferReceive (xStreamBuffer : Z) (rx : bool) (xBufferLengthBytes xTicksToWait : Z) : SP (list Z) :=
  let! xBytesToStoreMessageLength := Atomic (
    configASSERT rx ;>
    assert_buffer_handle xStreamBuffer ;>
    sb_get xStreamBuffer (λ x,
      if is_message_buffer x then sbBYTES_TO_STORE_MESSAGE_LENGTH
      else if is_batching_buffer x then xTriggerLevelBytes x else 0)) in
  let! xBytesAvailable :=
    (if negb (xTicksToWait =? 0) then receive_wait xStreamBuffer xBytesToStoreMessageLength xTicksToWait
     else prvBytesInBuffer xStreamBuffer) in
  if xBytesToStoreMessageLength <? xBytesAvailable then
    let! bs := prvReadMessageFromBuffer xStreamBuffer xBufferLengthBytes xBytesAvailable in
    (if negb (Z.of_nat (length bs) =? 0) then sbRECEIVE_COMPLETED xStreamBuffer else Ret tt) ;!
    Ret bs
  else Ret [].

Definition xStreamBufferReceiveFromISR (xStreamBuffer : Z) (rx : bool) (xBufferLengthBytes : Z)
    (pxHigherPriorityTaskWoken : option bool) : SM (list Z * option bool) :=
  configASSERT rx ;>
  assert_buffer_handle xStreamBuffer ;>
  let* x := sb_get xStreamBuffer id in
  let xBytesToStoreMessageLength := if is_message_buffer x then sbBYTES_TO_STORE_MESSAGE_LENGTH else 0 in
  let* xBytesAvailable := in_one_go (prvBytesInBuffer xStreamBuffer) in
  if xBytesToStoreMessageLength <? xBytesAvailable then
    let* bs := in_one_go (prvReadMessageFromBuffer xStreamBuffer xBufferLengthBytes xBytesAvailable) in
    let* woken :=
      (if negb (Z.of_nat (length bs) =? 0) then sbRECEIVE_COMPLETED_FROM_ISR xStreamBuffer pxHigherPriorityTaskWoken
       else retM pxHigherPriorityTaskWoken) in
    retM (bs, woken)
  else retM ([], pxHigherPriorityTaskWoken).

Definition xStreamBufferNextMessageLengthBytes (xStreamBuffer : Z) : SP Z :=
  let! (message, tail) := Atomic (assert_buffer_handle xStreamBuffer ;> sb_get xStreamBuffer (λ x, (is_message_buffer x, xTail x))) in
  if message then
    let! xBytesAvailable := prvBytesInBuffer xStreamBuffer in
    if sbBYTES_TO_STORE_MESSAGE_LENGTH <? xBytesAvailable then
      let! tail := Atomic (sb_get xStreamBuffer xTail) in
      let! (bs, _) := prvReadBytesFromBuffer xStreamBuffer sbBYTES_TO_STORE_MESSAGE_LENGTH tail in
      Ret (size_of_bytes bs)
    else Atomic (configASSERT (xBytesAvailable =? 0)) ;! Ret 0
  else Ret 0.

(** ** Notification index and trace facility *)
Definition uxStreamBufferGetStreamBufferNotificationIndex (b : Z) : SM Z :=
  assert_buffer_handle b ;> sb_get b uxNotificationIndex.
Definition vStreamBufferSetStreamBufferNotificationIndex (b ux : Z) : SM unit :=
  assert_buffer_handle b ;>
  (let* w := sb_get b xTaskWaitingToReceive in configASSERT (w =? 0)) ;>
  (let* w := sb_get b xTaskWaitingToSend in configASSERT (w =? 0)) ;>
  configASSERT (ux <? configTASK_NOTIFICATION_ARRAY_ENTRIES) ;>
  sb_set b (λ x, x <| uxNotificationIndex := ux |>).
Definition uxStreamBufferGetStreamBufferNumber (b : Z) : SM Z := sb_get b uxStreamBufferNumber.
Definition vStreamBufferSetStreamBufferNumber (b n : Z) : SM unit := sb_set b (λ x, x <| uxStreamBufferNumber := n |>).
Definition ucStreamBufferGetStreamBufferType (b : Z) : SM Z :=
  sb_get b (λ x, Z.land (ucFlags x) sbFLAGS_IS_MESSAGE_BUFFER).
