(* ===== verification/StreamRing.v ===== *)
(** * The ring of a stream buffer

    The bytes between [xTail] and [xHead], around the end of the storage, as a
    list; what copying into the free part and moving the two ends do to it. *)
From S2P Require Import Prelude StreamBuffer.

(** The [n] bytes from position [p] on, around the end. *)
Definition seg (bytes : list Z) (len p n : Z) : list Z := (λ i, bytes !!! Z.to_nat ((p + i) mod len)) <$> seqZ 0 n.

Section seg.
Context (bytes : list Z) (len : Z).
Abbreviation sg := (seg bytes len).

Lemma seg_length p n : 0 ≤ n → Z.of_nat (length (sg p n)) = n.
Proof. intros. unfold seg. rewrite length_fmap, length_seqZ. lia. Qed.
Lemma seg_none p n : n ≤ 0 → sg p n = [].
Proof. intros. unfold seg. by rewrite seqZ_nil. Qed.
Lemma seg_mod p n : sg (p mod len) n = sg p n.
Proof.
  unfold seg. apply list_fmap_ext. intros _ i _. do 2 f_equal. destruct (decide (len = 0)) as [->|].
  - by rewrite !Zmod_0_r.
  - by rewrite Zplus_mod_idemp_l.
Qed.
Lemma seg_app p n m : 0 ≤ n → 0 ≤ m → sg p (n + m) = sg p n ++ sg (p + n) m.
Proof.
  intros Hn Hm. unfold seg. rewrite seqZ_app by done. rewrite fmap_app. f_equal.
  replace (0 + n) with (n + 0) by lia. rewrite <- (fmap_add_seqZ n 0 m), <- list_fmap_compose. apply list_fmap_ext. intros _ i _. simpl. do 3 f_equal. lia.
Qed.
Lemma seg_take p n m : 0 ≤ n ≤ m → take (Z.to_nat n) (sg p m) = sg p n.
Proof.
  intros. replace m with (n + (m - n)) by lia. rewrite seg_app by lia.
  pose proof (seg_length p n). rewrite take_app_le by lia. apply take_ge. lia.
Qed.
Lemma seg_drop p n m : 0 ≤ n ≤ m → drop (Z.to_nat n) (sg p m) = sg (p + n) (m - n).
Proof.
  intros. replace m with (n + (m - n)) at 1 by lia. rewrite seg_app by lia.
  pose proof (seg_length p n). rewrite drop_app_ge by lia. replace (Z.to_nat n - length (sg p n))%nat with O by lia. done.
Qed.
(** Without going around: a part of the storage. *)
Lemma seg_straight p n : Z.of_nat (length bytes) = len → 0 ≤ p → 0 ≤ n → p + n ≤ len →
  sg p n = take (Z.to_nat n) (drop (Z.to_nat p) bytes).
Proof.
  intros Hl Hp Hn Hpn. apply list_eq. intros i. unfold seg. rewrite list_lookup_fmap.
  destruct (decide (Z.of_nat i < n)).
  - rewrite lookup_seqZ_lt by lia. simpl. rewrite lookup_take_lt, lookup_drop by lia.
    rewrite Z.mod_small by lia. replace (Z.to_nat (p + (0 + Z.of_nat i))) with (Z.to_nat p + i)%nat by lia.
    symmetry. apply list_lookup_lookup_total_lt. lia.
  - rewrite lookup_seqZ_ge by lia. rewrite lookup_take_ge by lia. done.
Qed.
End seg.

(** *** Writing *)
Lemma seg_write_other bytes len q m p d :
  (∀ i, 0 ≤ i < m → (q + i) mod len < Z.of_nat p ∨ Z.of_nat (p + length d) ≤ (q + i) mod len) → 0 < len →
  seg (list_inserts p d bytes) len q m = seg bytes len q m.
Proof.
  intros Hout Hlen. unfold seg. apply list_fmap_ext. intros j i Hi.
  apply list_elem_of_lookup_2, elem_of_seqZ in Hi. specialize (Hout i ltac:(lia)).
  pose proof (Z.mod_pos_bound (q + i) len ltac:(lia)). rewrite !list_lookup_total_alt. f_equal.
  destruct Hout; [apply list_lookup_inserts_lt; lia|apply list_lookup_inserts_ge; lia].
Qed.
Lemma seg_write_here bytes len p d : Z.of_nat (length bytes) = len → p + Z.of_nat (length d) ≤ len → 0 ≤ p →
  seg (list_inserts (Z.to_nat p) d bytes) len p (Z.of_nat (length d)) = d.
Proof.
  intros Hl Hp Hp0. rewrite seg_straight; [|by rewrite length_inserts|lia|lia|lia].
  rewrite Nat2Z.id. apply list_eq. intros i. destruct (decide (i < length d)%nat).
  - rewrite lookup_take_lt, lookup_drop by done. rewrite list_lookup_inserts by lia. f_equal. lia.
  - rewrite lookup_take_ge by lia. symmetry. apply lookup_ge_None. lia.
Qed.

(** ** The ring *)
Definition count (x : StreamBuffer_t) : Z := (xHead x - xTail x) mod xLength x.
Definition free_space (x : StreamBuffer_t) : Z := xLength x - 1 - count x.
Definition content (x : StreamBuffer_t) : list Z := seg (sb_bytes x) (xLength x) (xTail x) (count x).

Record ring_ok (x : StreamBuffer_t) : Prop := {
  rg_length : 0 < xLength x ≤ 2 ^ 31;
  rg_tail : 0 ≤ xTail x < xLength x;
  rg_head : 0 ≤ xHead x < xLength x;
  rg_bytes : Z.of_nat (length (sb_bytes x)) = xLength x
}.
(** Made as a stream (or batching) buffer. *)
Definition is_stream (x : StreamBuffer_t) : Prop := is_message_buffer x = false.

Section ring.
Context (x : StreamBuffer_t) (Hx : ring_ok x).

Lemma count_range : 0 ≤ count x < xLength x.
Proof. apply Z.mod_pos_bound, Hx. Qed.
Lemma head_of_count : xHead x = (xTail x + count x) mod xLength x.
Proof.
  destruct Hx as [Hl Ht Hh _]. unfold count. rewrite Zplus_mod_idemp_r.
  replace (xTail x + (xHead x - xTail x)) with (xHead x) by lia. by rewrite Z.mod_small.
Qed.
Lemma content_length : Z.of_nat (length (content x)) = count x.
Proof. apply seg_length. apply count_range. Qed.

(** What the code computes in 32 bits: the count, and the free space. *)
Lemma count_wraps h t : 0 ≤ h < xLength x → 0 ≤ t < xLength x →
  (let n := wrap32 (wrap32 (xLength x + h) - t) in if xLength x <=? n then wrap32 (n - xLength x) else n) = (h - t) mod xLength x.
Proof.
  intros Hh Ht. destruct Hx as [Hl _ _ _]. simpl.
  rewrite (wrap32_small (xLength x + h)) by (unfold u32, MAX32; lia).
  rewrite (wrap32_small (xLength x + h - t)) by (unfold u32, MAX32; lia).
  destruct (Z.leb_spec (xLength x) (xLength x + h - t)).
  - rewrite wrap32_small by (unfold u32, MAX32; lia). rewrite Z.mod_small by lia. lia.
  - rewrite <- (Z_mod_plus_full _ 1), Z.mod_small by lia. lia.
Qed.
Lemma space_wraps h t : 0 ≤ h < xLength x → 0 ≤ t < xLength x →
  (let n := wrap32 (wrap32 (wrap32 (xLength x + t) - h) - 1) in if xLength x <=? n then wrap32 (n - xLength x) else n) =
  xLength x - 1 - (h - t) mod xLength x.
Proof.
  intros Hh Ht. destruct Hx as [Hl _ _ _]. simpl.
  rewrite (wrap32_small (xLength x + t)) by (unfold u32, MAX32; lia).
  rewrite (wrap32_small (xLength x + t - h)) by (unfold u32, MAX32; lia).
  rewrite (wrap32_small (xLength x + t - h - 1)) by (unfold u32, MAX32; lia).
  destruct (Z.leb_spec (xLength x) (xLength x + t - h - 1)).
  - rewrite wrap32_small by (unfold u32, MAX32; lia). rewrite <- (Z_mod_plus_full _ 1), Z.mod_small by lia. lia.
  - rewrite Z.mod_small by lia. lia.
Qed.
(** The position [n] further on. *)
Lemma advance_wraps p n : 0 ≤ p < xLength x → 0 ≤ n ≤ xLength x →
  (let q := wrap32 (p + n) in if xLength x <=? q then wrap32 (q - xLength x) else q) = (p + n) mod xLength x.
Proof.
  intros Hp Hn. destruct Hx as [Hl _ _ _]. simpl. rewrite (wrap32_small (p + n)) by (unfold u32, MAX32; lia).
  destruct (Z.leb_spec (xLength x) (p + n)).
  - rewrite wrap32_small by (unfold u32, MAX32; lia). rewrite <- (Z_mod_plus_full _ (-1)), Z.mod_small by lia. lia.
  - by rewrite Z.mod_small by lia.
Qed.

(** A write of [n] bytes at [off] from the head does not touch the content. *)
Lemma content_free p d off : 0 ≤ off → off + Z.of_nat (length d) ≤ free_space x →
  Z.of_nat p = (xHead x + off) mod xLength x → Z.of_nat p + Z.of_nat (length d) ≤ xLength x →
  content (x <| sb_bytes ::= list_inserts p d |>) = content x.
Proof.
  intros Hoff Hfree Hp Hend. destruct Hx as [Hl Ht Hh _]. pose proof count_range as Hc. unfold free_space in Hfree.
  unfold content. change (count (x <| sb_bytes ::= list_inserts p d |>)) with (count x). simpl.
  apply seg_write_other; [|lia]. intros i Hi.
  assert (Z.of_nat p = (xTail x + (count x + off)) mod xLength x) as Hp'.
  { rewrite Hp, head_of_count, Zplus_mod_idemp_l. f_equal. lia. }
  set (L := xLength x) in *. set (t := xTail x) in *. set (c := count x) in *.
  destruct (Z.lt_ge_cases (t + i) L) as [H1|H1].
  - rewrite (Z.mod_small (t + i)) by lia. destruct (Z.lt_ge_cases (t + (c + off)) L) as [H2|H2].
    + rewrite Z.mod_small in Hp' by lia. lia.
    + rewrite <- (Z_mod_plus_full _ (-1)), Z.mod_small in Hp' by lia. lia.
  - rewrite <- (Z_mod_plus_full (t + i) (-1)), (Z.mod_small (t + i + -1 * L)) by lia.
    rewrite <- (Z_mod_plus_full _ (-1)), Z.mod_small in Hp' by lia. lia.
Qed.

(** [off] bytes are there beyond the head: [d] goes behind them. *)
Lemma fill_step p d off : 0 ≤ off → off + Z.of_nat (length d) ≤ free_space x →
  p = (xHead x + off) mod xLength x → p + Z.of_nat (length d) ≤ xLength x →
  let x' := x <| sb_bytes ::= list_inserts (Z.to_nat p) d |> in
  content x' = content x ∧ ring_ok x' ∧
  seg (sb_bytes x') (xLength x) (xHead x) (off + Z.of_nat (length d)) = seg (sb_bytes x) (xLength x) (xHead x) off ++ d.
Proof.
  intros Hoff Hfree Hp Hend x'. pose proof (Z.mod_pos_bound (xHead x + off) (xLength x)). pose proof count_range as Hc.
  destruct Hx as [Hl Ht Hh Hb]. unfold free_space in Hfree. split_and!.
  - apply (content_free _ _ off); unfold free_space; rewrite ?Z2Nat.id; lia.
  - split; simpl; rewrite ?length_inserts; done.
  - rewrite seg_app by lia. f_equal.
    + unfold x'. simpl. apply seg_write_other; [|lia]. intros i Hi. rewrite Nat2Z.inj_add, Z2Nat.id by lia.
      set (L := xLength x) in *. set (h := xHead x) in *.
      destruct (Z.lt_ge_cases (h + i) L) as [H1|H1]; [rewrite (Z.mod_small (h + i)) by lia|rewrite <- (Z_mod_plus_full (h + i) (-1)), (Z.mod_small (h + i + -1 * L)) by lia];
        (destruct (Z.lt_ge_cases (h + off) L) as [H2|H2]; [rewrite Z.mod_small in Hp by lia|rewrite <- (Z_mod_plus_full _ (-1)), Z.mod_small in Hp by lia]; lia).
    + rewrite <- seg_mod, <- Hp. unfold x'. simpl. apply seg_write_here; lia.
Qed.

(** Moving the head over [n] new bytes appends them. *)
Lemma content_push n : 0 ≤ n ≤ free_space x →
  let x' := x <| xHead := (xHead x + n) mod xLength x |> in
  content x' = content x ++ seg (sb_bytes x) (xLength x) (xHead x) n ∧ count x' = count x + n ∧
  (xHead x' - xHead x) mod xLength x = n ∧ ring_ok x'.
Proof.
  intros Hn x'. destruct Hx as [Hl Ht Hh Hb]. pose proof count_range as Hc. unfold free_space in Hn.
  assert (count x' = count x + n) as Hcount.
  { change (count x') with (((xHead x + n) mod xLength x - xTail x) mod xLength x). rewrite head_of_count at 1. rewrite Zplus_mod_idemp_l, Zminus_mod_idemp_l.
    replace (xTail x + count x + n - xTail x) with (count x + n) by lia. apply Z.mod_small. lia. }
  split_and!; [|done| |].
  - unfold content. rewrite Hcount. simpl. rewrite seg_app by lia. f_equal.
    rewrite head_of_count. by rewrite seg_mod.
  - unfold x'. simpl. rewrite Zminus_mod_idemp_l. replace (xHead x + n - xHead x) with n by lia. apply Z.mod_small. lia.
  - split; simpl; [done|done|apply Z.mod_pos_bound; lia|done].
Qed.
(** Moving the tail over [n] bytes drops them. *)
Lemma content_pop n : 0 ≤ n ≤ count x →
  let x' := x <| xTail := (xTail x + n) mod xLength x |> in
  content x' = drop (Z.to_nat n) (content x) ∧ count x' = count x - n ∧ ring_ok x'.
Proof.
  intros Hn x'. destruct Hx as [Hl Ht Hh Hb]. pose proof count_range as Hc.
  assert (count x' = count x - n) as Hcount.
  { change (count x') with ((xHead x - (xTail x + n) mod xLength x) mod xLength x). rewrite head_of_count, <- Zminus_mod.
    replace (xTail x + count x - (xTail x + n)) with (count x - n) by lia. apply Z.mod_small. lia. }
  split_and!; [|done|].
  - unfold content. rewrite Hcount. simpl. rewrite seg_mod, seg_drop by lia. done.
  - split; simpl; [done|apply Z.mod_pos_bound; lia|done|done].
Qed.
End ring.
