(* ===== verification/StreamMachine.v ===== *)
(** * One writer and one reader of a stream buffer, interleaved

    Task [w] sends to the buffer [b] and task [r] receives from it, neither
    waiting; they, other tasks, the tick and the context switch take steps in any
    order.  Besides the system a state of this machine has what no code sees: all
    the bytes the head was ever moved over, and, as the callers would note them,
    the bytes that calls accepted and delivered. *)
From S2P Require Import Prelude KList Tasks TasksInv TasksOps TasksMachine TasksFrame TasksBlind TasksDetach Prog.
From S2P Require Import SchedLock Heap4 StreamBuffer StreamRing.

(** ** The kernel's part *)
Section kernel.
Context (idle : Z).

Definition kernel_inv (k : kernel) : Prop := kgood idle k ∧ 0 ≤ uxSchedulerSuspended k ≤ 1.
Lemma kernel_tick k : kernel_inv k → wp xPortSysTickHandler (λ _ k', kernel_inv k' ∧ ∀ t, kenv t k k') k.
Proof.
  intros [Hk Hs]. eapply wp_mono; [apply wp_frame; [auto with keeps|]; by apply (kg_tick idle)|].
  intros _ k' [[Hk' Hr] Hf]. split; [split; [done|by rewrite (fr_susp _ _ Hf)]|]. intros t. by apply kenv_irq.
Qed.
Lemma kernel_switch k : kernel_inv k → wp xPortPendSVHandler (λ _ k', kernel_inv k' ∧ ∀ t, kenv t k k') k.
Proof.
  intros [Hk Hs]. eapply wp_mono; [by apply (kg_switch idle)|].
  intros _ k' (Hk' & Hr & Hsu & _ & _ & _ & _ & Hc). split; [split; [done|by rewrite Hsu]|]. intros t. by apply kenv_switch.
Qed.
Lemma skernel_suspend k t : kernel_inv k → pxCurrentTCB k = Some t → pendsv k = false → khome t k →
  wp vTaskSuspendAll (λ _ k', kernel_inv k' ∧ klocked t k') k.
Proof.
  intros [Hk Hs] Hc Hp Hh. destruct (Hh Hc) as [Hs0 [?|Hr]]; [congruence|].
  eapply wp_mono; [apply wp_frame0; [auto with keeps|]; by apply (kg_suspend idle)|].
  intros _ k' [(Hk' & Hkept & Hs') Hf]. split; [split; [done|lia]|].
  split_and!; [by rewrite (fr_current _ _ Hf)|done|by apply Hkept].
Qed.
Lemma skernel_resume k t : kernel_inv k → klocked t k →
  wp xTaskResumeAll (λ _ k', kernel_inv k' ∧ pxCurrentTCB k' = Some t ∧ khome t k') k.
Proof.
  intros [Hk Hs] (Hc & Hs1 & Hr). eapply wp_mono; [by apply (kg_resume idle)|].
  intros b k' (Hk' & Hkept & Hs' & _ & _ & _ & Hf & _). split; [split; [done|lia]|].
  split; [by rewrite (fr_current _ _ Hf)|]. intros _. split; [done|right; by apply Hkept].
Qed.
End kernel.

(** ** The state and the code *)
Record world := mkWorld {
  w_sys : ssys;
  w_total : list Z;
  w_sent : list Z;
  w_received : list Z
}.
#[global] Instance eta_world : Eta world := λ W, mkWorld (w_sys W) (w_total W) (w_sent W) (w_received W).

(** The bytes a step has moved the head over *)
Definition committed (x x' : StreamBuffer_t) : list Z :=
  seg (sb_bytes x') (xLength x') (xHead x) ((xHead x' - xHead x) mod xLength x').

Section world.
Context (b : Z).

Definition committed_in (s s' : ssys) : list Z :=
  match s_bufs s !! b, s_bufs s' !! b with Some x, Some x' => committed x x' | _, _ => [] end.
Definition traced {A} (m : SM A) : M world A := λ W,
  match m (w_sys W) with
  | ROk (a, s') => ROk (a, W <| w_sys := s' |> <| w_total ::= λ T, T ++ committed_in (w_sys W) s' |>)
  | RAssert => RAssert
  | RHalt => RHalt
  | RFault => RFault
  | RFuel => RFuel
  end.
Fixpoint tracedP {A} (p : SP A) : prog world A :=
  match p with
  | Ret a => Ret a
  | Atomic m => Atomic (traced m)
  | Bind p k => Bind (tracedP p) (λ a, tracedP (k a))
  | Loop body v => Loop (λ v, tracedP (body v)) v
  end.
Lemma wp_traced {A} (m : SM A) (Q : A → world → Prop) W :
  wp m (λ a s', Q a (mkWorld s' (w_total W ++ committed_in (w_sys W) s') (w_sent W) (w_received W))) (w_sys W) →
  wp (traced m) Q W.
Proof. unfold wp, traced. by destruct (m (w_sys W)) as [[a s']| | | |]. Qed.

Inductive scall := SSend (data : list Z) | SReceive (n : Z) | SYield.
Definition scode (c : scall) : prog world unit :=
  match c with
  | SSend data =>
      let! n := tracedP (xStreamBufferSend b (Some data) (Z.of_nat (length data)) 0) in
      Atomic (modify (λ W, W <| w_sent ::= λ S, S ++ take (Z.to_nat n) data |>))
  | SReceive n =>
      let! bs := tracedP (xStreamBufferReceive b true n 0) in
      Atomic (modify (λ W, W <| w_received ::= λ R, R ++ bs |>))
  | SYield => tracedP (Atomic (sker portYIELD_WITHIN_API))
  end.
Inductive sirq := STick | SPendSV.
Definition shandler (i : sirq) : M world unit :=
  match i with
  | STick => traced (sker xPortSysTickHandler)
  | SPendSV => traced (sker xPortPendSVHandler)
  end.
End world.
Definition sruns (t : Z) (W : world) : Prop :=
  pxCurrentTCB (s_kernel (w_sys W)) = Some t ∧ pendsv (s_kernel (w_sys W)) = false.
Definition sirq_enabled (i : sirq) (W : world) : Prop :=
  match i with STick => True | SPendSV => pendsv (s_kernel (w_sys W)) = true end.
(** Only [w] sends, only [r] receives. *)
Definition scall_enabled (w r t : Z) (c : scall) (W : world) : Prop :=
  match c with
  | SSend data => t = w ∧ Z.of_nat (length data) < MAX32
  | SReceive n => t = r ∧ 0 ≤ n < MAX32
  | SYield => True
  end.
