(* ===== verification/StreamSafe.v ===== *)
(** * The code of one writer and one reader is safe

    Each step respects what the other side relies on: the reader moves only the
    tail, the writer writes only outside the content and then moves the head. *)
From S2P Require Import Prelude KList Tasks TasksInv TasksOps TasksMachine TasksFrame TasksBlind TasksDetach Prog.
From S2P Require Import SchedLock Heap4 StreamBuffer StreamRing StreamMachine.

Section safe.
Context (idle b w r : Z) (Hwr : w ≠ r) (Hb : b ≠ 0).

(** ** Invariant, interference *)
Record buffer_ok (x : StreamBuffer_t) : Prop := {
  bk_ring : ring_ok x;
  bk_stream : is_stream x;
  bk_receiver : xTaskWaitingToReceive x = 0;
  bk_sender : xTaskWaitingToSend x = 0
}.
Definition winv (W : world) : Prop :=
  (kernel_inv idle (s_kernel (w_sys W)) ∧ w_sent W `prefix_of` w_total W ∧ w_received W `prefix_of` w_total W) ∧
  ∃ x, s_bufs (w_sys W) !! b = Some x ∧ buffer_ok x.

(** A fact about the buffer and the three histories. *)
Abbreviation fact := (StreamBuffer_t → list Z → list Z → list Z → Prop).
Definition same_shape (x x' : StreamBuffer_t) : Prop :=
  xLength x' = xLength x ∧ ucFlags x' = ucFlags x ∧ xTriggerLevelBytes x' = xTriggerLevelBytes x.
Record benv (t : Z) (x : StreamBuffer_t) (T S R : list Z) (x' : StreamBuffer_t) (T' S' R' : list Z) : Prop := {
  be_shape : same_shape x x';
  be_writer : t = w → xHead x' = xHead x ∧ sb_bytes x' = sb_bytes x ∧ count x' ≤ count x ∧ T' = T ∧ S' = S;
  be_reader : t = r → xTail x' = xTail x ∧ R' = R ∧ ∃ d, content x' = content x ++ d ∧ T' = T ++ d
}.
Definition holds_at (K : kernel → Prop) (Φ : fact) (W : world) : Prop :=
  K (s_kernel (w_sys W)) ∧ ∃ x, s_bufs (w_sys W) !! b = Some x ∧ Φ x (w_total W) (w_sent W) (w_received W).
Definition wenv (t : Z) (W W' : world) : Prop :=
  kenv t (s_kernel (w_sys W)) (s_kernel (w_sys W')) ∧
  ∀ x, s_bufs (w_sys W) !! b = Some x → ∃ x', s_bufs (w_sys W') !! b = Some x' ∧
    benv t x (w_total W) (w_sent W) (w_received W) x' (w_total W') (w_sent W') (w_received W').
Abbreviation wsafe := (safe sruns winv wenv).

Lemma benv_refl t x T S R : benv t x T S R x T S R.
Proof. split; [done|done|]. intros _. split_and!; [done|done|]. exists []. by rewrite !app_nil_r. Qed.
Lemma wenv_refl t W : wenv t W W.
Proof. split; [apply kenv_refl|]. intros x Hx. exists x. split; [done|apply benv_refl]. Qed.

(** Facts that the others leave alone *)
Definition bstable (t : Z) (Φ : fact) : Prop :=
  ∀ x T S R x' T' S' R', ring_ok x → ring_ok x' → benv t x T S R x' T' S' R' → Φ x T S R → Φ x' T' S' R'.
Definition kstable (t : Z) (K : kernel → Prop) : Prop := ∀ k k', kenv t k k' → K k → K k'.
Lemma stable_holds t K Φ : kstable t K → bstable t Φ → stable winv wenv t (holds_at K Φ).
Proof.
  intros HK HΦ W W' (_ & y & Hy & Hok) (_ & y' & Hy' & Hok') [He Hbe] (Hk & x & Hx & HF).
  split; [by eapply HK|]. assert (y = x) as -> by congruence.
  destruct (Hbe x Hx) as (x' & Hx' & Hbx). assert (y' = x') as -> by congruence. exists x'. split; [done|]. eapply HΦ; [apply Hok|apply Hok'|exact Hbx|exact HF].
Qed.

(** ** Rules *)
Definition tr {A} (t : Z) (p : SP A) (Φ : fact) (Ψ : A → fact) : Prop :=
  wsafe t (tracedP b p) (holds_at (khome t) Φ) (λ a, holds_at (khome t) (Ψ a)).

Lemma tr_ret {A} t (a : A) Φ Ψ : (∀ x T S R, ring_ok x → Φ x T S R → Ψ a x T S R) → tr t (Ret a) Φ Ψ.
Proof.
  intros HP W (_ & y & Hy & Hok) (HK & x & Hx & HF). assert (y = x) as -> by congruence.
  split; [done|]. exists x. split; [done|]. apply HP; [apply Hok|done].
Qed.
Lemma tr_bind {A B} t (p : SP A) (k : A → SP B) Φ Mid Ψ :
  (∀ a, bstable t (Mid a)) → tr t p Φ Mid → (∀ a, tr t (k a) (Mid a) Ψ) → tr t (Bind p k) Φ Ψ.
Proof.
  intros HM Hp Hk. exists (λ a, holds_at (khome t) (Mid a)). split_and!; [|done|done].
  intros a. apply stable_holds; [intros ??; apply khome_stable|done].
Qed.
Lemma tr_loop {A V} t (J : fact) (body : V → SP (V + A)) v Φ Ψ :
  bstable t J → (∀ x T S R, Φ x T S R → J x T S R) →
  (∀ v, tr t (body v) J (λ s, match s with inl _ => J | inr a => Ψ a end)) → tr t (Loop body v) Φ Ψ.
Proof.
  intros HJ Hi Hbody. exists (λ _, holds_at (khome t) J). split_and!.
  - intros _. apply stable_holds; [intros ??; apply khome_stable|done].
  - intros W _ (HK & x & Hx & HF). split; [done|]. exists x. auto.
  - intros v'. eapply safe_post; [|apply (Hbody v')]. by intros [v''|a] W _ HW.
Qed.
Lemma tr_pre {A} t (p : SP A) (Φ Φ' : fact) Ψ : (∀ x T S R, ring_ok x → Φ' x T S R → Φ x T S R) → tr t p Φ Ψ → tr t p Φ' Ψ.
Proof.
  intros HP. apply safe_pre. intros W (_ & y & Hy & Hok) (HK & x & Hx & HF). assert (y = x) as -> by congruence.
  split; [done|]. exists x. split; [done|]. apply HP; [apply Hok|done].
Qed.
Lemma tr_post {A} t (p : SP A) Φ (Ψ Ψ' : A → fact) : (∀ a x T S R, ring_ok x → Ψ a x T S R → Ψ' a x T S R) → tr t p Φ Ψ → tr t p Φ Ψ'.
Proof.
  intros HP. apply safe_post. intros a W (_ & y & Hy & Hok) (HK & x & Hx & HF). assert (y = x) as -> by congruence.
  split; [done|]. exists x. split; [done|]. apply HP; [apply Hok|done].
Qed.

(** A step that works on the buffer. *)
Lemma safe_buffer {A} t (m : SM A) (K : kernel → Prop) (Φ : fact) (Ψ : A → fact) :
  (∀ s x T S R, s_bufs s !! b = Some x → buffer_ok x → Φ x T S R →
     wp m (λ a s', s_kernel s' = s_kernel s ∧ ∃ x', s_bufs s' = <[b := x']> (s_bufs s) ∧ buffer_ok x' ∧
       (∀ u, u ≠ t → benv u x T S R x' (T ++ committed x x') S R) ∧ Ψ a x' (T ++ committed x x') S R) s) →
  wsafe t (Atomic (traced b m)) (holds_at K Φ) (λ a, holds_at K (Ψ a)).
Proof.
  intros Hm W ((Hk & HS & HR) & y & Hy & Hok) _ (HK & x & Hx & HF). assert (y = x) as -> by congruence. apply wp_traced.
  eapply wp_mono; [by apply (Hm _ x)|]. intros a s' (Hk' & x' & Hs' & Hok' & Hguar & HΨ).
  assert (committed_in b (w_sys W) s' = committed x x') as Hc.
  { unfold committed_in. by rewrite Hx, Hs', lookup_insert_eq. }
  rewrite Hc. split; [split|].
  - split; [simpl; rewrite Hk'; split_and!; [done|by apply prefix_app_r..]|]. exists x'. simpl. by rewrite Hs', lookup_insert_eq.
  - intros u Hu. split; [simpl; rewrite Hk'; apply kenv_refl|]. simpl. intros z Hz. assert (z = x) as -> by congruence. exists x'.
    rewrite Hs', lookup_insert_eq. split; [done|]. by apply Hguar.
  - split; [simpl; by rewrite Hk'|]. exists x'. simpl. by rewrite Hs', lookup_insert_eq.
Qed.
Lemma committed_none x x' : xHead x' = xHead x → committed x x' = [].
Proof. intros Hh. unfold committed. rewrite Hh, Z.sub_diag, Zmod_0_l. by apply seg_none. Qed.
(** One that only reads. *)
Lemma safe_read {A} t (m : SM A) (K : kernel → Prop) (Φ : fact) (Ψ : A → fact) :
  (∀ s x T S R, s_bufs s !! b = Some x → buffer_ok x → Φ x T S R → wp m (λ a s', s' = s ∧ Ψ a x T S R) s) →
  wsafe t (Atomic (traced b m)) (holds_at K Φ) (λ a, holds_at K (Ψ a)).
Proof.
  intros Hm. apply safe_buffer. intros s x T S R Hx Hok HF. eapply wp_mono; [by apply (Hm s x)|].
  intros a s' [-> HΨ]. split; [done|]. exists x. rewrite committed_none, app_nil_r by done.
  split_and!; [by rewrite insert_id|done|intros u _; apply benv_refl|done].
Qed.
Lemma wp_sb_get {A} (f : StreamBuffer_t → A) x (Q : A → ssys → Prop) s :
  s_bufs s !! b = Some x → Q (f x) s → wp (sb_get b f) Q s.
Proof. intros Hx HQ. unfold sb_get. apply wp_bind, wp_getM. rewrite Hx. by eapply wp_deref. Qed.
Lemma wp_sb_set f x (Q : unit → ssys → Prop) s :
  s_bufs s !! b = Some x → Q tt (s <| s_bufs ::= <[b := f x]> |>) → wp (sb_set b f) Q s.
Proof. intros Hx HQ. unfold sb_set. apply wp_bind, wp_getM. rewrite Hx. by apply wp_modify. Qed.
Lemma tr_get {A} t (f : StreamBuffer_t → A) Φ (Ψ : A → fact) :
  (∀ x T S R, ring_ok x → is_stream x → Φ x T S R → Ψ (f x) x T S R) → tr t (Atomic (sb_get b f)) Φ Ψ.
Proof. intros HP. apply safe_read. intros s x T S R Hx [Hr Hs _ _] HF. eapply wp_sb_get; [done|]. auto. Qed.
Lemma wp_sb_assert (Q : unit → ssys → Prop) s : Q tt s → wp (assert_buffer_handle b) Q s.
Proof. intros HQ. apply wp_assert; [|done]. by apply negb_true_iff, Z.eqb_neq. Qed.
Lemma tr_handle t Φ : tr t (Atomic (assert_buffer_handle b)) Φ (λ _, Φ).
Proof. apply safe_read. intros s x T S R Hx Hok HF. by apply wp_sb_assert. Qed.

(** *** The other side is told: nobody waits *)
Lemma safe_kernel {A} t (m : K A) (K K' : kernel → Prop) Φ :
  (∀ k, kernel_inv idle k → pxCurrentTCB k = Some t → pendsv k = false → K k →
     wp m (λ _ k', kernel_inv idle k' ∧ pxCurrentTCB k' = Some t ∧ K' k') k) →
  wsafe t (Atomic (traced b (sker m))) (holds_at K Φ) (λ _, holds_at K' Φ).
Proof.
  intros Hm W ((Hk & HS & HR) & y & Hy & Hok) [Hc Hp] (HK & x & Hx & HF). assert (y = x) as -> by congruence. apply wp_traced, (wp_zoom s_kernel).
  eapply wp_mono; [by apply Hm|]. intros a k' (Hk' & Hc' & HK').
  assert (committed_in b (w_sys W) ((w_sys W) <| s_kernel := k' |>) = []) as Hcm.
  { unfold committed_in. simpl. rewrite Hx. by apply committed_none. }
  rewrite Hcm, app_nil_r. split; [split|].
  - split; [split_and!; done|]. by exists x.
  - intros u Hu. split; [by apply (kenv_own _ t)|]. simpl. intros z Hz. exists z. split; [done|apply benv_refl].
  - split; [done|]. by exists x.
Qed.
Lemma tr_notify t who clear Φ : bstable t Φ → (∀ x, buffer_ok x → who x = 0) →
  tr t (notify_waiting b who clear) Φ (λ _, Φ).
Proof.
  intros HΦ Hwho. pose proof (λ k k' : kernel, klocked_stable t k k') as Hls.
  exists (λ _, holds_at (klocked t) Φ). split_and!.
  - intros _. by apply stable_holds.
  - apply safe_kernel. intros k Hk Hc Hp Hh. eapply wp_mono; [by apply (skernel_suspend idle k t)|].
    intros _ k' [Hk' Hl]. split_and!; [done|apply Hl|done].
  - intros _. exists (λ v, holds_at (klocked t) (λ x T S R, Φ x T S R ∧ v = 0)). split_and!.
    { intros v. apply stable_holds; [done|]. intros x T S R x' T' S' R' H1 H2 H3 [H4 ?].
      split; [exact (HΦ _ _ _ _ _ _ _ _ H1 H2 H3 H4)|done]. }
    { apply safe_read. intros s x T S R Hx Hok HF. eapply wp_sb_get; [done|]. split; [done|]. split; [done|by apply Hwho]. }
    intros v. eapply (safe_pre _ _ _ _ _ (λ W, holds_at (klocked t) Φ W ∧ v = 0)).
    { by intros W _ (HK & x & Hx & HF & ->); split; [split; [done|by exists x]|]. }
    apply safe_pure; [apply _|]. intros ->. simpl. exists (λ _, holds_at (klocked t) Φ). split_and!.
    { intros _. by apply stable_holds. }
    { by intros W _ HW. }
    intros _. exists (λ _, holds_at (khome t) Φ). split_and!.
    { intros _. apply stable_holds; [intros ??; apply khome_stable|done]. }
    { apply safe_kernel. intros k Hk Hc Hp Hl. by apply skernel_resume. }
    intros _. by intros W _ HW.
Qed.

(** A fact that is not about the buffer. *)
Lemma tr_pure {A} t (p : SP A) (Φ : fact) (P : Prop) `{Decision P} Ψ :
  (P → tr t p Φ Ψ) → tr t p (λ x T S R, Φ x T S R ∧ P) Ψ.
Proof.
  intros HP. eapply (safe_pre _ _ _ _ _ (λ W, holds_at (khome t) Φ W ∧ P)).
  { by intros W _ (HK & x & Hx & HF & ?); split; [split; [done|by exists x]|]. }
  apply safe_pure; [apply _|exact HP].
Qed.

(** ** The writer

    All the bytes are the accepted ones and those of the present call; the facts
    [ψ] survive a reader. *)
Definition Wr (lag : list Z) (ψ : StreamBuffer_t → Prop) : fact := λ x T S R, T = S ++ lag ∧ ψ x.
Lemma wr_stable lag (ψ : StreamBuffer_t → Prop) :
  (∀ x x', same_shape x x' → xHead x' = xHead x → sb_bytes x' = sb_bytes x → count x' ≤ count x → ψ x → ψ x') →
  bstable w (Wr lag ψ).
Proof.
  intros Hψ x T S R x' T' S' R' _ _ [Hsh Hw _] [-> HP]. destruct (Hw eq_refl) as (Hh & Hby & Hc & -> & ->).
  split; [done|]. by eapply Hψ.
Qed.
Lemma free_more x x' : same_shape x x' → count x' ≤ count x → free_space x ≤ free_space x'.
Proof. intros (HL & _) Hc. unfold free_space. lia. Qed.
Ltac wr_stable := intros; apply wr_stable; simpl; intros ? ? Hsh Hh Hby Hc; pose proof (free_more _ _ Hsh Hc);
  destruct Hsh as (HL & _ & _); rewrite ?HL, ?Hh, ?Hby; intuition (eauto with lia).

Lemma tr_spaces : tr w (xStreamBufferSpacesAvailable b) (Wr [] (λ _, True)) (λ sp, Wr [] (λ x, 0 ≤ sp ≤ free_space x)).
Proof.
  apply (tr_bind _ _ _ _ (λ _, Wr [] (λ _, True))); [by wr_stable|apply tr_handle|intros _].
  set (Seen := λ (v : Z * Z), Wr [] (λ x, v.1 = xLength x ∧ 0 ≤ v.2 < xLength x ∧ count x ≤ (xHead x - v.2) mod xLength x)).
  assert (∀ v, bstable w (Seen v)) as HSeen.
  { intros v. apply wr_stable. simpl. intros x x' (HL & _) Hh _ Hc (? & ? & ?). rewrite HL, Hh. split_and!; (done || lia). }
  set (Space := λ (v : Z * Z), Wr [] (λ x, v.1 = xLength x ∧ ∃ t, 0 ≤ t < xLength x ∧
    count x ≤ (xHead x - t) mod xLength x ∧ v.2 = wrap32 (wrap32 (xLength x + t) - xHead x))).
  assert (∀ v, bstable w (Space v)) as HSpace.
  { intros v. apply wr_stable. simpl. intros x x' (HL & _) Hh _ Hc (? & t & ? & ? & ?). rewrite HL, Hh.
    split; [done|]. exists t. split_and!; (done || lia). }
  apply (tr_bind _ _ _ _ Space); [done| |].
  - apply (tr_loop _ (Wr [] (λ _, True))); [by wr_stable|done|intros _].
    apply (tr_bind _ _ _ _ (λ _, Wr [] (λ _, True))); [by wr_stable| |intros t0].
    { apply tr_get. by intros. }
    apply (tr_bind _ _ _ _ Seen); [done| |intros [len t1]].
    { apply tr_get. intros x T S R Hr _ [? _]. split; [done|]. destruct Hr. unfold count. simpl. split_and!; (done || lia). }
    apply (tr_bind _ _ _ _ (λ h, Wr [] (λ x, len = xLength x ∧ h = xHead x ∧ 0 ≤ t1 < xLength x ∧
      count x ≤ (xHead x - t1) mod xLength x))).
    { intros h. apply wr_stable. intros x x' (HL & _) Hh _ Hc (? & ? & ? & ?). rewrite HL, Hh. split_and!; (done || lia). }
    { apply tr_get. intros x T S R Hr _ [? (? & ? & ?)]. by split. }
    intros h. apply (tr_bind _ _ _ _ (λ _, Space (len, wrap32 (wrap32 (len + t1) - h)))); [done| |].
    { apply tr_get. intros x T S R Hr _ [? (-> & -> & ? & ?)]. split; [done|]. split; [done|]. by exists t1. }
    intros t2. destruct (negb (t0 =? t2)); apply tr_ret; [|done]. by intros x T S R _ [? _].
  - intros [len sp]. apply tr_ret. intros x T S R Hr [HT (H1 & t & Ht & Hc & H2)]. cbn [fst snd] in *. subst len sp. split; [done|].
    pose proof (space_wraps x Hr (xHead x) t (rg_head _ Hr) Ht) as Hsp. cbv zeta in Hsp |- *. rewrite Hsp.
    pose proof (Z.mod_pos_bound (xHead x - t) (xLength x)). pose proof (rg_length _ Hr). unfold free_space. lia.
Qed.
(** A copy to [off] bytes beyond the head *)
Lemma wp_copy s x p off data n : s_bufs s !! b = Some x → ring_ok x → 0 ≤ off → 0 ≤ n → off + n ≤ free_space x →
  p = (xHead x + off) mod xLength x → p + n ≤ xLength x → n ≤ Z.of_nat (length data) →
  wp (copy_in b p data n) (λ _ s', s_kernel s' = s_kernel s ∧ ∃ x', s_bufs s' = <[b := x']> (s_bufs s) ∧
    x' = x <| sb_bytes ::= list_inserts (Z.to_nat p) (take (Z.to_nat n) data) |> ∧ ring_ok x' ∧ content x' = content x ∧
    seg (sb_bytes x') (xLength x) (xHead x) (off + n) = seg (sb_bytes x) (xLength x) (xHead x) off ++ take (Z.to_nat n) data) s.
Proof.
  intros Hx Hr Hoff Hn Hfree Hp Hend Hd. assert (Z.of_nat (length (take (Z.to_nat n) data)) = n) as Hl by (rewrite length_take; lia).
  pose proof (Z.mod_pos_bound (xHead x + off) (xLength x)). pose proof (rg_length _ Hr). pose proof (rg_bytes _ Hr).
  destruct (fill_step x Hr p (take (Z.to_nat n) data) off) as (Hc & Hr' & Hs); [lia..|].
  unfold copy_in. apply wp_bind. eapply wp_sb_get; [done|].
  rewrite (proj2 (Z.leb_le 0 p)), (proj2 (Z.leb_le _ (Z.of_nat (length (sb_bytes x))))), (proj2 (Z.leb_le n _)) by lia. simpl.
  eapply wp_sb_set; [done|]. split; [done|]. eexists. split; [done|]. split; [done|]. rewrite Hl in Hs. split_and!; [apply Hr'|apply Hc|apply Hs].
Qed.
Lemma benv_copy u x x' T S R d : u ≠ w → x' = x <| sb_bytes := d |> → content x' = content x →
  benv u x T S R x' (T ++ committed x x') S R.
Proof.
  intros Hu -> Hc. rewrite committed_none, app_nil_r by done. split; [done|done|]. intros _. split_and!; [done|done|].
  exists []. by rewrite !app_nil_r.
Qed.
(** The bytes wait beyond the head. *)
Definition Put (k n : Z) (data : list Z) : StreamBuffer_t → Prop := λ x,
  0 < n ≤ free_space x ∧ n ≤ Z.of_nat (length data) ∧ 0 ≤ k ≤ n ∧
  seg (sb_bytes x) (xLength x) (xHead x) k = take (Z.to_nat k) data.
Lemma put_stable k n data : bstable w (Wr [] (Put k n data)).
Proof.
  apply wr_stable. intros x x' Hsh Hh Hby Hc (? & ? & ? & Hs). pose proof (free_more _ _ Hsh Hc). destruct Hsh as (HL & _).
  unfold Put. rewrite HL, Hh, Hby. split_and!; (done || lia).
Qed.
Lemma tr_write data n h :
  tr w (prvWriteBytesToBuffer b data n h) (Wr [] (λ x, xHead x = h ∧ 0 < n ≤ free_space x ∧ n ≤ Z.of_nat (length data)))
    (λ h', Wr [] (λ x, Put n n data x ∧ h' = (xHead x + n) mod xLength x)).
Proof.
  set (First := λ v : Z * Z, Wr [] (λ x, (h = xHead x ∧ v.1 = xLength x ∧ v.2 = Z.min (xLength x - h) n) ∧ Put v.2 n data x)).
  assert (∀ v, bstable w (First v)) as HFirst.
  { intros v x T S R x' T' S' R' Hr Hr' He [HT [(-> & Hv & Hf) HP]].
    destruct (put_stable _ _ _ _ _ _ _ _ _ _ _ Hr Hr' He (conj HT HP)) as [HT' HP']. split; [done|]. split; [|done].
    destruct He as [(HL & _) Hw _]. destruct (Hw eq_refl) as (Hh & _). rewrite HL, Hh. done. }
  apply (tr_bind _ _ _ _ First); [done| |].
  - apply safe_buffer. intros s x T S R Hx [Hr Hs Hw1 Hw2] (HT & <- & Hn & Hd).
    pose proof (rg_head _ Hr) as Hh. pose proof (rg_length _ Hr) as HL. pose proof (count_range x Hr). unfold free_space in Hn.
    apply wp_bind, wp_assert; [apply Z.ltb_lt; lia|]. apply wp_bind. eapply wp_sb_get; [done|].
    rewrite (wrap32_small (xLength x - _)) by (unfold u32, MAX32; lia).
    apply wp_bind, wp_assert; [apply Z.leb_le; rewrite wrap32_small; unfold u32, MAX32; lia|].
    apply wp_bind. eapply wp_mono; [apply (wp_copy s x _ 0); [done|done|lia|lia|unfold free_space; lia| |lia|lia]|].
    { rewrite Z.add_0_r, Z.mod_small; lia. }
    intros _ s' (Hk & x' & Hs' & -> & Hr' & Hc & Hseg). apply wp_ret. split; [done|]. eexists. split; [exact Hs'|].
    rewrite (seg_none _ _ _ 0), app_nil_l, Z.add_0_l in Hseg by done.
    split; [by split|]. split; [intros u Hu; by eapply benv_copy|].
    rewrite committed_none, app_nil_r by done. split; [done|]. split; [done|]. unfold Put, free_space. 
    change (count (x <| sb_bytes ::= _ |>)) with (count x).
    simpl. split_and!; (exact Hseg || lia).
  - intros [len f]. unfold First. cbn [fst snd]. clear First HFirst.
    apply (tr_bind _ _ _ _ (λ _, Wr [] (λ x, (h = xHead x ∧ len = xLength x) ∧ Put n n data x))).
    { intros _ x T S R x' T' S' R' Hr Hr' He [HT [(-> & ->) HP]].
      destruct (put_stable _ _ _ _ _ _ _ _ _ _ _ Hr Hr' He (conj HT HP)) as [HT' HP']. split; [done|]. split; [|done].
      destruct He as [(HL & _) Hw _]. destruct (Hw eq_refl) as (Hh & _). rewrite HL, Hh. done. }
    + destruct (Z.ltb_spec f n) as [Hf|Hf].
      * apply safe_buffer. intros s x T S R Hx [Hr Hs Hw1 Hw2] (HT & (-> & -> & Hfx) & Hn & Hd & Hfn & Hseg).
        pose proof (rg_head _ Hr) as Hh. pose proof (rg_length _ Hr) as HL. pose proof (count_range x Hr). unfold free_space in Hn.
        rewrite (wrap32_small (n - f)) by (unfold u32, MAX32; lia).
        apply wp_bind, wp_assert; [apply Z.leb_le; lia|].
        eapply wp_mono; [apply (wp_copy s x 0 f); [done|done|lia|lia|unfold free_space; lia| |lia|rewrite length_drop; lia]|].
        { replace (xHead x + f) with (xLength x) by lia. by rewrite Z_mod_same_full. }
        intros _ s' (Hk & x' & Hs' & -> & Hr' & Hc & Hseg'). split; [done|]. eexists. split; [exact Hs'|].
        split; [by split|]. split; [intros u Hu; by eapply benv_copy|].
        rewrite committed_none, app_nil_r by done. split; [done|]. split; [done|]. unfold Put, free_space.
        change (count (x <| sb_bytes ::= _ |>)) with (count x). rewrite Hseg in Hseg'.
        replace (f + (n - f)) with n in Hseg' by lia.
        replace (take (Z.to_nat f) data ++ take (Z.to_nat (n - f)) (drop (Z.to_nat f) data)) with (take (Z.to_nat n) data) in Hseg'.
        2: { rewrite take_take_drop. f_equal. lia. }
        simpl. split_and!; (exact Hseg' || lia).
      * apply tr_ret. intros x T S R Hr (HT & (-> & -> & Hfx) & Hn & Hd & Hfn & Hseg). split; [done|]. split; [done|].
        assert (f = n) as -> by lia. done.
    + intros _. apply tr_ret. intros x T S R Hr (HT & (-> & ->) & HP). split; [done|]. split; [done|].
      apply (advance_wraps x Hr); [apply Hr|]. destruct HP as ([? Hn] & _). pose proof (count_range x Hr). unfold free_space in Hn. lia.
Qed.
(** The head goes on: the bytes belong to the stream. *)
Lemma tr_commit data n h :
  tr w (Atomic (sb_set b (λ x, x <| xHead := h |>))) (Wr [] (λ x, Put n n data x ∧ h = (xHead x + n) mod xLength x))
    (λ _, Wr (take (Z.to_nat n) data) (λ _, True)).
Proof.
  apply safe_buffer. intros s x T S R Hx [Hr Hs Hw1 Hw2] (HT & (Hn & Hd & _ & Hseg) & ->).
  destruct (content_push x Hr n) as (Hc & Hcount & Hmoved & Hr'); [lia|].
  eapply wp_sb_set; [done|]. split; [done|]. eexists. split; [done|]. split; [by split|].
  match goal with |- context [committed x ?y] => assert (committed x y = take (Z.to_nat n) data) as -> end.
  { rewrite <- Hseg. unfold committed. simpl in Hmoved |- *. by rewrite Hmoved. }
  split; [|by rewrite HT, app_nil_r].
  intros u Hu. split; [done|done|]. intros _. split_and!; [done|done|]. exists (take (Z.to_nat n) data). by rewrite Hc, Hseg.
Qed.
Lemma tr_any {A} t (m : SM A) Φ :
  (∀ s x, s_bufs s !! b = Some x → buffer_ok x → wp m (λ a s', s' = s) s) → tr t (Atomic m) Φ (λ _, Φ).
Proof. intros Hm. apply safe_read. intros s x T S R Hx Hok HF. eapply wp_mono; [by eapply Hm|]. by intros a s' ->. Qed.
Lemma tr_get_any {A} t (f : StreamBuffer_t → A) Φ : tr t (Atomic (sb_get b f)) Φ (λ _, Φ).
Proof. apply tr_get. by intros. Qed.
Lemma tr_bytes_any t Φ : bstable t Φ → tr t (prvBytesInBuffer b) Φ (λ _, Φ).
Proof.
  intros HΦ. eapply (tr_bind _ _ _ _ (λ _, Φ)); [done|apply tr_get_any|]. intros [len h]. eapply (tr_bind _ _ _ _ (λ _, Φ)); [done|apply tr_get_any|].
  intros tl. by apply tr_ret.
Qed.

Lemma tr_write_message data sp req : Z.of_nat (length data) < MAX32 →
  tr w (prvWriteMessageToBuffer b data (Z.of_nat (length data)) sp req) (Wr [] (λ x, 0 ≤ sp ≤ free_space x))
    (λ n, Wr (take (Z.to_nat n) data) (λ _, True)).
Proof.
  intros Hlen. set (Start := λ v : Z * bool, Wr [] (λ x, 0 ≤ sp ≤ free_space x ∧ v.1 = xHead x ∧ v.2 = false)).
  apply (tr_bind _ _ _ _ Start).
  { intros v. apply wr_stable. intros x x' Hsh Hh _ Hc (? & ? & ?). pose proof (free_more _ _ Hsh Hc). rewrite Hh. split_and!; (done || lia). }
  { apply tr_get. intros x T S R Hr Hs [HT Hsp]. split; [done|]. split_and!; [lia|lia|done|done]. }
  intros [h m]. eapply (tr_pre _ _ (λ x T S R, Wr [] (λ x, 0 ≤ sp ≤ free_space x ∧ h = xHead x) x T S R ∧ m = false)).
  { intros x T S R _ (HT & ? & ? & ?). done. }
  apply tr_pure; [apply _|]. intros ->. set (n := Z.min (Z.of_nat (length data)) sp).
  apply (tr_bind _ _ _ _ (λ v : Z * Z, λ x T S R, Wr [] (λ x, 0 ≤ n ≤ free_space x ∧ n ≤ Z.of_nat (length data) ∧ h = xHead x) x T S R ∧ v = (n, h))).
  { intros v x T S R x' T' S' R' Hr Hr' He [[HT (Hn & Hd & ->)] ->]. split; [|done].
    destruct He as [Hsh Hw _]. destruct (Hw eq_refl) as (Hh & _ & Hc & -> & ->). split; [done|]. rewrite Hh. pose proof (free_more _ _ Hsh Hc). split_and!; (done || lia). }
  { apply tr_ret. intros x T S R Hr (HT & Hsp & Hh). split; [|done]. split; [done|]. split_and!; [lia|lia|lia|done]. }
  intros v. apply tr_pure; [apply _|]. intros ->. apply (tr_bind _ _ _ _ (λ _, Wr (take (Z.to_nat n) data) (λ _, True))); [by wr_stable| |].
  2: { intros _. by apply tr_ret. }
  destruct (Z.eqb_spec n 0) as [Hn|Hn]; simpl.
  { apply tr_ret. intros x T S R Hr (HT & _). split; [|done]. by rewrite Hn. }
  apply (tr_bind _ _ _ _ (λ h', Wr [] (λ x, Put n n data x ∧ h' = (xHead x + n) mod xLength x))).
  { intros h' x T S R x' T' S' R' Hr Hr' He [HT [HP ->]].
    destruct (put_stable _ _ _ _ _ _ _ _ _ _ _ Hr Hr' He (conj HT HP)) as [HT' HP']. split; [done|]. split; [done|].
    destruct He as [(HL & _) Hw _]. destruct (Hw eq_refl) as (Hh & _). by rewrite HL, Hh. }
  - eapply tr_pre; [|apply tr_write]. intros x T S R Hr (HT & Hsp & Hd & ->). split; [done|]. split_and!; (done || lia).
  - intros h'. apply tr_commit.
Qed.
Lemma tr_send data : Z.of_nat (length data) < MAX32 →
  tr w (xStreamBufferSend b (Some data) (Z.of_nat (length data)) 0) (Wr [] (λ _, True))
    (λ n, Wr (take (Z.to_nat n) data) (λ _, True)).
Proof.
  intros Hlen. apply (tr_bind _ _ _ _ (λ v : Z * Z, λ x T S R, Wr [] (λ _, True) x T S R ∧ v.2 = 0)).
  { intros v x T S R x' T' S' R' Hr Hr' He [HT ?]. split; [|done]. eapply (wr_stable [] (λ _, True)); [|exact Hr|exact Hr'|exact He|exact HT]. done. }
  { apply safe_read. intros s x T S R Hx [Hr Hs _ _] HT. unfold send_arguments.
    apply wp_bind, wp_assert; [done|]. apply wp_bind, wp_sb_assert. apply wp_bind. eapply wp_sb_get; [done|].
    unfold id. rewrite Hs. by apply wp_ret. }
  intros [req ticks]. apply tr_pure; [apply _|]. cbn [snd]. intros ->. simpl negb. cbn iota.
  apply (tr_bind _ _ _ _ (λ v, λ x T S R, Wr [] (λ _, True) x T S R ∧ v = 0)).
  { intros v x T S R x' T' S' R' Hr Hr' He [HT ?]. split; [|done]. eapply (wr_stable [] (λ _, True)); [|exact Hr|exact Hr'|exact He|exact HT]. done. }
  { apply tr_ret. by intros. }
  intros v. apply tr_pure; [apply _|]. intros ->. simpl (0 =? 0). cbn iota.
  apply (tr_bind _ _ _ _ (λ sp, Wr [] (λ x, 0 ≤ sp ≤ free_space x))); [by wr_stable|apply tr_spaces|intros sp].
  apply (tr_bind _ _ _ _ (λ n, Wr (take (Z.to_nat n) data) (λ _, True))); [by wr_stable|by apply tr_write_message|intros n].
  assert (bstable w (Wr (take (Z.to_nat n) data) (λ _, True))) as Hst by by wr_stable.
  eapply (tr_bind _ _ _ _ (λ _, Wr (take (Z.to_nat n) data) (λ _, True))); [done| |intros _; by apply tr_ret].
  destruct (0 <? n); [|by apply tr_ret]. 
  eapply (tr_bind _ _ _ _ (λ _, Wr (take (Z.to_nat n) data) (λ _, True))); [done|by apply tr_bytes_any|intros c].
  eapply (tr_bind _ _ _ _ (λ _, Wr (take (Z.to_nat n) data) (λ _, True))); [done|apply tr_get_any|intros lv].
  destruct (lv <=? c); [|by apply tr_ret]. apply tr_notify; [done|]. by intros x [].
Qed.
(** ** The reader

    All the bytes are the delivered ones, those of the present call and the
    content; the facts [ψ] survive a writer. *)
Definition Rd (lag : list Z) (ψ : StreamBuffer_t → Prop) : fact := λ x T S R, T = R ++ lag ++ content x ∧ ψ x.
Lemma rd_stable lag (ψ : StreamBuffer_t → Prop) :
  (∀ x x', ring_ok x → ring_ok x' → xLength x' = xLength x → xTail x' = xTail x → count x ≤ count x' →
     take (length (content x)) (content x') = content x → ψ x → ψ x') → bstable r (Rd lag ψ).
Proof.
  intros Hψ x T S R x' T' S' R' Hr Hr' [(HL & _) _ Hrd] [-> HP]. destruct (Hrd eq_refl) as (Ht & -> & d & Hc & ->).
  split; [by rewrite Hc, <- !app_assoc|]. apply (Hψ x); [done|done|done|done| |by rewrite Hc, take_app_length|done].
  rewrite <- (content_length x Hr), <- (content_length x' Hr'), Hc, length_app. lia.
Qed.
Lemma tr_bytes : tr r (prvBytesInBuffer b) (Rd [] (λ _, True)) (λ n, Rd [] (λ x, 0 ≤ n ≤ count x)).
Proof.
  apply (tr_bind _ _ _ _ (λ v, Rd [] (λ x, v.1 = xLength x ∧ 0 ≤ v.2 < xLength x ∧ (v.2 - xTail x) mod xLength x ≤ count x))).
  { intros v. apply rd_stable. intros x x' _ _ HL Ht Hc _ (? & ? & ?). rewrite HL, Ht. split_and!; (done || lia). }
  { apply tr_get. intros x T S R Hr _ [HT _]. split; [done|]. pose proof (rg_head _ Hr). unfold count. simpl. split_and!; (done || lia). }
  intros [len h]. apply (tr_bind _ _ _ _ (λ t, Rd [] (λ x, t = xTail x ∧ len = xLength x ∧ 0 ≤ h < xLength x ∧ (h - t) mod len ≤ count x))).
  { intros v. apply rd_stable. intros x x' _ _ HL Ht Hc _ (? & ? & ? & ?). rewrite HL, Ht. split_and!; (done || lia). }
  { apply tr_get. intros x T S R Hr _ [HT (H1 & ? & ?)]. cbn [fst snd] in *. split; [done|]. split_and!; [done|done|lia|lia|by rewrite H1]. }
  intros t. apply tr_ret. intros x T S R Hr [HT (-> & -> & Hh & Hc)]. split; [done|].
  pose proof (count_wraps x Hr h (xTail x) Hh (rg_tail _ Hr)) as Hn. cbv zeta in Hn |- *. rewrite Hn.
  pose proof (Z.mod_pos_bound (h - xTail x) (xLength x)). pose proof (rg_length _ Hr). lia.
Qed.

(** The first bytes of the content stay. *)
Definition Got (k n : Z) (bs : list Z) : StreamBuffer_t → Prop := λ x,
  0 < n ≤ count x ∧ 0 ≤ k ≤ n ∧ bs = take (Z.to_nat k) (content x).
Lemma got_stable (φ : Z → Z → Prop) k n bs : bstable r (Rd [] (λ x, φ (xTail x) (xLength x) ∧ Got k n bs x)).
Proof.
  apply rd_stable. intros x x' Hr Hr' HL Ht Hc Hco [Hφ (Hn & Hk & ->)]. rewrite HL, Ht. split; [done|].
  split; [lia|]. split; [done|]. rewrite <- Hco, take_take. f_equal. pose proof (content_length x Hr). lia.
Qed.
Lemma wp_copy_out (Q : list Z → ssys → Prop) s x p n : s_bufs s !! b = Some x → 0 ≤ p → 0 ≤ n → ring_ok x → p + n ≤ xLength x →
  Q (seg (sb_bytes x) (xLength x) p n) s → wp (copy_out b p n) Q s.
Proof.
  intros Hx Hp Hn Hr Hend HQ. pose proof (rg_bytes _ Hr). unfold copy_out. apply wp_bind. eapply wp_sb_get; [done|].
  rewrite (proj2 (Z.leb_le 0 p)), (proj2 (Z.leb_le _ (Z.of_nat _))) by lia. simpl. apply wp_ret. by rewrite <- (seg_straight _ (xLength x)).
Qed.
Lemma tr_read n t :
  tr r (prvReadBytesFromBuffer b n t) (Rd [] (λ x, t = xTail x ∧ 0 < n ≤ count x))
    (λ v, Rd [] (λ x, v.2 = (xTail x + n) mod xLength x ∧ Got n n v.1 x)).
Proof.
  apply (tr_bind _ _ _ _ (λ v, Rd [] (λ x, (t = xTail x ∧ v.1.1 = xLength x ∧ v.1.2 = Z.min (xLength x - t) n) ∧ Got v.1.2 n v.2 x))).
  { intros v. apply (got_stable (λ tl len, t = tl ∧ v.1.1 = len ∧ v.1.2 = Z.min (len - t) n)). }
  { apply safe_read. intros s x T S R Hx [Hr Hs _ _] (HT & -> & Hn).
    pose proof (rg_tail _ Hr) as Ht. pose proof (rg_length _ Hr) as HL. pose proof (count_range x Hr).
    apply wp_bind, wp_assert; [apply negb_true_iff, Z.eqb_neq; lia|]. apply wp_bind. eapply wp_sb_get; [done|].
    rewrite (wrap32_small (xLength x - _)) by (unfold u32, MAX32; lia).
    apply wp_bind, wp_assert; [apply Z.leb_le; lia|].
    apply wp_bind, wp_assert; [apply Z.leb_le; rewrite wrap32_small; unfold u32, MAX32; lia|].
    apply wp_bind. eapply wp_copy_out; [done|lia|lia|done|lia|]. apply wp_ret. split; [done|]. split; [done|]. cbn [fst snd].
    split; [done|]. unfold Got. split; [lia|]. split; [lia|]. symmetry. apply seg_take. lia. }
  intros [[len f] first]. cbn [fst snd].
  apply (tr_bind _ _ _ _ (λ v, Rd [] (λ x, (t = xTail x ∧ len = xLength x) ∧ Got n n (first ++ v) x))).
  { intros v. apply (got_stable (λ tl le, t = tl ∧ len = le)). }
  - destruct (Z.ltb_spec f n) as [Hf|Hf].
    + apply safe_read. intros s x T S R Hx [Hr Hs _ _] (HT & (-> & -> & Hfx) & Hn & Hfn & ->).
      pose proof (rg_tail _ Hr) as Ht. pose proof (rg_length _ Hr) as HL. pose proof (count_range x Hr).
      rewrite (wrap32_small (n - f)) by (unfold u32, MAX32; lia).
      eapply wp_copy_out; [done|lia|lia|done|lia|]. split; [done|]. split; [done|]. split; [done|]. split; [done|]. split; [lia|].
      replace 0 with ((xTail x + f) mod xLength x) by (replace (xTail x + f) with (xLength x) by lia; apply Z_mod_same_full).
      unfold content. rewrite seg_mod, !seg_take by lia. replace n with (f + (n - f)) at 2 by lia. by rewrite seg_app by lia.
    + apply tr_ret. intros x T S R Hr (HT & (-> & -> & Hfx) & Hn & Hfn & ->). split; [done|]. split; [done|]. rewrite app_nil_r.
      split; [done|]. split; [lia|]. do 2 f_equal. lia.
  - intros rest. apply tr_ret. intros x T S R Hr (HT & (-> & ->) & HG). split; [done|]. split; [|done]. cbn [snd].
    apply (advance_wraps x Hr); [apply Hr|]. destruct HG as (? & _). pose proof (count_range x Hr). lia.
Qed.
(** The tail goes on: the bytes are delivered. *)
Lemma tr_consume n t bs :
  tr r (Atomic (sb_set b (λ x, x <| xTail := t |>))) (Rd [] (λ x, t = (xTail x + n) mod xLength x ∧ Got n n bs x))
    (λ _, Rd bs (λ _, True)).
Proof.
  apply safe_buffer. intros s x T S R Hx [Hr Hs Hw1 Hw2] (HT & -> & Hn & _ & ->).
  destruct (content_pop x Hr n) as (Hc & Hcount & Hr'); [lia|].
  eapply wp_sb_set; [done|]. split; [done|]. eexists. split; [done|]. split; [by split|].
  rewrite committed_none, app_nil_r by done. split.
  - intros u Hu. split; [done| |done]. intros _. split_and!; [done|done| |done|done]. lia.
  - split; [|done]. rewrite Hc, take_drop. done.
Qed.
Lemma tr_read_message cap avail : 0 ≤ cap →
  tr r (prvReadMessageFromBuffer b cap avail) (Rd [] (λ x, 0 ≤ avail ≤ count x)) (λ bs, Rd bs (λ _, True)).
Proof.
  intros Hcap. apply (tr_bind _ _ _ _ (λ v, Rd [] (λ x, 0 ≤ avail ≤ count x ∧ v.1 = xTail x ∧ v.2 = false))).
  { intros v. apply rd_stable. intros x x' _ _ HL Ht Hc _ (? & ? & ?). rewrite Ht. split_and!; (done || lia). }
  { apply tr_get. intros x T S R Hr Hs [HT Ha]. split; [done|]. split_and!; [lia|lia|done|done]. }
  intros [t m]. eapply (tr_pre _ _ (λ x T S R, Rd [] (λ x, 0 ≤ avail ≤ count x ∧ t = xTail x) x T S R ∧ m = false)).
  { intros x T S R _ (HT & ? & ? & ?). done. }
  apply tr_pure; [apply _|]. intros ->.
  apply (tr_bind _ _ _ _ (λ v : Z * Z * Z, λ x T S R, Rd [] (λ x, 0 ≤ avail ≤ count x ∧ t = xTail x) x T S R ∧ v = (cap, t, avail))).
  { intros v x T S R x' T' S' R' Hr Hr' He [HR ?]. split; [|done]. eapply (rd_stable [] (λ x, 0 ≤ avail ≤ count x ∧ t = xTail x)); [|exact Hr|exact Hr'|exact He|exact HR].
    clear. intros x x' _ _ HL Ht Hc _ (? & ?). rewrite Ht. split_and!; (done || lia). }
  { by apply tr_ret. }
  intros v. apply tr_pure; [apply _|]. intros ->. cbv beta iota zeta. set (n := Z.min cap avail). destruct (Z.eqb_spec n 0) as [Hn|Hn]; simpl negb; cbn iota.
  { apply tr_ret. by intros x T S R _ [HT _]. }
  apply (tr_bind _ _ _ _ (λ v, Rd [] (λ x, v.2 = (xTail x + n) mod xLength x ∧ Got n n v.1 x))).
  { intros v. apply (got_stable (λ tl len, v.2 = (tl + n) mod len)). }
  { eapply tr_pre; [|apply tr_read]. intros x T S R Hr (HT & Ha & ->). split; [done|]. split; [done|]. lia. }
  intros [bs t']. cbn [fst snd]. apply (tr_bind _ _ _ _ (λ _, Rd bs (λ _, True))); [intros _; by apply rd_stable|apply tr_consume|].
  intros _. by apply tr_ret.
Qed.
Lemma tr_receive n : 0 ≤ n →
  tr r (xStreamBufferReceive b true n 0) (Rd [] (λ _, True)) (λ bs, Rd bs (λ _, True)).
Proof.
  intros Hn. apply (tr_bind _ _ _ _ (λ _, Rd [] (λ _, True))); [intros _; by apply rd_stable| |intros least].
  { apply tr_any. intros s x Hx Hok. apply wp_bind, wp_assert; [done|]. apply wp_bind, wp_sb_assert. by eapply wp_sb_get. }
  apply (tr_bind _ _ _ _ (λ n, Rd [] (λ x, 0 ≤ n ≤ count x))); [|apply tr_bytes|intros avail].
  { intros v. apply rd_stable. intros. lia. }
  destruct (least <? avail); [|apply tr_ret; by intros x T S R _ [? _]].
  apply (tr_bind _ _ _ _ (λ bs, Rd bs (λ _, True))); [intros bs; by apply rd_stable|by apply tr_read_message|intros bs].
  apply (tr_bind _ _ _ _ (λ _, Rd bs (λ _, True))); [intros _; by apply rd_stable| |intros _; by apply tr_ret].
  destruct (Z.of_nat (length bs) =? 0); [by apply tr_ret|]. apply tr_notify; [by apply rd_stable|]. by intros x [].
Qed.

(** ** The machine *)

(** Outside the calls: all bytes were accepted, and they are the delivered ones
    and the content. *)
Definition Rest (t : Z) : fact := λ x T S R, (t = w → T = S) ∧ (t = r → T = R ++ content x).
Definition whome (t : Z) (W : world) : Prop := holds_at (khome t) (Rest t) W.
Lemma rest_stable t : bstable t (Rest t).
Proof.
  intros x T S R x' T' S' R' _ _ [_ Hw Hr] [HS HR]. split; intros ->.
  - destruct (Hw eq_refl) as (_ & _ & _ & -> & ->). auto.
  - destruct (Hr eq_refl) as (_ & -> & d & -> & ->). by rewrite HR, app_assoc.
Qed.
Lemma whome_stable t : stable winv wenv t (whome t).
Proof. apply stable_holds; [intros ??; apply khome_stable|apply rest_stable]. Qed.
Lemma writer_rest x T S R : Rest w x T S R ↔ Wr [] (λ _, True) x T S R.
Proof. unfold Rest, Wr. rewrite app_nil_r. intuition congruence. Qed.
Lemma reader_rest x T S R : Rest r x T S R ↔ Rd [] (λ _, True) x T S R.
Proof. unfold Rest, Rd. simpl. intuition congruence. Qed.

(** The notes of the callers *)
Lemma safe_sent d :
  wsafe w (Atomic (modify (λ W, W <| w_sent ::= λ S, S ++ d |>))) (holds_at (khome w) (Wr d (λ _, True))) (λ _, whome w).
Proof.
  intros W ((Hk & HS & HR) & y & Hy & Hok) _ (HK & x & Hx & HT & _). apply wp_modify. split; [split|].
  - split; [split_and!; [done|simpl; by rewrite HT|done]|]. by exists y.
  - intros u Hu. split; [apply kenv_refl|]. simpl. intros z Hz. exists z. split; [done|]. split; [done|done|].
    intros _. split_and!; [done|done|]. exists []. by rewrite !app_nil_r.
  - split; [done|]. exists x. split; [done|]. by split.
Qed.
Lemma safe_received d :
  wsafe r (Atomic (modify (λ W, W <| w_received ::= λ R, R ++ d |>))) (holds_at (khome r) (Rd d (λ _, True))) (λ _, whome r).
Proof.
  intros W ((Hk & HS & HR) & y & Hy & Hok) _ (HK & x & Hx & HT & _). apply wp_modify. split; [split|].
  - split; [split_and!; [done|done|simpl; rewrite HT, app_assoc; by apply prefix_app_r]|]. by exists y.
  - intros u Hu. split; [apply kenv_refl|]. simpl. intros z Hz. exists z. split; [done|]. split; [done|done|done].
  - split; [done|]. exists x. split; [done|]. simpl. split; [done|]. intros _. simpl. by rewrite HT, app_assoc.
Qed.
Lemma scalls_safe t c W : winv W → sruns t W → whome t W → scall_enabled w r t c W →
  ∃ P, stable winv wenv t P ∧ P W ∧ wsafe t (scode b c) P (λ _, whome t).
Proof.
  intros Hinv Hrun Hh Hen. exists (whome t). split_and!; [apply whome_stable|done|]. destruct c as [data|n|]; simpl in Hen.
  - destruct Hen as [-> Hlen]. exists (λ n, holds_at (khome w) (Wr (take (Z.to_nat n) data) (λ _, True))). split_and!.
    + intros n. apply stable_holds; [intros ??; apply khome_stable|]. apply wr_stable. by intros.
    + eapply tr_pre; [|by apply tr_send]. intros x T S R _. apply writer_rest.
    + intros n. apply safe_sent.
  - destruct Hen as [-> Hn]. exists (λ bs, holds_at (khome r) (Rd bs (λ _, True))). split_and!.
    + intros bs. apply stable_holds; [intros ??; apply khome_stable|by apply rd_stable].
    + eapply tr_pre; [|apply tr_receive; lia]. intros x T S R _. apply reader_rest.
    + intros bs. apply safe_received.
  - apply safe_kernel. intros k [Hk Hs] Hc Hp Hkh. destruct (Hkh Hc) as [Hs0 _]. apply wp_portYIELD.
    split; [split; [by destruct Hk as (v & Hv & Hd); exists v|done]|]. split; [done|]. intros _. split; [done|by left].
Qed.
Lemma sirqs_safe i W : winv W → sirq_enabled i W →
  wp (shandler b i) (λ _ W', winv W' ∧ ∀ t, wenv t W W') W.
Proof.
  intros ((Hk & HS & HR) & x & Hx & Hok) _.
  assert (∀ m : K unit, (wp m (λ _ k', kernel_inv idle k' ∧ ∀ t, kenv t (s_kernel (w_sys W)) k') (s_kernel (w_sys W))) →
    wp (traced b (sker m)) (λ _ W', winv W' ∧ ∀ t, wenv t W W') W) as Hm.
  { intros m Hm. apply wp_traced, (wp_zoom s_kernel). eapply wp_mono; [exact Hm|]. intros a k' [Hk' He].
    assert (committed_in b (w_sys W) ((w_sys W) <| s_kernel := k' |>) = []) as Hcm.
    { unfold committed_in. simpl. rewrite Hx. by apply committed_none. }
    rewrite Hcm, app_nil_r. split.
    - split; [split_and!; done|]. by exists x.
    - intros t. split; [apply He|]. simpl. intros z Hz. exists z. split; [done|apply benv_refl]. }
  destruct i; apply Hm; [by apply (kernel_tick idle)|by apply (kernel_switch idle)].
Qed.

Abbreviation wstep := (mstep sruns (shandler b) sirq_enabled (scode b) (scall_enabled w r)).
Lemma stream_machine_safe W c : winv W → (∀ t, whome t W) → rtc wstep (mkConf W ∅) c →
  conf_ok sruns winv wenv whome c ∧ no_failure sruns (shandler b) sirq_enabled c.
Proof.
  intros Hinv Hh. apply machine_safe; [apply wenv_refl|apply whome_stable|apply scalls_safe|apply sirqs_safe|].
  split; [done|]. intros t. simpl. rewrite lookup_empty. apply Hh.
Qed.
(** Both at rest: what was received and what is left is what was accepted. *)
Lemma stream_at_rest c : conf_ok sruns winv wenv whome c → at_rest c w → at_rest c r →
  ∃ x, s_bufs (w_sys (c_state c)) !! b = Some x ∧ w_sent (c_state c) = w_received (c_state c) ++ content x.
Proof.
  intros Hc Hw Hr. destruct (conf_ok_rest _ _ _ _ c w Hc Hw) as (_ & x & Hx & HS & _).
  destruct (conf_ok_rest _ _ _ _ c r Hc Hr) as (_ & y & Hy & _ & HR). assert (y = x) as -> by congruence.
  exists x. split; [done|]. rewrite <- HS by done. by apply HR.
Qed.

End safe.
