(* ===== verification/StreamProps.v ===== *)
(** * What a stream buffer promises its writer and its reader *)
From S2P Require Import Prelude KList Tasks TasksInv TasksOps TasksMachine TasksDetach Prog Queue QueueExample.
From S2P Require Import QueueOps QueueMachine SchedLock Heap4 StreamBuffer StreamRing StreamMachine StreamSafe.

(** ** The machine from an empty buffer *)

(** An empty buffer at [b], nothing sent. *)
Record sb_start (idle b : Z) (W : world) (x : StreamBuffer_t) : Prop := {
  st_kernel : kernel_inv idle (s_kernel (w_sys W));
  st_home : ∀ t, khome t (s_kernel (w_sys W));
  st_buffer : s_bufs (w_sys W) !! b = Some x;
  st_ok : buffer_ok x;
  st_empty : xHead x = xTail x;
  st_histories : w_total W = [] ∧ w_sent W = [] ∧ w_received W = []
}.
Abbreviation sbstep w r b := (mstep sruns (shandler b) sirq_enabled (scode b) (scall_enabled w r)).
Abbreviation sb_no_failure b := (no_failure sruns (shandler b) sirq_enabled).

Section props.
Context (idle b w r : Z).

Lemma start_inv W x : sb_start idle b W x → winv idle b W ∧ ∀ t, whome b w r t W.
Proof.
  intros [Hk Hh Hx Hok He (HT & HS & HR)]. split.
  - split; [rewrite HT, HS, HR; by split_and!|]. by exists x.
  - intros t. split; [apply Hh|]. exists x. split; [done|]. rewrite HT, HS, HR. split; [done|]. intros _.
    unfold content. by rewrite seg_none by (unfold count; rewrite He, Z.sub_diag, Zmod_0_l; lia).
Qed.

(** C39: one writer and one reader that do not wait need no lock.  Task [w] sends to a plain stream buffer
    and task [r] receives from it, both with [xTicksToWait] 0, so that no task is ever noted in the buffer as
    waiting; the tick, the context switch and other tasks that only yield come in between any two accesses to
    the shared fields.  No assertion fails and no copy
    leaves the storage; the bytes that [xStreamBufferReceive] has delivered are at any time an initial part of
    the bytes that the head was moved over, and so are those that [xStreamBufferSend] has reported as written;
    and whenever neither call is under way, the bytes delivered and then the bytes between tail and head are
    exactly the bytes reported as written: none is lost, repeated, altered or out of order. *)
Theorem stream_buffer_spsc W x c : w ≠ r → b ≠ 0 → sb_start idle b W x →
  rtc (sbstep w r b) (mkConf W ∅) c →
  sb_no_failure b c ∧
  w_received (c_state c) `prefix_of` w_total (c_state c) ∧ w_sent (c_state c) `prefix_of` w_total (c_state c) ∧
  (at_rest c w → at_rest c r → ∃ x', s_bufs (w_sys (c_state c)) !! b = Some x' ∧
     w_sent (c_state c) = w_received (c_state c) ++ content x').
Proof.
  intros Hwr Hb Hst Hsteps. destruct (start_inv W x Hst) as [Hinv Hh].
  destruct (stream_machine_safe idle b w r Hwr Hb W c Hinv Hh Hsteps) as [Hc Hnf].
  split; [done|]. pose proof Hc as [((_ & HS & HR) & _) _]. split_and!; [done|done|].
  intros Hw Hr. by apply (stream_at_rest idle b w r).
Qed.
End props.

(** ** Witness *)

(** A task's call, step by step while it has the processor. *)
Fixpoint run_call (n : nat) (t : Z) (W : world) (p : prog world unit) : option (world * prog world unit) :=
  match n, is_ret p with
  | S n, None =>
      if decide (sruns t W) then
        match step p W with ROk (p', W') => run_call n t W' p' | _ => None end
      else None
  | _, _ => Some (W, p)
  end.
Lemma run_call_steps w r b t n P : ∀ W p W' p', run_call n t W p = Some (W', p') →
  rtc (sbstep w r b) (mkConf W (<[t := p]> P)) (mkConf W' (<[t := p']> P)).
Proof.
  induction n as [|n IH]; intros W p W' p' He; simpl in He; [by simplify_eq|].
  destruct (is_ret p) as [u|]; [by simplify_eq|]. destruct (decide (sruns t W)) as [Hr|]; [|done].
  destruct (step p W) as [[p1 W1]| | | |] eqn:Hs; [|done..]. eapply rtc_l; [|by apply IH].
  replace (<[t := p1]> P) with (<[t := p1]> (<[t := p]> P)) by apply insert_insert_eq.
  eapply ms_task; [done|by apply lookup_insert_eq|done].
Qed.
Definition ex_stream_sys : ssys :=
  final (xStreamBufferGenericCreateStatic 8 1 sbTYPE_STREAM_BUFFER 6000 5000) (mkSsys (q_kernel ex_queues) ∅).
Definition ex_stream : world := mkWorld ex_stream_sys [] [] [].
Definition ex_stream_buffer : StreamBuffer_t := default (mkStreamBuffer 0 0 0 0 0 0 0 0 0 0 []) (s_bufs ex_stream_sys !! 5000).
Definition ex_send : world * prog world unit :=
  default (ex_stream, scode 5000 (SSend [7; 8; 9])) (run_call 100 4 ex_stream (scode 5000 (SSend [7; 8; 9]))).
Example ex_send_run : (w_sent ex_send.1, content <$> s_bufs (w_sys ex_send.1) !! 5000, is_ret ex_send.2, w_total ex_send.1) =
  ([7; 8; 9], Some [7; 8; 9], Some tt, [7; 8; 9]).
Proof. by vm_compute. Qed.
Lemma ex_stream_kernel : s_kernel (w_sys ex_stream) = q_kernel ex_queues.
Proof. by vm_compute. Qed.
Lemma ex_kernel_inv : kernel_inv 1 (q_kernel ex_queues).
Proof. split; [exact (qg_kernel _ _ ex_queues_good)|by vm_compute]. Qed.
Lemma ex_buffer_ok : buffer_ok ex_stream_buffer.
Proof. by vm_compute. Qed.
Lemma ex_stream_start : sb_start 1 5000 ex_stream ex_stream_buffer.
Proof.
  split; [rewrite ex_stream_kernel; exact ex_kernel_inv|intros t; rewrite ex_stream_kernel; exact (ex_queues_home t)|
    by vm_compute|exact ex_buffer_ok|by vm_compute|by split_and!].
Qed.
Lemma ex_send_steps : rtc (sbstep 4 3 5000) (mkConf ex_stream ∅) (mkConf ex_send.1 (<[4 := ex_send.2]> ∅)).
Proof.
  eapply rtc_l; [apply (ms_call _ _ _ _ _ 4 (SSend [7; 8; 9])); [by vm_compute|done|by split]|].
  apply (run_call_steps 4 3 5000 4 100 ∅). by vm_compute.
Qed.
Lemma stream_buffer_spsc_witness : ∃ x', s_bufs (w_sys ex_send.1) !! 5000 = Some x' ∧
  w_sent ex_send.1 = w_received ex_send.1 ++ content x' ∧ w_sent ex_send.1 = [7; 8; 9].
Proof.
  destruct (stream_buffer_spsc 1 5000 4 3 ex_stream ex_stream_buffer _ ltac:(lia) ltac:(lia) ex_stream_start ex_send_steps)
    as (_ & _ & _ & Hrest).
  destruct Hrest as (x' & Hx' & Hs); [vm_compute; by exists tt|by vm_compute|]. exists x'. split; [exact Hx'|]. split; [exact Hs|].
  by vm_compute.
Defined.
