(* ===== verification/Timers.v ===== *)
(** * Software timers (src/FreeRTOS/Source/timers.c)

    Timers are run by a task of their own, the daemon: other tasks and interrupts
    send it commands through a queue, and it alone works on the two lists of
    active timers, one for the expiry times before the tick counter wraps and one
    for those after.  The functions of the application that timers and pended
    calls run are parameters ([callback], [pended]): programs on the state of
    this file, by the address of the function. *)
From S2P Require Import Prelude KList Tasks Prog Queue SchedLock Heap4 QueueMgmt TaskLife.

(** ** State *)
Inductive timer_list := xActiveTimerList1 | xActiveTimerList2.
#[global] Instance timer_list_eq_dec : EqDecision timer_list.
Proof. solve_decision. Defined.
#[global] Instance timer_list_countable : Countable timer_list.
Proof.
  apply (inj_countable' (λ l, match l with xActiveTimerList1 => true | _ => false end)
    (λ b, if b : bool then xActiveTimerList1 else xActiveTimerList2)). by intros [].
Defined.
(** The items of the lists: [xTimerListItem] of the timer at an address. *)
Abbreviation timer_lists := (list_store (I:=Z) (L:=timer_list)).

Record Timer_t := mkTimer {
  pcTimerName : Z;
  xTimerPeriodInTicks : Z;
  pvTimerID : Z;
  pxCallbackFunction : Z;
  uxTimerNumber : Z;
  t_ucStatus : Z
}.
#[global] Instance eta_Timer : Eta Timer_t := λ t,
  mkTimer (pcTimerName t) (xTimerPeriodInTicks t) (pvTimerID t) (pxCallbackFunction t) (uxTimerNumber t) (t_ucStatus t).

(** The kernel with the queues and the heap, and the variables of timers.c;
    [xLastTime] is the static variable of [prvSampleTimeNow]. *)
Record tmsys := mkTmsys {
  tm_sys : guarded qsys heap;
  tm_timers : gmap Z Timer_t;
  tm_lists : timer_lists;
  pxCurrentTimerList : option timer_list;
  pxOverflowTimerList : option timer_list;
  xTimerQueue : Z;
  xTimerTaskHandle : Z;
  xLastTime : Z
}.
#[global] Instance eta_tmsys : Eta tmsys := λ s,
  mkTmsys (tm_sys s) (tm_timers s) (tm_lists s) (pxCurrentTimerList s) (pxOverflowTimerList s) (xTimerQueue s)
    (xTimerTaskHandle s) (xLastTime s).

Abbreviation TM := (M tmsys).
Abbreviation TP := (prog tmsys).

(** Where the linker puts the static variables and two functions of
    event_groups.c. *)
Class TimerLayout := {
  xStaticTimerQueue : Z;
  ucStaticTimerQueueStorage : Z;
  xTimerTaskTCB : Z;
  uxTimerTaskStack : Z;
  vEventGroupSetBitsCallback_address : Z;
  vEventGroupClearBitsCallback_address : Z
}.

(** ** Constants *)
Definition tmrMAX_TIME_BEFORE_OVERFLOW : Z := 4294967295.
Definition tmrNO_DELAY : Z := 0.
Definition tmrSTATUS_IS_ACTIVE : Z := 1.
Definition tmrSTATUS_IS_STATICALLY_ALLOCATED : Z := 2.
Definition tmrSTATUS_IS_AUTORELOAD : Z := 4.
Definition tmrCOMMAND_EXECUTE_CALLBACK_FROM_ISR : Z := -2.
Definition tmrCOMMAND_EXECUTE_CALLBACK : Z := -1.
Definition tmrCOMMAND_START_DONT_TRACE : Z := 0.
Definition tmrCOMMAND_START : Z := 1.
Definition tmrCOMMAND_RESET : Z := 2.
Definition tmrCOMMAND_STOP : Z := 3.
Definition tmrCOMMAND_CHANGE_PERIOD : Z := 4.
Definition tmrCOMMAND_DELETE : Z := 5.
Definition tmrFIRST_FROM_ISR_COMMAND : Z := 6.
Definition tmrCOMMAND_START_FROM_ISR : Z := 6.
Definition tmrCOMMAND_RESET_FROM_ISR : Z := 7.
Definition tmrCOMMAND_STOP_FROM_ISR : Z := 8.
Definition tmrCOMMAND_CHANGE_PERIOD_FROM_ISR : Z := 9.
Definition configTIMER_TASK_PRIORITY : Z := configMAX_PRIORITIES - 4.
Definition configTIMER_QUEUE_LENGTH : Z := 20.
(** [sizeof( DaemonTaskMessage_t )] and [sizeof( Timer_t )] of the 32-bit target *)
Definition sizeof_DaemonTaskMessage_t : Z := 16.
Definition sizeof_Timer_t : Z := 44.

(** ** Access to the state *)
Definition tsys {A} (m : QHM A) : TM A := zoom tm_sys (λ g s, s <| tm_sys := g |>) m.
Definition tsysP {A} (p : QHP A) : TP A := zoomP tm_sys (λ g s, s <| tm_sys := g |>) p.
Definition tker {A} (m : K A) : TM A := tsys (on_kernel m).
Definition tl {A} (m : M timer_lists A) : TM A := zoom tm_lists (λ l s, s <| tm_lists := l |>) m.
Definition tm_get {A} (t : Z) (f : Timer_t → A) : TM A :=
  let* s := getM in derefM (f <$> tm_timers s !! t).
Definition tm_set (t : Z) (f : Timer_t → Timer_t) : TM unit :=
  let* s := getM in
  match tm_timers s !! t with
  | None => faultM
  | Some x => modify (λ s, s <| tm_timers ::= <[t := f x]> |>)
  end.
Definition current_list : TM timer_list := let* s := getM in derefM (pxCurrentTimerList s).
Definition overflow_list : TM timer_list := let* s := getM in derefM (pxOverflowTimerList s).
Definition assert_timer (t : Z) : TM unit := configASSERT (negb (t =? 0)).
Definition is_autoreload (status : Z) : bool := negb (Z.land status tmrSTATUS_IS_AUTORELOAD =? 0).
Definition is_static_timer (status : Z) : bool := negb (Z.land status tmrSTATUS_IS_STATICALLY_ALLOCATED =? 0).
Definition is_active (status : Z) : bool := negb (Z.land status tmrSTATUS_IS_ACTIVE =? 0).

(** ** Messages to the daemon

    [DaemonTaskMessage_t]: the identifier and a union of two or three words.  A
    timer command leaves the last word as it was on the sender's stack ([rest]). *)
Definition timer_message (xMessageID xMessageValue pxTimer rest : Z) : list Z :=
  ptr_bytes (wrap32 xMessageID) ++ ptr_bytes xMessageValue ++ ptr_bytes pxTimer ++ ptr_bytes rest.
Definition callback_message (xMessageID pxCallbackFunction pvParameter1 ulParameter2 : Z) : list Z :=
  ptr_bytes (wrap32 xMessageID) ++ ptr_bytes pxCallbackFunction ++ ptr_bytes pvParameter1 ++ ptr_bytes ulParameter2.
Definition message_word (i : nat) (m : list Z) : Z := ptr_of_bytes (take 4 (drop (4 * i) m)).
(** [BaseType_t] is signed. *)
Definition message_id (m : list Z) : Z :=
  let z := message_word 0 m in if z <? 2 ^ 31 then z else z - 2 ^ 32.

Section timers.
Context `{HeapLayout} `{TimerLayout}.

(** ** Initialisation *)

(** What the static memory of the queue holds: zero after start-up. *)
Definition static_queue (s : tmsys) : Queue_t :=
  default (mkQueue 0 0 0 0 0 0 0 0 0 0 0 0 0
    (replicate (Z.to_nat (configTIMER_QUEUE_LENGTH * sizeof_DaemonTaskMessage_t)) 0))
    (q_objs (g_sched (tm_sys s)) !! xStaticTimerQueue).
Definition prvCheckForValidListAndQueue : TM unit :=
  let* s := getM in
  when xTimerQueue s =? 0 then
    (tl (vListInitialise xActiveTimerList1) ;>
     tl (vListInitialise xActiveTimerList2) ;>
     modify (λ s, s <| pxCurrentTimerList := Some xActiveTimerList1 |> <| pxOverflowTimerList := Some xActiveTimerList2 |>) ;>
     let* q := tsys (on_sched (xQueueGenericCreateStatic configTIMER_QUEUE_LENGTH sizeof_DaemonTaskMessage_t
                 ucStaticTimerQueueStorage (q_storage (static_queue s)) xStaticTimerQueue (static_queue s) queueQUEUE_TYPE_BASE)) in
     modify (λ s, s <| xTimerQueue := q |>) ;>
     when negb (q =? 0) then tsys (on_sched (vQueueAddToRegistry q (Some "TmrQ"%string)))).

(** [vApplicationGetTimerTaskMemory] of main.c gives two static variables. *)
Definition xTimerCreateTimerTask : TM bool :=
  prvCheckForValidListAndQueue ;>
  let* s := getM in
  let* xReturn :=
    (if negb (xTimerQueue s =? 0) then
       let* h := tker (xTaskCreateStatic configTIMER_TASK_PRIORITY uxTimerTaskStack xTimerTaskTCB) in
       modify (λ s, s <| xTimerTaskHandle := handle_of h |>) ;>
       retM (bool_decide (is_Some h))
     else retM false) in
  configASSERT xReturn ;>
  retM xReturn.
Definition vTimerResetState : TM unit := modify (λ s, s <| xTimerQueue := 0 |> <| xTimerTaskHandle := 0 |>).

(** The memory at an address becomes a [Timer_t]. *)
Definition place_timer (t : Z) (raw : Timer_t) (value : Z) : TM unit :=
  modify (λ s, s <| tm_timers ::= <[t := raw]> |>
    <| tm_lists ::= λ l, l <| ls_items ::= <[t := mkListItem value None None None None]> |> |>).
Definition raw_timer (m : gmap Z Z) (a : Z) : Timer_t :=
  mkTimer (word m a) (word m (a + 24)) (word m (a + 28)) (word m (a + 32)) (word m (a + 36)) (peek m (a + 40)).

Definition prvInitialiseNewTimer (name period : Z) (xAutoReload : bool) (id function pxNewTimer : Z) : TM unit :=
  configASSERT (0 <? period) ;>
  prvCheckForValidListAndQueue ;>
  tm_set pxNewTimer (λ t, t <| pcTimerName := name |>) ;>
  tm_set pxNewTimer (λ t, t <| xTimerPeriodInTicks := period |>) ;>
  tm_set pxNewTimer (λ t, t <| pvTimerID := id |>) ;>
  tm_set pxNewTimer (λ t, t <| pxCallbackFunction := function |>) ;>
  tl (vListInitialiseItem pxNewTimer) ;>
  when xAutoReload then tm_set pxNewTimer (λ t, t <| t_ucStatus ::= λ x, Z.lor x tmrSTATUS_IS_AUTORELOAD |>).
Definition xTimerCreate (name period : Z) (xAutoReload : bool) (id function : Z) : TM Z :=
  let* pxNewTimer := tsys (pvPortMalloc sizeof_Timer_t) in
  (when negb (pxNewTimer =? 0) then
     (let* s := getM in
      let m := h_mem (g_data (tm_sys s)) in
      place_timer pxNewTimer (raw_timer m pxNewTimer) (word m (pxNewTimer + 4)) ;>
      tm_set pxNewTimer (λ t, t <| t_ucStatus := 0 |>) ;>
      prvInitialiseNewTimer name period xAutoReload id function pxNewTimer)) ;>
  retM pxNewTimer.
(** [raw], [value]: what the given memory holds. *)
Definition xTimerCreateStatic (name period : Z) (xAutoReload : bool) (id function pxTimerBuffer : Z)
    (raw : Timer_t) (value : Z) : TM Z :=
  configASSERT (negb (pxTimerBuffer =? 0)) ;>
  (when negb (pxTimerBuffer =? 0) then
     (place_timer pxTimerBuffer raw value ;>
      tm_set pxTimerBuffer (λ t, t <| t_ucStatus := tmrSTATUS_IS_STATICALLY_ALLOCATED |>) ;>
      prvInitialiseNewTimer name period xAutoReload id function pxTimerBuffer)) ;>
  retM pxTimerBuffer.

(** ** Commands *)
Definition xTimerGenericCommandFromTask (xTimer xCommandID xOptionalValue xTicksToWait rest : Z) : TP bool :=
  let! q := Atomic (gets xTimerQueue) in
  if negb (q =? 0) && negb (xTimer =? 0) then
    let xMessage := timer_message xCommandID xOptionalValue xTimer rest in
    Atomic (configASSERT (xCommandID <? tmrFIRST_FROM_ISR_COMMAND)) ;!
    if xCommandID <? tmrFIRST_FROM_ISR_COMMAND then
      let! state := Atomic (tker xTaskGetSchedulerState) in
      match state with
      | taskSCHEDULER_RUNNING => tsysP (onP (xQueueSendToBack q (Some xMessage) xTicksToWait))
      | _ => tsysP (onP (xQueueSendToBack q (Some xMessage) tmrNO_DELAY))
      end
    else Ret false
  else Ret false.
Definition xTimerGenericCommandFromISR (xTimer xCommandID xOptionalValue rest : Z)
    (pxHigherPriorityTaskWoken : option bool) : TM (bool * option bool) :=
  let* q := gets xTimerQueue in
  if negb (q =? 0) && negb (xTimer =? 0) then
    let xMessage := timer_message xCommandID xOptionalValue xTimer rest in
    configASSERT (tmrFIRST_FROM_ISR_COMMAND <=? xCommandID) ;>
    if tmrFIRST_FROM_ISR_COMMAND <=? xCommandID then
      tsys (on_sched (xQueueSendFromISR q (Some xMessage) pxHigherPriorityTaskWoken))
    else retM (false, pxHigherPriorityTaskWoken)
  else retM (false, pxHigherPriorityTaskWoken).

(** timers.h *)
Definition xTimerStart (xTimer ticks rest : Z) : TP bool :=
  let! now := Atomic (tker xTaskGetTickCount) in xTimerGenericCommandFromTask xTimer tmrCOMMAND_START now ticks rest.
Definition xTimerReset (xTimer ticks rest : Z) : TP bool :=
  let! now := Atomic (tker xTaskGetTickCount) in xTimerGenericCommandFromTask xTimer tmrCOMMAND_RESET now ticks rest.
Definition xTimerStop (xTimer ticks rest : Z) : TP bool :=
  xTimerGenericCommandFromTask xTimer tmrCOMMAND_STOP 0 ticks rest.
Definition xTimerChangePeriod (xTimer period ticks rest : Z) : TP bool :=
  xTimerGenericCommandFromTask xTimer tmrCOMMAND_CHANGE_PERIOD period ticks rest.
Definition xTimerDelete (xTimer ticks rest : Z) : TP bool :=
  xTimerGenericCommandFromTask xTimer tmrCOMMAND_DELETE 0 ticks rest.
Definition xTimerStartFromISR (xTimer rest : Z) (woken : option bool) : TM (bool * option bool) :=
  let* now := tker xTaskGetTickCount in xTimerGenericCommandFromISR xTimer tmrCOMMAND_START_FROM_ISR now rest woken.
Definition xTimerResetFromISR (xTimer rest : Z) (woken : option bool) : TM (bool * option bool) :=
  let* now := tker xTaskGetTickCount in xTimerGenericCommandFromISR xTimer tmrCOMMAND_RESET_FROM_ISR now rest woken.
Definition xTimerStopFromISR (xTimer rest : Z) (woken : option bool) : TM (bool * option bool) :=
  xTimerGenericCommandFromISR xTimer tmrCOMMAND_STOP_FROM_ISR 0 rest woken.
Definition xTimerChangePeriodFromISR (xTimer period rest : Z) (woken : option bool) : TM (bool * option bool) :=
  xTimerGenericCommandFromISR xTimer tmrCOMMAND_CHANGE_PERIOD_FROM_ISR period rest woken.

(** *** Calls deferred to the daemon *)
Definition xTimerPendFunctionCallFromISR (xFunctionToPend pvParameter1 ulParameter2 : Z)
    (woken : option bool) : TM (bool * option bool) :=
  let* q := gets xTimerQueue in
  tsys (on_sched (xQueueSendFromISR q
    (Some (callback_message tmrCOMMAND_EXECUTE_CALLBACK_FROM_ISR xFunctionToPend pvParameter1 ulParameter2)) woken)).
Definition xTimerPendFunctionCall (xFunctionToPend pvParameter1 ulParameter2 xTicksToWait : Z) : TP bool :=
  let! q := Atomic (let* q := gets xTimerQueue in configASSERT (negb (q =? 0)) ;> retM q) in
  tsysP (onP (xQueueSendToBack q
    (Some (callback_message tmrCOMMAND_EXECUTE_CALLBACK xFunctionToPend pvParameter1 ulParameter2)) xTicksToWait)).
(** event_groups.c *)
Definition xEventGroupClearBitsFromISR (xEventGroup uxBitsToClear : Z) : TM bool :=
  let* r := xTimerPendFunctionCallFromISR vEventGroupClearBitsCallback_address xEventGroup uxBitsToClear None in
  retM r.1.
Definition xEventGroupSetBitsFromISR (xEventGroup uxBitsToSet : Z) (woken : option bool) : TM (bool * option bool) :=
  xTimerPendFunctionCallFromISR vEventGroupSetBitsCallback_address xEventGroup uxBitsToSet woken.

(** ** Queries *)
Definition xTimerGetTimerDaemonTaskHandle : TM Z :=
  let* h := gets xTimerTaskHandle in configASSERT (negb (h =? 0)) ;> retM h.
Definition xTimerGetPeriod (xTimer : Z) : TM Z := assert_timer xTimer ;> tm_get xTimer xTimerPeriodInTicks.
Definition vTimerSetReloadMode (xTimer : Z) (xAutoReload : bool) : TM unit :=
  assert_timer xTimer ;>
  (if xAutoReload then tm_set xTimer (λ t, t <| t_ucStatus ::= λ x, Z.lor x tmrSTATUS_IS_AUTORELOAD |>)
   else tm_set xTimer (λ t, t <| t_ucStatus ::= λ x, Z.land x (255 - tmrSTATUS_IS_AUTORELOAD) |>)).
Definition xTimerGetReloadMode (xTimer : Z) : TM bool := assert_timer xTimer ;> tm_get xTimer (λ t, is_autoreload (t_ucStatus t)).
Definition uxTimerGetReloadMode (xTimer : Z) : TM Z :=
  let* b := xTimerGetReloadMode xTimer in retM (if b then 1 else 0).
Definition xTimerGetExpiryTime (xTimer : Z) : TM Z := assert_timer xTimer ;> tl (listGET_LIST_ITEM_VALUE xTimer).
Definition xTimerGetStaticBuffer (xTimer : Z) : TM (option Z) :=
  tm_get xTimer (λ t, if is_static_timer (t_ucStatus t) then Some xTimer else None).
Definition pcTimerGetName (xTimer : Z) : TM Z := assert_timer xTimer ;> tm_get xTimer pcTimerName.
Definition xTimerIsTimerActive (xTimer : Z) : TM bool := assert_timer xTimer ;> tm_get xTimer (λ t, is_active (t_ucStatus t)).
Definition pvTimerGetTimerID (xTimer : Z) : TM Z := assert_timer xTimer ;> tm_get xTimer pvTimerID.
Definition vTimerSetTimerID (xTimer pvNewID : Z) : TM unit := assert_timer xTimer ;> tm_set xTimer (λ t, t <| pvTimerID := pvNewID |>).
Definition uxTimerGetTimerNumber (xTimer : Z) : TM Z := tm_get xTimer uxTimerNumber.
Definition vTimerSetTimerNumber (xTimer n : Z) : TM unit := tm_set xTimer (λ t, t <| uxTimerNumber := n |>).

(** ** The daemon *)
Context (callback : Z → Z → TP unit) (pended : Z → Z → Z → TP unit).

(** The daemon changes [ucStatus] without a critical section: it reads it and then
    writes it. *)
Definition change_status (t : Z) (f : Z → Z) : TP unit :=
  let! status := Atomic (tm_get t t_ucStatus) in
  Atomic (tm_set t (λ x, x <| t_ucStatus := f status |>)).
Definition set_active (t : Z) : TP unit := change_status t (λ x, Z.lor x tmrSTATUS_IS_ACTIVE).
Definition clear_active (t : Z) : TP unit := change_status t (λ x, Z.land x (255 - tmrSTATUS_IS_ACTIVE)).
(** [pxTimer->pxCallbackFunction( pxTimer )] *)
Definition call_callback (t : Z) : TP unit :=
  let! f := Atomic (tm_get t pxCallbackFunction) in callback f t.

(** Answers whether the timer has expired already; else it is in a list. *)
Definition prvInsertTimerInActiveList (pxTimer xNextExpiryTime xTimeNow xCommandTime : Z) : TM bool :=
  tl (listSET_LIST_ITEM_VALUE pxTimer xNextExpiryTime) ;>
  tl (listSET_LIST_ITEM_OWNER pxTimer pxTimer) ;>
  if xNextExpiryTime <=? xTimeNow then
    let* period := tm_get pxTimer xTimerPeriodInTicks in
    if period <=? wrap32 (xTimeNow - xCommandTime) then retM true
    else let* l := overflow_list in tl (vListInsert l pxTimer) ;> retM false
  else if (xTimeNow <? xCommandTime) && (xCommandTime <=? xNextExpiryTime) then retM true
  else let* l := current_list in tl (vListInsert l pxTimer) ;> retM false.

(** The test of the loop of [prvReloadTimer]. *)
Definition reload_one (pxTimer xExpiredTime xTimeNow : Z) : TM bool :=
  let* period := tm_get pxTimer xTimerPeriodInTicks in
  prvInsertTimerInActiveList pxTimer (wrap32 (xExpiredTime + period)) xTimeNow xExpiredTime.
Definition prvReloadTimer (pxTimer xExpiredTime xTimeNow : Z) : TP unit :=
  Loop (λ xExpiredTime,
    let! again := Atomic (reload_one pxTimer xExpiredTime xTimeNow) in
    if again then
      let! period := Atomic (tm_get pxTimer xTimerPeriodInTicks) in
      call_callback pxTimer ;!
      Ret (inl (wrap32 (xExpiredTime + period)))
    else Ret (inr tt)) xExpiredTime.

(** The first timer of the current list, taken out. *)
Definition take_expired : TM Z :=
  let* l := current_list in
  let* pxTimer := tl (listGET_OWNER_OF_HEAD_ENTRY l) in
  let* _ := tl (uxListRemove pxTimer) in
  retM pxTimer.
Definition prvProcessExpiredTimer (xNextExpireTime xTimeNow : Z) : TP unit :=
  let! pxTimer := Atomic take_expired in
  let! status := Atomic (tm_get pxTimer t_ucStatus) in
  (if is_autoreload status then prvReloadTimer pxTimer xNextExpireTime xTimeNow else clear_active pxTimer) ;!
  call_callback pxTimer.

(** The expiry time of the first timer of the current list, if it has one. *)
Definition next_expiry : TM (option Z) :=
  let* l := current_list in
  let* empty := tl (listLIST_IS_EMPTY l) in
  if empty then retM None else let* v := tl (listGET_ITEM_VALUE_OF_HEAD_ENTRY l) in retM (Some v).
Definition prvSwitchTimerLists : TP unit :=
  Loop (λ _ : unit,
    let! next := Atomic next_expiry in
    match next with
    | Some xNextExpireTime => prvProcessExpiredTimer xNextExpireTime tmrMAX_TIME_BEFORE_OVERFLOW ;! Ret (inl tt)
    | None => Ret (inr tt)
    end) tt ;!
  Atomic (modify (λ s, s <| pxCurrentTimerList := pxOverflowTimerList s |> <| pxOverflowTimerList := pxCurrentTimerList s |>)).

(** Answers the time and whether the lists were switched. *)
Definition prvSampleTimeNow : TP (Z * bool) :=
  let! xTimeNow := Atomic (tker xTaskGetTickCount) in
  let! last := Atomic (gets xLastTime) in
  let! switched := (if xTimeNow <? last then prvSwitchTimerLists ;! Ret true else Ret false) in
  Atomic (modify (λ s, s <| xLastTime := xTimeNow |>)) ;!
  Ret (xTimeNow, switched).

(** Answers the time and whether the current list is empty. *)
Definition prvGetNextExpireTime : TM (Z * bool) :=
  let* next := next_expiry in
  retM (match next with Some v => (v, false) | None => (0, true) end).

Definition prvProcessTimerOrBlockTask (xNextExpireTime : Z) (xListWasEmpty : bool) : TP unit :=
  Atomic (tker vTaskSuspendAll) ;!
  let! (xTimeNow, switched) := prvSampleTimeNow in
  if negb switched then
    if negb xListWasEmpty && (xNextExpireTime <=? xTimeNow) then
      let! _ := Atomic (tker xTaskResumeAll) in
      prvProcessExpiredTimer xNextExpireTime xTimeNow
    else
      let! xListWasEmpty :=
        (if xListWasEmpty then Atomic (let* l := overflow_list in tl (listLIST_IS_EMPTY l)) else Ret false) in
      let! q := Atomic (gets xTimerQueue) in
      tsysP (onP (vQueueWaitForMessageRestricted q (wrap32 (xNextExpireTime - xTimeNow)) xListWasEmpty)) ;!
      let! yielded := Atomic (tker xTaskResumeAll) in
      (if negb yielded then Atomic (tker portYIELD_WITHIN_API) else Ret tt)
  else
    let! _ := Atomic (tker xTaskResumeAll) in
    Ret tt.

(** [vPortFree( pxTimer )]: the timer is gone. *)
Definition free_timer (t : Z) : TM unit :=
  tsys (vPortFree t) ;>
  modify (λ s, s <| tm_timers ::= delete t |> <| tm_lists ::= λ l, l <| ls_items ::= delete t |> |>).
(** The timer leaves its list, if it is in one. *)
Definition detach_timer (t : Z) : TM unit :=
  let* c := tl (listLIST_ITEM_CONTAINER t) in
  when bool_decide (is_Some c) then let* _ := tl (uxListRemove t) in retM tt.

Definition start_timer (pxTimer xMessageValue xTimeNow : Z) : TP unit :=
  set_active pxTimer ;!
  let! expired := Atomic (
    let* period := tm_get pxTimer xTimerPeriodInTicks in
    prvInsertTimerInActiveList pxTimer (wrap32 (xMessageValue + period)) xTimeNow xMessageValue) in
  if expired then
    let! status := Atomic (tm_get pxTimer t_ucStatus) in
    (if is_autoreload status then
       let! period := Atomic (tm_get pxTimer xTimerPeriodInTicks) in
       prvReloadTimer pxTimer (wrap32 (xMessageValue + period)) xTimeNow
     else clear_active pxTimer) ;!
    call_callback pxTimer
  else Ret tt.
Definition change_period (pxTimer xMessageValue xTimeNow : Z) : TP unit :=
  set_active pxTimer ;!
  Atomic (
    tm_set pxTimer (λ t, t <| xTimerPeriodInTicks := xMessageValue |>) ;>
    configASSERT (0 <? xMessageValue) ;>
    let* _ := prvInsertTimerInActiveList pxTimer (wrap32 (xTimeNow + xMessageValue)) xTimeNow xTimeNow in
    retM tt).
Definition delete_timer (pxTimer : Z) : TP unit :=
  let! status := Atomic (tm_get pxTimer t_ucStatus) in
  if negb (is_static_timer status) then Atomic (free_timer pxTimer) else clear_active pxTimer.
Definition process_command (xMessageID xMessageValue pxTimer : Z) : TP unit :=
  if negb (pxTimer =? 0) then
    Atomic (detach_timer pxTimer) ;!
    let! (xTimeNow, _) := prvSampleTimeNow in
    if (xMessageID =? tmrCOMMAND_START) || (xMessageID =? tmrCOMMAND_START_FROM_ISR) ||
       (xMessageID =? tmrCOMMAND_RESET) || (xMessageID =? tmrCOMMAND_RESET_FROM_ISR) then
      start_timer pxTimer xMessageValue xTimeNow
    else if (xMessageID =? tmrCOMMAND_STOP) || (xMessageID =? tmrCOMMAND_STOP_FROM_ISR) then clear_active pxTimer
    else if (xMessageID =? tmrCOMMAND_CHANGE_PERIOD) || (xMessageID =? tmrCOMMAND_CHANGE_PERIOD_FROM_ISR) then
      change_period pxTimer xMessageValue xTimeNow
    else if xMessageID =? tmrCOMMAND_DELETE then delete_timer pxTimer
    else Ret tt
  else Ret tt.

Definition prvProcessReceivedCommands : TP unit :=
  Loop (λ _ : unit,
    let! q := Atomic (gets xTimerQueue) in
    let! xMessage := tsysP (onP (xQueueReceive q true tmrNO_DELAY)) in
    match xMessage with
    | None => Ret (inr tt)
    | Some m =>
        (if message_id m <? 0 then pended (message_word 1 m) (message_word 2 m) (message_word 3 m) else Ret tt) ;!
        (if 0 <=? message_id m then process_command (message_id m) (message_word 1 m) (message_word 2 m) else Ret tt) ;!
        Ret (inl tt)
    end) tt.

(** One turn of the endless loop of [prvTimerTask], and the loop. *)
Definition prvTimerTask_turn : TP unit :=
  let! (xNextExpireTime, xListWasEmpty) := Atomic prvGetNextExpireTime in
  prvProcessTimerOrBlockTask xNextExpireTime xListWasEmpty ;!
  prvProcessReceivedCommands.
Definition prvTimerTask : TP unit := Loop (λ _ : unit, prvTimerTask_turn ;! Ret (inl tt)) tt.
End timers.
