(* ===== verification/TimerOps.v ===== *)
(** * What the daemon does with an expired timer: rules

    The two lists of active timers as sorted lists; where [prvInsertTimerInActiveList]
    puts a timer whose times are taken modulo 2^32; how often [prvReloadTimer] goes
    round. *)
From S2P Require Import Prelude KList KListSpec KListProps Tasks Prog Queue SchedLock Heap4 QueueMgmt TaskLife Timers.

(** ** Times modulo 2^32 *)
Lemma wrap32_sum e p : u32 e → 0 ≤ p < MAX32 → wrap32 (e + p) = if e + p <? MAX32 then e + p else e + p - MAX32.
Proof.
  unfold u32. intros He Hp. destruct (Z.ltb_spec (e + p) MAX32); [apply wrap32_small; unfold u32; lia|apply wrap32_ge; lia].
Qed.
Lemma wrap32_diff a e : u32 a → u32 e → wrap32 (a - e) = if e <=? a then a - e else a - e + MAX32.
Proof.
  unfold u32. intros Ha He. destruct (Z.leb_spec e a); [apply wrap32_small; unfold u32; lia|apply wrap32_neg; lia].
Qed.
(** The tests of [prvInsertTimerInActiveList] together: has the period passed? *)
Lemma insert_tests e p now : u32 e → u32 now → 0 < p < MAX32 →
  (if wrap32 (e + p) <=? now then p <=? wrap32 (now - e) else (now <? e) && (e <=? wrap32 (e + p))) =
  (p <=? wrap32 (now - e)).
Proof.
  intros He Hn Hp. rewrite wrap32_sum, wrap32_diff by (done || lia). unfold u32, MAX32 in *.
  destruct (Z.ltb_spec (e + p) 4294967296), (Z.leb_spec e now);
    repeat match goal with |- context [?a <? ?b] => destruct (Z.ltb_spec a b) | |- context [?a <=? ?b] => destruct (Z.leb_spec a b) end;
    simpl; lia.
Qed.
(** One period on *)
Lemma elapsed_step e p now : u32 e → u32 now → 0 < p < MAX32 → p ≤ wrap32 (now - e) →
  wrap32 (now - wrap32 (e + p)) = wrap32 (now - e) - p.
Proof.
  intros He Hn Hp Hle. unfold wrap32 at 1 2. rewrite Zminus_mod_idemp_r.
  replace (now - (e + p)) with (now - e - p) by lia. rewrite <- Zminus_mod_idemp_l. fold MAX32.
  change ((now - e) mod MAX32) with (wrap32 (now - e)). apply Z.mod_small. pose proof (wrap32_u32 (now - e)) as Hu. unfold u32 in Hu. lia.
Qed.
Lemma elapsed_periods e p now : u32 e → u32 now → 0 < p < MAX32 → p ≤ wrap32 (now - e) →
  wrap32 (now - wrap32 (e + p)) / p = wrap32 (now - e) / p - 1 ∧
  wrap32 (now - wrap32 (e + p)) mod p = wrap32 (now - e) mod p.
Proof.
  intros He Hn Hp Hle. rewrite elapsed_step by done. split.
  - replace (wrap32 (now - e) - p) with (wrap32 (now - e) + (-1) * p) by lia. rewrite Z.div_add by lia. lia.
  - replace (wrap32 (now - e) - p) with (wrap32 (now - e) + (-1) * p) by lia. by rewrite Z.mod_add by lia.
Qed.
Lemma remaining_time e p now : u32 e → u32 now → 0 < p < MAX32 → wrap32 (now - e) < p →
  wrap32 (wrap32 (e + p) - now) = p - wrap32 (now - e).
Proof.
  intros He Hn Hp Hlt. unfold wrap32 at 1 2. rewrite Zminus_mod_idemp_l.
  replace (e + p - now) with (p - (now - e)) by lia. rewrite <- Zminus_mod_idemp_r. fold MAX32.
  change ((now - e) mod MAX32) with (wrap32 (now - e)). apply Z.mod_small. pose proof (wrap32_u32 (now - e)) as Hu. unfold u32 in Hu. lia.
Qed.

(** ** The lists of active timers *)
Abbreviation tval L := (val_of (I:=Z) (L:=timer_list) L).
Record timers_rep (L : timer_lists) (cur ovf : timer_list) (rc ro : list Z) : Prop := {
  tr_ne : cur ≠ ovf;
  tr_rep : rep L (<[cur := mkRing rc None]> {[ovf := mkRing ro None]});
  tr_cur_sorted : sorted_by (tval L) rc;
  tr_ovf_sorted : sorted_by (tval L) ro;
  tr_owner : ∀ t, t ∈ rc ∨ t ∈ ro → ownerOf L t = Some t
}.

Lemma value_present (L : timer_lists) t : is_Some (valueOf L (PItem t)) ↔ present L (PItem t) = true.
Proof. unfold valueOf, present. rewrite bool_decide_eq_true, fmap_is_Some. done. Qed.
Lemma same_items_present (L L' : timer_lists) t : same_items L L' → present L (PItem t) = true → present L' (PItem t) = true.
Proof. intros [Hv _]. rewrite <- !value_present. by rewrite Hv. Qed.
Lemma same_items_val (L L' : timer_lists) t : same_items L L' → tval L' t = tval L t.
Proof. intros [Hv _]. unfold val_of. by rewrite Hv. Qed.
Lemma not_contained (L : timer_lists) m t : rep L m → (∀ l r, m !! l = Some r → t ∉ r_items r) → contOf L t = None.
Proof.
  intros Hrep Hout. destruct (contOf L t) as [l|] eqn:Hc; [|done].
  apply (rep_cont L m) in Hc as (r & Hr & Hin); [|done]. by destruct (Hout l r Hr).
Qed.
Lemma wp_set_owner (L : timer_lists) m t o (Q : unit → timer_lists → Prop) :
  rep L m → present L (PItem t) = true →
  (∀ L', rep L' m → (∀ j, valueOf L' (PItem j) = valueOf L (PItem j)) →
     (∀ j, ownerOf L' j = if decide (t = j) then Some o else ownerOf L j) → Q tt L') →
  wp (listSET_LIST_ITEM_OWNER t o) Q L.
Proof.
  intros Hrep Hp HQ. apply wp_set_item; [done|]. apply bool_decide_eq_true in Hp as [it Hit].
  assert (∀ j, ls_items (upd_item t (λ x, x <| pvOwner := Some o |>) L) !! j =
    if decide (t = j) then (λ x, x <| pvOwner := Some o |>) <$> ls_items L !! j else ls_items L !! j) as Hl.
  { intros j. simpl. rewrite lookup_alter. by case_decide; subst. }
  assert (∀ j, valueOf (upd_item t (λ x, x <| pvOwner := Some o |>) L) (PItem j) = valueOf L (PItem j)) as Hv.
  { intros j. unfold valueOf. rewrite Hl. case_decide; [|done]. by destruct (ls_items L !! j). }
  apply HQ; [|done|].
  - eapply rep_upd_items; [done|..].
    + intros [j|l]; split; unfold nextOf, prevOf; rewrite ?Hl; try done; case_decide; try done; by destruct (ls_items L !! j).
    + done.
    + intros j. unfold contOf. rewrite Hl. case_decide; [|done]. by destruct (ls_items L !! j).
    + intros j z. rewrite Hv. by apply (rep_value L m).
    + simpl. by rewrite <-!size_dom, dom_alter_L.
  - intros j. unfold ownerOf. rewrite Hl. case_decide; [|done]. subst. by rewrite Hit.
Qed.
Lemma ins_sorted_here (L : timer_lists) t xs : ins_sorted (tval L) (tval L t) t xs ≡ₚ t :: xs.
Proof. apply ins_sorted_perm. Qed.

(** *** A timer that is in no list *)
Record timer_out (L : timer_lists) (cur ovf : timer_list) (rc ro : list Z) (t : Z) : Prop := {
  to_rep : timers_rep L cur ovf rc ro;
  to_present : present L (PItem t) = true;
  to_cur : t ∉ rc;
  to_ovf : t ∉ ro
}.
(** The other timers have the values they had. *)
Definition others_same (t : Z) (L L' : timer_lists) : Prop := ∀ j, j ≠ t → valueOf L' (PItem j) = valueOf L (PItem j).

Lemma sorted_by_same (L L' : timer_lists) t xs : others_same t L L' → t ∉ xs → sorted_by (tval L) xs → sorted_by (tval L') xs.
Proof.
  intros Ho Ht. apply sorted_by_ext. intros i Hi. unfold val_of. rewrite Ho; [done|]. by intros ->.
Qed.
Lemma wp_set_timer L cur ovf rc ro t v (Q : unit → timer_lists → Prop) :
  timer_out L cur ovf rc ro t → u32 v →
  (∀ L', timer_out L' cur ovf rc ro t → ownerOf L' t = Some t → tval L' t = v → others_same t L L' → Q tt L') →
  wp (listSET_LIST_ITEM_VALUE t v ;> listSET_LIST_ITEM_OWNER t t) Q L.
Proof.
  intros [[Hne Hrep Hsc Hso Hown] Hp Htc Hto] Hv HQ. apply wp_bind.
  eapply wp_listSET_LIST_ITEM_VALUE; [done..|]. intros L1 Hrep1 Hv1 Ho1.
  assert (present L1 (PItem t) = true) as Hp1.
  { apply value_present. rewrite Hv1, decide_True by done. by eexists. }
  eapply wp_set_owner; [done..|]. intros L2 Hrep2 Hv2 Ho2.
  assert (others_same t L L2) as Hsame by (intros j Hj; rewrite Hv2, Hv1; by rewrite decide_False).
  apply HQ; [|by rewrite Ho2, decide_True| |done].
  - split; [split|apply value_present; rewrite Hv2; by apply value_present| |]; try done.
    + by eapply sorted_by_same.
    + by eapply sorted_by_same.
    + intros j Hj. rewrite Ho2. case_decide; [by subst|]. rewrite Ho1. by apply Hown.
  - unfold val_of. by rewrite Hv2, Hv1, decide_True.
Qed.
(** It goes into the one or the other list. *)
Lemma wp_insert_current L cur ovf rc ro t (Q : unit → timer_lists → Prop) :
  timer_out L cur ovf rc ro t → ownerOf L t = Some t →
  (∀ L', same_items L L' → timers_rep L' cur ovf (ins_sorted (tval L) (tval L t) t rc) ro → Q tt L') →
  wp (vListInsert cur t) Q L.
Proof.
  intros [[Hne Hrep Hsc Hso Hown] Hp Htc Hto] Ht HQ.
  eapply wp_mono; [eapply (wp_vListInsert L _ cur); [done|by apply lookup_insert_eq| |done]|].
  { apply (not_contained L _ t Hrep). intros l r [[<- <-]|[_ Hr]]%lookup_insert_Some; [done|].
    by apply lookup_singleton_Some in Hr as [<- <-]. }
  intros [] L' [Hrep' Hsame]. rewrite insert_insert_eq in Hrep'. apply HQ; [done|].
  assert (∀ xs, sorted_by (tval L) xs → sorted_by (tval L') xs) as Hsort.
  { intros xs. apply sorted_by_ext. intros i _. symmetry. by apply same_items_val. }
  split; [done|done| | |].
  - by apply Hsort, ins_sorted_sorted.
  - by apply Hsort.
  - intros j Hj. rewrite (si_owner _ _ Hsame). rewrite ins_sorted_perm, elem_of_cons in Hj. destruct Hj as [[->|Hj]|Hj]; auto.
Qed.
Lemma timers_rep_swap L cur ovf rc ro : timers_rep L cur ovf rc ro → timers_rep L ovf cur ro rc.
Proof.
  intros [Hne Hrep Hsc Hso Hown]. split; [done| |done|done|naive_solver].
  rewrite <- !insert_empty. rewrite <- insert_empty in Hrep. by rewrite insert_insert_ne.
Qed.
Lemma wp_insert_overflow L cur ovf rc ro t (Q : unit → timer_lists → Prop) :
  timer_out L cur ovf rc ro t → ownerOf L t = Some t →
  (∀ L', same_items L L' → timers_rep L' cur ovf rc (ins_sorted (tval L) (tval L t) t ro) → Q tt L') →
  wp (vListInsert ovf t) Q L.
Proof.
  intros [Hr Hp Htc Hto] Ht HQ. eapply (wp_insert_current L ovf cur ro rc); [|done|].
  - split; [by apply timers_rep_swap|done..].
  - intros L' Hs Hr'. apply HQ; [done|]. by apply timers_rep_swap.
Qed.
(** The first of the current list leaves it. *)
Lemma wp_remove_first L cur ovf t rc ro (Q : Z → timer_lists → Prop) :
  timers_rep L cur ovf (t :: rc) ro →
  (∀ n L', same_items L L' → timer_out L' cur ovf rc ro t → Q n L') →
  wp (uxListRemove t) Q L.
Proof.
  intros [Hne Hrep Hsc Hso Hown] HQ. assert (NoDup (t :: rc)) as [Htc Hnd]%NoDup_cons.
  { apply (rl_nodup _ _ _ (rep_lists L _ Hrep cur _ (lookup_insert_eq _ _ _))). }
  assert (t ∉ ro) as Hto.
  { intros Hin. assert (contOf L t = Some ovf) as Hc.
    { apply (rep_cont L _ t ovf Hrep). exists (mkRing ro None). rewrite lookup_insert_ne by done. by rewrite lookup_singleton_eq. }
    assert (contOf L t = Some cur) as Hc'; [|congruence].
    apply (rep_cont L _ t cur Hrep). exists (mkRing (t :: rc) None). rewrite lookup_insert_eq. split; [done|by left]. }
  eapply wp_mono; [eapply (wp_uxListRemove L _ cur); [done|by apply lookup_insert_eq|by left]|].
  intros n L' (_ & Hrep' & Hsame). rewrite insert_insert_eq in Hrep'.
  assert (ring_remove t (mkRing (t :: rc) None) = mkRing rc None) as Heq.
  { unfold ring_remove. cbn [r_items r_index before after]. by rewrite !decide_True by done. }
  rewrite Heq in Hrep'. apply HQ; [done|].
  assert (∀ xs, sorted_by (tval L) xs → sorted_by (tval L') xs) as Hsort.
  { intros xs. apply sorted_by_ext. intros i _. symmetry. by apply same_items_val. }
  assert (present L (PItem t) = true) as Hp.
  { eapply contOf_present, (ring_cont L _ cur _ Hrep (lookup_insert_eq _ _ _)). by left. }
  split; [split|by eapply same_items_present|done|done]; [done|done| |by apply Hsort|].
  - apply Hsort. by apply sorted_by_cons in Hsc as [_ ?].
  - intros j Hj. rewrite (si_owner _ _ Hsame). apply Hown. rewrite elem_of_cons. naive_solver.
Qed.

(** ** Rules for the state *)
Lemma wp_tl {A} (m : M timer_lists A) (Q : A → tmsys → Prop) s :
  wp m (λ a L, Q a (s <| tm_lists := L |>)) (tm_lists s) → wp (tl m) Q s.
Proof. intros Hm. by apply (wp_zoom tm_lists (λ l s, s <| tm_lists := l |>)). Qed.
Lemma wp_tl2 {A} (m1 m2 : M timer_lists unit) (k : TM A) (Q : A → tmsys → Prop) s :
  wp (m1 ;> m2) (λ _ L, wp k Q (s <| tm_lists := L |>)) (tm_lists s) → wp (tl m1 ;> tl m2 ;> k) Q s.
Proof.
  intros Hm%wp_bind_inv. apply wp_bind, wp_tl. eapply wp_mono; [exact Hm|]. intros [] L HL.
  apply wp_bind, wp_tl. exact HL.
Qed.
Lemma wp_tm_get {A} t x (f : Timer_t → A) (Q : A → tmsys → Prop) s : tm_timers s !! t = Some x → Q (f x) s → wp (tm_get t f) Q s.
Proof. intros Hx HQ. unfold tm_get. apply wp_bind, wp_getM. rewrite Hx. by eapply wp_deref. Qed.
Lemma wp_tm_set t x f (Q : unit → tmsys → Prop) s :
  tm_timers s !! t = Some x → Q tt (s <| tm_timers ::= <[t := f x]> |>) → wp (tm_set t f) Q s.
Proof. intros Hx HQ. unfold tm_set. apply wp_bind, wp_getM. rewrite Hx. by apply wp_modify. Qed.
Lemma wp_current_list l (Q : timer_list → tmsys → Prop) s : pxCurrentTimerList s = Some l → Q l s → wp current_list Q s.
Proof. intros Hl HQ. unfold current_list. apply wp_bind, wp_getM. by eapply wp_deref. Qed.
Lemma wp_overflow l (Q : timer_list → tmsys → Prop) s : pxOverflowTimerList s = Some l → Q l s → wp overflow_list Q s.
Proof. intros Hl HQ. unfold overflow_list. apply wp_bind, wp_getM. by eapply wp_deref. Qed.

(** A timer out of the lists, with its record. *)
Record out_of_lists (s : tmsys) (cur ovf : timer_list) (rc ro : list Z) (t : Z) (x : Timer_t) : Prop := {
  ol_current : pxCurrentTimerList s = Some cur;
  ol_overflow : pxOverflowTimerList s = Some ovf;
  ol_lists : timer_out (tm_lists s) cur ovf rc ro t;
  ol_timer : tm_timers s !! t = Some x;
  ol_period : 0 < xTimerPeriodInTicks x < MAX32
}.
(** One that is in a list, to expire at [v]: in the current one when that is later
    than [now], else in the overflow list. *)
Record in_a_list (L : timer_lists) (cur ovf : timer_list) (rc ro : list Z) (t v now : Z) : Prop := {
  il_lists : ∃ rc' ro', timers_rep L cur ovf rc' ro' ∧
    if v <=? now then rc' = rc ∧ ro' ≡ₚ t :: ro else rc' ≡ₚ t :: rc ∧ ro' = ro;
  il_value : valueOf L (PItem t) = Some v
}.
Lemma in_a_list_value (L : timer_lists) t : present L (PItem t) = true → valueOf L (PItem t) = Some (tval L t).
Proof. apply present_value. Qed.

Lemma wp_insert s cur ovf rc ro t x cmd now (Q : bool → tmsys → Prop) :
  out_of_lists s cur ovf rc ro t x → u32 cmd → u32 now →
  let v := wrap32 (cmd + xTimerPeriodInTicks x) in
  (∀ L, others_same t (tm_lists s) L →
     if xTimerPeriodInTicks x <=? wrap32 (now - cmd) then timer_out L cur ovf rc ro t → Q true (s <| tm_lists := L |>)
     else in_a_list L cur ovf rc ro t v now → Q false (s <| tm_lists := L |>)) →
  wp (prvInsertTimerInActiveList t v now cmd) Q s.
Proof.
  intros [Hcur Hovf Hl Hx Hp] Hcmd Hnow v HQ. pose proof (insert_tests cmd (xTimerPeriodInTicks x) now Hcmd Hnow Hp) as Htest.
  fold v in Htest. unfold prvInsertTimerInActiveList.
  apply wp_tl2. eapply wp_set_timer; [done|apply wrap32_u32|]. intros L' Hout Ho Hv Hsame.
  simpl.
  assert (∀ L2, same_items L' L2 → others_same t (tm_lists s) L2) as Hsame2.
  { intros L2 [Hs _] j Hj. rewrite Hs. by apply Hsame. }
  assert (∀ L2, same_items L' L2 → valueOf L2 (PItem t) = Some v) as Hval.
  { intros L2 [Hs _]. rewrite Hs, present_value by apply Hout. by rewrite Hv. }
  destruct (v <=? now) eqn:Hvn.
  - apply wp_bind. eapply wp_tm_get; [exact Hx|]. specialize (HQ L' Hsame) as HQ'.
    destruct (xTimerPeriodInTicks x <=? wrap32 (now - cmd)) eqn:Hlate; [by apply wp_ret, HQ'|].
    apply wp_bind. eapply wp_overflow; [done|]. apply wp_bind, wp_tl. eapply wp_insert_overflow; [done|done|].
    intros L2 Hs2 Hr2. apply wp_ret. specialize (HQ L2 (Hsame2 _ Hs2)). apply HQ. split; [|by apply Hval].
    eexists _, _. split; [done|]. rewrite Hvn. split; [done|apply ins_sorted_here].
  - rewrite Htest. specialize (HQ L' Hsame) as HQ'.
    destruct (xTimerPeriodInTicks x <=? wrap32 (now - cmd)) eqn:Hlate; [by apply wp_ret, HQ'|].
    apply wp_bind. eapply wp_current_list; [done|]. apply wp_bind, wp_tl. eapply wp_insert_current; [done|done|].
    intros L2 Hs2 Hr2. apply wp_ret. specialize (HQ L2 (Hsame2 _ Hs2)). apply HQ. split; [|by apply Hval].
    eexists _, _. split; [done|]. rewrite Hvn. split; [apply ins_sorted_here|done].
Qed.

(** ** The application's function

    What the daemon's code relies on: a timer's function returns, leaves the lists
    of timers and its own timer (the identifier apart) to the daemon, and keeps
    what it needs itself ([J]).  [calls] is any count that goes up by one with each
    call. *)
Section expired.
Context (callback : Z → Z → TP unit) (fuel : nat) (t : Z) (J : tmsys → Prop) (calls : tmsys → Z).

Definition own_part (s : tmsys) : option (Z * Z * Z) :=
  (λ x, (xTimerPeriodInTicks x, pxCallbackFunction x, t_ucStatus x)) <$> tm_timers s !! t.
Record callback_ok : Prop := {
  cb_call s x : J s → tm_timers s !! t = Some x →
    wp (exec fuel (callback (pxCallbackFunction x) t)) (λ _ s', J s' ∧ calls s' = calls s + 1 ∧
      tm_lists s' = tm_lists s ∧ pxCurrentTimerList s' = pxCurrentTimerList s ∧
      pxOverflowTimerList s' = pxOverflowTimerList s ∧ own_part s' = own_part s) s;
  cb_lists s L : J s → J (s <| tm_lists := L |>) ∧ calls (s <| tm_lists := L |>) = calls s;
  cb_status s x n : J s → tm_timers s !! t = Some x → let s' := s <| tm_timers ::= <[t := x <| t_ucStatus := n |>]> |> in
    J s' ∧ calls s' = calls s
}.
Context (Hcb : callback_ok).

(** The same timer, its identifier apart. *)
Definition same_timer (x x' : Timer_t) : Prop :=
  xTimerPeriodInTicks x' = xTimerPeriodInTicks x ∧ pxCallbackFunction x' = pxCallbackFunction x ∧ t_ucStatus x' = t_ucStatus x.

Lemma wp_call_callback s x (Q : unit → tmsys → Prop) : J s → tm_timers s !! t = Some x →
  (∀ s' x', J s' → calls s' = calls s + 1 → tm_lists s' = tm_lists s → pxCurrentTimerList s' = pxCurrentTimerList s →
     pxOverflowTimerList s' = pxOverflowTimerList s → tm_timers s' !! t = Some x' → same_timer x x' → Q tt s') →
  wp (exec fuel (call_callback callback t)) Q s.
Proof.
  intros HJ Hx HQ. apply wp_exec_bind, wp_exec_atomic. eapply wp_tm_get; [done|].
  eapply wp_mono; [by apply (cb_call Hcb s x)|]. intros [] s' (HJ' & Hc & HL & Hcur & Hovf & Hown).
  unfold own_part in Hown. rewrite Hx in Hown. destruct (tm_timers s' !! t) as [x'|] eqn:Hx'; [|done]. simpl in Hown.
  injection Hown as ???. by eapply HQ.
Qed.

(** [prvReloadTimer]: a turn per period that has passed. *)
Definition reload_turn (now e : Z) : TP (Z + unit) :=
  let! again := Atomic (reload_one t e now) in
  if again then let! period := Atomic (tm_get t xTimerPeriodInTicks) in call_callback callback t ;! Ret (inl (wrap32 (e + period)))
  else Ret (inr tt).
Lemma wp_reload_turns cur ovf rc ro now : u32 now → ∀ n turns s x e (Q : unit → tmsys → Prop),
  out_of_lists s cur ovf rc ro t x → J s → u32 e → let p := xTimerPeriodInTicks x in
  wrap32 (now - e) / p = Z.of_nat n → (n < turns)%nat →
  (∀ s' x' v, J s' → calls s' = calls s + Z.of_nat n → pxCurrentTimerList s' = Some cur → pxOverflowTimerList s' = Some ovf →
     tm_timers s' !! t = Some x' → same_timer x x' → others_same t (tm_lists s) (tm_lists s') →
     wrap32 (v - now) = p - wrap32 (now - e) mod p → u32 v → in_a_list (tm_lists s') cur ovf rc ro t v now → Q tt s') →
  wp (iterM turns (λ e, exec fuel (reload_turn now e)) e) Q s.
Proof.
  intros Hnow n. induction n as [|n IH]; intros [|turns] s x e Q Hol HJ He p Hn Hf HQ; try lia; cbn [iterM];
    pose proof (ol_period _ _ _ _ _ _ _ Hol) as Hp; fold p in Hp; pose proof (wrap32_u32 (now - e)) as Hu; unfold u32 in Hu;
    apply wp_bind, wp_exec_bind, wp_exec_atomic; unfold reload_one; apply wp_bind; (eapply wp_tm_get; [by apply Hol|]);
    (eapply wp_insert; [done|done|done|]); fold p; intros L Hsame.
  - assert (wrap32 (now - e) < p) as Hlt.
    { destruct (Z.lt_ge_cases (wrap32 (now - e)) p) as [|Hge]; [done|]. apply (Z.div_le_mono _ _ p) in Hge; [|lia]. rewrite Z.div_same in Hge; lia. }
    rewrite (proj2 (Z.leb_gt _ _) Hlt). intros Hin. apply wp_exec_ret, wp_ret.
    destruct (cb_lists Hcb s L HJ) as [HJ' Hc]. eapply (HQ _ x); [done|lia|apply Hol|apply Hol|apply Hol|done|done| |apply wrap32_u32|exact Hin].
    rewrite Z.mod_small by lia. by apply remaining_time.
  - assert (p ≤ wrap32 (now - e)) as Hge.
    { destruct (Z.lt_ge_cases (wrap32 (now - e)) p); [|done]. rewrite Z.div_small in Hn; lia. }
    rewrite (proj2 (Z.leb_le _ _) Hge). intros Hout.
    destruct (cb_lists Hcb s L HJ) as [HJ' Hc].
    apply wp_exec_bind, wp_exec_atomic. eapply wp_tm_get; [by apply Hol|].
    apply wp_exec_bind. eapply wp_call_callback; [exact HJ'|by apply Hol|].
    intros s1 x1 HJ1 Hc1 HL1 Hcur1 Hovf1 Hx1 (Hp1 & Hf1 & Hst1). apply wp_exec_ret.
    destruct (elapsed_periods e p now He Hnow Hp Hge) as [Hdiv Hmod].
    eapply (IH turns s1 x1 (wrap32 (e + p)) Q); [|done|apply wrap32_u32| |lia|].
    + split; [by rewrite Hcur1; apply Hol|by rewrite Hovf1; apply Hol|by rewrite HL1|done|by rewrite Hp1].
    + rewrite Hp1. fold p. lia.
    + rewrite Hp1. fold p. intros s' x' v HJs Hcs Hcurs Hovfs Hx' (Hpx & Hfx & Hsx) Hoth Hv Huv Hin.
      eapply (HQ s' x' v); [done|lia|done|done|done| | |by rewrite Hv, Hmod|done|done].
      * split_and!; congruence.
      * intros j Hj. rewrite Hoth, HL1 by done. by apply Hsame.
Qed.

(** [prvProcessExpiredTimer] *)
Lemma wp_process_expired s cur ovf rc ro x now :
  pxCurrentTimerList s = Some cur → pxOverflowTimerList s = Some ovf → timers_rep (tm_lists s) cur ovf (t :: rc) ro →
  tm_timers s !! t = Some x → 0 < xTimerPeriodInTicks x < MAX32 → J s → u32 now →
  let e := tval (tm_lists s) t in let p := xTimerPeriodInTicks x in let n := wrap32 (now - e) / p in n < Z.of_nat fuel →
  wp (exec fuel (prvProcessExpiredTimer callback e now)) (λ _ s', ∃ x',
    tm_timers s' !! t = Some x' ∧ pxCurrentTimerList s' = Some cur ∧ pxOverflowTimerList s' = Some ovf ∧
    others_same t (tm_lists s) (tm_lists s') ∧
    if is_autoreload (t_ucStatus x) then
      calls s' = calls s + n + 1 ∧ t_ucStatus x' = t_ucStatus x ∧
      ∃ v, wrap32 (v - now) = p - wrap32 (now - e) mod p ∧ u32 v ∧ in_a_list (tm_lists s') cur ovf rc ro t v now
    else calls s' = calls s + 1 ∧ t_ucStatus x' = Z.land (t_ucStatus x) (255 - tmrSTATUS_IS_ACTIVE) ∧
      timers_rep (tm_lists s') cur ovf rc ro) s.
Proof.
  intros Hcur Hovf Hr Hx Hp HJ Hnow e p n Hn.
  assert (u32 e) as He.
  { apply (rep_value (tm_lists s) _ t _ (tr_rep _ _ _ _ _ Hr)). apply present_value.
    eapply contOf_present, (ring_cont (tm_lists s) _ cur _ (tr_rep _ _ _ _ _ Hr) (lookup_insert_eq _ _ _)). by left. }
  assert (0 ≤ n) as Hn0. { apply Z.div_pos; [|lia]. pose proof (wrap32_u32 (now - e)) as Hu. unfold u32 in Hu. lia. }
  unfold prvProcessExpiredTimer. apply wp_exec_bind, wp_exec_atomic. unfold take_expired.
  apply wp_bind. eapply wp_current_list; [done|]. apply wp_bind, wp_tl.
  eapply wp_listGET_OWNER_OF_HEAD_ENTRY; [apply Hr|by apply lookup_insert_eq|done|by apply (tr_owner _ _ _ _ _ Hr); left; left|].
  apply wp_bind, wp_tl. eapply wp_remove_first; [exact Hr|]. intros _ L [Hsi _] Hout. apply wp_ret.
  destruct (cb_lists Hcb s L HJ) as [HJ1 Hc1].
  apply wp_exec_bind, wp_exec_atomic. eapply wp_tm_get; [exact Hx|]. apply wp_exec_bind.
  destruct (is_autoreload (t_ucStatus x)).
  - match goal with |- wp _ ?R _ => change (wp (iterM fuel (λ e, exec fuel (reload_turn now e)) e) R (s <| tm_lists := L |>)) end.
    apply (wp_reload_turns cur ovf rc ro now Hnow (Z.to_nat n) fuel (s <| tm_lists := L |>) x e); [|exact HJ1|done| |lia|].
    + split; done.
    + rewrite Z2Nat.id by done. done.
    + rewrite Z2Nat.id by done. intros s2 x2 v HJ2 Hc2 Hcur2 Hovf2 Hx2 (Hp2 & Hf2 & Hst2) Hoth Hv Hu Hin.
      eapply wp_call_callback; [done|done|]. intros s3 x3 HJ3 Hc3 HL3 Hcur3 Hovf3 Hx3 (Hp3 & Hf3 & Hst3).
      exists x3. split_and!; [done|congruence|congruence| |lia|congruence|].
      * intros j Hj. rewrite HL3, Hoth by done. apply Hsi.
      * exists v. by rewrite HL3.
  - apply wp_exec_bind, wp_exec_atomic. eapply wp_tm_get; [exact Hx|]. apply wp_exec_atomic. eapply wp_tm_set; [exact Hx|].
    destruct (cb_status Hcb (s <| tm_lists := L |>) x (Z.land (t_ucStatus x) (255 - tmrSTATUS_IS_ACTIVE)) HJ1 Hx) as [HJ2 Hc2].
    eapply wp_call_callback; [exact HJ2|by apply lookup_insert_eq|]. intros s3 x3 HJ3 Hc3 HL3 Hcur3 Hovf3 Hx3 (Hp3 & Hf3 & Hst3).
    exists x3. split_and!; [done|by rewrite Hcur3|by rewrite Hovf3| |by rewrite Hc3, <- Hc1, <- Hc2|done|].
    + intros j Hj. rewrite HL3. apply Hsi.
    + rewrite HL3. apply Hout.
Qed.
End expired.
