(* ===== verification/TimerProps.v ===== *)
(** * Properties of the software timers *)
From S2P Require Import Prelude KList KListSpec KListProps Tasks TasksCreate TasksCheck Prog Queue SchedLock Heap4 QueueMgmt TaskLife Timers TimerOps.

(** C40: a timer expires as often as its period has passed.  When [prvProcessExpiredTimer] is called for the
    first timer [t] of the current list, whose expiry time is [e], at the time [now] (both modulo 2^32, so that
    the tick counter may have wrapped between them, once), with [n] whole periods passed since [e]: a one-shot
    timer is called once, becomes dormant and is in no list; an auto-reload timer is called [n + 1] times and is
    again in exactly one list, the current one if its new expiry time is later than [now] as a number and the
    one for after the wrap otherwise, to expire when the running period ends, which is at least one and at most a
    period's ticks away; both lists stay sorted and the other timers are as before.  The loop of
    [prvReloadTimer] ends ([fuel] need only exceed [n]).  Of the timer's function it is assumed that it returns
    and leaves the lists and its timer, the identifier apart, to the daemon ([callback_ok]). *)
Theorem prvProcessExpiredTimer_exact callback fuel t J calls s cur ovf rc ro x now :
  callback_ok callback fuel t J calls →
  pxCurrentTimerList s = Some cur → pxOverflowTimerList s = Some ovf → timers_rep (tm_lists s) cur ovf (t :: rc) ro →
  tm_timers s !! t = Some x → 0 < xTimerPeriodInTicks x < MAX32 → J s → u32 now →
  let e := tval (tm_lists s) t in let p := xTimerPeriodInTicks x in let n := wrap32 (now - e) / p in n < Z.of_nat fuel →
  wp (exec fuel (prvProcessExpiredTimer callback e now)) (λ _ s', ∃ x',
    tm_timers s' !! t = Some x' ∧ pxCurrentTimerList s' = Some cur ∧ pxOverflowTimerList s' = Some ovf ∧
    others_same t (tm_lists s) (tm_lists s') ∧
    if is_autoreload (t_ucStatus x) then
      calls s' = calls s + n + 1 ∧ t_ucStatus x' = t_ucStatus x ∧
      ∃ v, wrap32 (v - now) = p - wrap32 (now - e) mod p ∧ u32 v ∧ in_a_list (tm_lists s') cur ovf rc ro t v now
    else calls s' = calls s + 1 ∧ t_ucStatus x' = Z.land (t_ucStatus x) (255 - tmrSTATUS_IS_ACTIVE) ∧
      timers_rep (tm_lists s') cur ovf rc ro) s.
Proof. intros Hcb. intros. by apply (wp_process_expired callback fuel t J calls Hcb s cur ovf rc ro x now). Qed.

(** ** Witness

    A function that counts its calls in the timer's identifier; an auto-reload
    timer of 5 ticks and a one-shot timer of 30, started at time 0. *)
Definition count_call (f t : Z) : TP unit := Atomic (tm_set t (λ x, x <| pvTimerID ::= λ n, n + 1 |>)).
Definition counted (t : Z) (s : tmsys) : Z := default 0 (pvTimerID <$> tm_timers s !! t).
Lemma count_call_ok fuel t : callback_ok count_call fuel t (λ _, True) (counted t).
Proof.
  split; [|done|].
  - intros s x _ Hx. apply wp_exec_atomic. eapply wp_tm_set; [exact Hx|]. unfold counted, own_part. simpl.
    rewrite lookup_insert_eq, Hx. by split_and!.
  - intros s x n _ Hx. unfold counted. simpl. by rewrite lookup_insert_eq, Hx.
Qed.
#[local] Instance ex_timer_layout : TimerLayout := {|
  xStaticTimerQueue := 700; ucStaticTimerQueueStorage := 1000; xTimerTaskTCB := 5; uxTimerTaskStack := 2000;
  vEventGroupSetBitsCallback_address := 1; vEventGroupClearBitsCallback_address := 2
|}.
Definition ex_timer_raw : Timer_t := mkTimer 0 0 0 0 0 0.
Definition ex_timers : tmsys :=
  final (
    (let* _ := xTimerCreateStatic 0 5 true 0 77 9000 ex_timer_raw 0 in
     let* _ := xTimerCreateStatic 0 30 false 0 77 9100 ex_timer_raw 0 in retM tt) ;>
    exec 1 (start_timer count_call 9000 0 0) ;>
    exec 1 (start_timer count_call 9100 0 0))
  (mkTmsys (mkGuarded (mkQsys zero_kernel ∅ (replicate 10 (mkRegistryItem None 0))) zero_heap) ∅ (mkStore ∅ ∅) None None 0 0 0).
Definition ex_auto : Timer_t := default ex_timer_raw (tm_timers ex_timers !! 9000).
Example ex_timers_run : (pxCurrentTimerList ex_timers, tval (tm_lists ex_timers) 9000, tval (tm_lists ex_timers) 9100, t_ucStatus ex_auto) =
  (Some xActiveTimerList1, 5, 30, 7).
Proof. by vm_compute. Qed.
Lemma timers_rep_two L cur ovf a b : cur ≠ ovf → rep L (<[cur := mkRing [a; b] None]> {[ovf := mkRing [] None]}) →
  tval L a ≤ tval L b → ownerOf L a = Some a → ownerOf L b = Some b → timers_rep L cur ovf [a; b] [].
Proof.
  intros Hne Hrep Hle Ha Hb. split; [done|done| |apply sorted_by_nil|].
  - apply sorted_by_cons. split; [|apply sorted_by_cons; split; [by intros j Hj%not_elem_of_nil|apply sorted_by_nil]].
    by intros j ->%list_elem_of_singleton.
  - intros t [Ht|Ht%not_elem_of_nil]; [|done]. apply elem_of_cons in Ht as [->|Ht%list_elem_of_singleton]; [done|by subst].
Qed.
Lemma ex_timers_rep : timers_rep (tm_lists ex_timers) xActiveTimerList1 xActiveTimerList2 [9000; 9100] [].
Proof.
  apply timers_rep_two; [done|by apply (bool_decide_unpack _); vm_compute|by vm_compute|by vm_compute|by vm_compute].
Qed.
Lemma ex_first : tval (tm_lists ex_timers) 9000 = 5.
Proof. by vm_compute. Qed.
Lemma ex_auto_period : xTimerPeriodInTicks ex_auto = 5.
Proof. by vm_compute. Qed.
Lemma ex_auto_reloads : is_autoreload (t_ucStatus ex_auto) = true.
Proof. by vm_compute. Qed.
Lemma ex_not_called : counted 9000 ex_timers = 0.
Proof. by vm_compute. Qed.
(** At time 23 the auto-reload timer is called four times, and is next due in 2 ticks. *)
Lemma prvProcessExpiredTimer_exact_witness :
  wp (exec 4 (prvProcessExpiredTimer count_call 5 23)) (λ _ s', ∃ v,
    counted 9000 s' = 4 ∧ wrap32 (v - 23) = 2 ∧
    in_a_list (tm_lists s') xActiveTimerList1 xActiveTimerList2 [9100] [] 9000 v 23) ex_timers.
Proof.
  pose proof (prvProcessExpiredTimer_exact count_call 4 9000 (λ _, True) (counted 9000) ex_timers xActiveTimerList1
    xActiveTimerList2 [9100] [] ex_auto 23 (count_call_ok 4 9000) ltac:(by vm_compute) ltac:(by vm_compute) ex_timers_rep
    ltac:(by vm_compute) ltac:(by vm_compute) I ltac:(by vm_compute)) as Hw.
  cbv zeta in Hw. rewrite ex_first, ex_auto_period, ex_auto_reloads, ex_not_called in Hw.
  specialize (Hw ltac:(by vm_compute)). eapply wp_mono; [exact Hw|].
  intros u s' (x' & _ & _ & _ & _ & Hc & _ & v & Hv & _ & Hin). exists v. split; [exact Hc|]. split; [exact Hv|exact Hin].
Defined.
