(* ===== verification/Port.v ===== *)
(** * The port layer (portable/GCC/ARM_CM3)

    The processor as the port's code sees it (registers, memory by words, the
    registers of the interrupt controller), the assembly of the handlers as
    lists of instructions, and the functions of port.c and portmacro.h on this
    state.  The kernel of [Tasks] is a part of the state: its variable
    [pxCurrentTCB] is what the handlers read, its pending bit is a bit of the
    controller's ICSR.  Exception entry and return are the processor's
    (ARMv7-M). *)
From S2P Require Import Prelude KList Tasks SchedLock Heap4.

(** ** The processor *)
Record core := mkCore {
  gpr : list Z;                 (* R0 - R12 *)
  r14 : Z;                      (* LR *)
  pc : Z;
  xPSR : Z;                     (* without the exception number, see [IPSR] *)
  IPSR : Z;                     (* the exception number, 0 in a task *)
  MSP : Z;
  PSP : Z;
  SPSEL : bool;                 (* CONTROL: a task runs on PSP *)
  BASEPRI : Z;
  PRIMASK : bool;
  FAULTMASK : bool;
  STKALIGN : bool;              (* CCR: exception frames are aligned to 8 bytes *)
  mem : gmap Z Z;               (* the words that exist, by their address *)
  NVIC_IP : gmap Z Z;           (* priority byte of each exception number *)
  prio_bits : Z;                (* the bits of a priority byte the hardware has *)
  uxCriticalNesting : Z;
  ucMaxSysCallPriority : Z;
  ulMaxPRIGROUPValue : Z;
  ker : kernel
}.
#[global] Instance eta_core : Eta core := λ s,
  mkCore (gpr s) (r14 s) (pc s) (xPSR s) (IPSR s) (MSP s) (PSP s) (SPSEL s) (BASEPRI s) (PRIMASK s)
    (FAULTMASK s) (STKALIGN s) (mem s) (NVIC_IP s) (prio_bits s) (uxCriticalNesting s)
    (ucMaxSysCallPriority s) (ulMaxPRIGROUPValue s) (ker s).
Abbreviation C := (M core).
Definition kr {A} (m : K A) : C A := zoom ker (λ k s, s <| ker := k |>) m.

(** Where the linker put the variable, the functions and the stack of [main]. *)
Class Link := {
  addr_pxCurrentTCB : Z;
  addr_vPortSVCHandler : Z;
  addr_xPortPendSVHandler : Z;
  addr_prvTaskExitError : Z;
  main_stack_limit : Z
}.

Definition configMAX_SYSCALL_INTERRUPT_PRIORITY : Z := 4.
Definition configCPU_CLOCK_HZ : Z := 25000000.

Definition portNVIC_INT_CTRL_REG : Z := 3758157060.          (* 0xe000ed04 *)
Definition portNVIC_PENDSVSET_BIT : Z := Z.shiftl 1 28.
Definition portSCB_VTOR_REG : Z := 3758157064.               (* 0xe000ed08 *)
Definition portAIRCR_REG : Z := 3758157068.                  (* 0xe000ed0c *)
Definition portNVIC_SHPR2_REG : Z := 3758157084.             (* 0xe000ed1c *)
Definition portNVIC_SHPR3_REG : Z := 3758157088.             (* 0xe000ed20 *)
Definition portNVIC_SYSTICK_CTRL_REG : Z := 3758153744.      (* 0xe000e010 *)
Definition portNVIC_SYSTICK_LOAD_REG : Z := 3758153748.
Definition portNVIC_SYSTICK_CURRENT_VALUE_REG : Z := 3758153752.
Definition portNVIC_SYSTICK_CLK_BIT : Z := Z.shiftl 1 2.
Definition portNVIC_SYSTICK_INT_BIT : Z := Z.shiftl 1 1.
Definition portNVIC_SYSTICK_ENABLE_BIT : Z := Z.shiftl 1 0.
Definition portNVIC_PENDSV_PRI : Z := Z.shiftl 255 16.
Definition portNVIC_SYSTICK_PRI : Z := Z.shiftl 255 24.
Definition portVECTOR_INDEX_SVC : Z := 11.
Definition portVECTOR_INDEX_PENDSV : Z := 14.
Definition portFIRST_USER_INTERRUPT_NUMBER : Z := 16.
Definition portMAX_8_BIT_VALUE : Z := 255.
Definition portTOP_BIT_OF_BYTE : Z := 128.
Definition portMAX_PRIGROUP_BITS : Z := 7.
Definition portPRIORITY_GROUP_MASK : Z := Z.shiftl 7 8.
Definition portPRIGROUP_SHIFT : Z := 8.
Definition portVECTACTIVE_MASK : Z := 255.
Definition portINITIAL_XPSR : Z := 16777216.                 (* 0x01000000: the Thumb bit *)
Definition portSTART_ADDRESS_MASK : Z := 4294967294.

Section port.
Context `{Link}.

(** *** Memory *)
(** A word: the kernel's variable, the controller's ICSR, or memory. *)
Definition load_word (a : Z) (s : core) : option Z :=
  if a =? addr_pxCurrentTCB then Some (default 0 (pxCurrentTCB (ker s)))
  else if a =? portNVIC_INT_CTRL_REG then
    Some (Z.lor (IPSR s) (if pendsv (ker s) then portNVIC_PENDSVSET_BIT else 0))
  else mem s !! a.
Definition load (a : Z) : C Z := let* s := getM in derefM (load_word a s).
(** The port stores to memory and to the plain registers only. *)
Definition store_word (a v : Z) : C unit :=
  let* s := getM in
  if (a =? addr_pxCurrentTCB) || (a =? portNVIC_INT_CTRL_REG) then faultM
  else match mem s !! a with
       | Some _ => modify (λ s, s <| mem ::= <[a := v]> |>)
       | None => faultM
       end.
(** [ws] at the address [a] and up. *)
Fixpoint store_words (a : Z) (ws : list Z) : C unit :=
  match ws with
  | [] => retM tt
  | w :: ws => store_word a w ;> store_words (wrap32 (a + 4)) ws
  end.
Fixpoint load_words (a : Z) (n : nat) : C (list Z) :=
  match n with
  | O => retM []
  | S n => let* w := load a in let* ws := load_words (wrap32 (a + 4)) n in retM (w :: ws)
  end.

(** *** Registers and instructions *)
Inductive reg := R (n : nat) | R14 | SP.
Definition get_sp (s : core) : Z := if (IPSR s =? 0) && SPSEL s then PSP s else MSP s.
Definition set_sp (v : Z) (s : core) : core :=
  if (IPSR s =? 0) && SPSEL s then s <| PSP := v |> else s <| MSP := v |>.
Definition get_reg (r : reg) (s : core) : Z :=
  match r with R n => gpr s !!! n | R14 => r14 s | SP => get_sp s end.
Definition set_reg (r : reg) (v : Z) (s : core) : core :=
  match r with R n => s <| gpr ::= <[n := v]> |> | R14 => s <| r14 := v |> | SP => set_sp v s end.
Fixpoint set_regs (rs : list reg) (vs : list Z) (s : core) : core :=
  match rs, vs with r :: rs, v :: vs => set_regs rs vs (set_reg r v s) | _, _ => s end.
(** [{rm-rn}] *)
Definition regs (m n : nat) : list reg := R <$> seq m (S n - m).

Inductive instr :=
| MRS_psp (d : reg) | MSR_psp (r : reg) | MSR_msp (r : reg) | MSR_basepri (r : reg)
| MOV (d : reg) (v : Z) | ORR (d : reg) (v : Z)
| LDR_sym (d : reg) (a : Z)          (* ldr d, =a *)
| LDR (d r : reg)                    (* ldr d, [r] *)
| STR (s r : reg)                    (* str s, [r] *)
| STMDB (r : reg) (rs : list reg)    (* stmdb r!, {rs} *)
| LDMIA (r : reg) (rs : list reg)    (* ldmia r!, {rs} *)
| CPSIE_i | CPSIE_f | ISB | DSB.

Definition exec_instr (i : instr) : C unit :=
  match i with
  | MRS_psp d => modify (λ s, set_reg d (PSP s) s)
  | MSR_psp r => modify (λ s, s <| PSP := get_reg r s |>)
  | MSR_msp r => modify (λ s, s <| MSP := get_reg r s |>)
  | MSR_basepri r => modify (λ s, s <| BASEPRI := Z.land (get_reg r s) 255 |>)
  | MOV d v => modify (set_reg d v)
  | ORR d v => modify (λ s, set_reg d (Z.lor (get_reg d s) v) s)
  | LDR_sym d a => modify (set_reg d a)
  | LDR d r => let* a := gets (get_reg r) in let* v := load a in modify (set_reg d v)
  | STR r1 r => let* s := getM in store_word (get_reg r s) (get_reg r1 s)
  | STMDB r rs =>
      let* s := getM in
      let a := wrap32 (get_reg r s - 4 * Z.of_nat (length rs)) in
      store_words a ((λ r, get_reg r s) <$> rs) ;>
      modify (set_reg r a)
  | LDMIA r rs =>
      let* a := gets (get_reg r) in
      let* vs := load_words a (length rs) in
      modify (set_reg r (wrap32 (a + 4 * Z.of_nat (length rs)))) ;>
      modify (set_regs rs vs)
  | CPSIE_i => modify (λ s, s <| PRIMASK := false |>)
  | CPSIE_f => modify (λ s, s <| FAULTMASK := false |>)
  | ISB | DSB => retM tt
  end.
Fixpoint exec_code (code : list instr) : C unit :=
  match code with [] => retM tt | i :: code => exec_instr i ;> exec_code code end.

(** A call of a compiled function: the calling convention lets it change R0-R3,
    R12 and LR and the stack below SP. *)
Record clobber := mkClobber {
  cl_low : Z * Z * Z * Z;
  cl_r12 : Z;
  cl_r14 : Z;
  cl_stack : gmap Z Z
}.
Definition clobbered (j : clobber) (s : core) : core :=
  let '(j0, j1, j2, j3) := cl_low j in
  s <| gpr ::= λ g, <[12%nat := cl_r12 j]> (<[3%nat := j3]> (<[2%nat := j2]> (<[1%nat := j1]> (<[0%nat := j0]> g)))) |>
    <| r14 := cl_r14 j |>
    <| mem ::= λ m, filter (λ aw, main_stack_limit ≤ aw.1 < MSP s) (cl_stack j) ∪ m |>.
Definition call (j : clobber) (m : C unit) : C unit := m ;> modify (clobbered j).

(** *** Exceptions *)
(** Pushes the frame and enters handler mode. *)
Definition exception_entry (n : Z) : C unit :=
  let* s := getM in
  let pad := STKALIGN s && Z.testbit (get_sp s) 2 in
  let a := wrap32 (get_sp s - (if pad then 36 else 32)) in
  store_words a [get_reg (R 0) s; get_reg (R 1) s; get_reg (R 2) s; get_reg (R 3) s; get_reg (R 12) s; r14 s; pc s;
    Z.lor (Z.lor (xPSR s) (IPSR s)) (if pad then 512 else 0)] ;>
  modify (set_sp a) ;>
  modify (λ s, s <| r14 := if negb (IPSR s =? 0) then 4294967281 else if SPSEL s then 4294967293 else 4294967289 |>) ;>
  modify (λ s, s <| IPSR := n |>).

(** [bx] with an EXC_RETURN value: back to a handler, or to a task on either
    stack. *)
Definition exception_return (v : Z) : C unit :=
  let mode := Z.land v 15 in
  (when (mode =? 9) || (mode =? 13) then modify (λ s, s <| SPSEL := (mode =? 13) |>)) ;>
  let* s := getM in
  let a := if mode =? 13 then PSP s else MSP s in
  let* f := load_words a 8 in
  match f with
  | [f0; f1; f2; f3; f12; f14; fpc; fpsr] =>
      let a' := wrap32 (a + (if STKALIGN s && Z.testbit fpsr 9 then 36 else 32)) in
      modify (λ s, if mode =? 13 then s <| PSP := a' |> else s <| MSP := a' |>) ;>
      modify (set_regs [R 0; R 1; R 2; R 3; R 12; R14] [f0; f1; f2; f3; f12; f14]) ;>
      modify (λ s, s <| pc := fpc |> <| xPSR := Z.ldiff fpsr 1023 |> <| IPSR := Z.land fpsr 511 |>)
  | _ => faultM
  end.
Definition BX (r : reg) : C unit := let* v := gets (get_reg r) in exception_return v.

(** ** portmacro.h *)
Definition vPortRaiseBASEPRI : C unit := modify (λ s, s <| BASEPRI := configMAX_SYSCALL_INTERRUPT_PRIORITY |>).
Definition ulPortRaiseBASEPRI : C Z :=
  let* ulOriginalBASEPRI := gets BASEPRI in
  modify (λ s, s <| BASEPRI := configMAX_SYSCALL_INTERRUPT_PRIORITY |>) ;>
  retM ulOriginalBASEPRI.
Definition vPortSetBASEPRI (ulNewMaskValue : Z) : C unit := modify (λ s, s <| BASEPRI := Z.land ulNewMaskValue 255 |>).
Definition portDISABLE_INTERRUPTS : C unit := vPortRaiseBASEPRI.
Definition portENABLE_INTERRUPTS : C unit := vPortSetBASEPRI 0.
Definition portSET_INTERRUPT_MASK_FROM_ISR : C Z := ulPortRaiseBASEPRI.
Definition portCLEAR_INTERRUPT_MASK_FROM_ISR (x : Z) : C unit := vPortSetBASEPRI x.
Definition xPortIsInsideInterrupt : C bool := gets (λ s, negb (IPSR s =? 0)).

(** ** Critical sections (port.c) *)
Definition vPortEnterCritical : C unit :=
  portDISABLE_INTERRUPTS ;>
  modify (λ s, s <| uxCriticalNesting ::= λ n, wrap32 (n + 1) |>) ;>
  let* n := gets uxCriticalNesting in
  when n =? 1 then
    let* icsr := load portNVIC_INT_CTRL_REG in
    configASSERT (Z.land icsr portVECTACTIVE_MASK =? 0).
Definition vPortExitCritical : C unit :=
  let* n := gets uxCriticalNesting in
  configASSERT (negb (n =? 0)) ;>
  modify (λ s, s <| uxCriticalNesting ::= λ n, wrap32 (n - 1) |>) ;>
  let* n := gets uxCriticalNesting in
  when n =? 0 then portENABLE_INTERRUPTS.
(** It never returns. *)
Definition prvTaskExitError : C unit :=
  let* n := gets uxCriticalNesting in
  configASSERT (n =? 4294967295) ;>
  portDISABLE_INTERRUPTS ;>
  haltM.
Definition vPortEndScheduler : C unit :=
  let* n := gets uxCriticalNesting in
  configASSERT (n =? 1000).

(** ** The stack of a new task *)
Definition pxPortInitialiseStack (pxTopOfStack pxCode pvParameters : Z) : C Z :=
  let p := wrap32 (pxTopOfStack - 4) in
  store_word p portINITIAL_XPSR ;>
  let p := wrap32 (p - 4) in
  store_word p (Z.land pxCode portSTART_ADDRESS_MASK) ;>
  let p := wrap32 (p - 4) in
  store_word p addr_prvTaskExitError ;>
  let p := wrap32 (p - 20) in
  store_word p pvParameters ;>
  retM (wrap32 (p - 32)).

(** The part of [prvInitialiseNewTask] that fills the stack with
    [tskSTACK_FILL_BYTE], finds its top and sets it up; [pxTopOfStack] is the
    first word of the TCB. *)
Definition initialise_stack (pxNewTCB pxStack uxStackDepth pxTaskCode pvParameters : Z) : C unit :=
  store_words pxStack (replicate (Z.to_nat uxStackDepth) 2779096485) ;>
  let pxTopOfStack := Z.land (wrap32 (pxStack + 4 * (uxStackDepth - 1))) (4294967295 - portBYTE_ALIGNMENT_MASK) in
  configASSERT (Z.land pxTopOfStack portBYTE_ALIGNMENT_MASK =? 0) ;>
  let* p := pxPortInitialiseStack pxTopOfStack pxTaskCode pvParameters in
  store_word pxNewTCB p ;>
  configASSERT (wrap32 (pxTopOfStack - p) / 4 <? uxStackDepth).

(** ** The handlers *)
(** The hook of main.c does not return. *)
Definition taskCHECK_FOR_STACK_OVERFLOW : C unit :=
  let* cur := kr current in
  let* pulStack := kr (tcb_get cur pxStack) in
  let* pxTopOfStack := load cur in
  let* ws := load_words pulStack 4 in
  when (pxTopOfStack <=? pulStack) || negb (forallb (λ w, w =? 2779096485) ws) then haltM.
Definition vTaskSwitchContext_checked : C unit :=
  let* k := gets ker in
  (when uxSchedulerSuspended k =? 0 then taskCHECK_FOR_STACK_OVERFLOW) ;>
  kr vTaskSwitchContext.

Definition vPortSVCHandler : C unit :=
  exec_code [
    LDR_sym (R 3) addr_pxCurrentTCB;
    LDR (R 1) (R 3);
    LDR (R 0) (R 1);
    LDMIA (R 0) (regs 4 11);
    MSR_psp (R 0);
    ISB;
    MOV (R 0) 0;
    MSR_basepri (R 0);
    ORR R14 13 ] ;>
  BX R14.

(** [PendSV] from its entry; the pending bit is cleared by the entry. *)
Definition PendSV_save : list instr :=
  [ MRS_psp (R 0);
    ISB;
    LDR_sym (R 3) addr_pxCurrentTCB;
    LDR (R 2) (R 3);
    STMDB (R 0) (regs 4 11);
    STR (R 0) (R 2);
    STMDB SP [R 3; R14];
    MOV (R 0) configMAX_SYSCALL_INTERRUPT_PRIORITY;
    MSR_basepri (R 0) ].
Definition PendSV_restore : list instr :=
  [ MOV (R 0) 0;
    MSR_basepri (R 0);
    LDMIA SP [R 3; R14];
    LDR (R 1) (R 3);
    LDR (R 0) (R 1);
    LDMIA (R 0) (regs 4 11);
    MSR_psp (R 0);
    ISB ].
Definition PendSV_handler (j : clobber) : C unit :=
  exec_code PendSV_save ;>
  call j vTaskSwitchContext_checked ;>
  exec_code PendSV_restore ;>
  BX R14.
(** The exception: the entry takes the pending bit back. *)
Definition PendSV (j : clobber) : C unit :=
  exception_entry 14 ;>
  kr (modify (λ k, k <| pendsv := false |>)) ;>
  PendSV_handler j.

(** An interrupt whose handler [m] is a compiled function; it ends by going back
    through LR. *)
Definition interrupt (n : Z) (j : clobber) (m : C unit) : C unit :=
  exception_entry n ;>
  let* lr := gets r14 in
  call j m ;>
  exception_return lr.
(** The tick handler with its masking. *)
Definition SysTick_handler : C unit :=
  portDISABLE_INTERRUPTS ;>
  kr xPortSysTickHandler ;>
  portENABLE_INTERRUPTS.

(** ** Starting *)
(** One turn of the loop that counts the implemented priority bits. *)
Definition prio_one (v : Z * Z) : C (Z * Z + Z) :=
  let '(ulImplementedPrioBits, ucMaxPriorityValue) := v in
  if Z.land ucMaxPriorityValue portTOP_BIT_OF_BYTE =? portTOP_BIT_OF_BYTE
  then retM (inl (ulImplementedPrioBits + 1, Z.land (Z.shiftl ucMaxPriorityValue 1) 255))
  else retM (inr ulImplementedPrioBits).
(** A priority byte keeps the bits that exist. *)
Definition write_prio (n v : Z) : C unit :=
  modify (λ s, s <| NVIC_IP ::= <[n := Z.land v (prio_bits s)]> |>).
Definition read_prio (n : Z) : C Z := gets (λ s, default 0 (NVIC_IP s !! n)).

Definition find_priorities : C unit :=
  let* ucOriginalPriority := read_prio portFIRST_USER_INTERRUPT_NUMBER in
  write_prio portFIRST_USER_INTERRUPT_NUMBER portMAX_8_BIT_VALUE ;>
  let* ucMaxPriorityValue := read_prio portFIRST_USER_INTERRUPT_NUMBER in
  modify (λ s, s <| ucMaxSysCallPriority := Z.land configMAX_SYSCALL_INTERRUPT_PRIORITY ucMaxPriorityValue |>) ;>
  configASSERT (negb (Z.land configMAX_SYSCALL_INTERRUPT_PRIORITY ucMaxPriorityValue =? 0)) ;>
  configASSERT (Z.ldiff configMAX_SYSCALL_INTERRUPT_PRIORITY ucMaxPriorityValue =? 0) ;>
  let* ulImplementedPrioBits := iterM 9 prio_one (0, ucMaxPriorityValue) in
  (if ulImplementedPrioBits =? 8 then
     configASSERT (Z.land configMAX_SYSCALL_INTERRUPT_PRIORITY 1 =? 0) ;>
     modify (λ s, s <| ulMaxPRIGROUPValue := 0 |>)
   else modify (λ s, s <| ulMaxPRIGROUPValue := wrap32 (portMAX_PRIGROUP_BITS - ulImplementedPrioBits) |>)) ;>
  modify (λ s, s <| ulMaxPRIGROUPValue ::= λ v, wrap32 (Z.shiftl v portPRIGROUP_SHIFT) |>) ;>
  modify (λ s, s <| ulMaxPRIGROUPValue ::= λ v, Z.land v portPRIORITY_GROUP_MASK |>) ;>
  write_prio portFIRST_USER_INTERRUPT_NUMBER ucOriginalPriority.

Definition vPortSetupTimerInterrupt : C unit :=
  store_word portNVIC_SYSTICK_CTRL_REG 0 ;>
  store_word portNVIC_SYSTICK_CURRENT_VALUE_REG 0 ;>
  store_word portNVIC_SYSTICK_LOAD_REG (configCPU_CLOCK_HZ / configTICK_RATE_HZ - 1) ;>
  store_word portNVIC_SYSTICK_CTRL_REG
    (Z.lor (Z.lor portNVIC_SYSTICK_CLK_BIT portNVIC_SYSTICK_INT_BIT) portNVIC_SYSTICK_ENABLE_BIT).

(** Up to [svc 0], whose exception runs the handler. *)
Definition prvPortStartFirstTask : C unit :=
  exec_code [
    LDR_sym (R 0) portSCB_VTOR_REG;
    LDR (R 0) (R 0);
    LDR (R 0) (R 0);
    MSR_msp (R 0);
    CPSIE_i;
    CPSIE_f;
    DSB;
    ISB ] ;>
  exception_entry portVECTOR_INDEX_SVC ;>
  vPortSVCHandler.

Definition set_priority_reg (v : Z) : C unit :=
  let* r := load portNVIC_SHPR3_REG in store_word portNVIC_SHPR3_REG (Z.lor r v).

(** It does not return: its last step leaves the first task running. *)
Definition xPortStartScheduler : C unit :=
  let* pxVectorTable := load portSCB_VTOR_REG in
  let* svc := load (wrap32 (pxVectorTable + 4 * portVECTOR_INDEX_SVC)) in
  configASSERT (svc =? addr_vPortSVCHandler) ;>
  let* pend := load (wrap32 (pxVectorTable + 4 * portVECTOR_INDEX_PENDSV)) in
  configASSERT (pend =? addr_xPortPendSVHandler) ;>
  find_priorities ;>
  set_priority_reg portNVIC_PENDSV_PRI ;>
  set_priority_reg portNVIC_SYSTICK_PRI ;>
  store_word portNVIC_SHPR2_REG 0 ;>
  vPortSetupTimerInterrupt ;>
  modify (λ s, s <| uxCriticalNesting := 0 |>) ;>
  prvPortStartFirstTask.

Definition vPortValidateInterruptPriority : C unit :=
  let* ulCurrentInterrupt := gets IPSR in
  (when portFIRST_USER_INTERRUPT_NUMBER <=? ulCurrentInterrupt then
     let* ucCurrentPriority := read_prio ulCurrentInterrupt in
     let* m := gets ucMaxSysCallPriority in
     configASSERT (m <=? ucCurrentPriority)) ;>
  let* aircr := load portAIRCR_REG in
  let* g := gets ulMaxPRIGROUPValue in
  configASSERT (Z.land aircr portPRIORITY_GROUP_MASK <=? g).
End port.
