(* ===== verification/PortSwitch.v ===== *)
(** * Context switches

    What PendSV and the interrupts do to the registers and the stacks: the
    context of the task that is switched out is saved on its stack, that of the
    next one is taken from its stack, and nothing else of either changes. *)
From S2P Require Import Prelude KList Tasks Port.

(** ** Words in memory *)
Fixpoint words_at (m : gmap Z Z) (a : Z) (ws : list Z) : Prop :=
  match ws with [] => True | w :: ws => m !! a = Some w ∧ words_at m (a + 4) ws end.
Fixpoint write (m : gmap Z Z) (a : Z) (ws : list Z) : gmap Z Z :=
  match ws with [] => m | w :: ws => write (<[a := w]> m) (a + 4) ws end.
Definition bytes (ws : list Z) : Z := 4 * Z.of_nat (length ws).

Lemma write_outside ws : ∀ m a b, b < a ∨ a + bytes ws ≤ b → write m a ws !! b = m !! b.
Proof.
  unfold bytes. induction ws as [|w ws IH]; intros m a b Hb; cbn [write length] in *; [done|].
  rewrite IH by lia. apply lookup_insert_ne. lia.
Qed.
Lemma words_at_write ws : ∀ m a, words_at (write m a ws) a ws.
Proof.
  induction ws as [|w ws IH]; intros m a; cbn [write words_at]; [done|].
  split; [|apply IH]. rewrite write_outside by lia. apply lookup_insert_eq.
Qed.
Lemma write_is_Some ws : ∀ m a b, is_Some (m !! b) → is_Some (write m a ws !! b).
Proof.
  induction ws as [|w ws IH]; intros m a b Hb; cbn [write]; [done|]. apply IH.
  destruct (decide (a = b)) as [->|]; [rewrite lookup_insert_eq; eauto|by rewrite lookup_insert_ne].
Qed.
Lemma words_at_same ws : ∀ m m' a,
  words_at m a ws → (∀ b, a ≤ b < a + bytes ws → m' !! b = m !! b) → words_at m' a ws.
Proof.
  unfold bytes. induction ws as [|w ws IH]; intros m m' a Hw Hs; cbn [words_at length] in *; [done|].
  destruct Hw as [Hw1 Hw2]. split; [rewrite Hs by lia; done|]. apply (IH m); [done|].
  intros b Hb. apply Hs. lia.
Qed.
Lemma words_at_app ws ws' : ∀ m a, words_at m a (ws ++ ws') ↔ words_at m a ws ∧ words_at m (a + bytes ws) ws'.
Proof.
  unfold bytes. induction ws as [|w ws IH]; intros m a; cbn [words_at length app].
  - replace (a + 4 * Z.of_nat 0) with a by lia. naive_solver.
  - rewrite IH. replace (a + 4 + 4 * Z.of_nat (length ws)) with (a + 4 * Z.of_nat (S (length ws))) by lia. naive_solver.
Qed.

Lemma mod4 a n : a mod 4 = 0 → (a + 4 * n) mod 4 = 0.
Proof. intros. rewrite Z.mul_comm, Z.mod_add by done. done. Qed.

(** Computes the registers of a state. *)
Ltac norm := unfold set_reg, set_sp, get_reg, get_sp, set_field;
  cbn [gpr r14 pc xPSR IPSR MSP PSP SPSEL BASEPRI PRIMASK FAULTMASK STKALIGN mem NVIC_IP prio_bits
       uxCriticalNesting ucMaxSysCallPriority ulMaxPRIGROUPValue ker andb Z.eqb Pos.eqb].

Section switch.
Context `{Link}.

(** Ordinary memory: not a word with a meaning of its own. *)
Definition plain (a : Z) : Prop := a ≠ addr_pxCurrentTCB ∧ a ≠ portNVIC_INT_CTRL_REG.
Definition usable (m : gmap Z Z) (lo hi : Z) : Prop :=
  ∀ b, lo ≤ b < hi → b mod 4 = 0 → is_Some (m !! b) ∧ plain b.

Lemma usable_sub m lo hi lo' hi' : usable m lo hi → lo ≤ lo' → hi' ≤ hi → usable m lo' hi'.
Proof. intros Hu ?? b ?. apply Hu. lia. Qed.
Lemma usable_mono m m' lo hi :
  usable m lo hi → (∀ b, is_Some (m !! b) → is_Some (m' !! b)) → usable m' lo hi.
Proof. intros Hu Hm b Hb H4. destruct (Hu b Hb H4). split; [by apply Hm|done]. Qed.

Lemma load_plain a s : plain a → load_word a s = mem s !! a.
Proof.
  intros [H1 H2]. unfold load_word.
  destruct (Z.eqb_spec a addr_pxCurrentTCB), (Z.eqb_spec a portNVIC_INT_CTRL_REG); done.
Qed.
Lemma wp_load a w (Q : Z → core → Prop) s : load_word a s = Some w → Q w s → wp (load a) Q s.
Proof. intros Hw HQ. apply wp_bind, wp_getM. by eapply wp_deref. Qed.
Lemma wp_store_word a v (Q : unit → core → Prop) s :
  plain a → is_Some (mem s !! a) → Q tt (s <| mem ::= <[a := v]> |>) → wp (store_word a v) Q s.
Proof.
  intros [H1 H2] [w Hw] HQ. unfold store_word. apply wp_bind, wp_getM.
  destruct (Z.eqb_spec a addr_pxCurrentTCB), (Z.eqb_spec a portNVIC_INT_CTRL_REG); try done.
  simpl. rewrite Hw. by apply wp_modify.
Qed.

Lemma set_mem_twice f g (s : core) : s <| mem ::= f |> <| mem ::= g |> = s <| mem ::= λ m, g (f m) |>.
Proof. done. Qed.
Lemma set_mem_ext f g (s : core) : f (mem s) = g (mem s) → s <| mem ::= f |> = s <| mem ::= g |>.
Proof. intros Hf. unfold set_field. simpl. by rewrite Hf. Qed.

Lemma wp_store_words ws : ∀ a (Q : unit → core → Prop) s,
  usable (mem s) a (a + bytes ws) → a mod 4 = 0 → 0 ≤ a → a + bytes ws < MAX32 →
  Q tt (s <| mem ::= λ m, write m a ws |>) → wp (store_words a ws) Q s.
Proof.
  unfold bytes. induction ws as [|w ws IH]; intros a Q s Hu H4 H0 Hlt HQ; cbn [store_words write length] in *.
  - apply wp_ret. by destruct s.
  - destruct (Hu a ltac:(lia) H4) as [Hex Hpl]. apply wp_bind, wp_store_word; [done..|].
    rewrite wrap32_small by (unfold u32; lia). apply IH; [|by apply (mod4 a 1)|lia|lia|done].
    apply (usable_mono (mem s)); [eapply usable_sub; [exact Hu|lia..]|].
    intros b. apply (write_is_Some [w]).
Qed.

Lemma wp_load_words ws : ∀ a (Q : list Z → core → Prop) s,
  words_at (mem s) a ws → (∀ b, a ≤ b < a + bytes ws → b mod 4 = 0 → plain b) → a mod 4 = 0 →
  0 ≤ a → a + bytes ws < MAX32 → Q ws s → wp (load_words a (length ws)) Q s.
Proof.
  unfold bytes. induction ws as [|w ws IH]; intros a Q s Hw Hp H4 H0 Hlt HQ; cbn [load_words words_at length] in *.
  - by apply wp_ret.
  - destruct Hw as [Hw1 Hw2]. apply wp_bind. eapply wp_load; [rewrite load_plain by (apply Hp; [lia|done]); exact Hw1|].
    apply wp_bind. rewrite wrap32_small by (unfold u32; lia).
    apply IH; [done| |by apply (mod4 a 1)|lia|lia|by apply wp_ret].
    intros b Hb. apply Hp. lia.
Qed.

(** ** Contexts *)
Record context := mkContext {
  x_gpr : list Z;
  x_lr : Z;
  x_pc : Z;
  x_psr : Z;
  x_sp : Z
}.
Definition context_of (s : core) : context := mkContext (gpr s) (r14 s) (pc s) (xPSR s) (PSP s).
(** In the task itself, not in a handler. *)
Definition in_task (s : core) : Prop := IPSR s = 0 ∧ SPSEL s = true.
Definition context_wf (c : context) : Prop := length (x_gpr c) = 13%nat ∧ Z.land (x_psr c) 1023 = 0.

(** What the processor pushes, below it what PendSV pushes. *)
Definition padded (al : bool) (c : context) : bool := al && Z.testbit (x_sp c) 2.
Definition frame (al : bool) (c : context) : list Z :=
  [x_gpr c !!! 0%nat; x_gpr c !!! 1%nat; x_gpr c !!! 2%nat; x_gpr c !!! 3%nat; x_gpr c !!! 12%nat;
   x_lr c; x_pc c; Z.lor (x_psr c) (if padded al c then 512 else 0)].
Definition callee (c : context) : list Z := (λ n, x_gpr c !!! n) <$> seq 4 8.
Definition frame_sp (al : bool) (c : context) : Z := x_sp c - (if padded al c then 36 else 32).
Definition top_sp (al : bool) (c : context) : Z := frame_sp al c - 32.

Lemma frame_bytes al c : bytes (frame al c) = 32.
Proof. done. Qed.
Lemma callee_bytes c : bytes (callee c) = 32.
Proof. done. Qed.
Lemma frame_sp_range al c : x_sp c - 36 ≤ frame_sp al c ≤ x_sp c - 32.
Proof. unfold frame_sp. destruct (padded al c); lia. Qed.
Lemma frame_sp_mod4 al c : x_sp c mod 4 = 0 → frame_sp al c mod 4 = 0.
Proof.
  unfold frame_sp. intros Hm. destruct (padded al c); [apply (mod4 _ (-9) Hm)|apply (mod4 _ (-8) Hm)].
Qed.

(** The exception frame of a task. *)
Lemma wp_exception_entry n (Q : unit → core → Prop) s :
  let c := context_of s in
  let a := frame_sp (STKALIGN s) c in
  in_task s → PSP s mod 4 = 0 → 36 ≤ PSP s < MAX32 → usable (mem s) (PSP s - 36) (PSP s) →
  Q tt (s <| mem ::= λ m, write m a (frame (STKALIGN s) c) |> <| PSP := a |> <| r14 := 4294967293 |> <| IPSR := n |>) →
  wp (exception_entry n) Q s.
Proof.
  intros c a [Hi Hsp] H4 Hr Hu HQ. unfold exception_entry. apply wp_bind, wp_getM.
  assert (get_sp s = PSP s) as Hget by (unfold get_sp; by rewrite Hi, Hsp).
  pose proof (frame_sp_range (STKALIGN s) c) as Hfr. change (x_sp c) with (PSP s) in Hfr.
  assert (wrap32 (get_sp s - (if STKALIGN s && Z.testbit (get_sp s) 2 then 36 else 32)) = a) as ->.
  { rewrite Hget. apply wrap32_small. unfold u32. fold a in Hfr. unfold a, frame_sp, padded in *.
    change (x_sp c) with (PSP s) in *. lia. }
  apply wp_bind. rewrite Hget, Hi, Z.lor_0_r. apply (wp_store_words (frame (STKALIGN s) c)).
  - eapply usable_sub; [exact Hu|fold a in Hfr; lia..|]. rewrite frame_bytes. unfold a, frame_sp.
    change (x_sp c) with (PSP s). destruct (padded _ c); lia.
  - by apply frame_sp_mod4.
  - fold a in Hfr. lia.
  - rewrite frame_bytes. fold a in Hfr. lia.
  - apply wp_bind, wp_modify, wp_bind, wp_modify, wp_modify.
    destruct s. unfold set_sp in *. revert HQ. subst a c. simpl in *. subst. done.
Qed.

(** *** Rules for the instructions that use memory *)
Lemma wp_LDR d r w (Q : unit → core → Prop) s :
  load_word (get_reg r s) s = Some w → Q tt (set_reg d w s) → wp (exec_instr (LDR d r)) Q s.
Proof. intros Hw HQ. apply wp_bind, wp_gets, wp_bind. eapply wp_load; [exact Hw|by apply wp_modify]. Qed.
Lemma wp_STR r1 r (Q : unit → core → Prop) s :
  plain (get_reg r s) → is_Some (mem s !! get_reg r s) →
  Q tt (s <| mem ::= <[get_reg r s := get_reg r1 s]> |>) → wp (exec_instr (STR r1 r)) Q s.
Proof. intros Hp He HQ. apply wp_bind, wp_getM. by apply wp_store_word. Qed.
Lemma wp_STMDB r rs (Q : unit → core → Prop) s :
  let n := 4 * Z.of_nat (length rs) in
  let a := get_reg r s - n in
  usable (mem s) a (get_reg r s) → get_reg r s mod 4 = 0 → n ≤ get_reg r s < MAX32 →
  Q tt (set_reg r a (s <| mem ::= λ m, write m a ((λ r, get_reg r s) <$> rs) |>)) →
  wp (exec_instr (STMDB r rs)) Q s.
Proof.
  intros n a Hu H4 Hr HQ. cbn [exec_instr]. apply wp_bind, wp_getM. fold n.
  rewrite wrap32_small by (unfold u32; lia). fold a. apply wp_bind.
  assert (a + bytes ((λ r, get_reg r s) <$> rs) = get_reg r s) as He.
  { unfold bytes. rewrite length_fmap. lia. }
  apply wp_store_words; [by rewrite He| |lia|lia|by apply wp_modify].
  replace a with (get_reg r s + 4 * - Z.of_nat (length rs)) by lia. by apply mod4.
Qed.
Lemma wp_LDMIA r rs ws (Q : unit → core → Prop) s :
  let a := get_reg r s in
  length rs = length ws → words_at (mem s) a ws → (∀ b, a ≤ b < a + bytes ws → b mod 4 = 0 → plain b) →
  a mod 4 = 0 → 0 ≤ a → a + bytes ws < MAX32 →
  Q tt (set_regs rs ws (set_reg r (a + bytes ws) s)) → wp (exec_instr (LDMIA r rs)) Q s.
Proof.
  intros a Hlen Hw Hp H4 H0 Hr HQ. cbn [exec_instr]. apply wp_bind, wp_gets, wp_bind. fold a.
  rewrite Hlen. apply wp_load_words; [done..|]. apply wp_bind, wp_modify, wp_modify.
  change (4 * Z.of_nat (length ws)) with (bytes ws). rewrite wrap32_small by (unfold u32, bytes in *; lia). done.
Qed.

#[global] Arguments exec_instr : simpl never.
#[global] Arguments write : simpl never.
#[global] Arguments words_at : simpl never.
#[global] Arguments load_word : simpl never.
#[global] Arguments load_words : simpl never.
#[global] Arguments store_words : simpl never.

(** PendSV's own part: R4 - R11 below the frame, the top of the stack in the TCB. *)
Lemma wp_PendSV_save t (Q : unit → core → Prop) s :
  let top := PSP s - 32 in
  IPSR s = 14 → length (gpr s) = 13%nat → pxCurrentTCB (ker s) = Some t →
  PSP s mod 4 = 0 → 32 ≤ PSP s < MAX32 → usable (mem s) top (PSP s) →
  plain t → is_Some (mem s !! t) →
  MSP s mod 4 = 0 → 8 ≤ MSP s < MAX32 → usable (mem s) (MSP s - 8) (MSP s) →
  (∀ g, length g = 13%nat →
    Q tt (s <| gpr := g |> <| MSP := MSP s - 8 |> <| BASEPRI := configMAX_SYSCALL_INTERRUPT_PRIORITY |>
      <| mem ::= λ m, write (<[t := top]> (write m top (callee (context_of s)))) (MSP s - 8) [addr_pxCurrentTCB; r14 s] |>)) →
  wp (exec_code PendSV_save) Q s.
Proof.
  intros top Hi Hlen Hcur H4 Hr Hu Hpl Hex HM4 HMr HMu HQ. unfold PendSV_save. cbn [exec_code].
  apply wp_bind, wp_modify, wp_bind, wp_ret, wp_bind, wp_modify, wp_bind.
  destruct s as [g lr pc0 psr ip ms ps sel bp pm fm al m nv pb cn ms1 mg k]. subst top. simpl in *. subst ip.
  do 13 (destruct g as [|? g]; [done|]). destruct g; [|done]. clear Hlen. norm. simpl.
  eapply wp_LDR; [unfold load_word; simpl; rewrite Z.eqb_refl, Hcur; reflexivity|]. norm. simpl.
  apply wp_bind, wp_STMDB; norm; simpl.
  { done. }
  { done. }
  { lia. }
  apply wp_bind, wp_STR; norm; simpl.
  { done. }
  { by apply write_is_Some. }
  apply wp_bind, wp_STMDB; norm; simpl.
  { apply (usable_mono m); [done|]. intros b Hb.
    apply lookup_insert_is_Some'. right. by apply write_is_Some. }
  { done. }
  { lia. }
  apply wp_bind, wp_modify, wp_bind, wp_modify, wp_ret. norm. simpl. by apply HQ.
Qed.

(** The status word that was pushed, taken apart again. *)
Lemma low_bits x i : Z.land x 1023 = 0 → 0 ≤ i < 10 → Z.testbit x i = false.
Proof.
  intros Hx Hi. apply (f_equal (λ z, Z.testbit z i)) in Hx. rewrite Z.land_spec, Z.bits_0 in Hx.
  change 1023 with (Z.ones 10) in Hx. rewrite Z.ones_spec_low in Hx by lia. by rewrite andb_true_r in Hx.
Qed.
Lemma bit_512 i : 0 ≤ i → Z.testbit 512 i = bool_decide (i = 9).
Proof. intros. change 512 with (2 ^ 9). rewrite Z.pow2_bits_eqb by lia. destruct (Z.eqb_spec 9 i), (bool_decide_reflect (i = 9)); lia || done. Qed.
Section status.
Context (x : Z) (b : bool) (Hx : Z.land x 1023 = 0).
Definition status : Z := Z.lor x (if b then 512 else 0).
Lemma status_psr : Z.ldiff status 1023 = x.
Proof.
  apply Z.bits_inj'. intros i Hi. unfold status. rewrite Z.ldiff_spec, Z.lor_spec.
  change 1023 with (Z.ones 10). destruct (decide (i < 10)).
  - rewrite Z.ones_spec_low, andb_false_r by lia. by rewrite low_bits.
  - rewrite Z.ones_spec_high, andb_true_r by lia. destruct b; [rewrite bit_512 by lia|rewrite Z.bits_0; by rewrite orb_false_r].
    rewrite bool_decide_eq_false_2 by lia. by rewrite orb_false_r.
Qed.
Lemma status_exception : Z.land status 511 = 0.
Proof.
  apply Z.bits_inj'. intros i Hi. unfold status. rewrite Z.land_spec, Z.lor_spec, Z.bits_0.
  change 511 with (Z.ones 9). destruct (decide (i < 9)).
  - rewrite low_bits by (done || lia). destruct b; [rewrite bit_512 by lia|by rewrite Z.bits_0].
    by rewrite bool_decide_eq_false_2 by lia.
  - by rewrite Z.ones_spec_high, andb_false_r by lia.
Qed.
Lemma status_pad : Z.testbit status 9 = b.
Proof. unfold status. rewrite Z.lor_spec, low_bits by (done || lia). by destruct b. Qed.
End status.

(** Back to a task: its frame is popped. *)
Lemma wp_exception_return c v (Q : unit → core → Prop) s :
  Z.land v 15 = 13 → context_wf c → x_sp c mod 4 = 0 → 36 ≤ x_sp c < MAX32 →
  PSP s = frame_sp (STKALIGN s) c → words_at (mem s) (PSP s) (frame (STKALIGN s) c) →
  (∀ b, PSP s ≤ b < PSP s + 32 → b mod 4 = 0 → plain b) →
  length (gpr s) = 13%nat → callee (context_of s) = callee c →
  Q tt (s <| gpr := x_gpr c |> <| r14 := x_lr c |> <| pc := x_pc c |> <| xPSR := x_psr c |> <| IPSR := 0 |>
          <| PSP := x_sp c |> <| SPSEL := true |>) →
  wp (exception_return v) Q s.
Proof.
  intros Hv [Hlen Hpsr] H4 Hr Hps Hw Hp Hg Hcal HQ. unfold exception_return. rewrite Hv. cbn [Z.eqb Pos.eqb orb].
  pose proof (frame_sp_range (STKALIGN s) c) as Hfr.
  assert (PSP s mod 4 = 0) as Hf4 by (rewrite Hps; by apply frame_sp_mod4).
  apply wp_bind, wp_modify, wp_bind, wp_getM. apply wp_bind.
  change (PSP (s <| SPSEL := true |>)) with (PSP s).
  apply (wp_load_words (frame (STKALIGN s) c)); rewrite ?frame_bytes; [done|done|done|lia|lia|].
  unfold frame at 1. change (STKALIGN (s <| SPSEL := true |>)) with (STKALIGN s).
  fold (status (x_psr c) (padded (STKALIGN s) c)).
  rewrite status_pad, status_psr, status_exception by done.
  assert (wrap32 (PSP s + (if STKALIGN s && padded (STKALIGN s) c then 36 else 32)) = x_sp c) as ->.
  { rewrite Hps. unfold frame_sp, padded in *. destruct (STKALIGN s); simpl; [destruct (Z.testbit _ 2)|];
      rewrite wrap32_small; unfold u32; lia. }
  apply wp_bind, wp_modify, wp_bind, wp_modify, wp_modify.
  destruct s as [g lr pc0 psr ip ms ps sel bp pm fm al m nv pb cn ms1 mg k]. destruct c as [xg xl xp xr xs].
  simpl in *. clear -Hlen Hg Hcal HQ.
  do 13 (destruct g as [|? g]; [done|]). destruct g; [|done].
  do 13 (destruct xg as [|? xg]; [done|]). destruct xg; [|done].
  unfold callee in Hcal. simpl in Hcal. injection Hcal as -> -> -> -> -> -> -> ->. exact HQ.
Qed.

(** The context [c] of task [u] is saved on its stack. *)
Record saved (s : core) (u : Z) (c : context) : Prop := {
  sv_wf : context_wf c;
  sv_mod4 : x_sp c mod 4 = 0;
  sv_range : 72 ≤ x_sp c < MAX32;
  sv_tcb : plain u;
  sv_top : mem s !! u = Some (top_sp (STKALIGN s) c);
  sv_words : words_at (mem s) (top_sp (STKALIGN s) c) (callee c ++ frame (STKALIGN s) c);
  sv_plain : ∀ b, x_sp c - 68 ≤ b < x_sp c → b mod 4 = 0 → plain b
}.

Lemma saved_same s s' u c :
  saved s u c → STKALIGN s' = STKALIGN s → mem s' !! u = mem s !! u →
  (∀ b, x_sp c - 68 ≤ b < x_sp c → mem s' !! b = mem s !! b) → saved s' u c.
Proof.
  intros [Hwf H4 Hr Hp Ht Hw Hpl] Hal Hu Hm. split; try done; rewrite Hal; [by rewrite Hu|].
  eapply words_at_same; [exact Hw|]. intros b Hb. apply Hm.
  unfold bytes in Hb. rewrite length_app in Hb. simpl in Hb. pose proof (frame_sp_range (STKALIGN s) c). unfold top_sp in Hb. lia.
Qed.

Lemma saved_frame s u c : saved s u c → words_at (mem s) (frame_sp (STKALIGN s) c) (frame (STKALIGN s) c).
Proof.
  intros [_ _ _ _ _ Hw _]. apply words_at_app in Hw as [_ Hw]. rewrite callee_bytes in Hw. unfold top_sp in Hw.
  by replace (frame_sp (STKALIGN s) c - 32 + 32) with (frame_sp (STKALIGN s) c) in Hw by lia.
Qed.

(** [ldr r1, [r3]; ldr r0, [r1]; ldmia r0!, {r4-r11}; msr psp, r0; isb]: the
    code both handlers take a context with. *)
Definition pop_code : list instr := [LDR (R 1) (R 3); LDR (R 0) (R 1); LDMIA (R 0) (regs 4 11); MSR_psp (R 0); ISB].
Lemma exec_code_app is1 is2 (Q : unit → core → Prop) s :
  wp (exec_code is1) (λ _ s', wp (exec_code is2) Q s') s → wp (exec_code (is1 ++ is2)) Q s.
Proof.
  revert s. induction is1 as [|i is1 IH]; intros s Hw; [exact Hw|].
  apply wp_bind. cbn [exec_code] in Hw. apply wp_bind_inv in Hw. eapply wp_mono; [exact Hw|]. intros a s'. apply IH.
Qed.
Lemma wp_pop u c (Q : unit → core → Prop) s :
  saved s u c → pxCurrentTCB (ker s) = Some u → length (gpr s) = 13%nat → get_reg (R 3) s = addr_pxCurrentTCB →
  (∀ g, length g = 13%nat → (λ n, g !!! n) <$> seq 4 8 = callee c →
     Q tt (s <| gpr := g |> <| PSP := frame_sp (STKALIGN s) c |>)) →
  wp (exec_code pop_code) Q s.
Proof.
  intros [[Hxl Hpsr] H4 Hr Hp Ht Hw Hpl] Hcur Hlen H3 HQ. unfold pop_code. cbn [exec_code].
  pose proof (frame_sp_range (STKALIGN s) c) as Hfr. apply words_at_app in Hw as [Hw _].
  apply wp_bind. eapply wp_LDR; [rewrite H3; unfold load_word; rewrite Z.eqb_refl, Hcur; reflexivity|].
  simpl default. apply wp_bind. eapply (wp_LDR _ _ (top_sp (STKALIGN s) c)).
  { destruct s as [g ? ? ? ? ? ? ? ? ? ? ? ? ? ? ? ? ? ?]. norm. simpl in *.
    do 13 (destruct g as [|? g]; [done|]). destruct g; [|done]. simpl. by rewrite load_plain. }
  assert (∃ g', length g' = 13%nat ∧ g' !!! 0%nat = top_sp (STKALIGN s) c ∧
    set_reg (R 0) (top_sp (STKALIGN s) c) (set_reg (R 1) u s) = s <| gpr := g' |>) as (g' & Hg' & Hg0 & ->).
  { exists (<[0%nat := top_sp (STKALIGN s) c]> (<[1%nat := u]> (gpr s))). rewrite !length_insert.
    split_and!; [done| |by destruct s]. apply list_lookup_total_insert_eq. rewrite length_insert. lia. }
  assert (get_reg (R 0) (s <| gpr := g' |>) = top_sp (STKALIGN s) c) as Hr0 by exact Hg0.
  assert (top_sp (STKALIGN s) c + bytes (callee c) = frame_sp (STKALIGN s) c) as Hb by (rewrite callee_bytes; unfold top_sp; lia).
  apply wp_bind, (wp_LDMIA _ _ (callee c)); rewrite ?Hr0, ?Hb.
  { done. }
  { exact Hw. }
  { intros b Hb'. apply Hpl. unfold top_sp in Hb'. lia. }
  { apply (mod4 _ (-8)), (frame_sp_mod4 _ _ H4). }
  { unfold top_sp. lia. }
  { lia. }
  apply wp_bind, wp_modify, wp_bind, wp_ret, wp_ret.
  clear -HQ Hg' Hxl. destruct s as [g lr pc0 psr ip ms ps sel bp pm fm al m nv pb cn ms1 mg k].
  do 13 (destruct g' as [|? g']; [done|]). destruct g'; [|done].
  destruct c as [xg xl xp xr xs]. unfold callee in *. simpl in *. refine (HQ [_; _; _; _; _; _; _; _; _; _; _; _; _] _ _); reflexivity.
Qed.

(** What a task finds when it runs again: its context, and interrupts enabled. *)
Definition resumed (c : context) (s : core) : core :=
  s <| gpr := x_gpr c |> <| r14 := x_lr c |> <| pc := x_pc c |> <| xPSR := x_psr c |> <| IPSR := 0 |>
    <| PSP := x_sp c |> <| SPSEL := true |> <| BASEPRI := 0 |>.

(** The end of both handlers: the registers R4 - R11 are there, the frame is next. *)
Lemma wp_resume c v g (Q : unit → core → Prop) s :
  Z.land v 15 = 13 → context_wf c → x_sp c mod 4 = 0 → 72 ≤ x_sp c < MAX32 →
  words_at (mem s) (frame_sp (STKALIGN s) c) (frame (STKALIGN s) c) →
  (∀ b, x_sp c - 68 ≤ b < x_sp c → b mod 4 = 0 → plain b) →
  length g = 13%nat → (λ n, g !!! n) <$> seq 4 8 = callee c → BASEPRI s = 0 →
  gpr s = g → PSP s = frame_sp (STKALIGN s) c →
  Q tt (resumed c s) → wp (exception_return v) Q s.
Proof.
  intros Hv Hwf H4 Hr Hw Hpl Hg Hcal Hb Hgs Hps HQ. pose proof (frame_sp_range (STKALIGN s) c).
  apply (wp_exception_return c); rewrite ?Hps; [done|done|done|lia|done|done| |by rewrite Hgs|by rewrite <- Hcal, <- Hgs|].
  - intros b Hb'. apply Hpl. lia.
  - destruct s. unfold resumed in HQ. simpl in *. subst. exact HQ.
Qed.

Lemma wp_PendSV_restore u c v (Q : unit → core → Prop) s :
  saved s u c → pxCurrentTCB (ker s) = Some u → length (gpr s) = 13%nat → IPSR s = 14 → Z.land v 15 = 13 →
  MSP s mod 4 = 0 → 0 ≤ MSP s → MSP s + 8 < MAX32 →
  words_at (mem s) (MSP s) [addr_pxCurrentTCB; v] →
  (∀ b, MSP s ≤ b < MSP s + 8 → b mod 4 = 0 → plain b) →
  Q tt (resumed c (s <| MSP := MSP s + 8 |>)) →
  wp (exec_code PendSV_restore ;> BX R14) Q s.
Proof.
  intros Hsv Hcur Hlen Hi Hv HM4 HM0 HM Hw Hpl HQ.
  change PendSV_restore with ([MOV (R 0) 0; MSR_basepri (R 0); LDMIA SP [R 3; R14]] ++ pop_code).
  apply wp_bind, exec_code_app. cbn [exec_code]. apply wp_bind, wp_modify, wp_bind, wp_modify, wp_bind.
  destruct s as [g lr pc0 psr ip ms ps sel bp pm fm al m nv pb cn ms1 mg k].
  simpl in Hcur, Hlen, Hi, HM4, HM0, HM, Hw, Hpl. subst ip.
  do 13 (destruct g as [|? g]; [done|]). destruct g; [|done]. clear Hlen. norm. simpl.
  apply (wp_LDMIA _ _ [addr_pxCurrentTCB; v]); [done|exact Hw|exact Hpl|done|done|norm; unfold bytes; simpl; lia|].
  norm. simpl. apply wp_ret. apply (wp_pop u c); [eapply saved_same; [exact Hsv|done..]|done|done|done|].
  intros g Hg Hcal. norm. apply wp_bind, wp_gets. norm.
  pose proof (saved_frame _ _ _ Hsv) as Hws. destruct Hsv as [Hwf H4 Hr Hp Ht _ Hpl']. simpl in *.
  apply (wp_resume c v g); simpl; done.
Qed.

(** The handler that starts the first task. *)
Lemma wp_vPortSVCHandler u c (Q : unit → core → Prop) s :
  saved s u c → pxCurrentTCB (ker s) = Some u → length (gpr s) = 13%nat → r14 s = 4294967289 →
  Q tt (resumed c s) → wp vPortSVCHandler Q s.
Proof.
  intros Hsv Hcur Hlen Hlr HQ. unfold vPortSVCHandler.
  match goal with |- wp (exec_code ?cd ;> _) _ _ =>
    change cd with ([LDR_sym (R 3) addr_pxCurrentTCB] ++ pop_code ++ [MOV (R 0) 0; MSR_basepri (R 0); ORR R14 13]) end.
  apply wp_bind, exec_code_app. cbn [exec_code]. apply wp_bind, wp_modify, wp_ret, exec_code_app.
  destruct s as [g lr pc0 psr ip ms ps sel bp pm fm al m nv pb cn ms1 mg k]. simpl in Hcur, Hlen, Hlr. subst lr.
  apply (wp_pop u c); [eapply saved_same; [exact Hsv|done..]|done|norm; by rewrite length_insert|..].
  { norm. apply list_lookup_total_insert_eq. lia. }
  intros g' Hg Hcal. norm. cbn [exec_code]. apply wp_bind, wp_modify, wp_bind, wp_modify, wp_bind, wp_modify, wp_ret. norm.
  apply wp_bind, wp_gets. norm. rewrite list_lookup_total_insert_eq by lia.
  pose proof (saved_frame _ _ _ Hsv) as Hws. destruct Hsv as [Hwf H4 Hr Hp Ht _ Hpl']. simpl in *.
  apply (wp_resume c _ (<[0%nat := 0]> g')); simpl; try done; [by rewrite length_insert|].
  clear -Hg Hcal. rewrite <- Hcal. do 13 (destruct g' as [|? g']; [done|]). by destruct g'.
Qed.
End switch.
