(* ===== verification/PortKernel.v ===== *)
(** * What the kernel's functions leave to the port

    The calls and interrupts of [TasksMachine], the switch apart, change neither
    the running task nor where the tasks have their stacks nor how many there
    are; the switch changes the running task only. *)
From S2P Require Import Prelude KList Tasks TasksCreate TasksMachine.

Definition port_view (k : kernel) : gmap Z Z * Z * option Z * bool :=
  (pxStack <$> k_tcbs k, uxCurrentNumberOfTasks k, pxCurrentTCB k, xSchedulerRunning k).
(** The same without the running task. *)
Definition stacks_view (k : kernel) : gmap Z Z * Z * bool :=
  (pxStack <$> k_tcbs k, uxCurrentNumberOfTasks k, xSchedulerRunning k).

Lemma fmap_insert_same (T : gmap Z TCB_t) t x f :
  T !! t = Some x → pxStack (f x) = pxStack x → pxStack <$> <[t := f x]> T = pxStack <$> T.
Proof.
  intros Hx Hf. rewrite fmap_insert, Hf. apply insert_id. by rewrite lookup_fmap, Hx.
Qed.

(** A view that the lists, the counters and the priorities are not part of. *)
Class PortView {T} (w : kernel → T) := {
  pv_lists k s : w (k <| k_lists := s |>) = w k;
  pv_tcb k t x f : k_tcbs k !! t = Some x → pxStack (f x) = pxStack x →
    w (k <| k_tcbs ::= <[t := f x]> |>) = w k
}.
#[export] Instance port_view_ok : PortView port_view.
Proof.
  split; [done|]. intros k t x f Hx Hf. unfold port_view. simpl. by rewrite (fmap_insert_same _ _ _ _ Hx Hf).
Qed.
#[export] Instance stacks_view_ok : PortView stacks_view.
Proof.
  split; [done|]. intros k t x f Hx Hf. unfold stacks_view. simpl. by rewrite (fmap_insert_same _ _ _ _ Hx Hf).
Qed.

Section view.
Context {T : Type} (w : kernel → T) `{!PortView w} (x : T).
Abbreviation kv := (keeps (λ k, w k = x)).

Lemma keeps_view_kl {A} (m : M store A) : kv (kl m).
Proof.
  intros k a k' Hk. unfold kl, zoom. destruct (m (k_lists k)) as [[b s]| | | |]; [|done..].
  intros [= _ <-]. by rewrite pv_lists.
Qed.
Lemma keeps_view_tcb_set t f : (∀ y, pxStack (f y) = pxStack y) → kv (tcb_set t f).
Proof.
  intros Hf k a k' Hk. unfold tcb_set, bindM, getM. destruct (k_tcbs k !! t) as [y|] eqn:Hy; [|done].
  intros [= _ <-]. rewrite (pv_tcb k t y f Hy (Hf y)). done.
Qed.
Lemma keeps_view_tcb_get {A} t (f : TCB_t → A) : kv (tcb_get t f).
Proof. unfold tcb_get. solve_keeps. Qed.
End view.

Lemma keeps_with_state {S A} (P : S → Prop) (f : S → M S A) :
  (∀ s, P s → keeps P (f s)) → keeps P (bindM getM f).
Proof. intros Hf s a s' Hs Hr. exact (Hf s Hs s a s' Hs Hr). Qed.
#[export] Hint Extern 1 (keeps _ (kl _)) => apply keeps_view_kl; apply _ : keeps.
#[export] Hint Extern 1 (keeps _ (tcb_get _ _)) => apply keeps_view_tcb_get; apply _ : keeps.

(** Follows the code of an operation. *)
Ltac view_step :=
  lazymatch goal with
  | |- keeps _ (tcb_set _ _) => apply keeps_view_tcb_set; [apply _|intros; reflexivity]
  | |- keeps _ (modify _) => apply keeps_modify; intros ? <-; reflexivity
  | |- keeps _ (critical _) => unfold critical
  | |- _ => keeps_step
  end.
Ltac solve_view := intros; repeat view_step.

Section ops.
Context (x : gmap Z Z * Z * option Z * bool).
Abbreviation kv := (keeps (λ k, port_view k = x)).

Lemma view_current : kv current. Proof. unfold current. solve_view. Qed.
Lemma view_ready t : kv (prvAddTaskToReadyList t).
Proof. unfold prvAddTaskToReadyList, portRECORD_READY_PRIORITY. solve_view. Qed.
Lemma view_RESET p : kv (taskRESET_READY_PRIORITY p).
Proof. unfold taskRESET_READY_PRIORITY, portRESET_READY_PRIORITY. solve_view. Qed.
Lemma view_pRESET p : kv (portRESET_READY_PRIORITY p). Proof. unfold portRESET_READY_PRIORITY. solve_view. Qed.
#[local] Hint Resolve view_current view_ready view_RESET view_pRESET : keeps.
Lemma view_preempts t : kv (preempts t). Proof. unfold preempts. solve_view. Qed.
Lemma view_resetNext : kv prvResetNextTaskUnblockTime.
Proof. unfold prvResetNextTaskUnblockTime. solve_view. Qed.
Lemma view_handle h : kv (prvGetTCBFromHandle h). Proof. unfold prvGetTCBFromHandle. solve_view. Qed.
Lemma view_yield : kv portYIELD_WITHIN_API. Proof. unfold portYIELD_WITHIN_API, portYIELD. solve_view. Qed.
Lemma view_setYield : kv setYieldPending. Proof. unfold setYieldPending. solve_view. Qed.
#[local] Hint Resolve view_preempts view_resetNext view_handle view_yield view_setYield : keeps.
Lemma view_switch_lists : kv taskSWITCH_DELAYED_LISTS. Proof. unfold taskSWITCH_DELAYED_LISTS. solve_view. Qed.
Lemma view_unblock_one n b : kv (unblock_one n b). Proof. unfold unblock_one. solve_view. Qed.
#[local] Hint Resolve view_switch_lists view_unblock_one : keeps.
Lemma view_unblock_loop n : kv (unblock_loop n). Proof. unfold unblock_loop. solve_view. Qed.
#[local] Hint Resolve view_unblock_loop : keeps.
Lemma view_tick : kv xTaskIncrementTick. Proof. unfold xTaskIncrementTick. solve_view. Qed.
#[local] Hint Resolve view_tick : keeps.
Lemma view_suspendAll : kv vTaskSuspendAll. Proof. unfold vTaskSuspendAll. solve_view. Qed.
Lemma view_move_pending : kv move_pending. Proof. unfold move_pending, move_pending_one. solve_view. Qed.
Lemma view_pended_ticks n : kv (pended_ticks n). Proof. induction n; simpl; solve_view. Qed.
#[local] Hint Resolve view_suspendAll view_move_pending view_pended_ticks : keeps.
Lemma view_resumeAll : kv xTaskResumeAll. Proof. unfold xTaskResumeAll. solve_view. Qed.
Lemma view_block n b : kv (prvAddCurrentTaskToDelayedList n b).
Proof. unfold prvAddCurrentTaskToDelayedList, portRESET_READY_PRIORITY. solve_view. Qed.
Lemma view_event_value t p : kv (setEventItemPriority t p). Proof. unfold setEventItemPriority. solve_view. Qed.
Lemma view_moveReady t p : kv (moveReady t p).
Proof. unfold moveReady, portRESET_READY_PRIORITY. solve_view. Qed.
Lemma view_suspended t : kv (prvTaskIsTaskSuspended t). Proof. unfold prvTaskIsTaskSuspended. solve_view. Qed.
Lemma view_state t : kv (eTaskGetState t). Proof. unfold eTaskGetState. solve_view. Qed.
Lemma view_yield_any t : kv (taskYIELD_ANY_CORE_IF_USING_PREEMPTION t).
Proof. unfold taskYIELD_ANY_CORE_IF_USING_PREEMPTION. solve_view. Qed.
#[local] Hint Resolve view_resumeAll view_block view_event_value view_moveReady view_suspended view_state view_yield_any : keeps.
Lemma view_abort t : kv (xTaskAbortDelay t). Proof. unfold xTaskAbortDelay. solve_view. Qed.
Lemma view_prio h p : kv (vTaskPrioritySet h p).
Proof. unfold vTaskPrioritySet, portRESET_READY_PRIORITY. solve_view. Qed.
Lemma view_inherit h : kv (xTaskPriorityInherit h). Proof. unfold xTaskPriorityInherit, portRESET_READY_PRIORITY. solve_view. Qed.
Lemma view_disinherit h : kv (xTaskPriorityDisinherit h).
Proof. unfold xTaskPriorityDisinherit, portRESET_READY_PRIORITY. solve_view. Qed.
Lemma view_resume h : kv (vTaskResume h). Proof. unfold vTaskResume. solve_view. Qed.
Lemma view_resume_isr t : kv (xTaskResumeFromISR t). Proof. unfold xTaskResumeFromISR. solve_view. Qed.
#[local] Hint Resolve view_abort view_prio view_inherit view_disinherit view_resume view_resume_isr : keeps.

(** A task is suspended without a switch at once while the scheduler runs. *)
Lemma view_suspend h : x.2 = true → kv (vTaskSuspend h).
Proof.
  intros Hx. unfold vTaskSuspend.
  repeat lazymatch goal with |- keeps _ (bindM getM _) => fail | _ => view_step end.
  apply keeps_bind; [solve_view|]. intros u0. apply keeps_bind; [solve_view|]. intros u1. apply keeps_with_state. intros k Hk.
  assert (xSchedulerRunning k = true) as -> by (rewrite <- Hk in Hx; exact Hx). solve_view.
Qed.
#[local] Hint Resolve view_suspend : keeps.

(** The calls and interrupts that are neither the switch nor make a task. *)
Definition switches (a : action) : bool := match a with APendSV | ACreate _ _ _ => true | _ => false end.
Lemma view_run_action a : switches a = false → x.2 = true → kv (run_action a).
Proof.
  intros Hs Hx. destruct a; simplify_eq/=; try solve [auto with keeps].
  all: unfold xPortSysTickHandler, vTaskDelay, xTaskDelayUntil, xTaskCatchUpTicks, portEND_SWITCHING_ISR,
    pvTaskIncrementMutexHeldCount; solve_view.
Qed.
End ops.

Lemma run_action_view a k k' :
  switches a = false → xSchedulerRunning k = true → run_action a k = ROk (tt, k') → port_view k' = port_view k.
Proof. intros Hs Hx Hr. by apply (view_run_action (port_view k) a Hs Hx _ _ _ eq_refl Hr). Qed.
Lemma vTaskSwitchContext_view k k' u : vTaskSwitchContext k = ROk (u, k') → stacks_view k' = stacks_view k.
Proof.
  intros Hr. enough (keeps (λ k1, stacks_view k1 = stacks_view k) vTaskSwitchContext) as Hk by by eapply Hk.
  unfold vTaskSwitchContext, setYieldPending, taskSELECT_HIGHEST_PRIORITY_TASK. solve_view.
Qed.
