(* ===== verification/PortMachine.v ===== *)
(** * Tasks on the processor

    The whole machine: the running task computes with its registers and its
    stack, calls the kernel and nests critical sections, interrupts come in, and
    PendSV switches to the task the kernel has chosen.  [board_ok] is the
    invariant: every task that does not run has its context saved on its own
    stack. *)
From S2P Require Import Prelude KList Tasks TasksView TasksInv TasksOps TasksCreate TasksMachine.
From S2P Require Import Port PortSwitch PortKernel.

Definition canary : list Z := [2779096485; 2779096485; 2779096485; 2779096485].

(** The memory after PendSV has saved the task [t] and called the scheduler. *)
Section switch_mem.
Context `{Link} (m scratch : gmap Z Z) (t sp fsp msp lr : Z) (fr cs : list Z).
Context (Hfr : bytes fr = 32) (Hcs : bytes cs = 32) (Hf : sp - 36 ≤ fsp ≤ sp - 32).
Context (Hsp : sp ≤ main_stack_limit ∨ msp ≤ sp - 68) (Ht : t < sp - 68 ∨ sp ≤ t).
Context (Htm : t < main_stack_limit ∨ msp ≤ t) (Hm : main_stack_limit + 8 ≤ msp).

Definition saved_mem : gmap Z Z :=
  write (<[t := fsp - 32]> (write (write m fsp fr) (fsp - 32) cs)) (msp - 8) [addr_pxCurrentTCB; lr].
Definition switched_mem : gmap Z Z :=
  filter (λ aw, main_stack_limit ≤ aw.1 < msp - 8) scratch ∪ saved_mem.

Lemma scratch_outside (m' : gmap Z Z) b :
  b < main_stack_limit ∨ msp - 8 ≤ b → (filter (λ aw, main_stack_limit ≤ aw.1 < msp - 8) scratch ∪ m') !! b = m' !! b.
Proof.
  intros Hb. apply lookup_union_r, map_lookup_filter_None. right. intros w _. simpl. lia.
Qed.
Lemma saved_other b : b < main_stack_limit ∨ msp ≤ b → b ≠ t → b < sp - 68 ∨ sp ≤ b → saved_mem !! b = m !! b.
Proof.
  intros Hb Hbt Hbs. unfold saved_mem. rewrite write_outside by (unfold bytes; simpl; lia).
  rewrite lookup_insert_ne by done. rewrite !write_outside by lia. done.
Qed.
Lemma switched_other b : b < main_stack_limit ∨ msp ≤ b → b ≠ t → b < sp - 68 ∨ sp ≤ b → switched_mem !! b = m !! b.
Proof. intros Hb Hbt Hbs. unfold switched_mem. rewrite scratch_outside by lia. by apply saved_other. Qed.
Lemma saved_tcb : saved_mem !! t = Some (fsp - 32).
Proof.
  unfold saved_mem. rewrite write_outside by (unfold bytes; simpl; lia). apply lookup_insert_eq.
Qed.
Lemma switched_tcb : switched_mem !! t = Some (fsp - 32).
Proof. unfold switched_mem. rewrite scratch_outside by lia. apply saved_tcb. Qed.
Lemma switched_words : words_at switched_mem (fsp - 32) (cs ++ fr).
Proof.
  assert (∀ b, fsp - 32 ≤ b < fsp + 32 → switched_mem !! b = write (write m fsp fr) (fsp - 32) cs !! b) as Hs.
  { intros b Hb. unfold switched_mem. rewrite scratch_outside by lia. unfold saved_mem.
    rewrite write_outside by (unfold bytes; simpl; lia). rewrite lookup_insert_ne by lia. done. }
  apply words_at_app. rewrite Hcs. replace (fsp - 32 + 32) with fsp by lia. split.
  - eapply words_at_same; [apply words_at_write|]. intros b Hb. apply Hs. lia.
  - eapply (words_at_same _ (write m fsp fr)); [apply words_at_write|]. intros b Hb. rewrite Hs by lia. apply write_outside. lia.
Qed.
Lemma switched_main : words_at switched_mem (msp - 8) [addr_pxCurrentTCB; lr].
Proof.
  eapply words_at_same; [apply words_at_write|]. intros b Hb. apply scratch_outside. unfold bytes in Hb. simpl in Hb. lia.
Qed.
Lemma saved_exists b : is_Some (m !! b) → is_Some (saved_mem !! b).
Proof. intros Hb. apply write_is_Some, lookup_insert_is_Some'. right. by apply write_is_Some, write_is_Some. Qed.
Lemma switched_exists b : is_Some (m !! b) → is_Some (switched_mem !! b).
Proof. intros Hb. apply lookup_union_is_Some. right. by apply saved_exists. Qed.
End switch_mem.

Section machine.
Context `{Link} (idle main_top : Z).

(** ** The invariant *)

(** The stack of task [t]: the words from [r.1] up to [r.2]. *)
Record region_ok (s : core) (t : Z) (r : Z * Z) : Prop := {
  rg_range : 0 ≤ r.1 ∧ r.2 < MAX32;
  rg_mod4 : r.1 mod 4 = 0;
  rg_usable : usable (mem s) r.1 r.2;
  rg_canary : words_at (mem s) r.1 canary;
  rg_tcb : plain t ∧ is_Some (mem s !! t);
  rg_main : r.2 ≤ main_stack_limit ∨ main_top ≤ r.1;
  rg_tcb_main : t < main_stack_limit ∨ main_top ≤ t
}.
(** Where the stacks begin. *)
Definition lows (R : gmap Z (Z * Z)) : gmap Z Z := fst <$> R.
Definition apart (R : gmap Z (Z * Z)) : Prop :=
  (∀ t u r r', R !! t = Some r → R !! u = Some r' → t ≠ u → r.2 ≤ r'.1 ∨ r'.2 ≤ r.1) ∧
  (∀ t u r r', R !! t = Some r → R !! u = Some r' → t < r'.1 ∨ r'.2 ≤ t).
(** Room for a context above the words that are checked. *)
Definition sp_ok (r : Z * Z) (sp : Z) : Prop := r.1 + 84 ≤ sp ≤ r.2 ∧ sp mod 4 = 0.
(** What is known of a task that does not run: its context, and the memory its
    stack was last seen in. *)
Definition parked (s : core) (u : Z) (r : Z * Z) (c : context) (m : gmap Z Z) : Prop :=
  saved s u c ∧ sp_ok r (x_sp c) ∧ ∀ b, x_sp c ≤ b < r.2 → mem s !! b = m !! b.

Record board_ok (R : gmap Z (Z * Z)) (X : gmap Z (context * gmap Z Z)) (t : Z) (s : core) : Prop := {
  bo_task : in_task s;
  bo_cur : pxCurrentTCB (ker s) = Some t;
  bo_kernel : kernel_ok idle (ker s);
  bo_running : xSchedulerRunning (ker s) = true;
  bo_tcbs : pxStack <$> k_tcbs (ker s) = lows R;
  bo_regions : ∀ u r, R !! u = Some r → region_ok s u r;
  bo_apart : apart R;
  bo_wf : context_wf (context_of s);
  bo_sp : ∃ r, R !! t = Some r ∧ sp_ok r (PSP s);
  bo_parked : ∀ u r, R !! u = Some r → u ≠ t → ∃ c m, X !! u = Some (c, m) ∧ parked s u r c m;
  bo_msp : MSP s = main_top;
  bo_main : 0 ≤ main_stack_limit ∧ main_stack_limit + 8 ≤ main_top < MAX32 ∧ main_top mod 4 = 0;
  bo_main_usable : usable (mem s) main_stack_limit main_top;
  bo_nest : 0 ≤ uxCriticalNesting s < MAX32 ∧ BASEPRI s = if uxCriticalNesting s =? 0 then 0 else configMAX_SYSCALL_INTERRUPT_PRIORITY
}.

Lemma region_stack R k t r : pxStack <$> k_tcbs k = lows R → R !! t = Some r →
  ∃ x, k_tcbs k !! t = Some x ∧ pxStack x = r.1.
Proof.
  intros Hst Hr. assert ((pxStack <$> k_tcbs k) !! t = Some r.1) as Hx by (rewrite Hst; unfold lows; by rewrite lookup_fmap, Hr).
  rewrite lookup_fmap in Hx. destruct (k_tcbs k !! t) as [x|]; [|done]. exists x. by simplify_eq/=.
Qed.
Lemma stack_region R k t x : pxStack <$> k_tcbs k = lows R → k_tcbs k !! t = Some x → ∃ r, R !! t = Some r.
Proof.
  intros Hst Hx. assert (lows R !! t = Some (pxStack x)) as Hr by by rewrite <- Hst, lookup_fmap, Hx.
  unfold lows in Hr. rewrite lookup_fmap in Hr. destruct (R !! t) as [r|]; [by exists r|done].
Qed.
Lemma region_ok_same s s' t r :
  region_ok s t r → (∀ b, is_Some (mem s !! b) → is_Some (mem s' !! b)) →
  (∀ b, r.1 ≤ b < r.1 + 16 → mem s' !! b = mem s !! b) → region_ok s' t r.
Proof.
  intros [? ? Hu Hc [? ?] ? ?] Hex Hs. split; try done.
  - by eapply usable_mono.
  - by eapply words_at_same.
  - split; [done|by apply Hex].
Qed.

(** ** PendSV *)

(** The task that runs has got back what it was parked with. *)
Definition resumes (R : gmap Z (Z * Z)) (X : gmap Z (context * gmap Z Z)) (t : Z) (s : core) : Prop :=
  ∀ c m r, X !! t = Some (c, m) → R !! t = Some r →
    context_of s = c ∧ BASEPRI s = 0 ∧ ∀ b, x_sp c ≤ b < r.2 → mem s !! b = m !! b.

Section pendsv.
Context (R : gmap Z (Z * Z)) (X : gmap Z (context * gmap Z Z)) (t : Z) (s : core) (Hok : board_ok R X t s).
Context (j : clobber).
Definition X_switch : gmap Z (context * gmap Z Z) := <[t := (context_of s, mem s)]> X.

(** The stack check passes. *)
Lemma wp_stack_check (Q : unit → core → Prop) s' r top :
  R !! t = Some r → pxCurrentTCB (ker s') = Some t → (∃ x, k_tcbs (ker s') !! t = Some x ∧ pxStack x = r.1) →
  plain t → mem s' !! t = Some top → r.1 < top →
  words_at (mem s') r.1 canary → usable (mem s') r.1 (r.1 + 16) → r.1 mod 4 = 0 → 0 ≤ r.1 → r.1 + 16 < MAX32 →
  Q tt s' → wp taskCHECK_FOR_STACK_OVERFLOW Q s'.
Proof.
  intros Hr Hcur (x & Hx & Hst) Hpl Htop Hlt Hcan Hu H4 H0 Hmax HQ. unfold taskCHECK_FOR_STACK_OVERFLOW.
  assert (s' <| ker := ker s' |> = s') as Heta by by destruct s'.
  apply wp_bind, wp_zoom, wp_bind, wp_getM. rewrite Hcur. eapply wp_deref; [done|]. rewrite Heta.
  apply wp_bind, wp_zoom, wp_bind, wp_getM. eapply wp_deref; [by rewrite Hx|]. rewrite Heta, Hst.
  apply wp_bind. eapply wp_load; [by rewrite load_plain|]. apply wp_bind.
  apply (wp_load_words canary); [done| |done|done|done|].
  { intros b Hb Hb4. by apply Hu. }
  destruct (Z.leb_spec top r.1); [lia|]. by apply wp_ret.
Qed.

Lemma kernel_switches k : kernel_ok idle k → pendsv k = true →
  ∃ k' u x, vTaskSwitchContext (k <| pendsv := false |>) = ROk (tt, k') ∧ kernel_ok idle k' ∧
    stacks_view k' = stacks_view k ∧ pxCurrentTCB k' = Some u ∧ k_tcbs k' !! u = Some x.
Proof.
  intros [v Hk] Hp. assert (enabled idle k APendSV = true) as He by (unfold enabled; by rewrite Hp).
  destruct (wp_ok _ _ _ (wp_run_action idle APendSV k v Hk He)) as ([] & k' & Hrun & [v' Hk']).
  destruct (kok_current _ _ _ Hk') as (u & x & Hu & _ & Hx). exists k', u, x.
  split_and!; [exact Hrun|by exists v'|by rewrite (vTaskSwitchContext_view _ _ _ Hrun)|done|done].
Qed.

(** Once the running task is saved, every task is parked. *)
Let fsp : Z := frame_sp (STKALIGN s) (context_of s).
Definition mem_switched (scratch : gmap Z Z) : gmap Z Z :=
  switched_mem (mem s) scratch t fsp main_top 4294967293 (frame (STKALIGN s) (context_of s)) (callee (context_of s)).
Definition all_parked (s' : core) : Prop :=
  ∀ u r, R !! u = Some r → ∃ c m, X_switch !! u = Some (c, m) ∧ parked s' u r c m.

Lemma fsp_range : PSP s - 36 ≤ fsp ≤ PSP s - 32.
Proof. apply (frame_sp_range (STKALIGN s) (context_of s)). Qed.
Lemma current_region : ∃ r, R !! t = Some r ∧ sp_ok r (PSP s) ∧ region_ok s t r ∧ (t < r.1 ∨ r.2 ≤ t).
Proof.
  destruct (bo_sp _ _ _ _ Hok) as (r & Hr & Hsp). exists r.
  split; [done|]. split; [done|]. split; [by apply (bo_regions _ _ _ _ Hok)|]. by apply (proj2 (bo_apart _ _ _ _ Hok) t t r r).
Qed.
(** What PendSV's stores leave alone. *)
Lemma switched_same sc b :
  b < main_stack_limit ∨ main_top ≤ b → b ≠ t → b < PSP s - 68 ∨ PSP s ≤ b → mem_switched sc !! b = mem s !! b.
Proof.
  destruct current_region as (r & Hr & [Hsp _] & Hreg & Htr). pose proof fsp_range.
  intros Hb Hbt Hbs. pose proof (bo_main _ _ _ _ Hok). destruct (bo_regions _ _ _ _ Hok _ _ Hr).
  apply (switched_other _ _ _ (PSP s)); done || lia.
Qed.
(** It leaves the whole region of any other task alone, and what is above SP of
    the task's own. *)
Lemma switched_region sc u r b :
  R !! u = Some r → r.1 ≤ b < r.2 → (u = t → b < PSP s - 68 ∨ PSP s ≤ b) → mem_switched sc !! b = mem s !! b.
Proof.
  intros Hu Hb Hut. pose proof (bo_regions _ _ _ _ Hok _ _ Hu) as [_ _ _ _ _ Hrm _].
  destruct current_region as (rt & Hrt & [Hsp _] & _ & _). destruct (bo_apart _ _ _ _ Hok) as [Hap1 Hap2].
  pose proof (Hap2 t u _ _ Hrt Hu). apply switched_same; [lia|lia|].
  destruct (decide (u = t)) as [->|Hne]; [by apply Hut|]. pose proof (Hap1 _ _ _ _ Hu Hrt Hne). lia.
Qed.
Lemma switched_tcb_of sc u r : R !! u = Some r → u ≠ t → mem_switched sc !! u = mem s !! u.
Proof.
  intros Hu Hne. pose proof (bo_regions _ _ _ _ Hok _ _ Hu) as [_ _ _ _ _ _ Hum].
  destruct current_region as (rt & Hrt & [Hsp _] & _ & _).
  pose proof (proj2 (bo_apart _ _ _ _ Hok) u t _ _ Hu Hrt). apply switched_same; [done|done|lia].
Qed.
Lemma parked_after s4 sc : mem s4 = mem_switched sc → STKALIGN s4 = STKALIGN s → all_parked s4.
Proof.
  intros Hm Hal u r Hu. pose proof (bo_regions _ _ _ _ Hok _ _ Hu) as [Hrg _ Hru _ [Hpl _] _ Hrm].
  destruct (decide (u = t)) as [->|Hne].
  - destruct current_region as (rt & Hrt & [Hsp H4] & Hreg & Htr). simplify_eq. pose proof fsp_range. pose proof (rg_main _ _ _ Hreg).
    exists (context_of s), (mem s). split; [apply lookup_insert_eq|]. split; [|split; [done|]].
    + assert (main_stack_limit + 8 ≤ main_top) as Hmn by apply (bo_main _ _ _ _ Hok).
      split; [apply (bo_wf _ _ _ _ Hok)|done|simpl; lia|done| | |].
      * rewrite Hm, Hal. apply (switched_tcb _ _ _ (PSP s)); (done || lia).
      * rewrite Hm, Hal. apply (switched_words _ _ _ (PSP s)); (done || lia).
      * intros b Hb Hb4. apply Hru; [simpl in Hb; lia|done].
    + intros b Hb. rewrite Hm. apply (switched_region _ t r); [done|simpl in Hb; lia|intros _; right; simpl in Hb; lia].
  - destruct (bo_parked _ _ _ _ Hok u r Hu Hne) as (c & m & HX & Hsv & [Hsp H4] & Hstk).
    exists c, m. split; [unfold X_switch; by rewrite lookup_insert_ne|]. split; [|split; [done|]].
    + eapply saved_same; [exact Hsv|done| |].
      * rewrite Hm. by eapply switched_tcb_of.
      * intros b Hb. rewrite Hm. eapply switched_region; [exact Hu|lia|done].
    + intros b Hb. rewrite Hm. rewrite (switched_region _ u r) by (done || lia). by apply Hstk.
Qed.
(** With every task parked and [u] chosen, the restored task runs again. *)
Lemma resume_ok s4 u c m k' :
  all_parked s4 → X_switch !! u = Some (c, m) → ker s4 = k' → kernel_ok idle k' → stacks_view k' = stacks_view (ker s) →
  pxCurrentTCB k' = Some u → (∀ b, is_Some (mem s !! b) → is_Some (mem s4 !! b)) →
  (∀ v r b, R !! v = Some r → r.1 ≤ b < r.1 + 16 → mem s4 !! b = mem s !! b) →
  is_Some (R !! u) → STKALIGN s4 = STKALIGN s → MSP s4 = main_top → uxCriticalNesting s4 = 0 →
  board_ok R X_switch u (resumed c s4) ∧ resumes R X_switch u (resumed c s4).
Proof.
  intros Hall Hc Hk Hker Hview Hcur Hex Hcan [r Hr] Hal Hmsp Hcn.
  apply (f_equal (λ p, p.1.1)) in Hview as Hst'. apply (f_equal snd) in Hview as Hrun'. simpl in Hst', Hrun'. clear Hview.
  destruct (Hall u r Hr) as (c' & m' & Hc' & Hsv & Hsp & Hstk). simplify_eq.
  assert (context_of (resumed c s4) = c) as Hctx by by destruct c.
  split.
  - destruct Hok as [_ _ _ Hrun Hst Hreg Hap _ _ _ _ Hmain Hmu _].
    split; simpl; try done.
    + congruence.
    + by rewrite Hst'.
    + intros v rv Hv. eapply region_ok_same; [by apply Hreg|exact Hex|]. intros b. by apply (Hcan v).
    + rewrite Hctx. apply Hsv.
    + by exists r.
    + intros v rv Hv Hne. destruct (Hall v rv Hv) as (cv & mv & HX & Hsvv & Hspv & Hmv).
      exists cv, mv. split; [done|]. split; [by eapply saved_same; [exact Hsvv|..]|done].
    + by eapply usable_mono.
    + by rewrite Hcn.
  - intros c' m' r' Hc'' Hr'. simplify_eq. split; [done|]. by split.
Qed.

(** The interrupts are enabled, so the task is in no critical section. *)
Lemma nesting_zero : BASEPRI s = 0 → uxCriticalNesting s = 0.
Proof.
  intros Hb. destruct (bo_nest _ _ _ _ Hok) as [Hr Hn]. rewrite Hb in Hn.
  destruct (Z.eqb_spec (uxCriticalNesting s) 0); done.
Qed.

Lemma wp_checked_switch s3 k' (Q : unit → core → Prop) :
  mem s3 = saved_mem (mem s) t fsp main_top 4294967293 (frame (STKALIGN s) (context_of s)) (callee (context_of s)) →
  ker s3 = (ker s) <| pendsv := false |> → vTaskSwitchContext (ker s3) = ROk (tt, k') →
  Q tt (s3 <| ker := k' |>) → wp vTaskSwitchContext_checked Q s3.
Proof.
  intros Hm Hk Hsw HQ. unfold vTaskSwitchContext_checked. apply wp_bind, wp_gets, wp_bind.
  apply (wp_mono _ (λ _ s', s' = s3)).
  - destruct (uxSchedulerSuspended (ker s3) =? 0); [|by apply wp_ret].
    destruct current_region as (r & Hr & [Hsp H4] & [Hrg Hr4 Hru Hrc [Htp Hte] Hrm Htm] & Htr). pose proof fsp_range.
    pose proof (bo_main _ _ _ _ Hok).
    assert (∀ b, r.1 ≤ b < r.1 + 16 → mem s3 !! b = mem s !! b) as Hsame.
    { intros b Hb. rewrite Hm. apply (saved_other _ _ (PSP s)); done || lia. }
    apply (wp_stack_check _ _ r (fsp - 32)); [done| | |done| |lia| | |done|lia|lia|done].
    + rewrite Hk. apply (bo_cur _ _ _ _ Hok).
    + rewrite Hk. by apply (region_stack R (ker s) t r (bo_tcbs _ _ _ _ Hok)).
    + rewrite Hm. apply (saved_tcb _ _ (PSP s)); done || lia.
    + eapply words_at_same; [exact Hrc|]. intros b Hb. by apply Hsame.
    + apply (usable_mono (mem s)); [eapply usable_sub; [exact Hru|lia..]|].
      intros b Hb. rewrite Hm. by apply saved_exists.
  - intros _ s' ->. unfold kr. apply wp_zoom. unfold wp. by rewrite Hsw.
Qed.
Lemma wp_PendSV (Q : unit → core → Prop) :
  BASEPRI s = 0 → pendsv (ker s) = true →
  (∀ s' t', board_ok R X_switch t' s' → resumes R X_switch t' s' → pxCurrentTCB (ker s') = Some t' →
     run_action APendSV (ker s) = ROk (tt, ker s') → Q tt s') →
  wp (PendSV j) Q s.
Proof.
  intros Hb Hp HQ. pose proof (nesting_zero Hb) as Hcn. pose proof Hok as Hok'.
  destruct Hok' as [Htask Hcur Hker Hrun Hst Hreg Hap Hwf _ _ Hmsp Hmain Hmu _].
  destruct (kernel_switches _ Hker Hp) as (k' & u & xu & Hsw & Hker' & Hview & Hcur' & Hxu).
  destruct current_region as (r & Hr & [Hsp H4] & [Hrg Hr4 Hru Hrc [Htp Hte] Hrm Htm] & Htr). pose proof fsp_range as Hf.
  unfold PendSV. apply wp_bind, (wp_exception_entry 14); [done|done|lia| |].
  { eapply usable_sub; [exact Hru|lia..]. }
  apply wp_bind, wp_zoom, wp_modify. unfold PendSV_handler. apply wp_bind.
  eapply (wp_PendSV_save t); [done|exact (proj1 Hwf)|exact Hcur|by apply frame_sp_mod4| | |done| | | | |].
  { simpl. fold fsp. lia. }
  { simpl. fold fsp. apply (usable_mono (mem s)); [|intros b; apply write_is_Some].
    eapply usable_sub; [exact Hru|lia..]. }
  { simpl. by apply write_is_Some. }
  { change (MSP s mod 4 = 0). rewrite Hmsp. apply Hmain. }
  { simpl. lia. }
  { simpl. apply (usable_mono (mem s)); [|intros b; apply write_is_Some].
    eapply usable_sub; [exact Hmu|lia..]. }
  intros g Hg. match goal with |- wp _ _ ?x => set (s3 := x) end.
  assert (mem s3 = saved_mem (mem s) t fsp main_top 4294967293 (frame (STKALIGN s) (context_of s)) (callee (context_of s))) as Hm3
    by (rewrite <- Hmsp; reflexivity).
  assert (MSP s3 = main_top - 8) as Hms3 by (rewrite <- Hmsp; reflexivity).
  assert (ker s3 = (ker s) <| pendsv := false |>) as Hk3 by reflexivity.
  assert (STKALIGN s3 = STKALIGN s ∧ IPSR s3 = 14 ∧ uxCriticalNesting s3 = 0 ∧ gpr s3 = g) as (Hal3 & Hip3 & Hcn3 & Hg3) by by split_and!.
  clearbody s3. apply wp_bind. unfold call. apply wp_bind, (wp_checked_switch s3 k'); [done|done|by rewrite Hk3|].
  apply wp_modify. set (s4 := clobbered j _).
  assert (mem s4 = mem_switched (cl_stack j)) as Hm4.
  { unfold s4, clobbered. destruct (cl_low j) as [[[j0 j1] j2] j3]. simpl. by rewrite Hms3, Hm3. }
  assert (MSP s4 = main_top - 8 ∧ ker s4 = k' ∧ STKALIGN s4 = STKALIGN s ∧ IPSR s4 = 14 ∧ uxCriticalNesting s4 = 0 ∧ length (gpr s4) = 13%nat)
    as (Hms4 & Hk4 & Hal4 & Hip4 & Hcn4 & Hg4).
  { unfold s4, clobbered. destruct (cl_low j) as [[[j0 j1] j2] j3]. simpl. rewrite !length_insert, Hg3. by split_and!. }
  clearbody s4.
  pose proof (parked_after s4 (cl_stack j) Hm4 Hal4) as Hall.
  destruct (stack_region R k' u xu) as [ru Hru']; [|done|].
  { apply (f_equal (λ p, p.1.1)) in Hview. simpl in Hview. by rewrite Hview. }
  destruct (Hall u ru Hru') as (c & m & Hc & Hsv & Hspu & _).
  apply (wp_PendSV_restore u c 4294967293); [done|by rewrite Hk4|done|done|done| | | | | |].
  { rewrite Hms4. apply (mod4 main_top (-2)). apply Hmain. }
  { lia. }
  { lia. }
  { rewrite Hms4, Hm4. apply switched_main. }
  { rewrite Hms4. intros b Hb1 Hb2. apply Hmu; [lia|done]. }
  destruct (resume_ok (s4 <| MSP := MSP s4 + 8 |>) u c m k') as [Hbo Hre]; try done.
  { intros v rv Hv. destruct (Hall v rv Hv) as (cv & mv & HX & Hsvv & Hspv & Hmv).
    exists cv, mv. split; [done|]. split; [by eapply saved_same; [exact Hsvv|..]|done]. }
  { intros b. simpl. rewrite Hm4. apply switched_exists. }
  { intros v rv b Hv Hb'. simpl. rewrite Hm4. eapply switched_region; [exact Hv| |].
    - destruct (Hall v rv Hv) as (? & ? & _ & _ & [? _] & _). lia.
    - intros ->. simplify_eq. lia. }
  { simpl. lia. }
  apply (HQ _ u); [exact Hbo|exact Hre|simpl; by rewrite Hk4|].
  change (run_action APendSV (ker s)) with (vTaskSwitchContext ((ker s) <| pendsv := false |>)).
  simpl. by rewrite Hk4.
Qed.
End pendsv.

(** ** The other steps *)
(** Whatever happens to the running task's registers and to its own stack above
    the checked words, the tasks that do not run keep what they are parked with. *)
Definition nest_ok (s : core) : Prop :=
  0 ≤ uxCriticalNesting s < MAX32 ∧ BASEPRI s = if uxCriticalNesting s =? 0 then 0 else configMAX_SYSCALL_INTERRUPT_PRIORITY.
Record own_change (r : Z * Z) (s s' : core) : Prop := {
  oc_task : in_task s';
  oc_wf : context_wf (context_of s');
  oc_sp : sp_ok r (PSP s');
  oc_exists : ∀ b, is_Some (mem s !! b) → is_Some (mem s' !! b);
  oc_mem : ∀ b, b < main_stack_limit ∨ main_top ≤ b → b < r.1 + 16 ∨ r.2 ≤ b → mem s' !! b = mem s !! b;
  oc_msp : MSP s' = MSP s;
  oc_align : STKALIGN s' = STKALIGN s
}.
Lemma board_ok_own R X t s s' r :
  board_ok R X t s → R !! t = Some r → own_change r s s' → kernel_ok idle (ker s') →
  port_view (ker s') = port_view (ker s) → nest_ok s' → board_ok R X t s'.
Proof.
  intros [_ Hcur _ Hrun Hst Hreg [Hap1 Hap2] _ _ Hpark Hmsp Hmain Hmu _] Hr [Htask Hwf Hsp Hex Hmem Hms Hal] Hker Hview Hnest.
  unfold port_view in Hview.
  assert (pxStack <$> k_tcbs (ker s') = pxStack <$> k_tcbs (ker s) ∧ pxCurrentTCB (ker s') = pxCurrentTCB (ker s) ∧
    xSchedulerRunning (ker s') = xSchedulerRunning (ker s)) as (Hst' & Hcur' & Hrun') by by simplify_eq.
  assert (∀ u ru b, R !! u = Some ru → ru.1 ≤ b < ru.2 → u ≠ t ∨ b < ru.1 + 16 → mem s' !! b = mem s !! b) as Hsame.
  { intros u ru b Hu Hb Hub. pose proof (rg_main _ _ _ (Hreg _ _ Hu)). apply Hmem; [lia|].
    destruct (decide (u = t)) as [->|Hne]; [simplify_eq; lia|]. pose proof (Hap1 _ _ _ _ Hu Hr Hne). lia. }
  split; try done; rewrite ?Hcur', ?Hrun', ?Hst'; try done.
  - intros u ru Hu. pose proof (Hreg u ru Hu) as Hreg'. eapply region_ok_same; [done..|].
    intros b Hb. assert (ru.1 + 84 ≤ ru.2) as Hroom.
    { destruct (decide (u = t)) as [->|Hne]; [destruct Hsp; simplify_eq; lia|].
      destruct (Hpark u ru Hu Hne) as (c & m & _ & _ & [? _] & _). lia. }
    apply (Hsame u ru); [done|lia|right; lia].
  - by exists r.
  - intros u ru Hu Hne. destruct (Hpark u ru Hu Hne) as (c & m & HX & Hsv & [Hspu H4] & Hstk).
    exists c, m. split; [done|]. split; [|split; [by split|]].
    + pose proof (Hap2 _ _ _ _ Hu Hr). pose proof (rg_tcb_main _ _ _ (Hreg u ru Hu)).
      eapply saved_same; [exact Hsv|done|apply Hmem; [done|lia]|].
      intros b Hb. apply (Hsame u ru); [done|lia|by left].
    + intros b Hb. rewrite (Hsame u ru) by (done || lia || by left). by apply Hstk.
  - by rewrite Hms.
  - by eapply usable_mono.
Qed.

(** *** Interrupts *)
(** The interrupts that use the kernel. *)
Definition is_irq (a : action) : bool := match a with ATick | AResumeFromISR _ => true | _ => false end.
Definition isr (a : action) : C unit :=
  match a with
  | ATick => SysTick_handler
  | _ =>
      let* uxSavedInterruptStatus := portSET_INTERRUPT_MASK_FROM_ISR in
      kr (run_action a) ;>
      portCLEAR_INTERRUPT_MASK_FROM_ISR uxSavedInterruptStatus
  end.

Lemma wp_isr a k' (Q : unit → core → Prop) s :
  is_irq a = true → run_action a (ker s) = ROk (tt, k') → BASEPRI s = 0 →
  Q tt (s <| ker := k' |>) → wp (isr a) Q s.
Proof.
  intros Hi Hrun Hb HQ. destruct s as [g lr pc0 psr ip ms ps sel bp pm fm al m nv pb cn ms1 mg k].
  simpl in Hrun, Hb. subst bp. unfold set_field in HQ. simpl in HQ.
  destruct a; try done; cbn [isr]; unfold SysTick_handler, portSET_INTERRUPT_MASK_FROM_ISR, ulPortRaiseBASEPRI;
    [apply wp_bind, wp_modify|apply wp_bind, wp_bind, wp_gets, wp_bind, wp_modify, wp_ret];
    apply wp_bind, wp_zoom; norm; unfold wp; simpl in Hrun |- *; rewrite Hrun; exact HQ.
Qed.

Lemma wp_interrupt R X t n j a (Q : unit → core → Prop) s :
  board_ok R X t s → BASEPRI s = 0 → is_irq a = true → enabled idle (ker s) a = true →
  (∀ s' r, board_ok R X t s' → R !! t = Some r → context_of s' = context_of s → BASEPRI s' = 0 →
     (∀ b, PSP s ≤ b < r.2 → mem s' !! b = mem s !! b) → run_action a (ker s) = ROk (tt, ker s') → Q tt s') →
  wp (interrupt n j (isr a)) Q s.
Proof.
  intros Hok Hb Hi He HQ. pose proof (nesting_zero R X t s Hok Hb) as Hcn.
  destruct (current_region R X t s Hok) as (r & Hr & [Hsp H4] & [Hrg Hr4 Hru Hrc [Htp Hte] Hrm Htm] & Htr).
  pose proof (fsp_range s) as Hf. pose proof (bo_main _ _ _ _ Hok) as Hmain. pose proof (bo_msp _ _ _ _ Hok) as Hmsp.
  destruct (bo_kernel _ _ _ _ Hok) as [v Hk].
  destruct (wp_ok _ _ _ (wp_run_action idle a (ker s) v Hk He)) as ([] & k' & Hrun & Hker').
  assert (port_view k' = port_view (ker s)) as Hview.
  { apply (run_action_view a); [by destruct a|apply (bo_running _ _ _ _ Hok)|done]. }
  unfold interrupt. apply wp_bind, wp_exception_entry; [apply (bo_task _ _ _ _ Hok)|done|lia| |].
  { eapply usable_sub; [exact Hru|lia..]. }
  apply wp_bind, wp_gets, wp_bind. unfold call. apply wp_bind, (wp_isr a k'); [done|exact Hrun|done|].
  apply wp_modify. set (s1 := clobbered j _).
  set (fsp := frame_sp (STKALIGN s) (context_of s)) in *. set (fr := frame (STKALIGN s) (context_of s)) in *.
  assert (mem s1 = filter (λ aw, main_stack_limit ≤ aw.1 < main_top) (cl_stack j) ∪ write (mem s) fsp fr) as Hm1.
  { unfold s1, clobbered. destruct (cl_low j) as [[[j0 j1] j2] j3]. simpl. by rewrite Hmsp. }
  assert (∀ b, b < main_stack_limit ∨ main_top ≤ b → mem s1 !! b = write (mem s) fsp fr !! b) as Hout.
  { intros b Hb'. rewrite Hm1. apply lookup_union_r, map_lookup_filter_None. right. intros w _. simpl. lia. }
  assert (PSP s1 = fsp ∧ STKALIGN s1 = STKALIGN s ∧ callee (context_of s1) = callee (context_of s) ∧ length (gpr s1) = 13%nat ∧
    ker s1 = k' ∧ MSP s1 = MSP s ∧ BASEPRI s1 = 0 ∧ uxCriticalNesting s1 = 0) as (Hp1 & Ha1 & Hc1 & Hg1 & Hk1 & Hms1 & Hb1 & Hn1).
  { pose proof (proj1 (bo_wf _ _ _ _ Hok)) as Hg. simpl in Hg. unfold s1, clobbered.
    destruct (cl_low j) as [[[j0 j1] j2] j3]. unfold callee. simpl. rewrite !length_insert. rewrite Hcn, Hb.
    split_and!; try done. destruct (gpr s) as [|x0 g]; [done|]. do 12 (destruct g as [|? g]; [done|]). by destruct g. }
  clearbody s1. apply (wp_exception_return (context_of s)); rewrite ?Hp1, ?Ha1.
  { done. }
  { apply (bo_wf _ _ _ _ Hok). }
  { done. }
  { simpl. lia. }
  { done. }
  { eapply words_at_same; [apply words_at_write|]. intros b Hb'. change (bytes (frame _ _)) with 32 in Hb'. apply Hout. lia. }
  { intros b Hb' Hb4. apply Hru; [lia|done]. }
  { done. }
  { done. }
  apply (HQ _ r); simpl; try done.
  - eapply (board_ok_own R X t s); [done|exact Hr| |by rewrite <- Hk1 in Hker'|by simpl; rewrite Hk1|].
    + split; simpl; try done.
      * apply (bo_wf _ _ _ _ Hok).
      * intros b Hb'. rewrite Hm1. apply lookup_union_is_Some. right. by apply write_is_Some.
      * intros b Hb' Hbr. rewrite Hout by done. apply write_outside. replace (bytes fr) with 32 by reflexivity. lia.
    + unfold nest_ok. simpl. by rewrite Hn1.
  - intros b Hb'. rewrite Hout by lia. apply write_outside. replace (bytes fr) with 32 by reflexivity. lia.
  - by rewrite Hk1.
Qed.
End machine.
