(* ===== verification/PortTasks.v ===== *)
(** * The machine of tasks: creation, start, runs

    A new task's stack looks like that of a task that was switched out before
    its first instruction; the first task is started as if it were switched to.
    The steps of the machine keep [board_ok]. *)
From S2P Require Import Prelude SchedLock Heap4 KList Tasks TasksView TasksInv TasksOps TasksCreate TasksMachine.
From S2P Require Import Port PortSwitch PortKernel PortMachine.


Lemma create_view idle k k' t stack p :
  kernel_ok idle k → enabled idle k (ACreate t stack p) = true → xSchedulerRunning k = true →
  run_action (ACreate t stack p) k = ROk (tt, k') →
  kernel_ok idle k' ∧ pxStack <$> k_tcbs k' = <[t := stack]> (pxStack <$> k_tcbs k) ∧
  pxCurrentTCB k' = pxCurrentTCB k ∧ xSchedulerRunning k' = true.
Proof.
  intros [v Hk] He Hrun Hr.
  assert (kernel_ok idle k') as Hok by exact (wp_run _ _ _ _ _ (wp_run_action idle _ k v Hk He) Hr).
  split; [done|]. apply andb_true_iff in He as [_ He]. simpl in He.
  apply andb_true_iff in He as [[[[Ht ?]%andb_true_iff ?]%andb_true_iff ?]%andb_true_iff ?].
  assert (k_tcbs k !! t = None) as Hnone.
  { apply negb_true_iff, bool_decide_eq_false in Ht. destruct (k_tcbs k !! t); [|done]. destruct Ht; eauto. }
  pose proof (krep_size _ _ _ (ki_rep _ _ _ (ko_inv _ _ _ Hk))) as Hsize.
  assert (wp (createTask t stack p 0) (λ _ k', creates t stack p 0 k v k' (created_view t p v)) k) as Hw.
  { apply wp_createTask; [apply Hk|done|lia|unfold MAX32; lia|lia]. }
  destruct (wp_run _ _ _ _ _ Hw Hr) as [_ _ (s & top & n & b & -> & _)]. simpl.
  split; [apply fmap_insert|]. split; [|exact Hrun].
  unfold current_after. destruct (kok_current _ _ _ Hk) as (c & y & -> & _). by rewrite Hrun.
Qed.

(** ** A new stack *)
Definition stack_fill : Z := 2779096485.

Lemma words_at_lookup ws : ∀ m a i w, words_at m a ws → ws !! i = Some w → m !! (a + 4 * Z.of_nat i) = Some w.
Proof.
  induction ws as [|w0 ws IH]; intros m a i w Hw Hi; [done|].
  unfold words_at in Hw; fold words_at in Hw. destruct Hw as [H0 Hw].
  destruct i as [|i]; simplify_eq/=; [by replace (a + 4 * Z.of_nat 0) with a by lia|].
  rewrite <- (IH m (a + 4) i w Hw Hi). f_equal. lia.
Qed.
Lemma filled m lo n b : lo ≤ b < lo + 4 * n → (b - lo) mod 4 = 0 →
  write m lo (replicate (Z.to_nat n) stack_fill) !! b = Some stack_fill.
Proof.
  intros Hb H4. replace b with (lo + 4 * Z.of_nat (Z.to_nat ((b - lo) / 4))) by (Z.to_euclidean_division_equations; lia).
  eapply words_at_lookup; [apply words_at_write|]. apply lookup_replicate. split; [done|]. Z.to_euclidean_division_equations; lia.
Qed.
Lemma aligned_down a : 0 ≤ a < MAX32 →
  let b := Z.land a (4294967295 - portBYTE_ALIGNMENT_MASK) in a - 8 < b ≤ a ∧ b mod 8 = 0.
Proof.
  intros Ha b. assert (b = 8 * (a / 8)) as ->; [|Z.to_euclidean_division_equations; lia].
  unfold b, portBYTE_ALIGNMENT_MASK. change (4294967295 - 7) with (Z.shiftl (Z.ones 29) 3).
  replace (8 * (a / 8)) with (Z.shiftl (Z.shiftr a 3) 3) by (rewrite Z.shiftl_mul_pow2, Z.shiftr_div_pow2 by lia; change (2 ^ 3) with 8; lia).
  apply Z.bits_inj'. intros i Hi. rewrite Z.land_spec. destruct (decide (i < 3)).
  - rewrite !Z.shiftl_spec_low by lia. by rewrite andb_false_r.
  - rewrite !Z.shiftl_spec, Z.shiftr_spec by lia. replace (i - 3 + 3) with i by lia.
    destruct (decide (i < 32)).
    + rewrite Z.ones_spec_low by lia. by rewrite andb_true_r.
    + rewrite Z.ones_spec_high by lia. rewrite andb_false_r. symmetry. apply Z.bits_above_log2; [lia|].
      destruct (decide (a = 0)) as [->|]; [simpl; lia|]. apply Z.log2_lt_pow2; [lia|].
      apply (Z.lt_le_trans _ (2 ^ 32)); [unfold MAX32 in Ha; lia|]. apply Z.pow_le_mono_r; lia.
Qed.

Section create.
Context `{Link} (m : gmap Z Z) (u lo depth code param : Z).
Context (Hlo : 0 ≤ lo) (Hlo4 : lo mod 4 = 0) (Hhi : lo + 4 * depth < MAX32) (Hd : 24 ≤ depth).
Context (Hu : usable m lo (lo + 4 * depth)) (Hpl : plain u) (Hex : is_Some (m !! u)) (Hout : u < lo ∨ lo + 4 * depth ≤ u).

Definition first_sp : Z := Z.land (wrap32 (lo + 4 * (depth - 1))) (4294967295 - portBYTE_ALIGNMENT_MASK).
(** The context a task starts with. *)
Definition first_context : context :=
  mkContext (param :: replicate 12 stack_fill) addr_prvTaskExitError (Z.land code portSTART_ADDRESS_MASK)
    portINITIAL_XPSR first_sp.
Definition first_mem : gmap Z Z :=
  <[u := first_sp - 64]> (<[first_sp - 32 := param]> (<[first_sp - 12 := addr_prvTaskExitError]>
    (<[first_sp - 8 := Z.land code portSTART_ADDRESS_MASK]> (<[first_sp - 4 := portINITIAL_XPSR]>
      (write m lo (replicate (Z.to_nat depth) stack_fill)))))).

Lemma first_sp_range : lo + 4 * depth - 12 < first_sp ≤ lo + 4 * depth - 4 ∧ first_sp mod 8 = 0.
Proof.
  unfold first_sp. rewrite wrap32_small by (unfold u32, MAX32 in *; lia).
  pose proof (aligned_down (lo + 4 * (depth - 1))) as Ha. simpl in Ha. unfold MAX32 in *. lia.
Qed.
Lemma first_mod4 n : (first_sp - 4 * n - lo) mod 4 = 0.
Proof. pose proof first_sp_range as [_ ?]. Z.to_euclidean_division_equations; lia. Qed.

Lemma first_exists b : is_Some (m !! b) → is_Some (first_mem !! b).
Proof.
  intros Hb. unfold first_mem. rewrite !lookup_insert_is_Some'. do 5 right. by apply write_is_Some.
Qed.
Lemma first_outside b : b ≠ u → b < lo ∨ lo + 4 * depth ≤ b → first_mem !! b = m !! b.
Proof.
  intros Hbu Hb. pose proof first_sp_range as [? _]. unfold first_mem. rewrite !lookup_insert_ne by lia.
  apply write_outside. unfold bytes. rewrite length_replicate. lia.
Qed.
Lemma first_filled b : lo ≤ b < first_sp → b mod 4 = 0 → b ≠ u →
  b ≠ first_sp - 4 → b ≠ first_sp - 8 → b ≠ first_sp - 12 → b ≠ first_sp - 32 → first_mem !! b = Some stack_fill.
Proof.
  intros. pose proof first_sp_range as [? _]. unfold first_mem. rewrite !lookup_insert_ne by lia.
  apply filled; [lia|]. Z.to_euclidean_division_equations; lia.
Qed.
Lemma bit_2_clear a : a mod 8 = 0 → Z.testbit a 2 = false.
Proof.
  intros [q ->]%Z.mod_divide; [|done]. apply (Z.mul_pow2_bits_low q 3 2). lia.
Qed.
Lemma first_pad al : padded al first_context = false.
Proof.
  unfold padded. apply andb_false_iff. right. apply bit_2_clear, first_sp_range.
Qed.
Ltac fill_word Hfill :=
  lazymatch goal with |- _ !! ?a = _ =>
    let go k := (replace a with (first_sp - 4 * k) by lia; apply Hfill; [lia|set_solver]) in
    first [go 16|go 15|go 14|go 13|go 12|go 11|go 10|go 9|go 7|go 6|go 5|go 4]
  end.
Ltac set_word k :=
  lazymatch goal with |- _ !! ?a = _ => replace a with (first_sp - 4 * k) by lia end;
  unfold first_mem; rewrite !lookup_insert; repeat (rewrite decide_False by lia); by rewrite decide_True by lia.
Lemma first_words al : words_at first_mem (top_sp al first_context) (callee first_context ++ frame al first_context).
Proof.
  pose proof first_sp_range as [Hsp H8].
  assert (∀ k, 1 ≤ k ≤ 16 → k ∉ [1; 2; 3; 8] → first_mem !! (first_sp - 4 * k) = Some stack_fill) as Hfill.
  { intros k Hk Hn. assert (k ≠ 1 ∧ k ≠ 2 ∧ k ≠ 3 ∧ k ≠ 8) as (? & ? & ? & ?) by (split_and!; intros ->; apply Hn; set_solver).
    apply first_filled; [lia| |lia..]. Z.to_euclidean_division_equations; lia. }
  unfold top_sp, frame_sp, frame. rewrite first_pad. simpl x_sp. simpl app.
  change (Z.lor (x_psr first_context) 0) with portINITIAL_XPSR. unfold words_at.
  do 8 (split; [fill_word Hfill|]). split; [set_word 8|]. do 4 (split; [fill_word Hfill|]).
  split; [set_word 3|]. split; [set_word 2|]. split; [set_word 1|done].
Qed.
End create.

Section tasks.
Context `{Link} (idle main_top : Z).

Lemma wp_initialise_stack u lo depth code param (Q : unit → core → Prop) s :
  0 ≤ lo → lo mod 4 = 0 → lo + 4 * depth < MAX32 → 24 ≤ depth → usable (mem s) lo (lo + 4 * depth) →
  plain u → is_Some (mem s !! u) → u < lo ∨ lo + 4 * depth ≤ u →
  Q tt (s <| mem ::= λ m, first_mem m u lo depth code param |>) → wp (initialise_stack u lo depth code param) Q s.
Proof.
  intros Hlo Hlo4 Hhi Hd Hu Hpl Hex Hout HQ. destruct (first_sp_range lo depth) as [Hsp H8]; [done..|].
  unfold initialise_stack. apply wp_bind.
  assert (bytes (replicate (Z.to_nat depth) stack_fill) = 4 * depth) as Hb by (unfold bytes; rewrite length_replicate; lia).
  fold stack_fill. apply wp_store_words; rewrite ?Hb; [done..|].
  fold (first_sp lo depth). apply wp_bind, wp_assert.
  { apply Z.eqb_eq. change portBYTE_ALIGNMENT_MASK with (Z.ones 3). rewrite Z.land_ones by lia. exact H8. }
  unfold pxPortInitialiseStack.
  set (sp := first_sp lo depth) in *.
  rewrite (wrap32_small (sp - 4)) by (unfold u32; lia).
  rewrite (wrap32_small (sp - 4 - 4)) by (unfold u32; lia).
  rewrite (wrap32_small (sp - 4 - 4 - 4)) by (unfold u32; lia).
  rewrite (wrap32_small (sp - 4 - 4 - 4 - 20)) by (unfold u32; lia).
  rewrite (wrap32_small (sp - 4 - 4 - 4 - 20 - 32)) by (unfold u32; lia).
  replace (sp - 4 - 4 - 4 - 20 - 32) with (sp - 64) by lia. replace (sp - 4 - 4 - 4 - 20) with (sp - 32) by lia.
  replace (sp - 4 - 4 - 4) with (sp - 12) by lia. replace (sp - 4 - 4) with (sp - 8) by lia.
  assert (∀ k, 1 ≤ k ≤ 16 → plain (sp - 4 * k) ∧ is_Some (mem s !! (sp - 4 * k))) as Hok.
  { intros k Hk. destruct (Hu (sp - 4 * k)) as [? ?]; [lia| |done]. Z.to_euclidean_division_equations; lia. }
  apply wp_bind, wp_bind, wp_store_word; [apply (Hok 1); lia|simpl; apply write_is_Some, (Hok 1); lia|].
  apply wp_bind, wp_store_word; [apply (Hok 2); lia|simpl; apply lookup_insert_is_Some'; right; apply write_is_Some, (Hok 2); lia|].
  apply wp_bind, wp_store_word; [apply (Hok 3); lia|simpl; do 2 (apply lookup_insert_is_Some'; right); apply write_is_Some, (Hok 3); lia|].
  apply wp_bind, wp_store_word; [apply (Hok 8); lia|simpl; do 3 (apply lookup_insert_is_Some'; right); apply write_is_Some, (Hok 8); lia|].
  apply wp_ret, wp_bind, wp_store_word; [done|simpl; do 4 (apply lookup_insert_is_Some'; right); by apply write_is_Some|].
  apply wp_assert.
  - rewrite wrap32_small by (unfold u32; lia). replace (sp - (sp - 64)) with 64 by lia. apply Z.ltb_lt. change (64 / 4) with 16. lia.
  - by destruct s.
Qed.

(** ** Creating a task *)
(** Memory for a task [u] that nothing else uses. *)
Record room_for (R : gmap Z (Z * Z)) (s : core) (u : Z) (r : Z * Z) : Prop := {
  rf_new : R !! u = None;
  rf_range : 0 ≤ r.1 ∧ r.1 + 96 ≤ r.2 < MAX32;
  rf_mod4 : r.1 mod 4 = 0 ∧ r.2 mod 4 = 0;
  rf_usable : usable (mem s) r.1 r.2;
  rf_tcb : plain u ∧ is_Some (mem s !! u);
  rf_main : r.2 ≤ main_stack_limit ∨ main_top ≤ r.1;
  rf_tcb_main : u < main_stack_limit ∨ main_top ≤ u;
  rf_apart : apart (<[u := r]> R)
}.
(** The stack and the TCB's first word, then the kernel's part of creation. *)
Definition make_task (u lo depth code param prio : Z) : C unit :=
  initialise_stack u lo depth code param ;> kr (run_action (ACreate u lo prio)).

Section make.
Context (R : gmap Z (Z * Z)) (s : core) (u lo depth code param : Z).
Context (Hroom : room_for R s u (lo, lo + 4 * depth)).

Lemma room_facts : 0 ≤ lo ∧ lo mod 4 = 0 ∧ lo + 4 * depth < MAX32 ∧ 24 ≤ depth ∧ (u < lo ∨ lo + 4 * depth ≤ u).
Proof.
  destruct Hroom as [_ [? ?] [? _] _ _ _ _ [_ Hap]]. simpl in *.
  assert (u < lo ∨ lo + 4 * depth ≤ u) by (apply (Hap u u (lo, lo + 4 * depth) (lo, lo + 4 * depth)); apply lookup_insert_eq).
  split_and!; done || lia.
Qed.
Let mem' : gmap Z Z := first_mem (mem s) u lo depth code param.
Definition start_context : context := first_context lo depth code param.

Lemma first_parked s' m :
  mem s' = mem' → m = mem' → parked s' u (lo, lo + 4 * depth) start_context m.
Proof.
  intros Hm ->. destruct room_facts as (? & ? & ? & ? & ?). destruct (first_sp_range lo depth) as [Hsp H8]; [lia..|].
  assert (first_sp lo depth mod 4 = 0) as Hsp4 by (Z.to_euclidean_division_equations; lia).
  destruct Hroom as [_ _ _ Hu [Hpl Hex] _ _ _]. simpl in Hu.
  split; [|split; [by split; [simpl; lia|]|intros b _; by rewrite Hm]].
  split; [done|done|simpl; lia|done| | |].
  - rewrite Hm. unfold mem', first_mem. rewrite lookup_insert_eq. unfold top_sp, frame_sp, start_context.
    rewrite first_pad by done. simpl. f_equal. lia.
  - rewrite Hm. by apply first_words.
  - intros b Hb Hb4. apply Hu; [simpl in Hb; lia|done].
Qed.
Lemma first_canary : words_at mem' lo canary.
Proof.
  destruct room_facts as (? & ? & ? & ? & ?). destruct (first_sp_range lo depth) as [Hsp H8]; [lia..|].
  assert (∀ k, 0 ≤ k < 4 → mem' !! (lo + 4 * k) = Some stack_fill) as Hk.
  { intros k Hk. apply first_filled; try done || lia. by apply mod4. }
  unfold canary, words_at. replace (lo + 4 + 4 + 4) with (lo + 4 * 3) by lia. replace (lo + 4 + 4) with (lo + 4 * 2) by lia.
  split_and!; [replace lo with (lo + 4 * 0) by lia; by apply Hk|apply (Hk 1); lia|apply (Hk 2); lia|apply (Hk 3); lia|done].
Qed.
End make.

(** *** The other tasks, and the new one, in the memory with the new stack *)
Section placed.
Context (R : gmap Z (Z * Z)) (s s' : core) (u lo depth code param : Z).
Context (Hroom : room_for R s u (lo, lo + 4 * depth)).
Context (Hm : mem s' = first_mem (mem s) u lo depth code param) (Hal : STKALIGN s' = STKALIGN s).
#[local] Abbreviation r' := (lo, lo + 4 * depth).

Lemma placed_exists b : is_Some (mem s !! b) → is_Some (mem s' !! b).
Proof. rewrite Hm. apply first_exists. Qed.
Lemma placed_apart v r : R !! v = Some r →
  v ≠ u ∧ (v < lo ∨ lo + 4 * depth ≤ v) ∧ (u < r.1 ∨ r.2 ≤ u) ∧ (r.2 ≤ lo ∨ lo + 4 * depth ≤ r.1).
Proof.
  intros Hv. pose proof Hroom as [Hnew _ _ _ _ _ _ [Hap1 Hap2]]. assert (v ≠ u) as Hne by congruence.
  assert (<[u := r']> R !! v = Some r) as Hv' by by rewrite lookup_insert_ne.
  pose proof (lookup_insert_eq R u r') as Huu. split; [done|].
  pose proof (Hap2 _ _ _ _ Hv' Huu). pose proof (Hap2 _ _ _ _ Huu Hv'). pose proof (Hap1 _ _ _ _ Hv' Huu Hne). done.
Qed.
Lemma placed_same b : b ≠ u → b < lo ∨ lo + 4 * depth ≤ b → mem s' !! b = mem s !! b.
Proof. destruct (room_facts _ _ _ _ _ Hroom) as (Hlo & Hlo4 & Hhi & Hd & Hout). rewrite Hm. by apply first_outside. Qed.
Lemma placed_region v r :
  (∀ r, R !! v = Some r → region_ok main_top s v r ∧ r.1 + 84 ≤ r.2) → <[u := r']> R !! v = Some r → region_ok main_top s' v r.
Proof.
  pose proof Hroom as [_ _ _ Hu [Hpl Hex] Hrm Hrtm _]. destruct (room_facts _ _ _ _ _ Hroom) as (Hlo & Hlo4 & Hhi & Hd & Hout).
  intros Hreg [[<- <-]|[Hne Hv]]%lookup_insert_Some.
  - split; [simpl; lia|done| | | |done|done].
    + eapply usable_mono; [exact Hu|apply placed_exists].
    + rewrite Hm. exact (first_canary R s u lo depth code param Hroom).
    + split; [done|by apply placed_exists].
  - destruct (placed_apart v r Hv) as (_ & _ & ? & ?). destruct (Hreg r Hv) as [Hr ?].
    eapply region_ok_same; [exact Hr|apply placed_exists|]. intros b Hb. apply placed_same; lia.
Qed.
Lemma placed_parked v r c m : R !! v = Some r → parked s v r c m → parked s' v r c m.
Proof.
  intros Hv (Hsv & [Hspv Hv4] & Hstk). destruct (placed_apart v r Hv) as (? & ? & ? & ?). split; [|split; [done|]].
  - eapply saved_same; [exact Hsv|done|by apply placed_same|]. intros b Hb. apply placed_same; lia.
  - intros b Hb. rewrite placed_same by lia. by apply Hstk.
Qed.
End placed.

Lemma wp_make_task R X t u lo depth code param prio (Q : unit → core → Prop) s :
  board_ok idle main_top R X t s → room_for R s u (lo, lo + 4 * depth) →
  enabled idle (ker s) (ACreate u lo prio) = true →
  (∀ s' k', s' = s <| mem ::= λ m, first_mem m u lo depth code param |> <| ker := k' |> →
     run_action (ACreate u lo prio) (ker s) = ROk (tt, k') →
     board_ok idle main_top (<[u := (lo, lo + 4 * depth)]> R) (<[u := (start_context lo depth code param, mem s')]> X) t s' →
     Q tt s') →
  wp (make_task u lo depth code param prio) Q s.
Proof.
  intros Hok Hroom He HQ. destruct (room_facts _ _ _ _ _ Hroom) as (Hlo & Hlo4 & Hhi & Hd & Hout).
  destruct (bo_kernel _ _ _ _ _ _ Hok) as [v Hk].
  destruct (wp_ok _ _ _ (wp_run_action idle _ (ker s) v Hk He)) as ([] & k' & Hrun & Hker').
  destruct (create_view idle (ker s) k' u lo prio) as (_ & Hst & Hcur & Hrunning); [by exists v|done|apply (bo_running _ _ _ _ _ _ Hok)|done|].
  pose proof Hroom as [Hnew _ _ Hu [Hpl Hex] Hrm Hrtm Hap]. simpl in Hu, Hrm.
  unfold make_task. apply wp_bind, wp_initialise_stack; [done|done|done|done|done|done|done|done|].
  unfold kr. apply wp_zoom. unfold wp. simpl ker. rewrite Hrun. eapply HQ; [reflexivity|exact Hrun|].
  set (s' := set_field ker _ _). set (r' := (lo, lo + 4 * depth)).
  assert (MSP s' = MSP s ∧ STKALIGN s' = STKALIGN s ∧ context_of s' = context_of s ∧ ker s' = k') as (Hms & Hal & Hctx & Hks) by done.
  assert (mem s' = first_mem (mem s) u lo depth code param) as Hm by done.
  destruct Hok as [Htask Hc _ _ Hst0 Hreg Hap0 Hwf Hsp Hpark Hmsp Hmain Hmu Hnest].
  split; [exact Htask|by rewrite Hks, Hcur|by rewrite Hks|by rewrite Hks| | |exact Hap|exact Hwf| | |done|done| |exact Hnest].
  - rewrite Hks, Hst, Hst0. unfold lows. by rewrite fmap_insert.
  - intros v' r. apply (placed_region R s s' u lo depth code param Hroom Hm). intros r0 Hr0. split; [by apply Hreg|].
    destruct (decide (v' = t)) as [->|Hnt].
    + destruct Hsp as (rt & Hrt & [? _]). simplify_eq. lia.
    + destruct (Hpark v' r0 Hr0 Hnt) as (c & m & _ & _ & [? _] & _). lia.
  - destruct Hsp as (r & Hr & Hsp). exists r. split; [|done]. rewrite lookup_insert_ne; [done|].
    by destruct (placed_apart R s u lo depth Hroom t r Hr) as (? & _).
  - intros v' r [[<- <-]|[Hne Hv]]%lookup_insert_Some Hnt.
    + eexists _, _. split; [apply lookup_insert_eq|]. by apply (first_parked R s).
    + destruct (Hpark v' r Hv Hnt) as (c & m & HX & Hp). exists c, m. split; [by rewrite lookup_insert_ne|].
      by apply (placed_parked R s s' u lo depth code param Hroom Hm Hal).
  - eapply usable_mono; [exact Hmu|]. by apply (placed_exists s s' u lo depth code param).
Qed.
End tasks.
