(* ===== verification/PortStart.v ===== *)
(** * Starting the scheduler

    [xPortStartScheduler] checks the vector table and the interrupt priorities,
    sets up the tick timer, and leaves the first task running from its first
    instruction. *)
From S2P Require Import Prelude SchedLock Heap4 KList Tasks TasksOps TasksMachine.
From S2P Require Import Port PortSwitch PortKernel PortMachine PortTasks.

(** ** Interrupt priorities *)
(** A controller with the upper [n] bits of each priority byte. *)
Definition prio_mask (n : Z) : Z := 256 - 2 ^ (8 - n).
Definition max_prigroup (n : Z) : Z := if n =? 8 then 0 else (7 - n) * 256.

Lemma core_eq s s' :
  gpr s = gpr s' → r14 s = r14 s' → pc s = pc s' → xPSR s = xPSR s' → IPSR s = IPSR s' → MSP s = MSP s' →
  PSP s = PSP s' → SPSEL s = SPSEL s' → BASEPRI s = BASEPRI s' → PRIMASK s = PRIMASK s' → FAULTMASK s = FAULTMASK s' →
  STKALIGN s = STKALIGN s' → mem s = mem s' → NVIC_IP s = NVIC_IP s' → prio_bits s = prio_bits s' →
  uxCriticalNesting s = uxCriticalNesting s' → ucMaxSysCallPriority s = ucMaxSysCallPriority s' →
  ulMaxPRIGROUPValue s = ulMaxPRIGROUPValue s' → ker s = ker s' → s = s'.
Proof. destruct s, s'. simpl. intros. by subst. Qed.

Section start.
Context `{Link}.

Lemma wp_prio_loop n (Q : Z → core → Prop) s :
  1 ≤ n ≤ 8 → Q n s → wp (iterM 9 prio_one (0, prio_mask n)) Q s.
Proof.
  intros Hn HQ.
  assert (n = 1 ∨ n = 2 ∨ n = 3 ∨ n = 4 ∨ n = 5 ∨ n = 6 ∨ n = 7 ∨ n = 8) as Hcases by lia.
  assert (iterM 9 prio_one (0, prio_mask n) s = ROk (n, s)) as He
    by (destruct Hcases as [->|[->|[->|[->|[->|[->|[->| ->]]]]]]]; vm_compute; reflexivity).
  by eapply wp_intro.
Qed.

(** With six bits or more the highest priority of interrupts that use the kernel
    can be told from 0 and from its neighbours. *)
Lemma wp_find_priorities n (Q : unit → core → Prop) s :
  6 ≤ n ≤ 8 → prio_bits s = prio_mask n →
  Q tt (s <| NVIC_IP ::= λ m, <[16 := Z.land (default 0 (m !! 16)) (prio_mask n)]> m |>
          <| ucMaxSysCallPriority := configMAX_SYSCALL_INTERRUPT_PRIORITY |>
          <| ulMaxPRIGROUPValue := max_prigroup n |>) →
  wp find_priorities Q s.
Proof.
  intros Hn Hp HQ.
  assert (n = 6 ∨ n = 7 ∨ n = 8) as Hcases by lia.
  assert (Z.land 255 (prio_mask n) = prio_mask n ∧ Z.land configMAX_SYSCALL_INTERRUPT_PRIORITY (prio_mask n) = configMAX_SYSCALL_INTERRUPT_PRIORITY ∧
    Z.ldiff configMAX_SYSCALL_INTERRUPT_PRIORITY (prio_mask n) = 0) as (H1 & H2 & H3).
  { by destruct Hcases as [->|[->| ->]]. }
  unfold find_priorities, read_prio, write_prio, portFIRST_USER_INTERRUPT_NUMBER, portMAX_8_BIT_VALUE.
  apply wp_bind, wp_gets, wp_bind, wp_modify, wp_bind, wp_gets. simpl. rewrite lookup_insert_eq, Hp, H1. simpl.
  apply wp_bind, wp_modify, wp_bind, wp_assert; [by destruct Hcases as [->|[->| ->]]|]. apply wp_bind, wp_assert; [by destruct Hcases as [->|[->| ->]]|].
  apply wp_bind, wp_prio_loop; [lia|].
  assert (∀ s', s' = s <| NVIC_IP ::= λ m, <[16 := Z.land (default 0 (m !! 16)) (prio_mask n)]> m |>
          <| ucMaxSysCallPriority := configMAX_SYSCALL_INTERRUPT_PRIORITY |>
          <| ulMaxPRIGROUPValue := max_prigroup n |> → Q tt s') as HQ' by (by intros ? ->).
  clear HQ. destruct Hcases as [->|[->| ->]]; [change (6 =? 8) with false|change (7 =? 8) with false|change (8 =? 8) with true]; cbn iota;
    [..|apply wp_bind, wp_bind, wp_assert; [done|]]; [apply wp_bind|apply wp_bind|]; apply wp_modify;
    apply wp_bind, wp_modify, wp_bind, wp_modify, wp_modify, HQ'; apply core_eq; try reflexivity;
    cbn [NVIC_IP set_field]; rewrite <- Hp; apply insert_insert_eq.
Qed.
(** With fewer bits the check in [xPortStartScheduler] stops. *)
Lemma find_priorities_refuses n s :
  1 ≤ n ≤ 5 → prio_bits s = prio_mask n → find_priorities s = RAssert.
Proof.
  intros Hn Hp.
  assert (n = 1 ∨ n = 2 ∨ n = 3 ∨ n = 4 ∨ n = 5) as Hcases by lia.
  unfold find_priorities, read_prio, write_prio, portFIRST_USER_INTERRUPT_NUMBER, portMAX_8_BIT_VALUE.
  unfold bindM at 1, gets at 1. unfold bindM at 1, modify at 1. unfold bindM at 1, gets at 1. simpl.
  rewrite lookup_insert_eq, Hp. unfold bindM at 1, modify at 1. unfold bindM at 1, configASSERT at 1.
  by destruct Hcases as [->|[->|[->|[->| ->]]]].
Qed.
(** An interrupt may use the kernel exactly when its priority is not above the
    highest one allowed and no bit of it is a sub-priority. *)
Lemma vPortValidateInterruptPriority_iff s aircr :
  load_word portAIRCR_REG s = Some aircr → portFIRST_USER_INTERRUPT_NUMBER ≤ IPSR s →
  vPortValidateInterruptPriority s =
    (if (ucMaxSysCallPriority s <=? default 0 (NVIC_IP s !! IPSR s)) &&
        (Z.land aircr portPRIORITY_GROUP_MASK <=? ulMaxPRIGROUPValue s)
     then ROk (tt, s) else RAssert).
Proof.
  intros Ha Hi. unfold vPortValidateInterruptPriority, read_prio, load, configASSERT, bindM, gets, getM, derefM, retM.
  rewrite (proj2 (Z.leb_le _ _)) by lia.
  destruct (ucMaxSysCallPriority s <=? default 0 (NVIC_IP s !! IPSR s)); [|done]. simpl. rewrite Ha. done.
Qed.

(** ** The registers that are set up *)
Definition setup_regs : list Z :=
  [portNVIC_SHPR2_REG; portNVIC_SHPR3_REG; portNVIC_SYSTICK_CTRL_REG; portNVIC_SYSTICK_LOAD_REG; portNVIC_SYSTICK_CURRENT_VALUE_REG].
(** Only they change in memory, and only the priorities besides. *)
Record set_up (s s' : core) : Prop := {
  su_gpr : gpr s' = gpr s;
  su_ipsr : IPSR s' = IPSR s;
  su_sel : SPSEL s' = SPSEL s;
  su_align : STKALIGN s' = STKALIGN s;
  su_ker : ker s' = ker s;
  su_mem : ∀ b, b ∉ setup_regs → mem s' !! b = mem s !! b;
  su_exists : ∀ b, is_Some (mem s !! b) → is_Some (mem s' !! b)
}.
Lemma set_up_store s s1 a v : a ∈ setup_regs → set_up s s1 → set_up s (s1 <| mem ::= <[a := v]> |>).
Proof.
  intros Ha [? ? ? ? ? Hm He]. split; simpl; try done.
  - intros b Hb. rewrite lookup_insert_ne; [by apply Hm|]. by intros ->.
  - intros b Hb. apply lookup_insert_is_Some'. right. by apply He.
Qed.
Lemma wp_store_reg s s1 a v (Q : unit → core → Prop) :
  (∀ b, b ∈ setup_regs → plain b ∧ is_Some (mem s !! b)) → a ∈ setup_regs → set_up s s1 →
  (∀ s2, set_up s s2 → Q tt s2) → wp (store_word a v) Q s1.
Proof.
  intros Hr Ha Hs HQ. destruct (Hr a Ha) as [Hp He]. apply wp_store_word; [done|by apply Hs|].
  by apply HQ, set_up_store.
Qed.
Lemma wp_set_priority_reg s s1 v (Q : unit → core → Prop) :
  (∀ b, b ∈ setup_regs → plain b ∧ is_Some (mem s !! b)) → set_up s s1 →
  (∀ s2, set_up s s2 → Q tt s2) → wp (set_priority_reg v) Q s1.
Proof.
  intros Hr Hs HQ. assert (portNVIC_SHPR3_REG ∈ setup_regs) as Hin by (right; left).
  destruct (Hr _ Hin) as [Hp He]. destruct (su_exists _ _ Hs _ He) as [w Hw].
  apply wp_bind. eapply wp_load; [by rewrite load_plain|]. by apply (wp_store_reg s).
Qed.
Lemma wp_vPortSetupTimerInterrupt s s1 (Q : unit → core → Prop) :
  (∀ b, b ∈ setup_regs → plain b ∧ is_Some (mem s !! b)) → set_up s s1 →
  (∀ s2, set_up s s2 → Q tt s2) → wp vPortSetupTimerInterrupt Q s1.
Proof.
  intros Hr Hs HQ. unfold vPortSetupTimerInterrupt.
  assert (portNVIC_SYSTICK_CTRL_REG ∈ setup_regs ∧ portNVIC_SYSTICK_CURRENT_VALUE_REG ∈ setup_regs ∧
    portNVIC_SYSTICK_LOAD_REG ∈ setup_regs) as (? & ? & ?) by (unfold setup_regs; split_and!; set_solver).
  apply wp_bind, (wp_store_reg s); [done..|]. intros s2 Hs2. apply wp_bind, (wp_store_reg s); [done..|]. intros s3 Hs3.
  apply wp_bind, (wp_store_reg s); [done..|]. intros s4 Hs4. by apply (wp_store_reg s).
Qed.

(** The exception that [svc] raises before there is a task: its frame goes to
    the stack of [main] and stays there. *)
Lemma wp_exception_entry_main n (Q : unit → core → Prop) s :
  let a := MSP s - (if STKALIGN s && Z.testbit (MSP s) 2 then 36 else 32) in
  IPSR s = 0 → SPSEL s = false → MSP s mod 4 = 0 → 36 ≤ MSP s < MAX32 → usable (mem s) (MSP s - 36) (MSP s) →
  (∀ ws, bytes ws = 32 →
    Q tt (s <| mem ::= λ m, write m a ws |> <| MSP := a |> <| r14 := 4294967289 |> <| IPSR := n |>)) →
  wp (exception_entry n) Q s.
Proof.
  intros a Hi Hsel H4 Hr Hu HQ. unfold exception_entry. apply wp_bind, wp_getM.
  assert (get_sp s = MSP s) as Hget by (unfold get_sp; by rewrite Hsel, andb_false_r).
  rewrite Hget, Hi. assert (a = MSP s - 36 ∨ a = MSP s - 32) as Ha by (unfold a; destruct (STKALIGN s && _); lia).
  fold a. rewrite (wrap32_small a) by (unfold u32; lia). apply wp_bind.
  match goal with |- wp (store_words _ ?ws) _ _ => assert (bytes ws = 32) as Hb by done; generalize dependent ws end.
  intros ws Hb. apply wp_store_words; rewrite ?Hb.
  - eapply usable_sub; [exact Hu|lia..].
  - destruct Ha as [-> | ->]; [apply (mod4 _ (-9) H4)|apply (mod4 _ (-8) H4)].
  - lia.
  - lia.
  - apply wp_bind, wp_modify, wp_bind, wp_modify, wp_modify. specialize (HQ ws Hb).
    destruct s. simpl in Hi, Hsel. subst. exact HQ.
Qed.

(** ** From [main] to the first task *)
(** Where the stack of the handlers begins once the first task runs. *)
Definition main_top_after (al : bool) (top : Z) : Z := top - (if al && Z.testbit top 2 then 36 else 32).

(** The processor in [vTaskStartScheduler], when the kernel's data are set up: it
    runs on the main stack, the tasks are there with their first contexts (or any
    others), [n] bits of the interrupt priorities exist, and [top], [vt] are where
    the vector table says the main stack and the handlers are. *)
Record boot_ok (idle : Z) (R : gmap Z (Z * Z)) (X : gmap Z (context * gmap Z Z)) (t n top vt : Z) (s : core) : Prop := {
  bt_main : IPSR s = 0 ∧ SPSEL s = false ∧ length (gpr s) = 13%nat;
  bt_cur : pxCurrentTCB (ker s) = Some t ∧ is_Some (R !! t);
  bt_kernel : kernel_ok idle (ker s);
  bt_running : xSchedulerRunning (ker s) = true;
  bt_tcbs : pxStack <$> k_tcbs (ker s) = lows R;
  bt_regions : ∀ u r, R !! u = Some r → region_ok top s u r;
  bt_apart : apart R;
  bt_parked : ∀ u r, R !! u = Some r → ∃ c m, X !! u = Some (c, m) ∧ parked s u r c m;
  bt_prio : 6 ≤ n ≤ 8 ∧ prio_bits s = prio_mask n;
  bt_vectors : mem s !! portSCB_VTOR_REG = Some vt ∧ mem s !! vt = Some top ∧
    mem s !! (vt + 44) = Some addr_vPortSVCHandler ∧ mem s !! (vt + 56) = Some addr_xPortPendSVHandler ∧
    0 ≤ vt ∧ vt + 56 < MAX32;
  bt_plain : plain portSCB_VTOR_REG ∧ plain vt ∧ plain (vt + 44) ∧ plain (vt + 56);
  bt_regs : ∀ b, b ∈ setup_regs → plain b ∧ is_Some (mem s !! b) ∧ b ≠ portSCB_VTOR_REG ∧ b ≠ vt ∧ b ≠ vt + 44 ∧ b ≠ vt + 56 ∧
    (b < main_stack_limit ∨ top ≤ b) ∧ ∀ u r, R !! u = Some r → b ≠ u ∧ (b < r.1 ∨ r.2 ≤ b);
  bt_stack : 0 ≤ main_stack_limit ∧ main_stack_limit + 44 ≤ top < MAX32 ∧ top mod 4 = 0;
  bt_stack_usable : usable (mem s) main_stack_limit top
}.

Section boot.
Context (idle : Z) (R : gmap Z (Z * Z)) (X : gmap Z (context * gmap Z Z)) (t n top vt : Z) (s : core).
Context (Hbt : boot_ok idle R X t n top vt s).
Abbreviation main_top := (main_top_after (STKALIGN s) top).

Lemma main_top_range : top - 36 ≤ main_top ≤ top - 32 ∧ main_top mod 4 = 0.
Proof.
  destruct (bt_stack _ _ _ _ _ _ _ _ Hbt) as (_ & _ & H4). unfold main_top_after.
  destruct (STKALIGN s && Z.testbit top 2); (split; [lia|]); [apply (mod4 _ (-9) H4)|apply (mod4 _ (-8) H4)].
Qed.

(** The memory that belongs to the tasks is as it was. *)
Definition same_tasks (s' : core) : Prop :=
  (∀ b, is_Some (mem s !! b) → is_Some (mem s' !! b)) ∧
  ∀ u r, R !! u = Some r → mem s' !! u = mem s !! u ∧ ∀ b, r.1 ≤ b < r.2 → mem s' !! b = mem s !! b.
Lemma started_ok s' c m :
  same_tasks s' → ker s' = ker s → STKALIGN s' = STKALIGN s → MSP s' = main_top → uxCriticalNesting s' = 0 →
  X !! t = Some (c, m) → (∀ r, R !! t = Some r → parked s t r c m) →
  board_ok idle main_top R X t (resumed c s').
Proof.
  intros [Hex Hsame] Hk Hal Hmsp Hcn Hc Hpark.
  destruct Hbt as [_ [Hcur [rt Hrt]] Hker Hrun Hst Hreg Hap Hall _ _ _ _ Hstack Hsu].
  pose proof main_top_range as [Hmr Hm4]. destruct (Hpark rt Hrt) as (Hsv & Hsp & _).
  assert (context_of (resumed c s') = c) as Hctx by by destruct c.
  split; simpl; rewrite ?Hk; try done.
  - intros u r Hu. destruct (Hsame u r Hu) as [_ Hs]. pose proof (Hreg u r Hu) as Hrg.
    assert (r.1 + 84 ≤ r.2) by (destruct (Hall u r Hu) as (? & ? & _ & _ & [? _] & _); lia).
    assert (region_ok top (resumed c s') u r) as [? ? ? ? ? ? ?].
    { eapply region_ok_same; [exact Hrg|exact Hex|]. intros b Hb. apply Hs. lia. }
    split; try done; lia.
  - rewrite Hctx. apply Hsv.
  - by exists rt.
  - intros u r Hu Hne. destruct (Hsame u r Hu) as [Hs1 Hs2].
    destruct (Hall u r Hu) as (cu & mu & HX & Hsvu & Hspu & Hstk). exists cu, mu. split; [done|]. split; [|split; [done|]].
    + destruct Hspu. eapply saved_same; [exact Hsvu|done|done|]. intros b Hb. apply Hs2. lia.
    + intros b Hb. destruct Hspu. simpl. rewrite Hs2 by lia. by apply Hstk.
  - lia.
  - eapply usable_mono; [eapply usable_sub; [exact Hsu|lia..]|exact Hex].
  - by rewrite Hcn.
Qed.

Lemma wp_xPortStartScheduler (Q : unit → core → Prop) :
  (∀ s' c m, X !! t = Some (c, m) → board_ok idle main_top R X t s' → context_of s' = c → ker s' = ker s →
     PRIMASK s' = false → FAULTMASK s' = false → uxCriticalNesting s' = 0 → Q tt s') →
  wp xPortStartScheduler Q s.
Proof.
  intros HQ. pose proof Hbt as [(Hi & Hsel & Hg) [Hcur [rt Hrt]] _ _ _ Hreg _ Hall [Hn Hprio] (Hv1 & Hv2 & Hv3 & Hv4 & Hvt1 & Hvt2)
    (Hp1 & Hp2 & Hp3 & Hp4) Hregs (Hlim & Htop & Htop4) Hsu].
  destruct (Hall t rt Hrt) as (c & m & HX & Hpark).
  assert (∀ b, b ∈ setup_regs → plain b ∧ is_Some (mem s !! b)) as Hset by (intros b Hb; by destruct (Hregs b Hb) as (? & ? & _)).
  unfold xPortStartScheduler. apply wp_bind. eapply wp_load; [rewrite load_plain by done; exact Hv1|].
  change (4 * portVECTOR_INDEX_SVC) with 44. change (4 * portVECTOR_INDEX_PENDSV) with 56.
  rewrite !wrap32_small by (unfold u32; lia).
  apply wp_bind. eapply wp_load; [rewrite load_plain by done; exact Hv3|]. apply wp_bind, wp_assert; [apply Z.eqb_refl|].
  apply wp_bind. eapply wp_load; [rewrite load_plain by done; exact Hv4|]. apply wp_bind, wp_assert; [apply Z.eqb_refl|].
  apply wp_bind, (wp_find_priorities n); [done|done|]. set (s0 := set_field ulMaxPRIGROUPValue _ _).
  assert (set_up s s0) as Hs0 by done. clearbody s0.
  apply wp_bind, (wp_set_priority_reg s); [done|done|]. intros s1 Hs1. clear s0 Hs0.
  apply wp_bind, (wp_set_priority_reg s); [done|done|]. intros s2 Hs2. clear s1 Hs1.
  apply wp_bind, (wp_store_reg s); [done|unfold setup_regs; set_solver|done|]. intros s3 Hs3. clear s2 Hs2.
  apply wp_bind, (wp_vPortSetupTimerInterrupt s); [done|done|]. intros s4 Hs4. clear s3 Hs3.
  apply wp_bind, wp_modify. set (s5 := set_field uxCriticalNesting _ s4).
  assert (set_up s s5 ∧ uxCriticalNesting s5 = 0) as [Hs5 Hcn5] by by (split; [destruct Hs4|]). clearbody s5. clear s4 Hs4.
  assert (∀ b, b ∉ setup_regs → mem s5 !! b = mem s !! b) as Hm5 by apply Hs5.
  assert (portSCB_VTOR_REG ∉ setup_regs) as Hn1 by (intros Hin; by destruct (Hregs _ Hin) as (_ & _ & ? & _)).
  assert (vt ∉ setup_regs) as Hn2 by (intros Hin; by destruct (Hregs _ Hin) as (_ & _ & _ & ? & _)).
  unfold prvPortStartFirstTask. apply wp_bind. cbn [exec_code]. apply wp_bind, wp_modify, wp_bind.
  destruct Hs5 as [Hg5 Hi5 Hsel5 Hal5 Hk5 _ Hex5]. rewrite <- Hg5 in Hg.
  eapply wp_LDR.
  { rewrite load_plain; norm; rewrite list_lookup_total_insert_eq by lia; [|done]. rewrite Hm5 by done. exact Hv1. }
  apply wp_bind. eapply wp_LDR.
  { rewrite load_plain; norm; rewrite list_lookup_total_insert_eq by (rewrite length_insert; lia); [|done]. rewrite Hm5 by done. exact Hv2. }
  apply wp_bind, wp_modify, wp_bind, wp_modify, wp_bind, wp_modify, wp_bind, wp_ret, wp_bind, wp_ret, wp_ret.
  match goal with |- wp _ _ ?x => set (s6 := x) end.
  assert (gpr s6 = <[0%nat := top]> (<[0%nat := vt]> (<[0%nat := portSCB_VTOR_REG]> (gpr s5)))) as Hgs by reflexivity.
  assert (MSP s6 = gpr s6 !!! 0%nat) as Hms6 by reflexivity.
  rewrite Hgs, list_lookup_total_insert_eq in Hms6 by (rewrite !length_insert; lia).
  assert (length (gpr s6) = 13%nat) as Hg6 by by rewrite Hgs, !length_insert.
  assert (IPSR s6 = 0) as Hi6 by (transitivity (IPSR s5); [reflexivity|congruence]).
  assert (SPSEL s6 = false) as Hsel6 by (transitivity (SPSEL s5); [reflexivity|congruence]).
  assert (STKALIGN s6 = STKALIGN s) as Hal6 by (transitivity (STKALIGN s5); [reflexivity|done]).
  assert (ker s6 = ker s) as Hk6 by (transitivity (ker s5); [reflexivity|done]).
  assert (mem s6 = mem s5) as Hm6 by reflexivity.
  assert (PRIMASK s6 = false) as Hpm6 by reflexivity.
  assert (FAULTMASK s6 = false) as Hfm6 by reflexivity.
  assert (uxCriticalNesting s6 = 0) as Hcn6 by (transitivity (uxCriticalNesting s5); [reflexivity|done]).
  clearbody s6.
  apply wp_bind, wp_exception_entry_main; [done|done|by rewrite Hms6|lia| |].
  { rewrite Hms6, Hm6. apply (usable_mono (mem s)); [eapply usable_sub; [exact Hsu|lia..]|exact Hex5]. }
  intros ws Hws. rewrite Hms6, Hal6. fold (main_top_after (STKALIGN s) top). set (s7 := set_field IPSR _ _).
  pose proof main_top_range as [Hmr Hmr4].
  assert (same_tasks s7) as Hsame.
  { split.
    - intros b Hb. simpl. apply write_is_Some. rewrite Hm6. by apply Hex5.
    - intros u r Hu. destruct (Hreg u r Hu) as [? _ _ _ _ Hrm Hrt'].
      assert (∀ b, b < main_stack_limit ∨ top ≤ b → b ∉ setup_regs → mem s7 !! b = mem s !! b) as Hout.
      { intros b Hb1 Hb2. simpl. rewrite write_outside by lia. rewrite Hm6. by apply Hm5. }
      split.
      + apply Hout; [lia|]. intros Hin. destruct (Hregs _ Hin) as (_ & _ & _ & _ & _ & _ & _ & Hb). by destruct (Hb u r Hu).
      + intros b Hb. apply Hout; [lia|]. intros Hin. destruct (Hregs _ Hin) as (_ & _ & _ & _ & _ & _ & _ & Hb'). destruct (Hb' u r Hu). lia. }
  assert (saved s7 t c) as Hsv7.
  { destruct Hpark as (Hsv & Hsp & _). destruct Hsame as [_ Hsame]. destruct (Hsame t rt Hrt) as [Hs1 Hs2]. destruct Hsp.
    eapply saved_same; [exact Hsv|exact Hal6|exact Hs1|]. intros b Hb. apply Hs2. lia. }
  apply (wp_vPortSVCHandler t c); [exact Hsv7|simpl; by rewrite Hk6|exact Hg6|done|].
  apply (HQ _ c m); [done| |by destruct c|exact Hk6|exact Hpm6|exact Hfm6|exact Hcn6].
  apply (started_ok _ c m); [done|exact Hk6|exact Hal6|done|exact Hcn6|done|]. intros r Hr. by simplify_eq.
Qed.
End boot.
End start.
