(* ===== verification/PortProps.v ===== *)
(** * The port: start and steps of the machine, and what they guarantee *)
From S2P Require Import Prelude KList Tasks TasksOps TasksCreate TasksMachine TasksCheck SchedLock Heap4 Port.
From S2P Require Import PortSwitch PortKernel PortMachine PortTasks PortStart.

(** ** Critical sections *)
Section critical.
Context `{Link} (idle main_top : Z) (Hvar : addr_pxCurrentTCB ≠ portNVIC_INT_CTRL_REG).

Lemma wp_vPortEnterCritical (Q : unit → core → Prop) s :
  IPSR s = 0 → 0 ≤ uxCriticalNesting s → uxCriticalNesting s + 1 < MAX32 →
  Q tt (s <| BASEPRI := configMAX_SYSCALL_INTERRUPT_PRIORITY |> <| uxCriticalNesting := uxCriticalNesting s + 1 |>) →
  wp vPortEnterCritical Q s.
Proof.
  intros Hi Hn1 Hn2 HQ. unfold vPortEnterCritical. apply wp_bind, wp_modify, wp_bind, wp_modify, wp_bind, wp_gets. simpl.
  rewrite wrap32_small by (unfold u32; lia).
  assert (∀ s', s' = s <| BASEPRI := configMAX_SYSCALL_INTERRUPT_PRIORITY |> <| uxCriticalNesting := uxCriticalNesting s + 1 |> →
    Q tt s') as HQ' by (by intros s' ->).
  destruct (Z.eqb_spec (uxCriticalNesting s + 1) 1).
  - apply wp_bind. eapply wp_load.
    { unfold load_word. rewrite (proj2 (Z.eqb_neq _ _) (not_eq_sym Hvar)), Z.eqb_refl. reflexivity. }
    apply wp_assert.
    + simpl. rewrite Hi. by destruct (pendsv (ker s)).
    + apply HQ'. destruct s. unfold set_field. simpl in *. by rewrite wrap32_small by (unfold u32; lia).
  - apply wp_ret, HQ'. destruct s. unfold set_field. simpl in *. by rewrite wrap32_small by (unfold u32; lia).
Qed.
Lemma wp_vPortExitCritical (Q : unit → core → Prop) s :
  0 < uxCriticalNesting s < MAX32 →
  Q tt (s <| uxCriticalNesting := uxCriticalNesting s - 1 |>
          <| BASEPRI := if uxCriticalNesting s =? 1 then 0 else BASEPRI s |>) →
  wp vPortExitCritical Q s.
Proof.
  intros Hn HQ. unfold vPortExitCritical. apply wp_bind, wp_gets, wp_bind, wp_assert.
  { apply negb_true_iff, Z.eqb_neq. lia. }
  apply wp_bind, wp_modify, wp_bind, wp_gets. destruct s. unfold set_field in *. simpl in *.
  rewrite wrap32_small by (unfold u32; lia).
  destruct (Z.eqb_spec uxCriticalNesting 1) as [->|]; [by apply wp_modify|].
  destruct (Z.eqb_spec (uxCriticalNesting - 1) 0); [lia|]. by apply wp_ret.
Qed.

(** ** Steps *)
Abbreviation config := (gmap Z (Z * Z) * core)%type.

(** [R] says where the tasks have their stacks.  The running task computes
    ([bs_own]), calls the kernel ([bs_call]), enters and leaves critical sections
    and creates tasks; the interrupts that use the kernel and PendSV come when
    they are not masked. *)
Inductive bstep : config → config → Prop :=
| bs_own R s s' t r : pxCurrentTCB (ker s) = Some t → R !! t = Some r → own_change main_top r s s' →
    ker s' = ker s → BASEPRI s' = BASEPRI s → uxCriticalNesting s' = uxCriticalNesting s →
    bstep (R, s) (R, s')
| bs_call R s s' t r a : pxCurrentTCB (ker s) = Some t → R !! t = Some r → own_change main_top r s s' →
    switches a = false → enabled idle (ker s) a = true → run_action a (ker s) = ROk (tt, ker s') →
    BASEPRI s' = BASEPRI s → uxCriticalNesting s' = uxCriticalNesting s →
    bstep (R, s) (R, s')
| bs_enter R s s' : uxCriticalNesting s + 1 < MAX32 → vPortEnterCritical s = ROk (tt, s') → bstep (R, s) (R, s')
| bs_exit R s s' : uxCriticalNesting s ≠ 0 → vPortExitCritical s = ROk (tt, s') → bstep (R, s) (R, s')
| bs_create R s s' u lo depth code param prio :
    room_for main_top R s u (lo, lo + 4 * depth) → enabled idle (ker s) (ACreate u lo prio) = true →
    make_task u lo depth code param prio s = ROk (tt, s') →
    bstep (R, s) (<[u := (lo, lo + 4 * depth)]> R, s')
| bs_irq R s s' n j a : BASEPRI s = 0 → is_irq a = true → enabled idle (ker s) a = true →
    interrupt n j (isr a) s = ROk (tt, s') → bstep (R, s) (R, s')
| bs_pendsv R s s' j : BASEPRI s = 0 → pendsv (ker s) = true → PendSV j s = ROk (tt, s') → bstep (R, s) (R, s').

(** The invariant of the machine with the task that runs and what the others are
    parked with. *)
Definition good (c : config) : Prop := ∃ X t, board_ok idle main_top c.1 X t c.2.

Lemma board_nest R X t s : board_ok idle main_top R X t s → nest_ok s.
Proof. apply bo_nest. Qed.

(** What the steps of others leave of a task that does not run. *)
Definition keeps_parked (R R' : gmap Z (Z * Z)) (X X' : gmap Z (context * gmap Z Z)) (t : Z) : Prop :=
  ∀ u, is_Some (R !! u) → R' !! u = R !! u ∧ (u ≠ t → X' !! u = X !! u).

Lemma own_same R X t s s' r :
  board_ok idle main_top R X t s → R !! t = Some r → context_of s' = context_of s → IPSR s' = IPSR s → SPSEL s' = SPSEL s →
  mem s' = mem s → MSP s' = MSP s → STKALIGN s' = STKALIGN s → own_change main_top r s s'.
Proof.
  intros Hok Hr Hctx Hi Hsel Hm Hms Hal. destruct (bo_sp _ _ _ _ _ _ Hok) as (r0 & Hr0 & Hsp). rewrite Hr in Hr0. injection Hr0 as <-.
  split.
  - destruct (bo_task _ _ _ _ _ _ Hok). split; congruence.
  - exact (eq_ind_r context_wf (bo_wf _ _ _ _ _ _ Hok) Hctx).
  - replace (PSP s') with (PSP s); [done|]. by apply (f_equal x_sp) in Hctx.
  - intros b. by rewrite Hm.
  - intros b _ _. by rewrite Hm.
  - done.
  - done.
Qed.
Lemma keeps_parked_refl R X t : keeps_parked R R X X t.
Proof. by split. Qed.

Lemma bstep_ok R s R' s' X t :
  board_ok idle main_top R X t s → bstep (R, s) (R', s') →
  ∃ X' t', board_ok idle main_top R' X' t' s' ∧ keeps_parked R R' X X' t ∧ (t' = t ∨ resumes R' X' t' s').
Proof.
  intros Hok Hst. pose proof (bo_cur _ _ _ _ _ _ Hok) as Hcur. pose proof (board_nest _ _ _ _ Hok) as [Hn Hb].
  inversion Hst as [? ? ? t0 r Hc Hr Hown Hk Hb' Hn'|? ? ? t0 r a Hc Hr Hown Hsw He Hrun Hb' Hn'|? ? ? Hlt Hrun|? ? ? Hne Hrun|
    ? ? ? u lo depth code param prio Hroom He Hrun|? ? ? n j a Hb0 Hi He Hrun|? ? ? j Hb0 Hp Hrun]; subst.
  - simplify_eq. exists X, t. split; [|by split; [|left]].
    eapply board_ok_own; [done|exact Hr|exact Hown|by rewrite Hk; apply Hok|by rewrite Hk|].
    unfold nest_ok. by rewrite Hb', Hn'.
  - simplify_eq. exists X, t. split; [|by split; [|left]]. destruct (bo_kernel _ _ _ _ _ _ Hok) as [v Hv].
    eapply board_ok_own; [done|exact Hr|exact Hown| | |].
    + exact (wp_run _ _ _ _ _ (wp_run_action idle a _ v Hv He) Hrun).
    + eapply run_action_view; [done|apply Hok|exact Hrun].
    + unfold nest_ok. by rewrite Hb', Hn'.
  - destruct (bo_sp _ _ _ _ _ _ Hok) as (r & Hr & _). destruct (bo_task _ _ _ _ _ _ Hok) as [Hi _].
    exists X, t. split; [|split; [apply keeps_parked_refl|by left]].
    assert (s' = s <| BASEPRI := configMAX_SYSCALL_INTERRUPT_PRIORITY |> <| uxCriticalNesting := uxCriticalNesting s + 1 |>) as ->
      by (apply (wp_run _ (λ _ s', s' = _) _ _ _ (wp_vPortEnterCritical (λ _ s', s' = _) s Hi (proj1 Hn) Hlt eq_refl) Hrun)).
    eapply board_ok_own; [done|exact Hr|by eapply own_same|apply Hok|done|].
    unfold nest_ok. simpl. destruct (Z.eqb_spec (uxCriticalNesting s + 1) 0); [lia|]. split; [lia|done].
  - destruct (bo_sp _ _ _ _ _ _ Hok) as (r & Hr & _).
    assert (0 < uxCriticalNesting s < MAX32) as Hn' by lia.
    exists X, t. split; [|split; [apply keeps_parked_refl|by left]].
    assert (s' = s <| uxCriticalNesting := uxCriticalNesting s - 1 |>
          <| BASEPRI := if uxCriticalNesting s =? 1 then 0 else BASEPRI s |>) as ->
      by (apply (wp_run _ (λ _ s', s' = _) _ _ _ (wp_vPortExitCritical (λ _ s', s' = _) s Hn' eq_refl) Hrun)).
    eapply board_ok_own; [done|exact Hr|by eapply own_same|apply Hok|done|].
    unfold nest_ok. simpl. rewrite Hb.
    destruct (Z.eqb_spec (uxCriticalNesting s) 0), (Z.eqb_spec (uxCriticalNesting s) 1), (Z.eqb_spec (uxCriticalNesting s - 1) 0);
      lia || by split; [lia|].
  - assert (wp (make_task u lo depth code param prio) (λ _ s', ∃ X', board_ok idle main_top (<[u := (lo, lo + 4 * depth)]> R) X' t s' ∧
      keeps_parked R (<[u := (lo, lo + 4 * depth)]> R) X X' t) s) as Hw.
    { apply (wp_make_task idle main_top R X t); [done..|]. intros s1 k1 _ _ Hok1. eexists. split; [exact Hok1|]. intros v [rv Hv].
      assert (v ≠ u) by (intros ->; pose proof (rf_new _ _ _ _ _ Hroom); congruence).
      rewrite !lookup_insert_ne by done. done. }
    destruct (wp_run _ _ _ _ _ Hw Hrun) as (X' & Hok' & Hkeep). exists X', t. by split; [|split; [|left]].
  - exists X, t. split; [|split; [apply keeps_parked_refl|by left]].
    assert (wp (interrupt n j (isr a)) (λ _ s', board_ok idle main_top R' X t s') s) as Hw
      by (apply (wp_interrupt idle main_top R' X t); [done..|by intros]).
    exact (wp_run _ _ _ _ _ Hw Hrun).
  - assert (wp (PendSV j) (λ _ s', ∃ t', board_ok idle main_top R' (X_switch X t s) t' s' ∧ resumes R' (X_switch X t s) t' s') s) as Hw
      by (apply (wp_PendSV idle main_top R' X t s Hok j); [done..|]; intros s1 t1 Ho1 Hr1 _ _; by exists t1).
    destruct (wp_run _ _ _ _ _ Hw Hrun) as (t' & Hok' & Hre).
    exists (X_switch X t s), t'. split; [done|]. split; [|by right]. intros u Hu. split; [done|]. intros Hne.
    unfold X_switch. by rewrite lookup_insert_ne.
Qed.

(** ** A task that does not run *)
(** A step of the others: task [t] does not run. *)
Definition others (t : Z) (c c' : config) : Prop := pxCurrentTCB (ker c.2) ≠ Some t ∧ bstep c c'.

Lemma parked_until t r c m cf cf' :
  rtc (others t) cf cf' →
  (∃ X u, board_ok idle main_top cf.1 X u cf.2 ∧ cf.1 !! t = Some r ∧ X !! t = Some (c, m) ∧ (u = t → resumes cf.1 X u cf.2)) →
  ∃ X u, board_ok idle main_top cf'.1 X u cf'.2 ∧ cf'.1 !! t = Some r ∧ X !! t = Some (c, m) ∧ (u = t → resumes cf'.1 X u cf'.2).
Proof.
  induction 1 as [cf|cf1 cf2 cf3 [Hne Hst] _ IH]; [done|]. intros (X & u & Hok & Hr & HX & _). apply IH.
  destruct cf1 as [R1 s1], cf2 as [R2 s2]. simpl in *.
  assert (t ≠ u) as Htu by (intros ->; by rewrite (bo_cur _ _ _ _ _ _ Hok) in Hne).
  destruct (bstep_ok _ _ _ _ _ _ Hok Hst) as (X' & u' & Hok' & Hkeep & Hor).
  destruct (Hkeep t) as [HR' HX']; [by exists r|].
  exists X', u'. split_and!; [done|congruence|by rewrite HX'|]. intros ->. by destruct Hor as [->|].
Qed.
Lemma resumed_after t r c m cf cf' :
  rtc (others t) cf cf' →
  (∃ X u, board_ok idle main_top cf.1 X u cf.2 ∧ cf.1 !! t = Some r ∧ X !! t = Some (c, m) ∧ (u = t → resumes cf.1 X u cf.2)) →
  pxCurrentTCB (ker cf'.2) = Some t →
  context_of cf'.2 = c ∧ BASEPRI cf'.2 = 0 ∧ ∀ b, x_sp c ≤ b < r.2 → mem cf'.2 !! b = m !! b.
Proof.
  intros Hrun Hc Hcur. destruct (parked_until _ _ _ _ _ _ Hrun Hc) as (X & u & Hok & Hr & HX & Hre).
  rewrite (bo_cur _ _ _ _ _ _ Hok) in Hcur. injection Hcur as ->. by apply (Hre eq_refl).
Qed.
Lemma good_steps cf cf' : good cf → rtc bstep cf cf' → good cf'.
Proof.
  intros Hg Hst. revert Hg. induction Hst as [|cf1 cf2 cf3 Hs _ IH]; [done|]. intros (X & u & Hok). apply IH.
  destruct cf1 as [R1 s1], cf2 as [R2 s2]. destruct (bstep_ok _ _ _ _ _ _ Hok Hs) as (X' & u' & Hok' & _). by exists X', u'.
Qed.
End critical.

(** ** The port keeps the tasks apart *)
(** [resumes_with t c m r cf]: whenever, after any steps of the others, task [t]
    runs again, its registers are those of [c], interrupts are enabled, and its
    stack [r] above SP holds what it held in [m]. *)
Definition resumes_with `{Link} (idle main_top t : Z) (c : context) (m : gmap Z Z) (r : Z * Z) (cf : gmap Z (Z * Z) * core) : Prop :=
  ∀ R2 s2, rtc (others idle main_top t) cf (R2, s2) → pxCurrentTCB (ker s2) = Some t →
    context_of s2 = c ∧ BASEPRI s2 = 0 ∧ ∀ b, x_sp c ≤ b < r.2 → mem s2 !! b = m !! b.

(** C24: the port keeps the tasks apart.  From the call of [xPortStartScheduler]
    with the tasks' stacks set up, the first task runs with the context it was
    set up with; and after any run of the machine (the running task computing,
    calling the kernel, nesting critical sections and creating tasks, interrupts
    and context switches):
    - a task is outside all critical sections exactly when interrupts are enabled;
    - an interrupt that uses the kernel returns to the running task with every
      register as it was, having done what the kernel's function does;
    - PendSV succeeds (the check of the stack does not fail), switches the kernel
      as [xPortPendSVHandler] says, and whenever the task that was switched out
      runs again, whatever the other tasks and interrupts have done meanwhile, its
      registers, its stack pointer and its stack are what they were;
    - a task that is created succeeds in getting its stack, and first runs at its
      function's entry, with its parameter in R0 and [prvTaskExitError] to return
      to. *)
Theorem port_runs_tasks `{Link} idle R0 X0 t0 n top vt s0 :
  addr_pxCurrentTCB ≠ portNVIC_INT_CTRL_REG → boot_ok idle R0 X0 t0 n top vt s0 →
  let main_top := main_top_after (STKALIGN s0) top in
  wp xPortStartScheduler (λ _ s1,
    (∃ m, X0 !! t0 = Some (context_of s1, m)) ∧
    ∀ R s, rtc (bstep idle main_top) (R0, s1) (R, s) →
      (uxCriticalNesting s = 0 ↔ BASEPRI s = 0) ∧
      (∀ k j a, BASEPRI s = 0 → is_irq a = true → enabled idle (ker s) a = true →
         ∃ s', interrupt k j (isr a) s = ROk (tt, s') ∧ context_of s' = context_of s ∧
           run_action a (ker s) = ROk (tt, ker s')) ∧
      (∀ j t r, BASEPRI s = 0 → pendsv (ker s) = true → pxCurrentTCB (ker s) = Some t → R !! t = Some r →
         ∃ s', PendSV j s = ROk (tt, s') ∧ run_action APendSV (ker s) = ROk (tt, ker s') ∧
           resumes_with idle main_top t (context_of s) (mem s) r (R, s')) ∧
      (∀ u lo depth code param prio, room_for main_top R s u (lo, lo + 4 * depth) →
         enabled idle (ker s) (ACreate u lo prio) = true →
         ∃ s', make_task u lo depth code param prio s = ROk (tt, s') ∧
           resumes_with idle main_top u (start_context lo depth code param) (mem s') (lo, lo + 4 * depth)
             (<[u := (lo, lo + 4 * depth)]> R, s'))) s0.
Proof.
  intros Hvar Hbt main_top. apply (wp_xPortStartScheduler idle R0 X0 t0 n top vt s0 Hbt).
  intros s1 c m HX Hok1 Hctx Hk1 _ _ _. split; [exists m; by rewrite Hctx|].
  intros R s Hst. assert (good idle main_top (R, s)) as (X & t & Hok).
  { eapply (good_steps idle main_top Hvar); [|exact Hst]. by exists X0, t0. }
  simpl in Hok. split_and!.
  - destruct (bo_nest _ _ _ _ _ _ Hok) as [_ ->]. by destruct (Z.eqb_spec (uxCriticalNesting s) 0).
  - intros k j a Hb Hi He.
    assert (wp (interrupt k j (isr a)) (λ _ s', context_of s' = context_of s ∧ run_action a (ker s) = ROk (tt, ker s')) s) as Hw
      by (apply (wp_interrupt idle main_top R X t); by intros).
    destruct (wp_ok _ _ _ Hw) as ([] & s' & ? & ?). by exists s'.
  - intros j u r Hb Hp Hcur Hr. rewrite (bo_cur _ _ _ _ _ _ Hok) in Hcur. injection Hcur as ->.
    assert (wp (PendSV j) (λ _ s', ∃ t', board_ok idle main_top R (X_switch X u s) t' s' ∧ resumes R (X_switch X u s) t' s' ∧
      run_action APendSV (ker s) = ROk (tt, ker s')) s) as Hw.
    { apply (wp_PendSV idle main_top R X u s Hok); [done..|]. intros s' t' ????. by exists t'. }
    destruct (wp_ok _ _ _ Hw) as ([] & s' & Hrun & t' & Hok' & Hre & Hk). exists s'. split_and!; [done|done|].
    intros R2 s2 Hst2 Hcur2. eapply (resumed_after idle main_top Hvar u r _ _ _ _ Hst2); [|exact Hcur2].
    exists (X_switch X u s), t'. split_and!; [done|done|apply lookup_insert_eq|done].
  - intros u lo depth code param prio Hroom He.
    assert (u ≠ t) as Hut.
    { intros ->. destruct (bo_sp _ _ _ _ _ _ Hok) as (rt & Hrt & _). pose proof (rf_new _ _ _ _ _ Hroom). congruence. }
    assert (wp (make_task u lo depth code param prio) (λ _ s', board_ok idle main_top (<[u := (lo, lo + 4 * depth)]> R)
      (<[u := (start_context lo depth code param, mem s')]> X) t s') s) as Hw.
    { apply (wp_make_task idle main_top R X t); [done..|]. by intros. }
    destruct (wp_ok _ _ _ Hw) as ([] & s' & Hrun & Hok'). exists s'. split; [done|].
    intros R2 s2 Hst2 Hcur2. eapply (resumed_after idle main_top Hvar u _ _ _ _ _ Hst2); [|exact Hcur2].
    eexists _, t. split_and!; [exact Hok'|apply lookup_insert_eq|apply lookup_insert_eq|done].
Qed.

(** ** A concrete board: two tasks, created and not yet started *)
#[export] Instance ex_link : Link := {|
  addr_pxCurrentTCB := 100;
  addr_vPortSVCHandler := 201;
  addr_xPortPendSVHandler := 301;
  addr_prvTaskExitError := 401;
  main_stack_limit := 32768
|}.

(** Deciding the conditions on ranges of memory *)
Definition plain_check (a : Z) : bool := negb (a =? addr_pxCurrentTCB) && negb (a =? portNVIC_INT_CTRL_REG).
Lemma plain_check_ok a : plain_check a = true → plain a.
Proof. unfold plain_check, plain. lia. Qed.
Definition usable_check (m : gmap Z Z) (lo n : Z) : bool :=
  forallb (λ i, bool_decide (is_Some (m !! (lo + 4 * i))) && plain_check (lo + 4 * i)) (seqZ 0 n).
Lemma usable_check_ok m lo hi n :
  usable_check m lo n = true → lo mod 4 = 0 → hi = lo + 4 * n → usable m lo hi.
Proof.
  intros Hc Hlo -> b Hb Hb4. unfold usable_check in Hc. rewrite <- Is_true_true, forallb_True, Forall_forall in Hc.
  assert (b = lo + 4 * ((b - lo) / 4)) as -> by (Z.to_euclidean_division_equations; lia).
  assert ((b - lo) / 4 ∈ seqZ 0 n) as Hin by (apply elem_of_seqZ; Z.to_euclidean_division_equations; lia).
  specialize (Hc _ Hin). simpl in Hc. apply andb_True in Hc as [He Hp].
  split; [by apply bool_decide_spec in He|by apply plain_check_ok, Is_true_true].
Qed.

Definition ex_kernel : kernel := final (createTasks [(4096, 8192, 0); (4200, 16384, 2)] ;> startKernel) reset_kernel.
Definition ex_vectors : gmap Z Z :=
  list_to_map [(portSCB_VTOR_REG, 1024); (1024, 33024); (1068, 201); (1080, 301); (4096, 0); (4200, 0);
    (portNVIC_SHPR2_REG, 0); (portNVIC_SHPR3_REG, 0); (portNVIC_SYSTICK_CTRL_REG, 0); (portNVIC_SYSTICK_LOAD_REG, 0);
    (portNVIC_SYSTICK_CURRENT_VALUE_REG, 0)].
Definition ex_mem : gmap Z Z :=
  first_mem (first_mem (write ex_vectors 32768 (replicate 64 0)) 4096 8192 40 600 0) 4200 16384 40 700 7.
Definition ex_board : core :=
  mkCore (replicate 13 0) 0 0 0 0 32900 0 false 0 true true true ex_mem ∅ 255 2863311530 0 0 ex_kernel.
Definition ex_regions : gmap Z (Z * Z) := <[4096 := (8192, 8352)]> {[4200 := (16384, 16544)]}.
Definition ex_contexts : gmap Z (context * gmap Z Z) :=
  <[4096 := (start_context 8192 40 600 0, ex_mem)]> {[4200 := (start_context 16384 40 700 7, ex_mem)]}.

Lemma ex_port_kernel_ok : kernel_ok 4096 ex_kernel.
Proof. apply kernel_check_ok. by vm_compute. Qed.
Lemma ex_regions_cases u r : ex_regions !! u = Some r → (u = 4096 ∧ r = (8192, 8352)) ∨ (u = 4200 ∧ r = (16384, 16544)).
Proof. unfold ex_regions. intros [[<- <-]|[_ [<- <-]%lookup_singleton_Some]]%lookup_insert_Some; [by left|by right]. Qed.

Ltac ex_region := split;
  [ by simpl; unfold MAX32
  | done
  | apply (usable_check_ok _ _ _ 40); [by vm_compute|done|done]
  | by vm_compute
  | split; [apply plain_check_ok; by vm_compute|apply (bool_decide_unpack _); by vm_compute]
  | by left; vm_compute
  | by left ].
Lemma ex_region u r : ex_regions !! u = Some r → region_ok 33024 ex_board u r.
Proof. intros [[-> ->]|[-> ->]]%ex_regions_cases; ex_region. Qed.
Lemma ex_apart : apart ex_regions.
Proof.
  split; intros t u r r' [[-> ->]|[-> ->]]%ex_regions_cases [[-> ->]|[-> ->]]%ex_regions_cases; simpl; lia.
Qed.

Ltac ex_sp Hb :=
  lazymatch type of Hb with
  | context [x_sp ?c] => let v := eval vm_compute in (x_sp c) in change (x_sp c) with v in Hb
  end.
Ltac ex_park :=
  split; [split; [done|by vm_compute|by vm_compute|apply plain_check_ok; by vm_compute|by vm_compute|by vm_compute|
      intros b Hb _; ex_sp Hb; unfold plain; simpl; unfold portNVIC_INT_CTRL_REG; lia]
    |split; [by vm_compute|done]].
Lemma ex_parked u r : ex_regions !! u = Some r → ∃ c m, ex_contexts !! u = Some (c, m) ∧ parked ex_board u r c m.
Proof.
  intros [[-> ->]|[-> ->]]%ex_regions_cases.
  - exists (start_context 8192 40 600 0), ex_mem. split; [done|]. ex_park.
  - exists (start_context 16384 40 700 7), ex_mem. split; [done|]. ex_park.
Qed.

Lemma ex_boot_board : boot_ok 4096 ex_regions ex_contexts 4200 8 33024 1024 ex_board.
Proof.
  split.
  - done.
  - split; [by vm_compute|]. apply (bool_decide_unpack _). by vm_compute.
  - exact ex_port_kernel_ok.
  - by vm_compute.
  - apply (bool_decide_unpack _). by vm_compute.
  - exact ex_region.
  - exact ex_apart.
  - exact ex_parked.
  - by vm_compute.
  - split_and!; by vm_compute.
  - split_and!; apply plain_check_ok; by vm_compute.
  - intros b Hb. assert (plain b ∧ is_Some (mem ex_board !! b) ∧ 3758153744 ≤ b) as (Hp & He & Hlt).
    { unfold setup_regs in Hb. repeat (apply elem_of_cons in Hb as [->|Hb]; [
        split; [apply plain_check_ok; by vm_compute|split; [apply (bool_decide_unpack _); by vm_compute|by vm_compute]]|]).
      by apply not_elem_of_nil in Hb. }
    assert (b ≠ portSCB_VTOR_REG).
    { intros ->. revert Hb. apply (bool_decide_unpack _). by vm_compute. }
    split_and!; try done; try (right; lia); try lia.
    intros u r [[-> ->]|[-> ->]]%ex_regions_cases; simpl; split; [lia|right; lia|lia|right; lia].
  - split_and!; by vm_compute.
  - apply (usable_check_ok _ _ _ 64); [by vm_compute|done|done].
Qed.
Lemma ex_first_context c m : ex_contexts !! 4200 = Some (c, m) → c = start_context 16384 40 700 7.
Proof.
  unfold ex_contexts. rewrite lookup_insert_ne, lookup_singleton_eq by done.
  intros Hm. apply Some_inj, (f_equal fst) in Hm. exact (eq_sym Hm).
Qed.
Lemma ex_var : addr_pxCurrentTCB ≠ portNVIC_INT_CTRL_REG.
Proof. unfold portNVIC_INT_CTRL_REG. simpl. lia. Qed.

Lemma port_runs_tasks_witness :
  wp xPortStartScheduler (λ _ s1, context_of s1 = start_context 16384 40 700 7 ∧
    ∀ k j, BASEPRI s1 = 0 → ∃ s', interrupt k j (isr ATick) s1 = ROk (tt, s') ∧ context_of s' = start_context 16384 40 700 7) ex_board.
Proof.
  pose proof (port_runs_tasks 4096 ex_regions ex_contexts 4200 8 33024 1024 ex_board ex_var ex_boot_board) as Hw.
  cbv zeta in Hw. refine (wp_mono _ _ _ _ Hw _). clear Hw.
  intros u s1 [[m Hm] Hrun]. apply ex_first_context in Hm. split; [exact Hm|]. intros k j Hb.
  destruct (Hrun ex_regions s1 (rtc_refl _ _)) as (_ & Hirq & _).
  destruct (Hirq k j ATick Hb eq_refl eq_refl) as (s' & Hs & Hctx & _). exists s'. split; [exact Hs|].
  exact (eq_trans Hctx Hm).
Defined.
