(* ===== verification/TaskInfo.v ===== *)
(** * What the kernel tells about its tasks (tasks.c)

    Names, handles by name, the status of one task or of all, the unused part of
    a stack, and the getters for interrupts.  The state is the board of [Port]
    (kernel, memory, interrupt controller) with the name and the number of each
    task, two fields of the TCB that nothing else reads. *)
From S2P Require Import Prelude KList Tasks Prog Queue SchedLock Heap4 QueueMgmt TaskLife Port.

Record tsys := mkTsys {
  board : core;
  pcTaskName : gmap Z (list Z);     (* by TCB: the array of characters *)
  uxTCBTaskNumber : gmap Z Z        (* by TCB: [uxTaskNumber] *)
}.
#[global] Instance eta_tsys : Eta tsys := λ s, mkTsys (board s) (pcTaskName s) (uxTCBTaskNumber s).
Abbreviation TI := (M tsys).
Definition on_board {A} (m : C A) : TI A := zoom board (λ c s, s <| board := c |>) m.
Definition tk {A} (m : K A) : TI A := on_board (kr m).
Abbreviation kern s := (ker (board s)).

Definition configMAX_TASK_NAME_LEN : Z := 12.
Definition tskSTACK_FILL_BYTE : Z := 165.

(** A row of the report; the pointer to the name is given by the TCB it is in. *)
Record TaskStatus_t := mkTaskStatus {
  xHandle : Z;
  st_pcTaskName : Z;
  xTaskNumber : Z;
  eCurrentState : eTaskState;
  uxCurrentPriority : Z;
  st_uxBasePriority : Z;
  ulRunTimeCounter : Z;
  pxStackBase : Z;
  usStackHighWaterMark : Z
}.

(** ** Names *)
(** [pcName[ x ]] of a C string, whose last character is NUL. *)
Definition char_at (pcName : list Z) (x : nat) : Z := default 0 (pcName !! x).
(** The loop of [prvInitialiseNewTask] from index [x], with [n] turns to go. *)
Fixpoint copy_name (n x : nat) (pcName name : list Z) : list Z :=
  match n with
  | O => name
  | S n =>
      let name := <[x := char_at pcName x]> name in
      if char_at pcName x =? 0 then name else copy_name n (S x) pcName name
  end.
Definition terminate (name : list Z) : list Z := <[Z.to_nat (configMAX_TASK_NAME_LEN - 1) := 0]> name.
(** The name of a TCB that has been zeroed ([None]: [NULL]). *)
Definition store_name (pxNewTCB : Z) (pcName : option (list Z)) : TI unit :=
  let zeroed := replicate (Z.to_nat configMAX_TASK_NAME_LEN) 0 in
  let name := match pcName with
              | Some pcName => terminate (copy_name (Z.to_nat configMAX_TASK_NAME_LEN) 0 pcName zeroed)
              | None => zeroed
              end in
  modify (λ s, s <| pcTaskName ::= <[pxNewTCB := name]> |>).

Definition pcTaskGetName (xTaskToQuery : option Z) : K Z :=
  let* pxTCB := prvGetTCBFromHandle xTaskToQuery in
  configASSERT (bool_decide (is_Some pxTCB)) ;>
  derefM pxTCB.

(** *** [for( pxIterator = listGET_HEAD_ENTRY( pxList ); pxIterator != pxEndMarker; ... )] *)
(** [body] gets the owner of the item; [inr] is a [break]. *)
Definition entry_one {B} (pxList : lid) (body : Z → B → TI (B + B)) :
    option (ptr (I:=item) (L:=lid)) * B → TI ((option (ptr (I:=item) (L:=lid)) * B) + B) :=
  λ '(pxIterator, b),
  if bool_decide (pxIterator = Some (PEnd pxList)) then retM (inr b)
  else
    let* pxTCB := (match pxIterator with
                   | Some (PItem i) => tk (kl (listGET_LIST_ITEM_OWNER i))
                   | _ => faultM
                   end) in
    let* r := body pxTCB b in
    match r with
    | inl b => let* next := tk (kl (get_next pxIterator)) in retM (inl (next, b))
    | inr b => retM (inr b)
    end.
Definition for_each_entry {B} (pxList : lid) (body : Z → B → TI (B + B)) (b : B) : TI B :=
  let* n := tk (kl (listCURRENT_LIST_LENGTH pxList)) in
  if 0 <? n then
    let* head := tk (kl (get_next (Some (PEnd pxList)))) in
    iterM (S (Z.to_nat n)) (entry_one pxList body) (head, b)
  else retM b.

(** The loop over the characters, from index [x]. *)
Fixpoint same_name (n x : nat) (name pcNameToQuery : list Z) : bool :=
  match n with
  | O => false
  | S n =>
      let cNextChar := char_at name x in
      if negb (cNextChar =? char_at pcNameToQuery x) then false
      else if cNextChar =? 0 then true
      else same_name n (S x) name pcNameToQuery
  end.
Definition prvSearchForNameWithinSingleList (pxList : lid) (pcNameToQuery : list Z) : TI (option Z) :=
  for_each_entry pxList (λ pxTCB pxReturn,
    let* s := getM in
    let* name := derefM (pcTaskName s !! pxTCB) in
    if same_name (Z.to_nat configMAX_TASK_NAME_LEN) 0 name pcNameToQuery
    then retM (inr (Some pxTCB)) else retM (inl pxReturn)) None.

(** One turn of the search through the ready lists; the variable is [uxQueue]. *)
Definition search_ready_one (pcNameToQuery : list Z) (uxQueue : Z) : TI (Z + option Z) :=
  let uxQueue := uxQueue - 1 in
  let* pxTCB := prvSearchForNameWithinSingleList (ReadyL uxQueue) pcNameToQuery in
  match pxTCB with
  | Some _ => retM (inr pxTCB)
  | None => if tskIDLE_PRIORITY <? uxQueue then retM (inl uxQueue) else retM (inr None)
  end.
(** [if( pxTCB == NULL )] *)
Definition or_search (pxTCB : option Z) (pxList : lid) (pcNameToQuery : list Z) : TI (option Z) :=
  match pxTCB with
  | None => prvSearchForNameWithinSingleList pxList pcNameToQuery
  | Some _ => retM pxTCB
  end.
Definition xTaskGetHandle (pcNameToQuery : list Z) : TI (option Z) :=
  configASSERT (Z.of_nat (length pcNameToQuery) <? configMAX_TASK_NAME_LEN) ;>
  tk vTaskSuspendAll ;>
  let* pxTCB := iterM (Z.to_nat configMAX_PRIORITIES) (search_ready_one pcNameToQuery) configMAX_PRIORITIES in
  let* s := getM in
  let* pxTCB := or_search pxTCB (pxDelayedTaskList (kern s)) pcNameToQuery in
  let* pxTCB := or_search pxTCB (pxOverflowDelayedTaskList (kern s)) pcNameToQuery in
  let* pxTCB := or_search pxTCB SuspendedL pcNameToQuery in
  let* pxTCB := or_search pxTCB TerminationL pcNameToQuery in
  let* _ := tk xTaskResumeAll in
  retM pxTCB.

(** ** The state of a task whose list is known *)
(** The part of [vTaskGetInfo] for an [eState] that is not [eInvalid]. *)
Definition given_state (pxTCB : Z) (eState : eTaskState) : K eTaskState :=
  let* k := getM in
  if bool_decide (pxCurrentTCB k = Some pxTCB) then retM eRunning
  else
    let* eCurrentState :=
      (match eState with
       | eSuspended =>
           vTaskSuspendAll ;>
           let* c := kl (listLIST_ITEM_CONTAINER (EventItem pxTCB)) in
           let* st := (if bool_decide (is_Some c) then retM eBlocked
                       else
                         let* ns := tcb_get pxTCB ucNotifyState in
                         retM (if existsb (Z.eqb taskWAITING_NOTIFICATION) ns then eBlocked else eSuspended)) in
           let* _ := xTaskResumeAll in
           retM st
       | _ => retM eState
       end) in
    critical (
      let* b := kl (listIS_CONTAINED_WITHIN PendingReadyL (EventItem pxTCB)) in
      retM (if b then eReady else eCurrentState)).

Section info.
Context `{Link}.

(** ** The unused part of a stack *)
(** A byte of the little-endian memory. *)
Definition byte_at (c : core) (a : Z) : option Z :=
  (λ w, Z.land (Z.shiftr w (8 * (a mod 4))) 255) <$> load_word (a - a mod 4) c.
Definition count_one (v : Z * Z) : C (Z * Z + Z) :=
  let '(pucStackByte, uxCount) := v in
  let* s := getM in
  let* b := derefM (byte_at s pucStackByte) in
  if b =? tskSTACK_FILL_BYTE then retM (inl (wrap32 (pucStackByte + 1), wrap32 (uxCount + 1))) else retM (inr uxCount).
(** One turn for each byte that exists (of memory and of the two registers), and
    one more. *)
Definition prvTaskCheckFreeStackSpace (pucStackByte : Z) : C Z :=
  let* s := getM in
  let* uxCount := iterM (S (4 * (size (mem s) + 2))) count_one (pucStackByte, 0) in
  retM (uxCount / sizeof_StackType_t).
Definition uxTaskGetStackHighWaterMark (xTask : option Z) : C Z :=
  let* pxTCB := kr (prvGetTCBFromHandle xTask) in
  configASSERT (bool_decide (is_Some pxTCB)) ;>
  let* pxTCB := derefM pxTCB in
  let* pucEndOfStack := kr (tcb_get pxTCB pxStack) in
  prvTaskCheckFreeStackSpace pucEndOfStack.

(** ** The status of a task, and of all *)
Definition vTaskGetInfo (xTask : option Z) (xGetFreeStackSpace : bool) (eState : eTaskState) : TI TaskStatus_t :=
  let* pxTCB := tk (prvGetTCBFromHandle xTask) in
  configASSERT (bool_decide (is_Some pxTCB)) ;>
  let* pxTCB := derefM pxTCB in
  let* priority := tk (tcb_get pxTCB uxPriority) in
  let* stack := tk (tcb_get pxTCB pxStack) in
  let* number := tk (tcb_get pxTCB uxTCBNumber) in
  let* base := tk (tcb_get pxTCB uxBasePriority) in
  let* state := (match eState with
                 | eInvalid => tk (eTaskGetState pxTCB)
                 | _ => tk (given_state pxTCB eState)
                 end) in
  let* mark := (if xGetFreeStackSpace then on_board (prvTaskCheckFreeStackSpace stack) else retM 0) in
  retM (mkTaskStatus pxTCB pxTCB number state priority base 0 stack mark).

(** The rows are those of the array that have been filled, the first being row 0
    of the whole array of [uxArraySize] rows. *)
Definition prvListTasksWithinSingleList (uxArraySize : Z) (pxTaskStatusArray : list TaskStatus_t)
    (pxList : lid) (eState : eTaskState) : TI (list TaskStatus_t) :=
  for_each_entry pxList (λ pxTCB rows,
    let* row := vTaskGetInfo (Some pxTCB) true eState in
    if Z.of_nat (length rows) <? uxArraySize then retM (inl (rows ++ [row])) else faultM) pxTaskStatusArray.
(** One turn of the loop over the ready lists; [uxQueue] and the rows. *)
Definition list_ready_one (uxArraySize : Z) (v : Z * list TaskStatus_t) : TI ((Z * list TaskStatus_t) + list TaskStatus_t) :=
  let '(uxQueue, rows) := v in
  let uxQueue := uxQueue - 1 in
  let* rows := prvListTasksWithinSingleList uxArraySize rows (ReadyL uxQueue) eReady in
  if tskIDLE_PRIORITY <? uxQueue then retM (inl (uxQueue, rows)) else retM (inr rows).
Definition list_all (uxArraySize : Z) : TI (list TaskStatus_t) :=
  let* rows := iterM (Z.to_nat configMAX_PRIORITIES) (list_ready_one uxArraySize) (configMAX_PRIORITIES, []) in
  let* s := getM in
  let* rows := prvListTasksWithinSingleList uxArraySize rows (pxDelayedTaskList (kern s)) eBlocked in
  let* rows := prvListTasksWithinSingleList uxArraySize rows (pxOverflowDelayedTaskList (kern s)) eBlocked in
  let* rows := prvListTasksWithinSingleList uxArraySize rows TerminationL eDeleted in
  prvListTasksWithinSingleList uxArraySize rows SuspendedL eSuspended.
(** The number of rows, the rows, and what [*pulTotalRunTime] becomes. *)
Definition uxTaskGetSystemState (uxArraySize : Z) (pulTotalRunTime : option Z) :
    TI (Z * list TaskStatus_t * option Z) :=
  tk vTaskSuspendAll ;>
  let* n := tk (gets uxCurrentNumberOfTasks) in
  let* r := (if n <=? uxArraySize then
               let* rows := list_all uxArraySize in retM (rows, (λ _, 0) <$> pulTotalRunTime)
             else retM ([], pulTotalRunTime)) in
  let* _ := tk xTaskResumeAll in
  retM (Z.of_nat (length r.1), r.1, r.2).

(** ** For interrupts *)
Definition uxTaskPriorityGetFromISR (xTask : option Z) : C Z :=
  vPortValidateInterruptPriority ;>
  let* uxSavedInterruptStatus := portSET_INTERRUPT_MASK_FROM_ISR in
  let* pxTCB := kr (prvGetTCBFromHandle xTask) in
  configASSERT (bool_decide (is_Some pxTCB)) ;>
  let* pxTCB := derefM pxTCB in
  let* uxReturn := kr (tcb_get pxTCB uxPriority) in
  portCLEAR_INTERRUPT_MASK_FROM_ISR uxSavedInterruptStatus ;>
  retM uxReturn.
Definition uxTaskBasePriorityGetFromISR (xTask : option Z) : C Z :=
  vPortValidateInterruptPriority ;>
  let* uxSavedInterruptStatus := portSET_INTERRUPT_MASK_FROM_ISR in
  let* pxTCB := kr (prvGetTCBFromHandle xTask) in
  configASSERT (bool_decide (is_Some pxTCB)) ;>
  let* pxTCB := derefM pxTCB in
  let* uxReturn := kr (tcb_get pxTCB uxBasePriority) in
  portCLEAR_INTERRUPT_MASK_FROM_ISR uxSavedInterruptStatus ;>
  retM uxReturn.
(** The tick count is read in one access: it is not masked. *)
Definition xTaskGetTickCountFromISR : C Z :=
  vPortValidateInterruptPriority ;>
  kr (gets xTickCount).
End info.

(** ** Memory and numbers *)
(** [NULL] for an argument is [None]; the result and what the two variables
    become. *)
Definition xTaskGetStaticBuffers (xTask ppuxStackBuffer ppxTaskBuffer : option Z) : K (bool * option Z * option Z) :=
  configASSERT (bool_decide (is_Some ppuxStackBuffer)) ;>
  configASSERT (bool_decide (is_Some ppxTaskBuffer)) ;>
  let* pxTCB := prvGetTCBFromHandle xTask in
  configASSERT (bool_decide (is_Some pxTCB)) ;>
  let* pxTCB := derefM pxTCB in
  let* st := tcb_get pxTCB ucStaticallyAllocated in
  let* stack := tcb_get pxTCB pxStack in
  retM (if st =? tskSTATICALLY_ALLOCATED_STACK_AND_TCB then (true, Some stack, Some pxTCB)
        else if st =? tskSTATICALLY_ALLOCATED_STACK_ONLY then (true, Some stack, Some 0)
        else (false, ppuxStackBuffer, ppxTaskBuffer)).
Definition uxTaskGetTaskNumber (xTask : option Z) : TI Z :=
  match xTask with
  | Some pxTCB => let* s := getM in derefM (uxTCBTaskNumber s !! pxTCB)
  | None => retM 0
  end.
Definition vTaskSetTaskNumber (xTask : option Z) (uxHandle : Z) : TI unit :=
  match xTask with
  | Some pxTCB => modify (λ s, s <| uxTCBTaskNumber ::= <[pxTCB := uxHandle]> |>)
  | None => retM tt
  end.
