(* ===== verification/TaskInfoOps.v ===== *)
(** * Rules for the reports on tasks

    The walk along a kernel list, the comparison of names, the count of unused
    stack bytes, and the state of a task told from its lists. *)
From S2P Require Import Prelude KList KListSpec KListProps Tasks TasksView TasksInv TasksTick.
From S2P Require Import TasksSwitch TasksBlock TasksResume TasksDelay TasksOps TasksMachine TasksCheck.
From S2P Require Import Prog Queue SchedLock Heap4 QueueMgmt TaskLife Port TaskInfo.

(** ** Rules for the state *)
Definition with_ker (k : kernel) (s : tsys) : tsys := s <| board ::= λ c, c <| ker := k |> |>.
Lemma wp_tk {A} (m : K A) (Q : A → tsys → Prop) s :
  wp m (λ a k, Q a (with_ker k s)) (kern s) → wp (tk m) Q s.
Proof. intros Hm. unfold tk, on_board. apply (wp_zoom board). by apply (wp_zoom ker). Qed.
Lemma with_ker_same s : with_ker (kern s) s = s.
Proof. by destruct s as [[]]. Qed.
Lemma with_ker_twice k k' s : with_ker k' (with_ker k s) = with_ker k' s.
Proof. done. Qed.
(** An operation that only reads the kernel. *)
Lemma wp_tk_read {A} (m : K A) (Q : A → tsys → Prop) s :
  wp m (λ a k, k = kern s ∧ Q a s) (kern s) → wp (tk m) Q s.
Proof. intros Hm. apply wp_tk. eapply wp_mono; [exact Hm|]. intros a k [-> HQ]. by rewrite with_ker_same. Qed.

(** ** The walk along a list *)
Section walk.
Context (s : tsys) (v : lview) (l : lid) (Hk : krep (k_lists (kern s)) (k_tcbs (kern s)) v) (Hl : is_Some (rings v !! l)).

Lemma wt_next l1 l2 (Q : option ptr → tsys → Prop) :
  vitems v l = l1 ++ l2 → Q (Some (next_of l l2)) s → wp (tk (kl (get_next (Some (prev_of l l1))))) Q s.
Proof.
  intros Hi HQ. destruct Hl as [r Hr]. unfold vitems in Hi. rewrite Hr in Hi. simpl in Hi.
  pose proof (ring_link _ (rings v) l r (kr_rep _ _ _ Hk) Hr l1 l2 Hi) as [Hn _].
  apply wp_tk_read, wp_kl, wp_get_next; [by eapply nextOf_present|]. rewrite Hn, lists_same. done.
Qed.

(** [I done b]: after the owners [done], the loop's variable is [b]. *)
Lemma wp_for_each_entry {B} (I : list Z → B → Prop) (R : B → Prop) body b (Q : B → tsys → Prop) :
  I [] b →
  (∀ ts t us b, itask <$> vitems v l = ts ++ t :: us → I ts b →
     wp (body t b) (λ r s', s' = s ∧ match r with inl b => I (ts ++ [t]) b | inr b => R b end) s) →
  (∀ b, I (itask <$> vitems v l) b → R b) → (∀ b, R b → Q b s) →
  wp (for_each_entry l body b) Q s.
Proof.
  intros HI Hbody HR HQ. unfold for_each_entry.
  apply wp_bind, wp_tk_read, wp_kl. apply (ws_len _ _ _ Hk); [done|]. rewrite lists_same. split; [done|].
  destruct (Z.ltb_spec 0 (Z.of_nat (length (vitems v l)))) as [Hn|Hn].
  2:{ apply wp_ret, HQ, HR. destruct (vitems v l); [done|simpl in Hn; lia]. }
  apply wp_bind. apply (wt_next [] (vitems v l)); [done|].
  apply (wp_iter (λ n '(it, b) s', s' = s ∧ ∃ l1 l2, vitems v l = l1 ++ l2 ∧ (n = length l2)%nat ∧
    it = Some (next_of l l2) ∧ I (itask <$> l1) b) _ _ _ (length (vitems v l))).
  - intros n [it b'] s' [-> (l1 & l2 & Hi & -> & -> & HI')]. unfold entry_one. destruct l2 as [|i l2].
    + rewrite bool_decide_eq_true_2 by done. apply wp_ret. apply HQ, HR. by rewrite Hi, app_nil_r.
    + rewrite bool_decide_eq_false_2 by done. simpl. apply wp_bind, wp_tk_read, wp_kl.
      apply (ws_owner _ _ _ Hk).
      { apply (in_list_tcb Hk i l), in_list_vitems. rewrite Hi. set_solver. }
      rewrite lists_same. split; [done|]. apply wp_bind. eapply wp_mono.
      { apply (Hbody (itask <$> l1) (itask i) (itask <$> l2)); [by rewrite Hi, fmap_app|done]. }
      intros [b1|b1] s' [-> Hb1]; [|by apply wp_ret, HQ].
      apply wp_bind. change (Some (next_of l (i :: l2))) with (Some (PItem i : ptr (L:=lid))). rewrite <- (prev_of_snoc l i l1). apply (wt_next (l1 ++ [i]) l2); [by rewrite Hi, <- app_assoc|].
      apply wp_ret. exists (length l2). split; [simpl; lia|]. split; [done|]. exists (l1 ++ [i]), l2.
      split_and!; [by rewrite Hi, <- app_assoc|done|done|by rewrite fmap_app].
  - split; [done|]. by exists [], (vitems v l).
  - rewrite Nat2Z.id. lia.
Qed.
End walk.

(** ** The state of a task, from its lists *)
Definition list_state (k : kernel) (l : lid) : eTaskState :=
  if decide (l = pxDelayedTaskList k ∨ l = pxOverflowDelayedTaskList k) then eBlocked
  else if decide (l = SuspendedL) then eSuspended
  else if decide (l = TerminationL) then eDeleted else eReady.

(** [vTaskGetInfo] agrees with [eTaskGetState] when it is told the state that
    goes with the list. *)
Lemma kinv_susp k v n : kinv k v → 0 < n < MAX32 → kinv (k <| uxSchedulerSuspended := n |>) v.
Proof. intros [? ? ? ? ? ? [? ? ?] ? ?] Hn. split; try done. split; simpl; [unfold u32; lia|done|lia]. Qed.

Lemma wp_given_state k v t x l :
  kinv k v → 0 < uxSchedulerSuspended k → uxSchedulerSuspended k + 1 < MAX32 → k_tcbs k !! t = Some x →
  in_list v (StateItem t) l → wp (given_state t (list_state k l)) (λ st k', k' = k ∧ st = state_of k t) k.
Proof.
  intros Hinv Hs0 Hs1 Hx Hin. unfold given_state. apply wp_bind, wp_getM. unfold state_of.
  case_bool_decide as Hc; [rewrite decide_True by done; by apply wp_ret|]. rewrite decide_False by done.
  rewrite (proj2 (krep_cont (ki_rep _ _ _ Hinv) _ _) Hin), Hx. simpl.
  assert (∀ st, wp (critical (let* b := kl (listIS_CONTAINED_WITHIN PendingReadyL (EventItem t)) in retM (if b then eReady else st)))
    (λ st' k', k' = k ∧ st' = if decide (contOf (k_lists k) (EventItem t) = Some PendingReadyL) then eReady else st) k) as Hlast.
  { intros st. unfold critical. apply wp_bind, wp_kl. eapply ws_contained; [apply Hinv|simpl; by rewrite Hx|].
    intros b Hb. rewrite lists_same. apply wp_ret. split; [done|].
    rewrite <- (krep_cont (ki_rep _ _ _ Hinv)) in Hb. destruct b; case_decide; naive_solver. }
  unfold list_state. destruct (decide (l = pxDelayedTaskList k ∨ l = pxOverflowDelayedTaskList k)) as [HD|HD];
    [|destruct (decide (l = SuspendedL)) as [HS|HS]; [|destruct (decide (l = TerminationL)) as [HT|HT]]]; cbv iota.
  1,3,4: apply wp_bind, wp_ret; apply Hlast.
  apply wp_bind, wp_bind. unfold vTaskSuspendAll. apply wp_modify.
  set (k1 := k <| uxSchedulerSuspended ::= _ |>).
  assert (k1 = k <| uxSchedulerSuspended := uxSchedulerSuspended k + 1 |>) as Hk1.
  { unfold k1, set_field. simpl. rewrite wrap32_small by (unfold u32; lia). done. }
  clearbody k1. assert (kinv k1 v) as Hinv1 by (rewrite Hk1; by apply kinv_susp; [|lia]).
  apply wp_bind. apply (wk_container k1 v t); [done|by rewrite Hk1; simpl; rewrite Hx|done|].
  apply wp_bind. eapply (wp_mono _ (λ st k', k' = k1 ∧ st = if decide (contOf (k_lists k) (EventItem t) = None) then
    if existsb (Z.eqb taskWAITING_NOTIFICATION) (ucNotifyState x) then eBlocked else eSuspended else eBlocked)).
  { assert (k_lists k1 = k_lists k) as -> by by rewrite Hk1. destruct (contOf (k_lists k) (EventItem t)) as [e|] eqn:He.
    - rewrite bool_decide_eq_true_2 by done. rewrite decide_False by done. by apply wp_ret.
    - rewrite bool_decide_eq_false_2 by (intros [? ?]; done). rewrite decide_True by done. apply wp_bind.
      eapply (wp_tcb_get t ucNotifyState x); [by rewrite Hk1|]. by apply wp_ret. }
  intros st k' [-> ->]. apply wp_bind. eapply wp_mono.
  { apply (wp_xTaskResumeAll_nested k1 v Hinv1). rewrite Hk1. simpl. lia. }
  intros b k' (_ & -> & _). assert (k1 <| uxSchedulerSuspended := uxSchedulerSuspended k1 - 1 |> = k) as ->.
  { rewrite Hk1. unfold set_field. destruct k. simpl. f_equal. lia. }
  apply wp_ret. eapply wp_mono; [apply Hlast|]. intros st' k' [-> ->]. split; [done|].
  done.
Qed.

(** ** Names *)
(** The characters before the first NUL. *)
Fixpoint c_string (s : list Z) : list Z :=
  match s with [] => [] | c :: s => if c =? 0 then [] else c :: c_string s end.
Definition no_nul (s : list Z) : Prop := Forall (λ c, c ≠ 0) s.

Lemma char_at_drop s x y : char_at s (x + y) = char_at (drop x s) y.
Proof. unfold char_at. by rewrite lookup_drop. Qed.
Lemma char_at_in s x : no_nul s → (x < length s)%nat → char_at s x ≠ 0.
Proof.
  intros Hs Hx. destruct (lookup_lt_is_Some_2 s x Hx) as [c Hc]. unfold char_at. rewrite Hc. simpl.
  by apply (proj1 (Forall_lookup _ _) Hs x).
Qed.
Lemma char_at_end s x : (length s ≤ x)%nat → char_at s x = 0.
Proof. intros Hx. unfold char_at. by rewrite lookup_ge_None_2. Qed.

(** Comparing a terminated name with a C string. *)
Lemma same_name_iff n x name q :
  no_nul q → (length name = x + n)%nat → (0 < n)%nat → last name = Some 0 →
  (same_name n x name q = true ↔ c_string (drop x name) = drop x q).
Proof.
  intros Hq. revert x. induction n as [|n IH]; intros x Hlen Hn Hlast; [lia|].
  simpl. assert (∃ c, name !! x = Some c) as [c Hc] by (apply lookup_lt_is_Some_2; lia).
  rewrite (drop_S _ _ _ Hc). assert (char_at name x = c) as -> by (unfold char_at; by rewrite Hc). simpl.
  destruct (decide (x < length q)%nat) as [Hx|Hx].
  - destruct (lookup_lt_is_Some_2 q x Hx) as [d Hd]. rewrite (drop_S _ _ _ Hd).
    assert (char_at q x = d) as -> by (unfold char_at; by rewrite Hd).
    assert (d ≠ 0) as Hd0 by (by apply (proj1 (Forall_lookup _ _) Hq x)).
    destruct (Z.eqb_spec c d) as [->|Hcd]; simpl.
    + rewrite (proj2 (Z.eqb_neq d 0) Hd0). destruct (decide (n = 0%nat)) as [->|Hn0].
      { rewrite last_lookup, Hlen in Hlast. replace (pred (x + 1)) with x in Hlast by lia. congruence. }
      rewrite IH by (lia || done). split; [by intros ->|by intros [= ?]].
    + split; [done|]. destruct (Z.eqb_spec c 0); [done|]. intros [= ??]. congruence.
  - rewrite char_at_end by lia. rewrite (drop_ge q) by lia.
    destruct (Z.eqb_spec c 0) as [->|]; [done|]. simpl. done.
Qed.

(** Copying a name. *)
Lemma copy_name_length n : ∀ x s name, length (copy_name n x s name) = length name.
Proof.
  induction n as [|n IH]; intros x s name; simpl; [done|]. destruct (char_at s x =? 0); by rewrite ?IH, length_insert.
Qed.
Lemma copy_name_lookup n : ∀ x s name j, length name = (x + n)%nat → no_nul s →
  (∀ i, (x ≤ i)%nat → (i < x + n)%nat → name !! i = Some 0) →
  copy_name n x s name !! j =
    if decide (x ≤ j < x + n)%nat then Some (char_at s j) else name !! j.
Proof.
  induction n as [|n IH]; intros x s name j Hlen Hs Hz; simpl.
  { by rewrite decide_False by lia. }
  destruct (Z.eqb_spec (char_at s x) 0) as [H0|H0].
  - assert (length s ≤ x)%nat as Hsx.
    { destruct (decide (length s ≤ x)%nat) as [?|Hlt]; [done|]. exfalso. by apply (char_at_in s x); [done|lia|]. }
    case_decide as Hj; destruct (decide (j = x)) as [->|Hjx].
    + by rewrite list_lookup_insert_eq by lia.
    + rewrite list_lookup_insert_ne by done. rewrite Hz by lia. by rewrite char_at_end by lia.
    + lia.
    + by rewrite list_lookup_insert_ne by done.
  - rewrite IH; [|by rewrite length_insert; lia|done|].
    2:{ intros i Hi1 Hi2. rewrite list_lookup_insert_ne by lia. apply Hz; lia. }
    destruct (decide (j = x)) as [->|Hjx].
    + rewrite decide_False by lia. rewrite decide_True by lia. by rewrite list_lookup_insert_eq by lia.
    + rewrite list_lookup_insert_ne by done. repeat case_decide; done || lia.
Qed.

Lemma c_string_map n s : no_nul s → c_string ((char_at s <$> seq 0 n) ++ [0]) = take n s.
Proof.
  revert s. induction n as [|n IH]; intros s Hs; [done|].
  rewrite <- cons_seq. simpl. destruct s as [|c s].
  - by rewrite char_at_end by (simpl; lia).
  - change (char_at (c :: s) 0) with c. apply Forall_cons in Hs as [Hc Hs].
    rewrite (proj2 (Z.eqb_neq c 0) Hc). simpl. f_equal.
    rewrite <- (fmap_S_seq 0 n), <- list_fmap_compose. exact (IH s Hs).
Qed.

Definition stored_name (pcName : list Z) : list Z :=
  terminate (copy_name (Z.to_nat configMAX_TASK_NAME_LEN) 0 pcName (replicate (Z.to_nat configMAX_TASK_NAME_LEN) 0)).
Lemma stored_name_eq s : no_nul s → stored_name s = (char_at s <$> seq 0 11) ++ [0].
Proof.
  intros Hs. unfold stored_name, terminate. change (Z.to_nat configMAX_TASK_NAME_LEN) with 12%nat.
  change (Z.to_nat (configMAX_TASK_NAME_LEN - 1)) with 11%nat.
  assert (∀ j, copy_name 12 0 s (replicate 12 0) !! j = if decide (0 ≤ j < 0 + 12)%nat then Some (char_at s j) else replicate 12 0 !! j) as Hl.
  { intros j. apply copy_name_lookup; [done|done|]. intros i _ Hi. by apply lookup_replicate_2. }
  apply list_eq. intros j. destruct (decide (j = 11%nat)) as [->|Hj].
  - rewrite list_lookup_insert_eq by (rewrite copy_name_length, length_replicate; lia). done.
  - rewrite list_lookup_insert_ne by done. rewrite Hl. case_decide.
    + rewrite lookup_app_l by (rewrite length_fmap, length_seq; lia).
      rewrite list_lookup_fmap, lookup_seq_lt by lia. done.
    + rewrite lookup_ge_None_2 by (rewrite length_replicate; lia). symmetry. apply lookup_ge_None_2.
      rewrite length_app, length_fmap, length_seq. simpl. lia.
Qed.
(** The name kept is the first eleven characters of the one given. *)
Lemma c_string_stored s : no_nul s → c_string (stored_name s) = take 11 s.
Proof. intros Hs. rewrite stored_name_eq by done. by apply c_string_map. Qed.
Lemma same_stored s q : no_nul s → no_nul q →
  same_name (Z.to_nat configMAX_TASK_NAME_LEN) 0 (stored_name s) q = true ↔ take 11 s = q.
Proof.
  intros Hs Hq. change (Z.to_nat configMAX_TASK_NAME_LEN) with 12%nat. rewrite same_name_iff; [|done|by rewrite stored_name_eq by done|lia|].
  2:{ by rewrite stored_name_eq, last_snoc by done. }
  rewrite !drop_0, c_string_stored by done. done.
Qed.

(** ** The unused part of a stack *)
Section stack.
Context `{Link}.

(** From [a] on, [n] bytes hold the fill value and the next one does not. *)
Record untouched (c : core) (a n : Z) : Prop := {
  un_range : 0 ≤ a ∧ 0 ≤ n ∧ a + n < MAX32;
  un_fill : ∀ i, 0 ≤ i < n → byte_at c (a + i) = Some tskSTACK_FILL_BYTE;
  un_end : ∃ b, byte_at c (a + n) = Some b ∧ b ≠ tskSTACK_FILL_BYTE
}.
Lemma untouched_ext c c' a n : (∀ b, byte_at c' b = byte_at c b) → untouched c a n → untouched c' a n.
Proof. intros Hb [Hr Hf He]. split; [done|by intros; rewrite Hb; apply Hf|by rewrite Hb]. Qed.
Lemma untouched_unique c a n m : untouched c a n → untouched c a m → n = m.
Proof.
  intros [Hn Hf (b & Hb & Hne)] [Hm Hg (d & Hd & Hne')].
  destruct (Z.lt_trichotomy n m) as [Hlt|[->|Hlt]]; [|done|].
  - rewrite (Hg n) in Hb by lia. congruence.
  - rewrite (Hf m) in Hd by lia. congruence.
Qed.
Definition bytes_of (ws : list Z) : list Z := ws ≫= λ w, [w; w + 1; w + 2; w + 3].
Lemma bytes_of_length ws : length (bytes_of ws) = (4 * length ws)%nat.
Proof. induction ws as [|w ws IH]; [done|]. change (length (bytes_of (w :: ws))) with (4 + length (bytes_of ws))%nat. rewrite IH. simpl. lia. Qed.
(** There are not more than the bytes of memory and of the two registers. *)
Lemma untouched_bound c a n : untouched c a n → (Z.to_nat n ≤ 4 * (size (mem c) + 2))%nat.
Proof.
  intros [Hr Hf _]. set (ws := addr_pxCurrentTCB :: portNVIC_INT_CTRL_REG :: (map_to_list (mem c)).*1).
  assert (length (bytes_of ws) = 4 * (size (mem c) + 2))%nat as <-.
  { rewrite bytes_of_length. unfold ws. simpl. rewrite length_fmap, length_map_to_list. lia. }
  assert (length ((λ i, a + Z.of_nat i) <$> seq 0 (Z.to_nat n)) = Z.to_nat n) as <- by by rewrite length_fmap, length_seq.
  apply submseteq_length, NoDup_submseteq.
  { apply NoDup_fmap_2; [intros ???; lia|apply NoDup_seq]. }
  intros b (i & -> & Hi)%list_elem_of_fmap. apply elem_of_seq in Hi.
  specialize (Hf (Z.of_nat i) ltac:(lia)). unfold byte_at in Hf. apply fmap_Some in Hf as (w & Hw & _).
  set (p := a + Z.of_nat i) in *. apply list_elem_of_bind. exists (p - p mod 4). split.
  - pose proof (Z.mod_pos_bound p 4 ltac:(lia)).
    assert (p mod 4 = 0 ∨ p mod 4 = 1 ∨ p mod 4 = 2 ∨ p mod 4 = 3) as Hc by lia.
    rewrite !elem_of_cons. destruct Hc as [Hc|[Hc|[Hc|Hc]]]; rewrite Hc; lia.
  - unfold ws. rewrite !elem_of_cons. unfold load_word in Hw.
    destruct (Z.eqb_spec (p - p mod 4) addr_pxCurrentTCB); [by left|].
    destruct (Z.eqb_spec (p - p mod 4) portNVIC_INT_CTRL_REG); [by right; left|]. right. right.
    apply list_elem_of_fmap. eexists (_, w). split; [done|]. by apply elem_of_map_to_list.
Qed.
Lemma wp_prvTaskCheckFreeStackSpace c a n (Q : Z → core → Prop) :
  untouched c a n → Q (n / 4) c → wp (prvTaskCheckFreeStackSpace a) Q c.
Proof.
  intros Hu HQ. pose proof (untouched_bound c a n Hu) as Hb. destruct Hu as [Hr Hf (b & He & Hne)].
  unfold prvTaskCheckFreeStackSpace. apply wp_bind, wp_getM, wp_bind.
  apply (wp_iter (λ m '(p, u) c', c' = c ∧ p = a + u ∧ 0 ≤ u ≤ n ∧ m = Z.to_nat (n - u)) _ _ _ (Z.to_nat n)); [| |lia].
  - intros m [p u] c' (-> & -> & Hu & ->). unfold count_one. apply wp_bind, wp_getM, wp_bind.
    destruct (decide (u = n)) as [->|].
    + eapply wp_deref; [exact He|]. rewrite (proj2 (Z.eqb_neq _ _) Hne). apply wp_ret, wp_ret. exact HQ.
    + eapply wp_deref; [apply Hf; lia|]. rewrite Z.eqb_refl. apply wp_ret.
      rewrite !wrap32_small by (unfold u32; lia). exists (Z.to_nat (n - (u + 1))). split_and!; [lia|done|lia..].
  - split_and!; [done|lia..].
Qed.

(** ** Rows *)
Definition row (s : tsys) (t : Z) (x : TCB_t) (n : Z) : TaskStatus_t :=
  mkTaskStatus t t (uxTCBNumber x) (state_of (kern s) t) (uxPriority x) (uxBasePriority x) 0 (pxStack x) (n / 4).

Lemma list_state_valid k l : list_state k l ≠ eInvalid.
Proof. unfold list_state. repeat case_decide; done. Qed.
Lemma wp_vTaskGetInfo s v t x l n :
  kinv (kern s) v → 0 < uxSchedulerSuspended (kern s) → uxSchedulerSuspended (kern s) + 1 < MAX32 →
  k_tcbs (kern s) !! t = Some x → in_list v (StateItem t) l → untouched (board s) (pxStack x) n →
  wp (vTaskGetInfo (Some t) true (list_state (kern s) l)) (λ r s', s' = s ∧ r = row s t x n) s.
Proof.
  intros Hinv Hs0 Hs1 Hx Hin Hu. unfold vTaskGetInfo.
  apply wp_bind, wp_tk_read, wp_ret. split; [done|]. apply wp_bind, wp_assert; [done|]. apply wp_bind, wp_ret.
  do 4 (apply wp_bind, wp_tk_read; eapply wp_tcb_get; [exact Hx|split; [done|]]).
  apply wp_bind. eapply (wp_mono _ (λ st s', s' = s ∧ st = state_of (kern s) t)).
  { assert (wp (tk (given_state t (list_state (kern s) l))) (λ st s', s' = s ∧ st = state_of (kern s) t) s) as Hw.
    { apply wp_tk_read. eapply wp_mono; [by apply (wp_given_state _ v t x)|]. by intros st k' [-> ->]. }
    pose proof (list_state_valid (kern s) l). by destruct (list_state (kern s) l). }
  intros st s' [-> ->]. apply wp_bind. unfold on_board. apply (wp_zoom board).
  apply (wp_prvTaskCheckFreeStackSpace _ _ n); [done|]. apply wp_ret. split; [by destruct s|done].
Qed.
End stack.
