(* ===== verification/TaskInfoProps.v ===== *)
(** * What the reports on tasks say: the theorems *)
From S2P Require Import Prelude KList KListSpec KListProps Tasks TasksView TasksInv TasksTick TasksSwitch TasksBlock TasksResume.
From S2P Require Import TasksDelay TasksOps TasksCreate TasksMachine TasksCheck Prog Queue SchedLock Heap4 QueueMgmt.
From S2P Require Import TaskLife Port PortSwitch PortKernel PortTasks PortProps TaskInfo TaskInfoOps.

(** ** The tasks in lists *)
Definition owners (v : lview) (l : lid) : list Z := itask <$> vitems v l.
Definition owners_of (v : lview) (ls : list lid) : list Z := ls ≫= owners v.
(** The ready lists below priority [n], best first. *)
Fixpoint ready_below (n : nat) : list lid :=
  match n with O => [] | S n => ReadyL (Z.of_nat n) :: ready_below n end.
Definition all_ready : list lid := ready_below (Z.to_nat configMAX_PRIORITIES).
(** The lists in the order of the report, and of the search for a name. *)
Definition report_lists (k : kernel) : list lid :=
  all_ready ++ [pxDelayedTaskList k; pxOverflowDelayedTaskList k; TerminationL; SuspendedL].
Definition search_lists (k : kernel) : list lid :=
  all_ready ++ [pxDelayedTaskList k; pxOverflowDelayedTaskList k; SuspendedL; TerminationL].

Lemma owners_of_app v ls ls' : owners_of v (ls ++ ls') = owners_of v ls ++ owners_of v ls'.
Proof. apply bind_app. Qed.
Lemma elem_of_ready_below n l : l ∈ ready_below n ↔ ∃ p, l = ReadyL p ∧ 0 ≤ p < Z.of_nat n.
Proof.
  induction n as [|n IH]; simpl.
  - split; [by intros ?%not_elem_of_nil|]. intros (p & _ & ?). lia.
  - rewrite elem_of_cons, IH. split.
    + intros [->|(p & -> & ?)]; eexists; (split; [done|lia]).
    + intros (p & -> & ?). destruct (decide (p = Z.of_nat n)) as [->|]; [by left|]. right. exists p. split; [done|lia].
Qed.

Section kernel.
Context (k : kernel) (v : lview) (Hinv : kinv k v).

Lemma delayed_cases : (pxDelayedTaskList k = DelayedL1 ∧ pxOverflowDelayedTaskList k = DelayedL2) ∨
  (pxDelayedTaskList k = DelayedL2 ∧ pxOverflowDelayedTaskList k = DelayedL1).
Proof. apply (id_which _ _ _ _ _ _ (ki_delay _ _ _ Hinv)). Qed.
(** Every list a task can be in is reported. *)
Lemma elem_of_report_lists l : l ∈ report_lists k ↔ state_list l = true ∧ is_Some (rings v !! l).
Proof.
  unfold report_lists, all_ready. rewrite elem_of_app, elem_of_ready_below. change (Z.of_nat (Z.to_nat configMAX_PRIORITIES)) with configMAX_PRIORITIES.
  pose proof (ki_lists _ _ _ Hinv) as Hl. split.
  - intros [(p & -> & Hp)|Hin].
    + split; [done|]. by apply (il_ready _ Hl).
    + assert (l ∈ [DelayedL1; DelayedL2; PendingReadyL; TerminationL; SuspendedL]) as Hf
        by (destruct delayed_cases as [[HD HO]|[HD HO]]; rewrite HD, HO in Hin; set_solver).
      split; [|by apply (il_fixed _ Hl)].
      destruct delayed_cases as [[HD HO]|[HD HO]]; rewrite HD, HO in Hin; repeat (apply elem_of_cons in Hin as [->|Hin]; [done|]); by apply not_elem_of_nil in Hin.
  - intros [Hs Hr]. destruct l; try done.
    + left. eexists. split; [done|]. by apply (il_ready _ Hl).
    + right. destruct delayed_cases as [[-> ->]|[-> ->]]; set_solver.
    + right. destruct delayed_cases as [[-> ->]|[-> ->]]; set_solver.
    + right. set_solver.
    + right. set_solver.
Qed.
Lemma owner_in_list t l : state_list l = true → t ∈ owners v l ↔ in_list v (StateItem t) l.
Proof.
  intros Hs. unfold owners. rewrite list_elem_of_fmap. split.
  - intros (i & -> & Hi%in_list_vitems). pose proof (il_kind _ (ki_lists _ _ _ Hinv) _ _ Hi) as Hkd. rewrite Hs in Hkd. by destruct i.
  - intros Hi. exists (StateItem t). split; [done|]. by apply in_list_vitems.
Qed.
Lemma elem_of_owners_of t ls : (∀ l, l ∈ ls → l ∈ report_lists k) → (∀ l, l ∈ report_lists k → l ∈ ls) →
  t ∈ owners_of v ls ↔ is_Some (k_tcbs k !! t).
Proof.
  intros H1 H2. unfold owners_of. rewrite list_elem_of_bind. split.
  - intros (l & Ht & Hl%H1%elem_of_report_lists). apply owner_in_list in Ht; [|by apply Hl].
    by apply (in_list_tcb (ki_rep _ _ _ Hinv)) in Ht.
  - intros [x Hx]. destruct (ki_state _ _ _ Hinv t) as [l Hin]; [by rewrite Hx|]. exists l.
    pose proof (il_kind _ (ki_lists _ _ _ Hinv) _ _ Hin) as Hs. simpl in Hs. symmetry in Hs. split; [by apply owner_in_list|].
    apply H2, elem_of_report_lists. split; [done|]. by eapply in_list_list.
Qed.
Lemma NoDup_ready_below n : NoDup (ready_below n).
Proof.
  induction n as [|n IH]; simpl; constructor; [|done]. rewrite elem_of_ready_below. intros (p & [= <-] & ?). lia.
Qed.
Lemma NoDup_report_lists : NoDup (report_lists k).
Proof.
  unfold report_lists. apply NoDup_app. split_and!; [apply NoDup_ready_below| |].
  - intros l (p & -> & _)%elem_of_ready_below. destruct delayed_cases as [[-> ->]|[-> ->]]; set_solver.
  - destruct delayed_cases as [[-> ->]|[-> ->]]; repeat constructor; set_solver.
Qed.
(** Each task once. *)
Lemma owners_report : owners_of v (report_lists k) ≡ₚ elements (dom (k_tcbs k)).
Proof.
  apply NoDup_Permutation; [|apply NoDup_elements|].
  - apply NoDup_bind; [| |apply NoDup_report_lists].
    + intros l1 l2 t [Hs1 _]%elem_of_report_lists [Hs2 _]%elem_of_report_lists Ht1 Ht2.
      apply owner_in_list in Ht1, Ht2; [|done..]. by apply (in_list_unique (ki_rep _ _ _ Hinv) (StateItem t)).
    + intros l [Hs [r Hr]]%elem_of_report_lists. unfold owners. apply NoDup_fmap_2_strong.
      * intros i j Hi%in_list_vitems Hj%in_list_vitems Heq.
        pose proof (il_kind _ (ki_lists _ _ _ Hinv) _ _ Hi). pose proof (il_kind _ (ki_lists _ _ _ Hinv) _ _ Hj).
        destruct i, j; simpl in *; congruence.
      * unfold vitems. rewrite Hr. by apply (krep_nodup (ki_rep _ _ _ Hinv) l).
  - intros t. rewrite elem_of_elements, elem_of_dom. by apply elem_of_owners_of.
Qed.
Lemma owners_report_length : length (owners_of v (report_lists k)) = size (k_tcbs k).
Proof. rewrite owners_report. by rewrite <- size_dom. Qed.
Lemma report_list_state l : l ∈ report_lists k → is_Some (rings v !! l).
Proof. intros Hl%elem_of_report_lists. apply Hl. Qed.
End kernel.

(** ** The report on all tasks *)
Lemma list_state_ready k v p : kinv k v → list_state k (ReadyL p) = eReady.
Proof. intros Hinv. unfold list_state. destruct (delayed_cases k v Hinv) as [[-> ->]|[-> ->]]; by rewrite !decide_False by naive_solver. Qed.
Lemma list_state_blocked k l : l = pxDelayedTaskList k ∨ l = pxOverflowDelayedTaskList k → list_state k l = eBlocked.
Proof. intros Hl. unfold list_state. by rewrite decide_True. Qed.
Lemma list_state_other k v l st : kinv k v → (l = SuspendedL ∧ st = eSuspended) ∨ (l = TerminationL ∧ st = eDeleted) → list_state k l = st.
Proof.
  intros Hinv Hl. unfold list_state. destruct (delayed_cases k v Hinv) as [[-> ->]|[-> ->]];
    destruct Hl as [[-> ->]|[-> ->]]; repeat case_decide; naive_solver.
Qed.

Section report.
Context `{Link} (s : tsys) (v : lview) (marks : Z → Z) (uxArraySize : Z).
Context (Hinv : kinv (kern s) v) (Hs0 : 0 < uxSchedulerSuspended (kern s)) (Hs1 : uxSchedulerSuspended (kern s) + 1 < MAX32).
Context (Hmarks : ∀ t x, k_tcbs (kern s) !! t = Some x → untouched (board s) (pxStack x) (marks t)).

Definition row_for (t : Z) : TaskStatus_t :=
  row s t (default (zeroTCB 0 0) (k_tcbs (kern s) !! t)) (marks t).

Lemma wp_prvListTasks rows l Q :
  l ∈ report_lists (kern s) → Z.of_nat (length rows) + Z.of_nat (length (owners v l)) ≤ uxArraySize →
  Q (rows ++ (row_for <$> owners v l)) s →
  wp (prvListTasksWithinSingleList uxArraySize rows l (list_state (kern s) l)) Q s.
Proof.
  intros Hl Hlen HQ. destruct (proj1 (elem_of_report_lists _ _ Hinv l) Hl) as [Hst Hr].
  unfold prvListTasksWithinSingleList.
  apply (wp_for_each_entry s v l (ki_rep _ _ _ Hinv) Hr (λ ts b, b = rows ++ (row_for <$> ts)) (λ b, b = rows ++ (row_for <$> owners v l))).
  - simpl. by rewrite app_nil_r.
  - intros ts t us b Hts ->. change (owners v l = ts ++ t :: us) in Hts.
    assert (in_list v (StateItem t) l) as Hin by (apply (owner_in_list _ _ Hinv); [done|]; rewrite Hts; set_solver).
    destruct (in_list_tcb (ki_rep _ _ _ Hinv) _ _ Hin) as [x Hx]. simpl in Hx.
    apply wp_bind. eapply wp_mono; [by apply (wp_vTaskGetInfo s v t x l (marks t)); auto|].
    intros r s' [-> ->]. rewrite (proj2 (Z.ltb_lt _ _)).
    2:{ rewrite length_app, length_fmap. rewrite Hts, length_app in Hlen. simpl in Hlen. lia. }
    apply wp_ret. split; [done|]. rewrite fmap_app, <- app_assoc. f_equal. simpl. do 2 f_equal.
    unfold row_for. by rewrite Hx.
  - done.
  - by intros b ->.
Qed.

Lemma owners_app_length ls l ls' :
  length (owners_of v (ls ++ l :: ls')) = (length (owners_of v ls) + (length (owners v l) + length (owners_of v ls')))%nat.
Proof. rewrite owners_of_app, length_app. unfold owners_of. simpl. by rewrite length_app. Qed.

(** The rows of the first lists are filled. *)
Lemma wp_prvListTasks_next done l rest (st : eTaskState) Q :
  report_lists (kern s) = done ++ l :: rest → list_state (kern s) l = st →
  Z.of_nat (size (k_tcbs (kern s))) ≤ uxArraySize →
  Q (row_for <$> owners_of v (done ++ [l])) s →
  wp (prvListTasksWithinSingleList uxArraySize (row_for <$> owners_of v done) l st) Q s.
Proof.
  intros Hls <- Hsize HQ. apply wp_prvListTasks.
  - rewrite Hls. set_solver.
  - rewrite length_fmap. rewrite <- (owners_report_length _ _ Hinv), Hls, owners_app_length in Hsize. lia.
  - rewrite owners_of_app, fmap_app in HQ. unfold owners_of at 2 in HQ. simpl in HQ. by rewrite app_nil_r in HQ.
Qed.

Lemma ready_below_app n m : (n ≤ m)%nat → ∃ pre, ready_below m = pre ++ ready_below n.
Proof.
  induction 1 as [|m _ [pre IH]]; [by exists []|]. exists (ReadyL (Z.of_nat m) :: pre). simpl. by rewrite IH.
Qed.

Lemma wp_list_all Q :
  Z.of_nat (size (k_tcbs (kern s))) ≤ uxArraySize →
  Q (row_for <$> owners_of v (report_lists (kern s))) s → wp (list_all uxArraySize) Q s.
Proof.
  intros Hsize HQ. unfold list_all. apply wp_bind.
  apply (wp_iter (λ n '(q, rows) s', s' = s ∧ q = Z.of_nat (S n) ∧ ∃ pre, all_ready = pre ++ ready_below (S n) ∧
    rows = row_for <$> owners_of v pre) _ _ _ 8%nat).
  - intros n [q rows] s' (-> & -> & pre & Hpre & ->). unfold list_ready_one.
    replace (Z.of_nat (S n) - 1) with (Z.of_nat n) by lia.
    set (tail := [pxDelayedTaskList (kern s); pxOverflowDelayedTaskList (kern s); TerminationL; SuspendedL]) in *.
    apply wp_bind. apply (wp_prvListTasks_next pre (ReadyL (Z.of_nat n)) (ready_below n ++ tail)).
    { unfold report_lists. fold tail. rewrite Hpre. simpl. by rewrite <- app_assoc. }
    { by eapply list_state_ready. }
    { done. }
    unfold tskIDLE_PRIORITY. destruct n as [|n].
    + apply wp_ret. assert (pre ++ [ReadyL (Z.of_nat 0)] = all_ready) as -> by (by rewrite Hpre).
      apply wp_bind, wp_getM, wp_bind. unfold report_lists in HQ. fold tail in HQ.
      apply (wp_prvListTasks_next all_ready _ [pxOverflowDelayedTaskList (kern s); TerminationL; SuspendedL]);
        [done|by apply list_state_blocked; left|done|].
      apply wp_bind. apply (wp_prvListTasks_next _ _ [TerminationL; SuspendedL]);
        [unfold report_lists; by rewrite <- app_assoc|by apply list_state_blocked; right|done|].
      apply wp_bind. apply (wp_prvListTasks_next _ _ [SuspendedL]);
        [unfold report_lists; by rewrite <- !app_assoc|by eapply list_state_other; [done|right]|done|].
      apply (wp_prvListTasks_next _ _ []);
        [unfold report_lists; by rewrite <- !app_assoc|by eapply list_state_other; [done|left]|done|].
      by rewrite <- !app_assoc.
    + rewrite (proj2 (Z.ltb_lt _ _)) by lia. apply wp_ret. exists n. split; [lia|]. split_and!; [done|done|].
      exists (pre ++ [ReadyL (Z.of_nat (S n))]). split; [|done]. rewrite Hpre. simpl. by rewrite <- app_assoc.
  - split_and!; [done|done|]. exists []. by split.
  - unfold configMAX_PRIORITIES. lia.
Qed.
End report.

(** ** The search for a name *)
Section search.
Context (s : tsys) (v : lview) (given : Z → list Z) (q : list Z).
Context (Hinv : kinv (kern s) v) (Hq : no_nul q).
Context (Hnames : ∀ t, is_Some (k_tcbs (kern s) !! t) → no_nul (given t) ∧ pcTaskName s !! t = Some (stored_name (given t))).

Definition named (t : Z) : Prop := take 11 (given t) = q.
#[local] Instance named_dec t : Decision (named t) := decide (take 11 (given t) = q).
(** The first task with the name in these lists. *)
Definition first_named (ls : list lid) : option Z := head (filter named (owners_of v ls)).

Lemma first_named_app ls ls' :
  first_named (ls ++ ls') = match first_named ls with Some t => Some t | None => first_named ls' end.
Proof.
  unfold first_named. rewrite owners_of_app, filter_app. by destruct (filter named (owners_of v ls)).
Qed.
Lemma wp_search_name l Q :
  l ∈ report_lists (kern s) → Q (first_named [l]) s → wp (prvSearchForNameWithinSingleList l q) Q s.
Proof.
  intros Hl HQ. destruct (proj1 (elem_of_report_lists _ _ Hinv l) Hl) as [Hst Hr].
  assert (owners_of v [l] = owners v l) as Ho by (unfold owners_of; simpl; by rewrite app_nil_r).
  unfold prvSearchForNameWithinSingleList.
  apply (wp_for_each_entry s v l (ki_rep _ _ _ Hinv) Hr (λ ts b, b = None ∧ filter named ts = []) (λ b, b = first_named [l])).
  - by split.
  - intros ts t us b Hts [-> Hf]. change (owners v l = ts ++ t :: us) in Hts.
    assert (in_list v (StateItem t) l) as Hin by (apply (owner_in_list _ _ Hinv); [done|]; rewrite Hts; set_solver).
    destruct (Hnames t) as [Hg Hn]; [by apply (in_list_tcb (ki_rep _ _ _ Hinv)) in Hin|].
    apply wp_bind, wp_getM, wp_bind. eapply wp_deref; [exact Hn|].
    pose proof (same_stored (given t) q Hg Hq) as Hiff.
    destruct (same_name _ 0 (stored_name (given t)) q) eqn:Hs.
    + apply wp_ret. split; [done|]. unfold first_named. rewrite Ho, Hts, filter_app, Hf.
      rewrite filter_cons_True by by apply Hiff. done.
    + apply wp_ret. split; [done|]. split; [done|]. rewrite filter_app, Hf.
      rewrite filter_cons_False; [done|]. intros Hc. by apply Hiff in Hc.
  - intros b [-> Hf]. unfold first_named. rewrite Ho. change (itask <$> vitems v l) with (owners v l) in Hf. by rewrite Hf.
  - by intros b ->.
Qed.
Lemma wp_or_search ls l Q :
  l ∈ report_lists (kern s) → Q (first_named (ls ++ [l])) s → wp (or_search (first_named ls) l q) Q s.
Proof.
  intros Hl HQ. rewrite first_named_app in HQ. unfold or_search. destruct (first_named ls) as [t|].
  - by apply wp_ret.
  - by apply wp_search_name.
Qed.
Lemma wp_search_ready Q :
  Q (first_named all_ready) s →
  wp (iterM (Z.to_nat configMAX_PRIORITIES) (search_ready_one q) configMAX_PRIORITIES) Q s.
Proof.
  intros HQ. apply (wp_iter (λ n u s', s' = s ∧ u = Z.of_nat (S n) ∧ ∃ pre, all_ready = pre ++ ready_below (S n) ∧
    first_named pre = None) _ _ _ 8%nat).
  - intros n u s' (-> & -> & pre & Hpre & Hf). unfold search_ready_one.
    replace (Z.of_nat (S n) - 1) with (Z.of_nat n) by lia. apply wp_bind, wp_search_name.
    { unfold report_lists. rewrite Hpre. simpl. set_solver. }
    assert (all_ready = pre ++ [ReadyL (Z.of_nat n)] ++ ready_below n) as Hpre' by exact Hpre.
    destruct (first_named [ReadyL (Z.of_nat n)]) as [t|] eqn:Ht.
    + apply wp_ret. rewrite Hpre', first_named_app, Hf, first_named_app, Ht in HQ. exact HQ.
    + unfold tskIDLE_PRIORITY. destruct n as [|n].
      * apply wp_ret. rewrite Hpre', first_named_app, Hf, first_named_app, Ht in HQ. exact HQ.
      * rewrite (proj2 (Z.ltb_lt _ _)) by lia. apply wp_ret. exists n. split; [lia|]. split_and!; [done|done|].
        exists (pre ++ [ReadyL (Z.of_nat (S n))]). split; [by rewrite <- app_assoc|]. by rewrite first_named_app, Hf.
  - split_and!; [done|done|]. exists []. by split.
  - unfold configMAX_PRIORITIES. lia.
Qed.
Lemma first_named_None ls : (∀ l, l ∈ report_lists (kern s) → l ∈ ls) → (∀ l, l ∈ ls → l ∈ report_lists (kern s)) →
  match first_named ls with
  | Some t => is_Some (k_tcbs (kern s) !! t) ∧ named t
  | None => ∀ t, is_Some (k_tcbs (kern s) !! t) → ¬ named t
  end.
Proof.
  intros H1 H2. unfold first_named. destruct (filter named (owners_of v ls)) as [|t ts] eqn:Hf; simpl.
  - intros t Ht Hn. apply (elem_of_owners_of _ _ Hinv t ls H2 H1) in Ht.
    assert (t ∈ filter named (owners_of v ls)) as Hin by by apply list_elem_of_filter. rewrite Hf in Hin. by apply not_elem_of_nil in Hin.
  - assert (t ∈ filter named (owners_of v ls)) as [Hn Hin]%list_elem_of_filter by (rewrite Hf; by left).
    split; [|done]. by apply (elem_of_owners_of _ _ Hinv t ls H2 H1).
Qed.
End search.

(** ** With the scheduler suspended around them *)
(** The call ends as [xTaskResumeAll] does. *)
Definition resumed (s s' : tsys) : Prop :=
  ∃ b k', xTaskResumeAll ((kern s : kernel) <| uxSchedulerSuspended := uxSchedulerSuspended (kern s) + 1 |>) = ROk (b, k') ∧
    s' = with_ker k' s.
Definition suspended_once (s : tsys) : tsys :=
  with_ker ((kern s : kernel) <| uxSchedulerSuspended := uxSchedulerSuspended (kern s) + 1 |>) s.

Section around.
Context (s : tsys) (v : lview) (Hinv : kinv (kern s) v) (Hs : uxSchedulerSuspended (kern s) + 2 < MAX32).
Lemma kinv_suspended_once : kinv (kern (suspended_once s)) v.
Proof.
  pose proof (is_u32 _ _ _ (ki_susp _ _ _ Hinv)) as Hu. unfold u32 in Hu. simpl. apply kinv_susp; [done|lia].
Qed.
Lemma wp_suspend_around {A} (m : TI A) Q : wp m Q (suspended_once s) → wp (tk vTaskSuspendAll ;> m) Q s.
Proof.
  pose proof (is_u32 _ _ _ (ki_susp _ _ _ Hinv)) as Hu. unfold u32 in Hu. intros Hm.
  apply wp_bind, wp_tk. unfold vTaskSuspendAll. apply wp_modify.
  replace (with_ker _ s) with (suspended_once s); [done|]. unfold suspended_once. f_equal. unfold set_field.
  simpl. by rewrite wrap32_small by (unfold u32; lia).
Qed.
Lemma wp_resume_around {A} (a : A) (Q : A → tsys → Prop) :
  (∀ s', resumed s s' → Q a s') → wp (let* _ := tk xTaskResumeAll in retM a) Q (suspended_once s).
Proof.
  pose proof (is_u32 _ _ _ (ki_susp _ _ _ Hinv)) as Hu. unfold u32 in Hu. intros HQ. apply wp_bind, wp_tk.
  pose proof kinv_suspended_once as Hinv1. set (k1 := kern (suspended_once s)) in *.
  assert (∃ P, wp xTaskResumeAll P k1) as [P Hw].
  { destruct (decide (uxSchedulerSuspended (kern s) = 0)) as [H0|H0].
    - eexists. apply (wp_xTaskResumeAll k1 v Hinv1). simpl. lia.
    - eexists. apply (wp_xTaskResumeAll_nested k1 v Hinv1). simpl. lia. }
  destruct (wp_ok _ _ _ Hw) as (b & k' & Heq & _). apply (wp_intro _ _ _ b k' Heq). apply wp_ret, HQ. by exists b, k'.
Qed.
End around.

Lemma map_choice {A B} (T : gmap Z A) (P : Z → A → B → Prop) (d : B) :
  (∀ t x, T !! t = Some x → ∃ n, P t x n) → ∃ f : Z → B, ∀ t x, T !! t = Some x → P t x (f t).
Proof.
  induction T as [|t x T Ht IH] using map_ind; intros HP; [by exists (λ _, d)|].
  destruct IH as [f Hf].
  { intros u y Hu. apply HP. rewrite lookup_insert_ne; [done|]. intros ->. congruence. }
  destruct (HP t x) as [n Hn]; [by rewrite lookup_insert_eq|]. exists (<[t := n]> f). intros u y Hu.
  destruct (decide (t = u)) as [<-|Hne].
  - rewrite lookup_insert_eq in Hu. simplify_eq. by rewrite fn_lookup_insert.
  - rewrite lookup_insert_ne in Hu by done. rewrite fn_lookup_insert_ne by done. by apply Hf.
Qed.

(** The rows of the report, in the state with the scheduler suspended, say what
    holds in the state before. *)
Lemma report_rows `{Link} s v marks r :
  kinv (kern s) v → (∀ t x, k_tcbs (kern s) !! t = Some x → untouched (board s) (pxStack x) (marks t)) →
  r ∈ row_for (suspended_once s) marks <$> owners_of v (report_lists (kern s)) →
  ∃ x n st, k_tcbs (kern s) !! xHandle r = Some x ∧
    eTaskGetState (xHandle r) (kern s) = ROk (st, kern s) ∧ untouched (board s) (pxStack x) n ∧
    r = mkTaskStatus (xHandle r) (xHandle r) (uxTCBNumber x) st (uxPriority x) (uxBasePriority x) 0 (pxStack x) (n / 4).
Proof.
  intros Hinv Hm (t & -> & Ht)%list_elem_of_fmap. apply (elem_of_owners_of _ _ Hinv) in Ht as [x Hx]; [|done..].
  exists x, (marks t), (state_of (kern s) t). split_and!; [done| |by apply Hm|].
  - by apply (eTaskGetState_eq _ v t x).
  - unfold row_for. replace (k_tcbs (kern (suspended_once s)) !! t) with (Some x) by done. done.
Qed.

(** C26: [uxTaskGetSystemState] reports every task exactly once.  When the array
    has room for the number of tasks the kernel counts, a row is filled for every
    task (ready, blocked, suspended, or deleted and not yet cleaned up), none is
    written past the end, and a row holds the task's priorities, number and stack,
    the state that [eTaskGetState] would answer for it, and the number of words of
    its stack that were never used; without room nothing is reported.  Then the
    scheduler is resumed, and nothing else has changed. *)
Theorem uxTaskGetSystemState_exact `{Link} s v uxArraySize pulTotalRunTime :
  kinv (kern s) v → uxSchedulerSuspended (kern s) + 2 < MAX32 →
  Z.of_nat (size (k_tcbs (kern s))) = uxCurrentNumberOfTasks (kern s) →
  (∀ t x, k_tcbs (kern s) !! t = Some x → ∃ n, untouched (board s) (pxStack x) n) →
  wp (uxTaskGetSystemState uxArraySize pulTotalRunTime) (λ '(uxTask, rows, total) s',
    resumed s s' ∧
    if uxCurrentNumberOfTasks (kern s) <=? uxArraySize then
      uxTask = uxCurrentNumberOfTasks (kern s) ∧ total = (λ _, 0) <$> pulTotalRunTime ∧
      (xHandle <$> rows) ≡ₚ elements (dom (k_tcbs (kern s))) ∧
      (∀ r, r ∈ rows → ∃ x n st, k_tcbs (kern s) !! xHandle r = Some x ∧
         eTaskGetState (xHandle r) (kern s) = ROk (st, kern s) ∧ untouched (board s) (pxStack x) n ∧
         r = mkTaskStatus (xHandle r) (xHandle r) (uxTCBNumber x) st (uxPriority x) (uxBasePriority x) 0 (pxStack x) (n / 4))
    else uxTask = 0 ∧ rows = [] ∧ total = pulTotalRunTime) s.
Proof.
  intros Hinv Hs Hcount Hun. pose proof (is_u32 _ _ _ (ki_susp _ _ _ Hinv)) as Hu. unfold u32 in Hu.
  destruct (map_choice _ _ 0 Hun) as [marks Hmarks].
  pose proof (kinv_suspended_once s v Hinv Hs) as Hinv1.
  unfold uxTaskGetSystemState. apply (wp_suspend_around s v Hinv Hs), wp_bind, wp_tk_read, wp_gets. split; [done|].
  change (uxCurrentNumberOfTasks (kern (suspended_once s))) with (uxCurrentNumberOfTasks (kern s)).
  apply wp_bind. destruct (Z.leb_spec (uxCurrentNumberOfTasks (kern s)) uxArraySize) as [Hroom|Hroom].
  2:{ apply wp_ret, (wp_resume_around s v Hinv Hs). done. }
  apply wp_bind, (wp_list_all (suspended_once s) v marks uxArraySize Hinv1).
  { simpl. lia. }
  { simpl. lia. }
  { intros t x Hx. apply (untouched_ext (board s)); [done|]. by apply Hmarks. }
  { simpl. lia. }
  apply wp_ret, (wp_resume_around s v Hinv Hs). intros s' Hres. split; [done|].
  cbn [fst snd].
  split_and!.
  - rewrite length_fmap. change (report_lists (kern (suspended_once s))) with (report_lists (kern s)).
    by rewrite (owners_report_length _ _ Hinv).
  - done.
  - rewrite <- list_fmap_compose. rewrite <- (owners_report _ _ Hinv).
    rewrite (list_fmap_ext _ id); [by rewrite list_fmap_id|]. done.
  - intros r Hr. by apply (report_rows s v marks).
Qed.

(** C27: [xTaskGetHandle] finds tasks by name.  With [given t] the name task [t]
    was created with, of which the TCB keeps the first eleven characters, it
    answers the first task, in the order of its search (ready tasks by priority,
    delayed, suspended, deleted ones), whose kept name is the one asked for, and
    [NULL] exactly if there is none; a name of twelve characters or more fails the
    assertion.  Then the scheduler is resumed, and nothing else has changed. *)
Theorem xTaskGetHandle_exact s v given pcNameToQuery :
  kinv (kern s) v → uxSchedulerSuspended (kern s) + 2 < MAX32 → no_nul pcNameToQuery →
  (∀ t, is_Some (k_tcbs (kern s) !! t) → no_nul (given t) ∧ pcTaskName s !! t = Some (stored_name (given t))) →
  if Z.of_nat (length pcNameToQuery) <? 12 then
    wp (xTaskGetHandle pcNameToQuery) (λ pxTCB s', resumed s s' ∧
      pxTCB = first_named v given pcNameToQuery (search_lists (kern s)) ∧
      match pxTCB with
      | Some t => is_Some (k_tcbs (kern s) !! t) ∧ take 11 (given t) = pcNameToQuery
      | None => ∀ t, is_Some (k_tcbs (kern s) !! t) → take 11 (given t) ≠ pcNameToQuery
      end) s
  else xTaskGetHandle pcNameToQuery s = RAssert.
Proof.
  intros Hinv Hs Hq Hnames. destruct (Z.ltb_spec (Z.of_nat (length pcNameToQuery)) 12) as [Hlen|Hlen].
  2:{ unfold xTaskGetHandle, bindM, configASSERT, configMAX_TASK_NAME_LEN. by rewrite (proj2 (Z.ltb_ge _ _)). }
  pose proof (kinv_suspended_once s v Hinv Hs) as Hinv1. set (s1 := suspended_once s) in *.
  assert (∀ l, l ∈ [pxDelayedTaskList (kern s1); pxOverflowDelayedTaskList (kern s1); SuspendedL; TerminationL] →
    l ∈ report_lists (kern s1)) as Hin by (intros l Hl; unfold report_lists; set_solver).
  unfold xTaskGetHandle. apply wp_bind, wp_assert; [by apply Z.ltb_lt|]. apply (wp_suspend_around s v Hinv Hs), wp_bind. fold s1.
  apply (wp_search_ready s1 v given pcNameToQuery Hinv1 Hq Hnames). apply wp_bind, wp_getM, wp_bind.
  apply (wp_or_search s1 v given pcNameToQuery Hinv1 Hq Hnames); [apply Hin; set_solver|]. apply wp_bind.
  apply (wp_or_search s1 v given pcNameToQuery Hinv1 Hq Hnames); [apply Hin; set_solver|]. apply wp_bind.
  apply (wp_or_search s1 v given pcNameToQuery Hinv1 Hq Hnames); [apply Hin; set_solver|]. apply wp_bind.
  apply (wp_or_search s1 v given pcNameToQuery Hinv1 Hq Hnames); [apply Hin; set_solver|].
  rewrite <- !app_assoc. change (all_ready ++ _) with (search_lists (kern s)).
  apply (wp_resume_around s v Hinv Hs). intros s' Hres. split; [done|]. split; [done|].
  apply (first_named_None s v given pcNameToQuery Hinv); intros l; unfold report_lists, search_lists; set_solver.
Qed.

(** ** The number of tasks *)
(** What the report relies on for the bounds of the array: the kernel counts its
    tasks.  No call or interrupt changes that. *)
Definition counted (k : kernel) : Prop := Z.of_nat (size (k_tcbs k)) = uxCurrentNumberOfTasks k.

Lemma counted_same k k' :
  pxStack <$> k_tcbs k' = pxStack <$> k_tcbs k → uxCurrentNumberOfTasks k' = uxCurrentNumberOfTasks k → counted k → counted k'.
Proof.
  unfold counted. intros HT -> <-. f_equal. rewrite <- (map_size_fmap pxStack (k_tcbs k')), HT. apply map_size_fmap.
Qed.
Lemma counted_step idle k k' : kernel_ok idle k → xSchedulerRunning k = true → counted k → kstep idle k k' →
  counted k' ∧ xSchedulerRunning k' = true.
Proof.
  intros [v Hk] Hrun Hc Hst. inversion Hst as [a k1 k2 He Hr]; subst k1 k2. destruct (switches a) eqn:Ha.
  2:{ pose proof (run_action_view a k k' Ha Hrun Hr) as Hview. unfold port_view in Hview.
      injection Hview as HT Hn _ Hrun'. split; [by eapply counted_same|congruence]. }
  destruct a; try done.
  - assert (stacks_view k' = stacks_view k) as Hview.
    { simpl in Hr. unfold xPortPendSVHandler, bindM, modify in Hr.
      by apply vTaskSwitchContext_view in Hr. }
    unfold stacks_view in Hview. injection Hview as HT Hn Hrun'. split; [by eapply counted_same|congruence].
  - simpl in He. apply andb_true_iff in He as [_ He]. repeat (apply andb_true_iff in He as [He ?]).
    assert (k_tcbs k !! t = None) as Ht.
    { apply eq_None_not_Some. intros Hx. unfold exists_task in He. by rewrite bool_decide_eq_true_2 in He. }
    pose proof (krep_size _ _ _ (ki_rep _ _ _ (ko_inv _ _ _ Hk))) as Hsize.
    pose proof (wp_createTask k v t stack p 0 (ko_inv _ _ _ Hk) Ht ltac:(lia) ltac:(unfold MAX32; lia) ltac:(lia)) as Hw.
    simpl in Hr. destruct (wp_run _ _ _ _ _ Hw Hr) as [_ _ (s & top & n & b & -> & _)].
    unfold counted in *. simpl. split; [|done]. rewrite map_size_insert_None by done. lia.
Qed.
Lemma counted_steps idle k k' : kernel_ok idle k → xSchedulerRunning k = true → counted k → rtc (kstep idle) k k' → counted k'.
Proof.
  intros Hk Hrun Hc Hst. revert Hk Hrun Hc. induction Hst as [|k1 k2 k3 Hs _ IH]; [done|]. intros Hk Hrun Hc.
  destruct (counted_step _ _ _ Hk Hrun Hc Hs) as [Hc' Hrun']. apply IH; [|done..]. by eapply kernel_ok_step.
Qed.

(** ** Witnesses *)
(** Both tasks are reported: one runs, the other is blocked. *)
(** ** A concrete system: the board of [PortProps] after its second task has gone to sleep *)
Definition ex_asleep : kernel := final (vTaskDelay 10 ;> xPortPendSVHandler) ex_kernel.
Lemma ex_asleep_ok : kernel_check 4096 ex_asleep = true.
Proof. by vm_compute. Qed.

(** "IDLE", and "HeartbeatTask", a name that does not fit. *)
Definition ex_idle_name : list Z := [73; 68; 76; 69].
Definition ex_task_name : list Z := [72; 101; 97; 114; 116; 98; 101; 97; 116; 84; 97; 115; 107].
Definition ex_given (t : Z) : list Z := if t =? 4096 then ex_idle_name else ex_task_name.
Definition ex_named : tsys :=
  final (store_name 4096 (Some ex_idle_name) ;> store_name 4200 (Some ex_task_name))
    (mkTsys (ex_board <| ker := ex_asleep |>) ∅ ∅).

Lemma ex_named_kernel : kern ex_named = ex_asleep.
Proof. done. Qed.
Lemma ex_named_inv : kinv (kern ex_named) (view_of ex_asleep).
Proof. rewrite ex_named_kernel. apply (ko_inv 4096), kernel_check_sound, ex_asleep_ok. Qed.
Lemma ex_named_tasks t : is_Some (k_tcbs (kern ex_named) !! t) → t = 4096 ∨ t = 4200.
Proof.
  rewrite ex_named_kernel. intros Ht%elem_of_dom.
  assert (dom (k_tcbs ex_asleep) = {[4096; 4200]}) as Hd by (apply (bool_decide_unpack _); by vm_compute).
  rewrite Hd in Ht. apply elem_of_union in Ht as [Ht|Ht]; apply elem_of_singleton in Ht; [by left|by right].
Qed.

(** Deciding [untouched] *)
Definition untouched_check (c : core) (a n : Z) : bool :=
  (0 <=? a) && (0 <=? n) && (a + n <? MAX32) &&
  forallb (λ i, bool_decide (byte_at c (a + i) = Some tskSTACK_FILL_BYTE)) (seqZ 0 n) &&
  match byte_at c (a + n) with Some b => negb (b =? tskSTACK_FILL_BYTE) | None => false end.
Lemma untouched_check_ok c a n : untouched_check c a n = true → untouched c a n.
Proof.
  unfold untouched_check. intros [[[[Ha Hn]%andb_true_iff Hr]%andb_true_iff Hf]%andb_true_iff He]%andb_true_iff. split.
  - lia.
  - intros i Hi. rewrite <- Is_true_true, forallb_True, Forall_forall in Hf.
    apply (bool_decide_unpack _). apply Hf. apply elem_of_seqZ. lia.
  - destruct (byte_at c (a + n)) as [b|]; [|done]. exists b. split; [done|]. intros ->. done.
Qed.
Lemma ex_untouched t x : k_tcbs (kern ex_named) !! t = Some x → untouched (board ex_named) (pxStack x) 120.
Proof.
  intros Hx. destruct (ex_named_tasks t) as [-> | ->]; [by rewrite Hx|..].
  - assert (pxStack <$> k_tcbs (kern ex_named) !! 4096 = Some 8192) as Hs by by vm_compute.
    rewrite Hx in Hs. injection Hs as ->. apply untouched_check_ok. by vm_compute.
  - assert (pxStack <$> k_tcbs (kern ex_named) !! 4200 = Some 16384) as Hs by by vm_compute.
    rewrite Hx in Hs. injection Hs as ->. apply untouched_check_ok. by vm_compute.
Qed.
Lemma ex_given_names t : is_Some (k_tcbs (kern ex_named) !! t) →
  no_nul (ex_given t) ∧ pcTaskName ex_named !! t = Some (stored_name (ex_given t)).
Proof.
  intros [-> | ->]%ex_named_tasks; (split; [by apply (bool_decide_unpack _); vm_compute|by vm_compute]).
Qed.

Definition ex_state (t : Z) : option eTaskState :=
  match eTaskGetState t ex_asleep with ROk (st, _) => Some st | _ => None end.
Lemma ex_answers t st k : eTaskGetState t ex_asleep = ROk (st, k) → ex_state t = Some st.
Proof. unfold ex_state. by intros ->. Qed.
Lemma ex_running : ex_state 4096 = Some eRunning.
Proof. by vm_compute. Qed.
Lemma ex_blocked : ex_state 4200 = Some eBlocked.
Proof. by vm_compute. Qed.

Lemma uxTaskGetSystemState_exact_witness :
  wp (uxTaskGetSystemState 2 (Some 5)) (λ '(n, rows, total) _,
    n = 2 ∧ total = Some 0 ∧ (xHandle <$> rows) ≡ₚ [4200; 4096] ∧
    ∀ r, r ∈ rows → eCurrentState r = (if xHandle r =? 4200 then eBlocked else eRunning)) ex_named.
Proof.
  pose proof (uxTaskGetSystemState_exact ex_named (view_of ex_asleep) 2 (Some 5) ex_named_inv ltac:(by vm_compute)
    ltac:(by vm_compute) (λ t x Hx, ex_intro _ 120 (ex_untouched t x Hx))) as Hw.
  refine (wp_mono _ _ _ _ Hw _). clear Hw. intros [[n rows] total] s' [_ Hr].
  rewrite ex_named_kernel in Hr.
  replace (uxCurrentNumberOfTasks ex_asleep <=? 2) with true in Hr by by vm_compute.
  destruct Hr as (-> & -> & Hperm & Hrows). split; [by vm_compute|]. split; [done|]. split.
  - rewrite Hperm. by vm_compute.
  - intros r Hr. destruct (Hrows r Hr) as (x & m & st & Hx & Hst & _ & ->). simpl.
    destruct (ex_named_tasks (xHandle r)) as [Ht|Ht]; [by rewrite ex_named_kernel, Hx|..]; rewrite Ht in *.
    + apply ex_answers in Hst. rewrite ex_running in Hst. by injection Hst as <-.
    + apply ex_answers in Hst. rewrite ex_blocked in Hst. by injection Hst as <-.
Defined.

(** Asked for by the eleven characters kept, the second task is found. *)
Lemma xTaskGetHandle_exact_witness :
  wp (xTaskGetHandle (take 11 ex_task_name)) (λ t _, t = Some 4200) ex_named.
Proof.
  pose proof (xTaskGetHandle_exact ex_named (view_of ex_asleep) ex_given (take 11 ex_task_name) ex_named_inv
    ltac:(by vm_compute) ltac:(by apply (bool_decide_unpack _); vm_compute) ex_given_names) as Hw.
  cbv iota in Hw. refine (wp_mono _ _ _ _ Hw _). intros t s' (_ & -> & _). by vm_compute.
Defined.
