(* ===== verification/TaskStart.v ===== *)
(** * Creating tasks with their stacks, starting and ending the scheduler
      (tasks.c, timers.c, main.c)

    The functions that [Tasks], [TaskLife], [Timers] and [Port] model in parts,
    as wholes: a new task gets its stack, its name and its place in the ready
    lists; [vTaskStartScheduler] creates the idle task and the timer task and
    has the port start the first task.  The state joins the board with the names
    ([TaskInfo]) and the state of the timers; there is one kernel, the board's,
    which the timers' functions are lent. *)
From S2P Require Import Prelude KList Tasks Prog Queue SchedLock Heap4 QueueMgmt TaskLife Timers Port TaskInfo.

Record bsys := mkBsys {
  s_info : tsys;
  s_timers : tmsys;
  xIdleTaskHandles : option Z
}.
#[global] Instance eta_bsys : Eta bsys := λ s, mkBsys (s_info s) (s_timers s) (xIdleTaskHandles s).
Abbreviation ST := (M bsys).
Abbreviation SP := (prog bsys).
Abbreviation s_board s := (board (s_info s)).
Abbreviation s_ker s := (Port.ker (board (s_info s))).

Definition si {A} (m : TI A) : ST A := zoom s_info (λ i s, s <| s_info := i |>) m.
Definition tm_kernel (t : tmsys) : kernel := q_kernel (g_sched (tm_sys t)).
Definition set_tm_kernel (k : kernel) (t : tmsys) : tmsys :=
  t <| tm_sys ::= λ g, mkGuarded ((g_sched g) <| q_kernel := k |>) (g_data g) |>.
(** The timers' state with the board's kernel, and back. *)
Definition lend (s : bsys) : tmsys := set_tm_kernel (s_ker s) (s_timers s).
Definition give_back (t : tmsys) (s : bsys) : bsys :=
  s <| s_timers := t |> <| s_info ::= λ i, i <| board ::= λ c, c <| Port.ker := tm_kernel t |> |> |>.
Definition stm {A} (m : TM A) : ST A := zoom lend give_back m.
Definition stmP {A} (p : TP A) : SP A := zoomP lend give_back p.

(** Where the linker puts the static variables of main.c and the tasks'
    functions. *)
Class StartLayout := {
  xIdleTaskTCB : Z;
  uxIdleTaskStack : Z;
  addr_prvIdleTask : Z;
  addr_prvTimerTask : Z
}.

Definition configMINIMAL_STACK_SIZE : Z := 128.
Definition configTIMER_TASK_STACK_DEPTH : Z := configMINIMAL_STACK_SIZE * 2.
Definition taskRESERVED_TASK_NAME_LENGTH : Z := 1.
(** "IDLE" and "Tmr Svc", with the final NUL *)
Definition configIDLE_TASK_NAME : list Z := [73; 68; 76; 69; 0].
Definition configTIMER_SERVICE_TASK_NAME : list Z := [84; 109; 114; 32; 83; 118; 99; 0].

(** The loop of [prvCreateIdleTasks] from index [x], with [n] turns to go: the
    name and the index it stops at. *)
Fixpoint copy_idle_name (n x : nat) (cIdleName : list Z) : list Z * nat :=
  match n with
  | O => (cIdleName, x)
  | S n =>
      let cIdleName := <[x := char_at configIDLE_TASK_NAME x]> cIdleName in
      if default 0 (cIdleName !! x) =? 0 then (cIdleName, x) else copy_idle_name n (S x) cIdleName
  end.
Definition idle_name : list Z :=
  let '(cIdleName, xIdleTaskNameIndex) :=
    copy_idle_name (Z.to_nat (configMAX_TASK_NAME_LEN - taskRESERVED_TASK_NAME_LENGTH)) 0
      (replicate (Z.to_nat configMAX_TASK_NAME_LEN) 0) in
  <[xIdleTaskNameIndex := 0]> cIdleName.

Section start.
Context `{HeapLayout} `{TimerLayout} `{Link} `{StartLayout}.

(** ** main.c *)
(** The TCB, the stack and its depth. *)
Definition vApplicationGetIdleTaskMemory : Z * Z * Z := (xIdleTaskTCB, uxIdleTaskStack, configMINIMAL_STACK_SIZE).
Definition vApplicationGetTimerTaskMemory : Z * Z * Z := (xTimerTaskTCB, uxTimerTaskStack, configTIMER_TASK_STACK_DEPTH).

(** ** A new task *)
(** All of [prvInitialiseNewTask], for a TCB that has been zeroed: the stack, the
    name, and the fields of [Tasks].  In the code [pxPortInitialiseStack] is called
    after the fields are set; it and they touch different memory. *)
Definition initialise_task (pxTaskCode : Z) (pcName : option (list Z)) (uxStackDepth pvParameters uxPriority0 pxNewTCB : Z) : TI unit :=
  let* stack := tk (tcb_get pxNewTCB pxStack) in
  on_board (initialise_stack pxNewTCB stack uxStackDepth pxTaskCode pvParameters) ;>
  store_name pxNewTCB pcName ;>
  tk (prvInitialiseNewTask uxPriority0 pxNewTCB).
Definition create_static (pxTaskCode : Z) (pcName : option (list Z)) (uxStackDepth pvParameters uxPriority0
    puxStackBuffer pxTaskBuffer : Z) : TI (option Z) :=
  configASSERT (negb (puxStackBuffer =? 0)) ;>
  configASSERT (negb (pxTaskBuffer =? 0)) ;>
  if negb (pxTaskBuffer =? 0) && negb (puxStackBuffer =? 0) then
    tk (memsetTCB pxTaskBuffer puxStackBuffer tskSTATICALLY_ALLOCATED_STACK_AND_TCB) ;>
    initialise_task pxTaskCode pcName uxStackDepth pvParameters uxPriority0 pxTaskBuffer ;>
    retM (Some pxTaskBuffer)
  else retM None.
(** [xTaskCreateStatic], with everything it sets. *)
Definition task_create_static (pxTaskCode : Z) (pcName : option (list Z)) (uxStackDepth pvParameters uxPriority0
    puxStackBuffer pxTaskBuffer : Z) : TI (option Z) :=
  let* pxNewTCB := create_static pxTaskCode pcName uxStackDepth pvParameters uxPriority0 puxStackBuffer pxTaskBuffer in
  match pxNewTCB with
  | Some t => tk (prvAddNewTaskToReadyList t) ;> retM (Some t)
  | None => retM None
  end.

(** ** The tasks of the kernel *)
Definition prvCreateIdleTasks : ST bool :=
  let '(tcb, stack, depth) := vApplicationGetIdleTaskMemory in
  let* h := si (task_create_static addr_prvIdleTask (Some idle_name) depth 0 tskIDLE_PRIORITY stack tcb) in
  modify (λ s, s <| xIdleTaskHandles := h |>) ;>
  retM (bool_decide (is_Some h)).
(** All of [xTimerCreateTimerTask]. *)
Definition create_timer_task : ST bool :=
  stm prvCheckForValidListAndQueue ;>
  let* q := gets (λ s, xTimerQueue (s_timers s)) in
  let* xReturn :=
    (if negb (q =? 0) then
       let '(tcb, stack, depth) := vApplicationGetTimerTaskMemory in
       let* h := si (task_create_static addr_prvTimerTask (Some configTIMER_SERVICE_TASK_NAME) depth 0
                   configTIMER_TASK_PRIORITY stack tcb) in
       modify (λ s, s <| s_timers ::= λ t, t <| xTimerTaskHandle := handle_of h |> |>) ;>
       retM (bool_decide (is_Some h))
     else retM false) in
  configASSERT xReturn ;>
  retM xReturn.

(** ** Starting and ending *)
(** It does not return when the tasks could be created: its last step leaves the
    first task running.  The demo's [xReturn] is never
    [errCOULD_NOT_ALLOCATE_REQUIRED_MEMORY] (-1). *)
Definition vTaskStartScheduler : ST unit :=
  let* xReturn := prvCreateIdleTasks in
  let* xReturn := (if xReturn then create_timer_task else retM xReturn) in
  when xReturn then
    (si (on_board portDISABLE_INTERRUPTS) ;>
     si (tk startKernel) ;>
     si (on_board xPortStartScheduler)).
Definition xTaskGetIdleTaskHandle : ST Z :=
  let* h := gets xIdleTaskHandles in
  configASSERT (bool_decide (is_Some h)) ;>
  derefM h.
(** Called from a task.  [NULL] is the calling task. *)
Definition vTaskEndScheduler : SP unit :=
  let! timer := Atomic (stm xTimerGetTimerDaemonTaskHandle) in
  stmP (tsysP (vTaskDelete (Some timer))) ;!
  let! idle := Atomic (gets xIdleTaskHandles) in
  stmP (tsysP (vTaskDelete idle)) ;!
  stmP (tsysP prvCheckTasksWaitingTermination) ;!
  Atomic (si (on_board portDISABLE_INTERRUPTS)) ;!
  Atomic (si (tk (modify (λ k, k <| xSchedulerRunning := false |>)))) ;!
  Atomic (si (on_board vPortEndScheduler)).
End start.
