(* ===== verification/StartBoard.v ===== *)
(** * From [main] to the first task

    The lists and the queue made before the scheduler starts, while every task is
    ready and none waits; tasks created one after the other, each with the memory
    it is given, so that every stack holds the context its task will start with and
    the running task is the last one of those with the highest priority; and the
    kernel's own tasks, up to the port's start. *)
From S2P Require Import Prelude KList KListSpec KListProps Tasks TasksView TasksInv TasksTick TasksOps TasksCreate Queue.
From S2P Require Import QueueData SchedLock Heap4 QueueMgmt TaskLife Timers Port PortSwitch PortKernel PortMachine PortTasks.
From S2P Require Import PortStart TaskInfo TaskStart.

(** ** Lists *)
Lemma same_items_eq (s s' : store) : ls_items s' = ls_items s → same_items s s'.
Proof.
  intros Hi. split; intros; with_strategy transparent [valueOf ownerOf] (unfold valueOf, ownerOf); by rewrite Hi.
Qed.

(** A list that tasks wait in is initialised. *)
Lemma wp_init_event_list k v l (Q : unit → kernel → Prop) :
  not_started k v → task_list l = false → state_list l = false →
  (∀ s v', not_started (k <| k_lists := s |>) v' → Q tt (k <| k_lists := s |>)) →
  wp (kl (vListInitialise l)) Q k.
Proof.
  intros [Hinv Hr Hev Hb Hrun Hs Htk Hd Hn] Htl Hsl HQ.
  assert (∀ i, ¬ in_list v i l) as Hno.
  { intros i Hin. pose proof (il_kind _ (ki_lists _ _ _ Hinv) _ _ Hin) as Hk. rewrite (Hev _ _ Hin), Hsl in Hk. done. }
  assert (vitems v l = []) as Hnil.
  { destruct (vitems v l) as [|i xs] eqn:Hx; [done|]. destruct (Hno i). apply in_list_vitems. rewrite Hx. by left. }
  apply wp_kl. eapply wp_mono.
  { apply (wp_vListInitialise _ (rings v) l); [apply Hinv|]. intros r Hl. unfold vitems in Hnil. by rewrite Hl in Hnil. }
  intros [] s [Hrep Hi]. set (v' := v <| rings := <[l := empty_ring]> (rings v) |>).
  assert (∀ l', vitems v' l' = vitems v l') as Hv.
  { intros l'. unfold vitems in *. simpl. destruct (decide (l = l')) as [<-|].
    - by rewrite lookup_insert_eq, Hnil.
    - by rewrite lookup_insert_ne. }
  assert (∀ i l', in_list v' i l' ↔ in_list v i l') as Hin by (intros; by rewrite !in_list_vitems, Hv).
  apply (HQ s v'). destruct Hinv as [Hk [Hl1 Hl2 Hl3] [Hr1 Hr2 Hr3] Hp Hst [Hd1 Hd2 Hd3 Hd4 Hd5 Hd6 Hd7] [Hs1 Hs2 Hs3] Hc Hct].
  split; try done.
  - split; try done.
    + by apply (krep_same (k_lists k)), same_items_eq.
    + split.
      * intros p. simpl. rewrite lookup_insert_ne; [apply Hl1|]. intros ->. done.
      * intros l' Hl'. apply lookup_insert_is_Some'. right. by apply Hl2.
      * intros i l' Hil%Hin. by apply Hl3.
    + split; [|done|].
      * intros t p x Hil%Hin. by apply Hr1.
      * intros p. rewrite Hv. apply Hr3.
    + intros t Ht. destruct (Hst t Ht) as [l' Hil]. exists l'. by apply Hin.
    + split; try done; [by rewrite Hv|by rewrite Hv|by intros i Hil%Hin; apply Hd6|by intros i Hil%Hin; apply Hd7].
    + split; [done|done|]. by rewrite Hv.
  - intros t x Hx. by apply Hin, Hr.
  - intros i l' Hil%Hin. by eapply Hev.
  - intros t p c x Hil%Hin. exact (Hb t p c x Hil).
  - intros i Hil%Hin. by apply (Hd i).
Qed.

(** ** The timers' queue *)
Section queue.
Context `{HeapLayout} `{TimerLayout}.

(** A new queue is empty, and nobody waits for it. *)
Lemma wp_create_queue k v O reg len size storage area q raw type (Q : Z → qsys → Prop) :
  not_started k v → q ≠ 0 → storage ≠ 0 → 0 < len → 0 < size ≤ SIZE_MAX / len →
  (∀ s v' x, not_started (k <| k_lists := s |>) v' →
     uxLength x = len → uxItemSize x = size → uxMessagesWaiting x = 0 → q_storage x = area →
     Q q (mkQsys (k <| k_lists := s |>) (<[q := x]> O) reg)) →
  wp (xQueueGenericCreateStatic len size storage area q raw type) Q (mkQsys k O reg).
Proof.
  intros Hns Hq Hst Hlen Hsz HQ. unfold xQueueGenericCreateStatic.
  apply wp_bind, wp_assert; [by apply negb_true_iff, Z.eqb_neq|].
  rewrite (proj2 (Z.ltb_lt 0 len)), (proj2 (Z.eqb_neq storage 0)), (proj2 (Z.eqb_neq size 0)) by lia. simpl.
  apply wp_bind, wp_modify. unfold set_field at 1. simpl.
  apply wp_bind. eapply wp_q_set; [apply lookup_insert_eq|]. rewrite insert_insert_eq.
  apply wp_bind. unfold prvInitialiseNewQueue. rewrite (proj2 (Z.eqb_neq size 0)) by lia.
  apply wp_bind. eapply wp_q_set; [apply lookup_insert_eq|]. rewrite insert_insert_eq.
  apply wp_bind. eapply wp_q_set; [apply lookup_insert_eq|]. rewrite insert_insert_eq.
  apply wp_bind. eapply wp_q_set; [apply lookup_insert_eq|]. rewrite insert_insert_eq.
  apply wp_bind. unfold xQueueGenericReset.
  apply wp_bind, wp_assert; [by apply negb_true_iff, Z.eqb_neq|].
  apply wp_bind. eapply wp_q_get; [apply lookup_insert_eq|].
  apply wp_bind. eapply wp_q_get; [apply lookup_insert_eq|]. simpl.
  rewrite (proj2 (Z.leb_le 1 len)), (proj2 (Z.leb_le size _)) by lia. simpl. apply wp_bind.
  do 6 (apply wp_bind; eapply wp_q_set; [apply lookup_insert_eq|]; rewrite insert_insert_eq).
  apply wp_bind, wp_bind, wp_ker, (wp_init_event_list k v); [done..|]. intros s1 v1 Hns1.
  apply wp_ker, (wp_init_event_list _ v1); [done..|]. intros s2 v2 Hns2.
  apply wp_ret, wp_bind, wp_assert; [done|]. apply wp_ret.
  apply wp_bind. eapply wp_q_set; [apply lookup_insert_eq|]. rewrite insert_insert_eq.
  eapply wp_q_set; [apply lookup_insert_eq|]. rewrite insert_insert_eq.
  apply wp_ret. by apply (HQ s2 v2).
Qed.

Lemma wp_registry q name k O reg (Q : unit → qsys → Prop) :
  q ≠ 0 → (∀ reg', Q tt (mkQsys k O reg')) → wp (vQueueAddToRegistry q name) Q (mkQsys k O reg).
Proof.
  intros Hq HQ. unfold vQueueAddToRegistry. apply wp_bind, wp_assert; [by apply negb_true_iff, Z.eqb_neq|].
  apply wp_bind, wp_getM. destruct (if given name then _ else None) as [ux|]; [apply wp_modify, HQ|apply wp_ret, HQ].
Qed.

(** The queue of the timers' commands, empty, as it is made. *)
Definition timer_queue_made (t : tmsys) : Prop :=
  xTimerQueue t = xStaticTimerQueue ∧
  ∃ x, q_objs (g_sched (tm_sys t)) !! xStaticTimerQueue = Some x ∧
    uxLength x = configTIMER_QUEUE_LENGTH ∧ uxItemSize x = sizeof_DaemonTaskMessage_t ∧ uxMessagesWaiting x = 0.

Lemma wp_prvCheckForValidListAndQueue t v (Q : unit → tmsys → Prop) :
  not_started (tm_kernel t) v → xStaticTimerQueue ≠ 0 → ucStaticTimerQueueStorage ≠ 0 →
  (∀ t' s v', not_started (tm_kernel t') v' → tm_kernel t' = (tm_kernel t) <| k_lists := s |> →
     xTimerQueue t' ≠ 0 → (xTimerQueue t = 0 → timer_queue_made t') → Q tt t') →
  wp prvCheckForValidListAndQueue Q t.
Proof.
  destruct t as [[[k O reg] h] T L c o q th last]. simpl. intros Hns Hq Hst HQ. unfold tm_kernel in Hns. simpl in Hns.
  unfold prvCheckForValidListAndQueue. apply wp_bind, wp_getM. simpl. destruct (Z.eqb_spec q 0) as [->|Hne]; simpl.
  - apply wp_bind, wp_zoom, wp_modify, wp_bind, wp_zoom, wp_modify, wp_bind, wp_modify. unfold set_field. simpl.
    apply wp_bind, wp_zoom. simpl. apply wp_zoom. simpl.
    eapply (wp_create_queue k v); [done|done|done|done|by vm_compute|].
    intros s v' x Hns' Hlen Hsz Hmw Hstore. apply wp_bind, wp_modify. unfold set_field. simpl.
    rewrite (proj2 (Z.eqb_neq _ 0) Hq). simpl. apply wp_zoom. simpl. apply wp_zoom. simpl. apply wp_registry; [done|]. intros reg'.
    apply (HQ _ s v'); [done|done|done|]. intros _. split; [done|]. exists x. simpl. by rewrite lookup_insert_eq.
  - apply wp_ret. apply (HQ _ (k_lists k) v); [done|unfold tm_kernel; simpl; by destruct k|done|done].
Qed.
End queue.

(** ** Tasks to create *)
Record task_spec := mkSpec {
  ts_tcb : Z;
  ts_stack : Z;
  ts_depth : Z;
  ts_code : Z;
  ts_param : Z;
  ts_prio : Z;
  ts_name : option (list Z)
}.
(** The stack, from its first word up to the word after its last. *)
Definition ts_region (x : task_spec) : Z * Z := (ts_stack x, ts_stack x + 4 * ts_depth x).
Definition regions_of (xs : list task_spec) : gmap Z (Z * Z) := list_to_map ((λ x, (ts_tcb x, ts_region x)) <$> xs).
(** The last of those with the highest priority. *)
Definition better (b : option task_spec) (x : task_spec) : option task_spec :=
  match b with
  | None => Some x
  | Some y => if ts_prio y <=? ts_prio x then Some x else Some y
  end.
Definition best (xs : list task_spec) : option task_spec := foldl better None xs.

Lemma best_snoc xs x : best (xs ++ [x]) = better (best xs) x.
Proof. unfold best. by rewrite foldl_app. Qed.
Lemma best_in xs x : best xs = Some x → x ∈ xs.
Proof.
  revert x. induction xs as [|y xs IH] using rev_ind; [done|]. intros x. rewrite best_snoc, elem_of_app, list_elem_of_singleton.
  destruct (best xs) as [z|] eqn:Hz; simpl; [destruct (ts_prio z <=? ts_prio y)|]; intros [= ->]; auto.
Qed.
Lemma best_some xs : xs ≠ [] → is_Some (best xs).
Proof.
  destruct xs as [|y xs _] using rev_ind; [done|]. intros _. rewrite best_snoc.
  destruct (best xs); simpl; [destruct (_ <=? _)|]; eauto.
Qed.
Lemma best_highest xs x y : best xs = Some x → y ∈ xs → ts_prio y ≤ ts_prio x.
Proof.
  revert x. induction xs as [|z xs IH] using rev_ind; [by intros ? ? ?%not_elem_of_nil|].
  intros x. rewrite best_snoc, elem_of_app, list_elem_of_singleton. destruct (best xs) as [w|] eqn:Hw; simpl.
  - specialize (IH w eq_refl). destruct (Z.leb_spec (ts_prio w) (ts_prio z)); intros [= <-] [Hy| ->]; try lia.
    + specialize (IH Hy). lia.
    + by apply IH.
  - assert (xs = []) as -> by (destruct xs; [done|]; destruct (best_some (t :: xs)); [done|congruence]).
    by intros [= <-] [?%not_elem_of_nil| ->].
Qed.

Lemma regions_keys xs : ((λ x, (ts_tcb x, ts_region x)) <$> xs).*1 = ts_tcb <$> xs.
Proof. by rewrite <- list_fmap_compose. Qed.
Lemma regions_lookup xs u r : NoDup (ts_tcb <$> xs) →
  regions_of xs !! u = Some r ↔ ∃ x, x ∈ xs ∧ ts_tcb x = u ∧ ts_region x = r.
Proof.
  intros Hnd. unfold regions_of. rewrite <- elem_of_list_to_map by by rewrite regions_keys.
  rewrite list_elem_of_fmap. naive_solver.
Qed.
Lemma regions_none xs u : regions_of xs !! u = None ↔ u ∉ ts_tcb <$> xs.
Proof. unfold regions_of. by rewrite <- not_elem_of_list_to_map, regions_keys. Qed.
Lemma regions_snoc xs x : ts_tcb x ∉ ts_tcb <$> xs →
  regions_of (xs ++ [x]) = <[ts_tcb x := ts_region x]> (regions_of xs).
Proof.
  intros Hx. unfold regions_of. rewrite fmap_app. simpl. apply list_to_map_snoc. by rewrite regions_keys.
Qed.
Lemma tcb_inj xs x y : NoDup (ts_tcb <$> xs) → x ∈ xs → y ∈ xs → ts_tcb x = ts_tcb y → x = y.
Proof.
  intros Hnd [i Hi]%list_elem_of_lookup [j Hj]%list_elem_of_lookup Heq.
  enough (i = j) by naive_solver. apply (NoDup_lookup (ts_tcb <$> xs) i j (ts_tcb x) Hnd).
  - by rewrite list_lookup_fmap, Hi.
  - by rewrite list_lookup_fmap, Hj, Heq.
Qed.
Lemma nodup_snoc xs x : NoDup (ts_tcb <$> (xs ++ [x])) → NoDup (ts_tcb <$> xs) ∧ ts_tcb x ∉ ts_tcb <$> xs.
Proof.
  rewrite fmap_app. intros (? & Hd & _)%NoDup_app. split; [done|]. intros Hx. by apply (Hd _ Hx), list_elem_of_singleton.
Qed.

(** ** The kernel *)
(** Nothing created, or all of [xs], in this order. *)
Definition pre_kernel (xs : list task_spec) (k : kernel) : Prop :=
  pxStack <$> k_tcbs k = lows (regions_of xs) ∧
  ((xs = [] ∧ ∃ m, at_reset k m) ∨
   (∃ v, not_started k v ∧ pxCurrentTCB k = ts_tcb <$> best xs ∧
    ∀ x, x ∈ xs → ∃ y, k_tcbs k !! ts_tcb x = Some y ∧ uxPriority y = ts_prio x)).

Lemma pre_fresh xs k u : pxStack <$> k_tcbs k = lows (regions_of xs) → u ∉ ts_tcb <$> xs → k_tcbs k !! u = None.
Proof.
  intros Hst Hu. apply regions_none in Hu. destruct (k_tcbs k !! u) as [y|] eqn:Hy; [|done].
  destruct (stack_region _ _ _ _ Hst Hy) as [r Hr]. congruence.
Qed.
Lemma pre_size xs k : pxStack <$> k_tcbs k = lows (regions_of xs) → NoDup (ts_tcb <$> xs) → size (k_tcbs k) = length xs.
Proof.
  intros Hst Hnd. rewrite <- (map_size_fmap pxStack (k_tcbs k)), Hst. unfold lows. rewrite map_size_fmap. unfold regions_of.
  rewrite map_size_list_to_map by by rewrite regions_keys. apply length_fmap.
Qed.

Lemma wp_pre_create xs x k :
  pre_kernel xs k → NoDup (ts_tcb <$> (xs ++ [x])) → 0 ≤ ts_prio x < configMAX_PRIORITIES → Z.of_nat (length xs) < 1000000 →
  wp (createTask (ts_tcb x) (ts_stack x) (ts_prio x) tskSTATICALLY_ALLOCATED_STACK_AND_TCB)
    (λ _ k', pre_kernel (xs ++ [x]) k') k.
Proof.
  intros [Hst Hk] [Hnd Hx]%nodup_snoc Hp Hlen.
  assert (∀ k', pxStack <$> k_tcbs k' = <[ts_tcb x := ts_stack x]> (pxStack <$> k_tcbs k) →
    pxStack <$> k_tcbs k' = lows (regions_of (xs ++ [x]))) as Hstk.
  { intros k' ->. rewrite Hst, (regions_snoc xs x Hx). unfold lows. by rewrite fmap_insert. }
  destruct Hk as [[-> [m Hr]]|(v & Hns & Hcur & Hall)].
  - eapply wp_mono; [by apply (wp_first_task k m)|]. intros _ k' (v & n & Hns & HT & Hc & _). split.
    + apply Hstk. rewrite HT, (re_tcbs _ _ Hr), fmap_empty, map_fmap_singleton. done.
    + right. exists v. split; [done|]. split; [done|]. intros y ->%list_elem_of_singleton. rewrite HT, lookup_singleton_eq. by eexists.
  - eapply wp_mono.
    { apply (wp_next_task k v (ts_tcb x) (ts_stack x) (ts_prio x)); [done|by apply (pre_fresh xs)|done|].
      by rewrite (pre_size xs k Hst Hnd). }
    intros _ k' (v' & n & Hns' & HT & Hc & _). split.
    + apply Hstk. by rewrite HT, fmap_insert.
    + right. exists v'. split; [done|]. split.
      * rewrite Hc. unfold current_after. rewrite Hcur, best_snoc. destruct (best xs) as [b|] eqn:Hb; [|done]. simpl.
        destruct (Hall b (best_in _ _ Hb)) as (y & Hy & Hyp). rewrite (ns_running _ _ Hns), Hy, Hyp. by destruct (_ <=? _).
      * intros y [Hy| ->%list_elem_of_singleton]%elem_of_app.
        -- destruct (Hall y Hy) as (z & Hz & Hzp). exists z. split; [|done]. rewrite HT, lookup_insert_ne; [done|].
           intros Heq. apply Hx. rewrite Heq. by apply list_elem_of_fmap_2.
        -- rewrite HT, lookup_insert_eq. by eexists.
Qed.

(** ** The board *)
(** What [store_name] stores. *)
Definition stored_name (pcName : option (list Z)) : list Z :=
  let zeroed := replicate (Z.to_nat configMAX_TASK_NAME_LEN) 0 in
  match pcName with
  | Some pcName => terminate (copy_name (Z.to_nat configMAX_TASK_NAME_LEN) 0 pcName zeroed)
  | None => zeroed
  end.
(** [s'] is [s] but for the kernel and the memory of the tasks [R]. *)
Record touches (R : gmap Z (Z * Z)) (s s' : core) : Prop := {
  to_cpu : s' <| mem := mem s |> <| ker := ker s |> = s;
  to_exists : ∀ b, is_Some (mem s !! b) → is_Some (mem s' !! b);
  to_out : ∀ b, (∀ u r, R !! u = Some r → b ≠ u ∧ (b < r.1 ∨ r.2 ≤ b)) → mem s' !! b = mem s !! b
}.
Lemma touches_refl R s : touches R s s.
Proof. split; [by destruct s|done|done]. Qed.
Lemma touches_trans R s1 s2 s3 : touches R s1 s2 → touches R s2 s3 → touches R s1 s3.
Proof.
  intros [C1 E1 O1] [C2 E2 O2]. split; [|by auto|].
  - transitivity ((s3 <| mem := mem s2 |> <| ker := ker s2 |>) <| mem := mem s1 |> <| ker := ker s1 |>); [reflexivity|].
    rewrite C2. exact C1.
  - intros b Hb. rewrite O2 by done. by apply O1.
Qed.
Lemma touches_sub R R' s s' : touches R s s' → R ⊆ R' → touches R' s s'.
Proof.
  intros [C E O] Hsub. split; [done|done|]. intros b Hb. apply O. intros u r Hu. apply Hb. by eapply lookup_weaken.
Qed.
(** The kernel alone changes. *)
Lemma touches_ker R s k : touches R s (s <| ker := k |>).
Proof. split; [by destruct s|done|done]. Qed.

Section board.
Context `{Link} (top : Z).

(** The context a task starts with. *)
Definition start_of (x : task_spec) : context := start_context (ts_stack x) (ts_depth x) (ts_code x) (ts_param x).
(** Memory and a priority for a task. *)
Record memory_for (s : core) (x : task_spec) : Prop := {
  mf_stack : 0 < ts_stack x ∧ ts_stack x mod 4 = 0 ∧ 24 ≤ ts_depth x ∧ ts_stack x + 4 * ts_depth x < MAX32;
  mf_usable : usable (mem s) (ts_region x).1 (ts_region x).2;
  mf_tcb : ts_tcb x ≠ 0 ∧ plain (ts_tcb x) ∧ is_Some (mem s !! ts_tcb x);
  mf_main : (ts_region x).2 ≤ main_stack_limit ∨ top ≤ (ts_region x).1;
  mf_tcb_main : ts_tcb x < main_stack_limit ∨ top ≤ ts_tcb x;
  mf_prio : 0 ≤ ts_prio x < configMAX_PRIORITIES
}.
Lemma memory_for_mono R s s' x : memory_for s x → touches R s s' → memory_for s' x.
Proof.
  intros [? Hu (? & ? & ?) ? ? ?] Ht. split; try done.
  - eapply usable_mono; [exact Hu|apply Ht].
  - split_and!; [done|done|by apply Ht].
Qed.
Lemma memory_room s xs x :
  memory_for s x → ts_tcb x ∉ ts_tcb <$> xs → apart (regions_of (xs ++ [x])) →
  room_for top (regions_of xs) s (ts_tcb x) (ts_region x).
Proof.
  intros [(? & ? & ? & ?) ? (_ & ? & ?) ? ? _] Hx Hap. split; try done.
  - by apply regions_none.
  - unfold ts_region. simpl. lia.
  - unfold ts_region. simpl. split; [done|]. Z.to_euclidean_division_equations; lia.
  - by rewrite <- regions_snoc.
Qed.

Record pre_board (xs : list task_spec) (i : tsys) : Prop := {
  pb_kernel : pre_kernel xs (kern i);
  pb_regions : ∀ u r, regions_of xs !! u = Some r → region_ok top (board i) u r;
  pb_parked : ∀ x, x ∈ xs → parked (board i) (ts_tcb x) (ts_region x) (start_of x) (mem (board i));
  pb_names : ∀ x, x ∈ xs → pcTaskName i !! ts_tcb x = Some (stored_name (ts_name x))
}.

Definition create_task (x : task_spec) : TI (option Z) :=
  task_create_static (ts_code x) (ts_name x) (ts_depth x) (ts_param x) (ts_prio x) (ts_stack x) (ts_tcb x).
(** [main] before it starts the scheduler. *)
Fixpoint create_tasks (xs : list task_spec) : TI unit :=
  match xs with
  | [] => retM tt
  | x :: xs => let* _ := create_task x in create_tasks xs
  end.

(** The parts of creation in one. *)
Lemma wp_create_parts x (P : kernel → Prop) (Q : option Z → tsys → Prop) R s names numbers :
  ts_stack x ≠ 0 → ts_tcb x ≠ 0 → room_for top R s (ts_tcb x) (ts_region x) →
  wp (createTask (ts_tcb x) (ts_stack x) (ts_prio x) tskSTATICALLY_ALLOCATED_STACK_AND_TCB) (λ _ k', P k') (ker s) →
  (∀ k', P k' → Q (Some (ts_tcb x)) (mkTsys
     (s <| mem ::= λ m, first_mem m (ts_tcb x) (ts_stack x) (ts_depth x) (ts_code x) (ts_param x) |> <| ker := k' |>)
     (<[ts_tcb x := stored_name (ts_name x)]> names) numbers)) →
  wp (create_task x) Q (mkTsys s names numbers).
Proof.
  intros Hst Htcb Hroom Hker HQ. destruct x as [u lo depth code param prio name]. simpl in *.
  destruct (room_facts _ _ _ _ _ _ Hroom) as (Hlo & Hlo4 & Hhi & Hd & Hout). pose proof Hroom as [_ _ _ Hu [Hpl Hex] _ _ _].
  unfold create_task, task_create_static, create_static. simpl.
  apply wp_bind, wp_bind, wp_assert; [by apply negb_true_iff, Z.eqb_neq|]. apply wp_bind, wp_assert; [by apply negb_true_iff, Z.eqb_neq|].
  rewrite (proj2 (Z.eqb_neq _ _) Hst), (proj2 (Z.eqb_neq _ _) Htcb). simpl.
  apply wp_bind, wp_zoom, wp_zoom, wp_modify. simpl.
  apply wp_bind. unfold initialise_task. apply wp_bind, wp_zoom, wp_zoom. eapply wp_tcb_get; [apply lookup_insert_eq|].
  apply wp_bind, wp_zoom, (wp_initialise_stack); [done|done|done|done|exact Hu|done|done|done|].
  apply wp_bind, wp_modify.
  apply wp_bind_inv in Hker. unfold memsetTCB at 1 in Hker. apply wp_bind_inv in Hker.
  unfold tk. apply wp_zoom, wp_zoom. refine (wp_mono _ _ _ _ Hker _). intros [] k2 Hk2.
  apply wp_ret. apply wp_bind, wp_zoom, wp_zoom. refine (wp_mono _ _ _ _ Hk2 _). intros [] k3 Hk3.
  apply wp_ret. exact (HQ k3 Hk3).
Qed.

Lemma wp_create_task xs x i (Q : option Z → tsys → Prop) :
  pre_board xs i → memory_for (board i) x → NoDup (ts_tcb <$> (xs ++ [x])) → apart (regions_of (xs ++ [x])) →
  Z.of_nat (length xs) < 1000000 →
  (∀ i', pre_board (xs ++ [x]) i' → touches (regions_of (xs ++ [x])) (board i) (board i') → Q (Some (ts_tcb x)) i') →
  wp (create_task x) Q i.
Proof.
  intros [Hk Hreg Hpark Hnames] Hmf Hnd Hap Hlen HQ. destruct (nodup_snoc _ _ Hnd) as [Hnd0 Hx].
  pose proof (memory_room _ _ _ Hmf Hx Hap) as Hroom. pose proof Hmf as [(Hst & _) _ (Htcb & _) _ _ Hp].
  destruct i as [s names numbers]. simpl in *.
  apply (wp_create_parts x (pre_kernel (xs ++ [x])) Q (regions_of xs)); [lia|done|exact Hroom|by apply wp_pre_create|].
  intros k' Hk'. set (s' := set_field ker _ _).
  assert (mem s' = first_mem (mem s) (ts_tcb x) (ts_stack x) (ts_depth x) (ts_code x) (ts_param x)) as Hm by reflexivity.
  assert (STKALIGN s' = STKALIGN s) as Hal by reflexivity.
  assert (ker s' = k') as Hks by reflexivity.
  assert (s' <| mem := mem s |> <| ker := ker s |> = s) as Hcpu by (by destruct s).
  clearbody s'. apply HQ.
  - split; simpl.
    + by rewrite Hks.
    + intros u r. rewrite (regions_snoc _ _ Hx).
      apply (placed_region top (regions_of xs) s s' (ts_tcb x) (ts_stack x) (ts_depth x) (ts_code x) (ts_param x) Hroom Hm).
      intros r0 Hr0. split; [by apply Hreg|]. apply regions_lookup in Hr0 as (y & Hy & <- & <-); [|done].
      destruct (Hpark y Hy) as (_ & [? _] & _). lia.
    + intros y [Hy| ->%list_elem_of_singleton]%elem_of_app; [|by apply (first_parked top (regions_of xs) s)].
      assert (regions_of xs !! ts_tcb y = Some (ts_region y)) as Hry by (apply regions_lookup; [done|]; eauto).
      pose proof (placed_parked top _ s s' _ _ _ _ _ Hroom Hm Hal _ _ _ _ Hry (Hpark y Hy)) as (? & ? & _). done.
    + intros y [Hy| ->%list_elem_of_singleton]%elem_of_app; [|apply lookup_insert_eq].
      rewrite lookup_insert_ne; [by apply Hnames|]. intros Heq. apply Hx. rewrite Heq. by apply list_elem_of_fmap_2.
  - split; [exact Hcpu| |].
    + intros b. by apply (placed_exists s s' (ts_tcb x) (ts_stack x) (ts_depth x) (ts_code x) (ts_param x)).
    + intros b Hb. destruct (Hb (ts_tcb x) (ts_region x)) as [? ?].
      { rewrite regions_snoc by done. apply lookup_insert_eq. }
      by apply (placed_same top (regions_of xs) s s' _ _ _ _ _ Hroom Hm).
Qed.
End board.

(** [b] is no word of a task. *)
Definition outside (R : gmap Z (Z * Z)) (b : Z) : Prop := ∀ u r, R !! u = Some r → b ≠ u ∧ (b < r.1 ∨ r.2 ≤ b).

Section boot.
Context `{Link} (n top vt : Z).

(** The processor and the memory that is not the tasks': the vector table at
    [vt] with the port's handlers, the stack of [main] below [top], the registers
    to set up, and [n] bits of the interrupt priorities. *)
Record machine_ok (R : gmap Z (Z * Z)) (s : core) : Prop := {
  mc_main : IPSR s = 0 ∧ SPSEL s = false ∧ length (gpr s) = 13%nat;
  mc_prio : 6 ≤ n ≤ 8 ∧ prio_bits s = prio_mask n;
  mc_vectors : mem s !! portSCB_VTOR_REG = Some vt ∧ mem s !! vt = Some top ∧
    mem s !! (vt + 44) = Some addr_vPortSVCHandler ∧ mem s !! (vt + 56) = Some addr_xPortPendSVHandler ∧
    0 ≤ vt ∧ vt + 56 < MAX32;
  mc_plain : plain portSCB_VTOR_REG ∧ plain vt ∧ plain (vt + 44) ∧ plain (vt + 56);
  mc_out : outside R portSCB_VTOR_REG ∧ outside R vt ∧ outside R (vt + 44) ∧ outside R (vt + 56);
  mc_regs : ∀ b, b ∈ setup_regs → plain b ∧ is_Some (mem s !! b) ∧ b ≠ portSCB_VTOR_REG ∧ b ≠ vt ∧ b ≠ vt + 44 ∧ b ≠ vt + 56 ∧
    (b < main_stack_limit ∨ top ≤ b) ∧ outside R b;
  mc_stack : 0 ≤ main_stack_limit ∧ main_stack_limit + 44 ≤ top < MAX32 ∧ top mod 4 = 0;
  mc_stack_usable : usable (mem s) main_stack_limit top
}.
Lemma machine_touches R s s' : machine_ok R s → touches R s s' → machine_ok R s'.
Proof.
  intros [(Hi & Hsel & Hg) (Hn & Hpb) (V1 & V2 & V3 & V4 & V5) Hpl (O1 & O2 & O3 & O4) Hr Hst Hu] [C E O].
  assert (IPSR s' = IPSR s ∧ SPSEL s' = SPSEL s ∧ gpr s' = gpr s ∧ prio_bits s' = prio_bits s) as (C1 & C2 & C3 & C4)
    by (rewrite <- C; split_and!; reflexivity).
  split; rewrite ?C1, ?C2, ?C3, ?C4; try done.
  - rewrite (O _ O1), (O _ O2), (O _ O3), (O _ O4). done.
  - intros b Hb. destruct (Hr b Hb) as (? & ? & ?). split; [done|]. split; [by apply E|done].
  - by eapply usable_mono.
Qed.

(** The contexts the tasks are to start with. *)
Definition contexts_of (xs : list task_spec) (m : gmap Z Z) : gmap Z (context * gmap Z Z) :=
  list_to_map ((λ x, (ts_tcb x, (start_of x, m))) <$> xs).
Lemma contexts_lookup xs m x : NoDup (ts_tcb <$> xs) → x ∈ xs → contexts_of xs m !! ts_tcb x = Some (start_of x, m).
Proof.
  intros Hnd Hx. unfold contexts_of. apply elem_of_list_to_map; [by rewrite <- list_fmap_compose|].
  apply list_elem_of_fmap. by exists x.
Qed.

(** The kernel is ready to run. *)
Lemma pre_kernel_ok xs k idle : pre_kernel xs k → idle ∈ ts_tcb <$> xs → kernel_ok idle (started k).
Proof.
  intros [_ [[-> _]|(v & Hns & _ & Hall)]] Hin; [by apply not_elem_of_nil in Hin|]. exists v.
  destruct (started_inv k v Hns) as [Hinv Hb]. split; [done|by right; right|].
  apply list_elem_of_fmap in Hin as (x & -> & Hx). destruct (Hall x Hx) as (y & Hy & _).
  exists (uxPriority y). by apply (ns_ready _ _ Hns).
Qed.

(** With the tasks created, the processor is as [xPortStartScheduler] needs it. *)
Lemma pre_boot xs i x idle s :
  pre_board top xs i → machine_ok (regions_of xs) (board i) → NoDup (ts_tcb <$> xs) → apart (regions_of xs) →
  best xs = Some x → idle ∈ ts_tcb <$> xs →
  s = (board i) <| BASEPRI := configMAX_SYSCALL_INTERRUPT_PRIORITY |> <| ker := started (kern i) |> →
  boot_ok idle (regions_of xs) (contexts_of xs (mem s)) (ts_tcb x) n top vt s.
Proof.
  intros [Hk Hreg Hpark _] Hmc Hnd Hap Hbest Hidle Hs. pose proof (best_in _ _ Hbest) as Hx.
  assert (mem s = mem (board i) ∧ STKALIGN s = STKALIGN (board i) ∧ ker s = started (kern i)) as (Hm & Hal & Hks) by by subst.
  assert (IPSR s = IPSR (board i) ∧ SPSEL s = SPSEL (board i) ∧ gpr s = gpr (board i) ∧ prio_bits s = prio_bits (board i))
    as (C1 & C2 & C3 & C4) by by subst.
  clear Hs. pose proof (pre_kernel_ok xs _ idle Hk Hidle) as Hok. destruct Hk as [Hst Hk].
  assert (pxCurrentTCB (kern i) = ts_tcb <$> best xs) as Hcur.
  { destruct Hk as [[-> _]|(v & _ & ? & _)]; [by apply not_elem_of_nil in Hx|done]. }
  rewrite Hbest in Hcur. simpl in Hcur. destruct Hmc as [Mm Mp Mv Mpl Mo Mr Ms Mu].
  split; rewrite ?C1, ?C2, ?C3, ?C4, ?Hm; try done.
  - rewrite Hks. split; [exact Hcur|]. eexists. apply regions_lookup; eauto.
  - by rewrite Hks.
  - by rewrite Hks.
  - by rewrite Hks.
  - intros u r Hu. eapply region_ok_same; [by apply Hreg|by rewrite Hm|by rewrite Hm].
  - intros u r (y & Hy & <- & <-)%regions_lookup; [|done]. eexists _, _. split; [by apply contexts_lookup|].
    destruct (Hpark y Hy) as (Hsv & Hsp & _). split; [|split; [done|by rewrite Hm]].
    eapply saved_same; [exact Hsv|done|by rewrite Hm|by rewrite Hm].
Qed.
End boot.

(** ** Several tasks *)
Lemma regions_prefix xs ys : NoDup (ts_tcb <$> (xs ++ ys)) → regions_of xs ⊆ regions_of (xs ++ ys).
Proof.
  intros Hnd. assert (NoDup (ts_tcb <$> xs)) as Hnd0 by (rewrite fmap_app in Hnd; by apply NoDup_app in Hnd as (? & _)).
  apply map_subseteq_spec. intros u r (x & Hx & Hu)%regions_lookup; [|done]. apply regions_lookup; [done|].
  exists x. split; [apply elem_of_app; by left|done].
Qed.
Lemma apart_sub (R R' : gmap Z (Z * Z)) : R ⊆ R' → apart R' → apart R.
Proof.
  intros Hsub [H1 H2]. split; intros t u r r' Ht Hu; [intros Hne|].
  - apply (H1 t u); [by eapply lookup_weaken..|done].
  - apply (H2 t u r); by eapply lookup_weaken.
Qed.

Section create.
Context `{Link} (top : Z).

(** What creating the tasks [all] one after the other asks for. *)
Record to_create (all : list task_spec) (s : core) : Prop := {
  tc_nodup : NoDup (ts_tcb <$> all);
  tc_apart : apart (regions_of all);
  tc_memory : ∀ x, x ∈ all → memory_for top s x;
  tc_few : Z.of_nat (length all) < 1000000
}.
Lemma to_create_touches all s s' : to_create all s → touches (regions_of all) s s' → to_create all s'.
Proof.
  intros [? ? Hm ?] Ht. split; try done. intros x Hx. eapply memory_for_mono; [by apply Hm|exact Ht].
Qed.

(** The next task of [all]. *)
Lemma wp_create_next xs x ys i (Q : option Z → tsys → Prop) :
  let all := xs ++ x :: ys in
  pre_board top xs i → to_create all (board i) →
  (∀ i', pre_board top (xs ++ [x]) i' → touches (regions_of all) (board i) (board i') → Q (Some (ts_tcb x)) i') →
  wp (create_task x) Q i.
Proof.
  intros all Hpre [Hnd Hap Hmem Hlen] HQ. assert (all = (xs ++ [x]) ++ ys) as Hall by by rewrite <- app_assoc.
  rewrite Hall in Hnd, Hap, Hlen. pose proof (regions_prefix _ _ Hnd) as Hsub.
  apply (wp_create_task top xs x i Q Hpre).
  - apply Hmem, elem_of_app. right. by left.
  - rewrite fmap_app in Hnd. by apply NoDup_app in Hnd as (? & _).
  - by eapply apart_sub.
  - rewrite !length_app in Hlen. simpl in Hlen. lia.
  - intros i' Hpre' Ht. apply HQ; [done|]. rewrite Hall. by eapply touches_sub.
Qed.
Lemma wp_create_tasks ys zs : ∀ xs i (Q : unit → tsys → Prop),
  let all := xs ++ ys ++ zs in
  pre_board top xs i → to_create all (board i) →
  (∀ i', pre_board top (xs ++ ys) i' → touches (regions_of all) (board i) (board i') → Q tt i') →
  wp (create_tasks ys) Q i.
Proof.
  induction ys as [|y ys IH]; intros xs i Q all Hpre Hc HQ.
  - apply wp_ret, HQ; [by rewrite app_nil_r|apply touches_refl].
  - simpl. apply wp_bind, (wp_create_next xs y (ys ++ zs)); [done|done|]. intros i1 Hpre1 Ht1.
    assert (all = (xs ++ [y]) ++ ys ++ zs) as Hall by (unfold all; by rewrite <- app_assoc).
    change (touches (regions_of all) (board i) (board i1)) in Ht1.
    pose proof (to_create_touches all _ _ Hc Ht1) as Hc1. rewrite Hall in Hc1, Ht1.
    apply (IH (xs ++ [y])); [done|done|].
    intros i2 Hpre2 Ht2. rewrite <- app_assoc in Hpre2. apply HQ; [exact Hpre2|]. rewrite Hall. by eapply touches_trans.
Qed.

(** The lists of a queue change nothing. *)
Lemma pre_board_lists xs i k' v' l :
  xs ≠ [] → pre_board top xs i → not_started k' v' → k' = (kern i) <| k_lists := l |> →
  pre_board top xs (i <| board ::= λ c, c <| ker := k' |> |>).
Proof.
  intros Hne [[Hst Hk] Hreg Hpark Hn] Hns Hk'. split; simpl.
  - split; [by rewrite Hk'|]. right. exists v'. split; [done|].
    destruct Hk as [[-> _]|(v & _ & Hc & Hall)]; [done|]. rewrite Hk'. by split.
  - intros u r Hu. by eapply region_ok_same; [by apply Hreg|..].
  - intros x Hx. destruct (Hpark x Hx) as (Hsv & ? & ?). split; [by eapply saved_same; [exact Hsv|..]|done].
  - done.
Qed.
End create.

(** ** The tasks of the kernel *)
Section kernel_tasks.
Context `{HeapLayout} `{TimerLayout} `{Link} `{StartLayout} (top : Z).

Definition idle_task : task_spec :=
  mkSpec xIdleTaskTCB uxIdleTaskStack configMINIMAL_STACK_SIZE addr_prvIdleTask 0 tskIDLE_PRIORITY (Some idle_name).
Definition timer_task : task_spec :=
  mkSpec xTimerTaskTCB uxTimerTaskStack configTIMER_TASK_STACK_DEPTH addr_prvTimerTask 0 configTIMER_TASK_PRIORITY
    (Some configTIMER_SERVICE_TASK_NAME).

Lemma wp_prvCreateIdleTasks xs ys s (Q : bool → bsys → Prop) :
  let all := xs ++ idle_task :: ys in
  pre_board top xs (s_info s) → to_create top all (s_board s) →
  (∀ s', pre_board top (xs ++ [idle_task]) (s_info s') → touches (regions_of all) (s_board s) (s_board s') →
     xIdleTaskHandles s' = Some xIdleTaskTCB → s_timers s' = s_timers s → Q true s') →
  wp prvCreateIdleTasks Q s.
Proof.
  intros all Hpre Hc HQ. unfold prvCreateIdleTasks. simpl. fold (create_task idle_task).
  apply wp_bind, wp_zoom, (wp_create_next top xs idle_task ys); [done|done|]. intros i' Hpre' Ht'.
  apply wp_bind, wp_modify, wp_ret. by apply HQ.
Qed.

Lemma wp_create_timer_task xs ys s (Q : bool → bsys → Prop) :
  let all := xs ++ timer_task :: ys in
  xs ≠ [] → xStaticTimerQueue ≠ 0 → ucStaticTimerQueueStorage ≠ 0 →
  pre_board top xs (s_info s) → to_create top all (s_board s) →
  (∀ s', pre_board top (xs ++ [timer_task]) (s_info s') → touches (regions_of all) (s_board s) (s_board s') →
     xIdleTaskHandles s' = xIdleTaskHandles s → xTimerTaskHandle (s_timers s') = xTimerTaskTCB →
     xTimerQueue (s_timers s') ≠ 0 → (xTimerQueue (s_timers s) = 0 → timer_queue_made (s_timers s')) → Q true s') →
  wp create_timer_task Q s.
Proof.
  intros all Hne Hq Hst Hpre Hc HQ. unfold create_timer_task. apply wp_bind, wp_zoom.
  assert (∃ v, not_started (tm_kernel (lend s)) v) as [v Hns].
  { destruct (pb_kernel _ _ _ Hpre) as [_ [[-> _]|(v & ? & _)]]; [done|by exists v]. }
  apply (wp_prvCheckForValidListAndQueue _ v); [done..|]. intros t' l v' Hns' Hk' Hq' Hmade.
  assert (tm_kernel t' = (s_ker s) <| k_lists := l |>) as Hk by (rewrite Hk'; reflexivity).
  apply wp_bind, wp_gets. change (xTimerQueue (s_timers (give_back t' s))) with (xTimerQueue t').
  rewrite (proj2 (Z.eqb_neq _ 0) Hq'). cbn [negb vApplicationGetTimerTaskMemory].
  fold (create_task timer_task).
  pose proof (pre_board_lists top xs (s_info s) (tm_kernel t') v' l Hne Hpre Hns' Hk) as Hpre1.
  assert (touches (regions_of all) (s_board s) (s_board (give_back t' s))) as Ht1 by apply touches_ker.
  apply wp_bind, wp_bind, wp_zoom, (wp_create_next top xs timer_task ys); [exact Hpre1|by eapply to_create_touches|].
  intros i2 Hpre2 Ht2. apply wp_bind, wp_modify, wp_ret, wp_bind, wp_assert; [done|]. apply wp_ret.
  apply HQ; [exact Hpre2|eapply touches_trans; [exact Ht1|exact Ht2]|done|done|done|exact Hmade].
Qed.
End kernel_tasks.
