(* ===== verification/StartProps.v ===== *)
(** * Start-up as a whole: the theorem *)
From S2P Require Import Prelude KList KListSpec KListProps Tasks TasksView TasksInv TasksTick TasksOps TasksCreate TasksMachine.
From S2P Require Import TasksCheck Queue SchedLock Heap4 QueueMgmt TaskLife Timers Port PortSwitch PortKernel PortMachine.
From S2P Require Import PortTasks PortStart PortProps TaskInfo TaskStart StartBoard.

Section start.
Context `{HeapLayout} `{TimerLayout} `{Link} `{StartLayout} (n top vt : Z).

(** The first task runs from its first instruction, the others are ready with
    their first contexts on their stacks. *)
Record first_task_runs (all : list task_spec) (x : task_spec) (s : tsys) : Prop := {
  fr_current : pxCurrentTCB (kern s) = Some (ts_tcb x);
  fr_context : context_of (board s) = start_of x;
  fr_mode : in_task (board s);
  fr_enabled : BASEPRI (board s) = 0 ∧ PRIMASK (board s) = false ∧ FAULTMASK (board s) = false ∧ uxCriticalNesting (board s) = 0;
  fr_others : ∀ y, y ∈ all → y ≠ x → saved (board s) (ts_tcb y) (start_of y);
  fr_kernel : xSchedulerRunning (kern s) = true ∧ xTickCount (kern s) = 0 ∧ uxCurrentNumberOfTasks (kern s) = Z.of_nat (length all);
  fr_ready : ∀ y, y ∈ all → ready (kern s) (ts_tcb y) = true ∧ prio (kern s) (ts_tcb y) = Some (ts_prio y);
  fr_names : ∀ y, y ∈ all → pcTaskName s !! ts_tcb y = Some (stored_name (ts_name y))
}.

Lemma first_task_facts all x idle main_top i b :
  pre_board top all i → NoDup (ts_tcb <$> all) → all ≠ [] → best all = Some x →
  board_ok idle main_top (regions_of all) (contexts_of all (mem (board i))) (ts_tcb x) b →
  context_of b = start_of x → ker b = started (kern i) → PRIMASK b = false → FAULTMASK b = false → uxCriticalNesting b = 0 →
  first_task_runs all x (i <| board := b |>).
Proof.
  intros [[Hst Hk] _ _ Hnames] Hnd Hne Hbest Hok Hctx Hker Hp Hf Hn.
  destruct Hk as [[-> _]|(v & Hns & Hcur & Hall)]; [done|].
  destruct (bo_nest _ _ _ _ _ _ Hok) as [_ Hb]. rewrite Hn in Hb.
  destruct (started_inv _ _ Hns) as [Hinv _].
  split; simpl.
  - rewrite (bo_cur _ _ _ _ _ _ Hok). done.
  - done.
  - apply Hok.
  - done.
  - intros y Hy Hyx. destruct (bo_parked _ _ _ _ _ _ Hok (ts_tcb y) (ts_region y)) as (c & m & HX & Hpk & _).
    + apply regions_lookup; [done|]. by exists y.
    + intros Heq. apply Hyx. apply (tcb_inj all); [done|done|by apply best_in|done].
    + rewrite contexts_lookup in HX by done. by injection HX as <- <-.
  - rewrite Hker. split; [done|]. split; [done|]. change (uxCurrentNumberOfTasks (kern i) = Z.of_nat (length all)).
    by rewrite (ns_count _ _ Hns), (pre_size all _ Hst Hnd).
  - intros y Hy. rewrite Hker. destruct (Hall y Hy) as (z & Hz & <-).
    apply (ready_any _ v Hinv). by apply (ns_ready _ _ Hns).
  - done.
Qed.

(** The end of [vTaskStartScheduler], once the tasks exist. *)
Lemma wp_last_steps all x idle s (Q : unit → bsys → Prop) :
  pre_board top all (s_info s) → machine_ok n top vt (regions_of all) (s_board s) → to_create top all (s_board s) →
  best all = Some x → idle ∈ ts_tcb <$> all →
  (∀ i, first_task_runs all x i →
     (∃ X, board_ok idle (main_top_after (STKALIGN (s_board s)) top) (regions_of all) X (ts_tcb x) (board i)) →
     Q tt (s <| s_info := i |>)) →
  wp (si (on_board portDISABLE_INTERRUPTS) ;> si (tk startKernel) ;> si (on_board xPortStartScheduler)) Q s.
Proof.
  intros Hpre Hmc [Hnd Hap _ _] Hbest Hidle HQ. pose proof (best_in _ _ Hbest) as Hx.
  assert (all ≠ []) as Hne by (intros ->; by apply not_elem_of_nil in Hx).
  destruct s as [[b names numbers] tm h]. cbn [s_info board] in *.
  apply wp_bind, wp_zoom, wp_zoom, wp_modify, wp_bind, wp_zoom, wp_zoom, wp_zoom, wp_modify, wp_zoom, wp_zoom. simpl.
  set (b1 := set_field ker _ _).
  assert (b1 = b <| BASEPRI := configMAX_SYSCALL_INTERRUPT_PRIORITY |> <| ker := started (ker b) |>) as Hb1 by reflexivity.
  assert (STKALIGN b1 = STKALIGN b ∧ ker b1 = started (ker b) ∧ mem b1 = mem b) as (Hal & Hk & Hm) by (by split_and!).
  clearbody b1. pose proof (pre_boot n top vt all _ x idle b1 Hpre Hmc Hnd Hap Hbest Hidle Hb1) as Hbt. clear Hb1.
  apply (wp_xPortStartScheduler idle _ _ (ts_tcb x) n top vt b1 Hbt). intros b2 c m HX Hok Hctx Hkb Hp Hf Hn.
  rewrite contexts_lookup in HX by done. injection HX as <- <-. rewrite Hal in Hok.
  apply (HQ (mkTsys b2 names numbers)); [|by eexists].
  apply (first_task_facts all x idle (main_top_after (STKALIGN b) top) (mkTsys b names numbers) b2); try done.
  - simpl. by rewrite <- Hm.
  - by rewrite Hkb, Hk.
Qed.

(** C25: start-up as a whole.  From the state after reset, [main] creates any
    tasks (each with a stack and a TCB of its own, the priorities in range) and
    calls [vTaskStartScheduler]: every call succeeds, the idle task and the timer
    task are there beside those of [main] with their handles stored, the timers'
    queue is made and empty, all tasks are ready; and the processor ends up in
    the last created of the tasks with the highest priority, at its function's
    entry with its parameter, outside all critical sections, while each other
    task's stack holds the context it will start with.  The state is one from
    which the machine of the port's theorem runs ([board_ok]). *)
Theorem vTaskStartScheduler_starts xs s0 m :
  let all := xs ++ [idle_task; timer_task] in
  at_reset (s_ker s0) m → machine_ok n top vt (regions_of all) (s_board s0) → to_create top all (s_board s0) →
  xStaticTimerQueue ≠ 0 → ucStaticTimerQueueStorage ≠ 0 → xTimerQueue (s_timers s0) = 0 →
  wp (si (create_tasks xs) ;> vTaskStartScheduler) (λ _ s, ∃ x,
    best all = Some x ∧ first_task_runs all x (s_info s) ∧
    xIdleTaskHandles s = Some xIdleTaskTCB ∧ xTimerTaskHandle (s_timers s) = xTimerTaskTCB ∧
    timer_queue_made (s_timers s) ∧
    ∃ X, board_ok xIdleTaskTCB (main_top_after (STKALIGN (s_board s0)) top) (regions_of all) X (ts_tcb x) (s_board s)) s0.
Proof.
  intros all Hreset Hmc Hc Hq Hst Hq0.
  assert (pre_board top [] (s_info s0)) as Hpre.
  { split; [split; [|left; split; [done|by exists m]]| | |]; try by intros ? ?%not_elem_of_nil.
    - by rewrite (re_tcbs _ _ Hreset).
    - done. }
  assert (all = [] ++ xs ++ [idle_task; timer_task]) as Hall by done.
  apply wp_bind, wp_zoom, (wp_create_tasks top xs [idle_task; timer_task] [] (s_info s0)); [done|done|]. intros i1 Hpre1 Ht1.
  simpl in Hpre1. change (touches (regions_of all) (s_board s0) (board i1)) in Ht1.
  set (s1 := s0 <| s_info := i1 |>). assert (to_create top all (s_board s1)) as Hc1 by (by eapply to_create_touches).
  unfold vTaskStartScheduler. apply wp_bind, (wp_prvCreateIdleTasks top xs [timer_task] s1); [exact Hpre1|exact Hc1|].
  intros s2 Hpre2 Ht2 Hidle2 Htm2. change (touches (regions_of all) (s_board s1) (s_board s2)) in Ht2.
  assert (to_create top all (s_board s2)) as Hc2 by (by eapply to_create_touches).
  assert (all = (xs ++ [idle_task]) ++ [timer_task]) as Hall2 by (unfold all; by rewrite <- app_assoc).
  rewrite Hall2 in Hc2.
  apply wp_bind, (wp_create_timer_task top (xs ++ [idle_task]) [] s2); [by destruct xs|done|done|exact Hpre2|exact Hc2|].
  intros s3 Hpre3 Ht3 Hidle3 Hth3 Hqne Hmade. rewrite <- Hall2 in Hpre3, Ht3.
  assert (touches (regions_of all) (s_board s0) (s_board s3)) as Ht by (eapply touches_trans; [exact Ht1|]; by eapply touches_trans).
  destruct (best_some all) as [x Hx]; [unfold all; by destruct xs|].
  apply (wp_last_steps all x xIdleTaskTCB s3); [exact Hpre3|exact (machine_touches n top vt _ _ _ Hmc Ht)|exact (to_create_touches top all _ _ Hc Ht)|exact Hx| |].
  - apply list_elem_of_fmap. exists idle_task. split; [done|]. unfold all. apply elem_of_app. right. by left.
  - intros i Hfirst Hok. exists x. split; [exact Hx|]. split; [exact Hfirst|].
    split; [exact (eq_trans Hidle3 Hidle2)|]. split; [exact Hth3|]. split.
    + apply Hmade. rewrite Htm2. exact Hq0.
    + assert (STKALIGN (s_board s3) = STKALIGN (s_board s0)) as Hal by (rewrite <- (to_cpu _ _ _ Ht); reflexivity).
      rewrite Hal in Hok. exact Hok.
Qed.
End start.

(** ** A concrete start-up: a board after reset, and a [main] that creates two tasks of priority 6 *)
#[export] Instance ex_start_heap : HeapLayout := {| ucHeap := 536870916; xStart := 536870904 |}.
#[export] Instance ex_start_timers : TimerLayout := {|
  xStaticTimerQueue := 700; ucStaticTimerQueueStorage := 1000; xTimerTaskTCB := 4400; uxTimerTaskStack := 24576;
  vEventGroupSetBitsCallback_address := 501; vEventGroupClearBitsCallback_address := 503
|}.
#[export] Instance ex_start_layout : StartLayout := {|
  xIdleTaskTCB := 4096; uxIdleTaskStack := 8192; addr_prvIdleTask := 601; addr_prvTimerTask := 603
|}.

(** Deciding the conditions on the tasks' memory *)
Definition outside_check (xs : list task_spec) (b : Z) : bool :=
  forallb (λ x, negb (b =? ts_tcb x) && ((b <? (ts_region x).1) || ((ts_region x).2 <=? b))) xs.
Lemma outside_check_ok xs b : NoDup (ts_tcb <$> xs) → outside_check xs b = true → outside (regions_of xs) b.
Proof.
  intros Hnd Hc u r (x & Hx & <- & <-)%regions_lookup; [|done]. unfold outside_check in Hc.
  rewrite <- Is_true_true, forallb_True, Forall_forall in Hc. specialize (Hc x Hx). apply Is_true_true in Hc. lia.
Qed.
Definition apart_check (xs : list task_spec) : bool :=
  forallb (λ x, forallb (λ y,
    ((ts_tcb x =? ts_tcb y) || ((ts_region x).2 <=? (ts_region y).1) || ((ts_region y).2 <=? (ts_region x).1)) &&
    ((ts_tcb x <? (ts_region y).1) || ((ts_region y).2 <=? ts_tcb x))) xs) xs.
Lemma apart_check_ok xs : NoDup (ts_tcb <$> xs) → apart_check xs = true → apart (regions_of xs).
Proof.
  intros Hnd Hc. unfold apart_check in Hc. rewrite <- Is_true_true, forallb_True, Forall_forall in Hc.
  assert (∀ x y, x ∈ xs → y ∈ xs → (ts_tcb x = ts_tcb y ∨ (ts_region x).2 ≤ (ts_region y).1 ∨ (ts_region y).2 ≤ (ts_region x).1) ∧
    (ts_tcb x < (ts_region y).1 ∨ (ts_region y).2 ≤ ts_tcb x)) as Hp.
  { intros x y Hx Hy. specialize (Hc x Hx). rewrite forallb_True, Forall_forall in Hc. specialize (Hc y Hy).
    apply Is_true_true in Hc. lia. }
  split.
  - intros t u r r' (x & Hx & <- & <-)%regions_lookup (y & Hy & <- & <-)%regions_lookup Hne; [|done..].
    destruct (Hp x y Hx Hy) as [? _]. lia.
  - intros t u r r' (x & Hx & <- & <-)%regions_lookup (y & Hy & <- & <-)%regions_lookup; [|done..]. by apply Hp.
Qed.
Definition memory_check `{Link} (top : Z) (s : core) (x : task_spec) : bool :=
  let '(lo, hi) := ts_region x in
  (0 <? lo) && (lo mod 4 =? 0) && (24 <=? ts_depth x) && (hi <? MAX32) && usable_check (mem s) lo (ts_depth x) &&
  negb (ts_tcb x =? 0) && plain_check (ts_tcb x) && bool_decide (is_Some (mem s !! ts_tcb x)) &&
  ((hi <=? main_stack_limit) || (top <=? lo)) && ((ts_tcb x <? main_stack_limit) || (top <=? ts_tcb x)) &&
  (0 <=? ts_prio x) && (ts_prio x <? configMAX_PRIORITIES).

(** ** The board *)
Definition ex_task1 : task_spec := mkSpec 4200 16384 40 801 7 6 (Some [65; 0]).
Definition ex_task2 : task_spec := mkSpec 4300 20480 40 803 9 6 (Some [66; 0]).
Definition ex_main_tasks : list task_spec := [ex_task1; ex_task2].
Definition ex_all_tasks : list task_spec := ex_main_tasks ++ [idle_task; timer_task].
Definition ex_zeros (x : task_spec) (m : gmap Z Z) : gmap Z Z :=
  <[ts_tcb x := 0]> (write m (ts_stack x) (replicate (Z.to_nat (ts_depth x)) 0)).
Definition ex_start_mem : gmap Z Z :=
  foldr ex_zeros (write ex_vectors 32768 (replicate 64 0)) ex_all_tasks.
Definition ex_start_board : core :=
  mkCore (replicate 13 0) 0 0 0 0 33024 0 false 0 true true true ex_start_mem ∅ 255 2863311530 0 0 reset_kernel.
Definition ex_start : bsys :=
  mkBsys (mkTsys ex_start_board ∅ ∅)
    (mkTmsys (mkGuarded (mkQsys zero_kernel ∅ (replicate 10 (mkRegistryItem None 0))) zero_heap) ∅ (mkStore ∅ ∅) None None 0 0 0) None.
Example ex_starts : match (si (create_tasks ex_main_tasks) ;> vTaskStartScheduler) ex_start with
  | ROk (_, s) => (pxCurrentTCB (s_ker s), pc (s_board s), get_reg (R 0) (s_board s), xIdleTaskHandles s) = (Some 4300, 802, 9, Some 4096)
  | _ => False end.
Proof. by vm_compute. Qed.
#[local] Opaque ex_start_mem.

Lemma ex_all_nodup : NoDup (ts_tcb <$> ex_all_tasks).
Proof. apply (bool_decide_unpack _). by vm_compute. Qed.
Lemma ex_all_apart : apart (regions_of ex_all_tasks).
Proof. apply apart_check_ok; [exact ex_all_nodup|by vm_compute]. Qed.
Lemma memory_check_ok top s x : memory_check top s x = true → memory_for top s x.
Proof.
  unfold memory_check, ts_region. cbn iota. intros Hc.
  repeat match goal with H : (_ && _) = true |- _ => apply andb_true_iff in H as [H ?] end.
  match goal with H : bool_decide _ = true |- _ => apply bool_decide_eq_true in H end.
  split; [lia| | |unfold ts_region; cbn [fst snd]; lia|lia|lia].
  - unfold ts_region. cbn [fst snd]. apply (usable_check_ok _ _ _ (ts_depth x)); [done|lia|done].
  - split_and!; [lia|by apply plain_check_ok|done].
Qed.
Lemma ex_all_memory : forallb (memory_check 33024 ex_start_board) ex_all_tasks = true.
Proof. by vm_compute. Qed.
Lemma ex_to_create : to_create 33024 ex_all_tasks ex_start_board.
Proof.
  split; [exact ex_all_nodup|exact ex_all_apart| |by vm_compute].
  intros x Hx. apply memory_check_ok. pose proof ex_all_memory as Hc.
  rewrite <- Is_true_true, forallb_True, Forall_forall in Hc. by apply Is_true_true, Hc.
Qed.

Definition reg_check (b : Z) : bool :=
  plain_check b && bool_decide (is_Some (ex_start_mem !! b)) && (3758153744 <=? b) && negb (b =? portSCB_VTOR_REG) &&
  outside_check ex_all_tasks b.
Lemma ex_setup_regs : forallb reg_check setup_regs = true.
Proof. by vm_compute. Qed.
Lemma ex_machine_ok : machine_ok 8 33024 1024 (regions_of ex_all_tasks) ex_start_board.
Proof.
  split.
  - done.
  - done.
  - split_and!; by vm_compute.
  - split_and!; apply plain_check_ok; by vm_compute.
  - split_and!; (apply outside_check_ok; [exact ex_all_nodup|by vm_compute]).
  - intros b Hb. pose proof ex_setup_regs as Hc. rewrite <- Is_true_true, forallb_True, Forall_forall in Hc.
    specialize (Hc b Hb). apply Is_true_true in Hc. unfold reg_check in Hc.
    repeat match goal with H : (_ && _) = true |- _ => apply andb_true_iff in H as [H ?] end.
    match goal with H : bool_decide _ = true |- _ => apply bool_decide_eq_true in H end.
    split; [by apply plain_check_ok|]. split; [done|]. split; [lia|]. do 3 (split; [lia|]). split; [right; lia|].
    apply outside_check_ok; [exact ex_all_nodup|done].
  - split_and!; by vm_compute.
  - apply (usable_check_ok _ _ _ 64); [by vm_compute|done|done].
Qed.

Lemma ex_best : best ex_all_tasks = Some ex_task2.
Proof. by vm_compute. Qed.

Lemma vTaskStartScheduler_starts_witness :
  wp (si (create_tasks ex_main_tasks) ;> vTaskStartScheduler) (λ _ s,
    first_task_runs ex_all_tasks ex_task2 (s_info s) ∧ xIdleTaskHandles s = Some 4096) ex_start.
Proof.
  pose proof (vTaskStartScheduler_starts 8 33024 1024 ex_main_tasks ex_start _ reset_rings ex_machine_ok ex_to_create
    ltac:(discriminate) ltac:(discriminate) eq_refl) as Hw.
  cbv zeta in Hw. refine (wp_mono _ _ _ _ Hw _). clear Hw.
  intros u s (x & Hx & Hfirst & Hidle & _). apply (eq_trans (eq_sym ex_best)), Some_inj in Hx. split.
  - exact (eq_ind_r (λ y, first_task_runs ex_all_tasks y (s_info s)) Hfirst Hx).
  - exact Hidle.
Defined.
