(* ===== verification/SysArch.v ===== *)
(** * The system layer of lwIP (src/FreeRTOS/Demo/CORTEX_MPS2_QEMU_IAR_GCC/sys_arch.c)

    Semaphores, mutexes, mailboxes and threads of lwIP over the kernel's queues
    and tasks.  A [sys_sem_t], [sys_mutex_t] or [sys_mbox_t] is a handle; a pointer
    to one is given by what it points at, [None] for [NULL], and a function that
    writes it answers the new contents.  The two ends of a critical section are
    those of the port. *)
From S2P Require Import Prelude KList Tasks Prog Queue SchedLock Heap4 QueueMgmt TaskLife PosixShim Port.

(** lwIP's [err.h] and [sys.h] *)
Definition ERR_OK : Z := 0.
Definition ERR_MEM : Z := -1.
Definition SYS_ARCH_TIMEOUT : Z := 4294967295.
Definition SYS_MBOX_EMPTY : Z := SYS_ARCH_TIMEOUT.
Definition portTICK_PERIOD_MS : Z := 1000 / configTICK_RATE_HZ.
Definition sizeof_void_ptr : Z := 4.

Section sys_arch.
Context `{HeapLayout}.

Definition sys_init : QHM unit := retM tt.

(** The handle a pointer that is not checked points at. *)
Definition pointed (p : option Z) : QHP Z := Atomic (derefM p).
(** What the functions that create an object do with its handle. *)
Definition name_object (handle : Z) (name : string) : QHM Z :=
  (when negb (handle =? 0) then on_sched (vQueueAddToRegistry handle (Some name))) ;>
  retM (if negb (handle =? 0) then ERR_OK else ERR_MEM).
(** And those that free one: the new contents of the variable. *)
Definition free_object (object : option Z) : QHM (option Z) :=
  match object with
  | Some handle => if negb (handle =? 0) then vSemaphoreDelete handle ;> retM (Some 0) else retM object
  | None => retM None
  end.

(** ** Semaphores *)

(** The code, and what [*sem] is. *)
Definition sys_sem_new (count : Z) : QHM (Z * Z) :=
  let* sem := xQueueCreateCountingSemaphore 65535 count in
  let* err := name_object sem "lwip_sem" in
  retM (err, sem).
Definition sys_sem_free (sem : option Z) : QHM (option Z) := free_object sem.
Definition sys_sem_signal (sem : option Z) : QHP unit :=
  match sem with
  | Some handle => if negb (handle =? 0) then (let! _ := onP (xSemaphoreGive handle) in Ret tt) else Ret tt
  | None => Ret tt
  end.
(** The ticks to wait for a time-out in milliseconds, 0 being for ever. *)
Definition timeout_in_ticks (timeout : Z) : Z :=
  if timeout =? 0 then portMAX_DELAY
  else let timeout_ticks := pdMS_TO_TICKS timeout in if timeout_ticks =? 0 then 1 else timeout_ticks.
(** [( xTaskGetTickCount() - start_tick ) * portTICK_PERIOD_MS] *)
Definition elapsed_ms (start_tick : Z) : QHP Z :=
  let! now := Atomic (on_kernel xTaskGetTickCount) in
  Ret (wrap32 (wrap32 (now - start_tick) * portTICK_PERIOD_MS)).
Definition sys_arch_sem_wait (sem : option Z) (timeout : Z) : QHP Z :=
  let! start_tick := Atomic (on_kernel xTaskGetTickCount) in
  let! handle := pointed sem in
  let! taken := onP (xSemaphoreTake handle (timeout_in_ticks timeout)) in
  if negb taken then Ret SYS_ARCH_TIMEOUT else elapsed_ms start_tick.

(** ** Mutexes *)
Definition sys_mutex_new : QHP (Z * Z) :=
  let! mutex := xQueueCreateMutex queueQUEUE_TYPE_MUTEX in
  let! err := Atomic (name_object mutex "lwip_mutex") in
  Ret (err, mutex).
Definition sys_mutex_free (mutex : option Z) : QHM (option Z) := free_object mutex.
Definition sys_mutex_lock (mutex : option Z) : QHP unit :=
  match mutex with
  | Some handle => if negb (handle =? 0) then (let! _ := onP (xSemaphoreTake handle portMAX_DELAY) in Ret tt) else Ret tt
  | None => Ret tt
  end.
Definition sys_mutex_unlock (mutex : option Z) : QHP unit :=
  match mutex with
  | Some handle => if negb (handle =? 0) then (let! _ := onP (xSemaphoreGive handle) in Ret tt) else Ret tt
  | None => Ret tt
  end.

(** ** Mailboxes: queues of pointers *)
Definition sys_mbox_new (size : Z) : QHM (Z * Z) :=
  let* mbox := xQueueGenericCreate (wrap32 size) sizeof_void_ptr queueQUEUE_TYPE_BASE in
  let* err := name_object mbox "lwip_mbox" in
  retM (err, mbox).
Definition sys_mbox_free (mbox : option Z) : QHM (option Z) :=
  match mbox with
  | Some handle => if negb (handle =? 0) then vQueueDelete handle ;> retM (Some 0) else retM mbox
  | None => retM None
  end.
Definition sys_mbox_post (mbox : option Z) (msg : Z) : QHP unit :=
  let! handle := pointed mbox in
  let! _ := onP (xQueueSendToBack handle (Some (ptr_bytes msg)) portMAX_DELAY) in
  Ret tt.
Definition sys_mbox_trypost (mbox : option Z) (msg : Z) : QHP Z :=
  let! handle := pointed mbox in
  let! sent := onP (xQueueSendToBack handle (Some (ptr_bytes msg)) 0) in
  Ret (if sent then ERR_OK else ERR_MEM).
(** The answer, and the message where there is one; a [NULL] [msg] drops it. *)
Definition sys_arch_mbox_fetch (mbox : option Z) (timeout : Z) : QHP (Z * option Z) :=
  let! start_tick := Atomic (on_kernel xTaskGetTickCount) in
  let! handle := pointed mbox in
  let! msg := onP (xQueueReceive handle true (timeout_in_ticks timeout)) in
  match msg with
  | None => Ret (SYS_ARCH_TIMEOUT, None)
  | Some bytes => let! ms := elapsed_ms start_tick in Ret (ms, Some (ptr_of_bytes bytes))
  end.
Definition sys_arch_mbox_tryfetch (mbox : option Z) : QHP (Z * option Z) :=
  let! handle := pointed mbox in
  let! msg := onP (xQueueReceive handle true 0) in
  Ret (match msg with Some bytes => (0, Some (ptr_of_bytes bytes)) | None => (SYS_MBOX_EMPTY, None) end).

(** ** Threads and time *)

(** The new task's handle, or [NULL]. *)
Definition sys_thread_new (stacksize prio : Z) : QHM Z :=
  let* result := xTaskCreate (wrap32 stacksize) (wrap32 prio) in
  retM (handle_of result).
Definition sys_now : QHM Z :=
  let* now := on_kernel xTaskGetTickCount in retM (wrap32 (now * portTICK_PERIOD_MS)).
End sys_arch.

(** ** Validity of handles *)
Definition handle_valid (object : option Z) : bool := match object with Some handle => negb (handle =? 0) | None => false end.
Definition handle_invalid (object : option Z) : option Z := match object with Some _ => Some 0 | None => None end.
Definition sys_sem_valid (sem : option Z) : bool := handle_valid sem.
Definition sys_sem_set_invalid (sem : option Z) : option Z := handle_invalid sem.
Definition sys_mutex_valid (mutex : option Z) : bool := handle_valid mutex.
Definition sys_mutex_set_invalid (mutex : option Z) : option Z := handle_invalid mutex.
Definition sys_mbox_valid (mbox : option Z) : bool := handle_valid mbox.
Definition sys_mbox_set_invalid (mbox : option Z) : option Z := handle_invalid mbox.

(** ** Critical sections *)
Definition sys_arch_protect `{Link} : C Z := vPortEnterCritical ;> retM 0.
Definition sys_arch_unprotect (pval : Z) : C unit := vPortExitCritical.
